(* ===== verification/_CoqProject ===== *)
-Q . S2P
Prelude.v
FreeQueue.v
Heapq.v
Request.v
RequestQueue.v
EncoderCache.v
StopConditions.v
BlockHash.v
KVCacheSpec.v
KVCacheSizing.v
KVCacheSizingProps.v
KVCacheConfigs.v
BlockPool.v
PoolSafety.v
SingleTypeManager.v
CacheHit.v
Coordinator.v
KVCacheManager.v
KVCacheSafety.v
KVCacheRun.v
KVCacheTheorems.v
KVCacheProps.v
NgramProposer.v
BlockTable.v
BlockTableProps.v
BatchUpdate.v
BatchUpdateProps.v
InputBatch.v
ModelRunner.v
InputBatchView.v
InputBatchProps.v
InputBatchAdd.v
InputBatchMove.v
InputBatchUpdate.v
InputBatchMetadata.v
ModelRunnerProps.v
ModelRunnerStep.v
BatchReorder.v
WorkerProps.v
Offload.v
OffloadLRU.v
OffloadARC.v
OffloadReuse.v
OffloadProps.v
SchedulerState.v
ScheduleStep.v
SchedulerUpdate.v
EngineCore.v
SchedulerLaws.v
ScheduleSafety.v
ScheduleRunning.v
ScheduleWaiting.v
ScheduleFinish.v
SchedulerKV.v
SchedulerRequests.v
SchedulerOutputs.v
EngineRun.v
SchedulerProps.v
EngineProps.v
SchedulerFindings.v
SizingFindings.v
