(* ===== verification/Prelude.v ===== *)
(** * Verification of the vLLM v1 core

    The code under src/vllm/v1/core decides which tokens of which requests run in a
    step and which blocks of the KV cache hold them; the model runner under
    src/vllm/v1/worker keeps a batch of these requests from step to step.  This library
    models that code and proves what the rest of the engine relies on.

    ** The program's parts

    - A [Request] (request.py) holds a prompt, its output tokens and the hashes of its
      full blocks; [BlockHash] chains the hashes (kv_cache_utils.py).
    - The [BlockPool] (block_pool.py) owns the KV cache blocks: a free queue
      ([FreeKVCacheBlockQueue], a doubly linked list), reference counts, and the table
      from hashes to cached blocks.
    - One [SingleTypeKVCacheManager] per attention group (single_type_kv_cache_manager.py)
      holds the block lists of the requests; a coordinator (kv_cache_coordinator.py)
      calls the managers in turn over the shared pool; [KVCacheManager]
      (kv_cache_manager.py) is the scheduler's interface.
    - The scheduler (sched/scheduler.py, sched/async_scheduler.py) holds the running
      requests and two request queues (sched/request_queue.py).  A step asks
      [KVCacheManager] for slots and the encoder cache (encoder_cache_manager.py) for
      space, preempts when there are none, and sends a [SchedulerOutput]
      (sched/output.py); what the model returns is appended to the requests, which stop by
      the conditions of sched/utils.py.
    - The engine core (v1/engine/core.py) calls the scheduler and the model executor in
      turn, with one batch at a time or with more in flight.
    - The model runner (worker/gpu_model_runner.py) takes each [SchedulerOutput] to its
      persistent [InputBatch] (worker/gpu_input_batch.py): requests leave their rows and
      take free ones, rows move together and are put in the order of the attention
      backends (attention/backends/utils.py).  A [BlockTable] (worker/block_table.py)
      says where the tokens of a row go in the KV cache; the logits processors
      (sample/logits_processor) are told what happened to the rows.

    ** Files

    - Prelude: exceptions and the [result] monad, Python list primitives, [cdiv]
      (utils/math_utils.py), sums over maps, tactics.
    - FreeQueue: kv_cache_utils.py's [KVCacheBlock] and [FreeKVCacheBlockQueue] over an
      explicit heap of linked blocks; every operation refines the same operation on
      a plain list.
    - Heapq: CPython's heapq, which the priority queue uses.
    - Request: request.py.  RequestQueue: sched/request_queue.py as two instances of one
      class, with laws, and the scheduler's selection and skipping of waiting requests.
    - EncoderCache: encoder_cache_manager.py.  StopConditions: sched/utils.py.
    - BlockHash: the extra keys, the chained hash, the request's hasher, packed keys.
    - KVCacheSpec: kv_cache_interface.py.
    - KVCacheSizing, KVCacheSizingProps, KVCacheConfigs: the part of kv_cache_utils.py that
      groups layers and sizes the cache; the binary search and the grouping; what
      [get_kv_cache_configs] returns.
    - BlockPool, PoolSafety: block_pool.py; its invariant and its theorems.
    - SingleTypeManager, CacheHit, Coordinator, KVCacheManager: the managers' operations,
      the prefix lookups of the attention types, the coordinators, the interface.
    - KVCacheSafety, KVCacheRun, KVCacheTheorems, KVCacheProps: the ownership invariant
      for one manager, for all managers over one pool, for the interface, and the
      properties.
    - NgramProposer: spec_decode/ngram_proposer.py, its search and its batch.
    - Offload, OffloadLRU, OffloadARC, OffloadReuse, OffloadProps: kv_offload: the
      interface of the offloading managers with its contract as a class, the CPU
      backend, three implementations, and what every client gets from the contract.

    - BlockTable, BlockTableProps: worker/block_table.py, and where its slots are.
    - BatchUpdate, BatchUpdateProps: sample/logits_processor: the builder of batch updates,
      the processors that keep a dict by row, [MinPLogitsProcessor].
    - InputBatch: worker/gpu_input_batch.py.  ModelRunner: [_update_states] and the
      recording of sampled tokens of worker/gpu_model_runner.py, and the reordering.
    - InputBatchView: what a row says about its request ([View]), the batch's invariant
      ([batch_wf]), and the update that is pending.  InputBatchProps, InputBatchAdd,
      InputBatchMove, InputBatchUpdate, InputBatchMetadata: what each operation does to the
      views: removal, addition, [condense] and [swap_states], the update of a row,
      the sampler's metadata.
    - ModelRunnerProps, ModelRunnerStep: one turn of each loop of [_update_states], and the
      step as a whole.  BatchReorder: the reordering.  WorkerProps: the properties, the
      states a worker can reach, and runs.

    - SchedulerState, ScheduleStep, SchedulerUpdate: scheduler.py and async_scheduler.py:
      the state with requests as objects in a store, [schedule], and the operations
      around it ([update_from_output], adding, finishing, streaming sessions, resets).
    - SchedulerLaws: the contracts of the KV cache manager ([KVLaws]) and of the queues
      ([QueueLaws]) as classes; SchedulerKV: [KVCacheManager] meets the first.
    - ScheduleSafety, ScheduleRunning, ScheduleWaiting, ScheduleFinish: the scheduler's
      invariant ([core], [sched_ok]), the loop over the running requests, the loop over
      the waiting ones, the end of a step, all against the contracts.
      SchedulerRequests: construction and [add_request].  SchedulerOutputs:
      [update_from_output] and [finish_requests].
    - EngineCore: [EngineCore] of v1/engine/core.py over the scheduler.  EngineRun: what
      the batches in flight say about the requests, kept by every call.  EngineProps: its
      properties and runs.
    - SchedulerProps, SchedulerFindings, SizingFindings: the properties, over both
      policies, and runs of sizing, scheduler and manager together that end badly.

    Each operation keeps the name it has in the code; where two classes share a name a
    prefix tells them apart ([st_] for one manager, [co_] for the coordinator, [kvm_]
    for the interface, [ecm_] and [ed_] for the encoder caches, [pq_] and [fcfs_] for
    the queues).

    ** What the theorems show

    - Structure: the linked free queue behaves as a list; request queues behave as a
      bag, the priority queue pops a minimum; stop conditions agree with reference
      definitions.
    - Hashing: for requests as [Request.__init__] and [append_output_token_ids] build them,
      hashes are equal exactly for equal prefixes and keys, given an injective hash
      function; appending tokens keeps the hash list the chain of all full blocks.
    - Sizing: the search for the model length ends with the longest that fits; grouping
      loses no layer; all workers get the same blocks, and tensors that fit their memory.
    - Pool: from construction, every sequence of calls that meets its contract runs
      without an exception and keeps queue, counts and table consistent; every
      operation's effect.
    - Prefix lookup: the longest aligned prefix that is cached, for full and for sliding
      window attention.
    - Manager: from construction, every sequence of calls that meets the scheduler's
      contract runs without an exception; every reference is an entry of a block list;
      the capacity check of [allocate_slots] is sufficient; blocks still written to
      are never shared; freeing returns exactly the blocks nobody else holds.
    - Offloading: each manager implements the contract; in a run of the LRU or the ARC
      manager, or of the filter over either, a block being read stays where it is; which blocks are evicted and which are stored.  Drafting: the n-gram search
      finds the earliest longest match.
    - Scheduler: a step always returns: both loops end, no assertion fails, no lookup
      misses; every request stays in exactly one place in a fitting status with a fitting
      cache entry; the scheduled tokens respect the budget, the model length and the slots.
    - Engine: from construction, every run in which the model returns what the requests
      wait for returns: scheduling, outputs, aborts, drafts, pauses and resets, also with
      a batch in flight; every request has as many placeholders as tokens on their way.
    - Worker: every step the scheduler may send succeeds on every reachable batch, and
      leaves in it just the scheduled requests, each row with the [View] it would have when
      built anew from its request, although rows are kept, moved and swapped; the dicts and
      arrays of the logits processors and the sampler's metadata agree with the rows;
      [condense] and the cycles of the reordering end, and [condense] moves a request's mask
      with it; the slots of a step, where they are int32 numbers, never collide, for any
      kernel block size and any division over ranks.
    - Defects: places where the code does not do what it is meant to, each shown by a
      concrete run; those that say that something never happens are proved for any number
      of further steps.

    ** Conventions

    An exception is the value [Err e]; the state at the time of an exception is not
    modelled, the callers do not catch.  Python integers are [Z].  Dictionaries are [gmap]s,
    or association lists where order matters.  Objects compared by identity are
    references: a block is a [blkref] into a heap, a request's identity is its id.  The
    model's loops that are not structural take fuel; [OutOfFuel] is an error of the model
    only and the theorems exclude it: the free queue's traversals take the number of
    blocks, the aligned trim the number of columns, the hasher the number of blocks of
    the request, the hybrid lookup the length it starts from, the scheduler's loops the
    number of running and of queued requests, the binary search for the model length
    that length.  Divisors are positive
    configured sizes.  [metrics_collector] is [None]; times are integers.  The hash
    function and the digests of embeddings are parameters, instantiated by an injective
    encoding in the witnesses.

    The theorems on the manager cover groups of full, sliding window and chunked local
    attention whose block size is that of the hashes; Mamba, cross attention and
    sink managers are modelled but outside those theorems, and a call with external
    tokens is covered for a single group only: with several groups it can hand out one
    block twice ([external_tokens_share_block]).

    The theorems on the scheduler cover text requests that are not streaming sessions,
    without a LoRA limit and without Mamba's aligned split; multi-modal inputs, sessions,
    LoRAs and the aligned split are in the model and in the runs of SchedulerFindings.
    The theorem on engine runs covers the synchronous engine with one batch at a time and
    the asynchronous one with two; resets that preempt are modelled and excluded, as
    [reset_loses_token] shows why.
    [KVLaws] is proved for [KVCacheManager] without prefix caching over any groups the
    manager's theorems cover, and with prefix caching over a single full attention group.

    The worker: floats are rationals, stored through a rounding [f32]; output token lists,
    generators and pooling states are identities that come with the requests, and the token
    ids are not bounded to int32.  The entries of a block table are kept as they were
    written; their product with the block size wraps as int32 ([BlockTable.int32]), as in
    the code, and the theorems on slots ask that the slots of the blocks are below 2^31.
    The array of [MinPLogitsProcessor] goes through a rounding of its own, and its theorem
    excludes a [min_p] that rounds to zero, which the code counts but does not store
    ([underflow_stays_counted]).  A [View] leaves out two arrays of [add_request] that the
    code does not keep with the rows: the mask of allowed tokens
    ([allowed_masks_go_astray] shows what happens to it; [condense_closes_holes] what
    [condense] guarantees) and [logits_processing_needs_token_ids].  A row of the batch is one record, the masks of allowed
    tokens included, whose rows are views: [swap_states] is modelled with the aliasing it
    has.  The loop of [condense] takes as fuel the number of holes and one more, each cycle of
    the reordering the number of rows it may move.  The reordering and the iteration order of
    a set of ids are arguments of the step.  The steps of [step_ok] name every scheduled
    request once and fit the batch, its rows and its block tables.

    ** Not modelled

    The scheduler's KV and encoder connectors, statistics and expert routing ([connector]
    and [ec_connector] are [None], [log_stats] is false); the other proposers of speculative
    decoding and the offloading workers (they drive devices); of the model runner, the paths of
    [_update_states] for asynchronous scheduling, other pipeline ranks, M-RoPE and the n-gram
    proposer on the device, and everything that fills device buffers or runs the model (tensor
    code and compiled code); model definitions and kernels, entry points, configuration and network
    connectors (I/O around the core). *)
From stdpp Require Export base gmap list list_numbers sets strings fin_maps.
From Stdlib Require Export ZArith Lia Sorting.Sorted.

Declare Scope vllm_scope.
Delimit Scope vllm_scope with vllm.
Open Scope Z_scope.

(** ** Python exceptions and the result of a fallible call *)

(** The exception classes the modelled code raises (or that the Python
    primitives it uses raise).  [OutOfFuel] is not a Python exception: it marks a
    loop whose bound in the model was too small, and the theorems show it is never
    the result. *)
Inductive exn : Type :=
  | ValueError
  | AssertionError
  | RuntimeError
  | KeyError
  | IndexError
  | NotImplementedError
  | ZeroDivisionError
  | OverflowError
  | TypeError
  | StopIteration
  | OutOfFuel.

#[global] Instance exn_eq_dec : EqDecision exn.
Proof. solve_decision. Defined.

(** A call either returns a value or raises. *)
Inductive result (A : Type) : Type :=
  | Ok (a : A)
  | Err (e : exn).
Arguments Ok {A} _.
Arguments Err {A} _.

#[global] Instance result_ret : MRet result := @Ok.
#[global] Instance result_bind : MBind result := fun A B f m =>
  match m with Ok a => f a | Err e => Err e end.
#[global] Instance result_fmap : FMap result := fun A B f m =>
  match m with Ok a => Ok (f a) | Err e => Err e end.

#[global] Instance result_eq_dec {A} `{EqDecision A} : EqDecision (result A).
Proof. solve_decision. Defined.

(** [assert b], as a Python statement. *)
Definition py_assert (b : bool) : result unit :=
  if b then Ok tt else Err AssertionError.

(** Reading [d[k]] where [None] stands for a missing key. *)
Definition of_option {A} (e : exn) (o : option A) : result A :=
  match o with Some a => Ok a | None => Err e end.

(** Truth of a result: it did not raise. *)
Definition is_ok {A} (r : result A) : bool :=
  match r with Ok _ => true | Err _ => false end.

(** A [for] loop over a list threading a state, stopped by the first exception. *)
Fixpoint foldM {S A} (f : S -> A -> result S) (s : S) (l : list A) : result S :=
  match l with
  | [] => Ok s
  | a :: l' => s' ← f s a; foldM f s' l'
  end.

(** A comprehension whose element can raise. *)
Fixpoint mapM {A B} (f : A -> result B) (l : list A) : result (list B) :=
  match l with [] => Ok [] | a :: l' => b ← f a; bs ← mapM f l'; Ok (b :: bs) end.

(** ** Lemmas on results *)

Lemma bind_Ok {A B} (m : result A) (f : A -> result B) b :
  (m ≫= f) = Ok b <-> exists a, m = Ok a /\ f a = Ok b.
Proof. destruct m; cbn; naive_solver. Qed.

Lemma bind_Err {A B} (m : result A) (f : A -> result B) e :
  (m ≫= f) = Err e <-> m = Err e \/ exists a, m = Ok a /\ f a = Err e.
Proof. destruct m; cbn; naive_solver. Qed.

Lemma py_assert_Ok b u : py_assert b = Ok u <-> b = true.
Proof. destruct b, u; cbn; naive_solver. Qed.

Lemma foldM_app {S A} (f : S -> A -> result S) s l1 l2 :
  foldM f s (l1 ++ l2) = (s' ← foldM f s l1; foldM f s' l2).
Proof.
  revert s. induction l1 as [|a l1 IH]; intros s; cbn; [done|].
  destruct (f s a); cbn; [apply IH|done].
Qed.

(** Invariant rule for loops: when every step keeps the invariant, so does the loop. *)
Lemma foldM_inv {S A} (f : S -> A -> result S) (I : S -> Prop) l s s' :
  (forall s a s', a ∈ l -> I s -> f s a = Ok s' -> I s') ->
  I s -> foldM f s l = Ok s' -> I s'.
Proof.
  revert s. induction l as [|a l IH]; intros s Hstep Hs; cbn.
  - naive_solver.
  - destruct (f s a) eqn:E; cbn; [|done]. intros Hf. eapply IH; [| |done].
    + intros ??? Hin. apply Hstep. by constructor.
    + eapply Hstep; [|done|done]. by constructor.
Qed.

(** Total-correctness rule: when every step succeeds and keeps the invariant
    (indexed by what is left to do), the loop returns. *)
Lemma foldM_total {S A} (f : S -> A -> result S) (I : list A -> S -> Prop) l s :
  (forall a l' s, I (a :: l') s -> exists s', f s a = Ok s' /\ I l' s') ->
  I l s -> exists s', foldM f s l = Ok s' /\ I [] s'.
Proof.
  intros Hstep. revert s. induction l as [|a l IH]; intros s Hs; cbn; [eauto|].
  destruct (Hstep _ _ _ Hs) as (s1 & -> & Hs1). cbn. apply IH, Hs1.
Qed.

(** ** Comprehensions *)

Lemma mapM_total {A B} (f : A -> result B) l : (forall a, a ∈ l -> exists b, f a = Ok b) -> exists bs, mapM f l = Ok bs /\ Forall2 (fun a b => f a = Ok b) l bs.
Proof.
  induction l as [|a l IH]; intros H; [by exists []|]. destruct (H a ltac:(by left)) as [b Hb]. destruct IH as (bs & Hbs & Hf); [intros x Hx; apply H; by right|].
  exists (b :: bs). cbn. rewrite Hb. cbn. rewrite Hbs. by split; [|constructor].
Qed.
Lemma mapM_ok {A B} (f : A -> result B) l bs : mapM f l = Ok bs -> Forall2 (fun a b => f a = Ok b) l bs.
Proof.
  revert bs. induction l as [|a l IH]; intros bs; cbn; [by intros [= <-]|]. destruct (f a) as [b|e] eqn:E; cbn; [|done].
  destruct (mapM f l) as [bs'|e]; cbn; [|done]. intros [= <-]. constructor; [done|]. by apply IH.
Qed.
Lemma mapM_elem {A B} (f : A -> result B) l bs b : mapM f l = Ok bs -> b ∈ bs -> exists a, a ∈ l /\ f a = Ok b.
Proof.
  intros H%mapM_ok. induction H as [|a b' l bs Hab _ IH]; [by intros ?%elem_of_nil|]. intros [->|Hb]%elem_of_cons; [exists a; by split; [left|]|].
  destruct (IH Hb) as (x & ? & ?). exists x. by split; [right|].
Qed.
Lemma mapM_lookup {A B} (f : A -> result B) l bs i a b : mapM f l = Ok bs -> l !! i = Some a -> bs !! i = Some b -> f a = Ok b.
Proof. intros H%mapM_ok Ha Hb. apply (Forall2_lookup_lr _ _ _ _ _ _ H Ha Hb). Qed.
Lemma mapM_length {A B} (f : A -> result B) l bs : mapM f l = Ok bs -> length bs = length l.
Proof. intros H%mapM_ok. symmetry. by apply Forall2_length in H. Qed.

(** ** Tactics *)

(** Turn the equations on binds and assertions of the context into equations
    on their parts. *)
Ltac inv_res :=
  repeat match goal with
  | H : (_ ≫= _) = Ok _ |- _ => apply bind_Ok in H; destruct H as (? & ? & H)
  | H : py_assert _ = Ok _ |- _ => apply py_assert_Ok in H
  | H : Ok _ = Ok _ |- _ => injection H as H; try subst
  | H : Ok _ = Err _ |- _ => discriminate H
  | H : Err _ = Ok _ |- _ => discriminate H
  | H : (_, _) = (_, _) |- _ => injection H as ? ?; try subst
  end.

(** Case analysis on every boolean comparison of [Z] in the goal, then [lia]. *)
Ltac zcases :=
  repeat match goal with
  | |- context [ (?a <=? ?b)%Z ] => destruct (Z.leb_spec a b)
  | |- context [ (?a <? ?b)%Z ] => destruct (Z.ltb_spec a b)
  | |- context [ (?a =? ?b)%Z ] => destruct (Z.eqb_spec a b)
  end; try lia.

Create HintDb vllm discriminated.
#[export] Hint Constants Opaque : vllm.
#[export] Hint Variables Opaque : vllm.

(** ** Lists without duplicates *)

Section NoDupLists.
Context {A : Type}.
Implicit Types (l xs : list A) (p n x : A).

Lemma nodup_mid l1 p l2 : NoDup (l1 ++ p :: l2) <-> p ∉ l1 ++ l2 /\ NoDup (l1 ++ l2).
Proof.
  rewrite (Permutation_cons_append l2 p), app_assoc, <- Permutation_cons_append.
  apply NoDup_cons.
Qed.

Lemma nodup_pair l1 p n l2 :
  NoDup (l1 ++ p :: n :: l2) -> p ∉ l1 ++ n :: l2 /\ n ∉ l1 ++ p :: l2.
Proof.
  intros H. apply nodup_mid in H as [H1 H]. split; [done|].
  apply nodup_mid in H as [H2 _]. set_solver.
Qed.

Lemma nodup_cut l1 xs l2 :
  NoDup (l1 ++ xs ++ l2) -> NoDup (l1 ++ l2) /\ (forall r, r ∈ l1 ++ l2 -> r ∉ xs).
Proof.
  rewrite !NoDup_app. intros (H1 & H12 & H2 & H23 & H3). split; [set_solver|].
  intros r Hr Hx. specialize (H12 r). specialize (H23 r Hx). set_solver.
Qed.
End NoDupLists.

Lemma last_cons_default {A} (x d d' : A) l : List.last (x :: l) d = List.last (x :: l) d'.
Proof. revert x. induction l as [|y l IH]; intros x; [done|]. apply (IH y). Qed.

Lemma last_split {A} (p : A) l : exists m, p :: l = m ++ [List.last l p].
Proof.
  destruct (exists_last (l := p :: l)) as (m & x & Hm); [done|]. exists m. rewrite Hm. do 2 f_equal.
  apply (f_equal (fun l => List.last l p)) in Hm. rewrite List.last_last in Hm. rewrite <- Hm.
  by destruct l.
Qed.

(** ** Python sequences *)

(** [l[i]] with Python's negative indices; [IndexError] out of range. *)
Definition py_index {A} (l : list A) (i : Z) : result A :=
  let n := Z.of_nat (length l) in
  let j := if i <? 0 then i + n else i in
  if (0 <=? j) && (j <? n) then of_option IndexError (l !! Z.to_nat j) else Err IndexError.

(** [range(lo, hi)]. *)
Definition py_range (lo hi : Z) : list Z := seqZ lo (hi - lo).

(** [l[lo:hi]] for non-negative bounds. *)
Definition py_slice {A} (l : list A) (lo hi : Z) : list A :=
  drop (Z.to_nat lo) (take (Z.to_nat hi) l).

(** A loop that returns [False] from the function at the first failing item. *)
Fixpoint all_loop {A} (f : A -> result bool) (l : list A) : result bool :=
  match l with
  | [] => Ok true
  | a :: l' => b ← f a; if (b : bool) then all_loop f l' else Ok false
  end.

(** Length of a Python list as an integer. *)
Definition zlen {A} (l : list A) : Z := Z.of_nat (length l).

(** [cdiv] of vllm/utils/math_utils.py. As for every division of the model the
    divisor is a configured size: Python raises on 0 where [Z.div] is total, and the
    theorems assume the sizes they divide by to be positive. *)
Definition cdiv (a b : Z) : Z := - (a / - b).

Lemma cdiv_spec a b : 0 < b -> (cdiv a b - 1) * b < a <= cdiv a b * b.
Proof.
  intros Hb. unfold cdiv. pose proof (Z.div_mod a (- b) ltac:(lia)).
  pose proof (Z.mod_neg_bound a (- b) ltac:(lia)). nia.
Qed.

Lemma cdiv_le a b n : 0 < b -> cdiv a b <= n <-> a <= n * b.
Proof. intros Hb. pose proof (cdiv_spec a b Hb). nia. Qed.

Lemma cdiv_nonneg a b : 0 < b -> 0 <= a -> 0 <= cdiv a b.
Proof. intros Hb Ha. pose proof (cdiv_spec a b Hb). nia. Qed.

Lemma cdiv_mono a a' b : 0 < b -> a <= a' -> cdiv a b <= cdiv a' b.
Proof. intros Hb Ha. apply cdiv_le; [done|]. pose proof (cdiv_spec a' b Hb). lia. Qed.

Lemma div_le_cdiv a b : 0 < b -> a / b <= cdiv a b <= a / b + 1.
Proof.
  intros Hb. pose proof (cdiv_spec a b Hb). pose proof (Z.div_mod a b ltac:(lia)).
  pose proof (Z.mod_pos_bound a b Hb). nia.
Qed.

Lemma elem_of_py_range lo hi x : x ∈ py_range lo hi <-> lo <= x < hi.
Proof. unfold py_range. rewrite elem_of_seqZ. lia. Qed.

Lemma py_index_nonneg {A} (l : list A) i :
  0 <= i -> py_index l i = of_option IndexError (l !! Z.to_nat i).
Proof.
  intros Hi. unfold py_index. rewrite (proj2 (Z.ltb_ge i 0)) by lia.
  rewrite (proj2 (Z.leb_le 0 i)) by lia. cbn. destruct (Z.ltb_spec i (Z.of_nat (length l))); [done|].
  by rewrite lookup_ge_None_2 by lia.
Qed.

Lemma py_index_neg {A} (l : list A) k :
  1 <= k <= zlen l -> exists x, py_index l (- k) = Ok x /\ l !! (length l - Z.to_nat k)%nat = Some x.
Proof.
  unfold zlen. intros Hk. unfold py_index. rewrite (proj2 (Z.ltb_lt (- k) 0)) by lia.
  rewrite (proj2 (Z.leb_le _ _)), (proj2 (Z.ltb_lt _ _)) by lia. cbn.
  replace (Z.to_nat (- k + Z.of_nat (length l))) with (length l - Z.to_nat k)%nat by lia.
  destruct (lookup_lt_is_Some_2 l (length l - Z.to_nat k)) as [x Hx]; [lia|].
  exists x. by rewrite Hx.
Qed.

Lemma all_loop_true {A} (f : A -> result bool) l :
  (forall a, a ∈ l -> exists b, f a = Ok b) ->
  exists b, all_loop f l = Ok b /\ (b = true <-> forall a, a ∈ l -> f a = Ok true).
Proof.
  induction l as [|a l IH]; intros Hf; cbn.
  - exists true. split; [done|]. split; [|done]. intros _ a Ha. by apply elem_of_nil in Ha.
  - destruct (Hf a) as [b Hb]; [constructor|]. rewrite Hb. cbn. destruct b.
    + destruct IH as (b & -> & Hb'); [intros; apply Hf; by constructor|].
      exists b. split; [done|]. rewrite Hb'. split.
      * intros H x [->|]%elem_of_cons; auto.
      * intros H x Hx. apply H. by constructor.
    + exists false. split; [done|]. split; [done|]. intros H. specialize (H a). 
      rewrite Hb in H. discriminate H. constructor.
Qed.

(** ** Insertion-ordered dictionaries *)

Section OrderedDict.
Context {K V : Type} `{EqDecision K}.
Implicit Types (d : list (K * V)) (k : K) (v : V).

(** [d.get(k)]. *)
Fixpoint dict_get k d : option V :=
  match d with
  | [] => None
  | (k', v) :: d' => if decide (k' = k) then Some v else dict_get k d'
  end.

(** [d[k] = v]: an existing key keeps its position. *)
Fixpoint dict_set k v d : list (K * V) :=
  match d with
  | [] => [(k, v)]
  | (k', v') :: d' => if decide (k' = k) then (k, v) :: d' else (k', v') :: dict_set k v d'
  end.

(** [del d[k]] (nothing when absent). *)
Fixpoint dict_del k d : list (K * V) :=
  match d with
  | [] => []
  | (k', v') :: d' => if decide (k' = k) then d' else (k', v') :: dict_del k d'
  end.

Lemma dict_get_None k d : dict_get k d = None <-> k ∉ d.*1.
Proof.
  induction d as [|[k' v] d IH]; cbn; [set_solver|].
  case_decide; [subst; split; [done|set_solver]|]. rewrite IH. set_solver.
Qed.

Lemma dict_get_Some_in k v d : dict_get k d = Some v -> (k, v) ∈ d.
Proof.
  induction d as [|[k' v'] d IH]; cbn; [done|].
  case_decide; [intros [= ->]; subst; constructor|]. intros. constructor. auto.
Qed.

Lemma dict_get_elem k v d : NoDup d.*1 -> dict_get k d = Some v <-> (k, v) ∈ d.
Proof.
  intros Hnd. split; [apply dict_get_Some_in|].
  induction d as [|[k' v'] d IH]; cbn; [by intros ?%elem_of_nil|].
  cbn in Hnd. apply NoDup_cons in Hnd as [Hk Hnd].
  rewrite elem_of_cons. intros [[= -> ->]|Hin]; [by rewrite decide_True|].
  rewrite decide_False; [auto|]. intros ->. apply Hk. apply list_elem_of_fmap. by exists (k, v).
Qed.

Lemma dict_set_keys k v d : (dict_set k v d).*1 = if decide (k ∈ d.*1) then d.*1 else d.*1 ++ [k].
Proof.
  induction d as [|[k' v'] d IH]; cbn.
  { by rewrite decide_False by set_solver. }
  destruct (decide (k' = k)) as [->|]; cbn.
  - by rewrite decide_True by set_solver.
  - rewrite IH. destruct (decide (k ∈ d.*1)).
    + by rewrite decide_True by set_solver.
    + by rewrite decide_False by set_solver.
Qed.

Lemma dict_set_nodup k v d : NoDup d.*1 -> NoDup (dict_set k v d).*1.
Proof.
  intros Hnd. rewrite dict_set_keys. case_decide; [done|].
  apply NoDup_app. split_and!; [done|set_solver|apply NoDup_singleton].
Qed.

Lemma dict_get_set k k' v d :
  dict_get k' (dict_set k v d) = if decide (k = k') then Some v else dict_get k' d.
Proof.
  induction d as [|[k0 v0] d IH]; cbn; [done|].
  destruct (decide (k0 = k)) as [->|]; cbn.
  - by destruct (decide (k = k')).
  - rewrite IH. destruct (decide (k0 = k')), (decide (k = k')); congruence.
Qed.

Lemma dict_del_nodup k d : NoDup d.*1 -> NoDup (dict_del k d).*1.
Proof.
  intros Hnd. induction d as [|[k' v'] d IH]; cbn in *; [done|].
  apply NoDup_cons in Hnd as [Hk Hnd]. case_decide; [done|]. cbn. apply NoDup_cons. split; [|auto].
  intros Hin. apply Hk. clear -Hin. induction d as [|[k2 v2] d IH]; cbn in *; [done|].
  case_decide; set_solver.
Qed.

Lemma dict_get_del k k' d :
  NoDup d.*1 -> dict_get k' (dict_del k d) = if decide (k = k') then None else dict_get k' d.
Proof.
  induction d as [|[k0 v0] d IH]; cbn; intros Hnd; [by case_decide|].
  apply NoDup_cons in Hnd as [Hk Hnd]. destruct (decide (k0 = k)) as [->|]; cbn.
  - destruct (decide (k = k')) as [->|]; [by apply dict_get_None|done].
  - rewrite IH by done. destruct (decide (k0 = k')), (decide (k = k')); congruence.
Qed.
End OrderedDict.

(** ** Filters *)

Lemma list_filter_iff' {A} (P Q : A -> Prop) `{!forall x, Decision (P x), !forall x, Decision (Q x)} (l : list A) :
  (forall x, x ∈ l -> P x <-> Q x) -> filter P l = filter Q l.
Proof.
  induction l as [|x l IH]; intros HPQ; [done|]. rewrite !filter_cons.
  rewrite IH by (intros; apply HPQ; by constructor).
  specialize (HPQ x ltac:(constructor)). repeat case_decide; tauto || done.
Qed.

Lemma list_filter_false_len {A} `{EqDecision A} (l : list A) b :
  b ∉ l -> length (filter (fun x => x = b) l) = 0%nat.
Proof.
  induction l as [|x l IH]; intros Hb; [done|]. rewrite filter_cons_False by set_solver.
  apply IH. set_solver.
Qed.

(** An element of a list whose [P]-part has no duplicates occurs once. *)
Lemma nodup_filter_count {A} `{EqDecision A} (P : A -> Prop) `{!forall x, Decision (P x)} (l : list A) b :
  NoDup (filter P l) -> P b -> b ∈ l -> length (filter (fun x => x = b) l) = 1%nat.
Proof.
  induction l as [|x l IH]; intros Hnd Hb Hin; [by apply elem_of_nil in Hin|].
  rewrite filter_cons in Hnd. destruct (decide (x = b)) as [->|Hne].
  - rewrite decide_True in Hnd by done. apply NoDup_cons in Hnd as [Hn _].
    rewrite filter_cons_True by done. cbn. f_equal.
    apply list_filter_false_len. intros Hin'. apply Hn. by apply list_elem_of_filter.
  - rewrite filter_cons_False by done.
    apply elem_of_cons in Hin as [->|Hin]; [done|]. apply IH; [|done..].
    case_decide; [by apply NoDup_cons in Hnd as [_ ?]|done].
Qed.

Lemma filter_all {A} (P : A -> Prop) `{!forall x, Decision (P x)} (l : list A) :
  (forall x, x ∈ l -> P x) -> filter P l = l.
Proof.
  induction l as [|x l IH]; intros Hl; [done|].
  rewrite filter_cons_True by (apply Hl; constructor). f_equal. apply IH. intros; apply Hl; by constructor.
Qed.

Lemma filter_none {A} (P : A -> Prop) `{!forall x, Decision (P x)} (l : list A) :
  (forall x, x ∈ l -> ~ P x) -> filter P l = [].
Proof.
  induction l as [|x l IH]; intros Hl; [done|].
  rewrite filter_cons_False by (apply Hl; constructor). apply IH. intros; apply Hl; by constructor.
Qed.

Lemma filter_full_length {A} (P : A -> Prop) `{!forall x, Decision (P x)} (l : list A) :
  (length l <= length (filter P l))%nat -> forall x, x ∈ l -> P x.
Proof.
  induction l as [|y l IH]; intros Hlen x Hx; [by apply elem_of_nil in Hx|].
  rewrite filter_cons in Hlen. pose proof (length_filter P l). case_decide; cbn in Hlen.
  - apply elem_of_cons in Hx as [->|Hx]; [done|]. apply IH; [lia|done].
  - lia.
Qed.

Lemma filter_split_length {A} (P : A -> Prop) `{!forall x, Decision (P x)} (l : list A) :
  (length (filter P l) + length (filter (fun x => ~ P x) l) = length l)%nat.
Proof.
  induction l as [|x l IH]; [done|]. rewrite !filter_cons. repeat case_decide; cbn; try tauto; lia.
Qed.

(** ** Weighted sums over the entries of a map *)

Section MapSum.
Context {K V : Type} `{Countable K}.
Implicit Types (f g : K -> V -> Z) (m : gmap K V).

Definition map_sum f m : Z := foldr (fun e acc => f e.1 e.2 + acc) 0 (map_to_list m).

Lemma map_sum_perm f (l1 l2 : list (K * V)) :
  l1 ≡ₚ l2 -> foldr (fun e acc => f e.1 e.2 + acc) 0 l1 = foldr (fun e acc => f e.1 e.2 + acc) 0 l2.
Proof. induction 1; cbn; lia. Qed.

Lemma map_sum_empty f : map_sum f ∅ = 0.
Proof. unfold map_sum. by rewrite map_to_list_empty. Qed.

Lemma map_sum_insert f m k v : m !! k = None -> map_sum f (<[k := v]> m) = f k v + map_sum f m.
Proof. intros Hn. unfold map_sum. by rewrite (map_sum_perm f _ _ (map_to_list_insert m k v Hn)). Qed.

Lemma map_sum_delete f m k v : m !! k = Some v -> map_sum f m = f k v + map_sum f (delete k m).
Proof.
  intros Hv. rewrite <- (insert_delete_id m k v) at 1 by done. apply map_sum_insert, lookup_delete_eq.
Qed.

Lemma map_sum_update f m k v v' : m !! k = Some v -> map_sum f (<[k := v']> m) = map_sum f m - f k v + f k v'.
Proof.
  intros Hv. rewrite <- insert_delete_eq, map_sum_insert by apply lookup_delete_eq.
  rewrite (map_sum_delete f m k v Hv). lia.
Qed.

Lemma map_sum_ext f g m : (forall k v, m !! k = Some v -> f k v = g k v) -> map_sum f m = map_sum g m.
Proof.
  intros Hfg. unfold map_sum.
  assert (Hl : forall e, e ∈ map_to_list m -> f e.1 e.2 = g e.1 e.2).
  { intros [k v] Hin%elem_of_map_to_list. by apply Hfg. }
  induction (map_to_list m) as [|e l IH]; cbn; [done|].
  rewrite IH by (intros; apply Hl; by constructor). rewrite Hl by constructor. done.
Qed.

Lemma map_sum_le f g m : (forall k v, m !! k = Some v -> f k v <= g k v) -> map_sum f m <= map_sum g m.
Proof.
  intros Hfg. unfold map_sum.
  assert (Hl : forall e, e ∈ map_to_list m -> f e.1 e.2 <= g e.1 e.2).
  { intros [k v] Hin%elem_of_map_to_list. by apply Hfg. }
  induction (map_to_list m) as [|e l IH]; cbn; [done|].
  pose proof (Hl e ltac:(constructor)). specialize (IH ltac:(intros; apply Hl; by constructor)). lia.
Qed.

Lemma map_sum_zero m : map_sum (fun _ _ => 0) m = 0.
Proof. unfold map_sum. induction (map_to_list m) as [|e l IH]; cbn; [done|]. rewrite IH. done. Qed.

Lemma map_sum_nonneg f m : (forall k v, m !! k = Some v -> 0 <= f k v) -> 0 <= map_sum f m.
Proof. intros Hf. rewrite <- (map_sum_zero m). by apply map_sum_le. Qed.

(** One entry is at most the sum of non-negative entries. *)
Lemma map_sum_lookup_le f m k v :
  (forall k v, m !! k = Some v -> 0 <= f k v) -> m !! k = Some v -> f k v <= map_sum f m.
Proof.
  intros Hf Hv. rewrite (map_sum_delete f m k v Hv).
  enough (0 <= map_sum f (delete k m)) by lia. apply map_sum_nonneg.
  intros k' v' [_ Hv']%lookup_delete_Some. by apply Hf.
Qed.
End MapSum.
