(* ===== verification/FreeQueue.v ===== *)
(** * The free-block queue

    [KVCacheBlock] and [FreeKVCacheBlockQueue] of vllm/v1/core/kv_cache_utils.py.
    The queue is a doubly linked list threaded through the block objects, with a
    fake head and a fake tail.  Block objects live in a store [heap] from
    references to objects; every operation below does the pointer updates of the
    source, in its order.  [queue_rep q l] says that the pointers of [q] spell the
    list [l]; the theorems are the refinement of every operation to the obvious
    list operation, on its failing branches as well. *)
From S2P Require Import Prelude.

(** ** Objects and the store *)

(** A reference to a block object: the queue's two fake blocks, or the [n]-th
    object created by [KVCacheBlock(idx) for idx in range(num_gpu_blocks)]. *)
Inductive blkref : Type :=
  | RHead
  | RTail
  | RBlk (n : nat).

#[global] Instance blkref_eq_dec : EqDecision blkref.
Proof. solve_decision. Defined.

(** Bytes objects, as lists of integers in [0, 256). *)
Abbreviation bytes := (list Z).

Record KVCacheBlock : Type := mkBlock {
  block_id : Z;
  ref_cnt : Z;
  block_hash : option bytes;
  prev_free_block : option blkref;
  next_free_block : option blkref;
  is_null : bool;
}.

Definition heap : Type := blkref -> KVCacheBlock.

(** [KVCacheBlock(block_id=i)] with the dataclass defaults. *)
Definition new_block (i : Z) : KVCacheBlock := mkBlock i 0 None None None false.

(** Attribute assignments. *)
Definition with_prev (p : option blkref) (b : KVCacheBlock) : KVCacheBlock :=
  mkBlock (block_id b) (ref_cnt b) (block_hash b) p (next_free_block b) (is_null b).
Definition with_next (p : option blkref) (b : KVCacheBlock) : KVCacheBlock :=
  mkBlock (block_id b) (ref_cnt b) (block_hash b) (prev_free_block b) p (is_null b).
Definition with_ref_cnt (n : Z) (b : KVCacheBlock) : KVCacheBlock :=
  mkBlock (block_id b) n (block_hash b) (prev_free_block b) (next_free_block b) (is_null b).
Definition with_hash (k : option bytes) (b : KVCacheBlock) : KVCacheBlock :=
  mkBlock (block_id b) (ref_cnt b) k (prev_free_block b) (next_free_block b) (is_null b).
Definition with_is_null (z : bool) (b : KVCacheBlock) : KVCacheBlock :=
  mkBlock (block_id b) (ref_cnt b) (block_hash b) (prev_free_block b) (next_free_block b) z.

(** The [block_hash] property setter, which refuses to overwrite a hash, and
    [reset_hash]. *)
Definition set_block_hash (k : bytes) (b : KVCacheBlock) : result KVCacheBlock :=
  match block_hash b with
  | None => Ok (with_hash (Some k) b)
  | Some _ => Err AssertionError
  end.
Definition reset_hash (b : KVCacheBlock) : KVCacheBlock := with_hash None b.

(** Mutation of one object. *)
Definition upd (r : blkref) (f : KVCacheBlock -> KVCacheBlock) (h : heap) : heap :=
  fun r' => if decide (r = r') then f (h r') else h r'.
Arguments upd : simpl never.

(** ** The queue *)

Record FreeQ : Type := mkQ {
  qheap : heap;
  num_free_blocks : Z;
}.

(** The body of the loop of [__init__] that links block [i] to its neighbours. *)
Definition link_consecutive (blocks : list blkref) (n : nat) (h : heap) (i : nat) : heap :=
  match blocks !! i with
  | None => h
  | Some b =>
      let h1 := match blocks !! (i - 1)%nat with
                | Some p => if (0 <? i)%nat then upd b (with_prev (Some p)) h else h
                | None => h
                end in
      match blocks !! (i + 1)%nat with
      | Some s => if (i <? n - 1)%nat then upd b (with_next (Some s)) h1 else h1
      | None => h1
      end
  end.

(** [FreeKVCacheBlockQueue.__init__]. *)
Definition queue_init (blocks : list blkref) (h : heap) : FreeQ :=
  let n := length blocks in
  let h1 := foldl (link_consecutive blocks n) h (seq 0 n) in
  let h2 := upd RTail (fun _ => new_block (-1)) (upd RHead (fun _ => new_block (-1)) h1) in
  let h3 :=
    match head blocks, last blocks with
    | Some b0, Some bl =>
        upd bl (with_next (Some RTail))
          (upd RTail (with_prev (Some bl))
            (upd b0 (with_prev (Some RHead))
              (upd RHead (with_next (Some b0)) h2)))
    | _, _ =>
        upd RTail (with_prev (Some RHead)) (upd RHead (with_next (Some RTail)) h2)
    end in
  mkQ h3 (Z.of_nat n).

(** [popleft]. *)
Definition popleft (q : FreeQ) : result (blkref * FreeQ) :=
  let h := qheap q in
  let empty := if num_free_blocks q =? 0 then Err ValueError else Err AssertionError in
  match next_free_block (h RHead) with
  | None => empty
  | Some RTail => empty
  | Some first_block =>
      match next_free_block (h first_block) with
      | None => Err RuntimeError
      | Some nx =>
          let h1 := upd RHead (with_next (Some nx)) h in
          let h2 := upd nx (with_prev (Some RHead)) h1 in
          let h3 := upd first_block (fun b => with_next None (with_prev None b)) h2 in
          Ok (first_block, mkQ h3 (num_free_blocks q - 1))
      end
  end.

(** The loop of [popleft_n]: [n] iterations from [curr]. *)
Fixpoint popleft_loop (n : nat) (curr : option blkref) (ret : list blkref) (h : heap)
  : result (option blkref * list blkref * heap) :=
  match n with
  | O => Ok (curr, ret, h)
  | S n' =>
      match curr with
      | None => Err AssertionError
      | Some c =>
          let curr' := next_free_block (h c) in
          let h1 := upd c (with_next None) (upd c (with_prev None) h) in
          popleft_loop n' curr' (ret ++ [c]) h1
      end
  end.

(** [popleft_n]. *)
Definition popleft_n (n : Z) (q : FreeQ) : result (list blkref * FreeQ) :=
  if n =? 0 then Ok ([], q) else
  _ ← py_assert (n <=? num_free_blocks q);
  let h := qheap q in
  '(curr, ret, h1) ← popleft_loop (Z.to_nat n) (next_free_block (h RHead)) [] h;
  let h2 := match curr with
            | Some c => upd c (with_prev (Some RHead)) (upd RHead (with_next (Some c)) h1)
            | None => h1
            end in
  Ok (ret, mkQ h2 (num_free_blocks q - n)).

(** [remove]. *)
Definition remove (b : blkref) (q : FreeQ) : result FreeQ :=
  let h := qheap q in
  match prev_free_block (h b), next_free_block (h b) with
  | Some p, Some n =>
      let h1 := upd p (with_next (Some n)) h in
      let h2 := upd n (with_prev (Some p)) h1 in
      let h3 := upd b (fun x => with_next None (with_prev None x)) h2 in
      Ok (mkQ h3 (num_free_blocks q - 1))
  | _, _ => Err RuntimeError
  end.

(** [append]. *)
Definition append (b : blkref) (q : FreeQ) : result FreeQ :=
  let h := qheap q in
  match prev_free_block (h RTail) with
  | None => Err RuntimeError
  | Some last_block =>
      let h1 := upd last_block (with_next (Some b)) h in
      let h2 := upd b (with_prev (Some last_block)) h1 in
      let h3 := upd b (with_next (Some RTail)) h2 in
      let h4 := upd RTail (with_prev (Some b)) h3 in
      Ok (mkQ h4 (num_free_blocks q + 1))
  end.

(** The loop of [append_n]; returns the last block and the store. *)
Fixpoint append_loop (last_block : blkref) (bs : list blkref) (h : heap) : blkref * heap :=
  match bs with
  | [] => (last_block, h)
  | b :: bs' =>
      append_loop b bs' (upd last_block (with_next (Some b)) (upd b (with_prev (Some last_block)) h))
  end.

(** [append_n]. *)
Definition append_n (bs : list blkref) (q : FreeQ) : result FreeQ :=
  match bs with
  | [] => Ok q
  | _ =>
      let h := qheap q in
      match prev_free_block (h RTail) with
      | None => Err AssertionError
      | Some last_block =>
          let '(lb, h1) := append_loop last_block bs h in
          let h2 := upd lb (with_next (Some RTail)) h1 in
          let h3 := upd RTail (with_prev (Some lb)) h2 in
          Ok (mkQ h3 (num_free_blocks q + Z.of_nat (length bs)))
      end
  end.

(** The [while] loop of [get_all_free_blocks], with fuel. *)
Fixpoint collect_free (fuel : nat) (h : heap) (curr : blkref) (ret : list blkref)
  : option (list blkref) :=
  match fuel with
  | O => None
  | S fuel' =>
      match next_free_block (h curr) with
      | None => Some ret
      | Some n => collect_free fuel' h n (ret ++ [curr])
      end
  end.

(** [get_all_free_blocks]; the outer option is the fuel. *)
Definition get_all_free_blocks (fuel : nat) (q : FreeQ) : option (result (list blkref)) :=
  match next_free_block (qheap q RHead) with
  | None => Some (Err RuntimeError)
  | Some c => Ok <$> collect_free fuel (qheap q) c []
  end.

(** ** Representation *)

Section Representation.
Implicit Types (h : heap) (l : list blkref) (r p n : blkref).

(** Consecutive elements of [l] point at each other. *)
Fixpoint seg h l : Prop :=
  match l with
  | a :: ((b :: _) as t) =>
      next_free_block (h a) = Some b /\ prev_free_block (h b) = Some a /\ seg h t
  | _ => True
  end.

Definition is_blk r : Prop := match r with RBlk _ => True | _ => False end.

(** The pointers of [q] spell the list [l]: the chain from the fake head to the
    fake tail runs through [l], the counter is its length, and a block that is
    not in the list has neither a predecessor nor a successor. *)
Record queue_rep (q : FreeQ) l : Prop := {
  rep_blk : Forall is_blk l;
  rep_nodup : NoDup l;
  rep_seg : seg (qheap q) (RHead :: l ++ [RTail]);
  rep_tail : next_free_block (qheap q RTail) = None;
  rep_off : forall i, RBlk i ∉ l ->
      prev_free_block (qheap q (RBlk i)) = None /\ next_free_block (qheap q (RBlk i)) = None;
  rep_num : num_free_blocks q = Z.of_nat (length l);
}.

(** What the queue operations leave alone in a block. *)
Definition bdata (b : KVCacheBlock) := (block_id b, ref_cnt b, block_hash b, is_null b).
Definition data_eq h1 h2 : Prop := forall r, bdata (h1 r) = bdata (h2 r).

#[global] Instance data_eq_equiv : Equivalence data_eq.
Proof.
  split; unfold data_eq; [done| |].
  - intros ?? H r. by rewrite H.
  - intros ??? H1 H2 r. by rewrite H1, H2.
Qed.

(** *** Store lemmas *)

Lemma upd_eq r f h : upd r f h r = f (h r).
Proof. unfold upd. by rewrite decide_True. Qed.

Lemma upd_ne r r' f h : r <> r' -> upd r f h r' = h r'.
Proof. intros. unfold upd. by rewrite decide_False. Qed.

#[global] Instance upd_data_proper r f :
  (forall b, bdata (f b) = bdata b) -> Proper (data_eq ==> data_eq) (upd r f).
Proof.
  intros Hf h1 h2 H r'. unfold upd. case_decide; [|done]. rewrite !Hf. apply H.
Qed.

Lemma upd_data_eq r f h : (forall b, bdata (f b) = bdata b) -> data_eq (upd r f h) h.
Proof. intros Hf r'. unfold upd. case_decide; [apply Hf|done]. Qed.

(** *** Segments *)

Lemma seg_app h l1 a l2 : seg h (l1 ++ a :: l2) <-> seg h (l1 ++ [a]) /\ seg h (a :: l2).
Proof.
  induction l1 as [|b [|c l1] IH]; cbn in *.
  - tauto.
  - tauto.
  - rewrite IH. tauto.
Qed.

Lemma seg_lookup h l :
  seg h l <-> forall i a b, l !! i = Some a -> l !! S i = Some b ->
                next_free_block (h a) = Some b /\ prev_free_block (h b) = Some a.
Proof.
  induction l as [|x [|y l] IH]; cbn.
  - split; [|done]. intros _ i a b H. done.
  - split; [|done]. intros _ [|i] a b; cbn; done.
  - cbn in IH. rewrite IH. split.
    + intros (H1 & H2 & H3) [|i] a b; cbn; [naive_solver|]. apply (H3 i).
    + intros H. destruct (H 0%nat x y) as [??]; try done.
      split_and!; try done. intros i. apply (H (S i)).
Qed.

Lemma seg_cons2 h a b l :
  seg h (a :: b :: l) <->
  next_free_block (h a) = Some b /\ prev_free_block (h b) = Some a /\ seg h (b :: l).
Proof. done. Qed.

Lemma seg_cons h a l : seg h (a :: l) -> seg h l.
Proof. destruct l; cbn; [done|tauto]. Qed.

(** A segment only depends on the successors of all its elements but the last
    and on the predecessors of all but the first. *)
Lemma seg_frame h h' l :
  seg h l ->
  (forall r, r ∈ l -> last l <> Some r -> next_free_block (h' r) = next_free_block (h r)) ->
  (forall r, r ∈ l -> head l <> Some r -> prev_free_block (h' r) = prev_free_block (h r)) ->
  NoDup l -> seg h' l.
Proof.
  rewrite !seg_lookup. intros H Hn Hp Hnd i a b Ha Hb.
  destruct (H i a b Ha Hb) as [H1 H2]. rewrite Hn, Hp; [done|..].
  - by eapply list_elem_of_lookup_2.
  - destruct l; cbn; [done|]. intros [= ->].
    by assert (S i = 0%nat) by (eapply NoDup_lookup; eauto).
  - by eapply list_elem_of_lookup_2.
  - rewrite last_lookup. intros Hl.
    assert (i = pred (length l)) by (eapply NoDup_lookup; eauto).
    apply lookup_lt_Some in Hb. lia.
Qed.

(** Joining two segments by linking the end [p] of one to the start [n] of the other. *)
Lemma seg_link h h' l1 p n l2 :
  NoDup (l1 ++ p :: n :: l2) ->
  seg h (l1 ++ [p]) -> seg h (n :: l2) ->
  next_free_block (h' p) = Some n -> prev_free_block (h' n) = Some p ->
  (forall r, r ∈ l1 ++ n :: l2 -> next_free_block (h' r) = next_free_block (h r)) ->
  (forall r, r ∈ l1 ++ p :: l2 -> prev_free_block (h' r) = prev_free_block (h r)) ->
  seg h' (l1 ++ p :: n :: l2).
Proof.
  intros Hnd H1 H2 Hp Hn Hnext Hprev.
  apply seg_app. split.
  - eapply seg_frame; [exact H1|..].
    + intros r Hr. rewrite last_snoc. intros ?. apply Hnext. set_solver.
    + intros r Hr _. apply Hprev. set_solver.
    + rewrite (cons_middle p), app_assoc in Hnd. by apply NoDup_app in Hnd as [? _].
  - rewrite seg_cons2. split_and!; [done..|]. eapply seg_frame; [exact H2|..].
    + intros r Hr _. apply Hnext. set_solver.
    + intros r Hr. cbn. intros ?. apply Hprev. set_solver.
    + apply NoDup_app in Hnd as (_ & _ & Hnd). by apply NoDup_cons in Hnd as [_ ?].
Qed.

Lemma chain_nodup l : Forall is_blk l -> NoDup l -> NoDup (RHead :: l ++ [RTail]).
Proof.
  intros Hb Hnd. rewrite Forall_forall in Hb.
  apply NoDup_cons. split.
  - rewrite elem_of_app, list_elem_of_singleton. intros [H|]; [by apply Hb in H|done].
  - apply NoDup_app. split_and!; [done| |apply NoDup_singleton].
    intros x Hx. rewrite list_elem_of_singleton. intros ->. by apply Hb in Hx.
Qed.

Lemma rep_notin_fake l : Forall is_blk l -> RHead ∉ l /\ RTail ∉ l.
Proof. rewrite Forall_forall. intros H. split; intros Hin; by apply H in Hin. Qed.
End Representation.

(** Reads through a chain of updates: decide every comparison of references. *)
Ltac heap_simpl :=
  unfold upd in *; cbn in *;
  repeat (case_decide; cbn in *; simplify_eq); try done.

#[export] Hint Resolve rep_blk rep_nodup rep_seg rep_tail rep_num : vllm.

(** ** Refinement of the operations to lists *)

Section Refinement.
Implicit Types (h : heap) (l : list blkref) (q : FreeQ) (b : blkref).

(** Blocks whose links were cleared. *)
Definition clear_links (b : KVCacheBlock) : KVCacheBlock := with_next None (with_prev None b).

Lemma popleft_nil q : queue_rep q [] -> popleft q = Err ValueError.
Proof.
  intros [_ _ [Hn _] _ _ Hnum]. cbn in *. unfold popleft. by rewrite Hn, Hnum.
Qed.

Lemma seg_drop_mid h l1 p xs n l2 :
  seg h (l1 ++ p :: xs ++ n :: l2) -> seg h (l1 ++ [p]) /\ seg h (n :: l2).
Proof.
  rewrite seg_app. intros [? H]. split; [done|].
  rewrite (app_comm_cons xs (n :: l2) p) in H. by apply seg_app in H as [_ ?].
Qed.

(** The store in which [p] and [n] point at each other and the links of [xs]
    are cleared. *)
Definition cut_at (xs : list blkref) (p n r : blkref) (x : KVCacheBlock) : KVCacheBlock :=
  let x1 := if decide (r = p) then with_next (Some n) x else x in
  let x2 := if decide (r = n) then with_prev (Some p) x1 else x1 in
  if decide (r ∈ xs) then clear_links x2 else x2.

Lemma cut_at_data xs p n r x : bdata (cut_at xs p n r x) = bdata x.
Proof. unfold cut_at. by repeat case_decide. Qed.

Lemma cut_at_next xs p n r x :
  r ∉ xs -> r <> p -> next_free_block (cut_at xs p n r x) = next_free_block x.
Proof. intros. unfold cut_at. by repeat case_decide. Qed.

Lemma cut_at_prev xs p n r x :
  r ∉ xs -> r <> n -> prev_free_block (cut_at xs p n r x) = prev_free_block x.
Proof. intros. unfold cut_at. by repeat case_decide. Qed.

Lemma cut_seg h h' l1 p xs n l2 :
  NoDup (l1 ++ p :: xs ++ n :: l2) -> seg h (l1 ++ p :: xs ++ n :: l2) ->
  (forall r, h' r = cut_at xs p n r (h r)) ->
  seg h' (l1 ++ p :: n :: l2).
Proof.
  intros Hnd Hseg Hh'. apply seg_drop_mid in Hseg as [Hs1 Hs2].
  rewrite (cons_middle p), app_assoc in Hnd. apply nodup_cut in Hnd as [Hnd Hx].
  rewrite <- app_assoc in Hnd, Hx. cbn in Hnd, Hx.
  apply nodup_pair in Hnd as Hpn. destruct Hpn as [Hp Hn].
  eapply seg_link; [done|exact Hs1|exact Hs2|..].
  - rewrite Hh'. unfold cut_at. rewrite (decide_False (P := p ∈ xs)) by (apply Hx; set_solver).
    rewrite (decide_True (P := p = p)) by done. by case_decide.
  - rewrite Hh'. unfold cut_at. rewrite (decide_False (P := n ∈ xs)) by (apply Hx; set_solver).
    by rewrite (decide_True (P := n = n)).
  - intros r Hr. rewrite Hh'. apply cut_at_next; [apply Hx|]; set_solver.
  - intros r Hr. rewrite Hh'. apply cut_at_prev; [apply Hx|]; set_solver.
Qed.

(** Taking the elements [xs] out of the chain [l1' ++ p :: xs ++ n :: l2']. *)
Lemma rep_cut q q' l1 xs l2 l1' l2' p n :
  queue_rep q (l1 ++ xs ++ l2) ->
  RHead :: l1 = l1' ++ [p] -> l2 ++ [RTail] = n :: l2' ->
  (forall r, qheap q' r = cut_at xs p n r (qheap q r)) ->
  num_free_blocks q' = num_free_blocks q - Z.of_nat (length xs) ->
  queue_rep q' (l1 ++ l2) /\ data_eq (qheap q') (qheap q).
Proof.
  intros [Hb Hnd Hseg Htail Hoff Hnn] Hp Hn Hq' Hnum.
  assert (Heq : forall ys, RHead :: (l1 ++ ys ++ l2) ++ [RTail] = l1' ++ p :: ys ++ n :: l2').
  { intros ys. rewrite <- Hn, (cons_middle p), (app_assoc l1' [p]), <- Hp. cbn.
    by rewrite <- !app_assoc. }
  pose proof (chain_nodup _ Hb Hnd) as Hnd1. rewrite Heq in Hseg, Hnd1.
  rewrite !Forall_app in Hb. destruct Hb as (Hb1 & Hbx & Hb2).
  split; [split|].
  - by apply Forall_app.
  - by apply nodup_cut in Hnd as [? _].
  - rewrite <- (app_nil_l l2), Heq. cbn. by eapply cut_seg.
  - rewrite Hq', cut_at_next; [done|apply (rep_notin_fake _ Hbx)|].
    intros <-. assert (Hin : RTail ∈ RHead :: l1) by (rewrite Hp; set_solver).
    apply rep_notin_fake in Hb1. set_solver.
  - intros i Hi. destruct (decide (RBlk i ∈ xs)) as [Hx|Hx].
    { rewrite Hq'. unfold cut_at. by rewrite (decide_True (P := RBlk i ∈ xs)). }
    rewrite Hq', cut_at_next, cut_at_prev; [apply Hoff; set_solver|done| |done|].
    + intros <-. assert (RBlk i ∈ l2 ++ [RTail]) by (rewrite Hn; set_solver). set_solver.
    + intros <-. assert (RBlk i ∈ RHead :: l1) by (rewrite Hp; set_solver). set_solver.
  - rewrite Hnum, Hnn, !length_app. lia.
  - intros r. rewrite Hq'. apply cut_at_data.
Qed.

(** The last element before the fake tail and the first after the fake head. *)
Lemma chain_snoc l : exists l1 p, RHead :: l = l1 ++ [p].
Proof. destruct (exists_last (l := RHead :: l)) as (l1 & p & ->); [done|eauto]. Qed.

Lemma chain_cons l : exists n l2, l ++ [RTail] = n :: l2.
Proof. destruct l; cbn; eauto. Qed.

Lemma popleft_cons q b l :
  queue_rep q (b :: l) ->
  exists q', popleft q = Ok (b, q') /\ queue_rep q' l /\ data_eq (qheap q') (qheap q).
Proof.
  intros Hrep. pose proof Hrep as [Hb Hnd Hseg _ _ Hnum].
  destruct (chain_cons l) as (n & l2 & Hn). cbn in Hseg. rewrite Hn in Hseg.
  destruct Hseg as (Hh & _ & Hbn & _).
  apply Forall_cons in Hb as [Hb _].
  unfold popleft. rewrite Hh. destruct b as [| |i]; [done..|]. rewrite Hbn.
  eexists. split; [done|].
  apply (rep_cut q _ [] [RBlk i] l [] l2 RHead n); [done..| |done].
  intros r. unfold cut_at, clear_links. cbn. unfold upd.
  repeat case_decide; set_solver.
Qed.

Lemma popleft_loop_spec xs rest ret h :
  NoDup (xs ++ rest) -> seg h (xs ++ rest) -> rest <> [] ->
  exists h', popleft_loop (length xs) (head (xs ++ rest)) ret h = Ok (head rest, ret ++ xs, h') /\
    forall r, h' r = if decide (r ∈ xs) then clear_links (h r) else h r.
Proof.
  revert ret h. induction xs as [|x xs IH]; intros ret h Hnd Hseg Hne.
  - exists h. rewrite app_nil_r. split; [done|]. intros r. by rewrite decide_False by set_solver.
  - cbn in Hnd. apply NoDup_cons in Hnd as [Hx Hnd].
    set (h1 := upd x (with_next None) (upd x (with_prev None) h)).
    assert (Hh1 : forall r, h1 r = if decide (x = r) then clear_links (h r) else h r).
    { intros r. subst h1. unfold upd, clear_links. by case_decide. }
    assert (Hn : next_free_block (h x) = head (xs ++ rest)).
    { cbn in Hseg. destruct (xs ++ rest) eqn:E; [by destruct xs, rest|]. cbn. apply Hseg. }
    destruct (IH (ret ++ [x]) h1) as (h' & Hl & Hh'); [done| |done|].
    { cbn in Hseg. apply seg_cons in Hseg. eapply seg_frame; [done|..|done];
        intros r Hr _; rewrite Hh1; rewrite decide_False by set_solver; done. }
    exists h'. cbn. fold h1. rewrite Hn, Hl. rewrite <- app_assoc. split; [done|].
    intros r. rewrite Hh', Hh1. repeat case_decide; try done; set_solver.
Qed.

Lemma popleft_n_spec q l n :
  queue_rep q l -> 0 <= n <= Z.of_nat (length l) ->
  exists q', popleft_n n q = Ok (take (Z.to_nat n) l, q') /\
    queue_rep q' (drop (Z.to_nat n) l) /\ data_eq (qheap q') (qheap q).
Proof.
  intros Hrep Hle. unfold popleft_n. destruct (Z.eqb_spec n 0) as [->|Hn0]; [by exists q|].
  pose proof Hrep as [Hb Hnd Hseg _ _ Hnum].
  set (xs := take (Z.to_nat n) l). set (l2 := drop (Z.to_nat n) l).
  assert (Hl : l = xs ++ l2) by (symmetry; apply take_drop).
  assert (Hlen : length xs = Z.to_nat n) by (apply length_take_le; lia).
  clearbody xs l2. subst l.
  rewrite Hnum, (proj2 (Z.leb_le _ _)) by lia. cbn.
  pose proof (chain_nodup _ Hb Hnd) as Hnd'. apply NoDup_cons in Hnd' as [Hhd Hnd'].
  rewrite <- app_assoc in Hnd', Hseg, Hhd.
  destruct (popleft_loop_spec xs (l2 ++ [RTail]) [] (qheap q)) as (h' & Hloop & Hh');
    [done|by apply seg_cons in Hseg|by destruct l2|].
  assert (Hh : next_free_block (qheap q RHead) = head (xs ++ l2 ++ [RTail])).
  { destruct (xs ++ l2 ++ [RTail]) eqn:E; [by destruct xs, l2|]. cbn in Hseg |- *. apply Hseg. }
  rewrite <- Hlen, Hh, Hloop. cbn.
  destruct (chain_cons l2) as (c & l2' & Hc). rewrite Hc. cbn.
  eexists. split; [done|].
  apply (rep_cut q _ [] xs l2 [] l2' RHead c); [done..| |cbn; rewrite Hlen; lia].
  intros r. cbn. unfold cut_at, clear_links, upd. rewrite Hh'.
  assert (c ∉ xs). { rewrite Hc in Hnd'. apply NoDup_app in Hnd' as (_ & Hd & _). set_solver. }
  assert (RHead ∉ xs) by set_solver.
  repeat case_decide; simplify_eq; done.
Qed.

Lemma remove_spec q l1 b l2 :
  queue_rep q (l1 ++ b :: l2) ->
  exists q', remove b q = Ok q' /\ queue_rep q' (l1 ++ l2) /\ data_eq (qheap q') (qheap q).
Proof.
  intros Hrep. pose proof Hrep as [Hb Hnd Hseg _ _ Hnum].
  destruct (chain_snoc l1) as (l1' & p & Hp). destruct (chain_cons l2) as (n & l2' & Hn).
  assert (Hs : seg (qheap q) (l1' ++ p :: b :: n :: l2')).
  { rewrite <- Hn, (cons_middle p), app_assoc, <- Hp. cbn. by rewrite <- app_assoc in Hseg. }
  apply seg_app in Hs as [_ (Hpb & Hbp & Hbn & Hnb & _)].
  unfold remove. rewrite Hbp, Hbn. eexists. split; [done|].
  apply (rep_cut q _ l1 [b] l2 l1' l2' p n); [done..| |done].
  intros r. unfold cut_at, clear_links. cbn. unfold upd. repeat case_decide; set_solver.
Qed.

Lemma remove_off q l i : queue_rep q l -> RBlk i ∉ l -> remove (RBlk i) q = Err RuntimeError.
Proof. intros Hrep Hi. destruct (rep_off _ _ Hrep i Hi) as [Hp _]. unfold remove. by rewrite Hp. Qed.

Lemma append_loop_spec p bs h lb h' :
  NoDup (p :: bs) -> append_loop p bs h = (lb, h') ->
  lb = List.last bs p /\ seg h' (p :: bs) /\ (forall r, r ∉ p :: bs -> h' r = h r) /\
  prev_free_block (h' p) = prev_free_block (h p) /\ data_eq h' h.
Proof.
  revert p h. induction bs as [|b bs IH]; intros p h Hnd Hl; cbn in Hl.
  { by simplify_eq. }
  apply NoDup_cons in Hnd as [Hp Hnd].
  destruct (IH _ _ Hnd Hl) as (-> & Hseg & Hfr & Hpr & Hd).
  assert (p <> b) by set_solver.
  split_and!.
  - destruct bs as [|c bs]; [done|]. exact (last_cons_default c b p bs).
  - rewrite seg_cons2. rewrite Hfr, Hpr by done. unfold upd.
    rewrite (decide_True (P := p = p)), (decide_False (P := p = b)) by done.
    rewrite (decide_True (P := b = b)) by done. done.
  - intros r Hr. rewrite Hfr by set_solver. rewrite !upd_ne by set_solver. done.
  - rewrite Hfr by done. rewrite upd_eq, upd_ne by done. done.
  - etrans; [exact Hd|]. etrans; apply upd_data_eq; done.
Qed.

Lemma nodup_tail l1 p bs :
  NoDup (l1 ++ p :: bs ++ [RTail]) -> NoDup (p :: bs) /\ RTail ∉ p :: bs.
Proof.
  intros (_ & _ & H)%NoDup_app. rewrite app_comm_cons in H.
  apply NoDup_app in H as (? & H & _). split; [done|]. intros Hx. apply (H _ Hx). constructor.
Qed.

(** The chain after appending [bs], from the store left by the loop. *)
Lemma append_seg h h1 h' l1 p bs m lb :
  NoDup (l1 ++ p :: bs ++ [RTail]) -> p :: bs = m ++ [lb] ->
  seg h (l1 ++ [p]) -> seg h1 (p :: bs) ->
  (forall r, r ∉ p :: bs -> h1 r = h r) -> prev_free_block (h1 p) = prev_free_block (h p) ->
  (forall r, h' r = upd RTail (with_prev (Some lb)) (upd lb (with_next (Some RTail)) h1) r) ->
  seg h' (l1 ++ p :: bs ++ [RTail]).
Proof.
  intros Hnd Hm Hs0 Hs1 Hfr Hpp Hh'.
  assert (Hlbin : lb ∈ p :: bs) by (rewrite Hm; apply elem_of_app; right; constructor).
  destruct (nodup_tail _ _ _ Hnd) as [_ Ht].
  apply NoDup_app in Hnd as (Hnd1 & Hd & Hnd2). rewrite app_comm_cons in Hd, Hnd2.
  assert (Hl1 : forall r, r ∈ l1 -> h' r = h r).
  { intros r Hr. specialize (Hd r Hr). apply not_elem_of_app in Hd as [Hr1 Hr2].
    rewrite Hh', upd_ne by (intros <-; apply Hr2; constructor).
    rewrite upd_ne by (by intros ->). by apply Hfr. }
  apply seg_app. split.
  - eapply seg_frame; [exact Hs0|..].
    + intros r Hr. rewrite last_snoc. intros Hrp.
      apply elem_of_app in Hr as [Hr|Hr]; [by rewrite Hl1|].
      apply list_elem_of_singleton in Hr as ->. done.
    + intros r Hr _. apply elem_of_app in Hr as [Hr|Hr]; [by rewrite Hl1|].
      apply list_elem_of_singleton in Hr as ->.
      rewrite Hh', upd_ne by (intros <-; apply Ht; constructor). unfold upd. by case_decide.
    + apply NoDup_app. split_and!; [done| |apply NoDup_singleton].
      intros r Hr. specialize (Hd r Hr). set_solver.
  - rewrite app_comm_cons, Hm, <- app_assoc. rewrite Hm, <- app_assoc in Hnd2. cbn in Hnd2 |- *.
    apply nodup_pair in Hnd2 as Hpn. destruct Hpn as [Hlb Ht'].
    eapply (seg_link h1); [done|by rewrite <- Hm|done|..].
    + rewrite Hh', upd_ne, upd_eq by (by intros <-). done.
    + by rewrite Hh', upd_eq.
    + intros r Hr. rewrite Hh'. unfold upd. repeat case_decide; simplify_eq; done.
    + intros r Hr. rewrite Hh'. unfold upd. repeat case_decide; simplify_eq; done.
Qed.

Lemma append_n_spec q l bs :
  queue_rep q l -> NoDup bs -> Forall is_blk bs -> (forall r, r ∈ bs -> r ∉ l) ->
  exists q', append_n bs q = Ok q' /\ queue_rep q' (l ++ bs) /\ data_eq (qheap q') (qheap q).
Proof.
  intros Hrep Hndb Hbb Hdis. destruct bs as [|b0 bs0]; [exists q; by rewrite app_nil_r|].
  set (bs := b0 :: bs0) in *. pose proof Hrep as [Hb Hnd Hseg Htail Hoff Hnum].
  destruct (chain_snoc l) as (l1 & p & Hp).
  rewrite app_comm_cons, Hp, <- app_assoc in Hseg. cbn in Hseg.
  apply seg_app in Hseg as [Hs1 (_ & Hpt & _)].
  assert (Hndl : NoDup (l ++ bs)) by (apply NoDup_app; set_solver).
  assert (Hbl : Forall is_blk (l ++ bs)) by (by apply Forall_app).
  pose proof (chain_nodup _ Hbl Hndl) as Hndc.
  assert (Hch : RHead :: (l ++ bs) ++ [RTail] = l1 ++ p :: bs ++ [RTail]).
  { rewrite (cons_middle p), (app_assoc l1), <- Hp. cbn. by rewrite <- app_assoc. }
  rewrite Hch in Hndc.
  destruct (nodup_tail _ _ _ Hndc) as [Hnpb Ht].
  unfold append_n. rewrite Hpt. subst bs.
  destruct (append_loop p (b0 :: bs0) (qheap q)) as [lb h1] eqn:El.
  apply append_loop_spec in El as (Hlb & Hsb & Hfr & Hpp & Hd); [|done].
  destruct (last_split p (b0 :: bs0)) as [m Hm]. rewrite <- Hlb in Hm.
  assert (Hlbin : lb ∈ p :: b0 :: bs0) by (rewrite Hm; apply elem_of_app; right; constructor).
  eexists. split; [done|]. split; [split|]; cbn [qheap num_free_blocks].
  - done.
  - done.
  - rewrite Hch. by eapply append_seg.
  - rewrite upd_eq. cbn. rewrite upd_ne, Hfr by (by try intros ->). done.
  - intros i Hi. rewrite upd_ne by done.
    assert (RBlk i ∉ p :: b0 :: bs0).
    { assert (Hh : RBlk i ∉ RHead :: l) by set_solver. rewrite Hp in Hh. set_solver. }
    rewrite upd_ne, Hfr by (by try intros ->). apply Hoff. set_solver.
  - rewrite Hnum, length_app. lia.
  - etrans; [|exact Hd]. etrans; apply upd_data_eq; done.
Qed.

Lemma queue_rep_ext q q' l :
  (forall r, qheap q r = qheap q' r) -> num_free_blocks q = num_free_blocks q' ->
  queue_rep q l -> queue_rep q' l.
Proof.
  intros Hh Hn [Hb Hnd Hs Ht Ho Hnum]. split; [done|done|..].
  - eapply seg_frame; [exact Hs|intros; by rewrite Hh..|by apply chain_nodup].
  - by rewrite <- Hh.
  - intros i. rewrite <- !Hh. apply Ho.
  - by rewrite <- Hn.
Qed.

Lemma append_spec q l i :
  queue_rep q l -> RBlk i ∉ l ->
  exists q', append (RBlk i) q = Ok q' /\ queue_rep q' (l ++ [RBlk i]) /\
    data_eq (qheap q') (qheap q).
Proof.
  intros Hrep Hi.
  destruct (append_n_spec q l [RBlk i]) as (q1 & Hq1 & Hrep1 & Hd1);
    [done|apply NoDup_singleton|by repeat constructor|set_solver|].
  unfold append_n in Hq1. cbn in Hq1. unfold append.
  destruct (prev_free_block (qheap q RTail)) as [lb|] eqn:E; [|done].
  injection Hq1 as <-. eexists. split; [done|].
  assert (Hext : forall r, upd RTail (with_prev (Some (RBlk i))) (upd (RBlk i) (with_next (Some RTail))
      (upd lb (with_next (Some (RBlk i))) (upd (RBlk i) (with_prev (Some lb)) (qheap q)))) r =
    upd RTail (with_prev (Some (RBlk i))) (upd (RBlk i) (with_next (Some RTail))
      (upd (RBlk i) (with_prev (Some lb)) (upd lb (with_next (Some (RBlk i))) (qheap q)))) r).
  { intros r. unfold upd. by repeat case_decide. }
  split; [refine (queue_rep_ext _ _ _ _ _ Hrep1); [exact Hext|done]|].
  intros r. cbn. rewrite <- Hext. apply Hd1.
Qed.

(** The traversal from [curr] with enough fuel returns what is left of the chain. *)
Lemma collect_free_spec fuel h l ret :
  seg h (l ++ [RTail]) -> next_free_block (h RTail) = None -> (length l < fuel)%nat ->
  collect_free fuel h (List.hd RTail (l ++ [RTail])) ret = Some (ret ++ l).
Proof.
  revert fuel ret. induction l as [|b l IH]; intros [|fuel] ret Hs Ht Hf; cbn in *; try lia.
  - by rewrite Ht, app_nil_r.
  - destruct (l ++ [RTail]) as [|c l'] eqn:El; [by destruct l|].
    destruct Hs as (-> & _ & Hs). rewrite IH; [by rewrite <- app_assoc|done|done|lia].
Qed.

Lemma get_all_free_blocks_spec q l fuel :
  queue_rep q l -> (length l < fuel)%nat -> get_all_free_blocks fuel q = Some (Ok l).
Proof.
  intros [_ _ Hs Ht _ _] Hf. unfold get_all_free_blocks.
  pose proof (collect_free_spec fuel (qheap q) l [] (seg_cons _ _ _ Hs) Ht Hf) as Hc.
  destruct (l ++ [RTail]) as [|c l'] eqn:El; [by destruct l|].
  destruct Hs as (-> & _). cbn in Hc |- *. by rewrite Hc.
Qed.

(** *** Construction *)

(** The store after the linking loop has handled the indices below [k]. *)
Lemma link_loop blocks h k :
  NoDup blocks -> (k <= length blocks)%nat ->
  (forall r, prev_free_block (h r) = None /\ next_free_block (h r) = None) ->
  let h' := foldl (link_consecutive blocks (length blocks)) h (seq 0 k) in
  data_eq h' h /\
  (forall r, (forall i, (i < k)%nat -> blocks !! i <> Some r) -> h' r = h r) /\
  (forall i b, (i < k)%nat -> blocks !! i = Some b ->
     next_free_block (h' b) = blocks !! S i /\
     prev_free_block (h' b) = if (0 <? i)%nat then blocks !! (i - 1)%nat else None).
Proof.
  intros Hnd Hk H0. induction k as [|k IH]; cbn zeta; [by split_and!; [|done|lia]|].
  destruct IH as (Hd & Hfr & Hin); [lia|]. cbn zeta in *.
  rewrite seq_S, foldl_snoc. cbn [Nat.add].
  set (h1 := foldl _ h (seq 0 k)) in *.
  destruct (lookup_lt_is_Some_2 blocks k) as [b Hb]; [lia|].
  assert (Hnew : forall j, (j < k)%nat -> blocks !! j <> Some b).
  { intros j Hj Hjb. assert (j = k) by (by eapply NoDup_lookup). lia. }
  assert (Hstep : exists f, (forall x, bdata (f x) = bdata x) /\
      (forall r, link_consecutive blocks (length blocks) h1 k r = upd b f h1 r) /\
      next_free_block (f (h1 b)) = blocks !! S k /\
      prev_free_block (f (h1 b)) = if (0 <? k)%nat then blocks !! (k - 1)%nat else None).
  { unfold link_consecutive. rewrite Hb. rewrite <- (Nat.add_1_r k).
    pose proof (Hfr b Hnew) as Hb1. destruct (H0 b) as [Hb0 Hb0'].
    destruct (lookup_lt_is_Some_2 blocks (k - 1)) as [p Hp]; [lia|]. rewrite Hp.
    destruct (blocks !! (k + 1)%nat) as [s|] eqn:Hs.
    - apply lookup_lt_Some in Hs as Hlt. rewrite (proj2 (Nat.ltb_lt k (length blocks - 1))) by lia.
      destruct (0 <? k)%nat.
      + exists (fun x => with_next (Some s) (with_prev (Some p) x)).
        split_and!; try done. intros r. unfold upd. by case_decide.
      + exists (with_next (Some s)). split_and!; try done. cbn. by rewrite Hb1.
    - destruct (0 <? k)%nat.
      + exists (with_prev (Some p)). split_and!; try done. cbn. by rewrite Hb1.
      + exists (fun x => x). rewrite Hb1. split_and!; try done. intros r. unfold upd. by case_decide. }
  destruct Hstep as (f & Hf & Hh & Hfn & Hfp). split_and!.
  - intros r. rewrite Hh. etrans; [apply (upd_data_eq b f h1 Hf r)|apply Hd].
  - intros r Hr. rewrite Hh, upd_ne.
    + apply Hfr. intros i Hi. apply Hr. lia.
    + intros <-. by apply (Hr k); [lia|].
  - intros i b' Hi Hib. rewrite Hh. destruct (decide (i = k)) as [->|].
    + simplify_eq. by rewrite upd_eq.
    + rewrite upd_ne by (intros ->; by apply (Hnew i); [lia|]). apply Hin; [lia|done].
Qed.

(** The attributes of a real block after [__init__] has tied the ends of the
    chain [b0 ... bl] to the fake head and tail. *)
Definition tie_ends (b0 bl r : blkref) (x : KVCacheBlock) : KVCacheBlock :=
  let x1 := if decide (b0 = r) then with_prev (Some RHead) x else x in
  if decide (bl = r) then with_next (Some RTail) x1 else x1.

Lemma tie_ends_ptrs blocks b0 bl i b x :
  NoDup blocks -> blocks !! 0%nat = Some b0 -> blocks !! (length blocks - 1)%nat = Some bl ->
  blocks !! i = Some b -> next_free_block x = blocks !! S i ->
  prev_free_block x = (if (0 <? i)%nat then blocks !! (i - 1)%nat else None) ->
  next_free_block (tie_ends b0 bl b x) = Some (default RTail (blocks !! S i)) /\
  prev_free_block (tie_ends b0 bl b x) =
    Some (if (0 <? i)%nat then default RHead (blocks !! (i - 1)%nat) else RHead).
Proof.
  intros Hnd H0 Hl Hi Hn Hp. apply lookup_lt_Some in Hi as Hlt. unfold tie_ends. split.
  - case_decide as Hd; cbn.
    + subst bl. assert (i = (length blocks - 1)%nat) as -> by (by eapply NoDup_lookup).
      by rewrite lookup_ge_None_2 by lia.
    + assert (S i < length blocks)%nat.
      { destruct (decide (S i = length blocks)); [|lia]. exfalso. apply Hd.
        replace i with (length blocks - 1)%nat in Hi by lia. congruence. }
      destruct (lookup_lt_is_Some_2 blocks (S i)) as [s Hs]; [lia|].
      rewrite Hs in Hn |- *. by case_decide.
  - assert (Hz : (0 <? i)%nat = false <-> b0 = b).
    { rewrite Nat.ltb_ge. split; [intros; replace i with 0%nat in Hi by lia; congruence|].
      intros ->. assert (i = 0%nat) by (by eapply NoDup_lookup). lia. }
    destruct (lookup_lt_is_Some_2 blocks (i - 1)) as [p Hpp]; [lia|]. rewrite Hpp in Hp |- *.
    destruct (0 <? i)%nat; cbn.
    + rewrite (decide_False (P := b0 = b)) by naive_solver. by case_decide.
    + rewrite (decide_True (P := b0 = b)) by naive_solver. by case_decide.
Qed.

(** The pointers of the store built by [__init__], block by block. *)
Lemma queue_init_ptrs blocks h :
  NoDup blocks -> Forall is_blk blocks ->
  (forall r, prev_free_block (h r) = None /\ next_free_block (h r) = None) ->
  let h' := qheap (queue_init blocks h) in
  next_free_block (h' RHead) = Some (List.hd RTail blocks) /\
  prev_free_block (h' RTail) = Some (List.last blocks RHead) /\
  next_free_block (h' RTail) = None /\
  (forall r, is_blk r -> r ∉ blocks -> h' r = h r) /\
  (forall r, is_blk r -> bdata (h' r) = bdata (h r)) /\
  (forall i b, blocks !! i = Some b ->
    next_free_block (h' b) = Some (default RTail (blocks !! S i)) /\
    prev_free_block (h' b) = Some (if (0 <? i)%nat then default RHead (blocks !! (i - 1)%nat) else RHead)).
Proof.
  intros Hnd Hb H0. cbn zeta.
  destruct (link_loop blocks h (length blocks)) as (Hd & Hfr & Hin); [done|lia|done|].
  unfold queue_init. set (h1 := foldl _ _ _) in *. clearbody h1.
  destruct blocks as [|b0 bs] eqn:Ebs; cbn [head qheap].
  { split_and!; try done; intros r; unfold upd; destruct r; cbn; try done.
    - intros _ _. apply Hfr. cbn. lia.
    - intros _. apply Hd. }
  rewrite <- Ebs in *. destruct (last_split b0 bs) as [m Hm]. rewrite <- Ebs in Hm.
  set (bl := List.last bs b0) in *. clearbody bl.
  assert (Hlast : last blocks = Some bl) by (by rewrite Hm, last_snoc).
  assert (List.last blocks RHead = bl) as -> by (by rewrite Hm, List.last_last).
  assert (H0b : blocks !! 0%nat = Some b0) by (by rewrite Ebs).
  assert (Hlb : blocks !! (length blocks - 1)%nat = Some bl).
  { rewrite last_lookup in Hlast. by rewrite Nat.sub_1_r. }
  rewrite Hlast. cbn [qheap].
  rewrite Forall_forall in Hb.
  apply list_elem_of_lookup_2 in H0b as Hin0. apply list_elem_of_lookup_2 in Hlb as Hinl.
  pose proof (Hb _ Hin0) as Hb0. pose proof (Hb _ Hinl) as Hbl.
  assert (Hfin : forall r, is_blk r ->
    upd bl (with_next (Some RTail)) (upd RTail (with_prev (Some bl)) (upd b0 (with_prev (Some RHead))
      (upd RHead (with_next (Some b0)) (upd RTail (fun _ => new_block (-1))
        (upd RHead (fun _ => new_block (-1)) h1))))) r = tie_ends b0 bl r (h1 r)).
  { by intros [| |j]. }
  split_and!.
  1-3: unfold upd; destruct b0, bl; try done; by rewrite Ebs.
  - intros r Hri Hr. rewrite Hfin by done. unfold tie_ends.
    rewrite !decide_False by (intros <-; done).
    apply Hfr. intros i _ Hi. apply Hr. by eapply list_elem_of_lookup_2.
  - intros r Hri. rewrite Hfin by done. rewrite <- (Hd r). unfold tie_ends. by repeat case_decide.
  - intros i b Hi. rewrite Hfin by (eapply Hb, list_elem_of_lookup_2, Hi).
    destruct (Hin i b) as [Hn Hp]; [by apply lookup_lt_Some in Hi|done|]. by apply tie_ends_ptrs.
Qed.

Lemma queue_init_ends blocks h :
  block_id (qheap (queue_init blocks h) RHead) = -1 /\ block_id (qheap (queue_init blocks h) RTail) = -1.
Proof.
  unfold queue_init. destruct (head blocks) as [b0|], (last blocks) as [bl|]; cbn; unfold upd;
    repeat (case_decide; cbn; try subst); try done.
Qed.

Lemma queue_init_spec blocks h :
  NoDup blocks -> Forall is_blk blocks ->
  (forall r, prev_free_block (h r) = None /\ next_free_block (h r) = None) ->
  queue_rep (queue_init blocks h) blocks /\
  (forall r, is_blk r -> bdata (qheap (queue_init blocks h) r) = bdata (h r)).
Proof.
  intros Hnd Hb H0. destruct (queue_init_ptrs blocks h) as (Hh & Ht & Htn & Hoff & Hd & Hin); [done..|].
  split; [|done]. split; [done|done| |done| |done].
  - set (h' := qheap (queue_init blocks h)) in *. clearbody h'.
    rewrite seg_lookup. intros [|i] a b; cbn [lookup list_lookup].
    + intros [= <-]. destruct blocks as [|b0 bs]; cbn; intros [= <-]; [done|].
      destruct (Hin 0%nat b0) as [_ Hp]; [done|]. by rewrite Hp.
    + change (list_lookup (S i) ?l) with (l !! S i). change (list_lookup i ?l) with (l !! i).
      rewrite lookup_snoc_Some. intros [[Hi Ha]|[? <-]]; [|intros Hb'; apply lookup_lt_Some in Hb';
        rewrite length_app in Hb'; cbn in Hb'; lia].
      destruct (Hin i a Ha) as [Hn Hp]. rewrite lookup_snoc_Some. intros [[Hi' Hb']|[Hi' <-]].
      * rewrite Hb' in Hn. split; [done|]. destruct (Hin (S i) b Hb') as [_ Hpb]. rewrite Hpb. cbn.
        by rewrite Nat.sub_0_r, Ha.
      * rewrite lookup_ge_None_2 in Hn by lia. split; [done|].
        rewrite Ht. f_equal. destruct (exists_last (l := blocks)) as (m & x & ->); [by destruct blocks|].
        rewrite List.last_last. rewrite lookup_app_r in Ha by (rewrite length_app in Hi'; cbn in Hi'; lia).
        replace (i - length m)%nat with 0%nat in Ha by (rewrite length_app in Hi'; cbn in Hi'; lia).
        by injection Ha.
  - intros i Hi. rewrite Hoff by done. apply H0.
Qed.
End Refinement.

(** ** The abstract queue and the refinement of whole histories *)

(** A call on the queue. *)
Inductive qop : Type :=
  | QPopleft
  | QPopleftN (n : Z)
  | QRemove (b : blkref)
  | QAppend (b : blkref)
  | QAppendN (bs : list blkref).

(** The call on the linked structure, with the blocks it returns. *)
Definition qexec (op : qop) (q : FreeQ) : result (list blkref * FreeQ) :=
  match op with
  | QPopleft => '(b, q') ← popleft q; Ok ([b], q')
  | QPopleftN n => popleft_n n q
  | QRemove b => q' ← remove b q; Ok ([], q')
  | QAppend b => q' ← append b q; Ok ([], q')
  | QAppendN bs => q' ← append_n bs q; Ok ([], q')
  end.

(** The same call on a plain list: the contract of the class. *)
Definition lexec (op : qop) (l : list blkref) : result (list blkref * list blkref) :=
  match op with
  | QPopleft => match l with [] => Err ValueError | b :: l' => Ok ([b], l') end
  | QPopleftN n =>
      if n <=? Z.of_nat (length l) then Ok (take (Z.to_nat n) l, drop (Z.to_nat n) l)
      else Err AssertionError
  | QRemove b =>
      if decide (b ∈ l) then Ok ([], filter (fun x => x <> b) l) else Err RuntimeError
  | QAppend b => Ok ([], l ++ [b])
  | QAppendN bs => Ok ([], l ++ bs)
  end.

(** What a caller must respect: it hands over real blocks, never appends a block
    that is already queued, and pops a non-negative number of blocks. *)
Definition qop_ok (op : qop) (l : list blkref) : Prop :=
  match op with
  | QPopleft => True
  | QPopleftN n => 0 <= n
  | QRemove b => is_blk b
  | QAppend b => is_blk b /\ b ∉ l
  | QAppendN bs => Forall is_blk bs /\ NoDup bs /\ (forall b, b ∈ bs -> b ∉ l)
  end.

(** Histories of calls, stopped by the first exception. *)
Fixpoint qexecs (ops : list qop) (q : FreeQ) : result (list (list blkref) * FreeQ) :=
  match ops with
  | [] => Ok ([], q)
  | op :: ops' => '(out, q1) ← qexec op q; '(outs, q2) ← qexecs ops' q1; Ok (out :: outs, q2)
  end.
Fixpoint lexecs (ops : list qop) (l : list blkref) : result (list (list blkref) * list blkref) :=
  match ops with
  | [] => Ok ([], l)
  | op :: ops' => '(out, l1) ← lexec op l; '(outs, l2) ← lexecs ops' l1; Ok (out :: outs, l2)
  end.
Fixpoint qops_ok (ops : list qop) (l : list blkref) : Prop :=
  match ops with
  | [] => True
  | op :: ops' =>
      qop_ok op l /\ match lexec op l with Ok (_, l1) => qops_ok ops' l1 | Err _ => True end
  end.

Lemma filter_ne_mid (l1 l2 : list blkref) b :
  b ∉ l1 ++ l2 -> filter (fun x => x <> b) (l1 ++ b :: l2) = l1 ++ l2.
Proof.
  intros H. assert (Hid : forall l : list blkref, b ∉ l -> filter (fun x => x <> b) l = l).
  { intros l. induction l as [|x l IH]; intros Hb; [done|].
    rewrite filter_cons_True by set_solver. f_equal. apply IH. set_solver. }
  rewrite filter_app, filter_cons_False, !Hid by set_solver. done.
Qed.

(** One call simulates its specification. *)
Lemma qexec_refines op q l :
  queue_rep q l -> qop_ok op l ->
  match lexec op l with
  | Ok (out, l') => exists q', qexec op q = Ok (out, q') /\ queue_rep q' l' /\
                      data_eq (qheap q') (qheap q)
  | Err e => qexec op q = Err e
  end.
Proof.
  intros Hrep Hok. destruct op as [|n|b|b|bs]; cbn in *.
  - destruct l as [|b l].
    + by rewrite popleft_nil.
    + destruct (popleft_cons q b l) as (q' & -> & ?); [done|]. by exists q'.
  - destruct (Z.leb_spec n (Z.of_nat (length l))) as [Hn|Hn].
    + destruct (popleft_n_spec q l n) as (q' & -> & ?); [done|lia|]. by exists q'.
    + unfold popleft_n. rewrite (rep_num _ _ Hrep), (proj2 (Z.eqb_neq n 0)) by lia.
      by rewrite (proj2 (Z.leb_gt _ _)) by lia.
  - case_decide as Hb.
    + apply list_elem_of_split in Hb as (l1 & l2 & ->).
      destruct (remove_spec q l1 b l2) as (q' & -> & ?); [done|]. exists q'.
      rewrite filter_ne_mid; [done|]. apply (nodup_mid l1 b l2), (rep_nodup _ _ Hrep).
    + destruct b; try done. by erewrite remove_off.
  - destruct Hok as [Hb Hl]. destruct b as [| |i]; try done.
    destruct (append_spec q l i) as (q' & -> & ?); [done..|]. by exists q'.
  - destruct Hok as (Hb & Hnd & Hd).
    destruct (append_n_spec q l bs) as (q' & -> & ?); [done..|]. by exists q'.
Qed.

(** C3: For every history of [popleft], [popleft_n], [remove], [append] and
    [append_n] calls that respects the callers' obligations, the doubly linked
    queue returns the same blocks and raises the same exception at the same call
    as the plain list it represents, keeps representing that list, and never
    touches the identity, reference count, hash or null flag of a block. *)
Theorem free_queue_refines_list ops q l :
  queue_rep q l -> qops_ok ops l ->
  match lexecs ops l with
  | Ok (outs, l') => exists q', qexecs ops q = Ok (outs, q') /\ queue_rep q' l' /\
                       data_eq (qheap q') (qheap q)
  | Err e => qexecs ops q = Err e
  end.
Proof.
  revert q l. induction ops as [|op ops IH]; intros q l Hrep Hok; [by exists q|].
  destruct Hok as [Hop Hok]. pose proof (qexec_refines op q l Hrep Hop) as H. cbn.
  destruct (lexec op l) as [[out l1]|e]; cbn; [|by rewrite H].
  destruct H as (q1 & Hq & Hrep1 & Hd1). rewrite Hq. cbn.
  specialize (IH q1 l1 Hrep1 Hok). destruct (lexecs ops l1) as [[outs l2]|e]; cbn.
  - destruct IH as (q2 & -> & Hrep2 & Hd2). exists q2. split_and!; [done..|]. by etrans.
  - by rewrite IH.
Qed.

(** The queue built by [__init__] over the freshly created blocks
    [0 .. n-1] spells exactly those blocks, in order; reading it back with
    [get_all_free_blocks] terminates (with any fuel above [n]) and returns them. *)
Theorem free_queue_init_all n fuel :
  let blocks := RBlk <$> seq 0 n in
  let q := queue_init blocks (fun _ => new_block 0) in
  queue_rep q blocks /\ ((n < fuel)%nat -> get_all_free_blocks fuel q = Some (Ok blocks)).
Proof.
  intros blocks q.
  assert (Hnd : NoDup blocks).
  { apply NoDup_fmap_2; [by intros ?? [= ]|apply NoDup_seq]. }
  assert (Hb : Forall is_blk blocks) by (apply Forall_fmap, Forall_true; done).
  destruct (queue_init_spec blocks (fun _ => new_block 0)) as [Hrep _]; [done..|].
  split; [done|]. intros Hf. apply get_all_free_blocks_spec; [done|].
  subst blocks. by rewrite length_fmap, length_seq.
Qed.

Lemma free_queue_init_all_witness :
  get_all_free_blocks 5 (queue_init (RBlk <$> seq 0 4) (fun _ => new_block 0))
  = Some (Ok (RBlk <$> seq 0 4)).
Proof. apply (free_queue_init_all 4 5). lia. Defined.

Lemma free_queue_refines_list_witness :
  exists q', qexecs [QPopleft; QRemove (RBlk 2); QAppendN [RBlk 0; RBlk 2]; QPopleftN 2]
                    (queue_init (RBlk <$> seq 0 4) (fun _ => new_block 0))
             = Ok ([[RBlk 0]; []; []; [RBlk 1; RBlk 3]], q') /\
             queue_rep q' [RBlk 0; RBlk 2].
Proof.
  destruct (free_queue_refines_list
    [QPopleft; QRemove (RBlk 2); QAppendN [RBlk 0; RBlk 2]; QPopleftN 2]
    (queue_init (RBlk <$> seq 0 4) (fun _ => new_block 0)) (RBlk <$> seq 0 4))
    as (q' & Hq & Hrep & _).
  - apply queue_init_spec; [|by repeat constructor|done].
    apply NoDup_fmap_2; [by intros ?? [= ]|apply NoDup_seq].
  - split; [done|]. cbn [lexec]. split; [done|].
    replace (lexec (QRemove (RBlk 2)) _) with
      (Ok ([] : list blkref, [RBlk 1; RBlk 3])) by (vm_compute; reflexivity).
    split; [|by cbn]. cbn. split_and!; [by repeat constructor| |set_solver].
    by repeat (constructor; [set_solver|]); constructor.
  - exists q'. split; [exact Hq|exact Hrep].
Defined.
