(* ===== verification/Heapq.v ===== *)
(** * Python's [heapq]

    The binary-heap routines of the standard library that
    vllm/v1/core/sched/request_queue.py uses, on a list indexed from 0, for an
    arbitrary [__lt__] that is a strict weak order: [heappush], [heappop] and
    [heapify], with the two sift loops written with a hole as CPython does. *)
From S2P Require Import Prelude.

Section Heap.
Context {A : Type} (lt : A -> A -> bool).
Implicit Types (h : list A) (pos s : nat) (x y : A).

(** [(pos - 1) >> 1]. *)
Definition parent pos : nat := ((pos - 1) / 2)%nat.

(** The loop of [_siftdown]: the hole moves from [pos] towards [startpos] while the
    new item is smaller than the parent. *)
Fixpoint siftdown_loop (fuel : nat) h (startpos pos : nat) (newitem : A) : list A :=
  match fuel with
  | O => <[pos := newitem]> h
  | S fuel' =>
      if (startpos <? pos)%nat then
        match h !! parent pos with
        | Some p => if lt newitem p then siftdown_loop fuel' (<[pos := p]> h) startpos (parent pos) newitem
                    else <[pos := newitem]> h
        | None => h
        end
      else <[pos := newitem]> h
  end.

Definition siftdown h (startpos pos : nat) : list A :=
  match h !! pos with Some x => siftdown_loop pos h startpos pos x | None => h end.

(** The smaller child of [pos], the left one only when it is strictly smaller. *)
Definition smaller_child h pos : nat :=
  let c := (2 * pos + 1)%nat in
  match h !! c, h !! (c + 1)%nat with
  | Some l, Some r => if lt l r then c else (c + 1)%nat
  | _, _ => c
  end.

(** The loop of [_siftup]: the hole sinks to a leaf. *)
Fixpoint siftup_loop (fuel : nat) h pos : list A * nat :=
  match fuel with
  | O => (h, pos)
  | S fuel' =>
      if (2 * pos + 1 <? length h)%nat then
        let c := smaller_child h pos in
        match h !! c with
        | Some x => siftup_loop fuel' (<[pos := x]> h) c
        | None => (h, pos)
        end
      else (h, pos)
  end.

Definition siftup h pos : list A :=
  match h !! pos with
  | Some x => let '(h1, leaf) := siftup_loop (length h) h pos in siftdown (<[leaf := x]> h1) pos leaf
  | None => h
  end.

(** [heappush]. *)
Definition heappush h x : list A := siftdown (h ++ [x]) 0 (length h).

(** [heappop]; [None] on an empty list ([IndexError]). *)
Definition heappop h : option (A * list A) :=
  match last h with
  | None => None
  | Some lastelt =>
      match removelast h with
      | [] => Some (lastelt, [])
      | y :: h' => Some (y, siftup (lastelt :: h') 0)
      end
  end.

(** [heapify]: sift up every inner node, from the last one down to the root. *)
Definition heapify h : list A := foldr (fun i h => siftup h i) h (seq 0 (length h / 2)).

(** Popping a copy of the heap until it is empty. *)
Fixpoint heap_drain (fuel : nat) h : list A :=
  match fuel with
  | O => []
  | S fuel' => match heappop h with None => [] | Some (x, h') => x :: heap_drain fuel' h' end
  end.

(** ** Correctness *)

(** [y] may be the parent of [x]. *)
Definition le y x : Prop := lt x y = false.

Hypothesis le_trans : forall x y z, le x y -> le y z -> le x z.
Hypothesis lt_le : forall x y, lt x y = true -> le x y.

(** The heap property for the parents from [s] on. *)
Definition heap_from s h : Prop :=
  forall i x y, (0 < i)%nat -> (s <= parent i)%nat -> h !! i = Some x -> h !! parent i = Some y -> le y x.
Definition is_heap h : Prop := heap_from 0 h.

Lemma parent_lt i : (0 < i)%nat -> (parent i < i)%nat.
Proof. intros Hi. unfold parent. apply Nat.Div0.div_lt_upper_bound. lia. Qed.

Lemma parent_child i p : (0 < i)%nat -> parent i = p <-> i = (2 * p + 1)%nat \/ i = (2 * p + 2)%nat.
Proof.
  intros Hi. unfold parent. pose proof (Nat.div_mod_eq (i - 1) 2).
  pose proof (Nat.mod_upper_bound (i - 1) 2). lia.
Qed.

(** Ancestors of a node. *)
Inductive below s : nat -> Prop :=
  | below_refl : below s s
  | below_step i : (s < i)%nat -> below s (parent i) -> below s i.

Lemma below_ge s i : below s i -> (s <= i)%nat.
Proof. induction 1; lia. Qed.

Lemma below_parent s i : below s i -> (s < i)%nat -> below s (parent i).
Proof. destruct 1; [lia|done]. Qed.

Lemma below_zero i : below 0 i.
Proof.
  induction i as [i IH] using lt_wf_ind. destruct i as [|i]; [constructor|].
  constructor; [lia|]. apply IH, parent_lt. lia.
Qed.

(** *** Sifts permute *)

Lemma insert_perm h pos x : (pos < length h)%nat -> <[pos := x]> h ≡ₚ x :: delete pos h.
Proof.
  revert pos. induction h as [|y h IH]; intros [|pos] Hp; cbn in *; [lia..|done|].
  rewrite IH by lia. apply Permutation_swap.
Qed.

(** Moving an item into the hole moves the hole. *)
Lemma hole_perm h pos q p x :
  h !! q = Some p -> pos <> q -> (pos < length h)%nat ->
  <[q := x]> (<[pos := p]> h) ≡ₚ <[pos := x]> h.
Proof.
  intros Hq Hne Hp. assert (q < length h)%nat by (by eapply lookup_lt_Some).
  apply (Permutation_cons_inv (a := p)).
  rewrite (insert_perm (<[pos := p]> h) q x) by (by rewrite length_insert).
  assert (Hd : <[pos := p]> h ≡ₚ p :: delete q (<[pos := p]> h)).
  { apply delete_Permutation. by rewrite list_lookup_insert_ne. }
  rewrite Permutation_swap, <- Hd, (insert_perm h pos p), (insert_perm h pos x) by done.
  apply Permutation_swap.
Qed.

Lemma siftdown_loop_perm fuel h s pos x :
  (pos < length h)%nat -> siftdown_loop fuel h s pos x ≡ₚ <[pos := x]> h.
Proof.
  revert h pos. induction fuel as [|fuel IH]; intros h pos Hp; cbn [siftdown_loop]; [done|].
  destruct (Nat.ltb_spec s pos); [|done].
  pose proof (parent_lt pos ltac:(lia)).
  destruct (lookup_lt_is_Some_2 h (parent pos)) as [p Hh]; [lia|]. rewrite Hh.
  destruct (lt x p); [|done]. rewrite IH by (rewrite length_insert; lia).
  apply hole_perm; [done|lia|done].
Qed.

Lemma siftdown_perm h s pos : siftdown h s pos ≡ₚ h.
Proof.
  unfold siftdown. destruct (h !! pos) as [x|] eqn:E; [|done].
  rewrite siftdown_loop_perm by (by eapply lookup_lt_Some). by rewrite list_insert_id.
Qed.

Lemma smaller_child_spec h pos :
  (2 * pos + 1 < length h)%nat ->
  let c := smaller_child h pos in
  (c < length h)%nat /\ parent c = pos /\ (pos < c)%nat /\
  exists y, h !! c = Some y /\
    forall i x, (0 < i)%nat -> parent i = pos -> h !! i = Some x -> le y x.
Proof.
  intros Hl. unfold smaller_child.
  destruct (lookup_lt_is_Some_2 h (2 * pos + 1)) as [l El]; [lia|]. rewrite El.
  assert (Hpar : forall c, c = (2 * pos + 1)%nat \/ c = (2 * pos + 1 + 1)%nat -> parent c = pos).
  { intros c Hc. apply parent_child; lia. }
  assert (Hcase : forall i, (0 < i)%nat -> parent i = pos -> i = (2 * pos + 1)%nat \/ i = (2 * pos + 1 + 1)%nat).
  { intros i Hi Hp. apply parent_child in Hp; lia. }
  assert (Hrefl : forall z, le z z).
  { intros z. unfold le. destruct (lt z z) eqn:E; [|done]. pose proof (lt_le _ _ E) as E'. unfold le in E'. congruence. }
  destruct (h !! (2 * pos + 1 + 1)%nat) as [r|] eqn:Er.
  - destruct (lt l r) eqn:Elt; (split_and!; [eapply lookup_lt_Some; eassumption|apply Hpar; lia|lia|]).
    + exists l. split; [done|]. intros i x Hi Hp Hx. destruct (Hcase i Hi Hp) as [-> | ->]; simplify_eq; auto.
    + exists r. split; [done|]. intros i x Hi Hp Hx. destruct (Hcase i Hi Hp) as [-> | ->]; simplify_eq; auto.
  - split_and!; [lia|apply Hpar; lia|lia|]. exists l. split; [done|].
    intros i x Hi Hp Hx. destruct (Hcase i Hi Hp) as [-> | ->]; simplify_eq; auto.
Qed.

(** While the hole sinks: the pairs that avoid it are ordered, and the parent of
    the hole is below the hole's children. *)
Definition hole_heap s pos h : Prop :=
  (forall i x y, (0 < i)%nat -> (s <= parent i)%nat -> i <> pos -> parent i <> pos ->
     h !! i = Some x -> h !! parent i = Some y -> le y x) /\
  (forall i x y, (0 < i)%nat -> (s < pos)%nat -> parent i = pos ->
     h !! i = Some x -> h !! parent pos = Some y -> le y x).

Lemma siftup_loop_spec fuel h s pos x :
  below s pos -> (pos < length h)%nat -> (length h - pos <= fuel)%nat -> hole_heap s pos h ->
  let '(h', leaf) := siftup_loop fuel h pos in
  below s leaf /\ (leaf < length h')%nat /\ (length h' <= 2 * leaf + 1)%nat /\
  hole_heap s leaf h' /\ <[leaf := x]> h' ≡ₚ <[pos := x]> h.
Proof.
  revert h pos. induction fuel as [|fuel IH]; intros h pos Hb Hp Hf Hh; cbn [siftup_loop]; [lia|].
  destruct (Nat.ltb_spec (2 * pos + 1) (length h)) as [Hc|Hc]; [|split_and!; auto].
  destruct (smaller_child_spec h pos Hc) as (Hcl & Hcp & Hcgt & y & Hy & Hmin).
  set (c := smaller_child h pos) in *. rewrite Hy.
  specialize (IH (<[pos := y]> h) c). rewrite length_insert in IH.
  pose proof (below_ge s pos Hb) as Hge.
  assert (Hh' : hole_heap s c (<[pos := y]> h)).
  { destruct Hh as [Hpairs Hgrand]. split.
    - intros i a b Hi Hs Hic Hpc Ha Hb'.
      destruct (decide (i = pos)) as [->|Hip].
      + rewrite list_lookup_insert_eq in Ha by done. injection Ha as <-.
        rewrite list_lookup_insert_ne in Hb' by (pose proof (parent_lt pos Hi); lia).
        apply (Hgrand c y b); [lia| |done..]. pose proof (parent_lt pos Hi); lia.
      + rewrite list_lookup_insert_ne in Ha by done. destruct (decide (parent i = pos)) as [Hpi|Hpi].
        * rewrite Hpi, list_lookup_insert_eq in Hb' by done. injection Hb' as <-. by apply (Hmin i).
        * rewrite list_lookup_insert_ne in Hb' by done. by apply (Hpairs i).
    - intros i a b Hi Hs Hpi Ha Hb'. pose proof (parent_lt i Hi).
      rewrite Hcp, list_lookup_insert_eq in Hb' by done. injection Hb' as <-.
      rewrite list_lookup_insert_ne in Ha by lia.
      apply (Hpairs i); [lia|lia|lia|lia|done|]. by rewrite Hpi. }
  specialize (IH ltac:(constructor; [lia|by rewrite Hcp]) Hcl ltac:(lia) Hh').
  destruct (siftup_loop fuel (<[pos := y]> h) c) as [h' leaf].
  destruct IH as (? & ? & ? & ? & Hperm). split_and!; [done..|]. rewrite Hperm.
  apply hole_perm; [done|lia|done].
Qed.

(** While the hole rises with [x]: all pairs are ordered but the one above the
    hole, and the parent of the hole is below the hole's children. *)
Definition rise_heap s pos h x : Prop :=
  hole_heap s pos h /\
  forall i z, (0 < i)%nat -> parent i = pos -> h !! i = Some z -> le x z.

Lemma rise_done s pos h x :
  (pos < length h)%nat -> rise_heap s pos h x ->
  ((s <= parent pos)%nat -> (0 < pos)%nat -> forall y, h !! parent pos = Some y -> le y x) ->
  heap_from s (<[pos := x]> h).
Proof.
  intros Hp [[Hpairs _] Hch] Htop i a b Hi Hs Ha Hb. pose proof (parent_lt i Hi).
  destruct (decide (i = pos)) as [->|Hip].
  - rewrite list_lookup_insert_eq in Ha by done. injection Ha as <-.
    rewrite list_lookup_insert_ne in Hb by lia. by apply Htop.
  - rewrite list_lookup_insert_ne in Ha by done. destruct (decide (parent i = pos)) as [Hpi|Hpi].
    + rewrite Hpi, list_lookup_insert_eq in Hb by done. injection Hb as <-. by apply (Hch i).
    + rewrite list_lookup_insert_ne in Hb by done. by apply (Hpairs i).
Qed.

Lemma siftdown_loop_spec fuel h s pos x :
  below s pos -> (pos < length h)%nat -> (pos <= fuel)%nat -> rise_heap s pos h x ->
  heap_from s (siftdown_loop fuel h s pos x).
Proof.
  revert h pos. induction fuel as [|fuel IH]; intros h pos Hb Hp Hf Hr; cbn [siftdown_loop].
  { apply rise_done; [done..|]. lia. }
  destruct (Nat.ltb_spec s pos) as [Hs|Hs].
  2: { apply rise_done; [done..|]. intros Hsp H0. pose proof (parent_lt pos H0). lia. }
  pose proof (parent_lt pos ltac:(lia)) as Hpl.
  destruct (lookup_lt_is_Some_2 h (parent pos)) as [p Hpp]; [lia|]. rewrite Hpp.
  destruct (lt x p) eqn:Elt.
  2: { apply rise_done; [done..|]. intros _ _ y Hy. rewrite Hpp in Hy. by injection Hy as <-. }
  apply IH; [by apply below_parent|rewrite length_insert; lia|lia|].
  pose proof (below_ge _ _ (below_parent _ _ Hb Hs)) as Hge.
  destruct Hr as [[Hpairs Hgrand] Hch]. split; [split|].
  - intros i a b Hi Hsi Hne Hpne Ha Hb'. destruct (decide (i = pos)) as [->|Hip]; [done|].
    rewrite list_lookup_insert_ne in Ha by done. destruct (decide (parent i = pos)) as [Hpi|Hpi].
    + rewrite Hpi, list_lookup_insert_eq in Hb' by done. injection Hb' as <-. by apply (Hgrand i).
    + rewrite list_lookup_insert_ne in Hb' by done. by apply (Hpairs i).
  - intros i a b Hi Hsp Hpi Ha Hb'. pose proof (parent_lt (parent pos) ltac:(lia)) as Hpp2.
    rewrite list_lookup_insert_ne in Hb' by lia.
    assert (Hbp : le b p).
    { pose proof (below_ge _ _ (below_parent _ _ (below_parent _ _ Hb Hs) Hsp)).
      apply (Hpairs (parent pos)); [lia|lia|lia|lia|done..]. }
    destruct (decide (i = pos)) as [->|Hip].
    + rewrite list_lookup_insert_eq in Ha by done. by injection Ha as <-.
    + rewrite list_lookup_insert_ne in Ha by done. eapply le_trans; [exact Hbp|].
      apply (Hpairs i); [lia|lia|lia|lia|done|]. by rewrite Hpi.
  - intros i z Hi Hpi Hz. destruct (decide (i = pos)) as [->|Hip].
    + rewrite list_lookup_insert_eq in Hz by done. injection Hz as <-. by apply lt_le.
    + rewrite list_lookup_insert_ne in Hz by done. eapply le_trans; [by apply lt_le|].
      apply (Hpairs i); [lia|lia|lia|lia|done|]. by rewrite Hpi.
Qed.

Lemma siftup_spec h s :
  (s < length h)%nat -> heap_from (S s) h -> siftup h s ≡ₚ h /\ heap_from s (siftup h s).
Proof.
  intros Hs Hh. unfold siftup. destruct (lookup_lt_is_Some_2 h s Hs) as [x Hx]. rewrite Hx.
  assert (Hhole : hole_heap s s h).
  { split; [|lia]. intros i a b Hi Hge _ Hne. apply Hh; lia. }
  pose proof (siftup_loop_spec (length h) h s s x (below_refl s) Hs ltac:(lia) Hhole) as Hl.
  destruct (siftup_loop (length h) h s) as [h1 leaf]. destruct Hl as (Hb & Hlt & Hleaf & Hhole1 & Hperm).
  rewrite (list_insert_id h s) in Hperm by done. split; [by rewrite siftdown_perm|].
  unfold siftdown. rewrite list_lookup_insert_eq by done.
  apply siftdown_loop_spec; [done|by rewrite length_insert|done|].
  assert (Hno : forall i z, (0 < i)%nat -> parent i = leaf -> <[leaf := x]> h1 !! i = Some z -> False).
  { intros i z Hi Hp Hz%lookup_lt_Some. rewrite length_insert in Hz. apply parent_child in Hp; lia. }
  split; [split|].
  - intros i a b Hi Hge Hne Hpne Ha Hb'. rewrite list_lookup_insert_ne in Ha, Hb' by done.
    by apply (proj1 Hhole1 i).
  - intros i a b Hi _ Hp Ha. by destruct (Hno i a).
  - intros i z Hi Hp Hz. by destruct (Hno i z).
Qed.

Lemma heappush_spec h x : is_heap h -> heappush h x ≡ₚ x :: h /\ is_heap (heappush h x).
Proof.
  intros Hh. unfold heappush. split; [by rewrite siftdown_perm, <- Permutation_cons_append|].
  unfold siftdown. rewrite list_lookup_middle by done.
  apply siftdown_loop_spec; [apply below_zero|rewrite length_app; cbn; lia|done|].
  assert (Hno : forall i z, (0 < i)%nat -> parent i = length h -> (h ++ [x]) !! i = Some z -> False).
  { intros i z Hi Hp Hz%lookup_lt_Some. rewrite length_app in Hz. cbn in Hz. apply parent_child in Hp; lia. }
  assert (Hlk : forall i, i <> length h -> (h ++ [x]) !! i = h !! i).
  { intros i Hi. destruct (decide (i < length h)%nat); [by apply lookup_app_l|].
    rewrite lookup_app_r, !lookup_ge_None_2; [done|cbn; lia..]. }
  split; [split|].
  - intros i a b Hi _ Hne Hpne Ha Hb. rewrite Hlk in Ha, Hb by done. by apply (Hh i); [|lia|..].
  - intros i a b Hi _ Hp Ha. by destruct (Hno i a).
  - intros i z Hi Hp Hz. by destruct (Hno i z).
Qed.

(** The root of a heap is a minimum. *)
Lemma heap_root h x : is_heap h -> h !! 0%nat = Some x -> forall y, y ∈ h -> le x y.
Proof.
  intros Hh Hx y [i Hi]%list_elem_of_lookup. revert y Hi. induction i as [i IH] using lt_wf_ind. intros y Hi.
  destruct (decide (i = 0%nat)) as [->|Hne].
  - rewrite Hx in Hi. injection Hi as <-. unfold le. destruct (lt x x) eqn:E; [|done].
    pose proof (lt_le _ _ E) as E'. unfold le in E'. congruence.
  - pose proof (parent_lt i ltac:(lia)) as Hp.
    destruct (lookup_lt_is_Some_2 h (parent i)) as [z Hz]; [apply lookup_lt_Some in Hi; lia|].
    eapply le_trans; [by apply (IH (parent i))|]. apply (Hh i); [lia|lia|done..].
Qed.

Lemma heappop_spec h :
  is_heap h ->
  match heappop h with
  | None => h = []
  | Some (x, h') => h ≡ₚ x :: h' /\ is_heap h' /\ forall y, y ∈ h -> le x y
  end.
Proof.
  intros Hh. unfold heappop. destruct h as [|z h _] using rev_ind; [done|].
  rewrite last_snoc, removelast_last. destruct h as [|y h]; cbn [app].
  - split_and!; [done| |].
    + intros i a b _ _ Ha. by rewrite lookup_nil in Ha.
    + intros w ->%list_elem_of_singleton. apply (heap_root [z] z Hh); [done|constructor].
  - destruct (siftup_spec (z :: h) 0) as [Hp Hheap]; [cbn; lia| |].
    + intros i a b Hi Hge Ha Hb.
      assert (parent i < i)%nat by (by apply parent_lt).
      assert (i < length (z :: h))%nat by (by eapply lookup_lt_Some).
      assert (Hsame : forall k, (0 < k < length (z :: h))%nat -> (z :: h) !! k = (y :: h ++ [z]) !! k).
      { intros [|k] Hk; [lia|]. cbn in Hk. change (h !! k = (h ++ [z]) !! k). by rewrite lookup_app_l by lia. }
      rewrite Hsame in Ha, Hb by lia. apply (Hh i); [lia|lia|done..].
    + split_and!; [|done|].
      * rewrite Hp. by rewrite (Permutation_app_comm h [z]).
      * apply (heap_root (y :: h ++ [z])); done.
Qed.

Lemma heapify_spec h : heapify h ≡ₚ h /\ is_heap (heapify h).
Proof.
  unfold heapify.
  assert (Hgen : forall k s, (s + k = length h / 2)%nat ->
    foldr (fun i h => siftup h i) h (seq s k) ≡ₚ h /\ heap_from s (foldr (fun i h => siftup h i) h (seq s k))).
  { induction k as [|k IH]; intros s Hsk; cbn [seq foldr].
    - split; [done|]. intros i a b Hi Hge Ha%lookup_lt_Some Hb. exfalso.
      pose proof (Nat.div_mod_eq (length h) 2). pose proof (Nat.mod_upper_bound (length h) 2).
      destruct (proj1 (parent_child i (parent i) Hi) eq_refl); lia.
    - destruct (IH (S s)) as [Hp Hheap]; [lia|].
      destruct (siftup_spec (foldr (fun i h => siftup h i) h (seq (S s) k)) s) as [Hp' Hheap']; [|done|].
      + rewrite (Permutation_length Hp). pose proof (Nat.div_mod_eq (length h) 2). lia.
      + split; [by rewrite Hp'|done]. }
  apply (Hgen (length h / 2)%nat 0%nat). lia.
Qed.

(** Draining a heap sorts it. *)
Lemma heap_drain_spec fuel h :
  is_heap h -> (length h <= fuel)%nat -> heap_drain fuel h ≡ₚ h /\ StronglySorted le (heap_drain fuel h).
Proof.
  revert h. induction fuel as [|fuel IH]; intros h Hh Hf; cbn [heap_drain].
  { destruct h; [|cbn in Hf; lia]. split; [done|constructor]. }
  pose proof (heappop_spec h Hh) as Hp. destruct (heappop h) as [[x h']|]; [|subst; split; [done|constructor]].
  destruct Hp as (Hperm & Hh' & Hmin). pose proof (Permutation_length Hperm) as Hlen. cbn in Hlen.
  destruct (IH h' Hh' ltac:(lia)) as [Hp' Hs]. split; [by rewrite Hp'|].
  constructor; [done|]. apply Forall_forall. intros y Hy. apply Hmin.
  rewrite Hperm. rewrite Hp' in Hy. by constructor.
Qed.
End Heap.
