(* ===== verification/Request.v ===== *)
(** * Requests

    vllm/v1/request.py: the request object, its construction, the tokens it
    accumulates and its ordering; the stop conditions of
    vllm/v1/core/sched/utils.py; [PlaceholderRange] of vllm/multimodal/inputs.py.
    Times are integers (a clock reading); [obj_id] is Python's [id(self)]. The
    tensor of prompt embeddings is represented by its length and the digest of each
    of its slices, which is all the modelled code reads from it.  Connector and
    streaming attributes ([kv_transfer_params], [streaming_queue], [events],
    [trace_headers]) are not part of the record. *)
From S2P Require Import Prelude FreeQueue.

(** ** Data *)

(** [RequestStatus], in the order of the enumeration. *)
Inductive RequestStatus : Type :=
  | WAITING
  | WAITING_FOR_FSM
  | WAITING_FOR_REMOTE_KVS
  | WAITING_FOR_STREAMING_REQ
  | RUNNING
  | PREEMPTED
  | FINISHED_STOPPED
  | FINISHED_LENGTH_CAPPED
  | FINISHED_ABORTED
  | FINISHED_IGNORED
  | FINISHED_ERROR
  | FINISHED_REPETITION.

#[global] Instance RequestStatus_eq_dec : EqDecision RequestStatus.
Proof. solve_decision. Defined.

(** The values [enum.auto()] gives to the members. *)
Definition status_value (s : RequestStatus) : Z :=
  match s with
  | WAITING => 1 | WAITING_FOR_FSM => 2 | WAITING_FOR_REMOTE_KVS => 3
  | WAITING_FOR_STREAMING_REQ => 4 | RUNNING => 5 | PREEMPTED => 6
  | FINISHED_STOPPED => 7 | FINISHED_LENGTH_CAPPED => 8 | FINISHED_ABORTED => 9
  | FINISHED_IGNORED => 10 | FINISHED_ERROR => 11 | FINISHED_REPETITION => 12
  end.

(** [FinishReason] of vllm/v1/engine/__init__.py. *)
Inductive FinishReason : Type :=
  | STOP | LENGTH | ABORT | ERROR | REPETITION.

(** [RequestStatus.is_finished]. *)
Definition is_finished_status (s : RequestStatus) : bool :=
  status_value PREEMPTED <? status_value s.

(** [RequestStatus.get_finished_reason]: a lookup in [_FINISHED_REASON_MAP]. *)
Definition get_finished_reason (s : RequestStatus) : option FinishReason :=
  match s with
  | FINISHED_STOPPED => Some STOP
  | FINISHED_LENGTH_CAPPED => Some LENGTH
  | FINISHED_ABORTED => Some ABORT
  | FINISHED_IGNORED => Some LENGTH
  | FINISHED_ERROR => Some ERROR
  | WAITING_FOR_STREAMING_REQ => Some STOP
  | FINISHED_REPETITION => Some REPETITION
  | _ => None
  end.

(** [PlaceholderRange]; [is_embed] is the optional mask. *)
Record PlaceholderRange : Type := mkPlaceholder {
  offset : Z;
  length_ : Z;
  is_embed : option (list bool);
}.

Record MultiModalFeatureSpec : Type := mkMM {
  identifier : string;
  mm_position : PlaceholderRange;
}.

(** The running count [is_embed.cumsum(dim=0)] at index [i]. *)
Definition embeds_cumsum_at (mask : list bool) (i : Z) : result Z :=
  _ ← py_index mask i;
  Ok (zlen (filter (fun b => b = true) (take (Z.to_nat (if i <? 0 then i + zlen mask else i) + 1) mask))).

(** [PlaceholderRange.get_num_embeds]. *)
Definition get_num_embeds (p : PlaceholderRange) : result Z :=
  match is_embed p with
  | None => Ok (length_ p)
  | Some mask => embeds_cumsum_at mask (-1)
  end.

(** [PlaceholderRange.get_embeds_indices_in_range]. *)
Definition get_embeds_indices_in_range (p : PlaceholderRange) (start_idx end_idx : Z)
  : result (Z * Z) :=
  match is_embed p with
  | None => Ok (start_idx, end_idx)
  | Some mask =>
      s ← (if 0 <? start_idx then embeds_cumsum_at mask (start_idx - 1) else Ok 0);
      e ← embeds_cumsum_at mask (end_idx - 1);
      Ok (s, e)
  end.

Record RepetitionDetectionParams : Type := mkRepetition {
  max_pattern_size : Z;
  min_pattern_size : Z;
  min_count : Z;
}.

(** The fields of [SamplingParams] the modelled code reads; [sp_structured] says
    whether [StructuredOutputRequest.from_sampling_params] returns a request. *)
Record SamplingParams : Type := mkSampling {
  sp_max_tokens : option Z;
  min_tokens : Z;
  eos_token_id : option Z;
  stop_token_ids : option (list Z);
  repetition_detection : option RepetitionDetectionParams;
  sp_skip_reading_prefix_cache : option bool;
  sp_structured : bool;
}.

Record PoolingParams : Type := mkPooling {
  pp_skip_reading_prefix_cache : option bool;
}.

Record LoRARequest : Type := mkLoRA {
  lora_name : string;
  lora_int_id : Z;
}.

Inductive StopReason : Type :=
  | StopToken (t : Z)
  | StopString (s : string).

(** The prompt-embedding tensor: its length and the digest of each slice. *)
Record PromptEmbeds : Type := mkEmbeds {
  pe_len : Z;
  pe_digest : Z -> Z -> bytes;
}.

Record Request : Type := mkRequest {
  request_id : string;
  obj_id : Z;
  client_index : Z;
  priority : Z;
  arrival_time : Z;
  sampling_params : option SamplingParams;
  pooling_params : option PoolingParams;
  lora_request : option LoRARequest;
  structured_output : bool;
  status : RequestStatus;
  stop_reason : option StopReason;
  max_tokens : Z;
  prompt_token_ids : option (list Z);
  prompt_embeds : option PromptEmbeds;
  embeds_hashes : gmap (Z * Z) bytes;
  num_prompt_tokens : Z;
  output_token_ids : list Z;
  all_token_ids : list Z;
  num_output_placeholders : Z;
  discard_latest_async_tokens : bool;
  spec_token_ids : list Z;
  num_computed_tokens : Z;
  cache_salt : option string;
  mm_features : list MultiModalFeatureSpec;
  num_cached_tokens : Z;
  is_prefill_chunk : bool;
  num_preemptions : Z;
  num_external_computed_tokens : Z;
  block_hashes : list bytes;
  skip_reading_prefix_cache : bool;
  resumable : bool;
}.

(** Attribute assignments. *)
Definition set_embeds_hashes (v : gmap (Z * Z) bytes) (r : Request) : Request :=
  mkRequest (request_id r) (obj_id r) (client_index r) (priority r) (arrival_time r)
    (sampling_params r) (pooling_params r) (lora_request r) (structured_output r) (status r)
    (stop_reason r) (max_tokens r) (prompt_token_ids r) (prompt_embeds r) v
    (num_prompt_tokens r) (output_token_ids r) (all_token_ids r) (num_output_placeholders r)
    (discard_latest_async_tokens r) (spec_token_ids r) (num_computed_tokens r) (cache_salt
    r) (mm_features r) (num_cached_tokens r) (is_prefill_chunk r) (num_preemptions r)
    (num_external_computed_tokens r) (block_hashes r) (skip_reading_prefix_cache r)
    (resumable r).
Definition set_status (v : RequestStatus) (r : Request) : Request :=
  mkRequest (request_id r) (obj_id r) (client_index r) (priority r) (arrival_time r)
    (sampling_params r) (pooling_params r) (lora_request r) (structured_output r) v
    (stop_reason r) (max_tokens r) (prompt_token_ids r) (prompt_embeds r) (embeds_hashes r)
    (num_prompt_tokens r) (output_token_ids r) (all_token_ids r) (num_output_placeholders r)
    (discard_latest_async_tokens r) (spec_token_ids r) (num_computed_tokens r) (cache_salt
    r) (mm_features r) (num_cached_tokens r) (is_prefill_chunk r) (num_preemptions r)
    (num_external_computed_tokens r) (block_hashes r) (skip_reading_prefix_cache r)
    (resumable r).
Definition set_stop_reason (v : option StopReason) (r : Request) : Request :=
  mkRequest (request_id r) (obj_id r) (client_index r) (priority r) (arrival_time r)
    (sampling_params r) (pooling_params r) (lora_request r) (structured_output r) (status r)
    v (max_tokens r) (prompt_token_ids r) (prompt_embeds r) (embeds_hashes r)
    (num_prompt_tokens r) (output_token_ids r) (all_token_ids r) (num_output_placeholders r)
    (discard_latest_async_tokens r) (spec_token_ids r) (num_computed_tokens r) (cache_salt
    r) (mm_features r) (num_cached_tokens r) (is_prefill_chunk r) (num_preemptions r)
    (num_external_computed_tokens r) (block_hashes r) (skip_reading_prefix_cache r)
    (resumable r).
Definition set_output_token_ids (v : list Z) (r : Request) : Request :=
  mkRequest (request_id r) (obj_id r) (client_index r) (priority r) (arrival_time r)
    (sampling_params r) (pooling_params r) (lora_request r) (structured_output r) (status r)
    (stop_reason r) (max_tokens r) (prompt_token_ids r) (prompt_embeds r) (embeds_hashes r)
    (num_prompt_tokens r) v (all_token_ids r) (num_output_placeholders r)
    (discard_latest_async_tokens r) (spec_token_ids r) (num_computed_tokens r) (cache_salt
    r) (mm_features r) (num_cached_tokens r) (is_prefill_chunk r) (num_preemptions r)
    (num_external_computed_tokens r) (block_hashes r) (skip_reading_prefix_cache r)
    (resumable r).
Definition set_all_token_ids (v : list Z) (r : Request) : Request :=
  mkRequest (request_id r) (obj_id r) (client_index r) (priority r) (arrival_time r)
    (sampling_params r) (pooling_params r) (lora_request r) (structured_output r) (status r)
    (stop_reason r) (max_tokens r) (prompt_token_ids r) (prompt_embeds r) (embeds_hashes r)
    (num_prompt_tokens r) (output_token_ids r) v (num_output_placeholders r)
    (discard_latest_async_tokens r) (spec_token_ids r) (num_computed_tokens r) (cache_salt
    r) (mm_features r) (num_cached_tokens r) (is_prefill_chunk r) (num_preemptions r)
    (num_external_computed_tokens r) (block_hashes r) (skip_reading_prefix_cache r)
    (resumable r).
Definition set_num_output_placeholders (v : Z) (r : Request) : Request :=
  mkRequest (request_id r) (obj_id r) (client_index r) (priority r) (arrival_time r)
    (sampling_params r) (pooling_params r) (lora_request r) (structured_output r) (status r)
    (stop_reason r) (max_tokens r) (prompt_token_ids r) (prompt_embeds r) (embeds_hashes r)
    (num_prompt_tokens r) (output_token_ids r) (all_token_ids r) v
    (discard_latest_async_tokens r) (spec_token_ids r) (num_computed_tokens r) (cache_salt
    r) (mm_features r) (num_cached_tokens r) (is_prefill_chunk r) (num_preemptions r)
    (num_external_computed_tokens r) (block_hashes r) (skip_reading_prefix_cache r)
    (resumable r).
Definition set_discard_latest_async_tokens (v : bool) (r : Request) : Request :=
  mkRequest (request_id r) (obj_id r) (client_index r) (priority r) (arrival_time r)
    (sampling_params r) (pooling_params r) (lora_request r) (structured_output r) (status r)
    (stop_reason r) (max_tokens r) (prompt_token_ids r) (prompt_embeds r) (embeds_hashes r)
    (num_prompt_tokens r) (output_token_ids r) (all_token_ids r) (num_output_placeholders r)
    v (spec_token_ids r) (num_computed_tokens r) (cache_salt r) (mm_features r)
    (num_cached_tokens r) (is_prefill_chunk r) (num_preemptions r)
    (num_external_computed_tokens r) (block_hashes r) (skip_reading_prefix_cache r)
    (resumable r).
Definition set_spec_token_ids (v : list Z) (r : Request) : Request :=
  mkRequest (request_id r) (obj_id r) (client_index r) (priority r) (arrival_time r)
    (sampling_params r) (pooling_params r) (lora_request r) (structured_output r) (status r)
    (stop_reason r) (max_tokens r) (prompt_token_ids r) (prompt_embeds r) (embeds_hashes r)
    (num_prompt_tokens r) (output_token_ids r) (all_token_ids r) (num_output_placeholders r)
    (discard_latest_async_tokens r) v (num_computed_tokens r) (cache_salt r) (mm_features r)
    (num_cached_tokens r) (is_prefill_chunk r) (num_preemptions r)
    (num_external_computed_tokens r) (block_hashes r) (skip_reading_prefix_cache r)
    (resumable r).
Definition set_num_computed_tokens (v : Z) (r : Request) : Request :=
  mkRequest (request_id r) (obj_id r) (client_index r) (priority r) (arrival_time r)
    (sampling_params r) (pooling_params r) (lora_request r) (structured_output r) (status r)
    (stop_reason r) (max_tokens r) (prompt_token_ids r) (prompt_embeds r) (embeds_hashes r)
    (num_prompt_tokens r) (output_token_ids r) (all_token_ids r) (num_output_placeholders r)
    (discard_latest_async_tokens r) (spec_token_ids r) v (cache_salt r) (mm_features r)
    (num_cached_tokens r) (is_prefill_chunk r) (num_preemptions r)
    (num_external_computed_tokens r) (block_hashes r) (skip_reading_prefix_cache r)
    (resumable r).
Definition set_num_cached_tokens (v : Z) (r : Request) : Request :=
  mkRequest (request_id r) (obj_id r) (client_index r) (priority r) (arrival_time r)
    (sampling_params r) (pooling_params r) (lora_request r) (structured_output r) (status r)
    (stop_reason r) (max_tokens r) (prompt_token_ids r) (prompt_embeds r) (embeds_hashes r)
    (num_prompt_tokens r) (output_token_ids r) (all_token_ids r) (num_output_placeholders r)
    (discard_latest_async_tokens r) (spec_token_ids r) (num_computed_tokens r) (cache_salt
    r) (mm_features r) v (is_prefill_chunk r) (num_preemptions r)
    (num_external_computed_tokens r) (block_hashes r) (skip_reading_prefix_cache r)
    (resumable r).
Definition set_is_prefill_chunk (v : bool) (r : Request) : Request :=
  mkRequest (request_id r) (obj_id r) (client_index r) (priority r) (arrival_time r)
    (sampling_params r) (pooling_params r) (lora_request r) (structured_output r) (status r)
    (stop_reason r) (max_tokens r) (prompt_token_ids r) (prompt_embeds r) (embeds_hashes r)
    (num_prompt_tokens r) (output_token_ids r) (all_token_ids r) (num_output_placeholders r)
    (discard_latest_async_tokens r) (spec_token_ids r) (num_computed_tokens r) (cache_salt
    r) (mm_features r) (num_cached_tokens r) v (num_preemptions r)
    (num_external_computed_tokens r) (block_hashes r) (skip_reading_prefix_cache r)
    (resumable r).
Definition set_num_preemptions (v : Z) (r : Request) : Request :=
  mkRequest (request_id r) (obj_id r) (client_index r) (priority r) (arrival_time r)
    (sampling_params r) (pooling_params r) (lora_request r) (structured_output r) (status r)
    (stop_reason r) (max_tokens r) (prompt_token_ids r) (prompt_embeds r) (embeds_hashes r)
    (num_prompt_tokens r) (output_token_ids r) (all_token_ids r) (num_output_placeholders r)
    (discard_latest_async_tokens r) (spec_token_ids r) (num_computed_tokens r) (cache_salt
    r) (mm_features r) (num_cached_tokens r) (is_prefill_chunk r) v
    (num_external_computed_tokens r) (block_hashes r) (skip_reading_prefix_cache r)
    (resumable r).
Definition set_num_external_computed_tokens (v : Z) (r : Request) : Request :=
  mkRequest (request_id r) (obj_id r) (client_index r) (priority r) (arrival_time r)
    (sampling_params r) (pooling_params r) (lora_request r) (structured_output r) (status r)
    (stop_reason r) (max_tokens r) (prompt_token_ids r) (prompt_embeds r) (embeds_hashes r)
    (num_prompt_tokens r) (output_token_ids r) (all_token_ids r) (num_output_placeholders r)
    (discard_latest_async_tokens r) (spec_token_ids r) (num_computed_tokens r) (cache_salt
    r) (mm_features r) (num_cached_tokens r) (is_prefill_chunk r) (num_preemptions r) v
    (block_hashes r) (skip_reading_prefix_cache r) (resumable r).
Definition set_block_hashes (v : list bytes) (r : Request) : Request :=
  mkRequest (request_id r) (obj_id r) (client_index r) (priority r) (arrival_time r)
    (sampling_params r) (pooling_params r) (lora_request r) (structured_output r) (status r)
    (stop_reason r) (max_tokens r) (prompt_token_ids r) (prompt_embeds r) (embeds_hashes r)
    (num_prompt_tokens r) (output_token_ids r) (all_token_ids r) (num_output_placeholders r)
    (discard_latest_async_tokens r) (spec_token_ids r) (num_computed_tokens r) (cache_salt
    r) (mm_features r) (num_cached_tokens r) (is_prefill_chunk r) (num_preemptions r)
    (num_external_computed_tokens r) v (skip_reading_prefix_cache r) (resumable r).

(** ** Operations *)

(** Properties of the object. *)
Definition num_tokens (r : Request) : Z := zlen (all_token_ids r).
Definition num_tokens_with_spec (r : Request) : Z :=
  zlen (all_token_ids r) + zlen (spec_token_ids r).
Definition num_output_tokens (r : Request) : Z := zlen (output_token_ids r).
Definition has_encoder_inputs (r : Request) : bool := 0 <? zlen (mm_features r).
Definition is_finished (r : Request) : bool := is_finished_status (status r).

(** [get_num_encoder_embeds]. *)
Definition get_num_encoder_embeds (r : Request) (input_id : Z) : result Z :=
  _ ← py_assert (input_id <? zlen (mm_features r));
  f ← py_index (mm_features r) input_id;
  get_num_embeds (mm_position f).

(** [length_from_prompt_token_ids_or_embeds] of vllm/utils/__init__.py. *)
Definition length_from_prompt_token_ids_or_embeds
    (toks : option (list Z)) (embeds : option PromptEmbeds) : result Z :=
  match toks with
  | None => match embeds with None => Err ValueError | Some e => Ok (pe_len e) end
  | Some l =>
      match embeds with
      | Some e => if negb (pe_len e =? zlen l) then Err ValueError else Ok (zlen l)
      | None => Ok (zlen l)
      end
  end.

(** [get_skip_reading_prefix_cache]. *)
Definition get_skip_reading_prefix_cache (sp : option SamplingParams) (pp : option PoolingParams)
  : bool :=
  match sp ≫= sp_skip_reading_prefix_cache with
  | Some b => b
  | None => default false (pp ≫= pp_skip_reading_prefix_cache)
  end.

(** The type of a block hasher: it reads the request and returns the new hashes
    with the request's updated table of per-block embedding digests. *)
Definition block_hasher : Type := Request -> result (list bytes * gmap (Z * Z) bytes).

(** [update_block_hashes]. *)
Definition update_block_hashes (hasher : option block_hasher) (r : Request) : result Request :=
  match hasher with
  | None => Ok r
  | Some f =>
      '(hs, memo) ← f r;
      Ok (set_embeds_hashes memo (set_block_hashes (block_hashes r ++ hs) r))
  end.

(** [append_output_token_ids] with a list; an [int] is the singleton. *)
Definition append_output_token_ids (hasher : option block_hasher) (toks : list Z) (r : Request)
  : result Request :=
  update_block_hashes hasher
    (set_all_token_ids (all_token_ids r ++ toks)
      (set_output_token_ids (output_token_ids r ++ toks) r)).

(** [Request.__init__]. *)
Definition new_request (hasher : option block_hasher) (rid : string) (oid ci prio : Z)
    (now : Z) (arrival : option Z) (toks : option (list Z)) (sp : option SamplingParams)
    (pp : option PoolingParams) (embeds : option PromptEmbeds)
    (mms : list MultiModalFeatureSpec) (lora : option LoRARequest) (salt : option string)
    (resum : bool) : result Request :=
  let structured := match sp with Some s => sp_structured s | None => false end in
  '(st, mt) ← match pp, sp with
              | Some _, _ => Ok (WAITING, 1)
              | None, Some s =>
                  m ← of_option AssertionError (sp_max_tokens s);
                  Ok (if structured then WAITING_FOR_FSM else WAITING, m)
              | None, None => Err ValueError
              end;
  np ← length_from_prompt_token_ids_or_embeds toks embeds;
  let all := match toks with Some l => l | None => replicate (Z.to_nat np) 0 end in
  update_block_hashes hasher
    {| request_id := rid; obj_id := oid; client_index := ci; priority := prio;
       arrival_time := default now arrival; sampling_params := sp; pooling_params := pp;
       lora_request := lora; structured_output := structured; status := st;
       stop_reason := None; max_tokens := mt; prompt_token_ids := toks;
       prompt_embeds := embeds; embeds_hashes := ∅; num_prompt_tokens := np;
       output_token_ids := []; all_token_ids := all; num_output_placeholders := 0;
       discard_latest_async_tokens := false; spec_token_ids := []; num_computed_tokens := 0;
       cache_salt := salt; mm_features := mms; num_cached_tokens := -1;
       is_prefill_chunk := false; num_preemptions := 0; num_external_computed_tokens := 0;
       block_hashes := []; skip_reading_prefix_cache := get_skip_reading_prefix_cache sp pp;
       resumable := resum |}.

(** [Request.__lt__]. *)
Definition request_lt (a b : Request) : bool :=
  if negb (priority a =? priority b) then priority a <? priority b
  else if negb (arrival_time a =? arrival_time b) then arrival_time a <? arrival_time b
  else if negb (String.eqb (request_id a) (request_id b)) then
    String.ltb (request_id a) (request_id b)
  else obj_id a <? obj_id b.
