(* ===== verification/RequestQueue.v ===== *)
(** * Request queues

    vllm/v1/core/sched/request_queue.py: the abstract base class [RequestQueue] as an
    interface (operations and laws), its two implementations, the deque of
    [FCFSRequestQueue] and the heap of [PriorityRequestQueue] (over [heapq]), and the
    order [Request.__lt__].  A queue holds references to requests: the model reads
    from an element only its identity and the fields of the order, which no code
    assigns after construction. *)
From S2P Require Import Prelude FreeQueue Heapq Request.

(** What a queue reads from an element: [__lt__] and object identity. *)
Class Item (A : Type) := {
  item_lt : A -> A -> bool;
  item_id : A -> Z;
}.
#[global] Instance request_item : Item Request := {| item_lt := request_lt; item_id := obj_id |}.

(** The abstract base class. *)
Class RequestQueue (A Q : Type) := {
  q_new : Q;
  add_request : A -> Q -> Q;
  pop_request : Q -> result (A * Q);
  peek_request : Q -> result A;
  prepend_request : A -> Q -> Q;
  prepend_requests : list A -> Q -> Q;
  remove_request : A -> Q -> result Q;
  remove_requests : list A -> Q -> Q;
  q_bool : Q -> bool;
  q_len : Q -> Z;
  q_iter : Q -> list A;
}.

Section Queues.
Context {A : Type} `{Item A}.
Implicit Types (r : A) (rs : list A).

(** [list.remove] and [deque.remove]: the first element that is the same object. *)
Fixpoint remove_object r (q : list A) : result (list A) :=
  match q with
  | [] => Err ValueError
  | x :: q' => if item_id x =? item_id r then Ok q' else q1 ← remove_object r q'; Ok (x :: q1)
  end.

(** [r not in set(rs)], by identity. *)
Definition not_listed rs r : Prop := item_id r ∉ item_id <$> rs.
#[global] Instance not_listed_dec rs r : Decision (not_listed rs r).
Proof. unfold not_listed. apply _. Defined.

(** [FCFSRequestQueue]. *)
Inductive FCFSQueue : Type := FCFS (d : list A).
Definition deque_of (q : FCFSQueue) : list A := let 'FCFS d := q in d.

Definition fcfs_pop (q : FCFSQueue) : result (A * FCFSQueue) :=
  match deque_of q with [] => Err IndexError | r :: d => Ok (r, FCFS d) end.
Definition fcfs_peek (q : FCFSQueue) : result A :=
  match deque_of q with [] => Err IndexError | r :: _ => Ok r end.
(** [extendleft]: one [appendleft] per request. *)
Definition fcfs_prepend_requests rs (q : FCFSQueue) : FCFSQueue :=
  FCFS (foldl (fun d r => r :: d) (deque_of q) rs).
Definition fcfs_remove r (q : FCFSQueue) : result FCFSQueue :=
  d ← remove_object r (deque_of q); Ok (FCFS d).
Definition fcfs_remove_requests rs (q : FCFSQueue) : FCFSQueue :=
  FCFS (filter (not_listed rs) (deque_of q)).

#[global] Instance fcfs_queue : RequestQueue A FCFSQueue := {|
  q_new := FCFS [];
  add_request := fun r q => FCFS (deque_of q ++ [r]);
  pop_request := fcfs_pop;
  peek_request := fcfs_peek;
  prepend_request := fun r q => FCFS (r :: deque_of q);
  prepend_requests := fcfs_prepend_requests;
  remove_request := fcfs_remove;
  remove_requests := fcfs_remove_requests;
  q_bool := fun q => 0 <? zlen (deque_of q);
  q_len := fun q => zlen (deque_of q);
  q_iter := deque_of;
|}.

(** [PriorityRequestQueue]. *)
Inductive PriorityQueue : Type := PQ (heap : list A).
Definition heap_of (q : PriorityQueue) : list A := let 'PQ h := q in h.

Definition pq_add r (q : PriorityQueue) : PriorityQueue := PQ (heappush item_lt (heap_of q) r).
Definition pq_pop (q : PriorityQueue) : result (A * PriorityQueue) :=
  match heappop item_lt (heap_of q) with None => Err IndexError | Some (r, h) => Ok (r, PQ h) end.
Definition pq_peek (q : PriorityQueue) : result A :=
  match heap_of q with [] => Err IndexError | r :: _ => Ok r end.
Definition pq_prepend_requests rs (q : PriorityQueue) : PriorityQueue :=
  foldl (fun q r => pq_add r q) q rs.
Definition pq_remove r (q : PriorityQueue) : result PriorityQueue :=
  h ← remove_object r (heap_of q); Ok (PQ (heapify item_lt h)).
Definition pq_remove_requests rs (q : PriorityQueue) : PriorityQueue :=
  PQ (heapify item_lt (filter (not_listed rs) (heap_of q))).
(** [__iter__]: pops a copy of the heap until it is empty. *)
Definition pq_iter (q : PriorityQueue) : list A := heap_drain item_lt (length (heap_of q)) (heap_of q).

#[global] Instance priority_queue : RequestQueue A PriorityQueue := {|
  q_new := PQ [];
  add_request := pq_add;
  pop_request := pq_pop;
  peek_request := pq_peek;
  prepend_request := pq_add;
  prepend_requests := pq_prepend_requests;
  remove_request := pq_remove;
  remove_requests := pq_remove_requests;
  q_bool := fun q => match heap_of q with [] => false | _ => true end;
  q_len := fun q => zlen (heap_of q);
  q_iter := pq_iter;
|}.
End Queues.
Arguments FCFSQueue A : clear implicits.
Arguments PriorityQueue A : clear implicits.

(** [create_request_queue]; a policy is one of the two enum members. *)
Inductive SchedulingPolicy : Type := FCFS_policy | PRIORITY_policy.
Definition create_request_queue (A : Type) (p : SchedulingPolicy) : FCFSQueue A + PriorityQueue A :=
  match p with PRIORITY_policy => inr (PQ []) | FCFS_policy => inl (FCFS []) end.

(** ** The contract of the base class *)

(** [q_wf] is the implementation's invariant; the laws speak of the iteration order. *)
Class RequestQueueLaws (A Q : Type) `{Item A} `{RequestQueue A Q} := {
  q_wf : Q -> Prop;
  law_new : q_wf q_new /\ q_iter q_new = [];
  law_add r q : q_wf q -> q_wf (add_request r q) /\ q_iter (add_request r q) ≡ₚ r :: q_iter q;
  law_prepend r q : q_wf q -> q_wf (prepend_request r q) /\ q_iter (prepend_request r q) ≡ₚ r :: q_iter q;
  law_prepend_all rs q : q_wf q ->
    q_wf (prepend_requests rs q) /\ q_iter (prepend_requests rs q) ≡ₚ rs ++ q_iter q;
  law_pop q : q_wf q ->
    match pop_request q with
    | Ok (r, q') => q_wf q' /\ q_iter q = r :: q_iter q'
    | Err e => e = IndexError /\ q_iter q = []
    end;
  law_peek q : q_wf q ->
    peek_request q = match q_iter q with [] => Err IndexError | r :: _ => Ok r end;
  law_remove r q : q_wf q ->
    match remove_request r q with
    | Ok q' => q_wf q' /\ exists x, item_id x = item_id r /\ q_iter q ≡ₚ x :: q_iter q'
    | Err e => e = ValueError /\ item_id r ∉ item_id <$> q_iter q
    end;
  law_remove_all rs q : q_wf q ->
    q_wf (remove_requests rs q) /\ q_iter (remove_requests rs q) ≡ₚ filter (not_listed rs) (q_iter q);
  law_len q : q_wf q -> q_len q = zlen (q_iter q);
  law_bool q : q_wf q -> q_bool q = bool_decide (q_iter q <> []);
}.

(** ** The order of requests *)

Lemma string_lt_trans a b c :
  String.compare a b = Lt -> String.compare b c = Lt -> String.compare a c = Lt.
Proof.
  revert b c. induction a as [|x a IH]; intros [|y b] [|z c]; cbn; try done.
  unfold Ascii.compare.
  destruct (N.compare_spec (Ascii.N_of_ascii x) (Ascii.N_of_ascii y)) as [E|E|E],
    (N.compare_spec (Ascii.N_of_ascii y) (Ascii.N_of_ascii z)) as [F|F|F],
    (N.compare_spec (Ascii.N_of_ascii x) (Ascii.N_of_ascii z)) as [G|G|G]; try done; try lia. apply IH.
Qed.

Lemma string_ltb_trans a b c : String.ltb a b = true -> String.ltb b c = true -> String.ltb a c = true.
Proof.
  unfold String.ltb. destruct (String.compare a b) eqn:E1, (String.compare b c) eqn:E2; try done.
  by rewrite (string_lt_trans a b c).
Qed.

Lemma string_ltb_asym a b : String.ltb a b = true -> String.ltb b a = false.
Proof. unfold String.ltb. rewrite (String.compare_antisym b a). by destruct (String.compare a b). Qed.

Lemma string_ltb_total a b : a <> b -> String.ltb a b = negb (String.ltb b a).
Proof.
  intros Hne. unfold String.ltb. rewrite String.compare_antisym.
  destruct (String.compare b a) eqn:E; try done. apply String.compare_eq_iff in E. congruence.
Qed.

(** Requests that the order cannot tell apart: same keys and same object. *)
Definition same_key (a b : Request) : Prop :=
  priority a = priority b /\ arrival_time a = arrival_time b /\ request_id a = request_id b /\ obj_id a = obj_id b.

Ltac key_cases :=
  repeat match goal with
  | |- context [ (?a =? ?b)%Z ] => destruct (Z.eqb_spec a b)
  | |- context [ String.eqb ?a ?b ] => destruct (String.eqb_spec a b)
  end; cbn [negb]; rewrite ?Z.ltb_lt, ?Z.ltb_ge.

Lemma request_lt_asym a b : ~ same_key a b -> request_lt a b = negb (request_lt b a).
Proof.
  unfold same_key, request_lt. intros Hk. key_cases; try congruence; try (by apply string_ltb_total);
    match goal with |- (?x <? ?y) = negb (?y <? ?x) =>
      destruct (Z.ltb_spec x y), (Z.ltb_spec y x); cbn; try done; try lia end.
  exfalso. apply Hk. split_and!; [done..|lia].
Qed.

Lemma request_lt_same a b c : same_key a b -> request_lt c a = request_lt c b /\ request_lt a c = request_lt b c.
Proof. unfold same_key, request_lt. by intros (-> & -> & -> & ->). Qed.

Lemma request_lt_trans a b c : request_lt a b = true -> request_lt b c = true -> request_lt a c = true.
Proof.
  unfold request_lt. key_cases; try lia; try congruence; try (by apply string_ltb_trans).
  all: repeat match goal with H : request_id _ = request_id _ |- _ => rewrite H end; try done.
  all: intros H1 H2; apply string_ltb_asym in H1; congruence.
Qed.

Lemma same_key_dec a b : same_key a b \/ ~ same_key a b.
Proof.
  unfold same_key. destruct (decide (priority a = priority b)), (decide (arrival_time a = arrival_time b)),
    (decide (request_id a = request_id b)), (decide (obj_id a = obj_id b)); tauto.
Qed.

Lemma request_lt_le a b : request_lt a b = true -> le request_lt a b.
Proof.
  unfold le. intros Hab. destruct (request_lt b a) eqn:E; [|done].
  destruct (same_key_dec a b) as [Hs|Hs].
  - destruct (request_lt_same a b a Hs) as [H1 _]. rewrite Hab in H1. unfold request_lt in H1.
    rewrite !Z.eqb_refl, String.eqb_refl, !Z.ltb_irrefl in H1. discriminate H1.
  - apply request_lt_asym in Hs. rewrite Hab, E in Hs. done.
Qed.

Lemma request_le_trans a b c : le request_lt a b -> le request_lt b c -> le request_lt a c.
Proof.
  unfold le. intros Hab Hbc. destruct (request_lt c a) eqn:Hca; [|done].
  destruct (same_key_dec b a) as [Hs|Hs].
  - destruct (request_lt_same b a c Hs) as [H1 _]. congruence.
  - rewrite (request_lt_asym b a Hs) in Hab. destruct (request_lt a b) eqn:E; [|done].
    pose proof (request_lt_trans _ _ _ Hca E). congruence.
Qed.

(** ** The implementations meet the contract *)

Section Laws.
Context {A : Type} `{Item A}.
Implicit Types (r : A) (rs : list A).

Lemma remove_object_spec r (l : list A) :
  match remove_object r l with
  | Ok l' => exists x, item_id x = item_id r /\ l ≡ₚ x :: l'
  | Err e => e = ValueError /\ item_id r ∉ item_id <$> l
  end.
Proof.
  induction l as [|y l IH]; cbn; [split; [done|apply not_elem_of_nil]|].
  destruct (Z.eqb_spec (item_id y) (item_id r)) as [E|E]; [by exists y|].
  destruct (remove_object r l) as [l'|e]; cbn.
  - destruct IH as (x & Hx & Hp). exists x. split; [done|]. rewrite Hp. apply Permutation_swap.
  - destruct IH as [-> Hn]. split; [done|]. apply not_elem_of_cons. split; [congruence|done].
Qed.

Lemma extendleft_rev (d rs : list A) : foldl (fun d r => r :: d) d rs = rev rs ++ d.
Proof.
  revert d. induction rs as [|r rs IH]; intros d; cbn; [done|]. rewrite IH. by rewrite <- app_assoc.
Qed.

#[global] Program Instance fcfs_laws : RequestQueueLaws A (FCFSQueue A) := {| q_wf := fun _ => True |}.
Next Obligation. done. Qed.
Next Obligation. intros r [d] _. cbn. by rewrite <- Permutation_cons_append. Qed.
Next Obligation. intros r [d] _. done. Qed.
Next Obligation.
  intros rs [d] _. cbn. split; [done|]. rewrite extendleft_rev. by rewrite <- (Permutation_rev rs).
Qed.
Next Obligation. by intros [[|r d]] _. Qed.
Next Obligation. by intros [[|r d]] _. Qed.
Next Obligation.
  intros r [d] _. cbn. unfold fcfs_remove. cbn. pose proof (remove_object_spec r d) as Hs.
  by destruct (remove_object r d).
Qed.
Next Obligation. intros rs [d] _. done. Qed.
Next Obligation. intros [d] _. done. Qed.
Next Obligation. by intros [[|r d]] _. Qed.

(** The heap needs the order to be a strict weak order. *)
Hypothesis lt_le : forall a b, item_lt a b = true -> le item_lt a b.
Hypothesis le_trans : forall a b c, le item_lt a b -> le item_lt b c -> le item_lt a c.

Lemma pq_iter_perm (q : PriorityQueue A) : is_heap item_lt (heap_of q) -> pq_iter q ≡ₚ heap_of q.
Proof. intros Hh. by apply heap_drain_spec. Qed.

Lemma pq_add_all rs (q : PriorityQueue A) :
  is_heap item_lt (heap_of q) ->
  is_heap item_lt (heap_of (pq_prepend_requests rs q)) /\
  heap_of (pq_prepend_requests rs q) ≡ₚ rs ++ heap_of q.
Proof.
  revert q. induction rs as [|r rs IH]; intros q Hh; cbn; [done|].
  destruct (heappush_spec item_lt le_trans lt_le (heap_of q) r Hh) as [Hp Hh'].
  destruct (IH (pq_add r q) Hh') as [Hw Hq]. split; [done|].
  etrans; [exact Hq|]. cbn. rewrite Hp. by rewrite Permutation_middle.
Qed.

Lemma pq_pop_iter (q : PriorityQueue A) :
  is_heap item_lt (heap_of q) ->
  match pq_pop q with
  | Ok (r, q') => is_heap item_lt (heap_of q') /\ pq_iter q = r :: pq_iter q'
  | Err e => e = IndexError /\ pq_iter q = []
  end.
Proof.
  destruct q as [h]. intros Hh. unfold pq_pop, pq_iter. cbn [heap_of] in *.
  pose proof (heappop_spec item_lt le_trans lt_le h Hh) as Hs.
  destruct (heappop item_lt h) as [[r h']|] eqn:E; [|by subst].
  destruct Hs as (Hp & Hh' & _). split; [done|].
  rewrite (Permutation_length Hp). cbn [length heap_drain heap_of]. by rewrite E.
Qed.

Lemma pq_remove_spec r (q : PriorityQueue A) :
  is_heap item_lt (heap_of q) ->
  match pq_remove r q with
  | Ok q' => is_heap item_lt (heap_of q') /\ exists x, item_id x = item_id r /\ pq_iter q ≡ₚ x :: pq_iter q'
  | Err e => e = ValueError /\ item_id r ∉ item_id <$> pq_iter q
  end.
Proof.
  intros Hh. unfold pq_remove. pose proof (remove_object_spec r (heap_of q)) as Hs.
  destruct (remove_object r (heap_of q)) as [h|e]; cbn.
  - destruct (heapify_spec item_lt le_trans lt_le h) as [Hp Hh']. split; [done|].
    destruct Hs as (x & Hx & Hq). exists x. split; [done|].
    rewrite (pq_iter_perm q Hh), (pq_iter_perm (PQ (heapify item_lt h)) Hh'). cbn. by rewrite Hp.
  - destruct Hs as [-> Hn]. split; [done|]. by rewrite (pq_iter_perm q Hh).
Qed.

Definition priority_laws : RequestQueueLaws A (PriorityQueue A).
Proof.
  refine {| q_wf := fun q => is_heap item_lt (heap_of q) |}.
  - split; [|done]. intros i x y _ _ Hx. by destruct i.
  - intros r q Hh. destruct (heappush_spec item_lt le_trans lt_le (heap_of q) r Hh) as [Hp Hh'].
    split; [done|]. etrans; [exact (pq_iter_perm (pq_add r q) Hh')|]. by rewrite (pq_iter_perm q Hh).
  - intros r q Hh. destruct (heappush_spec item_lt le_trans lt_le (heap_of q) r Hh) as [Hp Hh'].
    split; [done|]. etrans; [exact (pq_iter_perm (pq_add r q) Hh')|]. by rewrite (pq_iter_perm q Hh).
  - intros rs q Hh. destruct (pq_add_all rs q Hh) as [Hw Hp]. split; [done|].
    etrans; [exact (pq_iter_perm _ Hw)|]. by rewrite (pq_iter_perm q Hh).
  - intros q Hh. apply (pq_pop_iter q Hh).
  - intros [h] Hh. cbn in *. unfold pq_peek. cbn. pose proof (heap_drain_spec item_lt le_trans lt_le (length h) h Hh) as Hd.
    destruct h as [|r h]; [done|]. unfold pq_iter. cbn [heap_of length heap_drain].
    unfold heappop. destruct h as [|r2 h]; [done|].
    destruct (last (r :: r2 :: h)) eqn:E; [done|]. by apply last_None in E.
  - intros r q Hh. apply (pq_remove_spec r q Hh).
  - intros rs q Hh. cbn. destruct (heapify_spec item_lt le_trans lt_le (filter (not_listed rs) (heap_of q))) as [Hp Hh'].
    split; [done|]. etrans; [exact (pq_iter_perm (pq_remove_requests rs q) Hh')|].
    rewrite (pq_iter_perm q Hh). exact Hp.
  - intros q Hh. cbn. unfold zlen. by rewrite (Permutation_length (pq_iter_perm q Hh)).
  - intros q Hh. cbn. pose proof (pq_iter_perm q Hh) as Hp. destruct (heap_of q) as [|r h].
    + apply Permutation_nil_r in Hp. by rewrite Hp.
    + rewrite bool_decide_eq_true_2; [done|]. intros E. rewrite E in Hp. by apply Permutation_nil_cons in Hp.
Defined.
End Laws.

#[global] Instance request_priority_laws : RequestQueueLaws Request (PriorityQueue Request) :=
  priority_laws request_lt_le request_le_trans.

(** ** Clients of the interface *)

Inductive qcall (A : Type) : Type :=
  | CAdd (r : A)
  | CPop
  | CPeek
  | CPrepend (r : A)
  | CPrependAll (rs : list A)
  | CRemove (r : A)
  | CRemoveAll (rs : list A).
Arguments CAdd {A} r.
Arguments CPop {A}.
Arguments CPeek {A}.
Arguments CPrepend {A} r.
Arguments CPrependAll {A} rs.
Arguments CRemove {A} r.
Arguments CRemoveAll {A} rs.

Section Client.
Context {A Q : Type} `{Item A} `{RequestQueue A Q}.

(** A call answers with a request or raises; a call that raises changes nothing. *)
Definition q_call (c : qcall A) (q : Q) : result (option A) * Q :=
  match c with
  | CAdd r => (Ok None, add_request r q)
  | CPrepend r => (Ok None, prepend_request r q)
  | CPrependAll rs => (Ok None, prepend_requests rs q)
  | CPop => match pop_request q with Ok (r, q') => (Ok (Some r), q') | Err e => (Err e, q) end
  | CPeek => (Some <$> peek_request q, q)
  | CRemove r => match remove_request r q with Ok q' => (Ok None, q') | Err e => (Err e, q) end
  | CRemoveAll rs => (Ok None, remove_requests rs q)
  end.

(** The abstract specification: what a call may answer on a bag of requests, and
    the bag it leaves. *)
Definition bag_step (c : qcall A) (b : list A) (a : result (option A)) (b' : list A) : Prop :=
  match c with
  | CAdd r | CPrepend r => a = Ok None /\ b' ≡ₚ r :: b
  | CPrependAll rs => a = Ok None /\ b' ≡ₚ rs ++ b
  | CPop => (exists r, a = Ok (Some r) /\ b ≡ₚ r :: b') \/ (a = Err IndexError /\ b = [] /\ b' = [])
  | CPeek => b' ≡ₚ b /\ ((exists r, a = Ok (Some r) /\ r ∈ b) \/ (a = Err IndexError /\ b = []))
  | CRemove r => (a = Ok None /\ exists x, item_id x = item_id r /\ b ≡ₚ x :: b') \/
                 (a = Err ValueError /\ b' ≡ₚ b /\ item_id r ∉ item_id <$> b)
  | CRemoveAll rs => a = Ok None /\ b' ≡ₚ filter (not_listed rs) b
  end.

Inductive bag_run : list (qcall A) -> list A -> list (result (option A)) -> list A -> Prop :=
  | bag_nil b : bag_run [] b [] b
  | bag_cons c cs b a b1 ans b2 : bag_step c b a b1 -> bag_run cs b1 ans b2 -> bag_run (c :: cs) b (a :: ans) b2.

Fixpoint q_run (cs : list (qcall A)) (q : Q) : list (result (option A)) * Q :=
  match cs with
  | [] => ([], q)
  | c :: cs' => let '(a, q1) := q_call c q in let '(ans, q2) := q_run cs' q1 in (a :: ans, q2)
  end.

Context `{!RequestQueueLaws A Q}.

Lemma q_call_bag c q :
  q_wf q -> let '(a, q') := q_call c q in q_wf q' /\ bag_step c (q_iter q) a (q_iter q').
Proof.
  intros Hw. destruct c as [r| | |r|rs|r|rs]; cbn.
  - destruct (law_add r q Hw). done.
  - pose proof (law_pop q Hw) as Hp. destruct (pop_request q) as [[r q']|e].
    + destruct Hp as [? Hq]. split; [done|]. left. exists r. by rewrite Hq.
    + destruct Hp as [-> Hq]. split; [done|]. right. done.
  - split; [done|]. split; [done|]. rewrite (law_peek q Hw). destruct (q_iter q) as [|r l]; cbn; [by right|].
    left. exists r. split; [done|constructor].
  - destruct (law_prepend r q Hw). done.
  - destruct (law_prepend_all rs q Hw). done.
  - pose proof (law_remove r q Hw) as Hr. destruct (remove_request r q) as [q'|e].
    + destruct Hr as [? Hq]. split; [done|]. by left.
    + destruct Hr as [-> Hn]. split; [done|]. by right.
  - destruct (law_remove_all rs q Hw). done.
Qed.

Lemma q_run_bag cs q :
  q_wf q -> let '(ans, q') := q_run cs q in q_wf q' /\ bag_run cs (q_iter q) ans (q_iter q').
Proof.
  revert q. induction cs as [|c cs IH]; intros q Hw; cbn; [split; [done|constructor]|].
  pose proof (q_call_bag c q Hw) as Hc. destruct (q_call c q) as [a q1]. destruct Hc as [Hw1 Hs].
  specialize (IH q1 Hw1). destruct (q_run cs q1) as [ans q2]. destruct IH. split; [done|].
  by econstructor.
Qed.

(** *** The scheduler's two waiting queues *)

Inductive which_queue : Type := Waiting | Skipped.

(** [Scheduler._select_waiting_queue_for_scheduling] on [self.waiting] and
    [self.skipped_waiting]. *)
Definition select_waiting_queue (policy : SchedulingPolicy) (waiting skipped : Q)
  : result (option which_queue) :=
  match policy with
  | FCFS_policy =>
      Ok (if q_bool skipped then Some Skipped else if q_bool waiting then Some Waiting else None)
  | PRIORITY_policy =>
      if q_bool waiting && q_bool skipped then
        waiting_req ← peek_request waiting;
        skipped_req ← peek_request skipped;
        Ok (Some (if item_lt waiting_req skipped_req then Waiting else Skipped))
      else Ok (if q_bool waiting then Some Waiting else if q_bool skipped then Some Skipped else None)
  end.

(** The part of the waiting loop of [Scheduler.schedule] that skips requests: the
    request at the head of the selected queue is popped and collected with
    [prepend_request] in [step_skipped_waiting]; [k] bounds the requests skipped. *)
Fixpoint skip_loop (policy : SchedulingPolicy) (k : nat) (waiting skipped step : Q) : result (Q * Q * Q) :=
  match k with
  | O => Ok (waiting, skipped, step)
  | S k' =>
      if negb (q_bool waiting || q_bool skipped) then Ok (waiting, skipped, step) else
      sel ← select_waiting_queue policy waiting skipped;
      match sel with
      | None => Err AssertionError
      | Some Waiting =>
          '(r, waiting') ← pop_request waiting;
          skip_loop policy k' waiting' skipped (prepend_request r step)
      | Some Skipped =>
          '(r, skipped') ← pop_request skipped;
          skip_loop policy k' waiting skipped' (prepend_request r step)
      end
  end.

(** The pass: afterwards the collected requests go to [self.skipped_waiting]. *)
Definition skip_pass (policy : SchedulingPolicy) (k : nat) (waiting skipped : Q) : result (Q * Q) :=
  '(w, s, step) ← skip_loop policy k waiting skipped q_new;
  Ok (w, if q_bool step then prepend_requests (q_iter step) s else s).
End Client.

(** C26: For both policies, any sequence of calls on a new queue answers as a bag of
    requests: pop and peek return a queued request (or raise [IndexError] exactly when
    it is empty), remove deletes that object (or raises [ValueError] exactly when it is
    absent), nothing is lost or duplicated, and iteration lists the queued requests. *)
Theorem request_queues_refine_bag (cs : list (qcall Request)) :
  (let '(ans, q) := q_run (Q := FCFSQueue Request) cs q_new in bag_run cs [] ans (q_iter q)) /\
  (let '(ans, q) := q_run (Q := PriorityQueue Request) cs q_new in bag_run cs [] ans (q_iter q)).
Proof.
  split.
  - pose proof (q_run_bag (Q := FCFSQueue Request) cs q_new (proj1 law_new)) as Hr.
    destruct (q_run cs q_new) as [ans q]. apply Hr.
  - pose proof (q_run_bag (Q := PriorityQueue Request) cs q_new (proj1 law_new)) as Hr.
    destruct (q_run cs q_new) as [ans q]. apply Hr.
Qed.

Lemma request_lt_irrefl r : request_lt r r = false.
Proof. unfold request_lt. by rewrite !Z.eqb_refl, String.eqb_refl, !Z.ltb_irrefl. Qed.

Lemma pq_iter_sorted (q : PriorityQueue Request) :
  is_heap request_lt (heap_of q) -> StronglySorted (le request_lt) (pq_iter q).
Proof. intros Hw. by apply (heap_drain_spec request_lt request_le_trans request_lt_le _ _ Hw). Qed.

Lemma pq_head_minimum (q : PriorityQueue Request) :
  is_heap request_lt (heap_of q) ->
  match q_iter q with [] => True | r :: l => forall x, x ∈ r :: l -> request_lt x r = false end.
Proof.
  intros Hw. pose proof (pq_iter_sorted q Hw) as Hs. change (q_iter q) with (pq_iter q).
  destruct (pq_iter q) as [|r l]; [done|]. apply StronglySorted_inv in Hs as [_ Hall].
  intros x [->|Hx]%elem_of_cons; [apply request_lt_irrefl|]. rewrite Forall_forall in Hall. by apply Hall.
Qed.

(** After any sequence of calls on a new [PriorityRequestQueue], iteration is
    sorted by priority, then arrival time, then request id, then identity, and
    [pop_request] returns a request that no queued request precedes. *)
Theorem priority_queue_pops_minimum (cs : list (qcall Request)) :
  let '(_, q) := q_run (Q := PriorityQueue Request) cs q_new in
  StronglySorted (fun a b => request_lt b a = false) (q_iter q) /\
  match pop_request q with
  | Ok (r, q') => forall x, x ∈ q_iter q -> request_lt x r = false
  | Err _ => q_iter q = []
  end.
Proof.
  pose proof (q_run_bag (Q := PriorityQueue Request) cs q_new (proj1 law_new)) as Hr.
  destruct (q_run cs q_new) as [ans q]. destruct Hr as [Hw _].
  split; [exact (pq_iter_sorted q Hw)|]. pose proof (pq_head_minimum q Hw) as Hmin.
  pose proof (law_pop q Hw) as Hpop. destruct (pop_request q) as [[r q']|e]; [|apply Hpop].
  destruct Hpop as [_ Hq]. rewrite Hq in Hmin |- *. exact Hmin.
Qed.

Lemma fcfs_bool (d : list Request) : q_bool (FCFS d) = match d with [] => false | _ => true end.
Proof. by destruct d. Qed.

Lemma fcfs_skip_loop k (w s st : list Request) :
  exists w' s' st', skip_loop FCFS_policy k (FCFS w) (FCFS s) (FCFS st) = Ok (FCFS w', FCFS s', FCFS st') /\
    rev st' ++ s' ++ w' = rev st ++ s ++ w.
Proof.
  revert w s st. induction k as [|k IH]; intros w s st; cbn [skip_loop]; [by exists w, s, st|].
  rewrite !fcfs_bool. cbn [select_waiting_queue]. rewrite !fcfs_bool.
  destruct s as [|r s]; [destruct w as [|r w]|]; cbn [orb negb mbind result_bind].
  - by exists [], [], st.
  - destruct (IH w [] (r :: st)) as (w' & s' & st' & He & Hq). exists w', s', st'.
    split; [exact He|]. rewrite Hq. cbn. by rewrite <- app_assoc.
  - rewrite orb_true_r. cbn [negb].
    destruct (IH w s (r :: st)) as (w' & s' & st' & He & Hq). exists w', s', st'.
    split; [exact He|]. rewrite Hq. cbn. by rewrite <- app_assoc.
Qed.

(** Under FCFS, a scheduling pass that skips requests keeps the service order: the
    waiting requests (the skipped queue, then the waiting queue) are in the same order
    after the pass, although both prepends reverse. *)
Theorem fcfs_skip_preserves_order (k : nat) (w s : list Request) :
  exists w' s', skip_pass FCFS_policy k (FCFS w) (FCFS s) = Ok (FCFS w', FCFS s') /\ s' ++ w' = s ++ w.
Proof.
  unfold skip_pass. destruct (fcfs_skip_loop k w s []) as (w' & s' & st & He & Hq).
  cbn [q_new fcfs_queue]. rewrite He. cbn [mbind result_bind]. rewrite fcfs_bool.
  exists w', (rev st ++ s'). cbn in Hq. rewrite <- app_assoc. split; [|done].
  destruct st as [|r st]; [done|]. cbn. unfold fcfs_prepend_requests. cbn.
  by rewrite extendleft_rev, <- app_assoc.
Qed.

(** Under the priority policy, the queue selected for scheduling has at its head a
    request that no waiting request (of either queue) precedes, whatever calls built the
    two queues; a queue is selected exactly when one of them is not empty. *)
Theorem priority_selection_is_minimum (cw cs : list (qcall Request)) :
  let w := (q_run (Q := PriorityQueue Request) cw q_new).2 in
  let s := (q_run (Q := PriorityQueue Request) cs q_new).2 in
  exists sel, select_waiting_queue PRIORITY_policy w s = Ok sel /\
    match sel with
    | None => q_iter w = [] /\ q_iter s = []
    | Some side => exists r, peek_request (match side with Waiting => w | Skipped => s end) = Ok r /\
        forall x, x ∈ q_iter w ++ q_iter s -> request_lt x r = false
    end.
Proof.
  intros w s.
  pose proof (q_run_bag (Q := PriorityQueue Request) cw q_new (proj1 law_new)) as Hw. subst w.
  pose proof (q_run_bag (Q := PriorityQueue Request) cs q_new (proj1 law_new)) as Hs. subst s.
  destruct (q_run cw q_new) as [aw w], (q_run cs q_new) as [asn s].
  destruct Hw as [Hw _], Hs as [Hs _]. cbn [snd].
  pose proof (pq_head_minimum w Hw) as Hmw. pose proof (pq_head_minimum s Hs) as Hms.
  pose proof (law_peek w Hw) as Hpw. pose proof (law_peek s Hs) as Hps.
  unfold select_waiting_queue. rewrite !law_bool, Hpw, Hps by done.
  destruct (q_iter w) as [|rw lw] eqn:Ew, (q_iter s) as [|rs ls] eqn:Es; cbn.
  - by exists None.
  - exists (Some Skipped). split; [done|]. exists rs. split; [exact Hps|exact Hms].
  - exists (Some Waiting). split; [done|]. exists rw. split; [exact Hpw|]. rewrite app_nil_r. exact Hmw.
  - destruct (request_lt rw rs) eqn:El; eexists; (split; [done|]); cbn [mbind result_bind].
    + exists rw. split; [exact Hpw|]. intros x Hx. apply (elem_of_app (rw :: lw)) in Hx as [Hx|Hx]; [by apply Hmw|].
      eapply request_le_trans; [apply request_lt_le; exact El|]. by apply Hms.
    + exists rs. split; [exact Hps|]. intros x Hx. apply (elem_of_app (rw :: lw)) in Hx as [Hx|Hx]; [|by apply Hms].
      eapply request_le_trans; [exact El|]. by apply Hmw.
Qed.
