(* ===== verification/EncoderCache.v ===== *)
(** * The encoder cache

    vllm/v1/core/encoder_cache_manager.py: [EncoderCacheManager] (reference-counted
    cache of multi-modal encoder outputs with oldest-first eviction),
    [EncoderDecoderCacheManager] and [compute_mm_encoder_budget].  [cached] is a map
    from item hash to the set of request ids, [freeable] an insertion-ordered dict. *)
From S2P Require Import Prelude FreeQueue Request.

Record EncoderCacheManager : Type := mkECM {
  cache_size : Z;
  num_free_slots : Z;
  num_freeable_slots : Z;
  cached : gmap string (gset string);
  freeable : list (string * Z);
  freed : list string;
}.

(** [__init__]. *)
Definition ecm_init (size : Z) : EncoderCacheManager := mkECM size size size ∅ [] [].

(** [reset]. *)
Definition ecm_reset (m : EncoderCacheManager) : EncoderCacheManager :=
  mkECM (cache_size m) (cache_size m) (cache_size m) ∅ [] [].

(** [request.mm_features[input_id].identifier]. *)
Definition mm_hash_of (r : Request) (input_id : Z) : result string :=
  f ← py_index (mm_features r) input_id; Ok (identifier f).

(** [check_and_update_cache]. *)
Definition check_and_update_cache (r : Request) (input_id : Z) (m : EncoderCacheManager)
  : result (bool * EncoderCacheManager) :=
  h ← mm_hash_of r input_id;
  match cached m !! h with
  | None => Ok (false, m)
  | Some refs =>
      m1 ← (if decide (refs = ∅) then
              n ← of_option KeyError (dict_get h (freeable m));
              Ok (mkECM (cache_size m) (num_free_slots m) (num_freeable_slots m - n) (cached m)
                    (dict_del h (freeable m)) (freed m))
            else Ok m);
      Ok (true, mkECM (cache_size m1) (num_free_slots m1) (num_freeable_slots m1)
                  (<[h := {[request_id r]} ∪ refs]> (cached m1)) (freeable m1) (freed m1))
  end.

(** The [while] loop of [can_allocate]: [popitem(last=False)] until there is room.
    Each turn shortens [freeable]. *)
Fixpoint evict_loop (size num_embeds free freeable_slots : Z) (cch : gmap string (gset string))
    (fre : list (string * Z)) (frd : list string) : result EncoderCacheManager :=
  if num_embeds <=? free then Ok (mkECM size free freeable_slots cch fre frd) else
  match fre with
  | [] => Err KeyError
  | (h, n) :: fre' =>
      _ ← of_option KeyError (cch !! h);
      evict_loop size num_embeds (free + n) freeable_slots (delete h cch) fre' (frd ++ [h])
  end.

(** [can_allocate]. *)
Definition can_allocate (r : Request) (input_id encoder_compute_budget num_embeds_to_schedule : Z)
    (m : EncoderCacheManager) : result (bool * EncoderCacheManager) :=
  n ← get_num_encoder_embeds r input_id;
  if encoder_compute_budget <? n then Ok (false, m) else
  let num_embeds := n + num_embeds_to_schedule in
  if num_embeds <=? num_free_slots m then Ok (true, m) else
  if num_freeable_slots m <? num_embeds then Ok (false, m) else
  m' ← evict_loop (cache_size m) num_embeds (num_free_slots m) (num_freeable_slots m) (cached m)
         (freeable m) (freed m);
  Ok (true, m').

(** [allocate]. *)
Definition allocate (r : Request) (input_id : Z) (m : EncoderCacheManager) : result EncoderCacheManager :=
  h ← mm_hash_of r input_id;
  n ← get_num_encoder_embeds r input_id;
  _ ← py_assert (n <=? num_free_slots m);
  _ ← py_assert (n <=? num_freeable_slots m);
  Ok (mkECM (cache_size m) (num_free_slots m - n) (num_freeable_slots m - n)
        (<[h := {[request_id r]} ∪ default ∅ (cached m !! h)]> (cached m)) (freeable m) (freed m)).

(** [get_cached_input_ids], in increasing order. *)
Definition input_is_cached (r : Request) (m : EncoderCacheManager) (i : Z) : bool :=
  match mm_features r !! Z.to_nat i with
  | Some f => bool_decide (is_Some (cached m !! identifier f))
  | None => false
  end.
Definition get_cached_input_ids (r : Request) (m : EncoderCacheManager) : list Z :=
  filter (fun i => input_is_cached r m i = true) (py_range 0 (zlen (mm_features r))).

(** [free_encoder_input]. *)
Definition free_encoder_input (r : Request) (m : EncoderCacheManager) (input_id : Z)
  : result EncoderCacheManager :=
  h ← mm_hash_of r input_id;
  let refs := default ∅ (cached m !! h) in
  if decide (refs = ∅) then Ok m else
  let refs' := refs ∖ {[request_id r]} in
  let cch := <[h := refs']> (cached m) in
  if decide (refs' = ∅) then
    n ← get_num_encoder_embeds r input_id;
    Ok (mkECM (cache_size m) (num_free_slots m) (num_freeable_slots m + n) cch
          (dict_set h n (freeable m)) (freed m))
  else Ok (mkECM (cache_size m) (num_free_slots m) (num_freeable_slots m) cch (freeable m) (freed m)).

(** [free]. *)
Definition ecm_free (r : Request) (m : EncoderCacheManager) : result EncoderCacheManager :=
  foldM (free_encoder_input r) m (get_cached_input_ids r m).

(** [get_freed_mm_hashes]. *)
Definition get_freed_mm_hashes (m : EncoderCacheManager) : list string * EncoderCacheManager :=
  (freed m, mkECM (cache_size m) (num_free_slots m) (num_freeable_slots m) (cached m) (freeable m) []).

(** [compute_mm_encoder_budget]; the mapping is given by its values. *)
Definition compute_mm_encoder_budget (disable_chunked_mm_input : bool)
    (max_num_batched_tokens max_num_encoder_input_tokens encoder_cache_size : Z)
    (mm_max_toks_per_item : list Z) : result (Z * Z) :=
  match mm_max_toks_per_item with
  | [] => Ok (0, 0)
  | t :: ts =>
      let max_tokens_per_mm_item := foldl Z.max t ts in
      if disable_chunked_mm_input && (max_num_batched_tokens <? max_tokens_per_mm_item) then Err ValueError
      else Ok (Z.max max_num_encoder_input_tokens max_tokens_per_mm_item,
               Z.max encoder_cache_size max_tokens_per_mm_item)
  end.

(** ** [EncoderDecoderCacheManager] *)

Record EncoderDecoderCacheManager : Type := mkEDM {
  ed_cache_size : Z;
  ed_num_free_slots : Z;
  ed_allocated : list string;
  ed_to_free : list string;
}.

Definition ed_init (size : Z) : EncoderDecoderCacheManager := mkEDM size size [] [].
Definition ed_reset (m : EncoderDecoderCacheManager) : EncoderDecoderCacheManager :=
  mkEDM (ed_cache_size m) (ed_cache_size m) [] [].
Definition ed_can_allocate (r : Request) (input_id budget num_embeds_to_schedule : Z)
    (m : EncoderDecoderCacheManager) : result bool :=
  n ← get_num_encoder_embeds r input_id;
  if budget <? n then Ok false else Ok (n + num_embeds_to_schedule <=? ed_num_free_slots m).
Definition ed_allocate (r : Request) (input_id : Z) (m : EncoderDecoderCacheManager)
  : result EncoderDecoderCacheManager :=
  n ← get_num_encoder_embeds r input_id;
  h ← mm_hash_of r input_id;
  Ok (mkEDM (ed_cache_size m) (ed_num_free_slots m - n) (ed_allocated m ++ [h]) (ed_to_free m)).
Definition ed_free_encoder_input (r : Request) (m : EncoderDecoderCacheManager) (input_id : Z)
  : result EncoderDecoderCacheManager :=
  n ← get_num_encoder_embeds r input_id;
  Ok (mkEDM (ed_cache_size m) (ed_num_free_slots m + n) (ed_allocated m) (ed_to_free m)).
Definition ed_free (r : Request) (m : EncoderDecoderCacheManager) : result EncoderDecoderCacheManager :=
  foldM (ed_free_encoder_input r) m (py_range 0 (zlen (mm_features r))).
Definition ed_get_cached_input_ids (r : Request) : list Z := py_range 0 (zlen (mm_features r)).
Definition ed_get_freed_mm_hashes (m : EncoderDecoderCacheManager)
  : list string * EncoderDecoderCacheManager :=
  (ed_to_free m, mkEDM (ed_cache_size m) (ed_num_free_slots m) [] (ed_allocated m)).

(** ** The accounting invariant *)

Section Accounting.
(** [size h] is the number of embeddings of the item with hash [h]: items with the
    same identifier have the same contents, hence the same size. *)
Context (size : string -> Z).
Hypothesis size_pos : forall h, 0 <= size h.
Implicit Types (m : EncoderCacheManager) (r : Request) (h : string).

(** Slots of all entries, and of the referenced ones. *)
Definition slots h (s : gset string) : Z := size h.
Definition pinned h (s : gset string) : Z := if decide (s = ∅) then 0 else size h.

Lemma pinned_empty h : pinned h ∅ = 0.
Proof. unfold pinned. by rewrite decide_True. Qed.
Lemma pinned_ne h s : s <> ∅ -> pinned h s = size h.
Proof. intros Hs. unfold pinned. by rewrite decide_False. Qed.

Record ecm_inv m : Prop := {
  ei_free : num_free_slots m = cache_size m - map_sum slots (cached m);
  ei_freeable : num_freeable_slots m = cache_size m - map_sum pinned (cached m);
  ei_room : 0 <= num_free_slots m;
  ei_nodup : NoDup (freeable m).*1;
  ei_entries : forall h n, (h, n) ∈ freeable m <-> cached m !! h = Some ∅ /\ n = size h;
}.

(** The request's items have the size their identifier determines. *)
Definition sized r : Prop :=
  forall i f, mm_features r !! i = Some f -> get_num_embeds (mm_position f) = Ok (size (identifier f)).

Definition input_ok r (i : Z) : Prop := 0 <= i < zlen (mm_features r).

Lemma input_lookup r i :
  sized r -> input_ok r i ->
  exists h, mm_hash_of r i = Ok h /\ get_num_encoder_embeds r i = Ok (size h) /\
    exists f, mm_features r !! Z.to_nat i = Some f /\ identifier f = h.
Proof.
  intros Hs Hi. unfold input_ok, zlen in Hi. unfold mm_hash_of, get_num_encoder_embeds.
  destruct (lookup_lt_is_Some_2 (mm_features r) (Z.to_nat i)) as [f Hf]; [lia|].
  rewrite py_index_nonneg, Hf by lia. unfold zlen. rewrite (proj2 (Z.ltb_lt _ _)) by lia. cbn.
  exists (identifier f). split; [done|]. split; [by apply (Hs (Z.to_nat i))|by exists f].
Qed.

Lemma dict_del_elem {V} h (n : V) h' (d : list (string * V)) :
  NoDup d.*1 -> (h', n) ∈ dict_del h d <-> (h', n) ∈ d /\ h' <> h.
Proof.
  intros Hnd. rewrite <- !dict_get_elem by auto using dict_del_nodup.
  rewrite dict_get_del by done. case_decide; naive_solver.
Qed.

Lemma dict_set_elem {V} h (n : V) h' n' (d : list (string * V)) :
  NoDup d.*1 -> (h', n') ∈ dict_set h n d <-> (h' = h /\ n' = n) \/ ((h', n') ∈ d /\ h' <> h).
Proof.
  intros Hnd. rewrite <- !dict_get_elem by auto using dict_set_nodup.
  rewrite dict_get_set. case_decide; naive_solver.
Qed.

Lemma init_inv n : 0 <= n -> ecm_inv (ecm_init n).
Proof.
  intros Hn. split; cbn; rewrite ?map_sum_empty; try lia; [constructor|].
  intros h k. rewrite lookup_empty. split; [by intros ?%elem_of_nil|by intros []].
Qed.

Lemma reset_inv m : 0 <= cache_size m -> ecm_inv (ecm_reset m).
Proof. intros Hn. by destruct (init_inv (cache_size m) Hn). Qed.

Lemma check_spec r i m :
  ecm_inv m -> sized r -> input_ok r i ->
  exists h m', mm_hash_of r i = Ok h /\
    check_and_update_cache r i m = Ok (bool_decide (is_Some (cached m !! h)), m') /\
    ecm_inv m' /\ cache_size m' = cache_size m /\ num_free_slots m' = num_free_slots m /\ freed m' = freed m /\
    cached m' = match cached m !! h with
                | None => cached m
                | Some refs => <[h := {[request_id r]} ∪ refs]> (cached m)
                end.
Proof.
  intros [Hf Hfr Hroom Hnd He] Hs Hi. destruct (input_lookup r i Hs Hi) as (h & Hh & Hn & _).
  exists h. unfold check_and_update_cache. rewrite Hh. cbn [mbind result_bind].
  destruct (cached m !! h) as [refs|] eqn:Ec.
  2: { exists m. rewrite bool_decide_eq_false_2 by (by intros []). by split_and!. }
  rewrite bool_decide_eq_true_2 by (by eexists).
  assert (Hne : {[request_id r]} ∪ refs <> (∅ : gset string)) by set_solver.
  assert (Hpin : map_sum pinned (<[h := {[request_id r]} ∪ refs]> (cached m))
                 = map_sum pinned (cached m) - pinned h refs + size h).
  { by rewrite (map_sum_update _ _ _ _ _ Ec), (pinned_ne h _ Hne). }
  assert (Hall : map_sum slots (<[h := {[request_id r]} ∪ refs]> (cached m)) = map_sum slots (cached m)).
  { rewrite (map_sum_update _ _ _ _ _ Ec). unfold slots. lia. }
  destruct (decide (refs = ∅)) as [->|Href].
  - rewrite pinned_empty in Hpin. assert (Hin : (h, size h) ∈ freeable m) by (by apply He).
    rewrite (proj2 (dict_get_elem h (size h) _ Hnd) Hin). cbn [of_option mbind result_bind].
    eexists. split_and!; [done|done| |done..]. split; cbn; try lia; [by apply dict_del_nodup|].
    intros h' n'. rewrite dict_del_elem, He, lookup_insert by done. case_decide; [subst|]; naive_solver.
  - rewrite (pinned_ne h refs Href) in Hpin.
    eexists. split_and!; [done|done| |done..]. split; cbn; try lia; [done|].
    intros h' n'. rewrite He, lookup_insert. case_decide; [subst|]; naive_solver.
Qed.

(** *** Eviction *)

Definition total (l : list (string * Z)) : Z := foldr (fun e acc => e.2 + acc) 0 l.

Lemma total_app l1 l2 : total (l1 ++ l2) = total l1 + total l2.
Proof. unfold total. induction l1 as [|e l1 IH]; cbn; [done|]. rewrite IH. lia. Qed.

(** Without freeable entries every entry is referenced: nothing can be reclaimed. *)
Lemma none_freeable m : ecm_inv m -> freeable m = [] -> num_freeable_slots m = num_free_slots m.
Proof.
  intros [Hf Hfr _ _ He] Hnil. rewrite Hf, Hfr. f_equal. symmetry. apply map_sum_ext. intros h s Hs.
  destruct (decide (s = ∅)) as [->|Hne]; [|by rewrite pinned_ne].
  exfalso. apply (not_elem_of_nil (h, size h)). rewrite <- Hnil. by apply He.
Qed.

(** Dropping the oldest freeable entry keeps the accounting. *)
Lemma evict_one_inv sz free fs c h n fre frd frd' :
  ecm_inv (mkECM sz free fs c ((h, n) :: fre) frd) ->
  c !! h = Some ∅ /\ 0 <= n /\ ecm_inv (mkECM sz (free + n) fs (delete h c) fre frd').
Proof.
  intros [Hf Hfr Hroom Hnd He]. cbn in *. apply NoDup_cons in Hnd as [Hnin Hnd].
  assert (Hc : c !! h = Some ∅ /\ n = size h) by (apply He; constructor). destruct Hc as [Hc ->].
  pose proof (size_pos h). split; [done|]. split; [done|].
  rewrite (map_sum_delete slots _ _ _ Hc) in Hf. rewrite (map_sum_delete pinned _ _ _ Hc), pinned_empty in Hfr.
  split; cbn; [unfold slots in *; lia|lia|lia|done|].
  intros h' n'. rewrite lookup_delete. split.
  - intros Hin. assert (h <> h').
    { intros <-. apply Hnin. apply list_elem_of_fmap. by exists (h, n'). }
    rewrite decide_False by done. apply He. by constructor.
  - case_decide; [naive_solver|]. intros Hin%He. apply elem_of_cons in Hin as [[=]|]; [congruence|done].
Qed.

Lemma evict_loop_spec sz need free fs c fre frd :
  ecm_inv (mkECM sz free fs c fre frd) -> need <= fs ->
  exists pre suf m', fre = pre ++ suf /\ evict_loop sz need free fs c fre frd = Ok m' /\ ecm_inv m' /\
    cache_size m' = sz /\ num_free_slots m' = free + total pre /\ num_freeable_slots m' = fs /\
    freeable m' = suf /\ freed m' = frd ++ pre.*1 /\ need <= num_free_slots m' /\
    (pre = [] \/ exists p x, pre = p ++ [x] /\ free + total p < need) /\
    (forall h, cached m' !! h = if decide (h ∈ pre.*1) then None else c !! h).
Proof.
  revert free c frd. induction fre as [|[h n] fre IH]; intros free c frd Hinv Hneed; cbn [evict_loop].
  - assert (Hall : fs = free) by (apply (none_freeable _ Hinv); done).
    rewrite (proj2 (Z.leb_le _ _)) by lia. exists [], [], (mkECM sz free fs c [] frd).
    cbn. rewrite app_nil_r. split_and!; try done; try lia. by left.
  - destruct (Z.leb_spec need free) as [Hle|Hlt].
    + exists [], ((h, n) :: fre), (mkECM sz free fs c ((h, n) :: fre) frd). cbn. rewrite app_nil_r.
      split_and!; try done; try lia. by left.
    + destruct (evict_one_inv _ _ _ _ _ _ _ _ (frd ++ [h]) Hinv) as (Hc & Hn & Hinv').
      rewrite Hc. cbn [of_option mbind result_bind].
      destruct (IH (free + n) (delete h c) (frd ++ [h]) Hinv' Hneed)
        as (pre & suf & m' & -> & -> & Hi & H1 & H2 & H3 & H4 & H5 & H6 & Hmin & Hlk).
      exists ((h, n) :: pre), suf, m'. cbn [total foldr fmap list_fmap fst snd] in *.
      fold (total pre) in *. split_and!; try done; try lia.
      * by rewrite H5, <- app_assoc.
      * right. destruct Hmin as [->|(p & x & -> & Hp)].
        -- exists [], (h, n). split; [done|]. cbn. lia.
        -- exists ((h, n) :: p), x. split; [done|]. cbn. fold (total p). lia.
      * intros h'. rewrite Hlk, lookup_delete.
        destruct (decide (h = h')) as [<-|Hne]; [rewrite (decide_True (P := h ∈ h :: _)) by constructor; by case_decide|].
        destruct (decide (h' ∈ pre.*1)) as [Hin|Hnin].
        -- by rewrite decide_True by (by constructor).
        -- rewrite decide_False; [done|]. by intros [?|?]%elem_of_cons.
Qed.

Lemma can_allocate_spec r i budget extra m :
  ecm_inv m -> sized r -> input_ok r i ->
  exists h b m', mm_hash_of r i = Ok h /\ can_allocate r i budget extra m = Ok (b, m') /\ ecm_inv m' /\
    b = bool_decide (size h <= budget /\ size h + extra <= Z.max (num_free_slots m) (num_freeable_slots m)) /\
    (b = true -> size h + extra <= num_free_slots m') /\
    cache_size m' = cache_size m /\ num_freeable_slots m' = num_freeable_slots m /\
    exists pre, freeable m = pre ++ freeable m' /\ freed m' = freed m ++ pre.*1 /\
      (pre = [] \/ exists p x, pre = p ++ [x] /\ num_free_slots m + total p < size h + extra) /\
      (forall k, cached m' !! k = if decide (k ∈ pre.*1) then None else cached m !! k).
Proof.
  intros Hinv Hs Hi. destruct (input_lookup r i Hs Hi) as (h & Hh & Hn & _). exists h.
  unfold can_allocate. rewrite Hn. cbn [mbind result_bind].
  assert (Hsame : exists pre, freeable m = pre ++ freeable m /\ freed m = freed m ++ pre.*1 /\
      (pre = [] \/ exists p x, pre = p ++ [x] /\ num_free_slots m + total p < size h + extra) /\
      (forall k, cached m !! k = if decide (k ∈ pre.*1) then None else cached m !! k)).
  { exists []. cbn. rewrite app_nil_r. split_and!; try done. by left. }
  destruct (Z.ltb_spec budget (size h)) as [Hb|Hb].
  { exists false, m. rewrite bool_decide_eq_false_2 by lia. split_and!; done. }
  destruct (Z.leb_spec (size h + extra) (num_free_slots m)) as [Hf|Hf].
  { exists true, m. rewrite bool_decide_eq_true_2 by lia. split_and!; done. }
  destruct (Z.ltb_spec (num_freeable_slots m) (size h + extra)) as [Hr|Hr].
  { exists false, m. rewrite bool_decide_eq_false_2 by lia. split_and!; done. }
  destruct m as [sz free fs c fre frd]. cbn in *.
  destruct (evict_loop_spec sz (size h + extra) free fs c fre frd Hinv Hr)
    as (pre & suf & m' & -> & -> & Hi' & H1 & H2 & H3 & H4 & H5 & H6 & Hmin & Hlk).
  exists true, m'. rewrite bool_decide_eq_true_2 by lia. split_and!; try done.
  exists pre. rewrite H4. split_and!; done.
Qed.

(** *** Allocation and release *)

Lemma free_le_freeable m : ecm_inv m -> num_free_slots m <= num_freeable_slots m.
Proof.
  intros [Hf Hfr _ _ _]. rewrite Hf, Hfr.
  enough (map_sum pinned (cached m) <= map_sum slots (cached m)) by lia.
  apply map_sum_le. intros h s _. unfold pinned, slots. pose proof (size_pos h). case_decide; lia.
Qed.

Lemma allocate_spec r i m h :
  ecm_inv m -> sized r -> input_ok r i -> mm_hash_of r i = Ok h ->
  cached m !! h = None -> size h <= num_free_slots m ->
  exists m', allocate r i m = Ok m' /\ ecm_inv m' /\ cached m' = <[h := {[request_id r]}]> (cached m) /\
    num_free_slots m' = num_free_slots m - size h /\ cache_size m' = cache_size m.
Proof.
  intros Hinv Hs Hi Hh Hc Hroom. pose proof (free_le_freeable m Hinv) as Hle.
  destruct (input_lookup r i Hs Hi) as (h' & Hh' & Hn & _). rewrite Hh in Hh'. injection Hh' as <-.
  unfold allocate. rewrite Hh, Hn. cbn [mbind result_bind]. rewrite Hc.
  rewrite !(proj2 (Z.leb_le _ _)) by lia. cbn [py_assert mbind result_bind].
  assert (Hset : {[request_id r]} ∪ ∅ = ({[request_id r]} : gset string)) by set_solver. cbn [default from_option] in *.
  eexists. split; [done|]. destruct Hinv as [Hf Hfr _ Hnd He]. cbn. unfold id. rewrite Hset. split_and!; [|done..].
  split; cbn; rewrite ?map_sum_insert by done; rewrite ?pinned_ne by set_solver; [unfold slots in *; lia|lia|lia|done|].
  intros k n. rewrite He, lookup_insert. case_decide; [subst|]; set_solver.
Qed.

Lemma free_input_spec r i m :
  ecm_inv m -> sized r -> input_ok r i ->
  exists h m', mm_hash_of r i = Ok h /\ free_encoder_input r m i = Ok m' /\ ecm_inv m' /\
    cache_size m' = cache_size m /\ num_free_slots m' = num_free_slots m /\ freed m' = freed m /\
    (forall k, cached m' !! k = if decide (k = h) then (fun s => s ∖ {[request_id r]}) <$> cached m !! k
                                else cached m !! k).
Proof.
  intros Hinv Hs Hi. destruct (input_lookup r i Hs Hi) as (h & Hh & Hn & _). exists h.
  unfold free_encoder_input. rewrite Hh. cbn [mbind result_bind].
  destruct (cached m !! h) as [refs|] eqn:Ec; cbn [default from_option id].
  2: { exists m. rewrite decide_True by done. split_and!; try done. intros k. case_decide; [subst|done].
       by rewrite Ec. }
  unfold id. destruct (decide (refs = ∅)) as [->|Hne].
  { exists m. split_and!; try done. intros k. case_decide; [subst|done]. rewrite Ec. cbn. f_equal. set_solver. }
  destruct Hinv as [Hf Hfr Hroom Hnd He].
  assert (Hlk : forall k, <[h := refs ∖ {[request_id r]}]> (cached m) !! k =
    if decide (k = h) then (fun s => s ∖ {[request_id r]}) <$> cached m !! k else cached m !! k).
  { intros k. rewrite lookup_insert. destruct (decide (h = k)), (decide (k = h)); try congruence.
    subst. by rewrite Ec. }
  assert (Hall : map_sum slots (<[h := refs ∖ {[request_id r]}]> (cached m)) = map_sum slots (cached m)).
  { rewrite (map_sum_update _ _ _ _ _ Ec). unfold slots. lia. }
  pose proof (map_sum_update pinned _ _ _ (refs ∖ {[request_id r]}) Ec) as Hpin.
  rewrite (pinned_ne h refs Hne) in Hpin.
  destruct (decide (refs ∖ {[request_id r]} = ∅)) as [He'|He'].
  - rewrite Hn. cbn [mbind result_bind]. eexists. rewrite He', pinned_empty in Hpin.
    split_and!; try done. rewrite He' in *.
    split; cbn; try lia; [by apply dict_set_nodup|].
    intros k n. rewrite dict_set_elem, He, lookup_insert by done. case_decide; [subst|]; naive_solver.
  - eexists. rewrite pinned_ne in Hpin by done. split_and!; try done.
    split; cbn; try lia; [done|].
    intros k n. rewrite He, lookup_insert. case_decide; [subst|]; naive_solver.
Qed.

Lemma free_inputs_spec r m (ids : list Z) :
  ecm_inv m -> sized r -> (forall i, i ∈ ids -> input_ok r i) ->
  exists m', foldM (free_encoder_input r) m ids = Ok m' /\ ecm_inv m' /\
    cache_size m' = cache_size m /\ num_free_slots m' = num_free_slots m /\ freed m' = freed m /\
    forall k, cached m' !! k = if decide (k ∈ omap (fun i => identifier <$> mm_features r !! Z.to_nat i) ids)
                               then (fun s => s ∖ {[request_id r]}) <$> cached m !! k else cached m !! k.
Proof.
  revert m. induction ids as [|i ids IH]; intros m Hinv Hs Hids; cbn [foldM].
  { exists m. split_and!; try done. }
  assert (Hi : input_ok r i) by (apply Hids; constructor).
  destruct (free_input_spec r i m Hinv Hs Hi) as (h & m1 & Hh & -> & Hinv1 & H1 & H2 & H3 & Hlk1).
  cbn [mbind result_bind].
  destruct (IH m1 Hinv1 Hs) as (m2 & -> & Hinv2 & G1 & G2 & G3 & Hlk2); [intros; apply Hids; by constructor|].
  exists m2. split_and!; [done|done|congruence..|]. intros k. rewrite Hlk2, Hlk1.
  destruct (input_lookup r i Hs Hi) as (h' & Hh' & _ & f & Hf & Hid). rewrite Hh in Hh'. injection Hh' as <-.
  cbn [omap list_omap]. rewrite Hf. cbn [fmap option_fmap option_map]. rewrite Hid.
  destruct (decide (k = h)) as [->|Hne].
  - rewrite (decide_True (P := h ∈ h :: _)) by constructor. case_decide; [|done].
    rewrite <- option_fmap_compose. apply option_fmap_ext. intros s. cbn. set_solver.
  - destruct (decide (k ∈ omap (fun i => identifier <$> mm_features r !! Z.to_nat i) ids)) as [Hin|Hnin].
    + by rewrite decide_True by (by constructor).
    + rewrite decide_False; [done|]. by intros [?|?]%elem_of_cons.
Qed.

Lemma free_spec r m :
  ecm_inv m -> sized r ->
  exists m', ecm_free r m = Ok m' /\ ecm_inv m' /\
    cache_size m' = cache_size m /\ num_free_slots m' = num_free_slots m /\ freed m' = freed m /\
    forall k, cached m' !! k = if decide (k ∈ identifier <$> mm_features r)
                               then (fun s => s ∖ {[request_id r]}) <$> cached m !! k else cached m !! k.
Proof.
  intros Hinv Hs.
  destruct (free_inputs_spec r m (get_cached_input_ids r m)) as (m' & Hm & Hi & H1 & H2 & H3 & Hlk); [done|done| |].
  { unfold get_cached_input_ids. intros i [_ Hi%elem_of_py_range]%list_elem_of_filter. done. }
  exists m'. split_and!; try done. intros k. rewrite Hlk.
  destruct (cached m !! k) as [refs|] eqn:Ek; [|by do 2 case_decide].
  assert (Heq : k ∈ omap (fun i => identifier <$> mm_features r !! Z.to_nat i) (get_cached_input_ids r m)
          <-> k ∈ identifier <$> mm_features r); [|by do 2 case_decide; try tauto].
  rewrite list_elem_of_omap, list_elem_of_fmap. unfold get_cached_input_ids. split.
  - intros (i & _ & Hi'). destruct (mm_features r !! Z.to_nat i) as [f|] eqn:Ef; [|done].
    injection Hi' as <-. exists f. split; [done|]. by eapply list_elem_of_lookup_2.
  - intros (f & -> & [j Hj]%list_elem_of_lookup). exists (Z.of_nat j).
    rewrite list_elem_of_filter, elem_of_py_range. unfold input_is_cached. rewrite Nat2Z.id, Hj.
    apply lookup_lt_Some in Hj. unfold zlen. cbn. rewrite Ek. split; [|done].
    split; [by apply bool_decide_eq_true_2; eexists|lia].
Qed.
End Accounting.

(** ** Sequences of operations *)

Inductive ecm_op : Type :=
  | ECheck (r : Request) (i : Z)
  | ECan (r : Request) (i budget extra : Z)
  | EAllocate (r : Request) (i : Z)
  | EFreeInput (r : Request) (i : Z)
  | EFree (r : Request)
  | EGetFreed
  | EReset.

Definition ecm_exec (o : ecm_op) (m : EncoderCacheManager) : result EncoderCacheManager :=
  match o with
  | ECheck r i => snd <$> check_and_update_cache r i m
  | ECan r i budget extra => snd <$> can_allocate r i budget extra m
  | EAllocate r i => allocate r i m
  | EFreeInput r i => free_encoder_input r m i
  | EFree r => ecm_free r m
  | EGetFreed => Ok (snd (get_freed_mm_hashes m))
  | EReset => Ok (ecm_reset m)
  end.

(** The scheduler's contract: inputs exist and have the size of their identifier; an
    item is allocated only when it is not cached and there is room for it. *)
Definition ecm_op_ok (size : string -> Z) (o : ecm_op) (m : EncoderCacheManager) : Prop :=
  match o with
  | ECheck r i | ECan r i _ _ | EFreeInput r i => sized size r /\ input_ok r i
  | EAllocate r i => sized size r /\ input_ok r i /\
      exists h, mm_hash_of r i = Ok h /\ cached m !! h = None /\ size h <= num_free_slots m
  | EFree r => sized size r
  | EGetFreed | EReset => True
  end.

Fixpoint ecm_run (os : list ecm_op) (m : EncoderCacheManager) : result EncoderCacheManager :=
  match os with [] => Ok m | o :: os' => m' ← ecm_exec o m; ecm_run os' m' end.

(** The contract along a run. *)
Fixpoint ecm_run_ok (size : string -> Z) (os : list ecm_op) (m : EncoderCacheManager) : Prop :=
  match os with
  | [] => True
  | o :: os' => ecm_op_ok size o m /\
      match ecm_exec o m with Ok m' => ecm_run_ok size os' m' | Err _ => True end
  end.

Lemma ecm_exec_inv size o m :
  (forall h, 0 <= size h) -> ecm_inv size m -> 0 <= cache_size m -> ecm_op_ok size o m ->
  exists m', ecm_exec o m = Ok m' /\ ecm_inv size m' /\ cache_size m' = cache_size m.
Proof.
  intros Hpos Hinv Hsz Hok. destruct o as [r i|r i b e|r i|r i|r| |]; cbn in *.
  - destruct Hok as [Hs Hi]. destruct (check_spec size Hpos r i m Hinv Hs Hi) as (h & m' & _ & -> & ? & ? & _).
    by exists m'.
  - destruct Hok as [Hs Hi].
    destruct (can_allocate_spec size Hpos r i b e m Hinv Hs Hi) as (h & a & m' & _ & -> & ? & _ & _ & ? & _).
    by exists m'.
  - destruct Hok as (Hs & Hi & h & Hh & Hc & Hr).
    destruct (allocate_spec size Hpos r i m h Hinv Hs Hi Hh Hc Hr) as (m' & -> & ? & _ & _ & ?). by exists m'.
  - destruct Hok as [Hs Hi]. destruct (free_input_spec size Hpos r i m Hinv Hs Hi) as (h & m' & _ & -> & ? & ? & _).
    by exists m'.
  - destruct (free_spec size Hpos r m Hinv Hok) as (m' & -> & ? & ? & _). by exists m'.
  - eexists. split; [done|]. split; [|done]. by destruct Hinv.
  - eexists. split; [done|]. split; [by apply reset_inv|done].
Qed.

(** C27: Whatever sequence of calls the scheduler makes within its contract, the encoder
    cache never raises and its accounting stays exact: the free slots are the capacity
    minus the embeddings of all entries (never negative), the reclaimable slots are the
    capacity minus the embeddings of the referenced entries, and [freeable] lists, without
    duplicates, exactly the entries no request references, with their sizes. *)
Theorem encoder_cache_run_safe size n os :
  (forall h, 0 <= size h) -> 0 <= n -> ecm_run_ok size os (ecm_init n) ->
  exists m, ecm_run os (ecm_init n) = Ok m /\ cache_size m = n /\
    num_free_slots m = n - map_sum (fun h _ => size h) (cached m) /\ 0 <= num_free_slots m /\
    num_freeable_slots m = n - map_sum (fun h refs => if decide (refs = ∅) then 0 else size h) (cached m) /\
    NoDup (freeable m).*1 /\
    (forall h k, (h, k) ∈ freeable m <-> cached m !! h = Some ∅ /\ k = size h).
Proof.
  intros Hpos Hn.
  assert (Hgen : forall m, ecm_inv size m -> cache_size m = n -> ecm_run_ok size os m ->
    exists m', ecm_run os m = Ok m' /\ ecm_inv size m' /\ cache_size m' = n).
  { induction os as [|o os IH]; intros m Hinv Hsz; cbn; [by exists m|]. intros [Hok Hrest].
    destruct (ecm_exec_inv size o m Hpos Hinv ltac:(lia) Hok) as (m1 & Hm1 & Hinv1 & Hsz1).
    rewrite Hm1 in Hrest |- *. apply IH; [done|lia|done]. }
  intros Hok. destruct (Hgen (ecm_init n) (init_inv size n Hn) eq_refl Hok) as (m & -> & [Hf Hfr Hr Hnd He] & Hsz).
  exists m. rewrite Hsz in *. split_and!; done.
Qed.

(** Two requests sharing an image of 3 embeddings; the second has another of 2. *)
Definition demo_size (h : string) : Z := if String.eqb h "a" then 3 else 2.
Definition mm_request (rid : string) (feats : list MultiModalFeatureSpec) : Request :=
  mkRequest rid 1 0 0 5 None None None false WAITING None 8 (Some [1]) None ∅ 1
    [] [1] 0 false [] 0 None feats (-1) false 0 0 [] false false.
Definition mm_r1 : Request := mm_request "r1" [mkMM "a" (mkPlaceholder 0 3 None)].
Definition mm_r2 : Request :=
  mm_request "r2" [mkMM "a" (mkPlaceholder 0 3 None); mkMM "b" (mkPlaceholder 3 2 None)].

Lemma demo_size_pos h : 0 <= demo_size h.
Proof. unfold demo_size. by destruct (String.eqb h "a"). Qed.
Lemma mm_r1_sized : sized demo_size mm_r1.
Proof. intros [|i] f Hf; [by injection Hf as <-|done]. Qed.
Lemma mm_r2_sized : sized demo_size mm_r2.
Proof. intros [|[|i]] f Hf; [by injection Hf as <-..|done]. Qed.

Definition demo_ops : list ecm_op :=
  [ECan mm_r1 0 9 0; EAllocate mm_r1 0; ECheck mm_r2 0; EFree mm_r1; EFree mm_r2; ECan mm_r2 1 9 0;
   EAllocate mm_r2 1; EGetFreed].

Lemma demo_ops_ok : ecm_run_ok demo_size demo_ops (ecm_init 4).
Proof.
  cbn [ecm_run_ok demo_ops]. repeat split; try exact mm_r1_sized; try exact mm_r2_sized; try (by vm_compute).
  - exists "a". by vm_compute.
  - exists "b". by vm_compute.
Qed.

Lemma encoder_cache_run_safe_witness :
  exists m, ecm_run demo_ops (ecm_init 4) = Ok m /\ num_free_slots m = 2.
Proof.
  destruct (encoder_cache_run_safe demo_size 4 demo_ops demo_size_pos) as (m & Hm & _ & Hf & _);
    [lia|exact demo_ops_ok|].
  exists m. split; [exact Hm|]. vm_compute in Hm. injection Hm as <-. by vm_compute.
Defined.

(** [can_allocate] answers [True] exactly when the item is within the compute
    budget and, with the embeddings already scheduled, fits in the free or reclaimable
    slots; on [True] the free slots suffice afterwards. It evicts only unreferenced
    entries, oldest first, and no more than needed: [freed] is extended by a prefix of
    [freeable] whose proper prefixes do not make enough room, and only those entries
    leave the cache. *)
Theorem can_allocate_correct size r i budget extra m :
  (forall h, 0 <= size h) -> ecm_inv size m -> sized size r -> input_ok r i ->
  exists h b m', mm_hash_of r i = Ok h /\ can_allocate r i budget extra m = Ok (b, m') /\ ecm_inv size m' /\
    (b = true <-> size h <= budget /\ size h + extra <= num_freeable_slots m) /\
    (b = true -> size h + extra <= num_free_slots m') /\
    exists pre, freeable m = pre ++ freeable m' /\ freed m' = freed m ++ pre.*1 /\
      (forall p x q, pre = p ++ x :: q -> num_free_slots m + total p < size h + extra) /\
      (forall k, cached m' !! k = if decide (k ∈ pre.*1) then None else cached m !! k) /\
      (forall k, k ∈ pre.*1 -> cached m !! k = Some ∅).
Proof.
  intros Hpos Hinv Hs Hi. pose proof (free_le_freeable size Hpos m Hinv) as Hle.
  destruct (can_allocate_spec size Hpos r i budget extra m Hinv Hs Hi)
    as (h & b & m' & Hh & Hc & Hinv' & Hb & Hroom & _ & _ & pre & Hpre & Hfreed & Hmin & Hlk).
  exists h, b, m'. split_and!; [done|done|done| |done|].
  { rewrite Hb, bool_decide_eq_true. lia. }
  assert (Hin : forall e, e ∈ pre -> cached m !! e.1 = Some ∅ /\ e.2 = size e.1).
  { intros [k n] Hk. apply (ei_entries _ _ Hinv). rewrite Hpre. apply elem_of_app. by left. }
  exists pre. split_and!; [done|done| |done|].
  - intros p x q ->. destruct Hmin as [Hnil|(p' & y & Hp & Hlt)]; [by destruct p|].
    destruct q as [|z q _] using rev_ind.
    + apply app_inj_tail in Hp as [-> ->]. done.
    + rewrite app_comm_cons, app_assoc in Hp. apply app_inj_tail in Hp as [<- _].
      rewrite total_app in Hlt. enough (0 <= total (x :: q)) by lia.
      assert (Hq : forall e, e ∈ x :: q -> 0 <= e.2).
      { intros e He. destruct (Hin e) as [_ ->]; [set_solver|done]. }
      revert Hq. clear. generalize (x :: q). intros l. unfold total. induction l as [|e l IH]; intros Hq; cbn; [done|].
      pose proof (Hq e ltac:(constructor)). specialize (IH ltac:(intros; apply Hq; by constructor)). lia.
  - intros k [e [-> He]]%list_elem_of_fmap. by apply Hin.
Qed.

Lemma demo_full_inv : ecm_inv demo_size (mkECM 4 1 4 {["a" := ∅]} [("a", 3)] []).
Proof.
  split; try (by vm_compute).
  - apply (bool_decide_unpack _). by vm_compute.
  - intros h n. cbn [freeable cached]. rewrite list_elem_of_singleton, lookup_singleton_Some. split; [intros [= -> ->]|intros [[<- _] ->]]; done.
Qed.

Lemma can_allocate_correct_witness :
  exists m', can_allocate mm_r2 1 9 0 (mkECM 4 1 4 {["a" := ∅]} [("a", 3)] []) = Ok (true, m') /\
    freed m' = ["a"].
Proof.
  destruct (can_allocate_correct demo_size mm_r2 1 9 0 _ demo_size_pos demo_full_inv mm_r2_sized)
    as (h & b & m' & _ & Hc & _); [by vm_compute|].
  vm_compute in Hc. injection Hc as <- <-. by eexists.
Defined.

(** [free] removes the request from the reference set of every one of its items
    and from nothing else; no entry leaves the cache (an entry that becomes unreferenced
    stays, reclaimable, until eviction), and the free slots do not change. *)
Theorem encoder_free_correct size r m :
  (forall h, 0 <= size h) -> ecm_inv size m -> sized size r ->
  exists m', ecm_free r m = Ok m' /\ ecm_inv size m' /\ num_free_slots m' = num_free_slots m /\
    freed m' = freed m /\ dom (cached m') = dom (cached m) /\
    (forall k refs, k ∈ identifier <$> mm_features r -> cached m' !! k = Some refs -> request_id r ∉ refs) /\
    (forall k rid, rid <> request_id r ->
       rid ∈ default ∅ (cached m' !! k) <-> rid ∈ default ∅ (cached m !! k)).
Proof.
  intros Hpos Hinv Hs. destruct (free_spec size Hpos r m Hinv Hs) as (m' & Hm & Hi & _ & Hn & Hfr & Hlk).
  exists m'. split_and!; try done.
  - apply set_eq. intros k. rewrite !elem_of_dom, Hlk. case_decide; [by rewrite fmap_is_Some|done].
  - intros k refs Hk. rewrite Hlk, decide_True by done. intros [s [_ ->]]%fmap_Some. set_solver.
  - intros k rid Hne. rewrite Hlk. case_decide; [|done]. destruct (cached m !! k) as [s|]; cbn; [|done].
    unfold id. set_solver.
Qed.

Lemma encoder_free_correct_witness :
  exists m', ecm_free mm_r2 (mkECM 4 1 1 {["a" := {["r1"; "r2"]}]} [] []) = Ok m' /\
    cached m' !! "a" = Some {["r1"]}.
Proof.
  destruct (encoder_free_correct demo_size mm_r2 (mkECM 4 1 1 {["a" := {["r1"; "r2"]}]} [] []))
    as (m' & Hm & _); [exact demo_size_pos| |exact mm_r2_sized|].
  - split; try (by vm_compute); [constructor|]. intros h n. split; [by intros ?%elem_of_nil|].
    cbn [cached]. rewrite lookup_singleton_Some. by intros [[_ ?] _].
  - exists m'. split; [exact Hm|]. vm_compute in Hm. injection Hm as <-. by vm_compute.
Defined.

(** The slots of a list of items. *)
Definition items_size (size : string -> Z) (l : list MultiModalFeatureSpec) : Z :=
  foldr (fun f acc => size (identifier f) + acc) 0 l.

(** A loop over all the input ids visits the items in order. *)
Lemma inputs_loop {S} size r (step : S -> Z -> result S) (I : list MultiModalFeatureSpec -> S -> Prop) s :
  sized size r -> I [] s ->
  (forall pre f s i, mm_hash_of r i = Ok (identifier f) ->
     get_num_encoder_embeds r i = Ok (size (identifier f)) -> I pre s ->
     exists s', step s i = Ok s' /\ I (pre ++ [f]) s') ->
  exists s', foldM step s (py_range 0 (zlen (mm_features r))) = Ok s' /\ I (mm_features r) s'.
Proof.
  intros Hs H0 Hstep. unfold py_range. rewrite Z.sub_0_r.
  assert (Hgen : forall k pre suf s, mm_features r = pre ++ suf -> length suf = k -> I pre s ->
    exists s', foldM step s (seqZ (zlen pre) (Z.of_nat k)) = Ok s' /\ I (mm_features r) s').
  { induction k as [|k IH]; intros pre suf s0 Hr Hk Hi.
    - destruct suf; [|done]. exists s0. split; [done|]. by rewrite Hr, app_nil_r.
    - destruct suf as [|f suf]; [done|]. rewrite seqZ_cons by lia. cbn [foldM].
      assert (Hin : input_ok r (zlen pre)) by (unfold input_ok, zlen; rewrite Hr, length_app; cbn; lia).
      destruct (input_lookup size r (zlen pre) Hs Hin) as (h & Hh & Hn & f' & Hf & <-).
      unfold zlen in Hf. rewrite Nat2Z.id, Hr, list_lookup_middle in Hf by done. injection Hf as <-.
      destruct (Hstep pre f s0 (zlen pre) Hh Hn Hi) as (s1 & -> & Hi1). cbn [mbind result_bind].
      destruct (IH (pre ++ [f]) suf s1) as (s' & Hs' & ?); [by rewrite <- app_assoc|cbn in Hk; lia|done|].
      exists s'. split; [|done]. rewrite <- Hs'. f_equal. unfold zlen. rewrite length_app. cbn.
      f_equal; lia. }
  apply (Hgen (length (mm_features r)) [] (mm_features r) s); done.
Qed.

Lemma items_size_snoc size l f : items_size size (l ++ [f]) = items_size size l + size (identifier f).
Proof. unfold items_size. induction l as [|x l IH]; cbn; [lia|]. rewrite IH. lia. Qed.

(** For encoder-decoder models an allocated item is reported by
    [get_freed_mm_hashes] exactly once, by the second call after its allocation (one step
    after the model ran on it), and freeing a request gives back exactly the slots its
    inputs took. *)
Theorem encoder_decoder_delayed_free size r m :
  sized size r ->
  exists m1, foldM (fun m i => ed_allocate r i m) m (ed_get_cached_input_ids r) = Ok m1 /\
    let '(f1, m2) := ed_get_freed_mm_hashes m1 in
    let '(f2, m3) := ed_get_freed_mm_hashes m2 in
    f1 = ed_to_free m /\ f2 = ed_allocated m ++ (identifier <$> mm_features r) /\
    exists m4, ed_free r m3 = Ok m4 /\ ed_num_free_slots m4 = ed_num_free_slots m /\
      fst (ed_get_freed_mm_hashes m4) = [].
Proof.
  intros Hs. unfold ed_get_cached_input_ids.
  destruct (inputs_loop size r (fun m i => ed_allocate r i m)
    (fun l s => ed_allocated s = ed_allocated m ++ (identifier <$> l) /\ ed_to_free s = ed_to_free m /\
                ed_num_free_slots s = ed_num_free_slots m - items_size size l) m)
    as (m1 & -> & Ha & Ht & Hn); [done| | |].
  { cbn. rewrite app_nil_r. split_and!; [done..|lia]. }
  { intros pre f s i Hh Hz (Ha & Ht & Hn). unfold ed_allocate. rewrite Hz. cbn [mbind result_bind]. rewrite Hh.
    eexists. split; [done|]. cbn. rewrite Ha, fmap_app, app_assoc, items_size_snoc.
    split_and!; [done|done|]. lia. }
  exists m1. split; [done|]. cbn. split_and!; [done..|].
  destruct (inputs_loop size r (ed_free_encoder_input r)
    (fun l s => ed_to_free s = [] /\ ed_num_free_slots s = ed_num_free_slots m1 + items_size size l)
    (mkEDM (ed_cache_size m1) (ed_num_free_slots m1) [] [])) as (m4 & Hm4 & Ht4 & Hn4); [done| | |].
  { cbn. split; [done|lia]. }
  { intros pre f s i _ Hz (Ht' & Hn'). unfold ed_free_encoder_input. rewrite Hz. eexists. split; [done|]. cbn.
    rewrite items_size_snoc. split; [done|lia]. }
  exists m4. split; [exact Hm4|]. split; [lia|done].
Qed.

Lemma encoder_decoder_delayed_free_witness :
  exists m1, foldM (fun m i => ed_allocate mm_r2 i m) (ed_init 9) (ed_get_cached_input_ids mm_r2) = Ok m1 /\
    fst (ed_get_freed_mm_hashes m1) = [] /\
    fst (ed_get_freed_mm_hashes (snd (ed_get_freed_mm_hashes m1))) = ["a"; "b"].
Proof.
  destruct (encoder_decoder_delayed_free demo_size mm_r2 (ed_init 9) mm_r2_sized) as (m1 & Hm1 & H1 & H2 & _).
  exists m1. split; [exact Hm1|]. split; [exact H1|exact H2].
Defined.
