(* ===== verification/StopConditions.v ===== *)
(** * Stop conditions

    vllm/v1/core/sched/utils.py: the tail-repetition detector, [check_stop] and
    [remove_all]. *)
From S2P Require Import Prelude FreeQueue Request.

(** ** Definitions *)

(** [_has_repeating_pattern]. *)
Definition has_repeating_pattern (token_ids : list Z) (pattern_len repetition_min_count : Z)
  : result bool :=
  all_loop (fun n =>
    target_token ← py_index token_ids (- n);
    all_loop (fun m =>
      t ← py_index token_ids (- (pattern_len * m + n));
      Ok (t =? target_token))
      (py_range 1 repetition_min_count))
    (py_range 1 (pattern_len + 1)).

(** The loop over pattern lengths of [check_sequence_repetition]. *)
Fixpoint repetition_loop (token_ids : list Z) (min_count : Z) (lens : list Z) : result bool :=
  match lens with
  | [] => Ok false
  | p :: lens' =>
      if zlen token_ids <? p * min_count then Ok false else
      b ← has_repeating_pattern token_ids p min_count;
      if (b : bool) then Ok true else repetition_loop token_ids min_count lens'
  end.

(** [check_sequence_repetition]. *)
Definition check_sequence_repetition (token_ids : list Z) (params : RepetitionDetectionParams)
  : result bool :=
  let minp := if min_pattern_size params <=? 0 then 1 else min_pattern_size params in
  if (max_pattern_size params <=? 0) || (min_count params <? 2) || (max_pattern_size params <? minp)
  then Ok false
  else repetition_loop token_ids (min_count params) (py_range minp (max_pattern_size params + 1)).

(** [remove_all], on items compared by identity; the set is given by its
    elements without duplicates. *)
Fixpoint list_remove {A} `{EqDecision A} (x : A) (l : list A) : list A :=
  match l with
  | [] => []
  | y :: l' => if decide (y = x) then l' else y :: list_remove x l'
  end.
Definition remove_all {A} `{EqDecision A} (lst items_to_remove : list A) : list A :=
  match items_to_remove with
  | [] => lst
  | [item] => list_remove item lst
  | _ => filter (fun x => x ∉ items_to_remove) lst
  end.

(** [check_stop]: whether the request stops, and the request with the status
    and stop reason it sets. *)
Definition check_stop (r : Request) (max_model_len : Z) : result (bool * Request) :=
  _ ← py_assert (match pooling_params r with None => true | Some _ => false end);
  sp ← of_option AssertionError (sampling_params r);
  if num_output_tokens r <? min_tokens sp then Ok (false, r) else
  last_token_id ← py_index (output_token_ids r) (-1);
  if bool_decide (eos_token_id sp = Some last_token_id) then
    Ok (true, set_status FINISHED_STOPPED r)
  else if bool_decide (last_token_id ∈ default [] (stop_token_ids sp)) then
    Ok (true, set_stop_reason (Some (StopToken last_token_id)) (set_status FINISHED_STOPPED r))
  else if (max_model_len <=? num_tokens r) || (max_tokens r <=? num_output_tokens r) then
    Ok (true, set_status FINISHED_LENGTH_CAPPED r)
  else
    match repetition_detection sp with
    | Some params =>
        b ← check_sequence_repetition (output_token_ids r) params;
        if (b : bool) then
          Ok (true, set_stop_reason (Some (StopString "repetition_detected"%string))
                      (set_status FINISHED_REPETITION r))
        else Ok (false, r)
    | None => Ok (false, r)
    end.

(** ** Repetition *)

(** [l] ends with [c] copies of a pattern of length [p]. *)
Definition ends_with_copies (l : list Z) (p c : Z) : Prop :=
  exists pre pat, zlen pat = p /\ l = pre ++ mjoin (replicate (Z.to_nat c) pat).

Lemma lookup_copies (pat : list Z) c k :
  pat <> [] -> (k < length pat * c)%nat ->
  mjoin (replicate c pat) !! k = pat !! (k mod length pat)%nat.
Proof.
  intros Hne. revert k. induction c as [|c IH]; intros k Hk; [lia|]. cbn.
  assert (length pat <> 0)%nat by (by destruct pat).
  destruct (decide (k < length pat)%nat) as [Hlt|Hge].
  - by rewrite lookup_app_l, Nat.mod_small.
  - rewrite lookup_app_r, IH by lia. f_equal.
    replace k with ((k - length pat) + 1 * length pat)%nat at 2 by lia. by rewrite Nat.Div0.mod_add.
Qed.

Lemma length_copies (pat : list Z) c : length (mjoin (replicate c pat)) = (length pat * c)%nat.
Proof.
  induction c as [|c IH]; [cbn; lia|].
  change (mjoin (replicate (S c) pat)) with (pat ++ mjoin (replicate c pat)).
  rewrite length_app, IH. lia.
Qed.

(** The token [k] positions before the end. *)
Definition from_end (l : list Z) (k : Z) : option Z := l !! (length l - Z.to_nat k)%nat.

Lemma has_repeating_pattern_spec l p c :
  1 <= p -> 1 <= c -> p * c <= zlen l ->
  exists b, has_repeating_pattern l p c = Ok b /\
    (b = true <-> forall n m, 1 <= n <= p -> 1 <= m < c ->
                    from_end l (p * m + n) = from_end l n).
Proof.
  intros Hp Hc Hlen.
  assert (Hinner : forall n, 1 <= n <= p -> exists x, py_index l (- n) = Ok x /\ from_end l n = Some x /\
     exists b, all_loop (fun m => t ← py_index l (- (p * m + n)); Ok (t =? x)) (py_range 1 c) = Ok b /\
     (b = true <-> forall m, 1 <= m < c -> from_end l (p * m + n) = Some x)).
  { intros n Hn. destruct (py_index_neg l n) as (x & Hx & Hx'); [nia|].
    exists x. split_and!; [done..|].
    assert (Hm : forall m, 1 <= m < c -> exists t, py_index l (- (p * m + n)) = Ok t /\
        from_end l (p * m + n) = Some t).
    { intros m Hm. destruct (py_index_neg l (p * m + n)) as (t & ? & ?); [nia|]. by exists t. }
    destruct (all_loop_true (fun m => t ← py_index l (- (p * m + n)); Ok (t =? x)) (py_range 1 c))
      as (b & Hb & Hb').
    { intros m Hin%elem_of_py_range. destruct (Hm m) as (t & -> & _); [lia|]. cbn. eauto. }
    exists b. split; [done|]. rewrite Hb'. setoid_rewrite elem_of_py_range.
    split; intros H m Hin; specialize (H m Hin); destruct (Hm m Hin) as (t & Ht & Ht').
    - rewrite Ht in H. cbn in H. rewrite Ht'. f_equal. apply Z.eqb_eq. congruence.
    - rewrite Ht. cbn. rewrite Ht' in H. injection H as ->. by rewrite Z.eqb_refl. }
  destruct (all_loop_true (fun n => target ← py_index l (- n);
      all_loop (fun m => t ← py_index l (- (p * m + n)); Ok (t =? target)) (py_range 1 c))
      (py_range 1 (p + 1))) as (b & Hb & Hb').
  { intros n Hin%elem_of_py_range. destruct (Hinner n) as (x & -> & _ & b & Hb & _); [lia|].
    cbn. eauto. }
  exists b. split; [exact Hb|]. rewrite Hb'. setoid_rewrite elem_of_py_range. split.
  - intros H n m Hn Hm. specialize (H n ltac:(lia)). destruct (Hinner n Hn) as (x & Hx & Hx' & b' & Hb1 & Hb2).
    rewrite Hx in H. cbn in H. rewrite Hx'. apply Hb2; [congruence|done].
  - intros H n Hn. destruct (Hinner n ltac:(lia)) as (x & -> & Hx' & b' & Hb1 & Hb2). cbn. rewrite Hb1.
    f_equal. apply Hb2. intros m Hm. rewrite <- Hx'. apply H; lia.
Qed.

(** Equality of all tokens [p] apart in the tail is the same as the tail being
    copies of its last [p] tokens. *)
Lemma copies_iff l p c :
  1 <= p -> 1 <= c -> p * c <= zlen l ->
  (forall n m, 1 <= n <= p -> 1 <= m < c -> from_end l (p * m + n) = from_end l n)
  <-> ends_with_copies l p c.
Proof.
  unfold zlen, from_end. intros Hp Hc Hlen. split.
  - intros H. exists (take (length l - Z.to_nat (p * c)) l), (drop (length l - Z.to_nat p) l).
    unfold zlen. rewrite length_drop. split; [nia|].
    rewrite <- (take_drop (length l - Z.to_nat (p * c)) l) at 1. f_equal.
    set (pat := drop (length l - Z.to_nat p) l).
    assert (Hpl : length pat = Z.to_nat p) by (subst pat; rewrite length_drop; nia).
    apply list_eq. intros k. destruct (decide (k < Z.to_nat (p * c))%nat) as [Hk|Hk].
    + rewrite lookup_copies; [|intros E; rewrite E in Hpl; cbn in Hpl; lia|rewrite Hpl; nia].
      subst pat. rewrite Hpl, !lookup_drop.
      pose proof (Nat.mod_upper_bound k (Z.to_nat p) ltac:(lia)).
      pose proof (Nat.div_mod_eq k (Z.to_nat p)).
      set (d := (k / Z.to_nat p)%nat) in *. set (e := (k mod Z.to_nat p)%nat) in *.
      assert (d < Z.to_nat c)%nat by nia.
      destruct (decide (d = Z.to_nat c - 1)%nat) as [Hd|Hd]; [f_equal; nia|].
      specialize (H (p - Z.of_nat e) (c - 1 - Z.of_nat d) ltac:(lia) ltac:(lia)).
      replace (length l - Z.to_nat (p * c) + k)%nat
        with (length l - Z.to_nat (p * (c - 1 - Z.of_nat d) + (p - Z.of_nat e)))%nat by nia.
      rewrite H. f_equal. assert (p <= p * c) by nia. clearbody d e. lia.
    + rewrite !lookup_ge_None_2; [done|rewrite length_copies, Hpl; nia|rewrite length_drop; nia].
  - intros (pre & pat & Hpat & ->) n m Hn Hm. unfold zlen in *.
    rewrite length_app, length_copies in *.
    assert (pat <> []) by (intros ->; cbn in *; lia).
    assert (Hk : Z.to_nat (p * m + n) = (length pat * Z.to_nat m + Z.to_nat n)%nat).
    { rewrite Z2Nat.inj_add, Z2Nat.inj_mul by nia. lia. }
    rewrite Hk. clear Hk. assert (Hn' : (1 <= Z.to_nat n <= length pat)%nat) by lia.
    assert (Hm' : (1 <= Z.to_nat m < Z.to_nat c)%nat) by lia.
    generalize dependent (Z.to_nat n). generalize dependent (Z.to_nat m).
    generalize dependent (Z.to_nat c). intros C _ M HM N HN.
    assert (length pat * M + N <= length pat * C)%nat by nia.
    rewrite !lookup_app_r by nia. rewrite !lookup_copies by (done || nia). f_equal.
    replace (length pre + length pat * C - (length pat * M + N) - length pre)%nat
      with ((length pat - N) + (C - 1 - M) * length pat)%nat by nia.
    replace (length pre + length pat * C - N - length pre)%nat
      with ((length pat - N) + (C - 1) * length pat)%nat by nia.
    by rewrite !Nat.Div0.mod_add.
Qed.

(** A shorter pattern only needs fewer tokens: once the length bound fails it
    fails for every longer pattern. *)
Lemma repetition_loop_spec l c lo n :
  1 <= lo -> 2 <= c ->
  exists b, repetition_loop l c (seqZ lo n) = Ok b /\
    (b = true <-> exists p, lo <= p < lo + n /\ p * c <= zlen l /\ ends_with_copies l p c).
Proof.
  intros Hlo Hc. destruct (Z.le_gt_cases 0 n) as [Hn|Hn].
  2: { exists false. rewrite seqZ_nil by lia. split; [done|]. split; [done|]. intros (? & ? & _). lia. }
  revert lo Hlo. pattern n. apply natlike_ind; [| |done]; clear n Hn.
  { intros lo _. exists false. split; [done|]. split; [done|]. intros (? & ? & _). lia. }
  intros n Hn IH lo Hlo. rewrite seqZ_cons by lia. cbn [repetition_loop].
  destruct (Z.ltb_spec (zlen l) (lo * c)) as [Hlen|Hlen].
  { exists false. split; [done|]. split; [done|]. intros (p & ? & ? & _). nia. }
  destruct (has_repeating_pattern_spec l lo c) as (b & -> & Hb); [lia..|].
  rewrite copies_iff in Hb by lia. cbn. destruct b.
  - exists true. split; [done|]. split; [|done]. intros _. exists lo.
    split_and!; [lia..|by apply Hb].
  - replace (Z.pred (Z.succ n)) with n by lia.
    destruct (IH (Z.succ lo)) as (b & -> & Hb'); [lia|]. exists b. split; [done|].
    rewrite Hb'. split; intros (p & Hp & Hpc & He).
    + exists p. split_and!; [lia..|done].
    + exists p. assert (p <> lo) by (intros ->; by apply Hb in He). split_and!; [lia..|done].
Qed.

Lemma ends_with_copies_len l p c : 0 <= c -> ends_with_copies l p c -> p * c <= zlen l.
Proof.
  intros Hc (pre & pat & Hp & ->). unfold zlen in *. rewrite length_app, length_copies. nia.
Qed.

Lemma check_sequence_repetition_total l params :
  exists b, check_sequence_repetition l params = Ok b.
Proof.
  unfold check_sequence_repetition. set (minp := if min_pattern_size params <=? 0 then _ else _).
  assert (1 <= minp) by (subst minp; zcases).
  destruct (_ || _) eqn:E; [by eexists|]. apply orb_false_iff in E as [E _].
  apply orb_false_iff in E as [_ E%Z.ltb_ge].
  destruct (repetition_loop_spec l (min_count params) minp (max_pattern_size params + 1 - minp))
    as (b & ? & _); [lia..|]. by exists b.
Qed.

(** ** Properties *)

(** [check_sequence_repetition] never raises, and it answers [True] exactly
    when repetition detection is configured ([max_pattern_size > 0] and
    [min_count >= 2]) and the output ends with [min_count] consecutive copies of
    some pattern whose length lies between the (clamped) minimum and the maximum. *)
Theorem check_sequence_repetition_correct token_ids params :
  exists b, check_sequence_repetition token_ids params = Ok b /\
    (b = true <->
     0 < max_pattern_size params /\ 2 <= min_count params /\
     exists p, Z.max 1 (min_pattern_size params) <= p <= max_pattern_size params /\
               ends_with_copies token_ids p (min_count params)).
Proof.
  unfold check_sequence_repetition. set (minp := if min_pattern_size params <=? 0 then _ else _).
  assert (Hm : minp = Z.max 1 (min_pattern_size params)) by (subst minp; zcases).
  rewrite <- Hm. clearbody minp.
  destruct (Z.leb_spec (max_pattern_size params) 0); cbn.
  { exists false. split; [done|]. split; [done|lia]. }
  destruct (Z.ltb_spec (min_count params) 2); cbn.
  { exists false. split; [done|]. split; [done|lia]. }
  destruct (Z.ltb_spec (max_pattern_size params) minp); cbn.
  { exists false. split; [done|]. split; [done|]. intros (_ & _ & p & ? & _). lia. }
  unfold py_range. destruct (repetition_loop_spec token_ids (min_count params) minp
    (max_pattern_size params + 1 - minp)) as (b & -> & Hb); [lia..|].
  exists b. split; [done|]. rewrite Hb. split.
  - intros (p & ? & _ & ?). split_and!; [lia..|]. exists p. split; [lia|done].
  - intros (_ & _ & p & ? & He). exists p. split_and!; [lia..| |done].
    apply ends_with_copies_len; [lia|done].
Qed.

Lemma list_remove_nodup {A} `{EqDecision A} (x : A) l :
  NoDup l -> list_remove x l = filter (fun y => y <> x) l.
Proof.
  induction l as [|y l IH]; intros Hnd; [done|]. apply NoDup_cons in Hnd as [Hy Hnd]. cbn [list_remove].
  case_decide as Hx.
  - subst y. rewrite filter_cons_False by naive_solver.
    symmetry. clear IH Hnd. induction l as [|z l IH]; [done|].
    rewrite filter_cons_True by set_solver. f_equal. apply IH. set_solver.
  - rewrite filter_cons_True by done. f_equal. by apply IH.
Qed.

(** On a list of distinct requests the two code paths of [remove_all] (the
    in-place removal of one item and the comprehension) agree: what is left is
    the list without the items, in its order. *)
Theorem remove_all_filter {A} `{EqDecision A} (lst items : list A) :
  NoDup lst -> remove_all lst items = filter (fun x => x ∉ items) lst.
Proof.
  intros Hnd. destruct items as [|x [|y items]]; cbn [remove_all]; [| |done].
  - symmetry. clear Hnd. induction lst as [|z l IH]; [done|].
    rewrite filter_cons_True by apply not_elem_of_nil. by rewrite IH.
  - rewrite list_remove_nodup by done. apply list_filter_iff. intros z.
    by rewrite list_elem_of_singleton.
Qed.

Lemma remove_all_filter_witness :
  NoDup [1; 2; 3] /\ remove_all [1; 2; 3] [2] = filter (fun x => x ∉ [2]) [1; 2; 3].
Proof.
  assert (NoDup [1; 2; 3]) by (repeat (constructor; [set_solver|]); constructor).
  split; [done|]. by apply remove_all_filter.
Defined.

(** The four ways a generating request can stop, in the order the code tests them. *)
Inductive stop_cause (r : Request) (sp : SamplingParams) (max_model_len last : Z)
  : RequestStatus -> option StopReason -> Prop :=
  | cause_eos :
      eos_token_id sp = Some last ->
      stop_cause r sp max_model_len last FINISHED_STOPPED (stop_reason r)
  | cause_stop_token :
      eos_token_id sp <> Some last -> last ∈ default [] (stop_token_ids sp) ->
      stop_cause r sp max_model_len last FINISHED_STOPPED (Some (StopToken last))
  | cause_length :
      eos_token_id sp <> Some last -> last ∉ default [] (stop_token_ids sp) ->
      (max_model_len <= num_tokens r \/ max_tokens r <= num_output_tokens r) ->
      stop_cause r sp max_model_len last FINISHED_LENGTH_CAPPED (stop_reason r)
  | cause_repetition params :
      eos_token_id sp <> Some last -> last ∉ default [] (stop_token_ids sp) ->
      num_tokens r < max_model_len -> num_output_tokens r < max_tokens r ->
      repetition_detection sp = Some params ->
      check_sequence_repetition (output_token_ids r) params = Ok true ->
      stop_cause r sp max_model_len last FINISHED_REPETITION
        (Some (StopString "repetition_detected"%string)).

(** C30: For a generation request that has produced at least one token and its
    minimum number of tokens, [check_stop] never raises; it answers [True] exactly
    when one of the four stop causes holds, in which case the request is finished
    with that cause's status and stop reason, and otherwise leaves the request as
    it was.  Below the minimum it never stops. *)
Theorem check_stop_correct r sp max_model_len :
  pooling_params r = None -> sampling_params r = Some sp ->
  (num_output_tokens r < min_tokens sp -> check_stop r max_model_len = Ok (false, r)) /\
  (forall last, min_tokens sp <= num_output_tokens r ->
     py_index (output_token_ids r) (-1) = Ok last ->
     (exists st sr, stop_cause r sp max_model_len last st sr /\ is_finished_status st = true /\
        exists r', check_stop r max_model_len = Ok (true, r') /\ status r' = st /\ stop_reason r' = sr /\
                   output_token_ids r' = output_token_ids r) \/
     ((forall st sr, ~ stop_cause r sp max_model_len last st sr) /\
      check_stop r max_model_len = Ok (false, r))).
Proof.
  intros Hpp Hsp. unfold check_stop. rewrite Hpp, Hsp. cbn. split.
  { intros H. by rewrite (proj2 (Z.ltb_lt _ _)). }
  intros last Hmin Hlast. rewrite (proj2 (Z.ltb_ge _ _)), Hlast by done. cbn.
  case_bool_decide as Heos.
  { left. do 2 eexists. split_and!; [by apply cause_eos|done|]. by eexists. }
  case_bool_decide as Hst.
  { left. do 2 eexists. split_and!; [by apply cause_stop_token|done|]. by eexists. }
  destruct (Z.leb_spec max_model_len (num_tokens r)); cbn.
  { left. do 2 eexists. split_and!; [apply cause_length; auto|done|]. by eexists. }
  destruct (Z.leb_spec (max_tokens r) (num_output_tokens r)); cbn.
  { left. do 2 eexists. split_and!; [apply cause_length; auto|done|]. by eexists. }
  destruct (repetition_detection sp) as [params|] eqn:Hrd.
  2: { right. split; [|done]. intros st sr Hc. inversion Hc; try congruence; try tauto; lia. }
  destruct (check_sequence_repetition_total (output_token_ids r) params) as [b Hb].
  rewrite Hb. cbn. destruct b.
  - left. do 2 eexists. split_and!; [by eapply cause_repetition|done|]. by eexists.
  - right. split; [|done]. intros st sr Hc. inversion Hc; try congruence; try tauto; lia.
Qed.

(** A request with prompt [1; 2] and output [3; 7], whose end-of-sequence token is 7. *)
Definition sample_sampling : SamplingParams :=
  mkSampling (Some 8) 0 (Some 7) None None None false.
Definition sample_request : Request :=
  mkRequest "r" 1 0 0 5 (Some sample_sampling) None None false WAITING None 8 (Some [1; 2]) None ∅ 2
    [3; 7] [1; 2; 3; 7] 0 false [] 0 None [] (-1) false 0 0 [] false false.

Lemma check_stop_correct_witness :
  exists r', check_stop sample_request 100 = Ok (true, r') /\ status r' = FINISHED_STOPPED.
Proof.
  destruct (check_stop_correct sample_request sample_sampling 100) as [_ H]; [reflexivity..|].
  destruct (H 7) as [(st & sr & _ & _ & r' & Hr & Hst & _)|[Hno _]]; [vm_compute; congruence|reflexivity|..].
  - exists r'. split; [exact Hr|]. vm_compute in Hr. by injection Hr as <-.
  - exfalso. eapply Hno, cause_eos. reflexivity.
Defined.
