(* ===== verification/BlockHash.v ===== *)
(** * Block hashes for prefix caching

    vllm/v1/core/kv_cache_utils.py: packing a block hash with its group id, the
    extra keys of a block, the chained block hashes of a request and their
    conversion to a coarser block size.  The hash function ([sha256], [xxhash]
    over pickle or CBOR) and the seed [NONE_HASH] are parameters. *)
From S2P Require Import Prelude FreeQueue Request.

(** ** Keys *)

(** [int.to_bytes(4, "big", signed=False)]. *)
Definition to_bytes4 (n : Z) : result bytes :=
  if (0 <=? n) && (n <? 2 ^ 32) then
    Ok [Z.shiftr n 24; Z.land (Z.shiftr n 16) 255; Z.land (Z.shiftr n 8) 255; Z.land n 255]
  else Err OverflowError.

(** [int.from_bytes(b, "big", signed=False)]. *)
Definition from_bytes (b : bytes) : Z := foldl (fun acc x => acc * 256 + x) 0 b.

(** [make_block_hash_with_group_id]. *)
Definition make_block_hash_with_group_id (h : bytes) (group_id : Z) : result bytes :=
  g ← to_bytes4 group_id; Ok (h ++ g).

(** [get_block_hash]: [key[:-4]]. *)
Definition get_block_hash (key : bytes) : bytes := take (length key - 4) key.

(** [get_group_id]: [int.from_bytes(key[-4:])]. *)
Definition get_group_id (key : bytes) : Z := from_bytes (drop (length key - 4) key).

(** [maybe_convert_block_hash]; the flag is [VLLM_KV_EVENTS_USE_INT_BLOCK_HASHES]. *)
Definition maybe_convert_block_hash (use_int : bool) (h : bytes) : bytes + Z :=
  if negb use_int then inl h else inr (Z.land (from_bytes h) (Z.shiftl 1 64 - 1)).

(** ** Extra keys *)

(** An element of the tuple of extra keys: a [str] or a [bytes]. *)
Abbreviation hkey := (string + bytes)%type.

(** [need_extra_keys]. *)
Definition need_extra_keys (r : Request) : bool :=
  (0 <? zlen (mm_features r)) || bool_decide (is_Some (lora_request r))
  || bool_decide (is_Some (cache_salt r)).

(** The [while] loop of [_gen_mm_extra_hash_keys] over the features from the
    current index on. *)
Fixpoint mm_keys_loop (feats : list MultiModalFeatureSpec) (s e : Z) (keys : list hkey) (idx : Z)
  : list hkey * Z :=
  match feats with
  | [] => (keys, idx)
  | f :: fs =>
      let off := offset (mm_position f) in
      let len := length_ (mm_position f) in
      if off <? e then
        if off + len <? s then mm_keys_loop fs s e keys (idx + 1)
        else
          let keys' := keys ++ [inl (identifier f)] in
          if off + len <=? e then mm_keys_loop fs s e keys' (idx + 1) else (keys', idx)
      else (keys, idx)
  end.

(** [_gen_mm_extra_hash_keys]. *)
Definition gen_mm_extra_hash_keys (r : Request) (s e start_mm_idx : Z)
  : result (list hkey * Z) :=
  match last (mm_features r) with
  | None => Ok ([], start_mm_idx)
  | Some f =>
      if offset (mm_position f) + length_ (mm_position f) <? s then Ok ([], start_mm_idx) else
      idx ← (if start_mm_idx <? 0 then
               _ ← py_assert (- start_mm_idx <=? zlen (mm_features r));
               Ok (zlen (mm_features r) + start_mm_idx)
             else Ok start_mm_idx);
      Ok (mm_keys_loop (drop (Z.to_nat idx) (mm_features r)) s e [] idx)
  end.

(** [_gen_lora_extra_hash_keys]. *)
Definition gen_lora_extra_hash_keys (r : Request) : list hkey :=
  match lora_request r with None => [] | Some l => [inl (lora_name l)] end.

(** [_gen_prompt_embeds_extra_hash_keys]: the key and the updated digest table. *)
Definition gen_prompt_embeds_extra_hash_keys (r : Request) (s e : Z)
  : list hkey * gmap (Z * Z) bytes :=
  match prompt_embeds r with
  | None => ([], embeds_hashes r)
  | Some pe =>
      match embeds_hashes r !! (s, e) with
      | Some d => ([inr d], embeds_hashes r)
      | None => let d := pe_digest pe s e in ([inr d], <[(s, e) := d]> (embeds_hashes r))
      end
  end.

(** The salt contributes to the first block only; an empty salt is no salt. *)
Definition cache_salt_keys (r : Request) (s : Z) : list hkey :=
  match cache_salt r with
  | Some salt => if (s =? 0) && negb (String.eqb salt "") then [inl salt] else []
  | None => []
  end.

Definition keys_or_none (l : list hkey) : option (list hkey) :=
  match l with [] => None | _ => Some l end.

(** [generate_block_hash_extra_keys]. *)
Definition generate_block_hash_extra_keys (r : Request) (s e start_mm_idx : Z)
  : result (option (list hkey) * Z * gmap (Z * Z) bytes) :=
  '(mm, idx) ← gen_mm_extra_hash_keys r s e start_mm_idx;
  let lora := gen_lora_extra_hash_keys r in
  let salt := cache_salt_keys r s in
  let '(embeds, memo) := gen_prompt_embeds_extra_hash_keys r s e in
  Ok (keys_or_none (lora ++ mm ++ salt ++ embeds), idx, memo).

(** ** Hashing a request *)

Section Hashing.
Context (hash_fn : bytes * list Z * option (list hkey) -> bytes) (NONE_HASH : bytes).

(** [hash_block_tokens]; an absent or empty parent hash is the seed. *)
Definition hash_block_tokens (parent : option bytes) (toks : list Z) (extra : option (list hkey))
  : bytes :=
  let p := match parent with None => NONE_HASH | Some [] => NONE_HASH | Some h => h end in
  hash_fn (p, toks, extra).

(** The [while True] loop of [request_block_hasher]. *)
Fixpoint hasher_loop (fuel : nat) (r : Request) (block_size start : Z) (prev : option bytes)
    (mm_idx : Z) (acc : list bytes) : result (list bytes * gmap (Z * Z) bytes) :=
  match fuel with
  | O => Err OutOfFuel
  | S fuel' =>
      let e := start + block_size in
      if num_tokens r <? e then Ok (acc, embeds_hashes r) else
      '(extra, mm_idx', memo) ← generate_block_hash_extra_keys r start e mm_idx;
      let h := hash_block_tokens prev (py_slice (all_token_ids r) start e) extra in
      hasher_loop fuel' (set_embeds_hashes memo r) block_size e (Some h) mm_idx' (acc ++ [h])
  end.

(** [request_block_hasher], the closure built by [get_request_block_hasher]. *)
Definition request_block_hasher (block_size : Z) : block_hasher := fun r =>
  let start := zlen (block_hashes r) * block_size in
  if num_tokens r <? start + block_size then Ok ([], embeds_hashes r) else
  let mm_idx := if 0 <? start then -1 else 0 in
  hasher_loop (S (Z.to_nat (num_tokens r))) r block_size start (last (block_hashes r)) mm_idx [].
End Hashing.

(** ** Coarser block sizes: [BlockHashListWithBlockSize] *)

Record BlockHashListWithBlockSize : Type := mkBHL {
  bhl_hashes : list bytes;
  scale_factor : Z;
}.

(** [__init__]. *)
Definition bhl_init (hs : list bytes) (hash_block_size target_block_size : Z)
  : result BlockHashListWithBlockSize :=
  if hash_block_size =? 0 then Err ZeroDivisionError else
  _ ← py_assert (target_block_size mod hash_block_size =? 0);
  Ok (mkBHL hs (target_block_size / hash_block_size)).

(** [__len__]. *)
Definition bhl_len (b : BlockHashListWithBlockSize) : Z := zlen (bhl_hashes b) / scale_factor b.

(** [_get_value_at]. *)
Definition bhl_get_value_at (b : BlockHashListWithBlockSize) (idx : Z) : result bytes :=
  let base := idx * scale_factor b in
  let e := base + scale_factor b in
  h ← py_index (bhl_hashes b) base;
  foldM (fun acc i => x ← py_index (bhl_hashes b) i; Ok (acc ++ x)) h (py_range (base + 1) e).

(** [self[start:]] for [0 <= start]: [__getitem__] on a slice. *)
Definition bhl_slice_from (b : BlockHashListWithBlockSize) (start : Z) : result (list bytes) :=
  foldM (fun acc i => x ← bhl_get_value_at b i; Ok (acc ++ [x])) []
    (py_range (Z.min start (bhl_len b)) (bhl_len b)).

(** ** Keys: round trips *)

Lemma to_bytes4_from n b : to_bytes4 n = Ok b -> length b = 4%nat /\ from_bytes b = n.
Proof.
  unfold to_bytes4. destruct (Z.leb_spec 0 n), (Z.ltb_spec n (2 ^ 32)); cbn; try done.
  intros [= <-]. split; [done|]. cbn.
  rewrite !(Z.land_ones _ 8 ltac:(lia) : Z.land _ 255 = _), !Z.shiftr_div_pow2 by lia.
  change (2 ^ 24) with (2 ^ 8 * (2 ^ 8 * 2 ^ 8)). change (2 ^ 16) with (2 ^ 8 * 2 ^ 8).
  change 256 with (2 ^ 8). rewrite <- !Z.div_div by lia.
  pose proof (Z.div_mod n (2 ^ 8) ltac:(lia)).
  pose proof (Z.div_mod (n / 2 ^ 8) (2 ^ 8) ltac:(lia)).
  pose proof (Z.div_mod (n / 2 ^ 8 / 2 ^ 8) (2 ^ 8) ltac:(lia)). lia.
Qed.

Lemma make_key_components h g k :
  make_block_hash_with_group_id h g = Ok k -> get_block_hash k = h /\ get_group_id k = g.
Proof.
  unfold make_block_hash_with_group_id. destruct (to_bytes4 g) as [b|] eqn:E; [|done]. intros [= <-].
  apply to_bytes4_from in E as [Hl Hf]. unfold get_block_hash, get_group_id.
  by rewrite length_app, Hl, Nat.add_sub, take_app_length, drop_app_length.
Qed.

(** For every group id that fits in 4 bytes, [make_block_hash_with_group_id]
    succeeds and [get_block_hash] and [get_group_id] recover both components of the
    key; any other group id raises [OverflowError]. *)
Theorem block_hash_group_roundtrip h g :
  match make_block_hash_with_group_id h g with
  | Ok key => 0 <= g < 2 ^ 32 /\ get_block_hash key = h /\ get_group_id key = g
  | Err e => e = OverflowError /\ ~ 0 <= g < 2 ^ 32
  end.
Proof.
  unfold make_block_hash_with_group_id. destruct (to_bytes4 g) as [b|e] eqn:E; cbn.
  - apply to_bytes4_from in E as Hb. destruct Hb as [Hl Hf].
    unfold to_bytes4 in E. destruct (Z.leb_spec 0 g), (Z.ltb_spec g (2 ^ 32)); cbn in E; try done.
    unfold get_block_hash, get_group_id. rewrite length_app, Hl, Nat.add_sub.
    rewrite take_app_length, drop_app_length. done.
  - unfold to_bytes4 in E. destruct (Z.leb_spec 0 g), (Z.ltb_spec g (2 ^ 32)); cbn in E; try done;
      injection E as <-; split; try done; lia.
Qed.

Lemma make_key_inj h1 g1 h2 g2 k :
  make_block_hash_with_group_id h1 g1 = Ok k -> make_block_hash_with_group_id h2 g2 = Ok k ->
  h1 = h2 /\ g1 = g2.
Proof.
  unfold make_block_hash_with_group_id.
  destruct (to_bytes4 g1) as [b1|] eqn:E1; [|done]. destruct (to_bytes4 g2) as [b2|] eqn:E2; [|done].
  intros [= <-] [= H]. apply to_bytes4_from in E1 as [Hl1 <-], E2 as [Hl2 <-].
  apply app_inj_2 in H as [-> ->]; [done|congruence].
Qed.

(** ** Coarser block sizes *)

Lemma foldM_index_app {A} (l : list (list A)) lo n acc :
  0 <= lo -> lo + Z.of_nat n <= zlen l ->
  foldM (fun acc i => x ← py_index l i; Ok (acc ++ x)) acc (seqZ lo (Z.of_nat n))
  = Ok (acc ++ mjoin (take n (drop (Z.to_nat lo) l))).
Proof.
  unfold zlen. revert lo acc. induction n as [|n IH]; intros lo acc Hlo Hn.
  { cbn. by rewrite app_nil_r. }
  rewrite seqZ_cons by lia. cbn [foldM].
  destruct (lookup_lt_is_Some_2 l (Z.to_nat lo)) as [x Hx]; [lia|].
  rewrite py_index_nonneg, Hx by lia. cbn.
  replace (Z.pred (Z.of_nat (S n))) with (Z.of_nat n) by lia. rewrite IH by lia.
  rewrite (drop_S l x (Z.to_nat lo)) by done. rewrite <- app_assoc. do 3 f_equal.
  by replace (Z.to_nat (Z.succ lo)) with (S (Z.to_nat lo)) by lia.
Qed.

Lemma bhl_get_value_spec b idx :
  0 < scale_factor b -> 0 <= idx < bhl_len b ->
  bhl_get_value_at b idx =
  Ok (mjoin (take (Z.to_nat (scale_factor b)) (drop (Z.to_nat (idx * scale_factor b)) (bhl_hashes b)))).
Proof.
  unfold bhl_len, bhl_get_value_at, py_range. intros Hs Hi. set (s := scale_factor b) in *.
  assert (Hb : idx * s + s <= zlen (bhl_hashes b)).
  { pose proof (Z.mul_div_le (zlen (bhl_hashes b)) s Hs). nia. }
  unfold zlen in Hb. assert (0 <= idx * s) by nia.
  destruct (lookup_lt_is_Some_2 (bhl_hashes b) (Z.to_nat (idx * s))) as [x Hx]; [lia|].
  rewrite py_index_nonneg, Hx by lia. cbn.
  replace (idx * s + s - (idx * s + 1)) with (Z.of_nat (Z.to_nat s - 1)) by lia.
  rewrite foldM_index_app by (unfold zlen; lia).
  rewrite (drop_S _ x (Z.to_nat (idx * s))) by done.
  replace (Z.to_nat s) with (S (Z.to_nat s - 1)) at 2 by lia. cbn [take mjoin list_join].
  by replace (Z.to_nat (idx * s + 1)) with (S (Z.to_nat (idx * s))) by lia.
Qed.

(** When the group's block size is a multiple of the hash block size, the view
    [BlockHashListWithBlockSize] has one entry per full group block, and reading any
    of them in range succeeds and returns the concatenation of the consecutive
    fine-grained hashes it covers. *)
Theorem block_hash_list_scaled hs hash_bs target_bs :
  0 < hash_bs -> 0 < target_bs -> target_bs mod hash_bs = 0 ->
  exists b, bhl_init hs hash_bs target_bs = Ok b /\
    bhl_len b = zlen hs / (target_bs / hash_bs) /\
    forall idx, 0 <= idx < bhl_len b ->
      bhl_get_value_at b idx =
      Ok (mjoin (take (Z.to_nat (target_bs / hash_bs))
                      (drop (Z.to_nat (idx * (target_bs / hash_bs))) hs))).
Proof.
  intros Hh Ht Hm. unfold bhl_init. rewrite (proj2 (Z.eqb_neq hash_bs 0)), Hm by lia. cbn.
  eexists. split; [done|]. split; [done|]. intros idx Hi. rewrite bhl_get_value_spec; [done| |done].
  cbn. pose proof (Z.div_mod target_bs hash_bs ltac:(lia)). nia.
Qed.

Lemma block_hash_list_scaled_witness :
  exists b, bhl_init [[1]; [2]; [3]; [4]; [5]] 16 32 = Ok b /\ bhl_len b = 2 /\
            bhl_get_value_at b 1 = Ok [3; 4].
Proof.
  destruct (block_hash_list_scaled [[1]; [2]; [3]; [4]; [5]] 16 32) as (b & Hb & Hl & Hv); [lia..|done|].
  exists b. split; [done|]. split; [done|]. rewrite Hv; [done|]. rewrite Hl. by vm_compute.
Defined.

(** ** The hash chain of a request *)

Section HashChain.
Context (hash_fn : bytes * list Z * option (list hkey) -> bytes) (NONE_HASH : bytes).
Implicit Types (r : Request) (bs : Z).

(** The tokens of block [i]. *)
Definition block_tokens r bs (i : nat) : list Z :=
  py_slice (all_token_ids r) (Z.of_nat i * bs) (Z.of_nat i * bs + bs).

(** The extra keys of the block [s, e) of a request without multi-modal inputs. *)
Definition text_keys r (s e : Z) : option (list hkey) :=
  keys_or_none (gen_lora_extra_hash_keys r ++ cache_salt_keys r s ++
    match prompt_embeds r with None => [] | Some pe => [inr (pe_digest pe s e)] end).
Definition block_keys r bs (i : nat) : option (list hkey) :=
  text_keys r (Z.of_nat i * bs) (Z.of_nat i * bs + bs).

(** Reference definition: the hash of block [i] from scratch. *)
Fixpoint chain_hash r bs (i : nat) : bytes :=
  hash_block_tokens hash_fn NONE_HASH
    (match i with O => None | S j => Some (chain_hash r bs j) end)
    (block_tokens r bs i) (block_keys r bs i).

Definition num_full_blocks r bs : nat := Z.to_nat (num_tokens r / bs).

(** The memo table only holds digests of the request's own slices. *)
Definition memo_ok r : Prop :=
  forall s e d, embeds_hashes r !! (s, e) = Some d ->
    exists pe, prompt_embeds r = Some pe /\ d = pe_digest pe s e.

(** The hash list of a request is the chain of all its full blocks. *)
Definition hashes_ok r bs : Prop :=
  block_hashes r = chain_hash r bs <$> seq 0 (num_full_blocks r bs) /\ memo_ok r.

Lemma chain_hash_ext r r' bs i :
  (forall j, (j <= i)%nat -> block_tokens r bs j = block_tokens r' bs j) ->
  lora_request r = lora_request r' -> cache_salt r = cache_salt r' ->
  prompt_embeds r = prompt_embeds r' -> chain_hash r bs i = chain_hash r' bs i.
Proof.
  intros Ht Hl Hs He.
  assert (Hk : forall j, block_keys r bs j = block_keys r' bs j).
  { intros j. unfold block_keys, text_keys, gen_lora_extra_hash_keys, cache_salt_keys.
    by rewrite Hl, Hs, He. }
  induction i as [|i IH]; cbn; rewrite Ht, Hk by lia; [done|].
  rewrite IH by (intros; apply Ht; lia). done.
Qed.

Lemma generate_keys_text r s e idx :
  mm_features r = [] -> memo_ok r ->
  exists memo, generate_block_hash_extra_keys r s e idx = Ok (text_keys r s e, idx, memo) /\
    memo_ok (set_embeds_hashes memo r).
Proof.
  intros Hmm Hmemo.
  unfold generate_block_hash_extra_keys, gen_mm_extra_hash_keys. rewrite Hmm. cbn.
  unfold gen_prompt_embeds_extra_hash_keys, text_keys.
  destruct (prompt_embeds r) as [pe|] eqn:Hpe; [|by eexists].
  destruct (embeds_hashes r !! (s, e)) as [d|] eqn:Hd.
  - destruct (Hmemo s e d Hd) as (pe' & Hpe' & ->). simplify_eq. by eexists.
  - eexists. split; [done|]. intros s' e' d. cbn. rewrite lookup_insert_Some.
    intros [[[= -> ->] <-]|[_ H]]; [eauto|]. by apply Hmemo in H.
Qed.

Lemma hasher_loop_text fuel r bs i acc idx :
  0 < bs -> mm_features r = [] -> memo_ok r -> (i <= num_full_blocks r bs < i + fuel)%nat ->
  exists memo,
    hasher_loop hash_fn NONE_HASH fuel r bs (Z.of_nat i * bs)
      (match i with O => None | S j => Some (chain_hash r bs j) end) idx acc
    = Ok (acc ++ (chain_hash r bs <$> seq i (num_full_blocks r bs - i)), memo) /\
    memo_ok (set_embeds_hashes memo r).
Proof.
  intros Hbs. revert r i acc idx. induction fuel as [|fuel IH]; intros r i acc idx Hmm Hmemo Hi; [lia|].
  cbn [hasher_loop]. unfold num_full_blocks in *.
  pose proof (Z.mul_div_le (num_tokens r) bs Hbs).
  pose proof (Z.mul_succ_div_gt (num_tokens r) bs Hbs).
  destruct (Z.ltb_spec (num_tokens r) (Z.of_nat i * bs + bs)) as [Hlt|Hge].
  - exists (embeds_hashes r). replace (Z.to_nat (num_tokens r / bs) - i)%nat with 0%nat by nia.
    cbn. rewrite app_nil_r. done.
  - destruct (generate_keys_text r (Z.of_nat i * bs) (Z.of_nat i * bs + bs) idx)
      as (memo & -> & Hm'); [done..|]. cbn [mbind result_bind].
    assert (He : forall j, chain_hash (set_embeds_hashes memo r) bs j = chain_hash r bs j)
      by (intros; by apply chain_hash_ext).
    destruct (IH (set_embeds_hashes memo r) (S i) (acc ++ [chain_hash r bs i]) idx)
      as (memo' & Hloop & Hok); [done..|change (num_tokens (set_embeds_hashes memo r)) with (num_tokens r); nia|].
    exists memo'. split; [|done]. rewrite He in Hloop.
    replace (Z.of_nat (S i) * bs) with (Z.of_nat i * bs + bs) in Hloop by lia.
    change (num_tokens (set_embeds_hashes memo r)) with (num_tokens r) in Hloop.
    replace (Z.to_nat (num_tokens r / bs) - i)%nat with (S (Z.to_nat (num_tokens r / bs) - S i)) by nia.
    assert (Hext : forall l, chain_hash (set_embeds_hashes memo r) bs <$> l = chain_hash r bs <$> l)
      by (intros l; apply list_fmap_ext; intros; apply He).
    rewrite Hext, <- app_assoc in Hloop. etrans; [|exact Hloop]. f_equal; by destruct i.
Qed.

Lemma request_block_hasher_text r bs k :
  0 < bs -> mm_features r = [] -> memo_ok r ->
  block_hashes r = chain_hash r bs <$> seq 0 k -> (k <= num_full_blocks r bs)%nat ->
  exists memo,
    request_block_hasher hash_fn NONE_HASH bs r
    = Ok (chain_hash r bs <$> seq k (num_full_blocks r bs - k), memo) /\
    memo_ok (set_embeds_hashes memo r).
Proof.
  intros Hbs Hmm Hmemo Hh Hk. unfold request_block_hasher.
  assert (Hlen : zlen (block_hashes r) = Z.of_nat k).
  { unfold zlen. by rewrite Hh, length_fmap, length_seq. }
  rewrite Hlen. unfold num_full_blocks in *.
  pose proof (Z.mul_div_le (num_tokens r) bs Hbs).
  pose proof (Z.mul_succ_div_gt (num_tokens r) bs Hbs).
  assert (0 <= num_tokens r) by (unfold num_tokens, zlen; lia).
  assert (num_tokens r / bs <= num_tokens r) by (apply Z.div_le_upper_bound; nia).
  destruct (Z.ltb_spec (num_tokens r) (Z.of_nat k * bs + bs)) as [Hlt|Hge].
  - exists (embeds_hashes r). by replace (Z.to_nat (num_tokens r / bs) - k)%nat with 0%nat by nia.
  - destruct (hasher_loop_text (S (Z.to_nat (num_tokens r))) r bs k []
      (if 0 <? Z.of_nat k * bs then -1 else 0)) as (memo & Hl & Hok); [done..| |].
    { unfold num_full_blocks. pose proof (Z.div_pos (num_tokens r) bs). lia. }
    exists memo. split; [|done]. cbn [app] in Hl. unfold num_full_blocks in Hl. rewrite <- Hl. f_equal.
    rewrite Hh. destruct k as [|k]; [done|]. rewrite seq_S, fmap_app. apply last_snoc.
Qed.

(** Appending tokens keeps the hashes of the blocks that were already full. *)
Lemma block_tokens_app r r' bs i toks :
  0 < bs -> all_token_ids r' = all_token_ids r ++ toks -> (i < num_full_blocks r bs)%nat ->
  block_tokens r' bs i = block_tokens r bs i.
Proof.
  unfold num_full_blocks, block_tokens, py_slice, num_tokens, zlen. intros Hbs -> Hi.
  pose proof (Z.mul_div_le (Z.of_nat (length (all_token_ids r))) bs Hbs).
  rewrite take_app_le; [done|]. nia.
Qed.

Lemma update_hashes_ok r r0 bs toks :
  0 < bs -> mm_features r = [] -> hashes_ok r0 bs ->
  all_token_ids r = all_token_ids r0 ++ toks -> block_hashes r = block_hashes r0 ->
  lora_request r = lora_request r0 -> cache_salt r = cache_salt r0 ->
  prompt_embeds r = prompt_embeds r0 -> embeds_hashes r = embeds_hashes r0 ->
  exists r', update_block_hashes (Some (request_block_hasher hash_fn NONE_HASH bs)) r = Ok r' /\
    hashes_ok r' bs /\ all_token_ids r' = all_token_ids r /\ mm_features r' = mm_features r.
Proof.
  intros Hbs Hmm [Hh Hm] Htok Hbh Hl Hs He Heh.
  set (k := num_full_blocks r0 bs) in *.
  assert (Hk : (k <= num_full_blocks r bs)%nat).
  { subst k. unfold num_full_blocks, num_tokens, zlen. rewrite Htok, length_app.
    apply Z2Nat.inj_le; [apply Z.div_pos; lia|apply Z.div_pos; lia|apply Z.div_le_mono; lia]. }
  assert (Hbh' : block_hashes r = chain_hash r bs <$> seq 0 k).
  { rewrite Hbh, Hh. apply list_fmap_ext. intros ? i Hi. apply lookup_seq in Hi as [-> Hi].
    apply chain_hash_ext; try done. intros j Hj. symmetry. eapply block_tokens_app; [done..|].
    subst k. lia. }
  destruct (request_block_hasher_text r bs k) as (memo & Hr & Hok); try done.
  { unfold memo_ok. rewrite He, Heh. done. }
  unfold update_block_hashes. rewrite Hr. cbn. eexists. split; [done|]. split; [|done]. split; [|done].
  cbn [block_hashes set_embeds_hashes set_block_hashes]. rewrite Hbh', <- fmap_app, <- seq_app.
  replace (k + (num_full_blocks r bs - k))%nat with (num_full_blocks r bs) by lia.
  apply list_fmap_ext. intros. by apply chain_hash_ext.
Qed.
End HashChain.

(** ** Properties of the hash chain *)

(** For a request without multi-modal inputs, the incremental hashing done by
    [append_output_token_ids] never raises, and the hash list always equals the
    chain computed from scratch over all the full blocks the request has by then,
    however the generated tokens were split over calls. *)
Theorem append_tokens_rehash hash_fn NONE_HASH bs r toks :
  0 < bs -> mm_features r = [] -> hashes_ok hash_fn NONE_HASH r bs ->
  exists r', append_output_token_ids (Some (request_block_hasher hash_fn NONE_HASH bs)) toks r = Ok r' /\
    all_token_ids r' = all_token_ids r ++ toks /\
    hashes_ok hash_fn NONE_HASH r' bs.
Proof.
  intros Hbs Hmm Hok. unfold append_output_token_ids.
  destruct (update_hashes_ok hash_fn NONE_HASH
    (set_all_token_ids (all_token_ids r ++ toks) (set_output_token_ids (output_token_ids r ++ toks) r))
    r bs toks) as (r' & Hr & Hok' & Ht & _); try done.
  exists r'. done.
Qed.

Section PrefixSoundness.
Context (hash_fn : bytes * list Z * option (list hkey) -> bytes) (NONE_HASH : bytes).
(** Documented behaviour relied on: the hash function does not collide, and its
    digests are neither empty nor the seed of the first block. *)
Hypothesis hash_fn_inj : forall x y, hash_fn x = hash_fn y -> x = y.
Hypothesis hash_fn_digest : forall x, hash_fn x <> NONE_HASH /\ hash_fn x <> [].

Lemma chain_hash_not_seed r bs i :
  chain_hash hash_fn NONE_HASH r bs i <> NONE_HASH /\ chain_hash hash_fn NONE_HASH r bs i <> [].
Proof. destruct i; apply hash_fn_digest. Qed.

Lemma chain_hash_inj bs r1 r2 i j :
  chain_hash hash_fn NONE_HASH r1 bs i = chain_hash hash_fn NONE_HASH r2 bs j ->
  i = j /\ forall k, (k <= i)%nat ->
    block_tokens r1 bs k = block_tokens r2 bs k /\ block_keys r1 bs k = block_keys r2 bs k.
Proof.
  revert j. induction i as [|i IH]; intros [|j] H; cbn in H; unfold hash_block_tokens in H;
    apply hash_fn_inj in H; apply pair_equal_spec in H as [[Hp Ht]%pair_equal_spec Hk].
  - split; [done|]. intros k Hle. replace k with 0%nat by lia. done.
  - destruct (chain_hash_not_seed r2 bs j) as [H1 H2]. destruct (chain_hash _ _ r2 bs j); congruence.
  - destruct (chain_hash_not_seed r1 bs i) as [H1 H2]. destruct (chain_hash _ _ r1 bs i); congruence.
  - assert (Hij : chain_hash hash_fn NONE_HASH r1 bs i = chain_hash hash_fn NONE_HASH r2 bs j).
    { destruct (chain_hash_not_seed r1 bs i), (chain_hash_not_seed r2 bs j).
      destruct (chain_hash _ _ r1 bs i), (chain_hash _ _ r2 bs j); congruence. }
    apply IH in Hij as [-> Hall]. split; [done|]. intros k Hle.
    destruct (decide (k = S j)) as [->|]; [done|apply Hall; lia].
Qed.

Lemma slices_prefix (l1 l2 : list Z) (bs : nat) n :
  (forall k, (k < n)%nat -> take bs (drop (k * bs) l1) = take bs (drop (k * bs) l2)) ->
  take (n * bs) l1 = take (n * bs) l2.
Proof.
  induction n as [|n IH]; intros H; [done|]. cbn. rewrite Nat.add_comm.
  rewrite <- !take_take_drop. rewrite IH by (intros; apply H; lia). by rewrite H by lia.
Qed.

(** The requests that the code builds: [Request.__init__] without multi-modal inputs, and then
    [append_output_token_ids] any number of times. *)
Inductive hashed (bs : Z) : Request -> Prop :=
| hashed_new rid oid ci prio now arrival toks sp pp embeds lora salt resum r :
    new_request (Some (request_block_hasher hash_fn NONE_HASH bs)) rid oid ci prio now arrival toks sp pp embeds [] lora salt resum = Ok r -> hashed bs r
| hashed_append toks r r' : hashed bs r -> append_output_token_ids (Some (request_block_hasher hash_fn NONE_HASH bs)) toks r = Ok r' -> hashed bs r'.

Lemma hashed_ok bs r : 0 < bs -> hashed bs r -> mm_features r = [] /\ hashes_ok hash_fn NONE_HASH r bs.
Proof.
  intros Hbs. induction 1 as [rid oid ci prio now arrival toks sp pp embeds lora salt resum r E|toks r r' _ [Hmm Hok] E].
  - unfold new_request in E. destruct (match pp with Some _ => _ | None => _ end) as [[st mt]|]; cbn [mbind result_bind] in E; [|done].
    destruct (length_from_prompt_token_ids_or_embeds toks embeds) as [np|]; cbn [mbind result_bind] in E; [|done].
    match type of E with update_block_hashes _ ?x = _ => set (r1 := x) in * end.
    destruct (update_hashes_ok hash_fn NONE_HASH r1 (set_all_token_ids [] r1) bs (all_token_ids r1)) as (r' & E' & Hok & _ & Hmm); [done..|].
    rewrite E in E'. injection E' as <-. by split; [rewrite Hmm|].
  - unfold append_output_token_ids in E. match type of E with update_block_hashes _ ?x = _ => set (r0 := x) in * end.
    destruct (update_hashes_ok hash_fn NONE_HASH r0 r bs toks) as (r1 & E1 & Hok1 & _ & Hmm1); [done..|].
    rewrite E1 in E. injection E as ->. by split; [rewrite Hmm1|].
Qed.
Lemma hashes_length bs r : 0 < bs -> hashes_ok hash_fn NONE_HASH r bs -> zlen (block_hashes r) = num_tokens r / bs.
Proof.
  intros Hbs [-> _]. unfold zlen, num_full_blocks. rewrite length_fmap, length_seq. pose proof (Z.div_pos (num_tokens r) bs). unfold num_tokens, zlen in *. lia.
Qed.
Lemma hashes_lookup bs r i h : hashes_ok hash_fn NONE_HASH r bs -> block_hashes r !! i = Some h -> h = chain_hash hash_fn NONE_HASH r bs i /\ (i < num_full_blocks r bs)%nat.
Proof.
  intros [-> _]. rewrite list_lookup_fmap. destruct (seq 0 _ !! i) as [i'|] eqn:E; [|done]. apply lookup_seq in E as [-> Hi]. by intros [= <-].
Qed.
Lemma block_tokens_slice bs r k : 0 < bs -> block_tokens r bs k = take (Z.to_nat bs) (drop (k * Z.to_nat bs) (all_token_ids r)).
Proof.
  intros Hbs. unfold block_tokens, py_slice. rewrite skipn_firstn_comm. replace (Z.to_nat (Z.of_nat k * bs + bs) - Z.to_nat (Z.of_nat k * bs))%nat with (Z.to_nat bs) by nia.
  by replace (Z.to_nat (Z.of_nat k * bs)) with (k * Z.to_nat bs)%nat by nia.
Qed.
Lemma prefix_slices (l1 l2 : list Z) (bs n k : nat) : take (n * bs) l1 = take (n * bs) l2 -> (k < n)%nat -> take bs (drop (k * bs) l1) = take bs (drop (k * bs) l2).
Proof.
  intros H Hk. rewrite !take_drop_commute. f_equal. apply (f_equal (take (k * bs + bs))) in H. rewrite !take_take in H. rewrite Nat.min_l in H by nia. exact H.
Qed.
Lemma chain_hash_agree bs r1 r2 i : (forall k, (k <= i)%nat -> block_tokens r1 bs k = block_tokens r2 bs k /\ block_keys r1 bs k = block_keys r2 bs k) ->
  chain_hash hash_fn NONE_HASH r1 bs i = chain_hash hash_fn NONE_HASH r2 bs i.
Proof.
  induction i as [|i IH]; intros H; cbn; [by destruct (H 0%nat) as [-> ->]|]. destruct (H (S i)) as [-> ->]; [lia|]. rewrite IH; [done|]. intros k Hk. apply H. lia.
Qed.

(** C8: Prefix-cache soundness and completeness. Take two requests without multi-modal inputs
    as the code builds them, hashed when they are made and again whenever tokens are appended,
    however many at a time. Each has a hash for just its full blocks; and if the hash function
    does not collide, a hash of one is a hash of the other exactly when it belongs to the same
    index in both, and all their tokens up to the end of that block and the extra keys (LoRA
    name, salt, embeddings) of every block up to it agree. *)
Theorem prefix_hash_sound bs r1 r2 : 0 < bs -> hashed bs r1 -> hashed bs r2 ->
  zlen (block_hashes r1) = num_tokens r1 / bs /\ zlen (block_hashes r2) = num_tokens r2 / bs /\
  forall i j h1 h2, block_hashes r1 !! i = Some h1 -> block_hashes r2 !! j = Some h2 ->
    (h1 = h2 <->
     i = j /\ take (S i * Z.to_nat bs) (all_token_ids r1) = take (S i * Z.to_nat bs) (all_token_ids r2) /\
     forall k, (k <= i)%nat -> block_keys r1 bs k = block_keys r2 bs k).
Proof.
  intros Hbs [_ H1]%hashed_ok [_ H2]%hashed_ok; [|done|done]. split; [by apply hashes_length|split; [by apply hashes_length|]]. intros i j h1 h2 Hi Hj.
  destruct (hashes_lookup bs r1 i h1 H1 Hi) as [-> _]. destruct (hashes_lookup bs r2 j h2 H2 Hj) as [-> _]. split.
  - intros [-> Hall]%chain_hash_inj. split; [done|]. split; [|intros; by apply Hall]. apply (slices_prefix _ _ _ (S j)). intros k Hk. rewrite <- !block_tokens_slice by done. apply Hall. lia.
  - intros (<- & Ht & Hk). apply chain_hash_agree. intros k Hle. split; [|by apply Hk]. rewrite !block_tokens_slice by done. eapply prefix_slices; [exact Ht|lia].
Qed.
End PrefixSoundness.

(** A concrete collision-free hash function: the countable encoding of the
    hashed tuple as one positive integer. *)
Definition enc_hash (x : bytes * list Z * option (list hkey)) : bytes := [Zpos (encode x)].
Definition enc_none : bytes := [0].

Lemma enc_hash_inj x y : enc_hash x = enc_hash y -> x = y.
Proof. intros [= H]. by apply encode_inj in H. Qed.

Lemma enc_hash_digest x : enc_hash x <> enc_none /\ enc_hash x <> [].
Proof. done. Qed.

(** A text request over [toks], hashed at block size [bs] by [__init__]. *)
Definition named_request (id : string) (bs : Z) (toks : list Z) : Request :=
  let r := mkRequest id 1 0 0 5 None None None false WAITING None 8 (Some toks) None ∅ (zlen toks)
             [] toks 0 false [] 0 None [] (-1) false 0 0 [] false false in
  match update_block_hashes (Some (request_block_hasher enc_hash enc_none bs)) r with
  | Ok r' => r'
  | Err _ => r
  end.

Definition text_request (bs : Z) (toks : list Z) : Request := named_request "r" bs toks.

Lemma named_request_ok id bs toks : 0 < bs -> hashes_ok enc_hash enc_none (named_request id bs toks) bs.
Proof.
  intros Hbs. unfold named_request.
  set (r0 := mkRequest id 1 0 0 5 None None None false WAITING None 8 (Some toks) None ∅ (zlen toks)
             [] [] 0 false [] 0 None [] (-1) false 0 0 [] false false).
  set (r := mkRequest _ _ _ _ _ _ _ _ _ _ _ _ _ _ _ _ _ _ _ _ _ _ _ _ _ _ _ _ _ _ _).
  destruct (update_hashes_ok enc_hash enc_none r r0 bs toks) as (r' & -> & ? & _); done.
Qed.

Lemma text_request_ok bs toks : 0 < bs -> hashes_ok enc_hash enc_none (text_request bs toks) bs.
Proof. apply named_request_ok. Qed.

(** The same from [Request.__init__], with the tokens appended in some steps. *)
Definition built_request (bs : Z) (prompt : list Z) (outs : list (list Z)) : result Request :=
  r ← new_request (Some (request_block_hasher enc_hash enc_none bs)) "r" 1 0 0 5 None (Some prompt) None (Some (mkPooling None)) None [] None None false;
  foldM (fun r toks => append_output_token_ids (Some (request_block_hasher enc_hash enc_none bs)) toks r) r outs.
Lemma built_hashed bs prompt outs r : built_request bs prompt outs = Ok r -> hashed enc_hash enc_none bs r.
Proof.
  unfold built_request. destruct (new_request _ _ _ _ _ _ _ _ _ _ _ _ _ _ _) as [r0|] eqn:E; cbn [mbind result_bind]; [|done]. apply hashed_new in E. clear prompt. revert r0 E.
  induction outs as [|toks outs IH]; intros r0 H0; cbn [foldM]; [by intros [= <-]|]. destruct (append_output_token_ids _ toks r0) as [r1|] eqn:E1; cbn [mbind result_bind]; [|done]. apply IH. by eapply hashed_append.
Qed.
Definition request_from (x : result Request) : Request := match x with Ok r => r | Err _ => text_request 1 [] end.
Definition demo_decoded : Request := request_from (built_request 2 [1; 2; 3] [[4]; [5]]).
Definition demo_prompted : Request := request_from (built_request 2 [1; 2; 3; 4; 9; 9] []).
Lemma demo_decoded_hashed : hashed enc_hash enc_none 2 demo_decoded.
Proof. apply (built_hashed 2 [1; 2; 3] [[4]; [5]]). unfold demo_decoded. destruct (built_request _ _ _) eqn:E; [done|]. vm_compute in E. discriminate. Qed.
Lemma demo_prompted_hashed : hashed enc_hash enc_none 2 demo_prompted.
Proof. apply (built_hashed 2 [1; 2; 3; 4; 9; 9] []). unfold demo_prompted. destruct (built_request _ _ _) eqn:E; [done|]. vm_compute in E. discriminate. Qed.

Lemma prefix_hash_sound_witness :
  length (block_hashes demo_decoded) = 2%nat /\ length (block_hashes demo_prompted) = 3%nat /\
  exists h, block_hashes demo_decoded !! 1%nat = Some h /\ block_hashes demo_prompted !! 1%nat = Some h /\
    take 4 (all_token_ids demo_decoded) = take 4 (all_token_ids demo_prompted).
Proof.
  destruct (prefix_hash_sound enc_hash enc_none enc_hash_inj enc_hash_digest 2 demo_decoded demo_prompted) as (L1 & L2 & H); [lia|apply demo_decoded_hashed|apply demo_prompted_hashed|].
  split; [by vm_compute|]. split; [by vm_compute|]. eexists. split; [vm_compute; reflexivity|]. split; [vm_compute; reflexivity|].
  by apply (H 1%nat 1%nat _ _ eq_refl eq_refl).
Defined.

Lemma append_tokens_rehash_witness :
  exists r', append_output_token_ids (Some (request_block_hasher enc_hash enc_none 2)) [4; 5; 6]
               (text_request 2 [1; 2; 3]) = Ok r' /\ hashes_ok enc_hash enc_none r' 2.
Proof.
  destruct (append_tokens_rehash enc_hash enc_none 2 (text_request 2 [1; 2; 3]) [4; 5; 6])
    as (r' & H & _ & Hok); [lia|by vm_compute|by apply text_request_ok|]. by exists r'.
Defined.

(** ** Two divergences the model exposes *)

(** A request whose prompt holds one image over tokens [0, 2), hashed at block
    size 2: either prompt [1; 1] then output [7; 8], or prompt [1; 1; 7; 8]. *)
Definition image_request (toks : list Z) : Request :=
  mkRequest "r" 1 0 0 5 None None None false WAITING None 8 (Some toks) None ∅ (zlen toks)
    [] toks 0 false [] 0 None [mkMM "img" (mkPlaceholder 0 2 None)] (-1) false 0 0 [] false false.
Definition image_hashes_at_once (hash_fn : bytes * list Z * option (list hkey) -> bytes)
    (none : bytes) : result (list bytes) :=
  block_hashes <$> update_block_hashes (Some (request_block_hasher hash_fn none 2))
                     (image_request [1; 1; 7; 8]).
Definition image_hashes_decoded (hash_fn : bytes * list Z * option (list hkey) -> bytes)
    (none : bytes) : result (list bytes) :=
  let f := Some (request_block_hasher hash_fn none 2) in
  r ← update_block_hashes f (image_request [1; 1]);
  r' ← append_output_token_ids f [7; 8] r;
  Ok (block_hashes r').

(** C25: With a multi-modal input that ends exactly at a block boundary, the hash of
    the next block depends on whether its tokens were generated after the prompt was
    hashed or belong to a longer prompt: the incremental path adds the image's
    identifier to the extra keys of a block that does not overlap the image, so (for
    any non-colliding hash) the same tokens get different hashes and the follow-up
    request misses the cached block. *)
Theorem multimodal_hash_depends_on_chunking hash_fn none :
  (forall x y, hash_fn x = hash_fn y -> x = y) ->
  exists h0 h1 h1', h1 <> h1' /\
    image_hashes_at_once hash_fn none = Ok [h0; h1] /\
    image_hashes_decoded hash_fn none = Ok [h0; h1'].
Proof.
  intros Hinj.
  exists (hash_block_tokens hash_fn none None [1; 1] (Some [inl "img"%string])).
  set (h0 := hash_block_tokens hash_fn none None [1; 1] (Some [inl "img"%string])).
  exists (hash_block_tokens hash_fn none (Some h0) [7; 8] None),
         (hash_block_tokens hash_fn none (Some h0) [7; 8] (Some [inl "img"%string])).
  split; [|split; reflexivity].
  clearbody h0. unfold hash_block_tokens. intros H%Hinj. discriminate H.
Qed.

Lemma multimodal_hash_depends_on_chunking_witness :
  exists h0 h1 h1', h1 <> h1' /\
    image_hashes_at_once enc_hash enc_none = Ok [h0; h1] /\
    image_hashes_decoded enc_hash enc_none = Ok [h0; h1'].
Proof. exact (multimodal_hash_depends_on_chunking enc_hash enc_none enc_hash_inj). Defined.

(** A one-block request, served by the LoRA adapter [name] or salted with [name]. *)
Definition keyed_request (lora : option LoRARequest) (salt : option string) (toks : list Z) : Request :=
  mkRequest "r" 1 0 0 5 None None lora false WAITING None 8 (Some toks) None ∅ (zlen toks)
    [] toks 0 false [] 0 salt [] (-1) false 0 0 [] false false.

(** The extra keys do not say where a string came from: a request served by a
    LoRA adapter and a base-model request whose cache salt is the adapter's name get
    the same hash for their first block, for every hash function and every tokens,
    although their KV values differ. *)
Theorem lora_salt_key_collision hash_fn none bs name id toks :
  name <> ""%string -> 0 < bs -> zlen toks = bs ->
  exists h,
    block_hashes <$> update_block_hashes (Some (request_block_hasher hash_fn none bs))
      (keyed_request (Some (mkLoRA name id)) None toks) = Ok [h] /\
    block_hashes <$> update_block_hashes (Some (request_block_hasher hash_fn none bs))
      (keyed_request None (Some name) toks) = Ok [h].
Proof.
  intros Hname Hbs Hlen.
  assert (H : forall l s, exists memo, request_block_hasher hash_fn none bs (keyed_request l s toks)
    = Ok ([chain_hash hash_fn none (keyed_request l s toks) bs 0], memo)).
  { intros l s. destruct (request_block_hasher_text hash_fn none (keyed_request l s toks) bs 0)
      as (memo & Hr & _); try done; [lia|]. exists memo.
    unfold num_full_blocks, num_tokens in Hr. cbn [all_token_ids keyed_request] in Hr.
    by rewrite Hlen, Z.div_same in Hr by lia. }
  exists (chain_hash hash_fn none (keyed_request None (Some name) toks) bs 0).
  destruct (H (Some (mkLoRA name id)) None) as [m1 H1], (H None (Some name)) as [m2 H2].
  unfold update_block_hashes. rewrite H1, H2. cbn. split; [|done].
  do 2 f_equal. unfold chain_hash, block_keys, text_keys, cache_salt_keys. cbn.
  apply String.eqb_neq in Hname. by rewrite Hname.
Qed.

Lemma lora_salt_key_collision_witness :
  exists h, block_hashes <$> update_block_hashes (Some (request_block_hasher enc_hash enc_none 2))
      (keyed_request (Some (mkLoRA "tenant" 1)) None [5; 6]) = Ok [h] /\
    block_hashes <$> update_block_hashes (Some (request_block_hasher enc_hash enc_none 2))
      (keyed_request None (Some "tenant"%string) [5; 6]) = Ok [h].
Proof. exact (lora_salt_key_collision enc_hash enc_none 2 "tenant" 1 [5; 6] ltac:(done) ltac:(lia) eq_refl). Defined.
