(* ===== verification/KVCacheSpec.v ===== *)
(** * KV cache specifications

    vllm/v1/kv_cache_interface.py: the format of the KV cache of one layer (one
    constructor per class), page sizes, the memory a request can need, merging the
    specs of a group and the uniform-type check.  A torch dtype is its name and its
    element size. [layer_spec] is a spec of one layer; a group's spec is one of them
    or a [UniformTypeKVCacheSpecs] over named layers. *)
From S2P Require Import Prelude.

Record dtype : Type := mkDtype { dtype_name : string; get_dtype_size : Z }.
#[global] Instance dtype_eq_dec : EqDecision dtype.
Proof. solve_decision. Defined.

(** The fields of [AttentionSpec] but the block size. *)
Record attn : Type := mkAttn {
  num_kv_heads : Z;
  head_size : Z;
  adtype : dtype;
  page_size_padded : option Z;
}.
#[global] Instance attn_eq_dec : EqDecision attn.
Proof. solve_decision. Defined.

(** The fields [FullAttentionSpec] adds. *)
Record full_fields : Type := mkFull {
  head_size_v : Z;
  full_sliding_window : option Z;
  full_attention_chunk_size : option Z;
}.
#[global] Instance full_fields_eq_dec : EqDecision full_fields.
Proof. solve_decision. Defined.

Inductive mamba_mode : Type := MambaNone | MambaAll | MambaAlign.
#[global] Instance mamba_mode_eq_dec : EqDecision mamba_mode.
Proof. solve_decision. Defined.

Inductive layer_spec : Type :=
  | FullAttentionSpec (bs : Z) (a : attn) (f : full_fields)
  | MLAAttentionSpec (bs : Z) (a : attn) (f : full_fields) (cache_dtype_str : option string)
  | SinkFullAttentionSpec (bs : Z) (a : attn) (f : full_fields) (sink_len : option Z)
  | ChunkedLocalAttentionSpec (bs : Z) (a : attn) (attention_chunk_size : Z)
  | SlidingWindowSpec (bs : Z) (a : attn) (sliding_window : Z)
  | MambaSpec (bs : Z) (shapes : list (list Z)) (dtypes : list dtype) (padded : option Z)
      (mamba_type : string) (mode : mamba_mode) (num_speculative_blocks : Z)
  | EncoderOnlyAttentionSpec (bs : Z) (a : attn)
  | CrossAttentionSpec (bs : Z) (a : attn).
#[global] Instance layer_spec_eq_dec : EqDecision layer_spec.
Proof. solve_decision. Defined.

Definition spec_block_size (s : layer_spec) : Z :=
  match s with
  | FullAttentionSpec bs _ _ | MLAAttentionSpec bs _ _ _ | SinkFullAttentionSpec bs _ _ _
  | ChunkedLocalAttentionSpec bs _ _ | SlidingWindowSpec bs _ _ | MambaSpec bs _ _ _ _ _ _
  | EncoderOnlyAttentionSpec bs _ | CrossAttentionSpec bs _ => bs
  end.

(** The fields [FullAttentionSpec.merge] compares, for the attention classes. *)
Definition spec_attn (s : layer_spec) : option attn :=
  match s with
  | FullAttentionSpec _ a _ | MLAAttentionSpec _ a _ _ | SinkFullAttentionSpec _ a _ _
  | ChunkedLocalAttentionSpec _ a _ | SlidingWindowSpec _ a _
  | EncoderOnlyAttentionSpec _ a | CrossAttentionSpec _ a => Some a
  | MambaSpec _ _ _ _ _ _ _ => None
  end.

(** [isinstance(spec, FullAttentionSpec)] with its fields, and the other tests. *)
Definition as_full (s : layer_spec) : option (Z * attn * full_fields) :=
  match s with
  | FullAttentionSpec bs a f | MLAAttentionSpec bs a f _ | SinkFullAttentionSpec bs a f _ => Some (bs, a, f)
  | _ => None
  end.
Definition is_mla (s : layer_spec) : bool := match s with MLAAttentionSpec _ _ _ _ => true | _ => false end.
Definition is_mamba (s : layer_spec) : bool := match s with MambaSpec _ _ _ _ _ _ _ => true | _ => false end.

(** ** Page sizes *)

(** [real_page_size_bytes]: the base class, and its overrides. *)
Definition attn_real_page_size (bs : Z) (a : attn) : Z :=
  2 * bs * num_kv_heads a * head_size a * get_dtype_size (adtype a).
Definition full_real_page_size (bs : Z) (a : attn) (f : full_fields) : Z :=
  bs * num_kv_heads a * (head_size a + head_size_v f) * get_dtype_size (adtype a).
Definition mla_real_page_size (bs : Z) (a : attn) (cache_dtype_str : option string) : Z :=
  if decide (cache_dtype_str = Some "fp8_ds_mla") then bs * 656
  else bs * num_kv_heads a * head_size a * get_dtype_size (adtype a).
(** The state sizes of [MambaSpec.page_size_bytes]. *)
Definition mamba_real_page_size (shapes : list (list Z)) (dtypes : list dtype) : Z :=
  foldr (fun '(sh, d) acc => foldr Z.mul 1 sh * get_dtype_size d + acc) 0 (zip shapes dtypes).

Definition real_page_size_bytes (s : layer_spec) : Z :=
  match s with
  | FullAttentionSpec bs a f | SinkFullAttentionSpec bs a f _ => full_real_page_size bs a f
  | MLAAttentionSpec bs a f c => mla_real_page_size bs a c
  | ChunkedLocalAttentionSpec bs a _ | SlidingWindowSpec bs a _
  | EncoderOnlyAttentionSpec bs a | CrossAttentionSpec bs a => attn_real_page_size bs a
  | MambaSpec _ shapes dtypes _ _ _ _ => mamba_real_page_size shapes dtypes
  end.

Definition spec_padded (s : layer_spec) : option Z :=
  match s with
  | MambaSpec _ _ _ padded _ _ _ => padded
  | FullAttentionSpec _ a _ | MLAAttentionSpec _ a _ _ | SinkFullAttentionSpec _ a _ _
  | ChunkedLocalAttentionSpec _ a _ | SlidingWindowSpec _ a _
  | EncoderOnlyAttentionSpec _ a | CrossAttentionSpec _ a => page_size_padded a
  end.

(** [page_size_bytes]. *)
Definition page_size_bytes (s : layer_spec) : result Z :=
  match spec_padded s with
  | Some p => _ ← py_assert (real_page_size_bytes s <=? p); Ok p
  | None => Ok (real_page_size_bytes s)
  end.

(** ** The memory a request can need *)

(** The fields of [VllmConfig] these functions read. *)
Record VllmConfig : Type := mkConfig {
  max_model_len : Z;
  dcp_world_size : Z;
  pcp_world_size : Z;
  max_num_batched_tokens : Z;
  max_num_encoder_input_tokens : Z;
  cfg_mamba_cache_mode : mamba_mode;
}.

(** [max_memory_usage_bytes] of each class: the number of pages it multiplies the
    page size by. *)
Definition full_max_pages (c : VllmConfig) (bs : Z) : Z :=
  let cp := dcp_world_size c * pcp_world_size c in
  cdiv (if 1 <? cp then cdiv (max_model_len c) cp else max_model_len c) bs.
Definition chunked_max_pages (c : VllmConfig) (bs chunk : Z) : Z :=
  cdiv (Z.min (chunk + max_num_batched_tokens c) (max_model_len c)) bs.
Definition sliding_max_pages (c : VllmConfig) (bs window : Z) : result Z :=
  _ ← py_assert (dcp_world_size c =? 1);
  Ok (cdiv (Z.min (window - 1 + max_num_batched_tokens c) (max_model_len c)) bs + 1).
Definition mamba_max_pages (c : VllmConfig) (bs nspec : Z) : Z :=
  match cfg_mamba_cache_mode c with
  | MambaAll => cdiv (max_model_len c) bs
  | MambaAlign => 2 + nspec
  | MambaNone => 1 + nspec
  end.
Definition cross_max_pages (c : VllmConfig) (bs : Z) : Z := cdiv (max_num_encoder_input_tokens c) bs.

Definition max_num_pages (c : VllmConfig) (s : layer_spec) : result Z :=
  match s with
  | FullAttentionSpec bs _ _ | MLAAttentionSpec bs _ _ _ | SinkFullAttentionSpec bs _ _ _ =>
      Ok (full_max_pages c bs)
  | ChunkedLocalAttentionSpec bs _ chunk => Ok (chunked_max_pages c bs chunk)
  | SlidingWindowSpec bs _ window => sliding_max_pages c bs window
  | MambaSpec bs _ _ _ _ _ nspec => Ok (mamba_max_pages c bs nspec)
  | EncoderOnlyAttentionSpec _ _ => Ok 0
  | CrossAttentionSpec bs _ => Ok (cross_max_pages c bs)
  end.

(** [spec.max_memory_usage_bytes(vllm_config)]; an encoder-only layer answers 0
    without reading its page size. *)
Definition spec_max_memory_usage_bytes (c : VllmConfig) (s : layer_spec) : result Z :=
  match s with
  | EncoderOnlyAttentionSpec _ _ => Ok 0
  | _ => n ← max_num_pages c s; p ← page_size_bytes s; Ok (n * p)
  end.

(** [copy_with_new_block_size]. *)
Definition copy_with_new_block_size (bs : Z) (s : layer_spec) : layer_spec :=
  match s with
  | FullAttentionSpec _ a f => FullAttentionSpec bs a f
  | MLAAttentionSpec _ a f c => MLAAttentionSpec bs a f c
  | SinkFullAttentionSpec _ a f k => SinkFullAttentionSpec bs a f k
  | ChunkedLocalAttentionSpec _ a k => ChunkedLocalAttentionSpec bs a k
  | SlidingWindowSpec _ a w => SlidingWindowSpec bs a w
  | MambaSpec _ sh d p t m n => MambaSpec bs sh d p t m n
  | EncoderOnlyAttentionSpec _ a => EncoderOnlyAttentionSpec bs a
  | CrossAttentionSpec _ a => CrossAttentionSpec bs a
  end.

(** ** Merging the specs of a group *)

(** [merge_window_sizes] on the set of the given values. *)
Definition merge_window_sizes (ws : list Z) : result (option Z) :=
  match remove_dups ws with
  | [] => Ok None
  | [w] => Ok (Some w)
  | _ => Err ValueError
  end.

(** The common part of [FullAttentionSpec.merge] and [SinkFullAttentionSpec.merge]. *)
Definition merge_full (specs : list layer_spec) : result (Z * attn * full_fields) :=
  fulls ← foldM (fun acc s => x ← of_option AssertionError (as_full s); Ok (acc ++ [x])) [] specs;
  _ ← py_assert (negb (existsb is_mla specs));
  match fulls with
  | [] => Err IndexError
  | (bs, a, f) :: _ =>
      sw ← merge_window_sizes (omap (fun x => full_sliding_window x.2) fulls);
      ck ← merge_window_sizes (omap (fun x => full_attention_chunk_size x.2) fulls);
      _ ← py_assert (forallb (fun x => bool_decide (x.1 = (bs, a))) fulls);
      _ ← py_assert (negb (bool_decide (is_Some sw) && bool_decide (is_Some ck)));
      Ok (bs, a, mkFull (head_size_v f) sw ck)
  end.

(** [MLAAttentionSpec.merge]. *)
Definition mla_merge (bs : Z) (a : attn) (c : option string) (specs : list layer_spec) : result layer_spec :=
  _ ← py_assert (forallb is_mla specs);
  _ ← py_assert (forallb (fun s => match s with
                                   | MLAAttentionSpec _ _ _ c' => bool_decide (c' = c)
                                   | _ => false end) specs);
  Ok (MLAAttentionSpec bs a (mkFull (head_size a) None None) c).

(** [KVCacheSpec.merge]. *)
Definition base_merge (s : layer_spec) (rest : list layer_spec) : result layer_spec :=
  _ ← py_assert (forallb (fun s' => bool_decide (s' = s)) rest); Ok s.

(** [specs[0].merge(specs)]. *)
Definition merge_specs (specs : list layer_spec) : result layer_spec :=
  match specs with
  | [] => Err IndexError
  | FullAttentionSpec _ _ _ :: _ => '(bs, a, f) ← merge_full specs; Ok (FullAttentionSpec bs a f)
  | SinkFullAttentionSpec _ _ _ k :: _ => '(bs, a, f) ← merge_full specs; Ok (SinkFullAttentionSpec bs a f k)
  | MLAAttentionSpec bs a _ c :: _ => mla_merge bs a c specs
  | s :: rest => base_merge s rest
  end.

(** ** Uniform types *)

(** The test of one layer against the first in [is_uniform_type]. *)
Definition same_type (one s : layer_spec) : result bool :=
  match one with
  | FullAttentionSpec _ _ _ | MLAAttentionSpec _ _ _ _ | SinkFullAttentionSpec _ _ _ _ =>
      Ok (bool_decide (is_Some (as_full s)))
  | CrossAttentionSpec _ _ => Ok (match s with CrossAttentionSpec _ _ => true | _ => false end)
  | SlidingWindowSpec _ _ w => Ok (match s with SlidingWindowSpec _ _ w' => w' =? w | _ => false end)
  | ChunkedLocalAttentionSpec _ _ k =>
      Ok (match s with ChunkedLocalAttentionSpec _ _ k' => k' =? k | _ => false end)
  | MambaSpec _ _ _ _ _ _ n => Ok (match s with MambaSpec _ _ _ _ _ _ n' => n' =? n | _ => false end)
  | EncoderOnlyAttentionSpec _ _ => Err NotImplementedError
  end.

(** [UniformTypeKVCacheSpecs.is_uniform_type], on the values of the dict. *)
Definition is_uniform_type (specs : list layer_spec) : result bool :=
  if (1 <? length (remove_dups (spec_block_size <$> specs)))%nat then Ok false else
  match specs with
  | [] => Err StopIteration
  | one :: _ => all_loop (same_type one) specs
  end.

(** A group's spec. *)
Inductive KVCacheSpec : Type :=
  | LayerSpec (s : layer_spec)
  | UniformTypeKVCacheSpecs (bs : Z) (kv_cache_specs : list (string * layer_spec)).
#[global] Instance KVCacheSpec_eq_dec : EqDecision KVCacheSpec.
Proof. solve_decision. Defined.

Definition group_block_size (g : KVCacheSpec) : Z :=
  match g with LayerSpec s => spec_block_size s | UniformTypeKVCacheSpecs bs _ => bs end.

Definition sum_pages (specs : list layer_spec) : result Z :=
  foldM (fun acc s => p ← page_size_bytes s; Ok (acc + p)) 0 specs.

Definition group_page_size_bytes (g : KVCacheSpec) : result Z :=
  match g with
  | LayerSpec s => page_size_bytes s
  | UniformTypeKVCacheSpecs _ specs => sum_pages specs.*2
  end.

(** [max(...)] over a generator; an empty one raises. *)
Definition py_max (l : list Z) : result Z :=
  match l with [] => Err ValueError | x :: l' => Ok (foldl Z.max x l') end.

Definition group_max_memory_usage_bytes (c : VllmConfig) (g : KVCacheSpec) : result Z :=
  match g with
  | LayerSpec s => spec_max_memory_usage_bytes c s
  | UniformTypeKVCacheSpecs _ specs =>
      pages ← foldM (fun acc s => m ← spec_max_memory_usage_bytes c s; p ← page_size_bytes s;
                                  Ok (acc ++ [cdiv m p])) [] specs.*2;
      n ← py_max pages;
      p ← sum_pages specs.*2;
      Ok (n * p)
  end.

(** [UniformTypeKVCacheSpecs.from_specs]. *)
Definition from_specs (specs : list (string * layer_spec)) : result (option KVCacheSpec) :=
  u ← is_uniform_type specs.*2;
  match specs with
  | (_, s) :: _ => Ok (if u : bool then Some (UniformTypeKVCacheSpecs (spec_block_size s) specs) else None)
  | [] => Err StopIteration
  end.

(** ** Groups and configurations *)

Record KVCacheTensor : Type := mkTensor { tensor_size : Z; shared_by : list string }.
Record KVCacheGroupSpec : Type := mkGroup { layer_names : list string; kv_cache_spec : KVCacheSpec }.
Record KVCacheConfig : Type := mkKVConfig {
  num_blocks : Z;
  kv_cache_tensors : list KVCacheTensor;
  kv_cache_groups : list KVCacheGroupSpec;
}.

(** [has_mamba_layers] and [needs_kv_cache_zeroing]. *)
Definition has_mamba_layers (c : KVCacheConfig) : bool :=
  existsb (fun g => match kv_cache_spec g with LayerSpec s => is_mamba s | _ => false end) (kv_cache_groups c).
Definition needs_kv_cache_zeroing (c : KVCacheConfig) : bool := has_mamba_layers c.
