(* ===== verification/KVCacheSizing.v ===== *)
(** * Sizing the KV cache

    vllm/v1/core/kv_cache_utils.py from [_check_enough_kv_cache_memory] to
    [get_kv_cache_configs]: grouping the layers of a model, the memory a request needs, the
    longest model length that fits, the number of blocks and the tensors of each worker.

    A dict of specs is an association list.  [max_model_len] is set in place by the code;
    here the configuration comes back.  The log messages are left out. *)
From S2P Require Import Prelude KVCacheSpec.

(** The fields of [VllmConfig] beyond those of KVCacheSpec. *)
Record SizingConfig : Type := mkSizing {
  vllm : VllmConfig;
  num_gpu_blocks_override : option Z;
  disable_hybrid_kv_cache_manager : bool;
  original_max_model_len : Z;
}.
Definition set_max_model_len (n : Z) (c : VllmConfig) : VllmConfig :=
  mkConfig n (dcp_world_size c) (pcp_world_size c) (max_num_batched_tokens c) (max_num_encoder_input_tokens c) (cfg_mamba_cache_mode c).
Definition with_max_model_len (n : Z) (c : SizingConfig) : SizingConfig :=
  mkSizing (set_max_model_len n (vllm c)) (num_gpu_blocks_override c) (disable_hybrid_kv_cache_manager c) (original_max_model_len c).

Abbreviation specs_dict := (list (string * layer_spec)).

(** [min] of a list. *)
Definition py_min (l : list Z) : result Z :=
  match l with [] => Err ValueError | x :: l' => Ok (foldl Z.min x l') end.
Definition sumM {A} (f : A -> result Z) (l : list A) : result Z := foldM (fun acc a => x ← f a; Ok (acc + x)) 0 l.

(** ** The longest model length that fits *)

(** The binary search of [estimate_max_model_len] and [_estimate_max_model_len_from_groups]. *)
Fixpoint fit_loop (fits : Z -> result bool) (fuel : nat) (left right best : Z) : result Z :=
  if right <? left then Ok best else
  match fuel with
  | O => Err OutOfFuel
  | S fuel' =>
      let mid := (left + right) / 2 in
      b ← fits mid;
      if (b : bool) then fit_loop fits fuel' (mid + 1) right mid else fit_loop fits fuel' left (mid - 1) best
  end.
Definition fit_search (fits : Z -> result bool) (original_max : Z) : result Z :=
  b ← fits 1;
  if (b : bool) then fit_loop fits (Z.to_nat original_max) 1 original_max 1 else Ok 0.

(** [max_memory_usage_bytes], [estimate_max_model_len]. *)
Definition max_memory_usage_bytes (c : VllmConfig) (specs : list layer_spec) : result Z := sumM (spec_max_memory_usage_bytes c) specs.
Definition estimate_max_model_len (c : VllmConfig) (specs : specs_dict) (available : Z) : result Z :=
  fit_search (fun n => m ← max_memory_usage_bytes (set_max_model_len n c) specs.*2; Ok (m <=? available)) (max_model_len c).

(** [_check_enough_kv_cache_memory]; the estimate is part of the message of the exception. *)
Definition check_enough_memory (available : Z) (needed_memory : result Z) (estimate : result Z) : result unit :=
  if available <=? 0 then Err ValueError else
  needed ← needed_memory;
  if available <? needed then _ ← estimate; Err ValueError else Ok tt.

(** [check_enough_kv_cache_memory]. *)
Definition check_enough_kv_cache_memory (c : VllmConfig) (specs : specs_dict) (available : Z) : result unit :=
  match specs with
  | [] => Ok tt
  | _ => check_enough_memory available (max_memory_usage_bytes c specs.*2) (estimate_max_model_len c specs available)
  end.

(** ** Grouping the layers *)

(** [create_kv_cache_group_specs]. *)
Definition create_group_spec (specs : specs_dict) (names : list string) : result KVCacheGroupSpec :=
  layer_specs ← mapM (fun n => of_option KeyError (dict_get n specs)) names;
  merged ← merge_specs layer_specs;
  Ok (mkGroup names (LayerSpec merged)).
Definition create_kv_cache_group_specs (specs : specs_dict) (grouped : list (list string)) : result (list KVCacheGroupSpec) :=
  mapM (create_group_spec specs) grouped.

(** [is_kv_cache_spec_uniform]: an [AssertionError] of the merge means no. *)
Definition is_kv_cache_spec_uniform (specs : specs_dict) : result bool :=
  match specs with
  | [] => Ok true
  | _ => match merge_specs specs.*2 with
         | Ok _ => Ok true
         | Err AssertionError => Ok false
         | Err e => Err e
         end
  end.

(** [get_max_concurrency_for_kv_cache_config]: the blocks and the blocks of one request,
    whose quotient it returns. *)
Definition group_layers (g : KVCacheGroupSpec) : Z := zlen (layer_names g).
Definition get_max_concurrency (c : VllmConfig) (cfg : KVCacheConfig) : result (Z * Z) :=
  layers ← py_max (group_layers <$> kv_cache_groups cfg);
  mem ← sumM (fun g => group_max_memory_usage_bytes c (kv_cache_spec g)) (kv_cache_groups cfg);
  g ← of_option IndexError (head (kv_cache_groups cfg));
  page ← group_page_size_bytes (kv_cache_spec g);
  let per_block := page * layers in
  _ ← (if per_block =? 0 then Err ZeroDivisionError else Ok tt);
  let per_request := cdiv (layers * mem) per_block in
  _ ← (if per_request =? 0 then Err ZeroDivisionError else Ok tt);
  Ok (num_blocks cfg, per_request).

(** [_report_kv_cache_config]: the tokens the cache holds and the concurrency it logs. *)
Definition report_kv_cache_config (c : VllmConfig) (cfg : KVCacheConfig) : result (Z * (Z * Z)) :=
  block ← py_min ((fun g => group_block_size (kv_cache_spec g)) <$> kv_cache_groups cfg);
  let n := num_blocks cfg / zlen (kv_cache_groups cfg) * block in
  let cp := pcp_world_size c * dcp_world_size c in
  concurrency ← get_max_concurrency c cfg;
  Ok (if 1 <? cp then n * cp else n, concurrency).

(** [may_override_num_blocks], [get_num_blocks]. *)
Definition may_override_num_blocks (c : SizingConfig) (n : Z) : Z := default n (num_gpu_blocks_override c).
Definition get_num_blocks (c : SizingConfig) (num_layers available page_size : Z) : result Z :=
  if (page_size =? 0) || (num_layers =? 0) then Err ZeroDivisionError else
  Ok (may_override_num_blocks c (Z.max (available / page_size / num_layers) 0)).

(** [get_uniform_page_size], [is_kv_cache_page_size_uniform]. *)
Definition get_uniform_page_size (specs : list KVCacheSpec) : result Z :=
  sizes ← mapM group_page_size_bytes specs;
  match remove_dups sizes with [p] => Ok p | _ => Err AssertionError end.
Definition is_kv_cache_page_size_uniform (specs : specs_dict) : result bool :=
  sizes ← mapM page_size_bytes specs.*2; Ok (Nat.eqb (length (remove_dups sizes)) 1).

(** [_get_kv_cache_groups_uniform_spec], [_get_kv_cache_groups_uniform_type]. *)
Definition groups_uniform_spec (specs : specs_dict) : result (list KVCacheGroupSpec) := create_kv_cache_group_specs specs [specs.*1].
Definition groups_uniform_type (spec : KVCacheSpec) : list KVCacheGroupSpec :=
  match spec with
  | UniformTypeKVCacheSpecs _ specs => [mkGroup specs.*1 spec]
  | LayerSpec _ => []
  end.

(** [unify_kv_cache_spec_page_size]. *)
Definition unify_one (max_page : Z) (p : string * layer_spec) : result (string * layer_spec) :=
  page ← page_size_bytes p.2;
  if page =? max_page then Ok p else
  _ ← (if page =? 0 then Err ZeroDivisionError else Ok tt);
  if negb (max_page mod page =? 0) then Err NotImplementedError else
  let spec := copy_with_new_block_size (spec_block_size p.2 * (max_page / page)) p.2 in
  page' ← page_size_bytes spec;
  _ ← py_assert (page' =? max_page);
  Ok (p.1, spec).
Definition unify_kv_cache_spec_page_size (specs : specs_dict) : result specs_dict :=
  sizes ← mapM page_size_bytes specs.*2;
  match remove_dups sizes with
  | [] | [_] => Ok specs
  | _ => m ← py_max sizes; mapM (unify_one m) specs
  end.

(** [_get_kv_cache_groups_uniform_page_size]: the layers by spec, in the order of their
    first layers; [layers[i::n]]. *)
Definition add_layer (d : list (layer_spec * list string)) (p : string * layer_spec) : list (layer_spec * list string) :=
  dict_set p.2 (default [] (dict_get p.2 d) ++ [p.1]) d.
Definition same_type_layers (specs : specs_dict) : list (layer_spec * list string) := foldl add_layer [] specs.
Definition every_nth {A} (i n : nat) (l : list A) : list A :=
  (filter (fun p => Nat.modulo p.1 n = i) (zip (seq 0 (length l)) l)).*2.
Definition layers_per_group (counts : list Z) : result Z :=
  mn ← py_min counts;
  mx ← py_max counts;
  Ok (if 2 * mx <? 3 * mn then mx else mn).
Definition split_layers (group_size : Z) (layers : list string) : list (list string) :=
  let n := Z.to_nat (cdiv (zlen layers) group_size) in
  (fun i => every_nth i n layers) <$> seq 0 n.
Definition groups_uniform_page_size (specs : specs_dict) : result (list KVCacheGroupSpec) :=
  let types := (same_type_layers specs).*2 in
  size ← layers_per_group (zlen <$> types);
  create_kv_cache_group_specs specs (concat (split_layers size <$> types)).

(** [unify_hybrid_kv_cache_specs]. *)
Definition as_full_attention (s : layer_spec) : layer_spec :=
  match s with
  | SlidingWindowSpec bs a w => FullAttentionSpec bs a (mkFull (head_size a) (Some w) None)
  | ChunkedLocalAttentionSpec bs a k => FullAttentionSpec bs a (mkFull (head_size a) None (Some k))
  | _ => s
  end.
Definition is_one_type (specs : specs_dict) : result bool :=
  u ← is_kv_cache_spec_uniform specs; if (u : bool) then Ok true else is_uniform_type specs.*2.
Definition unify_hybrid_kv_cache_specs (specs : specs_dict) : result specs_dict :=
  one ← is_one_type specs;
  if (one : bool) then Ok specs else
  let full := existsb (fun s => bool_decide (is_Some (as_full s))) specs.*2 in
  let sliding := existsb (fun s => match s with SlidingWindowSpec _ _ _ => true | _ => false end) specs.*2 in
  let chunked := existsb (fun s => match s with ChunkedLocalAttentionSpec _ _ _ => true | _ => false end) specs.*2 in
  let specs' := if full && (sliding || chunked) then (fun p => (p.1, as_full_attention p.2)) <$> specs else specs in
  one' ← is_one_type specs';
  if (one' : bool) then Ok specs' else Err ValueError.

(** [get_kv_cache_groups]; the specs may be changed in place. *)
Definition get_kv_cache_groups (c : SizingConfig) (specs : specs_dict) : result (list KVCacheGroupSpec) :=
  specs ← (if disable_hybrid_kv_cache_manager c then unify_hybrid_kv_cache_specs specs else Ok specs);
  match specs with
  | [] => Ok []
  | _ =>
      u ← is_kv_cache_spec_uniform specs;
      if (u : bool) then groups_uniform_spec specs else
      t ← from_specs specs;
      match t with
      | Some spec => Ok (groups_uniform_type spec)
      | None => specs' ← unify_kv_cache_spec_page_size specs; groups_uniform_page_size specs'
      end
  end.

(** ** The memory of groups *)

(** [_max_memory_usage_bytes_from_groups]. *)
Definition uniform_specs (groups : list KVCacheGroupSpec) : option (specs_dict) :=
  match groups with
  | [g] => match kv_cache_spec g with UniformTypeKVCacheSpecs _ specs => Some specs | LayerSpec _ => None end
  | _ => None
  end.
Definition max_memory_usage_bytes_from_groups (c : VllmConfig) (groups : list KVCacheGroupSpec) : result Z :=
  match groups with
  | [] => Ok 0
  | any :: _ =>
      match uniform_specs groups with
      | Some specs => sumM (spec_max_memory_usage_bytes c) specs.*2
      | None =>
          group_size ← py_max (group_layers <$> groups);
          page_size ← get_uniform_page_size (kv_cache_spec <$> groups);
          mem ← group_max_memory_usage_bytes c (kv_cache_spec any);
          _ ← (if page_size =? 0 then Err ZeroDivisionError else Ok tt);
          Ok (group_size * page_size * cdiv mem page_size)
      end
  end.

(** [_estimate_max_model_len_from_groups]. *)
Definition estimate_max_model_len_from_groups (c : VllmConfig) (groups : list KVCacheGroupSpec) (available : Z) : result Z :=
  fit_search (fun n => m ← max_memory_usage_bytes_from_groups (set_max_model_len n c) groups; Ok (m <=? available)) (max_model_len c).

(** [_auto_fit_max_model_len]; the second list is that of the available memory. *)
Definition auto_fit_one (c : VllmConfig) (best : Z) (p : list KVCacheGroupSpec * Z) : result Z :=
  match p.1 with
  | [] => Ok best
  | _ => n ← estimate_max_model_len_from_groups c p.1 p.2; Ok (if n <? best then n else best)
  end.
Definition auto_fit_max_model_len (c : SizingConfig) (groups : list (list KVCacheGroupSpec)) (available : list Z) : result SizingConfig :=
  if forallb (fun g => match g with [] => true | _ => false end) groups then Ok c else
  _ ← of_option IndexError (head available);
  best ← foldM (auto_fit_one (vllm c)) (max_model_len (vllm c)) (zip groups available);
  if best <=? 0 then Err ValueError
  else if max_model_len (vllm c) <=? best then Ok c
  else Ok (with_max_model_len best c).

(** ** The configurations of the workers *)

(** [get_kv_cache_config_from_groups]. *)
Definition shared_layers (groups : list KVCacheGroupSpec) (i : nat) : list string := omap (fun g => layer_names g !! i) groups.
Definition get_kv_cache_config_from_groups (c : SizingConfig) (groups : list KVCacheGroupSpec) (available : Z) : result KVCacheConfig :=
  match groups with
  | [] => Ok (mkKVConfig 1 [] groups)
  | g :: _ =>
      match uniform_specs groups with
      | Some specs =>
          page ← group_page_size_bytes (kv_cache_spec g);
          _ ← (if page =? 0 then Err ZeroDivisionError else Ok tt);
          let n := may_override_num_blocks c (available / page) in
          tensors ← mapM (fun name => s ← of_option KeyError (dict_get name specs); p ← page_size_bytes s; Ok (mkTensor (p * n) [name])) (layer_names g);
          Ok (mkKVConfig n tensors groups)
      | None =>
          group_size ← py_max (group_layers <$> groups);
          page_size ← get_uniform_page_size (kv_cache_spec <$> groups);
          _ ← py_assert (0 <? group_size);
          n ← get_num_blocks c group_size available page_size;
          Ok (mkKVConfig n ((fun i => mkTensor (page_size * n) (shared_layers groups i)) <$> seq 0 (Z.to_nat group_size)) groups)
      end
  end.

(** [generate_scheduler_kv_cache_config]. *)
Definition scheduler_group (g : KVCacheGroupSpec) : result KVCacheGroupSpec :=
  match kv_cache_spec g with
  | UniformTypeKVCacheSpecs _ ((_, s) :: _) => Ok (mkGroup (layer_names g) (LayerSpec s))
  | UniformTypeKVCacheSpecs _ [] => Err StopIteration
  | LayerSpec _ => Ok g
  end.
Definition generate_scheduler_kv_cache_config (cfgs : list KVCacheConfig) : result KVCacheConfig :=
  match cfgs with
  | [] => Err IndexError
  | cfg :: _ =>
      _ ← py_assert (forallb (fun x => num_blocks x =? num_blocks cfg) cfgs);
      groups ← mapM scheduler_group (kv_cache_groups cfg);
      Ok (mkKVConfig (num_blocks cfg) (kv_cache_tensors cfg) groups)
  end.

(** [_project_kv_cache_groups_to_worker]. *)
Definition project_group (worker : specs_dict) (g : KVCacheGroupSpec) : result KVCacheGroupSpec :=
  let names := filter (fun n => n ∈ worker.*1) (layer_names g) in
  match names, kv_cache_spec g with
  | _ :: _, UniformTypeKVCacheSpecs bs specs =>
      specs' ← mapM (fun n => s ← of_option KeyError (dict_get n specs); Ok (n, s)) names;
      Ok (mkGroup names (UniformTypeKVCacheSpecs bs specs'))
  | _, spec => Ok (mkGroup names spec)
  end.
Definition project_groups_to_worker (groups : list KVCacheGroupSpec) (worker : specs_dict) : result (list KVCacheGroupSpec) :=
  mapM (project_group worker) groups.

(** The parts of [get_kv_cache_configs]: the specs of all workers, the memory checks, the
    configurations, and the smallest number of blocks for all. *)
Definition merge_worker_specs (workers : list (specs_dict)) : result (specs_dict) :=
  foldM (fun d p => match dict_get p.1 d with
                    | None => Ok (dict_set p.1 p.2 d)
                    | Some s => _ ← py_assert (bool_decide (s = p.2)); Ok d
                    end) [] (concat workers).
Definition check_worker (c : VllmConfig) (p : list KVCacheGroupSpec * Z) : result unit :=
  match p.1 with
  | [] => Ok tt
  | _ => check_enough_memory p.2 (max_memory_usage_bytes_from_groups c p.1) (estimate_max_model_len_from_groups c p.1 p.2)
  end.
Definition worker_config (c : SizingConfig) (p : list KVCacheGroupSpec * specs_dict * Z) : result KVCacheConfig :=
  let '(groups, worker, available) := p in
  _ ← py_assert (foldr (fun g n => group_layers g + n) 0 groups =? zlen worker);
  get_kv_cache_config_from_groups c groups available.
Definition shrink_tensor (n_old n : Z) (t : KVCacheTensor) : result KVCacheTensor :=
  _ ← (if n_old =? 0 then Err ZeroDivisionError else Ok tt);
  _ ← py_assert (tensor_size t mod n_old =? 0);
  Ok (mkTensor (tensor_size t / n_old * n) (shared_by t)).
Definition shrink_config (c : VllmConfig) (n : Z) (cfg : KVCacheConfig) : result KVCacheConfig :=
  tensors ← mapM (shrink_tensor (num_blocks cfg) n) (kv_cache_tensors cfg);
  let cfg' := mkKVConfig n tensors (kv_cache_groups cfg) in
  match kv_cache_groups cfg with
  | [] => Ok cfg'
  | _ => _ ← report_kv_cache_config c cfg'; Ok cfg'
  end.

(** [get_kv_cache_configs], with the configuration it leaves. *)
Definition get_kv_cache_configs (c : SizingConfig) (workers : list (specs_dict)) (available : list Z) : result (list KVCacheConfig * SizingConfig) :=
  merged ← merge_worker_specs workers;
  groups ← get_kv_cache_groups c merged;
  projected ← mapM (project_groups_to_worker groups) workers;
  c1 ← (if original_max_model_len c =? -1 then auto_fit_max_model_len c projected available else Ok c);
  _ ← mapM (check_worker (vllm c1)) (zip projected available);
  cfgs ← mapM (worker_config c1) (zip (zip projected workers) available);
  n ← py_min (num_blocks <$> cfgs);
  cfgs' ← mapM (shrink_config (vllm c1) n) cfgs;
  Ok (cfgs', c1).
