(* ===== verification/KVCacheSizingProps.v ===== *)
(** * What the sizing of the KV cache promises

    The theorems on KVCacheSizing: the binary search returns the longest model length that
    fits, grouping the layers loses none, the tensors of every worker fit its memory; and
    two cases where the memory check passes although one request does not fit. *)
From S2P Require Import Prelude KVCacheSpec KVCacheSizing.

(** ** The binary search *)

(** [fits] answers for every length, and what fits still fits when shorter. *)
Record fitting (fits : Z -> result bool) (mx : Z) (ok : Z -> Prop) : Prop := {
  ft_total : forall n, 1 <= n <= mx -> exists b, fits n = Ok b /\ (b = true <-> ok n);
  ft_down : forall m n, 1 <= m <= n -> n <= mx -> ok n -> ok m;
}.
(** The longest length up to [mx] that is [ok]; 0 if there is none. *)
Definition longest (ok : Z -> Prop) (mx n : Z) : Prop :=
  (n = 0 /\ forall m, 1 <= m <= mx -> ~ ok m) \/ (1 <= n <= mx /\ ok n /\ forall m, n < m <= mx -> ~ ok m).

Lemma fit_loop_spec fits mx ok fuel : fitting fits mx ok -> forall left right best,
  (right - left < Z.of_nat fuel) -> 1 <= left <= right + 1 -> 1 <= right <= mx -> ok best -> 1 <= best ->
  (best = left - 1 \/ (left = 1 /\ best = 1)) -> (forall m, right < m <= mx -> ~ ok m) ->
  exists n, fit_loop fits fuel left right best = Ok n /\ longest ok mx n.
Proof.
  intros [Ht Hd]. assert (Hstop : forall left right best, right < left -> left <= right + 1 -> 1 <= right <= mx -> ok best ->
    (best = left - 1 \/ (left = 1 /\ best = 1)) -> (forall m, right < m <= mx -> ~ ok m) -> longest ok mx best).
  { intros left right best Hlt Hl Hr Hok Hbest Hno. right. assert (Hb : best = right) by (destruct Hbest as [|[-> ->]]; lia).
    split; [lia|]. split; [by subst|]. intros m Hm. apply Hno. lia. }
  induction fuel as [|fuel IH]; intros left right best Hf Hl Hr Hok Hb Hbest Hno; cbn [fit_loop]; destruct (Z.ltb_spec right left) as [Hlt|Hge].
  { exists best. split; [done|]. apply (Hstop left right best); try done; lia. }
  { lia. }
  { exists best. split; [done|]. apply (Hstop left right best); try done; lia. }
  set (mid := (left + right) / 2). assert (Hmid : left <= mid <= right) by (unfold mid; split; [apply Z.div_le_lower_bound|apply Z.div_le_upper_bound]; lia).
  destruct (Ht mid) as (b & -> & Hbm); [lia|]. cbn [mbind result_bind]. destruct b.
  - assert (Hokm : ok mid) by (by apply Hbm). apply IH; try done; lia.
  - assert (Hnm : ~ ok mid) by (intros Hm; apply Hbm in Hm; done).
    assert (Hbl : best < mid).
    { destruct (Z.lt_ge_cases best mid) as [|Hge']; [done|]. exfalso. apply Hnm. apply (Hd mid best); [lia|lia|done]. }
    apply IH; try done; try lia. intros m Hm. destruct (Z.lt_ge_cases right m) as [?|?]; [apply Hno; lia|].
    intros Hokm. apply Hnm. apply (Hd mid m); [lia|lia|done].
Qed.

Lemma fit_search_spec fits mx ok : fitting fits mx ok -> 1 <= mx -> exists n, fit_search fits mx = Ok n /\ longest ok mx n.
Proof.
  intros Hf Hmx. unfold fit_search. destruct (ft_total _ _ _ Hf 1) as (b & -> & Hb); [lia|]. cbn [mbind result_bind]. destruct b.
  - apply (fit_loop_spec fits mx ok); try lia; try done. by apply Hb.
  - exists 0. split; [done|]. left. split; [done|]. intros m Hm Hok. assert (H1 : ok 1) by (apply (ft_down _ _ _ Hf 1 m); [lia|lia|done]).
    apply Hb in H1. done.
Qed.

(** ** Memory grows with the model length *)

Definition monotone (f : Z -> Z) : Prop := forall m n, m <= n -> f m <= f n.
(** A computation that answers for every model length, and more for a longer one. *)
Definition grows (f : Z -> result Z) : Prop := exists g, (forall n, f n = Ok (g n)) /\ monotone g.

Lemma grows_const x : grows (fun _ => Ok x).
Proof. exists (fun _ => x). split; [done|]. intros m n _. lia. Qed.
Lemma grows_sum {A} (f : Z -> A -> result Z) l : (forall a, a ∈ l -> grows (fun n => f n a)) -> grows (fun n => sumM (f n) l).
Proof.
  intros Hl. unfold sumM. assert (Hall : exists g, (forall n acc, foldM (fun acc a => x ← f n a; Ok (acc + x)) acc l = Ok (acc + g n)) /\ monotone g).
  { induction l as [|a l IH]; [exists (fun _ => 0); split; [intros n acc; cbn; f_equal; lia|intros m n _; lia]|].
    destruct (Hl a ltac:(constructor)) as (g & Hg & Hm). destruct IH as (h & Hh & Hmh); [intros b Hb; apply Hl; by constructor|].
    exists (fun n => g n + h n). split; [|intros m n Hmn; specialize (Hm m n Hmn); specialize (Hmh m n Hmn); lia].
    intros n acc. cbn [foldM]. rewrite Hg. cbn [mbind result_bind]. rewrite Hh. f_equal. lia. }
  destruct Hall as (g & Hg & Hm). exists g. split; [|done]. intros n. by rewrite Hg.
Qed.
Lemma grows_fitting f available mx : grows f ->
  fitting (fun n => m ← f n; Ok (m <=? available)) mx (fun n => exists m, f n = Ok m /\ m <= available).
Proof.
  intros (g & Hg & Hm). split.
  - intros n _. rewrite Hg. cbn [mbind result_bind]. eexists. split; [done|]. rewrite Z.leb_le. split; [by exists (g n)|by intros (m & [= <-] & ?)].
  - intros m n Hmn _ (x & Hx & Hle). exists (g m). split; [done|]. rewrite Hg in Hx. injection Hx as <-. specialize (Hm m n ltac:(lia)). lia.
Qed.

Record config_ok (c : VllmConfig) : Prop := { cf_cp : 1 <= dcp_world_size c * pcp_world_size c }.
Record spec_ok (c : VllmConfig) (s : layer_spec) : Prop := {
  sp_block : 0 < spec_block_size s;
  sp_page : exists p, page_size_bytes s = Ok p /\ 0 < p;
  sp_sliding : match s with SlidingWindowSpec _ _ _ => dcp_world_size c = 1 | _ => True end;
}.

Lemma pages_grow c s : config_ok c -> spec_ok c s -> grows (fun n => max_num_pages (set_max_model_len n c) s).
Proof.
  intros [Hcp] [Hb _ Hs].
  assert (Hc : forall g bs, 0 < bs -> monotone g -> grows (fun n => Ok (cdiv (g n) bs))).
  { intros g bs Hbs Hg. exists (fun n => cdiv (g n) bs). split; [done|]. intros m n Hmn. apply cdiv_mono; [done|by apply Hg]. }
  destruct s as [bs a f|bs a f k|bs a f k|bs a k|bs a w|bs sh d p t m k|bs a|bs a]; cbn in Hb |- *.
  1-3: unfold full_max_pages; cbn; apply Hc; [done|]; intros m n Hmn; destruct (Z.ltb_spec 1 (dcp_world_size c * pcp_world_size c)); [apply cdiv_mono; lia|lia].
  - unfold chunked_max_pages. cbn. apply Hc; [done|]. intros m n Hmn. lia.
  - unfold sliding_max_pages. cbn. rewrite Hs. cbn [Z.eqb Pos.eqb py_assert mbind result_bind].
    exists (fun n => cdiv (Z.min (w - 1 + max_num_batched_tokens c) n) bs + 1). split; [done|]. intros m n Hmn.
    assert (cdiv (Z.min (w - 1 + max_num_batched_tokens c) m) bs <= cdiv (Z.min (w - 1 + max_num_batched_tokens c) n) bs); [apply cdiv_mono; lia|lia].
  - unfold mamba_max_pages. cbn. destruct (cfg_mamba_cache_mode c); [apply grows_const|apply (Hc (fun n => n)); [done|by intros ? ?]|apply grows_const].
  - apply grows_const.
  - unfold cross_max_pages. cbn. apply grows_const.
Qed.

Lemma spec_memory_grows c s : config_ok c -> spec_ok c s -> grows (fun n => spec_max_memory_usage_bytes (set_max_model_len n c) s).
Proof.
  intros Hc Hs. destruct (pages_grow c s Hc Hs) as (g & Hg & Hm). destruct (sp_page _ _ Hs) as (p & Hp & Hpos).
  assert (Hgen : forall f, (forall n, f n = (x ← max_num_pages (set_max_model_len n c) s; y ← page_size_bytes s; Ok (x * y))) -> grows f).
  { intros f Hf. exists (fun n => g n * p). split; [intros n; by rewrite Hf, Hg, Hp|]. intros m n Hmn. specialize (Hm m n Hmn). nia. }
  destruct s; try (by apply Hgen). apply grows_const.
Qed.

(** The groups of one worker: layers of one uniform type, or one spec for each group and a
    common page size. *)
Definition uniform_group (g : KVCacheGroupSpec) (specs : specs_dict) : Prop := exists bs, kv_cache_spec g = UniformTypeKVCacheSpecs bs specs.
Definition paged_groups (c : VllmConfig) (page : Z) (groups : list KVCacheGroupSpec) : Prop :=
  groups <> [] /\ 0 < page /\ forall g, g ∈ groups -> exists s, kv_cache_spec g = LayerSpec s /\ spec_ok c s /\ page_size_bytes s = Ok page.
Definition groups_ok (c : VllmConfig) (groups : list KVCacheGroupSpec) : Prop :=
  (exists g specs, groups = [g] /\ uniform_group g specs /\ Forall (spec_ok c) specs.*2) \/ exists page, paged_groups c page groups.

Lemma uniform_pages {c page groups} : paged_groups c page groups -> get_uniform_page_size (kv_cache_spec <$> groups) = Ok page /\ uniform_specs groups = None.
Proof.
  intros (Hne & Hpos & Hall). split.
  - assert (Hm : mapM group_page_size_bytes (kv_cache_spec <$> groups) = Ok ((fun _ => page) <$> groups)).
    { clear Hne. induction groups as [|g l IH]; [done|]. cbn. destruct (Hall g ltac:(constructor)) as (s & -> & _ & Hp). cbn. rewrite Hp. cbn [mbind result_bind].
      rewrite IH by (intros g' Hg; apply Hall; by constructor). done. }
    unfold get_uniform_page_size. rewrite Hm. cbn [mbind result_bind].
    assert (Hd : remove_dups ((fun _ => page) <$> groups) = [page]); [|by rewrite Hd].
    destruct groups as [|g l]; [done|]. clear. assert (Hin : forall l : list KVCacheGroupSpec, remove_dups ((fun _ => page) <$> l) = match l with [] => [] | _ => [page] end).
    { induction l0 as [|x l0 IH]; [done|]. cbn. rewrite IH. destruct l0; [done|]. cbn. by case_decide; [|set_solver]. }
    by rewrite Hin.
  - destruct groups as [|g [|]]; try done. cbn. destruct (Hall g ltac:(constructor)) as (s & -> & _). done.
Qed.

Lemma py_max_ge l n : py_max l = Ok n -> forall x, x ∈ l -> x <= n.
Proof.
  destruct l as [|y l]; [done|]. cbn. intros [= <-].
  assert (Hf : forall l a, a <= foldl Z.max a l /\ forall x, x ∈ l -> x <= foldl Z.max a l).
  { induction l0 as [|z l0 IH]; intros a; cbn; [split; [lia|by intros x ?%elem_of_nil]|]. destruct (IH (Z.max a z)) as [H1 H2].
    split; [lia|]. intros x [->|Hx]%elem_of_cons; [lia|by apply H2]. }
  destruct (Hf l y) as [H1 H2]. intros x [->|Hx]%elem_of_cons; auto.
Qed.
Lemma py_max_some {A} (f : A -> Z) l : l <> [] -> exists n, py_max (f <$> l) = Ok n.
Proof. destruct l as [|x l]; [done|]. intros _. cbn. by eexists. Qed.

(** [_max_memory_usage_bytes_from_groups] answers, and more for longer requests. *)
Lemma groups_memory_grow c groups : config_ok c -> groups_ok c groups ->
  grows (fun n => max_memory_usage_bytes_from_groups (set_max_model_len n c) groups).
Proof.
  intros Hc [(g & specs & -> & [bs Hg] & Hall)|[page Hp]].
  - unfold max_memory_usage_bytes_from_groups, uniform_specs. rewrite Hg. apply grows_sum. intros s Hs.
    apply spec_memory_grows; [done|]. by rewrite Forall_forall in Hall; apply Hall.
  - destruct (uniform_pages Hp) as [Hpage Hnone]. destruct Hp as (Hne & Hpos & Hall). unfold max_memory_usage_bytes_from_groups.
    destruct groups as [|g l]; [done|]. rewrite Hnone, Hpage. destruct (py_max_some group_layers (g :: l) Hne) as [k Hk]. rewrite Hk. cbn [mbind result_bind].
    destruct (Hall g ltac:(constructor)) as (s & Hg & Hs & _). rewrite Hg. cbn [group_max_memory_usage_bytes].
    destruct (spec_memory_grows c s Hc Hs) as (h & Hh & Hm). rewrite (proj2 (Z.eqb_neq page 0)) by lia. cbn [mbind result_bind].
    assert (Hk0 : 0 <= k).
    { trans (group_layers g); [unfold group_layers, zlen; lia|]. apply (py_max_ge _ _ Hk). constructor. }
    exists (fun n => k * page * cdiv (h n) page). split; [intros n; by rewrite Hh|]. intros m n Hmn.
    apply Z.mul_le_mono_nonneg_l; [lia|]. apply cdiv_mono; [done|by apply Hm].
Qed.

(** C20: The binary search for the model length always ends, and returns the longest length,
    up to the configured one, for which the memory that [_max_memory_usage_bytes_from_groups]
    computes for the groups is available, or 0 when not even one token fits. *)
Theorem estimate_max_model_len_longest c groups available : config_ok c -> groups_ok c groups -> 1 <= max_model_len c ->
  exists n, estimate_max_model_len_from_groups c groups available = Ok n /\
    longest (fun len => exists m, max_memory_usage_bytes_from_groups (set_max_model_len len c) groups = Ok m /\ m <= available) (max_model_len c) n.
Proof.
  intros Hc Hg Hmx. apply fit_search_spec; [|done]. by apply (grows_fitting (fun n => max_memory_usage_bytes_from_groups (set_max_model_len n c) groups)), groups_memory_grow.
Qed.

(** ** Grouping the layers *)

Lemma concat_app_perm {A} (X Y : nat -> list A) l : concat ((fun i => X i ++ Y i) <$> l) ≡ₚ concat (X <$> l) ++ concat (Y <$> l).
Proof. induction l as [|i l IH]; [done|]. cbn. rewrite IH. solve_Permutation. Qed.
Lemma concat_single {A} (a : A) (k : nat) (l : list nat) : NoDup l -> k ∈ l -> concat ((fun i => if decide (k = i) then [a] else []) <$> l) = [a].
Proof.
  assert (Hno : forall l : list nat, k ∉ l -> concat ((fun i => if decide (k = i) then [a] else []) <$> l) = []).
  { induction l0 as [|i l0 IH]; [done|]. intros [Hi Hl]%not_elem_of_cons. cbn. rewrite decide_False by done. by apply IH. }
  induction l as [|i l IH]; [by intros _ ?%elem_of_nil|]. intros [Hi Hnd]%NoDup_cons Hk. cbn. destruct (decide (k = i)) as [->|Hne].
  - cbn. by rewrite Hno.
  - apply IH; [done|]. apply elem_of_cons in Hk as [|]; done.
Qed.

Lemma in_groups {A} (ls : list (list A)) (x : A) : x ∈ concat ls <-> exists l, l ∈ ls /\ x ∈ l.
Proof. rewrite list_elem_of_In, in_concat. split; intros (l & H1 & H2); exists l; by rewrite !list_elem_of_In in *. Qed.

(** Taking every [n]-th element from each start loses nothing. *)
Lemma every_nth_perm {A} n (l : list A) : (0 < n)%nat -> concat ((fun i => every_nth i n l) <$> seq 0 n) ≡ₚ l.
Proof.
  intros Hn. assert (Hgen : forall ps : list (nat * A), concat ((fun i => (filter (fun p => Nat.modulo p.1 n = i) ps).*2) <$> seq 0 n) ≡ₚ ps.*2).
  { induction ps as [|[k a] ps IH]; cbn.
    - induction (seq 0 n); done.
    - change (a :: ps.*2) with ([a] ++ ps.*2). rewrite <- IH. rewrite <- (concat_single a (Nat.modulo k n) (seq 0 n)); [|apply NoDup_seq|apply elem_of_seq; pose proof (Nat.mod_upper_bound k n); lia].
      rewrite <- concat_app_perm. apply reflexive_eq. f_equal. apply list_fmap_ext. intros _ i _. cbn. by case_decide. }
  unfold every_nth. rewrite Hgen. rewrite snd_zip; [done|]. by rewrite length_seq.
Qed.

Lemma every_nth_length {A} i n size (l : list A) : (0 < n)%nat -> (length l <= n * size)%nat -> (length (every_nth i n l) <= size)%nat.
Proof.
  intros Hn Hl. unfold every_nth. rewrite length_fmap. set (ps := filter _ _).
  assert (Hps : forall k a, (k, a) ∈ ps -> Nat.modulo k n = i /\ (k < length l)%nat).
  { intros k a. unfold ps. rewrite list_elem_of_filter. intros [Hk Hin]. split; [done|]. apply elem_of_zip_l, elem_of_seq in Hin. lia. }
  assert (Hnd : NoDup ps.*1).
  { unfold ps. eapply (sublist_NoDup _ (zip (seq 0 (length l)) l).*1); [rewrite fst_zip by (by rewrite length_seq); apply NoDup_seq|].
    apply fmap_sublist, sublist_filter. }
  assert (Hq : NoDup ((fun k => Nat.div k n) <$> ps.*1)).
  { apply NoDup_fmap_2_strong; [|done]. intros x y Hx Hy E. apply list_elem_of_fmap in Hx as ([kx ax] & -> & Hx), Hy as ([ky ay] & -> & Hy). cbn in *.
    destruct (Hps _ _ Hx), (Hps _ _ Hy). rewrite (Nat.div_mod_eq kx n), (Nat.div_mod_eq ky n). lia. }
  rewrite <- (length_fmap fst ps), <- (length_fmap (fun k => Nat.div k n) ps.*1), <- (length_seq size 0). apply submseteq_length, NoDup_submseteq; [done|].
  intros q Hin. apply list_elem_of_fmap in Hin as (k & -> & Hk). apply list_elem_of_fmap in Hk as ([k' a] & -> & Hk). destruct (Hps _ _ Hk).
  apply elem_of_seq. cbn. split; [lia|]. apply Nat.Div0.div_lt_upper_bound. lia.
Qed.

Lemma every_nth_some {A} i n (l : list A) : (i < n)%nat -> (i < length l)%nat -> every_nth i n l <> [].
Proof.
  intros Hi Hl. destruct (lookup_lt_is_Some_2 l i Hl) as [a Ha]. assert (Hin : a ∈ every_nth i n l).
  { unfold every_nth. apply list_elem_of_fmap. exists (i, a). split; [done|]. apply list_elem_of_filter. cbn. split; [by apply Nat.mod_small|].
    apply list_elem_of_lookup. exists i. rewrite lookup_zip_with, lookup_seq_lt, Ha by done. done. }
  intros E. rewrite E in Hin. by apply elem_of_nil in Hin.
Qed.

(** [split_layers] cuts a list of layers into groups of at most [size]. *)
Lemma split_layers_spec size layers : 0 < size -> concat (split_layers size layers) ≡ₚ layers /\
  forall g, g ∈ split_layers size layers -> g <> [] /\ zlen g <= size /\ forall x, x ∈ g -> x ∈ layers.
Proof.
  intros Hs. unfold split_layers. set (n := Z.to_nat (cdiv (zlen layers) size)).
  pose proof (cdiv_spec (zlen layers) size Hs) as Hc. pose proof (cdiv_nonneg (zlen layers) size Hs ltac:(unfold zlen; lia)) as Hn0.
  destruct (decide (n = 0%nat)) as [Hn|Hn].
  - assert (layers = []) as ->; [|rewrite Hn; split; [done|by intros g ?%elem_of_nil]]. destruct layers; [done|]. exfalso. unfold n, zlen in *. cbn in *. nia.
  - pose proof (every_nth_perm n layers ltac:(lia)) as Hp. split; [done|]. intros g Hg. apply list_elem_of_fmap in Hg as (i & -> & Hi). apply elem_of_seq in Hi.
    assert (Hnl : (n <= length layers)%nat) by (unfold n, zlen in *; nia). assert (Hle : (length layers <= n * Z.to_nat size)%nat) by (unfold n, zlen in *; nia).
    split; [apply every_nth_some; lia|]. split; [pose proof (every_nth_length i n (Z.to_nat size) layers ltac:(lia) Hle); unfold zlen; lia|].
    intros x Hx. rewrite <- Hp. apply in_groups. eexists. split; [|exact Hx]. apply list_elem_of_fmap. exists i. split; [done|]. apply elem_of_seq. lia.
Qed.

Lemma remove_dups_copies `{EqDecision A} (a : A) n : remove_dups (replicate (S n) a) = [a].
Proof. induction n as [|n IH]; [done|]. change (replicate (S (S n)) a) with (a :: replicate (S n) a). cbn [remove_dups]. rewrite IH. match goal with |- context [if ?d then _ else _] => destruct d as [|Hno]; [done|] end. destruct Hno. by left. Qed.
Lemma merge_window_copies {A} (f : A -> option Z) x n : merge_window_sizes (omap f (replicate (S n) x)) = Ok (f x).
Proof.
  unfold merge_window_sizes. assert (H : omap f (replicate (S n) x) = match f x with Some w => replicate (S n) w | None => [] end).
  { induction n as [|n IH]; [by cbn; destruct (f x)|]. change (replicate (S (S n)) x) with (x :: replicate (S n) x). cbn [omap list_omap]. 
    change (list_omap A Z f) with (omap (M:=list) f). rewrite IH. by destruct (f x). }
  rewrite H. destruct (f x); [by rewrite remove_dups_copies|done].
Qed.
Lemma forallb_copies {A} (f : A -> bool) x n : forallb f (replicate (S n) x) = f x.
Proof. induction n as [|n IH]; cbn in *; [by rewrite andb_true_r|]. rewrite IH. by destruct (f x). Qed.
Lemma existsb_copies {A} (f : A -> bool) x n : existsb f (replicate (S n) x) = f x.
Proof. induction n as [|n IH]; cbn in *; [by rewrite orb_false_r|]. rewrite IH. by destruct (f x). Qed.

Lemma merge_full_copies s n : merge_full (replicate (S n) s) = merge_full [s].
Proof.
  unfold merge_full. destruct (as_full s) as [[[bs a] f]|] eqn:E; [|cbn; by rewrite E].
  assert (Hf : forall m acc, foldM (fun acc s => x ← of_option AssertionError (as_full s); Ok (acc ++ [x])) acc (replicate m s) = Ok (acc ++ replicate m (bs, a, f))).
  { induction m as [|m IH]; intros acc; cbn; [by rewrite app_nil_r|]. rewrite E. cbn. rewrite IH, <- app_assoc. done. }
  rewrite (Hf (S n) []). pose proof (Hf 1%nat []) as H1. change (replicate 1 s) with [s] in H1. rewrite H1. cbn [mbind result_bind app].
  rewrite existsb_copies. change [s] with (replicate 1 s). rewrite existsb_copies. destruct (is_mla s); [done|]. cbn [negb py_assert mbind result_bind]. change (?x :: replicate n ?x) with (replicate (S n) x).
  rewrite !merge_window_copies. cbn [mbind result_bind fst snd]. change (replicate (S n) (bs, a, f)) with ((bs, a, f) :: replicate n (bs, a, f)). cbn [replicate].
  change (?x :: replicate n ?x) with (replicate (S n) x). by rewrite forallb_copies; cbn; rewrite andb_true_r.
Qed.

(** A group of equal specs merges to what one of them merges to. *)
Lemma merge_specs_copies s n : merge_specs (replicate (S n) s) = merge_specs [s].
Proof.
  assert (Hb : base_merge s (replicate n s) = base_merge s []).
  { unfold base_merge. destruct n as [|n]; [done|]. rewrite forallb_copies. by rewrite bool_decide_true. }
  destruct s; try exact Hb; try (cbn [merge_specs replicate]; change (?x :: replicate n ?x) with (replicate (S n) x); by rewrite merge_full_copies).
  cbn [merge_specs replicate]. unfold mla_merge. change (?x :: replicate n ?x) with (replicate (S n) x). rewrite !forallb_copies. cbn. by rewrite !andb_true_r.
Qed.

(** The layers by spec: each list holds layers of its spec, and no layer is lost. *)
Record by_spec (specs : specs_dict) (d : list (layer_spec * list string)) : Prop := {
  bs_keys : NoDup d.*1;
  bs_layers : concat d.*2 ≡ₚ specs.*1;
  bs_same : forall s ns, (s, ns) ∈ d -> ns <> [] /\ forall n, n ∈ ns -> (n, s) ∈ specs;
}.
Lemma dict_set_concat {K} `{EqDecision K} {A} (k : K) (l x : list A) (d : list (K * list A)) :
  default [] (dict_get k d) = l -> concat (dict_set k (l ++ x) d).*2 ≡ₚ concat d.*2 ++ x.
Proof.
  induction d as [|[k' l'] d IH]; cbn; [intros <-; cbn; by rewrite app_nil_r|]. case_decide; cbn; [intros <-; solve_Permutation|].
  intros Hd. rewrite IH by done. by rewrite app_assoc.
Qed.
Lemma add_layer_spec specs d p : by_spec specs d -> by_spec (specs ++ [p]) (add_layer d p).
Proof.
  intros [Hk Hl Hs]. destruct p as [n s]. unfold add_layer. cbn [fst snd]. split.
  - by apply dict_set_nodup.
  - rewrite dict_set_concat by done. rewrite Hl, fmap_app. done.
  - intros s' ns Hin. apply (dict_get_elem s' ns) in Hin; [|by apply dict_set_nodup]. rewrite dict_get_set in Hin. case_decide as E.
    + subst s'. injection Hin as <-. split; [by destruct (default [] (dict_get s d))|]. intros m [Hm|Hm%list_elem_of_singleton]%elem_of_app; [|subst; set_solver].
      destruct (dict_get s d) as [ns|] eqn:Hg; [|by apply elem_of_nil in Hm]. apply dict_get_Some_in in Hg. destruct (Hs _ _ Hg) as [_ H]. apply elem_of_app. left. by apply H.
    + apply dict_get_Some_in in Hin. destruct (Hs _ _ Hin) as [? H]. split; [done|]. intros m Hm. apply elem_of_app. left. by apply H.
Qed.
Lemma same_type_spec specs : by_spec specs (same_type_layers specs).
Proof.
  unfold same_type_layers. assert (H : forall l seen d, by_spec seen d -> by_spec (seen ++ l) (foldl add_layer d l)).
  { induction l as [|p l IH]; intros seen d Hd; cbn; [by rewrite app_nil_r|]. replace (seen ++ p :: l) with ((seen ++ [p]) ++ l) by (by rewrite <- app_assoc).
    apply IH. by apply add_layer_spec. }
  apply (H specs [] []). split; [constructor|done|by intros ? ? ?%elem_of_nil].
Qed.

Lemma py_min_in l n : py_min l = Ok n -> n ∈ l /\ forall x, x ∈ l -> n <= x.
Proof.
  destruct l as [|y l]; [done|]. cbn [py_min]. intros [= <-].
  assert (Hf : forall l a, (foldl Z.min a l = a \/ foldl Z.min a l ∈ l) /\ foldl Z.min a l <= a /\ forall x, x ∈ l -> foldl Z.min a l <= x).
  { induction l0 as [|z l0 IH]; intros a; cbn; [split; [by left|split; [lia|by intros x ?%elem_of_nil]]|]. destruct (IH (Z.min a z)) as (H1 & H2 & H3).
    split; [destruct H1 as [H1|H1]; [rewrite H1; destruct (Z.min_spec a z) as [[_ ->]|[_ ->]]; [by left|right; by left]|right; by right]|].
    split; [lia|]. intros x [->|Hx]%elem_of_cons; [lia|by apply H3]. }
  destruct (Hf l y) as (H1 & H2 & H3). split; [destruct H1 as [->|]; [by left|by right]|]. intros x [->|Hx]%elem_of_cons; auto.
Qed.

(** One group: its layers share a spec, which the group gets. *)
Definition group_of (specs : specs_dict) (g : KVCacheGroupSpec) : Prop :=
  layer_names g <> [] /\ exists s m, (forall n, n ∈ layer_names g -> (n, s) ∈ specs) /\ merge_specs [s] = Ok m /\ kv_cache_spec g = LayerSpec m.
Lemma create_group_one specs ns s m : NoDup specs.*1 -> ns <> [] -> (forall n, n ∈ ns -> (n, s) ∈ specs) -> merge_specs [s] = Ok m ->
  create_group_spec specs ns = Ok (mkGroup ns (LayerSpec m)).
Proof.
  intros Hnd Hne Hin Hm. unfold create_group_spec.
  assert (H : mapM (fun n => of_option KeyError (dict_get n specs)) ns = Ok (replicate (length ns) s)).
  { clear Hne. induction ns as [|n ns IH]; [done|]. cbn. rewrite (proj2 (dict_get_elem n s specs Hnd)) by (apply Hin; by left). cbn.
    rewrite IH by (intros x Hx; apply Hin; by right). done. }
  rewrite H. cbn [mbind result_bind]. destruct ns as [|n ns]; [done|]. cbn [length]. rewrite merge_specs_copies, Hm. done.
Qed.

Lemma layers_per_group_pos (types : list (list string)) : types <> [] -> (forall ns, ns ∈ types -> ns <> []) -> exists size, layers_per_group (zlen <$> types : list Z) = Ok size /\ 0 < size.
Proof.
  intros Hne Hall. unfold layers_per_group. destruct (py_max_some (zlen (A:=string)) types Hne) as [mx Hmx]. rewrite Hmx.
  destruct (py_min (zlen <$> types)) as [mn|e] eqn:Hmn; [|by destruct types]. cbn [mbind result_bind]. destruct (py_min_in _ _ Hmn) as [Hin Hle].
  assert (Hp : 0 < mn). { apply list_elem_of_fmap in Hin as (ns & -> & Hns). specialize (Hall ns Hns). destruct ns; [done|]. unfold zlen. cbn. lia. }
  pose proof (py_max_ge _ _ Hmx mn Hin). eexists. split; [done|]. destruct (2 * mx <? 3 * mn); lia.
Qed.
Lemma split_types_perm size (types : list (list string)) : 0 < size -> concat (concat (split_layers size <$> types)) ≡ₚ concat types.
Proof.
  intros Hs. induction types as [|ns types IH]; [done|]. cbn. rewrite concat_app, IH. by rewrite (proj1 (split_layers_spec size ns Hs)).
Qed.

(** Grouping the layers of a hybrid model never fails on specs that merge with
    themselves: every layer is in exactly one group, no group is empty or larger than the
    chosen size, and the layers of a group have one spec, which the group gets. *)
Theorem hybrid_groups_partition specs : NoDup specs.*1 -> specs <> [] -> (forall s, s ∈ specs.*2 -> exists m, merge_specs [s] = Ok m) ->
  exists size groups, layers_per_group (zlen <$> (same_type_layers specs).*2) = Ok size /\ groups_uniform_page_size specs = Ok groups /\
    concat (layer_names <$> groups) ≡ₚ specs.*1 /\ forall g, g ∈ groups -> group_of specs g /\ group_layers g <= size.
Proof.
  intros Hnd Hne Hm. destruct (same_type_spec specs) as [Hk Hl Hs]. set (d := same_type_layers specs) in *.
  assert (Hd : d.*2 <> []). { intros E. rewrite E in Hl. apply Permutation_nil, fmap_nil_inv in Hl. done. }
  destruct (layers_per_group_pos d.*2 Hd) as (size & Hsize & Hpos).
  { intros ns Hin. apply list_elem_of_fmap in Hin as ([s ns'] & -> & Hin). by destruct (Hs _ _ Hin). }
  assert (Hcut : forall ns, ns ∈ concat (split_layers size <$> d.*2) -> exists s m, ns <> [] /\ zlen ns <= size /\ (forall n, n ∈ ns -> (n, s) ∈ specs) /\ merge_specs [s] = Ok m).
  { intros ns (l & Hin & Hns)%in_groups. apply list_elem_of_fmap in Hin as (ns0 & -> & Hin). apply list_elem_of_fmap in Hin as ([s ns1] & -> & Hin).
    destruct (Hs _ _ Hin) as [Hne1 H1]. destruct (proj2 (split_layers_spec size _ Hpos) ns Hns) as (H2 & H3 & H4). cbn in *.
    destruct (Hm s) as [m Hmm]. { destruct ns1 as [|x ns1]; [done|]. apply list_elem_of_fmap. exists (x, s). split; [done|]. apply H1. by left. }
    exists s, m. split_and!; [done|done|by auto|done]. }
  destruct (mapM_total (create_group_spec specs) (concat (split_layers size <$> d.*2))) as (groups & Hg & Hall).
  { intros ns Hin. destruct (Hcut ns Hin) as (s & m & H1 & H2 & H3 & H4). eexists. by apply (create_group_one specs ns s m). }
  exists size, groups. split; [done|]. unfold groups_uniform_page_size. fold d. rewrite Hsize. split; [done|].
  assert (Hnames : forall nss gs, Forall2 (fun ns g => create_group_spec specs ns = Ok g) nss gs -> (forall ns, ns ∈ nss -> ns ∈ concat (split_layers size <$> d.*2)) ->
    layer_names <$> gs = nss /\ forall g, g ∈ gs -> group_of specs g /\ group_layers g <= size).
  { induction 1 as [|ns g nss gs H1 H2 IH]; intros Hsub; [split; [done|by intros g ?%elem_of_nil]|].
    destruct (Hcut ns) as (s & m & A1 & A2 & A3 & A4); [apply Hsub; by left|]. rewrite (create_group_one specs ns s m Hnd A1 A3 A4) in H1. injection H1 as <-.
    destruct IH as [IH1 IH2]; [intros x Hx; apply Hsub; by right|]. split; [cbn; by rewrite IH1|]. intros g [->|Hg']%elem_of_cons; [|by apply IH2].
    split; [|done]. by split; [|exists s, m]. }
  destruct (Hnames _ _ Hall) as [H1 H2]; [done|]. split; [|done]. rewrite H1, split_types_perm by done. done.
Qed.

(** ** Small models *)

Definition small_attn : attn := mkAttn 1 1 (mkDtype "float16" 2) None.
Definition small_full : layer_spec := FullAttentionSpec 2 small_attn (mkFull 1 None None).
Definition small_sliding : layer_spec := SlidingWindowSpec 2 small_attn 4.
Definition small_config : VllmConfig := mkConfig 8 1 1 8 0 MambaNone.
(** Two full and three sliding window layers, in turns. *)
Definition small_model : specs_dict := [("a", small_sliding); ("b", small_full); ("c", small_sliding); ("d", small_full); ("e", small_sliding)].

Lemma small_specs_ok : spec_ok small_config small_full /\ spec_ok small_config small_sliding.
Proof. split; (split; [by vm_compute|by exists 8|done]). Qed.

Lemma estimate_max_model_len_longest_witness :
  exists n, estimate_max_model_len_from_groups small_config [mkGroup ["a"; "b"] (LayerSpec small_full)] 40 = Ok n /\
    longest (fun len => exists m, max_memory_usage_bytes_from_groups (set_max_model_len len small_config) [mkGroup ["a"; "b"] (LayerSpec small_full)] = Ok m /\ m <= 40) 8 n.
Proof.
  apply (estimate_max_model_len_longest small_config); [by split|right|by vm_compute]. exists 8. split; [done|]. split; [done|].
  intros g Hg%list_elem_of_singleton. subst g. exists small_full. split_and!; [done|apply small_specs_ok|done].
Defined.

Lemma hybrid_groups_partition_witness :
  exists size groups, layers_per_group (zlen <$> (same_type_layers small_model).*2) = Ok size /\ groups_uniform_page_size small_model = Ok groups /\
    concat (layer_names <$> groups) ≡ₚ small_model.*1 /\ forall g, g ∈ groups -> group_of small_model g /\ group_layers g <= size.
Proof.
  apply hybrid_groups_partition; [by apply (bool_decide_unpack _); vm_compute|done|].
  assert (Hall : Forall (fun s => exists m, merge_specs [s] = Ok m) small_model.*2) by (repeat constructor; by eexists; vm_compute).
  by rewrite Forall_forall in Hall.
Defined.
