(* ===== verification/KVCacheConfigs.v ===== *)
(** * The KV cache configurations of the workers

    What [get_kv_cache_configs] of vllm/v1/core/kv_cache_utils.py returns, for every way of
    grouping the layers: every worker gets the same number of blocks, all of its layers have
    one tensor, of that many pages, and its tensors fit its memory. *)
From S2P Require Import Prelude KVCacheSpec KVCacheSizing KVCacheSizingProps.

(** ** Page sizes *)
(** Every page size the code computes for these specs is positive. *)
Definition pages_positive (specs : specs_dict) : Prop := forall s p, s ∈ specs.*2 -> page_size_bytes s = Ok p -> 0 < p.

(** Merging, and treating a sliding window as full attention, keep the page size. *)
Lemma merge_full_page l bs a f : merge_full l = Ok (bs, a, f) -> exists s l' f', l = s :: l' /\ as_full s = Some (bs, a, f') /\ head_size_v f = head_size_v f'.
Proof.
  unfold merge_full. destruct l as [|s l]; [done|]. cbn [foldM]. destruct (as_full s) as [[[bs0 a0] f0]|] eqn:Es; cbn; [|done].
  intros H. inv_res. rename H into Hbind, x into fulls.
  assert (Hf : exists r, fulls = (bs0, a0, f0) :: r).
  { match goal with Hx : foldM ?g ?i l = Ok fulls |- _ => apply (foldM_inv g (fun acc => exists r, acc = (bs0, a0, f0) :: r) l i fulls); [|by exists []|exact Hx] end.
    intros acc s0 acc' _ [r ->] Hs. inv_res. eexists. done. }
  destruct Hf as [r ->]. inv_res. by exists s, l, f0.
Qed.
Lemma base_merge_same s l m : base_merge s l = Ok m -> m = s.
Proof. unfold base_merge. destruct (py_assert _); cbn; [|done]. by intros [= ->]. Qed.
Lemma merge_page l m : merge_specs l = Ok m -> exists s, s ∈ l /\ page_size_bytes m = page_size_bytes s.
Proof.
  destruct l as [|s l]; [done|]. intros H. exists s. split; [by left|]. destruct s; cbn [merge_specs] in H; try (apply base_merge_same in H as ->; done).
  - destruct (merge_full _) as [[[bs' a'] f']|e] eqn:E; cbn in H; [|done]. injection H as <-. destruct (merge_full_page _ _ _ _ E) as (s & l' & f0 & [= <- <-] & Hs & Hv).
    cbn in Hs. injection Hs as -> -> ->. unfold page_size_bytes. cbn. unfold full_real_page_size. by rewrite Hv.
  - unfold mla_merge in H. by inv_res.
  - destruct (merge_full _) as [[[bs' a'] f']|e] eqn:E; cbn in H; [|done]. injection H as <-. destruct (merge_full_page _ _ _ _ E) as (s & l' & f0 & [= <- <-] & Hs & Hv).
    cbn in Hs. injection Hs as -> -> ->. unfold page_size_bytes. cbn. unfold full_real_page_size. by rewrite Hv.
Qed.
Lemma as_full_page s : page_size_bytes (as_full_attention s) = page_size_bytes s.
Proof.
  destruct s; try done; unfold page_size_bytes; cbn; unfold full_real_page_size, attn_real_page_size; cbn;
    replace (bs * num_kv_heads a * (head_size a + head_size a) * get_dtype_size (adtype a)) with (2 * bs * num_kv_heads a * head_size a * get_dtype_size (adtype a)) by ring; done.
Qed.


Lemma unify_hybrid_keeps specs specs' : unify_hybrid_kv_cache_specs specs = Ok specs' -> pages_positive specs -> specs'.*1 = specs.*1 /\ pages_positive specs'.
Proof.
  unfold unify_hybrid_kv_cache_specs. intros H Hp. destruct (is_one_type specs) as [[|]|e]; cbn in H; [by injection H as <-| |done].
  match type of H with context [if ?b then ?x else specs] => set (specs1 := if b then x else specs) in H end.
  assert (H1 : specs1.*1 = specs.*1 /\ pages_positive specs1).
  { unfold specs1. destruct (_ && _); [|done]. split; [by rewrite <- list_fmap_compose|]. intros s p Hs Hpage.
    apply list_elem_of_fmap in Hs as ([n s'] & -> & Hin). apply list_elem_of_fmap in Hin as ([n0 s0] & [= -> ->] & Hin). cbn in Hpage. rewrite as_full_page in Hpage.
    apply (Hp s0); [|done]. apply list_elem_of_fmap. by exists (n0, s0). }
  destruct (is_one_type specs1) as [[|]|e]; cbn in H; [by injection H as <-|done|done].
Qed.

Lemma unify_one_spec m q q' : unify_one m q = Ok q' -> q'.1 = q.1 /\ (q' = q \/ page_size_bytes q'.2 = Ok m).
Proof.
  unfold unify_one. destruct (page_size_bytes q.2) as [page|e]; cbn; [|done]. destruct (page =? m); [intros [= <-]; by split; [|left]|].
  destruct (page =? 0); cbn; [done|]. destruct (negb _); [done|]. destruct (page_size_bytes (copy_with_new_block_size _ _)) as [p'|] eqn:E; cbn; [|done].
  destruct (Z.eqb_spec p' m) as [->|]; cbn; [|done]. intros [= <-]. by split; [|right].
Qed.
Lemma py_max_in (l : list Z) n : py_max l = Ok n -> n ∈ l.
Proof.
  destruct l as [|y l]; [done|]. cbn. intros [= <-].
  assert (Hf : forall (l : list Z) a, foldl Z.max a l = a \/ foldl Z.max a l ∈ l).
  { induction l0 as [|z l0 IH]; intros a; cbn; [by left|]. destruct (IH (Z.max a z)) as [H1|H1]; [rewrite H1; destruct (Z.max_spec a z) as [[_ ->]|[_ ->]]; [right; by left|by left]|right; by right]. }
  destruct (Hf l y) as [->|]; [by left|by right].
Qed.
Lemma unify_page_keeps specs specs' : unify_kv_cache_spec_page_size specs = Ok specs' -> pages_positive specs -> specs'.*1 = specs.*1 /\ pages_positive specs'.
Proof.
  unfold unify_kv_cache_spec_page_size. intros H Hp. destruct (mapM page_size_bytes specs.*2) as [sizes|e] eqn:Hs; cbn in H; [|done].
  assert (Hu : forall m, py_max sizes = Ok m -> mapM (unify_one m) specs = Ok specs' -> specs'.*1 = specs.*1 /\ pages_positive specs').
  { intros m Hm H'. assert (Hpos : 0 < m). { destruct (mapM_elem _ _ _ m Hs) as (s & Hin & Hpage); [by apply py_max_in|]. by apply (Hp s). }
    split.
    - apply mapM_ok in H'. clear -H'. induction H' as [|q q' l l' Hq _ IH]; [done|]. cbn. destruct (unify_one_spec _ _ _ Hq) as [-> _]. by rewrite IH.
    - intros s p Hin Hpage. apply list_elem_of_fmap in Hin as (q' & -> & Hin). destruct (mapM_elem _ _ _ _ H' Hin) as (q & Hq & Hqq).
      destruct (unify_one_spec _ _ _ Hqq) as [_ [->|Hm']]; [|rewrite Hm' in Hpage; by injection Hpage as <-]. apply (Hp q.2); [|done]. apply list_elem_of_fmap. by exists q. }
  destruct (remove_dups sizes) as [|x [|y l]]; [by injection H as <-|by injection H as <-|]. destruct (py_max sizes) as [m|e] eqn:Hm; cbn in H; [|done]. by apply (Hu m).
Qed.

(** ** The groups *)

(** A group whose pages have a positive size, with the specs of its layers. *)
Record group_wf (g : KVCacheGroupSpec) : Prop := {
  gw_page : forall s p, kv_cache_spec g = LayerSpec s -> page_size_bytes s = Ok p -> 0 < p;
  gw_specs : forall bs specs, kv_cache_spec g = UniformTypeKVCacheSpecs bs specs ->
    pages_positive specs /\ NoDup specs.*1 /\ specs <> [] /\ (layer_names g = specs.*1 \/ layer_names g = []);
}.
Definition group_names (groups : list KVCacheGroupSpec) : list string := concat (layer_names <$> groups).
(** Groups over the given layers; a group of layers with specs of their own is the only one. *)
Record groups_over (names : list string) (groups : list KVCacheGroupSpec) : Prop := {
  go_names : group_names groups ≡ₚ names;
  go_wf : forall g, g ∈ groups -> group_wf g;
  go_plain : (exists g, groups = [g]) \/ forall g, g ∈ groups -> exists s, kv_cache_spec g = LayerSpec s;
}.

Lemma dict_get_spec specs ns l : mapM (fun n => of_option KeyError (dict_get n specs)) ns = Ok l -> forall s, s ∈ l -> s ∈ (specs : specs_dict).*2.
Proof.
  intros Hm s Hs. destruct (mapM_elem _ _ _ _ Hm Hs) as (n & _ & Hn). destruct (dict_get n specs) as [s'|] eqn:E; cbn in Hn; [|done]. injection Hn as <-.
  apply dict_get_Some_in in E. apply list_elem_of_fmap. by exists (n, s').
Qed.
Lemma create_group_wf specs ns g : pages_positive specs -> create_group_spec specs ns = Ok g -> layer_names g = ns /\ group_wf g /\ exists s, kv_cache_spec g = LayerSpec s.
Proof.
  intros Hp. unfold create_group_spec. intros H. inv_res. split; [done|]. split; [|by eexists]. split; [|done]. cbn. intros s p [= <-] Hpage.
  destruct (merge_page _ _ H1) as (s & Hs & E). rewrite E in Hpage. apply (Hp s); [|done]. by apply (dict_get_spec _ _ _ H0).
Qed.
Lemma create_groups_wf specs grouped groups : pages_positive specs -> create_kv_cache_group_specs specs grouped = Ok groups ->
  layer_names <$> groups = grouped /\ forall g, g ∈ groups -> group_wf g /\ exists s, kv_cache_spec g = LayerSpec s.
Proof.
  intros Hp Hg%mapM_ok. induction Hg as [|ns g grouped groups H _ [IH1 IH2]]; [split; [done|by intros g ?%elem_of_nil]|].
  destruct (create_group_wf _ _ _ Hp H) as [H1 H2]. split; [cbn; by rewrite H1, IH1|]. intros g' [->|Hin]%elem_of_cons; [done|by apply IH2].
Qed.

Lemma page_groups_over specs groups : pages_positive specs -> groups_uniform_page_size specs = Ok groups -> groups_over specs.*1 groups.
Proof.
  intros Hp H. unfold groups_uniform_page_size in H. destruct (same_type_spec specs) as [Hk Hl Hs]. set (d := same_type_layers specs) in *.
  destruct (layers_per_group (zlen <$> d.*2)) as [size|e] eqn:Hsize; cbn in H; [|done].
  assert (Hd : d.*2 <> []) by (intros E; rewrite E in Hsize; done).
  destruct (layers_per_group_pos d.*2 Hd) as (size' & Hsize' & Hpos). { intros ns Hin. apply list_elem_of_fmap in Hin as ([s ns'] & -> & Hin). by destruct (Hs _ _ Hin). }
  rewrite Hsize in Hsize'. injection Hsize' as <-. destruct (create_groups_wf _ _ _ Hp H) as [H1 H2].
  split; [unfold group_names; by rewrite H1, split_types_perm|intros g Hg; by apply H2|right; intros g Hg; by apply H2].
Qed.

(** However the layers are grouped, no layer is lost. *)
Lemma get_groups_over c specs groups : NoDup specs.*1 -> pages_positive specs -> get_kv_cache_groups c specs = Ok groups -> groups_over specs.*1 groups.
Proof.
  intros Hnd Hp H. unfold get_kv_cache_groups in H.
  destruct (if disable_hybrid_kv_cache_manager c then unify_hybrid_kv_cache_specs specs else Ok specs) as [specs1|e] eqn:H1; cbn in H; [|done].
  assert (Hk : specs1.*1 = specs.*1 /\ pages_positive specs1). { destruct (disable_hybrid_kv_cache_manager c); [by apply unify_hybrid_keeps|by injection H1 as <-]. }
  destruct Hk as [Hk Hp1]. rewrite <- Hk in Hnd |- *. clear H1 Hk Hp. destruct specs1 as [|q specs1]; [injection H as <-; split; [done|by intros g ?%elem_of_nil|right; by intros g ?%elem_of_nil]|].
  set (l := q :: specs1) in *. destruct (is_kv_cache_spec_uniform l) as [[|]|e]; cbn [mbind result_bind] in H; [| |done].
  - destruct (create_groups_wf l [l.*1] groups Hp1 H) as [H1 H2].
    split; [unfold group_names; rewrite H1; cbn; by rewrite app_nil_r|intros g Hg; by apply H2|right; intros g Hg; by apply H2].
  - destruct (from_specs l) as [[spec|]|e] eqn:Ht; cbn [mbind result_bind] in H; [| |done].
    + unfold from_specs in Ht. destruct (is_uniform_type _) as [u|e]; cbn in Ht; [|done]. destruct q as [n s]. destruct u; cbn in Ht; [|done]. injection Ht as <-. injection H as <-.
      split; [unfold group_names; cbn; by rewrite app_nil_r| |left; by eexists]. intros g ->%list_elem_of_singleton. split; [done|]. cbn. intros bs specs' [= <- <-]. split_and!; [done..|by left].
    + destruct (unify_kv_cache_spec_page_size l) as [specs2|e] eqn:Hu; cbn [mbind result_bind] in H; [|done]. destruct (unify_page_keeps _ _ Hu Hp1) as [Hk2 Hp2].
      rewrite <- Hk2. by apply page_groups_over.
Qed.

(** The part of the groups of one worker: the layers the worker has. *)
Lemma project_group_wf worker g g' : group_wf g -> NoDup (layer_names g) -> project_group worker g = Ok g' ->
  layer_names g' = filter (fun n => n ∈ worker.*1) (layer_names g) /\ group_wf g' /\ forall s, kv_cache_spec g = LayerSpec s -> kv_cache_spec g' = LayerSpec s.
Proof.
  intros Hw Hnd. unfold project_group. set (names := filter _ _). assert (Hnames : NoDup names) by (by apply NoDup_filter). intros H.
  assert (Hplain : kv_cache_spec g = kv_cache_spec g -> forall ns, ns = names -> (ns = [] \/ exists s, kv_cache_spec g = LayerSpec s) -> group_wf (mkGroup ns (kv_cache_spec g))).
  { intros _ ns -> Hns. split; [exact (gw_page _ Hw)|]. intros bs specs E. cbn in E. destruct (gw_specs _ Hw _ _ E) as (? & ? & ? & ?). split_and!; [done..|].
    cbn. destruct Hns as [->|[s Es]]; [by right|congruence]. }
  destruct names as [|n names'] eqn:En; [injection H as <-; split_and!; [done|apply (Hplain eq_refl); auto|done]|].
  destruct (kv_cache_spec g) as [s|bs specs] eqn:Es; [injection H as <-; split_and!; [done|apply (Hplain eq_refl); eauto|done]|].
  destruct (gw_specs _ Hw _ _ Es) as (Hp & Hndk & _ & _). match type of H with mapM ?f ?l ≫= _ = _ => destruct (mapM f l) as [specs'|e] eqn:Hm; cbn in H; [|done] end.
  injection H as <-. split; [done|]. split; [|done]. split; [done|]. cbn. intros bs' specs1 [= <- <-].
  assert (Hk : specs'.*1 = n :: names' /\ forall x, x ∈ specs' -> x ∈ specs).
  { apply mapM_ok in Hm. clear -Hm. induction Hm as [|m x ms xs Hx _ [IH1 IH2]]; [split; [done|by intros x ?%elem_of_nil]|].
    destruct (dict_get m specs) as [s|] eqn:E; cbn in Hx; [|done]. injection Hx as <-. split; [cbn; by rewrite IH1|]. intros y [->|Hy]%elem_of_cons; [by apply dict_get_Some_in|by apply IH2]. }
  destruct Hk as [Hk Hsub]. split_and!; [|by rewrite Hk|by destruct specs'|by left].
  intros s p Hs. apply Hp. apply list_elem_of_fmap in Hs as (x & -> & Hx). apply list_elem_of_fmap. exists x. auto.
Qed.
Lemma project_groups_over worker names groups groups' : NoDup names -> groups_over names groups -> project_groups_to_worker groups worker = Ok groups' ->
  groups_over (filter (fun n => n ∈ worker.*1) names) groups'.
Proof.
  intros Hnd [Hn Hw Hpl] H%mapM_ok. rewrite <- Hn in Hnd.
  assert (Hg : group_names groups' = filter (fun n => n ∈ worker.*1) (group_names groups) /\ (forall g, g ∈ groups' -> group_wf g) /\
    ((forall g, g ∈ groups -> exists s, kv_cache_spec g = LayerSpec s) -> forall g, g ∈ groups' -> exists s, kv_cache_spec g = LayerSpec s)).
  { clear Hn Hpl. unfold group_names in *. induction H as [|g g' groups groups' H _ IH]; [split_and!; [done|by intros g ?%elem_of_nil|by intros _ g ?%elem_of_nil]|].
    cbn in Hnd. apply NoDup_app in Hnd as (Hnd1 & _ & Hnd2).
    destruct IH as (IH1 & IH2 & IH3); [exact Hnd2|intros x Hx; apply Hw; by right|]. destruct (project_group_wf worker g g') as (H1 & H2 & H3); [apply Hw; by left|done|done|].
    split_and!; [cbn; by rewrite H1, IH1, filter_app|intros x [->|Hx]%elem_of_cons; [done|by apply IH2]|].
    intros Hall x [->|Hx]%elem_of_cons; [|apply IH3; [intros y Hy; apply Hall; by right|done]]. destruct (Hall g ltac:(by left)) as [s Hs]. exists s. by apply H3. }
  destruct Hg as (H1 & H2 & H3). split; [rewrite H1; by rewrite Hn|done|]. destruct Hpl as [[g ->]|Hpl]; [left|right; by apply H3].
  inversion H as [|? g' ? l _ Hl]; subst. inversion Hl. subst. by eexists.
Qed.

(** ** One worker *)

(** The page size of a layer in its group. *)
Definition layer_page (groups : list KVCacheGroupSpec) (x : string) (p : Z) : Prop :=
  exists g, g ∈ groups /\ x ∈ layer_names g /\
    match kv_cache_spec g with
    | LayerSpec s => page_size_bytes s = Ok p
    | UniformTypeKVCacheSpecs _ specs => exists s, dict_get x specs = Some s /\ page_size_bytes s = Ok p
    end.
Definition total_size (ts : list KVCacheTensor) : Z := foldr Z.add 0 (tensor_size <$> ts).
(** [n] blocks for the given layers, in the available memory. *)
Record config_fits (names : list string) (available n : Z) (cfg : KVCacheConfig) : Prop := {
  cg_blocks : num_blocks cfg = n;
  cg_layers : concat (shared_by <$> kv_cache_tensors cfg) ≡ₚ names;
  cg_memory : total_size (kv_cache_tensors cfg) <= Z.max 0 available;
  cg_pages : forall t, t ∈ kv_cache_tensors cfg -> exists p, 0 < p /\ tensor_size t = n * p /\
    forall x, x ∈ shared_by t -> layer_page (kv_cache_groups cfg) x p;
}.

(** The tensors, each with the [i]-th layer of every group, have each layer once. *)
Lemma shared_layers_perm groups n : (forall g, g ∈ groups -> (length (layer_names g) <= n)%nat) ->
  concat (shared_layers groups <$> seq 0 n) ≡ₚ group_names groups.
Proof.
  assert (Hone : forall (l : list string) k m, (length l <= m)%nat -> concat ((fun i => option_list (l !! (i - k)%nat)) <$> seq k m) = l).
  { induction l as [|a l IH]; intros k m Hm.
    - assert (Hz : forall js : list nat, concat ((fun i => option_list (@nil string !! (i - k)%nat)) <$> js) = []) by (by induction js). apply Hz.
    - destruct m as [|m]; cbn in Hm; [lia|]. cbn. rewrite Nat.sub_diag. cbn. f_equal. etransitivity; [|apply (IH (S k) m); lia]. f_equal. apply list_fmap_ext.
      intros j i Hi. apply lookup_seq in Hi as [-> _]. replace (S k + j - k)%nat with (S (S k + j - S k)) by lia. done. }
  unfold group_names. induction groups as [|g groups IH]; intros Hl; cbn.
  - unfold shared_layers. cbn. induction (seq 0 n); done.
  - rewrite <- IH by (intros x Hx; apply Hl; by right). rewrite <- (Hone (layer_names g) 0%nat n) by (apply Hl; by left). rewrite <- concat_app_perm.
    apply reflexive_eq. f_equal. apply list_fmap_ext. intros j i _. unfold shared_layers. cbn. rewrite Nat.sub_0_r. by destruct (layer_names g !! i).
Qed.

Lemma total_const size (ts : list KVCacheTensor) : (forall t, t ∈ ts -> tensor_size t = size) -> total_size ts = zlen ts * size.
Proof.
  unfold total_size, zlen. induction ts as [|t ts IH]; intros H; cbn; [lia|]. rewrite (H t) by (by left). rewrite IH by (intros x Hx; apply H; by right). lia.
Qed.

Lemma uniform_page groups page : get_uniform_page_size (kv_cache_spec <$> groups) = Ok page ->
  forall g, g ∈ groups -> group_page_size_bytes (kv_cache_spec g) = Ok page.
Proof.
  unfold get_uniform_page_size. destruct (mapM _ _) as [sizes|e] eqn:Hm; cbn; [|done]. destruct (remove_dups sizes) as [|p [|]] eqn:Hd; [done| |done]. intros [= ->] g Hg.
  assert (Hall : forall x, x ∈ sizes -> x = page). { intros x Hx. apply elem_of_remove_dups in Hx. rewrite Hd in Hx. by apply list_elem_of_singleton in Hx. }
  apply mapM_ok in Hm. clear Hd. remember (kv_cache_spec <$> groups) as specs eqn:E. revert groups g E Hg. induction Hm as [|s p specs sizes Hs _ IH]; intros groups g E Hg.
  - destruct groups; [by apply elem_of_nil in Hg|done].
  - destruct groups as [|g0 groups]; [done|]. injection E as -> ->. apply elem_of_cons in Hg as [->|Hg]; [rewrite Hs; f_equal; apply Hall; by left|].
    apply (IH ltac:(intros x Hx; apply Hall; by right) groups); done.
Qed.

(** [get_kv_cache_config_from_groups] for groups that share their pages. *)
Lemma paged_config_fits c groups available group_size page_size n : num_gpu_blocks_override c = None -> groups <> [] ->
  (forall g, g ∈ groups -> group_wf g) -> (forall g, g ∈ groups -> exists s, kv_cache_spec g = LayerSpec s) ->
  py_max (group_layers <$> groups) = Ok group_size -> get_uniform_page_size (kv_cache_spec <$> groups) = Ok page_size -> 0 < group_size ->
  get_num_blocks c group_size available page_size = Ok n ->
  config_fits (group_names groups) available n (mkKVConfig n ((fun i => mkTensor (page_size * n) (shared_layers groups i)) <$> seq 0 (Z.to_nat group_size)) groups) /\ 0 <= n.
Proof.
  intros Hov Hne Hw Hpl Hgs Hps Hpos Hn. pose proof (uniform_page _ _ Hps) as Hpage.
  assert (Hpp : 0 < page_size).
  { destruct groups as [|g groups]; [done|]. specialize (Hpage g ltac:(by left)). destruct (Hpl g ltac:(by left)) as [s Hs]. rewrite Hs in Hpage. by apply (gw_page g (Hw g ltac:(by left)) s). }
  unfold get_num_blocks in Hn. rewrite (proj2 (Z.eqb_neq page_size 0)), (proj2 (Z.eqb_neq group_size 0)) in Hn by lia. cbn in Hn. injection Hn as <-.
  unfold may_override_num_blocks. rewrite Hov. cbn [default]. set (n := Z.max _ 0). split; [|lia]. split; cbn [num_blocks kv_cache_tensors kv_cache_groups]; [done|..].
  - rewrite <- list_fmap_compose. cbn. apply shared_layers_perm. intros g Hg. pose proof (py_max_ge _ _ Hgs (group_layers g)). unfold group_layers, zlen in *.
    specialize (H ltac:(apply list_elem_of_fmap; by exists g)). lia.
  - rewrite (total_const (page_size * n)) by (intros t Ht; by apply list_elem_of_fmap in Ht as (i & -> & _)). unfold zlen. rewrite length_fmap, length_seq, Z2Nat.id by lia.
    destruct (Z.le_gt_cases (available / page_size / group_size) 0) as [Hz|Hz]; [replace n with 0 by lia; lia|]. replace n with (available / page_size / group_size) by lia.
    pose proof (Z.mul_div_le available page_size Hpp). pose proof (Z.mul_div_le (available / page_size) group_size Hpos). nia.
  - intros t Ht. apply list_elem_of_fmap in Ht as (i & -> & _). exists page_size. split_and!; [done|cbn; lia|]. cbn. intros x Hx. unfold shared_layers in Hx.
    apply list_elem_of_omap in Hx as (g & Hg & Hx). exists g. split_and!; [done|by apply list_elem_of_lookup_2 in Hx|]. destruct (Hpl g Hg) as [s Hs]. specialize (Hpage g Hg). by rewrite Hs in Hpage |- *.
Qed.

(** The tensors of layers with specs of their own, one for each. *)
Lemma sum_pages_spec l acc t : foldM (fun acc s => p ← page_size_bytes s; Ok (acc + p)) acc l = Ok t ->
  exists ps, Forall2 (fun s p => page_size_bytes s = Ok p) l ps /\ t = acc + foldr Z.add 0 ps.
Proof.
  revert acc. induction l as [|s l IH]; intros acc H; cbn in H; [injection H as <-; exists []; split; [done|cbn; lia]|].
  destruct (page_size_bytes s) as [p|e] eqn:E; cbn in H; [|done]. destruct (IH _ H) as (ps & Hps & ->). exists (p :: ps). split; [by constructor|cbn; lia].
Qed.
Definition layer_tensor (specs : specs_dict) (n : Z) (name : string) : result KVCacheTensor :=
  s ← of_option KeyError (dict_get name specs); p ← page_size_bytes s; Ok (mkTensor (p * n) [name]).
Lemma layer_tensors specs n l ps ts : (forall x s, (x, s) ∈ l -> dict_get x specs = Some s) ->
  Forall2 (fun s p => page_size_bytes s = Ok p) l.*2 ps -> mapM (layer_tensor specs n) l.*1 = Ok ts ->
  concat (shared_by <$> ts) = l.*1 /\ total_size ts = foldr Z.add 0 ps * n /\
  forall t, t ∈ ts -> exists x s p, (x, s) ∈ l /\ dict_get x specs = Some s /\ page_size_bytes s = Ok p /\ t = mkTensor (p * n) [x].
Proof.
  unfold total_size. revert ps ts. induction l as [|[x s] l IH]; intros ps ts Hin Hps Hm; cbn in *.
  - inversion Hps; subst. injection Hm as <-. split_and!; [done|done|by intros t ?%elem_of_nil].
  - inversion Hps as [|? p ? ps' Hp Hps']; subst. cbn [fmap list_fmap fst snd mapM] in Hm, Hps', Hp |- *.
    assert (Hone : layer_tensor specs n x = Ok (mkTensor (p * n) [x])) by (unfold layer_tensor; rewrite (Hin x s) by (by left); cbn; by rewrite Hp). rewrite Hone in Hm. cbn [mbind result_bind] in Hm.
    destruct (mapM (layer_tensor specs n) l.*1) as [ts'|e] eqn:E; cbn [mbind result_bind] in Hm; [|done]. injection Hm as <-.
    destruct (IH ps' ts') as (H1 & H2 & H3); [intros; apply Hin; by right|done|done|]. split_and!; [cbn; by rewrite H1|cbn; rewrite H2; lia|].
    intros t [->|Ht]%elem_of_cons; [exists x, s, p; split_and!; [by left|apply Hin; by left|done|done]|]. destruct (H3 t Ht) as (y & s' & p' & ? & ? & ? & ?).
    exists y, s', p'. split_and!; [by right|done..].
Qed.
Lemma foldr_positive ps : (forall p : Z, p ∈ ps -> 0 < p) -> ps <> [] -> 0 < foldr Z.add 0 ps.
Proof.
  induction ps as [|p ps IH]; intros H Hne; [done|]. cbn. pose proof (H p ltac:(by left)). destruct ps as [|q ps]; [cbn; lia|].
  specialize (IH ltac:(intros x Hx; apply H; by right) ltac:(done)). lia.
Qed.
Lemma pages_list_positive l ps : (forall s p, s ∈ l -> page_size_bytes s = Ok p -> 0 < p) ->
  Forall2 (fun s p => page_size_bytes s = Ok p) l ps -> forall p : Z, p ∈ ps -> 0 < p.
Proof.
  intros Hp H. induction H as [|s p l ps Hs _ IH]; intros q Hq; [by apply elem_of_nil in Hq|]. apply elem_of_cons in Hq as [->|Hq]; [by apply (Hp s); [left|]|].
  refine (IH _ q Hq). intros s' p' ?. apply Hp. by right.
Qed.
Lemma uniform_config_fits c g bs specs available page ts : num_gpu_blocks_override c = None -> group_wf g -> kv_cache_spec g = UniformTypeKVCacheSpecs bs specs ->
  group_page_size_bytes (kv_cache_spec g) = Ok page -> mapM (layer_tensor specs (available / page)) (layer_names g) = Ok ts -> (layer_names g <> [] -> 0 < available) ->
  config_fits (group_names [g]) available (available / page) (mkKVConfig (available / page) ts [g]) /\ (0 < available -> 0 <= available / page).
Proof.
  intros Hov Hw Hs Hpage Hts Hav. destruct (gw_specs _ Hw _ _ Hs) as (Hp & Hnd & Hne & Hnames). rewrite Hs in Hpage. cbn in Hpage.
  destruct (sum_pages_spec _ _ _ Hpage) as (ps & Hps & ->). cbn [Z.add] in *.
  assert (Hpos : forall p, p ∈ ps -> 0 < p) by (by apply (pages_list_positive specs.*2)).
  assert (Hsum : 0 < foldr Z.add 0 ps). { apply foldr_positive; [done|]. intros ->. destruct specs; [done|]. inversion Hps. }
  set (n := available / foldr Z.add 0 ps) in *. split; [|intros Ha; apply Z.div_pos; lia]. unfold group_names. cbn. rewrite app_nil_r. destruct Hnames as [Hnames|Hnames].
  - rewrite Hnames in *. destruct (layer_tensors specs n specs ps ts) as (H1 & H2 & H3); [intros x s Hx; by apply dict_get_elem|done|done|].
    split; [done|by cbn; rewrite H1| |].
    + cbn [kv_cache_tensors]. rewrite H2. unfold n. pose proof (Z.mul_div_le available (foldr Z.add 0 ps) Hsum). lia.
    + intros t Ht. cbn in Ht. destruct (H3 t Ht) as (x & s & p & Hin & Hx & Hpx & ->). exists p. split_and!; [apply (Hp s); [apply list_elem_of_fmap; by exists (x, s)|done]|cbn [tensor_size]; apply Z.mul_comm|].
      intros y ->%list_elem_of_singleton. exists g. split_and!; [by left|rewrite Hnames; apply list_elem_of_fmap; by exists (x, s)|]. rewrite Hs. by exists s.
  - rewrite Hnames in *. injection Hts as <-. split; cbn; [done|done|unfold total_size; cbn; lia|by intros t ?%elem_of_nil].
Qed.

(** [get_kv_cache_config_from_groups]. *)
Lemma config_from_groups_fits c names groups available cfg : num_gpu_blocks_override c = None -> groups_over names groups -> (groups <> [] -> 0 < available) ->
  get_kv_cache_config_from_groups c groups available = Ok cfg -> config_fits names available (num_blocks cfg) cfg /\ 0 <= num_blocks cfg.
Proof.
  intros Hov [Hn Hw Hpl] Hav H. assert (Hperm : forall n, config_fits (group_names groups) available n cfg -> config_fits names available n cfg).
  { intros n [? ? ? ?]. split; try done. by rewrite <- Hn. }
  unfold get_kv_cache_config_from_groups in H. destruct groups as [|g groups].
  - injection H as <-. split; [|done]. apply Hperm. split; cbn; [done|done|unfold total_size; cbn; lia|by intros t ?%elem_of_nil].
  - specialize (Hav ltac:(done)). destruct (uniform_specs (g :: groups)) as [specs|] eqn:Hu.
    + destruct groups as [|]; [|done]. cbn in Hu. destruct (kv_cache_spec g) as [|bs specs'] eqn:Hs; [done|]. injection Hu as ->. rewrite <- Hs in H.
      destruct (group_page_size_bytes (kv_cache_spec g)) as [page|e] eqn:Hp; cbn [mbind result_bind] in H; [|done]. destruct (page =? 0); [done|]. cbn [mbind result_bind] in H.
      unfold may_override_num_blocks in H. rewrite Hov in H. cbn [default] in H. fold (layer_tensor specs (available / page)) in H.
      destruct (mapM (layer_tensor specs (available / page)) (layer_names g)) as [ts|e] eqn:Hts; cbn [mbind result_bind] in H; [|done]. injection H as <-. cbn [num_blocks].
      destruct (uniform_config_fits c g bs specs available page ts) as [H1 H2]; try done; [apply Hw; by left|]. split; [by apply Hperm|by apply H2].
    + destruct (py_max _) as [gs|e] eqn:Hgs; cbn [mbind result_bind] in H; [|done]. destruct (get_uniform_page_size _) as [page|e] eqn:Hp; cbn [mbind result_bind] in H; [|done].
      destruct (Z.ltb_spec 0 gs) as [Hpos|]; cbn [py_assert mbind result_bind] in H; [|done]. destruct (get_num_blocks _ _ _ _) as [n|e] eqn:Hb; cbn [mbind result_bind] in H; [|done].
      injection H as <-. cbn [num_blocks]. assert (Hpl' : forall x, x ∈ g :: groups -> exists s, kv_cache_spec x = LayerSpec s).
      { destruct Hpl as [[g' [= -> ->]]|Hpl]; [|done]. intros x ->%list_elem_of_singleton. cbn in Hu. destruct (kv_cache_spec g'); [by eexists|done]. }
      destruct (paged_config_fits c (g :: groups) available gs page n) as [H1 H2]; try done. split; [by apply Hperm|done].
Qed.

(** ** All workers *)

Lemma shrink_fits c n cfg cfg' names available : config_fits names available (num_blocks cfg) cfg -> 0 <= n <= num_blocks cfg -> shrink_config c n cfg = Ok cfg' ->
  config_fits names available n cfg'.
Proof.
  intros [_ Hl Hm Hp] Hn H. unfold shrink_config in H. destruct (mapM _ _) as [ts|e] eqn:Hts; cbn [mbind result_bind] in H; [|done].
  assert (Hcfg : cfg' = mkKVConfig n ts (kv_cache_groups cfg)) by (destruct (kv_cache_groups cfg); [by injection H as <-|by inv_res]). subst cfg'. clear H.
  apply mapM_ok in Hts. set (old := num_blocks cfg) in *.
  assert (Ht : concat (shared_by <$> ts) = concat (shared_by <$> kv_cache_tensors cfg) /\ total_size ts <= total_size (kv_cache_tensors cfg) /\
    forall t, t ∈ ts -> exists p, 0 < p /\ tensor_size t = n * p /\ forall x, x ∈ shared_by t -> layer_page (kv_cache_groups cfg) x p).
  { clear Hl Hm. unfold total_size. induction Hts as [|t t' ts0 ts Ht _ IH]; [split_and!; [done|done|by intros t ?%elem_of_nil]|].
    destruct IH as (IH1 & IH2 & IH3); [intros x Hx; apply Hp; by right|]. destruct (Hp t ltac:(by left)) as (p & Hpos & Hs & Hpage). unfold shrink_tensor in Ht.
    destruct (Z.eqb_spec old 0) as [|Hold]; cbn [mbind result_bind] in Ht; [done|]. rewrite Hs, (Z.mul_comm old p), Z.mod_mul, Z.div_mul in Ht by done. cbn in Ht. injection Ht as <-.
    split_and!; [cbn; by rewrite IH1|cbn; rewrite Hs; cbn in IH2; nia|]. intros x [->|Hx]%elem_of_cons; [|by apply IH3]. exists p. split_and!; [done|apply Z.mul_comm|done]. }
  destruct Ht as (H1 & H2 & H3). split; cbn [num_blocks kv_cache_tensors kv_cache_groups]; [done|by rewrite H1|lia|done].
Qed.

Lemma merge_workers_spec workers merged : merge_worker_specs workers = Ok merged ->
  NoDup merged.*1 /\ (forall p, p ∈ concat workers -> dict_get p.1 merged = Some p.2) /\ forall p, p ∈ merged -> p ∈ concat workers.
Proof.
  unfold merge_worker_specs. generalize (concat workers). intros l H.
  assert (Hgen : forall seen d, (NoDup d.*1 /\ (forall p, p ∈ seen -> dict_get p.1 d = Some p.2) /\ forall p, p ∈ d -> p ∈ seen) ->
    foldM (fun d p => match dict_get p.1 d with None => Ok (dict_set p.1 p.2 d) | Some s => _ ← py_assert (bool_decide (s = p.2)); Ok d end) d l = Ok merged ->
    NoDup merged.*1 /\ (forall p, p ∈ seen ++ l -> dict_get p.1 merged = Some p.2) /\ forall p, p ∈ merged -> p ∈ seen ++ l).
  { clear H. induction l as [|q l IH]; intros seen d Hd H; cbn in H; [injection H as <-; by rewrite app_nil_r|]. destruct Hd as (Hnd & Hget & Hin).
    replace (seen ++ q :: l) with ((seen ++ [q]) ++ l) by (by rewrite <- app_assoc). destruct (dict_get q.1 d) as [s|] eqn:E.
    - destruct (bool_decide_reflect (s = q.2)) as [->|]; cbn in H; [|done]. apply (IH _ d); [|done]. split_and!; [done|intros x [Hx| ->%list_elem_of_singleton]%elem_of_app; [by apply Hget|done]|].
      intros x Hx. apply elem_of_app. left. by apply Hin.
    - apply (IH _ (dict_set q.1 q.2 d)); [|done]. split_and!; [by apply dict_set_nodup| |].
      + intros x Hx. rewrite dict_get_set. case_decide as Ek; [|apply Hget; apply elem_of_app in Hx as [|Hx%list_elem_of_singleton]; [done|by subst x]].
        apply elem_of_app in Hx as [Hx| ->%list_elem_of_singleton]; [|done]. apply Hget in Hx. congruence.
      + intros [k v] Hx. apply (dict_get_elem k v) in Hx; [|by apply dict_set_nodup]. rewrite dict_get_set in Hx. apply elem_of_app.
        case_decide as Ek; [injection Hx as <-; right; apply list_elem_of_singleton; by destruct q; cbn in *; subst|left; apply Hin; by apply dict_get_Some_in]. }
  apply (Hgen [] []); [split_and!; [constructor|by intros p ?%elem_of_nil|done]|done].
Qed.


Lemma worker_names workers merged w : merge_worker_specs workers = Ok merged -> w ∈ workers -> NoDup w.*1 ->
  filter (fun n => n ∈ w.*1) merged.*1 ≡ₚ w.*1.
Proof.
  intros Hm Hw Hnd. destruct (merge_workers_spec _ _ Hm) as (Hndm & Hget & _). apply NoDup_Permutation; [by apply NoDup_filter|done|].
  intros x. rewrite list_elem_of_filter. split; [by intros [? _]|]. intros Hx. split; [done|]. apply list_elem_of_fmap in Hx as ([y s] & -> & Hin).
  assert (Hc : (y, s) ∈ concat workers) by (apply in_groups; by exists w). apply Hget, dict_get_Some_in in Hc. apply list_elem_of_fmap. by exists (y, s).
Qed.

Lemma auto_fit_override c groups available c' : auto_fit_max_model_len c groups available = Ok c' -> num_gpu_blocks_override c' = num_gpu_blocks_override c.
Proof.
  unfold auto_fit_max_model_len. destruct (forallb _ _); [by intros [= <-]|]. intros H. inv_res. destruct (_ <=? 0); [done|]. destruct (_ <=? _); by injection H as <-.
Qed.
Lemma check_worker_memory c groups available : check_worker c (groups, available) = Ok () -> groups <> [] -> 0 < available.
Proof. unfold check_worker, check_enough_memory. cbn. destruct groups; [done|]. destruct (Z.leb_spec available 0); [done|]. lia. Qed.

Lemma config_one c workers merged groups i w a pr cfg :
  num_gpu_blocks_override c = None -> Forall (fun w => NoDup w.*1 /\ pages_positive w) workers ->
  merge_worker_specs workers = Ok merged -> groups_over merged.*1 groups ->
  workers !! i = Some w -> project_groups_to_worker groups w = Ok pr -> (pr <> [] -> 0 < a) -> worker_config c (pr, w, a) = Ok cfg ->
  config_fits w.*1 a (num_blocks cfg) cfg /\ 0 <= num_blocks cfg.
Proof.
  intros Hov Hall Hm Hg Hw Hpr Ha Hcfg. pose proof (list_elem_of_lookup_2 _ _ _ Hw) as Hin. rewrite Forall_forall in Hall. destruct (Hall w Hin) as [Hnd _].
  destruct (merge_workers_spec _ _ Hm) as (Hndm & _). pose proof (project_groups_over w _ _ _ Hndm Hg Hpr) as Hover.
  unfold worker_config in Hcfg. inv_res. apply (config_from_groups_fits c w.*1 pr a cfg Hov); [|done|done].
  destruct Hover as [H1 H2 H3]. split; [|done|done]. rewrite H1. by apply (worker_names workers).
Qed.

(** C19: The KV cache configurations of the workers agree with each other and with the memory:
    when [get_kv_cache_configs] accepts specs with positive page sizes, and the number of
    blocks is not overridden, then for every way of grouping the layers each worker gets the
    same number of blocks, each of its layers has exactly one tensor, that tensor has this
    many pages of the page size of its layers, and the tensors together fit in the memory
    available on the worker. *)
Theorem kv_cache_configs_fit c workers available cfgs c' : num_gpu_blocks_override c = None ->
  Forall (fun w => NoDup w.*1 /\ pages_positive w) workers -> length available = length workers ->
  get_kv_cache_configs c workers available = Ok (cfgs, c') ->
  length cfgs = length workers /\ exists n, 0 <= n /\ forall i w a cfg, workers !! i = Some w -> available !! i = Some a -> cfgs !! i = Some cfg -> config_fits w.*1 a n cfg.
Proof.
  intros Hov Hall Hlen H. unfold get_kv_cache_configs in H.
  apply bind_Ok in H as (merged & Hm & H). apply bind_Ok in H as (groups & Hg & H). apply bind_Ok in H as (projected & Hp & H). apply bind_Ok in H as (c1 & Hc & H).
  apply bind_Ok in H as (us & Hcheck & H). apply bind_Ok in H as (cfgs0 & H0 & H). apply bind_Ok in H as (n & Hn & H). apply bind_Ok in H as (cfgs' & H1 & H). injection H as <- <-.
  assert (Hov1 : num_gpu_blocks_override c1 = None).
  { destruct (original_max_model_len c =? -1); [by rewrite (auto_fit_override _ _ _ _ Hc)|by injection Hc as <-]. }
  destruct (merge_workers_spec _ _ Hm) as (Hndm & _ & Hsub).
  assert (Hover : groups_over merged.*1 groups).
  { apply (get_groups_over c); [done| |done]. intros s p Hs. apply list_elem_of_fmap in Hs as (q & -> & Hq). apply Hsub, in_groups in Hq as (w & Hw & Hq).
    rewrite Forall_forall in Hall. destruct (Hall w Hw) as [_ Hpos]. apply Hpos. apply list_elem_of_fmap. by exists q. }
  pose proof (mapM_length _ _ _ Hp) as Lp. pose proof (mapM_length _ _ _ H0) as L0. pose proof (mapM_length _ _ _ H1) as L1. rewrite !length_zip_with in L0.
  assert (Hfit : forall i w a cfg, workers !! i = Some w -> available !! i = Some a -> cfgs0 !! i = Some cfg -> config_fits w.*1 a (num_blocks cfg) cfg /\ 0 <= num_blocks cfg).
  { intros i w a cfg Hw Ha Hcfg. destruct (lookup_lt_is_Some_2 projected i) as [pr Hpr]; [rewrite Lp; by apply lookup_lt_Some in Hw|].
    apply (config_one c1 workers merged groups i w a pr cfg); try done.
    - by apply (mapM_lookup _ _ _ i w pr Hp).
    - destruct (lookup_lt_is_Some_2 us i) as [u Hu]. { rewrite (mapM_length _ _ _ Hcheck), length_zip_with. apply lookup_lt_Some in Hpr, Ha. lia. }
      apply (check_worker_memory (vllm c1)). destruct u. apply (mapM_lookup _ _ _ i _ _ Hcheck); [|done]. rewrite lookup_zip_with, Hpr. cbn. by rewrite Ha.
    - apply (mapM_lookup _ _ _ i _ _ H0); [|done]. rewrite !lookup_zip_with, Hpr. cbn. rewrite Hw. cbn. by rewrite Ha. }
  destruct (py_min_in _ _ Hn) as [Hin Hle]. split; [lia|]. exists n.
  assert (Hcfg0 : forall cfg, cfg ∈ cfgs0 -> exists i w a, workers !! i = Some w /\ available !! i = Some a /\ cfgs0 !! i = Some cfg).
  { intros cfg Hc0. apply list_elem_of_lookup in Hc0 as [i Hi]. pose proof (lookup_lt_Some _ _ _ Hi).
    destruct (lookup_lt_is_Some_2 workers i) as [w Hw]; [lia|]. destruct (lookup_lt_is_Some_2 available i) as [a Ha]; [lia|]. by exists i, w, a. }
  assert (Hn0 : 0 <= n). { apply list_elem_of_fmap in Hin as (cfg & -> & Hc0). destruct (Hcfg0 _ Hc0) as (i & w & a & Hw & Ha & Hi). by apply (Hfit i w a cfg). }
  split; [done|]. intros i w a cfg' Hw Ha Hcfg'. destruct (lookup_lt_is_Some_2 cfgs0 i) as [cfg Hcfg]; [apply lookup_lt_Some in Hcfg'; lia|].
  destruct (Hfit i w a cfg Hw Ha Hcfg) as [Hf _]. apply (shrink_fits (vllm c1) n cfg); [done| |by apply (mapM_lookup _ _ _ i _ _ H1)].
  split; [done|]. apply Hle. apply list_elem_of_fmap. exists cfg. split; [done|]. by apply list_elem_of_lookup_2 in Hcfg.
Qed.

(** Two workers of a pipeline, with a full and a sliding window layer each. *)
Definition stage (a b : string) : specs_dict := [(a, small_full); (b, small_sliding)].
Definition stages : list specs_dict := [stage "a" "b"; stage "c" "d"].
Definition stage_memory : list Z := [120; 100].
Definition small_sizing : SizingConfig := mkSizing small_config None false (-1).
Definition stage_configs : list KVCacheConfig :=
  match get_kv_cache_configs small_sizing stages stage_memory with Ok (cfgs, _) => cfgs | Err _ => [] end.
Lemma kv_cache_configs_fit_witness :
  get_kv_cache_configs small_sizing stages stage_memory = Ok (stage_configs, small_sizing) /\ num_blocks <$> stage_configs = [12; 12] /\
  exists n, 0 <= n /\ forall i w a cfg, stages !! i = Some w -> stage_memory !! i = Some a -> stage_configs !! i = Some cfg -> config_fits w.*1 a n cfg.
Proof.
  assert (E : get_kv_cache_configs small_sizing stages stage_memory = Ok (stage_configs, small_sizing)) by (vm_compute; reflexivity).
  assert (Hst : forall a b, a <> b -> NoDup (stage a b).*1 /\ pages_positive (stage a b)).
  { intros a b Hab. split; [change (NoDup [a; b]); apply NoDup_cons; split; [rewrite list_elem_of_singleton; exact Hab|apply NoDup_singleton]|].
    intros s p Hs Hp. cbn in Hs. apply elem_of_cons in Hs as [->| ->%list_elem_of_singleton]; vm_compute in Hp; injection Hp as <-; reflexivity. }
  assert (Hall : Forall (fun w => NoDup w.*1 /\ pages_positive w) stages) by (constructor; [by apply Hst|constructor; [by apply Hst|constructor]]).
  assert (En : num_blocks <$> stage_configs = [12; 12]) by (by vm_compute).
  exact (conj E (conj En (proj2 (kv_cache_configs_fit small_sizing stages stage_memory stage_configs small_sizing eq_refl Hall eq_refl E)))).
Defined.
