(* ===== verification/BlockPool.v ===== *)
(** * The block pool

    vllm/v1/core/block_pool.py: [BlockHashToBlockMap] (the prefix-cache table,
    one block or an insertion-ordered dict of blocks per key) and [BlockPool]
    (allocation, caching, eviction, reference counting), over the pointer-level
    free queue.  The pool is modelled with [metrics_collector=None], its default;
    [use_int] is the environment flag of [maybe_convert_block_hash]. *)
From S2P Require Import Prelude FreeQueue Request BlockHash.

(** ** [BlockHashToBlockMap] *)

(** The union type of the values. *)
Inductive cache_entry : Type :=
  | One (b : blkref)
  | Many (d : list (Z * blkref)).

Abbreviation hash_map := (gmap bytes cache_entry).

(** [get_one_block]. *)
Definition get_one_block (m : hash_map) (key : bytes) : result (option blkref) :=
  match m !! key with
  | None => Ok None
  | Some (One b) => Ok (Some b)
  | Some (Many ((_, b) :: _)) => Ok (Some b)
  | Some (Many []) => Err StopIteration
  end.

(** [insert]; [bid] reads a block's [block_id]. *)
Definition map_insert (bid : blkref -> Z) (key : bytes) (b : blkref) (m : hash_map) : hash_map :=
  match m !! key with
  | None => <[key := One b]> m
  | Some (One b0) => <[key := Many (dict_set (bid b) b (dict_set (bid b0) b0 []))]> m
  | Some (Many d) => <[key := Many (dict_set (bid b) b d)]> m
  end.

(** [pop]. *)
Definition map_pop (bid : blkref -> Z) (key : bytes) (i : Z) (m : hash_map)
  : option blkref * hash_map :=
  match m !! key with
  | None => (None, m)
  | Some (One b) => if bid b =? i then (Some b, delete key m) else (None, m)
  | Some (Many d) =>
      let d' := dict_del i d in
      (dict_get i d, match d' with [] => delete key m | _ => <[key := Many d']> m end)
  end.

(** ** [BlockPool] *)

(** The events of vllm/distributed/kv_events.py, with the fields the pool sets. *)
Inductive KVCacheEvent : Type :=
  | BlockStored (hashes : list (bytes + Z)) (parent : option (bytes + Z)) (token_ids : list Z)
      (block_size : Z) (lora_id : option Z) (lora : option string)
      (extra_keys : option (list (option (list hkey))))
  | BlockRemoved (hashes : list (bytes + Z))
  | AllBlocksCleared.

Record BlockPool : Type := mkPool {
  num_gpu_blocks : Z;
  enable_caching : bool;
  hash_block_size : Z;
  blocks : list blkref;
  free_block_queue : FreeQ;
  cached_block_hash_to_block : hash_map;
  null_block : blkref;
  enable_kv_cache_events : bool;
  kv_event_queue : list KVCacheEvent;
}.

Definition pheap (p : BlockPool) : heap := qheap (free_block_queue p).

Definition set_queue (q : FreeQ) (p : BlockPool) : BlockPool :=
  mkPool (num_gpu_blocks p) (enable_caching p) (hash_block_size p) (blocks p) q
    (cached_block_hash_to_block p) (null_block p) (enable_kv_cache_events p) (kv_event_queue p).
Definition set_cached (m : hash_map) (p : BlockPool) : BlockPool :=
  mkPool (num_gpu_blocks p) (enable_caching p) (hash_block_size p) (blocks p) (free_block_queue p)
    m (null_block p) (enable_kv_cache_events p) (kv_event_queue p).
Definition set_events (ev : list KVCacheEvent) (p : BlockPool) : BlockPool :=
  mkPool (num_gpu_blocks p) (enable_caching p) (hash_block_size p) (blocks p) (free_block_queue p)
    (cached_block_hash_to_block p) (null_block p) (enable_kv_cache_events p) ev.

(** Mutation of one block object of the pool. *)
Definition upd_block (r : blkref) (f : KVCacheBlock -> KVCacheBlock) (p : BlockPool) : BlockPool :=
  set_queue (mkQ (upd r f (pheap p)) (num_free_blocks (free_block_queue p))) p.

Definition push_event (ev : KVCacheEvent) (p : BlockPool) : BlockPool :=
  if enable_kv_cache_events p then set_events (kv_event_queue p ++ [ev]) p else p.

(** [BlockPool.__init__]. *)
Definition pool_init (n : Z) (caching : bool) (hash_bs : Z) (events : bool) : result BlockPool :=
  _ ← py_assert (0 <? n);
  let bs := RBlk <$> seq 0 (Z.to_nat n) in
  let h0 : heap := fun r => match r with RBlk i => new_block (Z.of_nat i) | _ => new_block (-1) end in
  '(nb, q) ← popleft (queue_init bs h0);
  Ok (mkPool n caching hash_bs bs (mkQ (upd nb (with_is_null true) (qheap q)) (num_free_blocks q))
        ∅ nb events []).

(** [get_num_free_blocks]. *)
Definition get_num_free_blocks (p : BlockPool) : Z := num_free_blocks (free_block_queue p).

(** [get_cached_block]. *)
Fixpoint get_cached_block_loop (p : BlockPool) (h : bytes) (gids : list Z) (acc : list blkref)
  : result (option (list blkref)) :=
  match gids with
  | [] => Ok (Some acc)
  | g :: gids' =>
      key ← make_block_hash_with_group_id h g;
      ob ← get_one_block (cached_block_hash_to_block p) key;
      match ob with
      | None => Ok None
      | Some b => get_cached_block_loop p h gids' (acc ++ [b])
      end
  end.
Definition get_cached_block (p : BlockPool) (h : bytes) (gids : list Z)
  : result (option (list blkref)) := get_cached_block_loop p h gids [].

(** [_maybe_evict_cached_block]. *)
Definition maybe_evict_cached_block (use_int : bool) (b : blkref) (p : BlockPool)
  : bool * BlockPool :=
  match block_hash (pheap p b) with
  | None => (false, p)
  | Some k =>
      let bid := fun r => block_id (pheap p r) in
      match map_pop bid k (bid b) (cached_block_hash_to_block p) with
      | (None, m) => (false, set_cached m p)
      | (Some _, m) =>
          let p1 := upd_block b reset_hash (set_cached m p) in
          (true, push_event (BlockRemoved [maybe_convert_block_hash use_int (get_block_hash k)]) p1)
      end
  end.

(** The body of the loops of [get_new_blocks]. *)
Definition take_block (use_int : bool) (p : BlockPool) (b : blkref) : result BlockPool :=
  let p1 := if enable_caching p then snd (maybe_evict_cached_block use_int b p) else p in
  _ ← py_assert (ref_cnt (pheap p1 b) =? 0);
  Ok (upd_block b (fun x => with_ref_cnt (ref_cnt x + 1) x) p1).

(** [get_new_blocks]. *)
Definition get_new_blocks (use_int : bool) (n : Z) (p : BlockPool)
  : result (list blkref * BlockPool) :=
  if get_num_free_blocks p <? n then Err ValueError else
  '(ret, q) ← popleft_n n (free_block_queue p);
  p' ← foldM (take_block use_int) (set_queue q p) ret;
  Ok (ret, p').

(** [touch]. *)
Definition touch_block (p : BlockPool) (b : blkref) : result BlockPool :=
  let x := pheap p b in
  p1 ← (if (ref_cnt x =? 0) && negb (is_null x) then
          q ← remove b (free_block_queue p); Ok (set_queue q p)
        else Ok p);
  Ok (upd_block b (fun x => with_ref_cnt (ref_cnt x + 1) x) p1).
Definition touch (bs : list blkref) (p : BlockPool) : result BlockPool := foldM touch_block p bs.

(** [free_blocks]. *)
Definition release_block (p : BlockPool) (b : blkref) : BlockPool :=
  upd_block b (fun x => with_ref_cnt (ref_cnt x - 1) x) p.
Definition is_freeable (p : BlockPool) (b : blkref) : Prop :=
  ref_cnt (pheap p b) = 0 /\ is_null (pheap p b) = false.
#[global] Instance is_freeable_dec p b : Decision (is_freeable p b).
Proof. unfold is_freeable. apply _. Defined.
Definition free_blocks (ordered_blocks : list blkref) (p : BlockPool) : result BlockPool :=
  let p1 := foldl release_block p ordered_blocks in
  q ← append_n (filter (is_freeable p1) ordered_blocks) (free_block_queue p1);
  Ok (set_queue q p1).

(** [evict_blocks]; the set is given in its iteration order. *)
Definition evict_blocks (use_int : bool) (block_ids : list Z) (p : BlockPool) : result BlockPool :=
  foldM (fun p i =>
    _ ← py_assert (i <? zlen (blocks p));
    b ← py_index (blocks p) i;
    Ok (snd (maybe_evict_cached_block use_int b p))) p block_ids.

(** [reset_prefix_cache]. *)
Definition reset_prefix_cache (p : BlockPool) : bool * BlockPool :=
  if negb (num_gpu_blocks p - get_num_free_blocks p =? 1) then (false, p) else
  let p1 := foldl (fun p b => upd_block b reset_hash p) (set_cached ∅ p) (blocks p) in
  (true, push_event AllBlocksCleared p1).

(** [take_events]. *)
Definition take_events (p : BlockPool) : list KVCacheEvent * BlockPool :=
  if negb (enable_kv_cache_events p) then ([], p) else (kv_event_queue p, set_events [] p).

(** *** [cache_full_blocks] *)

(** The hashes at the granularity of the group: a plain list or a scaled view. *)
Inductive hash_list : Type :=
  | Plain (l : list bytes)
  | Scaled (b : BlockHashListWithBlockSize).

Definition hl_index (l : hash_list) (i : Z) : result bytes :=
  match l with Plain l => py_index l i | Scaled b => bhl_get_value_at b i end.
Definition hl_from (l : hash_list) (start : Z) : result (list bytes) :=
  match l with Plain l => Ok (drop (Z.to_nat start) l) | Scaled b => bhl_slice_from b start end.

(** One iteration of the caching loop; the state is the pool and [new_hashes]. *)
Definition cache_one_block (use_int : bool) (new_block_hashes : list bytes) (gid : Z)
    (s : BlockPool * list (bytes + Z)) (ib : nat * blkref) : result (BlockPool * list (bytes + Z)) :=
  let '(p, new_hashes) := s in
  let '(i, b) := ib in
  if is_null (pheap p b) then Ok (p, new_hashes) else
  _ ← py_assert (bool_decide (block_hash (pheap p b) = None));
  h ← py_index new_block_hashes (Z.of_nat i);
  key ← make_block_hash_with_group_id h gid;
  x ← set_block_hash key (pheap p b);
  let p1 := upd_block b (fun _ => x) p in
  let p2 := set_cached (map_insert (fun r => block_id (pheap p1 r)) key b
                          (cached_block_hash_to_block p1)) p1 in
  Ok (p2, new_hashes ++ [maybe_convert_block_hash use_int h]).

(** The loop collecting the extra keys of the event. *)
Definition stored_keys_step (p : BlockPool) (bs : list blkref) (block_size : Z)
    (s : list (option (list hkey)) * Z * Request) (i : Z)
  : result (list (option (list hkey)) * Z * Request) :=
  let '(keys, mm_idx, r) := s in
  b ← py_index bs i;
  if is_null (pheap p b) then Ok (keys, mm_idx, r) else
  let s0 := i * block_size in
  '(k, mm_idx', memo) ← generate_block_hash_extra_keys r s0 (s0 + block_size) mm_idx;
  Ok (keys ++ [k], mm_idx', set_embeds_hashes memo r).

Definition stored_event (use_int : bool) (p : BlockPool) (r : Request) (bs : list blkref)
    (hl : hash_list) (new_hashes : list (bytes + Z)) (num_cached num_full block_size : Z)
  : result (KVCacheEvent * Request) :=
  parent ← (if num_cached =? 0 then Ok None
            else h ← hl_index hl (num_cached - 1); Ok (Some (maybe_convert_block_hash use_int h)));
  '(keys, _, r') ← foldM (stored_keys_step p bs block_size) ([], 0, r) (py_range num_cached num_full);
  Ok (BlockStored new_hashes parent
        (py_slice (all_token_ids r) (num_cached * block_size) (num_full * block_size))
        block_size (lora_int_id <$> lora_request r) (lora_name <$> lora_request r)
        (match keys with [] => None | _ => Some keys end), r').

(** [cache_full_blocks]; the request comes back with its digest table updated. *)
Definition cache_full_blocks (use_int : bool) (r : Request) (bs : list blkref)
    (num_cached num_full block_size gid : Z) (p : BlockPool) : result (Request * BlockPool) :=
  if num_full <=? num_cached then Ok (r, p) else
  let new_full := py_slice bs num_cached num_full in
  _ ← py_assert (num_full <=? zlen (Request.block_hashes r));
  hl ← (if block_size =? hash_block_size p then Ok (Plain (Request.block_hashes r))
        else if hash_block_size p =? 0 then Err ZeroDivisionError
        else
          _ ← py_assert (block_size mod hash_block_size p =? 0);
          b ← bhl_init (Request.block_hashes r) (hash_block_size p) block_size;
          Ok (Scaled b));
  new_block_hashes ← hl_from hl num_cached;
  '(p1, new_hashes) ← foldM (cache_one_block use_int new_block_hashes gid) (p, [])
                        (zip (seq 0 (length new_full)) new_full);
  if enable_kv_cache_events p1 then
    '(ev, r') ← stored_event use_int p1 r bs hl new_hashes num_cached num_full block_size;
    Ok (r', push_event ev p1)
  else Ok (r, p1).

(** ** The prefix-cache table *)

Section HashMap.
Context (bid : blkref -> Z).
Implicit Types (m : hash_map) (k : bytes) (b : blkref).

(** Block [b] is stored under key [k]. *)
Definition cached_in m k b : Prop :=
  match m !! k with
  | None => False
  | Some (One b') => b = b'
  | Some (Many d) => b ∈ d.*2
  end.

(** Dict values are non-empty and indexed by the identifiers of their blocks. *)
Definition map_wf m : Prop :=
  forall k d, m !! k = Some (Many d) ->
    d <> [] /\ NoDup d.*1 /\ forall i b, (i, b) ∈ d -> bid b = i.

Lemma many_get m k d b :
  map_wf m -> m !! k = Some (Many d) -> b ∈ d.*2 <-> dict_get (bid b) d = Some b.
Proof.
  intros Hwf Hk. destruct (Hwf k d Hk) as (_ & Hnd & Hid). rewrite (dict_get_elem _ _ _ Hnd). split.
  - intros [[i b'] [-> Hin]]%list_elem_of_fmap. cbn in *. by rewrite (Hid i b').
  - intros Hin. apply list_elem_of_fmap. by exists (bid b, b).
Qed.

Lemma get_one_block_cached m k :
  map_wf m ->
  match get_one_block m k with
  | Ok (Some b) => cached_in m k b
  | Ok None => forall b, ~ cached_in m k b
  | Err _ => False
  end.
Proof.
  intros Hwf. unfold get_one_block, cached_in.
  destruct (m !! k) as [[b|[|[i b] d]]|] eqn:E; try done.
  - by destruct (Hwf k [] E).
  - cbn. constructor.
  - auto.
Qed.

(** Membership in a dict after an insertion under a fresh identifier. *)
Lemma dict_set_values (d : list (Z * blkref)) b b' :
  NoDup d.*1 -> (forall i x, (i, x) ∈ d -> bid x = i) -> bid b ∉ d.*1 ->
  b' ∈ (dict_set (bid b) b d).*2 <-> b' = b \/ b' ∈ d.*2.
Proof.
  intros Hnd Hid Hb. clear Hnd. induction d as [|[i x] d IH]; cbn in *; [set_solver|].
  rewrite decide_False by (intros ->; apply Hb; set_solver). cbn. rewrite !elem_of_cons, IH; [tauto| |].
  - intros j y Hin. apply Hid. by constructor.
  - set_solver.
Qed.

Lemma dict_set_ids (d : list (Z * blkref)) b :
  (forall i x, (i, x) ∈ d -> bid x = i) ->
  forall i x, (i, x) ∈ dict_set (bid b) b d -> bid x = i.
Proof.
  induction d as [|[j y] d IH]; cbn; intros Hid i x.
  - rewrite list_elem_of_singleton. by intros [= -> ->].
  - case_decide; rewrite elem_of_cons; intros [[= -> ->]|Hin].
    + done.
    + apply Hid. by constructor.
    + apply Hid. constructor.
    + eapply IH; [|done]. intros i' x' Hin'. apply Hid. by constructor.
Qed.

Lemma dict_set_nonempty (d : list (Z * blkref)) i b : dict_set i b d <> [].
Proof. destruct d as [|[j y] d]; cbn; [done|]. by case_decide. Qed.

Lemma map_insert_spec m k b :
  map_wf m -> (forall b', cached_in m k b' -> bid b' <> bid b) ->
  map_wf (map_insert bid k b m) /\
  forall k' b', cached_in (map_insert bid k b m) k' b' <-> (k' = k /\ b' = b) \/ cached_in m k' b'.
Proof.
  intros Hwf Hnew. unfold map_insert, cached_in in *.
  destruct (m !! k) as [[b0|d]|] eqn:E.
  - assert (Hne : bid b0 <> bid b) by (by apply Hnew). cbn [dict_set].
    rewrite decide_False by done. split.
    + intros k' d. rewrite lookup_insert_Some. intros [[<- [= <-]]|[_ H]]; [|by apply (Hwf k')].
      split_and!; [done| |].
      * repeat constructor; set_solver.
      * intros i x. rewrite elem_of_cons, list_elem_of_singleton. intros [[= -> ->]|[= -> ->]]; done.
    + intros k' b'. rewrite lookup_insert. case_decide as Hk; [subst k'|].
      * rewrite E. cbn. rewrite !elem_of_cons. set_solver.
      * naive_solver.
  - destruct (Hwf k d E) as (Hd & Hnd & Hid).
    assert (Hb : bid b ∉ d.*1).
    { intros [[i x] [Hi Hin]]%list_elem_of_fmap. cbn in Hi. apply (Hnew x).
      - apply list_elem_of_fmap. by exists (i, x).
      - rewrite Hi. by apply Hid. }
    split.
    + intros k' d'. rewrite lookup_insert_Some. intros [[<- [= <-]]|[_ H]]; [|by apply (Hwf k')].
      split_and!; [apply dict_set_nonempty|by apply dict_set_nodup|by apply dict_set_ids].
    + intros k' b'. rewrite lookup_insert. case_decide as Hk; [subst k'|naive_solver].
      rewrite E, dict_set_values by done. naive_solver.
  - split.
    + intros k' d. rewrite lookup_insert_Some. intros [[_ ?]|[_ H]]; [done|by apply (Hwf k')].
    + intros k' b'. rewrite lookup_insert. case_decide as Hk; [subst k'|naive_solver].
      rewrite E. naive_solver.
Qed.

Lemma dict_del_values (d : list (Z * blkref)) i b' :
  NoDup d.*1 -> (forall j x, (j, x) ∈ d -> bid x = j) ->
  b' ∈ (dict_del i d).*2 <-> b' ∈ d.*2 /\ bid b' <> i.
Proof.
  induction d as [|[j y] d IH]; cbn; intros Hnd Hid; [set_solver|].
  apply NoDup_cons in Hnd as [Hj Hnd].
  assert (Hid' : forall j x, (j, x) ∈ d -> bid x = j) by (intros; apply Hid; by constructor).
  assert (bid y = j) by (apply Hid; constructor).
  destruct (decide (j = i)) as [->|]; cbn.
  - rewrite elem_of_cons. split; [|naive_solver].
    intros Hin. split; [by right|]. intros Hi. apply Hj.
    apply list_elem_of_fmap in Hin as [[j' x] [-> Hin]]. cbn in Hi. apply list_elem_of_fmap.
    exists (j', x). split; [|done]. cbn. by rewrite <- (Hid' _ _ Hin).
  - rewrite !elem_of_cons, IH by done. naive_solver.
Qed.

Lemma dict_del_ids (d : list (Z * blkref)) i :
  (forall j x, (j, x) ∈ d -> bid x = j) -> forall j x, (j, x) ∈ dict_del i d -> bid x = j.
Proof.
  induction d as [|[j y] d IH]; cbn; intros Hid j' x; [by intros ?%elem_of_nil|].
  case_decide; [intros Hin; apply Hid; by constructor|].
  rewrite elem_of_cons. intros [[= -> ->]|Hin]; [apply Hid; constructor|].
  eapply IH; [|done]. intros; apply Hid; by constructor.
Qed.

Lemma map_pop_spec m k b :
  map_wf m -> cached_in m k b ->
  exists m', map_pop bid k (bid b) m = (Some b, m') /\ map_wf m' /\
    forall k' b', cached_in m' k' b' <-> cached_in m k' b' /\ ~ (k' = k /\ b' = b).
Proof.
  intros Hwf Hc. unfold map_pop, cached_in in *. destruct (m !! k) as [[b0|d]|] eqn:E; [| |done].
  - subst b0. rewrite Z.eqb_refl. eexists. split; [done|]. split.
    + intros k' d. rewrite lookup_delete_Some. intros [_ H]. by apply (Hwf k').
    + intros k' b'. rewrite lookup_delete. case_decide as Hk; [subst k'; rewrite E|]; naive_solver.
  - destruct (Hwf k d E) as (Hd & Hnd & Hid).
    assert (Hg : dict_get (bid b) d = Some b) by (by apply (many_get m k)).
    assert (Huniq : forall b', b' ∈ d.*2 -> bid b' <> bid b <-> b' <> b).
    { intros b' Hb'. split; [congruence|]. intros Hne Heq. apply (many_get m k d b' Hwf E) in Hb'. congruence. }
    eexists. rewrite Hg. split; [done|].
    pose proof (fun b' => dict_del_values d (bid b) b' Hnd Hid) as Hval.
    pose proof (dict_del_nodup (bid b) d Hnd) as Hnd'. pose proof (dict_del_ids d (bid b) Hid) as Hid'.
    destruct (dict_del (bid b) d) as [|e d'] eqn:Ed; split.
    + intros k' d'. rewrite lookup_delete_Some. intros [_ H]. by apply (Hwf k').
    + intros k' b'. rewrite lookup_delete. case_decide as Hk; [subst k'; rewrite E|naive_solver].
      specialize (Hval b'). cbn in Hval. split; [done|]. intros [Hb' Hne].
      exfalso. apply (not_elem_of_nil b'), Hval. split; [done|]. apply Huniq; naive_solver.
    + intros k' d2. rewrite lookup_insert_Some. intros [[<- [= <-]]|[_ H]]; [done|by apply (Hwf k')].
    + intros k' b'. rewrite lookup_insert. case_decide as Hk; [subst k'; rewrite E|naive_solver].
      rewrite Hval. naive_solver.
Qed.
End HashMap.

Lemma make_key_total h g : 0 <= g < 2 ^ 32 -> exists k, make_block_hash_with_group_id h g = Ok k.
Proof.
  intros Hg. unfold make_block_hash_with_group_id, to_bytes4.
  rewrite (proj2 (Z.leb_le _ _)), (proj2 (Z.ltb_lt _ _)) by lia. by eexists.
Qed.

(** ** The pool invariant *)

(** The [block_id] of the object behind a reference. *)
Definition ref_id (r : blkref) : Z := match r with RBlk i => Z.of_nat i | _ => -1 end.

(** The allocatable blocks: all but the null block. *)
Definition valid_block (p : BlockPool) (r : blkref) : Prop :=
  exists i, r = RBlk i /\ 0 < Z.of_nat i < num_gpu_blocks p.

Definition valid_block_b (p : BlockPool) (r : blkref) : Prop :=
  match r with RBlk i => 0 < Z.of_nat i < num_gpu_blocks p | _ => False end.
#[global] Instance valid_block_b_dec p r : Decision (valid_block_b p r).
Proof. destruct r; cbn; apply _. Defined.

Lemma valid_block_b_iff p r : valid_block_b p r <-> valid_block p r.
Proof. unfold valid_block. destruct r; cbn; naive_solver. Qed.

#[global] Instance valid_block_dec p r : Decision (valid_block p r).
Proof.
  destruct (decide (valid_block_b p r)) as [H|H]; [left|right]; by rewrite <- valid_block_b_iff.
Defined.

(** [pool_inv p l pend]: [l] is the free queue; [pend] are blocks without
    references that are out of the queue (only in the middle of an operation). *)
Record pool_inv (p : BlockPool) (l pend : list blkref) : Prop := {
  pi_n : 0 < num_gpu_blocks p;
  pi_blocks : blocks p = RBlk <$> seq 0 (Z.to_nat (num_gpu_blocks p));
  pi_rep : queue_rep (free_block_queue p) l;
  pi_null : null_block p = RBlk 0;
  pi_isnull : forall i, is_null (pheap p (RBlk i)) = bool_decide (i = 0%nat);
  pi_nullhash : block_hash (pheap p (RBlk 0)) = None;
  pi_id : forall r, block_id (pheap p r) = ref_id r;
  pi_free : forall r, r ∈ l ++ pend <-> valid_block p r /\ ref_cnt (pheap p r) = 0;
  pi_nodup : NoDup (l ++ pend);
  pi_ref : forall r, valid_block p r -> 0 <= ref_cnt (pheap p r);
  pi_cache : forall k b, cached_in (cached_block_hash_to_block p) k b <->
               valid_block p b /\ block_hash (pheap p b) = Some k;
  pi_map : map_wf ref_id (cached_block_hash_to_block p);
}.

(** The invariant between operations. *)
Definition pool_wf (p : BlockPool) (l : list blkref) : Prop := pool_inv p l [].

(** What no operation changes. *)
Definition same_config (p p' : BlockPool) : Prop :=
  num_gpu_blocks p' = num_gpu_blocks p /\ enable_caching p' = enable_caching p /\
  hash_block_size p' = hash_block_size p /\ blocks p' = blocks p /\ null_block p' = null_block p /\
  enable_kv_cache_events p' = enable_kv_cache_events p.

#[global] Instance same_config_preorder : PreOrder same_config.
Proof.
  split; unfold same_config; [by intros ?|].
  intros ??? (?&?&?&?&?&?) (?&?&?&?&?&?). split_and!; congruence.
Qed.

Section PoolInvariant.
Implicit Types (p : BlockPool) (r b : blkref) (l pend : list blkref).

(** An update that leaves the links alone keeps the queue. *)
Lemma queue_rep_upd q r f l :
  (forall x, prev_free_block (f x) = prev_free_block x /\ next_free_block (f x) = next_free_block x) ->
  queue_rep q l -> queue_rep (mkQ (upd r f (qheap q)) (num_free_blocks q)) l.
Proof.
  intros Hf [Hb Hnd Hs Ht Ho Hn].
  assert (Hp : forall x, prev_free_block (upd r f (qheap q) x) = prev_free_block (qheap q x) /\
                         next_free_block (upd r f (qheap q) x) = next_free_block (qheap q x)).
  { intros x. unfold upd. case_decide; [apply Hf|done]. }
  split; cbn [qheap num_free_blocks]; [done|done| |by rewrite (proj2 (Hp _))| |done].
  - eapply seg_frame; [exact Hs|intros x _ _; apply Hp..|by apply chain_nodup].
  - intros i Hi. rewrite (proj1 (Hp _)), (proj2 (Hp _)). by apply Ho.
Qed.

Lemma pheap_upd b f p r :
  pheap (upd_block b f p) r = if decide (b = r) then f (pheap p r) else pheap p r.
Proof. done. Qed.

Lemma valid_not_null p i : valid_block p (RBlk i) -> i <> 0%nat.
Proof. intros (j & [= ->] & ?). lia. Qed.

Lemma valid_same p p' r : num_gpu_blocks p' = num_gpu_blocks p -> valid_block p' r <-> valid_block p r.
Proof. unfold valid_block. by intros ->. Qed.

(** Frame rule: a change of one block's reference count. *)
Lemma inv_ref_change (g : Z -> Z) p l pend pend' b :
  pool_inv p l pend ->
  (valid_block p b -> 0 <= g (ref_cnt (pheap p b))) ->
  (forall r, r <> b -> r ∈ l ++ pend' <-> r ∈ l ++ pend) ->
  (b ∈ l ++ pend' <-> valid_block p b /\ g (ref_cnt (pheap p b)) = 0) -> NoDup (l ++ pend') ->
  pool_inv (upd_block b (fun x => with_ref_cnt (g (ref_cnt x)) x) p) l pend'.
Proof.
  intros [Hn Hbl Hrep Hnull Hin Hnh Hid Hfr Hnd Href Hc Hm] Hpos Hother Hself Hnd'.
  set (f := fun x => with_ref_cnt (g (ref_cnt x)) x).
  assert (Hh : forall r, pheap (upd_block b f p) r
                         = if decide (b = r) then f (pheap p r) else pheap p r) by done.
  split; cbn [num_gpu_blocks blocks null_block upd_block set_queue cached_block_hash_to_block]; try done.
  - by apply queue_rep_upd.
  - intros j. rewrite Hh. by case_decide; rewrite <- Hin.
  - rewrite Hh. by case_decide.
  - intros r. rewrite Hh. by case_decide; rewrite <- Hid.
  - intros r. rewrite Hh. destruct (decide (b = r)) as [<-|Hne]; [done|].
    rewrite Hother by done. apply Hfr.
  - intros r Hr. rewrite Hh. case_decide as Hd; [subst; auto|by apply Href].
  - intros k r. rewrite Hc, Hh. by case_decide.
Qed.

(** Pushing an event changes nothing else. *)
Lemma inv_event p l pend ev : pool_inv p l pend -> pool_inv (push_event ev p) l pend.
Proof. unfold push_event. by destruct (enable_kv_cache_events p); [intros []|]. Qed.

Lemma push_event_heap ev p : pheap (push_event ev p) = pheap p.
Proof. unfold push_event. by destruct (enable_kv_cache_events p). Qed.

Lemma push_event_config ev p : same_config p (push_event ev p).
Proof. unfold push_event. by destruct (enable_kv_cache_events p). Qed.

Lemma map_pop_ext bid bid' k i m : (forall r, bid r = bid' r) -> map_pop bid k i m = map_pop bid' k i m.
Proof. intros H. unfold map_pop. destruct (m !! k) as [[b|d]|]; [by rewrite H|done..]. Qed.

Lemma map_insert_ext bid bid' k b m :
  (forall r, bid r = bid' r) -> map_insert bid k b m = map_insert bid' k b m.
Proof. intros H. unfold map_insert. destruct (m !! k) as [[b0|d]|]; by rewrite ?H. Qed.

(** Dropping the hash of a block together with its table entry. *)
Lemma evict_inv use_int p l pend b :
  pool_inv p l pend -> (exists i, b = RBlk i /\ Z.of_nat i < num_gpu_blocks p) ->
  let '(evicted, p') := maybe_evict_cached_block use_int b p in
  pool_inv p' l pend /\ same_config p p' /\
  (forall r, pheap p' r = if decide (b = r) then reset_hash (pheap p r) else pheap p r) /\
  (evicted = true <-> is_Some (block_hash (pheap p b))).
Proof.
  intros Hinv (i & Hb & Hi). pose proof Hinv as [Hn Hbl Hrep Hnull Hin Hnh Hid Hfr Hnd Href Hc Hm].
  unfold maybe_evict_cached_block. destruct (block_hash (pheap p b)) as [k|] eqn:Ek.
  2: { split_and!; [done|done| |by split; [|intros [??]]].
       intros r. case_decide; [subst r|done]. unfold reset_hash, with_hash. rewrite <- Ek. by destruct (pheap p b). }
  assert (Hv : valid_block p b).
  { exists i. split; [done|]. assert (i <> 0%nat) by (intros ->; congruence). lia. }
  destruct (map_pop_spec ref_id (cached_block_hash_to_block p) k b) as (m' & Hpop & Hwf' & Hc');
    [done|by apply Hc|].
  rewrite Hid, (map_pop_ext _ ref_id) by (intros; apply Hid). rewrite Hpop.
  set (p1 := upd_block b reset_hash (set_cached m' p)).
  assert (Hh : forall r, pheap p1 r = if decide (b = r) then reset_hash (pheap p r) else pheap p r) by done.
  split_and!.
  - apply inv_event. split; try done.
    + by apply (queue_rep_upd (free_block_queue p) b reset_hash).
    + intros j. rewrite Hh. by case_decide; rewrite <- Hin.
    + rewrite Hh. by case_decide.
    + intros r. rewrite Hh. by case_decide; rewrite <- Hid.
    + intros r. rewrite Hh, Hfr. by case_decide.
    + intros r Hr. rewrite Hh. by case_decide; apply Href.
    + intros k' r. change (cached_block_hash_to_block p1) with m'. rewrite Hc', Hc, Hh.
      change (valid_block p1 r) with (valid_block p r). case_decide as Hd; [subst r|naive_solver].
      cbn. rewrite Ek. naive_solver.
  - etrans; [|apply push_event_config]. done.
  - intros r. by rewrite push_event_heap.
  - naive_solver.
Qed.

Lemma data_eq_fields h h' :
  data_eq h' h -> forall r, block_id (h' r) = block_id (h r) /\ ref_cnt (h' r) = ref_cnt (h r) /\
    block_hash (h' r) = block_hash (h r) /\ is_null (h' r) = is_null (h r).
Proof. intros Hd r. by injection (Hd r). Qed.

(** A queue operation that only moves blocks between the queue and [pend]. *)
Lemma inv_queue_swap p q l pend l' pend' :
  pool_inv p l pend -> queue_rep q l' -> data_eq (qheap q) (pheap p) ->
  l' ++ pend' ≡ₚ l ++ pend -> pool_inv (set_queue q p) l' pend'.
Proof.
  intros [H1 H2 H3 H4 H5 H6 H7 H8 H9 H10 H11 H12] Hrep Hd Hp.
  pose proof (data_eq_fields _ _ Hd) as Hf.
  assert (Hh : forall r, pheap (set_queue q p) r = qheap q r) by done.
  split; try done.
  - intros i. rewrite Hh. destruct (Hf (RBlk i)) as (_ & _ & _ & ->). apply H5.
  - rewrite Hh. by destruct (Hf (RBlk 0)) as (_ & _ & -> & _).
  - intros r. rewrite Hh. destruct (Hf r) as (-> & _). apply H7.
  - intros r. rewrite Hp, H8, Hh. by destruct (Hf r) as (_ & -> & _).
  - by rewrite Hp.
  - intros r Hr. rewrite Hh. destruct (Hf r) as (_ & -> & _). by apply H10.
  - intros k b. rewrite Hh. destruct (Hf b) as (_ & _ & -> & _). apply H11.
Qed.

Lemma take_block_spec use_int p l b pend :
  pool_inv p l (b :: pend) ->
  exists p', take_block use_int p b = Ok p' /\ pool_inv p' l pend /\ same_config p p' /\
    forall r, pheap p' r =
      if decide (b = r) then with_ref_cnt 1 (if enable_caching p then reset_hash (pheap p r) else pheap p r)
      else pheap p r.
Proof.
  intros Hinv. assert (Hb : b ∈ l ++ b :: pend) by set_solver.
  apply (pi_free _ _ _ Hinv) in Hb as [Hv H0]. destruct Hv as (i & Hi & Hr).
  unfold take_block. set (p1 := if enable_caching p then _ else p).
  assert (Hp1 : pool_inv p1 l (b :: pend) /\ same_config p p1 /\
    forall r, pheap p1 r = if decide (b = r) then (if enable_caching p then reset_hash (pheap p r) else pheap p r)
                           else pheap p r).
  { subst p1. destruct (enable_caching p) eqn:Ec.
    - pose proof (evict_inv use_int p l (b :: pend) b Hinv) as He.
      destruct (maybe_evict_cached_block use_int b p) as [ev p']. cbn.
      destruct He as (? & ? & ? & _); [exists i; split; [done|lia]|]. done.
    - split_and!; [done..|]. intros r. by case_decide. }
  destruct Hp1 as (Hinv1 & Hcfg & Hh1).
  assert (Hrc : ref_cnt (pheap p1 b) = 0).
  { rewrite Hh1, decide_True by done. by destruct (enable_caching p). }
  rewrite Hrc. cbn. eexists. split; [done|]. split_and!.
  - apply (inv_ref_change (fun z => z + 1) _ _ (b :: pend)); [done|lia| | |].
    + intros r Hne. set_solver.
    + rewrite Hrc. pose proof (pi_nodup _ _ _ Hinv) as Hnd. apply nodup_mid in Hnd as [Hnd _].
      split; [done|lia].
    + pose proof (pi_nodup _ _ _ Hinv) as Hnd. by apply nodup_mid in Hnd as [_ ?].
  - done.
  - intros r. rewrite pheap_upd, Hh1. case_decide; [|done]. subst r.
    destruct (enable_caching p); cbn; by rewrite H0.
Qed.

Lemma take_blocks_spec use_int p l bs :
  pool_inv p l bs ->
  exists p', foldM (take_block use_int) p bs = Ok p' /\ pool_wf p' l /\ same_config p p' /\
    forall r, pheap p' r =
      if decide (r ∈ bs) then with_ref_cnt 1 (if enable_caching p then reset_hash (pheap p r) else pheap p r)
      else pheap p r.
Proof.
  revert p. induction bs as [|b bs IH]; intros p Hinv.
  - exists p. split_and!; [done..|]. intros r. by rewrite decide_False by apply not_elem_of_nil.
  - destruct (take_block_spec use_int p l b bs Hinv) as (p1 & Hp1 & Hinv1 & Hcfg1 & Hh1).
    destruct (IH p1 Hinv1) as (p2 & Hp2 & Hinv2 & Hcfg2 & Hh2).
    exists p2. cbn. rewrite Hp1. cbn. split_and!; [done|done|by etrans|].
    intros r. rewrite Hh2, Hh1. destruct Hcfg1 as (_ & -> & _).
    pose proof (pi_nodup _ _ _ Hinv) as Hnd. apply nodup_mid in Hnd as [Hnd _].
    destruct (decide (r ∈ bs)) as [Hr|Hr].
    + rewrite (decide_False (P := b = r)) by set_solver. by rewrite decide_True by set_solver.
    + destruct (decide (b = r)) as [->|]; [by rewrite decide_True by set_solver|].
      by rewrite decide_False by set_solver.
Qed.

Lemma get_new_blocks_spec use_int n p l :
  pool_wf p l -> 0 <= n <= Z.of_nat (length l) ->
  exists p', get_new_blocks use_int n p = Ok (take (Z.to_nat n) l, p') /\
    pool_wf p' (drop (Z.to_nat n) l) /\ same_config p p' /\
    forall r, bdata (pheap p' r) =
      if decide (r ∈ take (Z.to_nat n) l) then
        bdata (with_ref_cnt 1 (if enable_caching p then reset_hash (pheap p r) else pheap p r))
      else bdata (pheap p r).
Proof.
  intros Hinv Hn. pose proof Hinv as [H1 H2 Hrep H4 H5 H6 H7 Hfr H9 H10 H11 H12].
  unfold get_new_blocks, get_num_free_blocks.
  rewrite (rep_num _ _ Hrep), (proj2 (Z.ltb_ge _ _)) by lia.
  destruct (popleft_n_spec (free_block_queue p) l n) as (q & -> & Hrepq & Hd); [done|done|]. cbn.
  set (xs := take (Z.to_nat n) l). set (l2 := drop (Z.to_nat n) l).
  assert (Hl : l2 ++ xs ≡ₚ l) by (rewrite Permutation_app_comm; subst xs l2; by rewrite take_drop).
  pose proof (inv_queue_swap p q l [] l2 xs Hinv Hrepq Hd) as Hinv1.
  rewrite app_nil_r in Hinv1. specialize (Hinv1 Hl).
  destruct (take_blocks_spec use_int _ l2 xs Hinv1) as (p' & -> & Hwf & Hcfg & Hh).
  exists p'. cbn. split_and!; [done|done|done|].
  intros r. rewrite Hh. destruct (data_eq_fields _ _ Hd r) as (Hi & Hr & Hk & Hz).
  case_decide; [|apply Hd]. cbn [enable_caching set_queue].
  change (pheap (set_queue q p) r) with (qheap q r). unfold pheap.
  destruct (enable_caching p); unfold bdata; cbn; congruence.
Qed.

(** *** [touch] *)

Lemma filter_ne_id b l : b ∉ l -> filter (fun x => x <> b) l = l.
Proof.
  induction l as [|x l IH]; intros Hb; [done|].
  rewrite filter_cons_True by set_solver. f_equal. apply IH. set_solver.
Qed.

Definition in_pool p r : Prop := exists i, r = RBlk i /\ Z.of_nat i < num_gpu_blocks p.

Lemma in_pool_cases p l pend r :
  pool_inv p l pend -> in_pool p r ->
  (r = RBlk 0 /\ is_null (pheap p r) = true /\ ~ valid_block p r) \/
  (is_null (pheap p r) = false /\ valid_block p r).
Proof.
  intros Hinv (i & -> & Hi). rewrite (pi_isnull _ _ _ Hinv). destruct i as [|i].
  - left. split_and!; [done|done|]. intros (j & [= <-] & ?). lia.
  - right. split; [done|]. exists (S i). split; [done|lia].
Qed.

Lemma touch_block_spec p l b :
  pool_wf p l -> in_pool p b ->
  exists p', touch_block p b = Ok p' /\ pool_wf p' (filter (fun x => x <> b) l) /\ same_config p p' /\
    forall r, bdata (pheap p' r) =
      bdata (if decide (b = r) then with_ref_cnt (ref_cnt (pheap p r) + 1) (pheap p r) else pheap p r).
Proof.
  intros Hinv Hb. unfold touch_block.
  pose proof (pi_free _ _ _ Hinv b) as Hf. rewrite app_nil_r in Hf.
  destruct ((ref_cnt (pheap p b) =? 0) && negb (is_null (pheap p b))) eqn:E.
  - apply andb_prop in E as [H0%Z.eqb_eq Hn%negb_true_iff].
    destruct (in_pool_cases _ _ _ _ Hinv Hb) as [(_ & ? & _)|[_ Hv]]; [congruence|].
    assert (Hin : b ∈ l) by (by apply Hf). apply list_elem_of_split in Hin as (l1 & l2 & ->).
    destruct (remove_spec (free_block_queue p) l1 b l2) as (q & -> & Hrep & Hd); [apply Hinv|]. cbn.
    assert (Hinv1 : pool_inv (set_queue q p) (l1 ++ l2) [b]).
    { apply (inv_queue_swap p q (l1 ++ b :: l2) []); [done..|]. rewrite app_nil_r. solve_Permutation. }
    pose proof (pi_nodup _ _ _ Hinv) as Hnd. rewrite app_nil_r in Hnd. apply nodup_mid in Hnd as [Hnb Hnd].
    destruct (data_eq_fields _ _ Hd b) as (_ & Hrc & _).
    eexists. split; [done|]. rewrite filter_ne_mid by done. split_and!; [|done|].
    + apply (inv_ref_change (fun z => z + 1) _ _ [b]); [done| | | |by rewrite app_nil_r].
      * intros _. change (pheap (set_queue q p) b) with (qheap q b). rewrite Hrc. unfold pheap in H0. lia.
      * intros r Hr. set_solver.
      * rewrite app_nil_r. change (pheap (set_queue q p) b) with (qheap q b). rewrite Hrc.
        unfold pheap in H0. split; [done|lia].
    + intros r. rewrite pheap_upd. destruct (data_eq_fields _ _ Hd r) as (Hi & Hr & Hk & Hz).
      change (pheap (set_queue q p) r) with (qheap q r). unfold pheap, bdata in *.
      case_decide; cbn; congruence.
  - cbn. eexists. split; [done|].
    assert (Hnin : b ∉ l).
    { intros [Hv H0]%Hf. rewrite H0 in E. cbn in E.
      destruct (in_pool_cases _ _ _ _ Hinv Hb) as [(_ & _ & ?)|[Hz _]]; [done|]. by rewrite Hz in E. }
    rewrite filter_ne_id by done. split_and!; [|done|].
    + apply (inv_ref_change (fun z => z + 1) _ _ []); [done| |done| |apply Hinv].
      * intros Hv. pose proof (pi_ref _ _ _ Hinv b Hv). lia.
      * rewrite app_nil_r. split; [done|]. intros [Hv H]. pose proof (pi_ref _ _ _ Hinv b Hv). lia.
    + intros r. rewrite pheap_upd. by case_decide.
Qed.

Lemma touch_spec p l bs :
  pool_wf p l -> (forall b, b ∈ bs -> in_pool p b) ->
  exists p', touch bs p = Ok p' /\ pool_wf p' (filter (fun x => x ∉ bs) l) /\ same_config p p' /\
    (forall r, block_hash (pheap p' r) = block_hash (pheap p r) /\ is_null (pheap p' r) = is_null (pheap p r) /\
       ref_cnt (pheap p' r) = ref_cnt (pheap p r) + Z.of_nat (length (filter (fun x => x = r) bs))).
Proof.
  revert p l. induction bs as [|b bs IH]; intros p l Hinv Hin.
  - exists p. split_and!; [done| |done|].
    + replace (filter (fun x => x ∉ []) l) with l; [done|]. symmetry. clear.
      induction l as [|x l IH]; [done|]. rewrite filter_cons_True by apply not_elem_of_nil. by f_equal.
    + intros r. split_and!; [done..|]. cbn. lia.
  - destruct (touch_block_spec p l b) as (p1 & Hp1 & Hinv1 & Hc1 & Hd1); [done|apply Hin; constructor|].
    destruct (IH p1 (filter (fun x => x <> b) l)) as (p2 & Hp2 & Hinv2 & Hc2 & Hd2); [done| |].
    { intros b' Hb'. destruct Hc1 as (Hn & _). destruct (Hin b') as (i & ? & ?); [by constructor|].
      exists i. by rewrite Hn. }
    exists p2. unfold touch in *. cbn [foldM]. rewrite Hp1. cbn [mbind result_bind].
    split_and!; [done| |by etrans|].
    + rewrite list_filter_filter in Hinv2. erewrite list_filter_iff; [exact Hinv2|].
      intros x. rewrite elem_of_cons. naive_solver.
    + intros r. destruct (Hd2 r) as (-> & -> & ->). injection (Hd1 r) as _ Hr Hk Hz.
      destruct (decide (b = r)) as [<-|Hne]; cbn in Hr, Hk, Hz.
      * rewrite Hk, Hz, Hr. rewrite filter_cons_True by done. split_and!; [done..|]. cbn [length]. lia.
      * rewrite Hk, Hz, Hr. by rewrite filter_cons_False by done.
Qed.

(** *** [free_blocks] *)

(** What freeing the blocks [bs] requires: they are blocks of the pool, the real
    ones are distinct and referenced. *)
Definition freeable_list p (bs : list blkref) : Prop :=
  (forall b, b ∈ bs -> in_pool p b) /\
  NoDup (filter (valid_block p) bs) /\
  (forall b, b ∈ bs -> valid_block p b -> 0 < ref_cnt (pheap p b)).

Lemma release_spec p l pend b :
  pool_inv p l pend -> in_pool p b -> (valid_block p b -> 0 < ref_cnt (pheap p b)) ->
  pool_inv (release_block p b) l
    (pend ++ (if decide (valid_block p b /\ ref_cnt (pheap p b) = 1) then [b] else [])).
Proof.
  intros Hinv Hb Hpos. unfold release_block.
  assert (Hnin : b ∉ l ++ pend).
  { intros Hin. apply (pi_free _ _ _ Hinv) in Hin as [Hv H0]. specialize (Hpos Hv). lia. }
  apply (inv_ref_change (fun z => z - 1) _ _ pend); [done| | | |].
  - intros Hv. specialize (Hpos Hv). lia.
  - intros r Hne. case_decide; set_solver.
  - case_decide as Hd.
    + split; [|set_solver]. intros _. split; [tauto|lia].
    + rewrite app_nil_r. split; [done|]. intros [Hv H]. exfalso. apply Hd. split; [done|lia].
  - rewrite app_assoc. pose proof (pi_nodup _ _ _ Hinv) as Hnd. case_decide; [|by rewrite app_nil_r].
    apply NoDup_app. split_and!; [done|set_solver|apply NoDup_singleton].
Qed.

Lemma release_heap p b r :
  pheap (release_block p b) r =
  if decide (b = r) then with_ref_cnt (ref_cnt (pheap p r) - 1) (pheap p r) else pheap p r.
Proof. done. Qed.

(** The blocks of [bs] whose last reference this is. *)
Definition last_refs p (bs : list blkref) : list blkref :=
  filter (fun b => valid_block p b /\ ref_cnt (pheap p b) = 1) bs.

Lemma freeable_cons p b bs :
  freeable_list p (b :: bs) -> freeable_list (release_block p b) bs /\
    last_refs (release_block p b) bs = last_refs p bs.
Proof.
  intros (Hin & Hnd & Hpos).
  assert (Hv : forall r, valid_block (release_block p b) r <-> valid_block p r) by done.
  assert (Hne : forall r, r ∈ bs -> valid_block p r -> b <> r).
  { intros r Hr Hvr ->. rewrite filter_cons_True in Hnd by done. apply NoDup_cons in Hnd as [Hn _].
    apply Hn. by apply list_elem_of_filter. }
  split; [split_and!|].
  - intros r Hr. apply Hin. by constructor.
  - erewrite list_filter_iff; [|exact Hv]. rewrite filter_cons in Hnd. case_decide; [|done].
    by apply NoDup_cons in Hnd as [_ ?].
  - intros r Hr Hvr. rewrite release_heap. rewrite decide_False by (apply Hne; done).
    apply Hpos; [by constructor|done].
  - unfold last_refs. apply list_filter_iff'. intros r Hr. rewrite release_heap.
    case_decide as Hd; [|done]. subst r. split; intros [Hvr ?]; by apply Hne in Hr.
Qed.

Lemma release_all_spec p l pend bs :
  pool_inv p l pend -> freeable_list p bs ->
  let p1 := foldl release_block p bs in
  pool_inv p1 l (pend ++ last_refs p bs) /\ same_config p p1 /\
  (forall r, block_hash (pheap p1 r) = block_hash (pheap p r) /\ is_null (pheap p1 r) = is_null (pheap p r) /\
     ref_cnt (pheap p1 r) = ref_cnt (pheap p r) - Z.of_nat (length (filter (fun x => x = r) bs))).
Proof.
  revert p pend. induction bs as [|b bs IH]; intros p pend Hinv Hfr; cbn [foldl].
  - split_and!; [by rewrite app_nil_r|done|]. intros r. split_and!; [done..|]. cbn. lia.
  - pose proof Hfr as (Hin & Hnd & Hpos).
    assert (Hb : in_pool p b) by (apply Hin; constructor).
    pose proof (release_spec p l pend b Hinv Hb (Hpos b ltac:(constructor))) as Hinv1.
    apply freeable_cons in Hfr as [Hfr1 Hlast].
    destruct (IH _ _ Hinv1 Hfr1) as (Hinv2 & Hc2 & Hd2). split_and!.
    + rewrite Hlast, <- app_assoc in Hinv2. unfold last_refs. rewrite filter_cons.
      case_decide; exact Hinv2.
    + by etrans; [|exact Hc2].
    + intros r. destruct (Hd2 r) as (-> & -> & ->). rewrite release_heap.
      destruct (decide (b = r)) as [<-|Hne].
      * rewrite filter_cons_True by done. cbn [length]. split_and!; [done..|cbn; lia].
      * by rewrite filter_cons_False by done.
Qed.

Lemma free_blocks_spec p l bs :
  pool_wf p l -> freeable_list p bs ->
  exists p', free_blocks bs p = Ok p' /\ pool_wf p' (l ++ last_refs p bs) /\ same_config p p' /\
    (forall r, block_hash (pheap p' r) = block_hash (pheap p r) /\ is_null (pheap p' r) = is_null (pheap p r) /\
       ref_cnt (pheap p' r) = ref_cnt (pheap p r) - Z.of_nat (length (filter (fun x => x = r) bs))).
Proof.
  intros Hinv Hfr. unfold free_blocks.
  destruct (release_all_spec p l [] bs Hinv Hfr) as (Hinv1 & Hc1 & Hd1).
  set (p1 := foldl release_block p bs) in *. cbn in Hinv1.
  assert (Hfl : filter (is_freeable p1) bs = last_refs p bs).
  { unfold last_refs. apply list_filter_iff'. intros b Hb.
    destruct Hfr as (Hin & Hnd & Hpos).
    assert (Hb1 : in_pool p1 b).
    { destruct Hc1 as (Hn & _). destruct (Hin b Hb) as (i & -> & ?). exists i. by rewrite Hn. }
    assert (Hvv : valid_block p1 b <-> valid_block p b) by (apply valid_same, Hc1).
    unfold is_freeable. destruct (Hd1 b) as (_ & _ & Hr).
    destruct (in_pool_cases _ _ _ _ Hinv1 Hb1) as [(_ & Hz & Hnv)|[Hz Hv]]; rewrite Hz.
    { split; [intros [_ ?]; done|]. intros [? _]. tauto. }
    apply Hvv in Hv. rewrite Hr, (nodup_filter_count (valid_block p)) by done.
    split; intros; split_and!; try tauto; lia. }
  rewrite Hfl. pose proof (pi_nodup _ _ _ Hinv1) as Hnd1. apply NoDup_app in Hnd1 as (_ & Hd & Hndl).
  destruct (append_n_spec (free_block_queue p1) l (last_refs p bs)) as (q & -> & Hrep & Hdq).
  { apply Hinv1. } { done. }
  { apply Forall_forall. intros r Hr. unfold last_refs in Hr. apply list_elem_of_filter in Hr as [[Hv _] _].
    by destruct Hv as (i & -> & _). }
  { intros r Hr Hr'. by apply (Hd r). }
  cbn. eexists. split; [done|]. split_and!.
  - apply (inv_queue_swap p1 q l (last_refs p bs)); [done..|]. by rewrite app_nil_r.
  - exact Hc1.
  - intros r. destruct (data_eq_fields _ _ Hdq r) as (_ & Hr & Hk & Hz).
    change (pheap (set_queue q p1) r) with (qheap q r). rewrite Hr, Hk, Hz. apply Hd1.
Qed.

(** *** Counting *)

(** The allocatable blocks as a list. *)
Definition real_blocks p : list blkref := RBlk <$> seq 1 (Z.to_nat (num_gpu_blocks p) - 1).

Lemma elem_of_real_blocks p r : r ∈ real_blocks p <-> valid_block p r.
Proof.
  unfold real_blocks, valid_block. rewrite list_elem_of_fmap. setoid_rewrite elem_of_seq.
  split; intros (i & ? & ?); exists i; (split; [done|lia]).
Qed.

Lemma real_blocks_nodup p : NoDup (real_blocks p).
Proof. apply NoDup_fmap_2; [by intros ?? [= ]|apply NoDup_seq]. Qed.

(** The free queue is, up to order, the set of unreferenced blocks. *)
Lemma free_perm p l :
  pool_wf p l -> l ≡ₚ filter (fun r => ref_cnt (pheap p r) = 0) (real_blocks p).
Proof.
  intros Hinv. apply NoDup_Permutation.
  - pose proof (pi_nodup _ _ _ Hinv) as H. by rewrite app_nil_r in H.
  - apply NoDup_filter, real_blocks_nodup.
  - intros r. rewrite list_elem_of_filter, elem_of_real_blocks.
    rewrite <- (app_nil_r l), (pi_free _ _ _ Hinv). tauto.
Qed.

Lemma free_count_all p l :
  pool_wf p l ->
  num_gpu_blocks p - get_num_free_blocks p = 1 <-> forall r, valid_block p r -> ref_cnt (pheap p r) = 0.
Proof.
  intros Hinv. unfold get_num_free_blocks. rewrite (rep_num _ _ (pi_rep _ _ _ Hinv)).
  rewrite (Permutation_length (free_perm p l Hinv)).
  pose proof (pi_n _ _ _ Hinv).
  assert (Hlen : length (real_blocks p) = (Z.to_nat (num_gpu_blocks p) - 1)%nat)
    by (unfold real_blocks; by rewrite length_fmap, length_seq).
  split.
  - intros E r Hr%elem_of_real_blocks.
    apply (filter_full_length (fun r => ref_cnt (pheap p r) = 0) (real_blocks p)); [lia|done].
  - intros Hall. rewrite filter_all; [lia|]. intros r Hr. by apply Hall, elem_of_real_blocks.
Qed.

(** *** Eviction and reset *)

Lemma blocks_lookup p l pend i :
  pool_inv p l pend -> 0 <= i < num_gpu_blocks p -> py_index (blocks p) i = Ok (RBlk (Z.to_nat i)).
Proof.
  intros Hinv Hi. rewrite py_index_nonneg, (pi_blocks _ _ _ Hinv) by lia.
  rewrite list_lookup_fmap, lookup_seq_lt by lia. done.
Qed.

(** The block with a given identifier. *)
Definition id_ref (i : Z) : blkref := RBlk (Z.to_nat i).

Lemma evict_blocks_spec use_int p l ids :
  pool_wf p l -> (forall i, i ∈ ids -> 0 <= i < num_gpu_blocks p) ->
  exists p', evict_blocks use_int ids p = Ok p' /\ pool_wf p' l /\ same_config p p' /\
    forall r, pheap p' r = if decide (r ∈ id_ref <$> ids)
                           then reset_hash (pheap p r) else pheap p r.
Proof.
  revert p. unfold evict_blocks. induction ids as [|i ids IH]; intros p Hinv Hids; cbn [foldM].
  - exists p. split_and!; [done..|]. intros r. by rewrite decide_False by apply not_elem_of_nil.
  - pose proof (Hids i ltac:(constructor)) as Hi.
    assert (zlen (blocks p) = num_gpu_blocks p) as Hlen.
    { unfold zlen. rewrite (pi_blocks _ _ _ Hinv), length_fmap, length_seq. lia. }
    rewrite Hlen, (proj2 (Z.ltb_lt _ _)), (blocks_lookup _ _ _ _ Hinv Hi) by lia. cbn [mbind result_bind py_assert].
    pose proof (evict_inv use_int p l [] (RBlk (Z.to_nat i)) Hinv) as He.
    destruct (maybe_evict_cached_block use_int (RBlk (Z.to_nat i)) p) as [ev p1]. cbn [snd].
    destruct He as (Hinv1 & Hc1 & Hh1 & _); [exists (Z.to_nat i); split; [done|lia]|].
    destruct (IH p1 Hinv1) as (p2 & -> & Hinv2 & Hc2 & Hh2).
    { destruct Hc1 as (-> & _). intros j Hj. apply Hids. by constructor. }
    exists p2. split_and!; [done..|by etrans|].
    intros r. rewrite Hh2, Hh1. cbn [fmap list_fmap]. fold (id_ref i).
    destruct (decide (r ∈ id_ref <$> ids)) as [Hj|Hj].
    + rewrite (decide_True (P := r ∈ id_ref i :: _)) by (by constructor). by case_decide.
    + destruct (decide (id_ref i = r)) as [->|Hd]; [by rewrite decide_True by constructor|].
      rewrite decide_False; [done|]. intros [->|?]%elem_of_cons; done.
Qed.

Lemma reset_all_heap (bs : list blkref) p r :
  pheap (foldl (fun p b => upd_block b reset_hash p) p bs) r =
  if decide (r ∈ bs) then reset_hash (pheap p r) else pheap p r.
Proof.
  revert p. induction bs as [|b bs IH]; intros p; cbn [foldl].
  - by rewrite decide_False by apply not_elem_of_nil.
  - rewrite IH, pheap_upd. destruct (decide (r ∈ bs)).
    + rewrite (decide_True (P := r ∈ b :: bs)) by (by constructor). by case_decide.
    + destruct (decide (b = r)) as [->|]; [by rewrite decide_True by constructor|].
      by rewrite decide_False by set_solver.
Qed.

Lemma reset_all_queue (bs : list blkref) p l :
  queue_rep (free_block_queue p) l ->
  queue_rep (free_block_queue (foldl (fun p b => upd_block b reset_hash p) p bs)) l.
Proof.
  revert p. induction bs as [|b bs IH]; intros p Hrep; [done|]. apply IH.
  by apply (queue_rep_upd (free_block_queue p)).
Qed.

Lemma reset_all_rest (bs : list blkref) p :
  let p' := foldl (fun p b => upd_block b reset_hash p) p bs in
  same_config p p' /\ cached_block_hash_to_block p' = cached_block_hash_to_block p.
Proof.
  cbn zeta. revert p. induction bs as [|b bs IH]; intros p; [done|]. cbn [foldl].
  destruct (IH (upd_block b reset_hash p)) as [H1 H2]. split; [by etrans; [|exact H1]|exact H2].
Qed.

Lemma valid_in_blocks p l pend r : pool_inv p l pend -> valid_block p r \/ r = RBlk 0 -> r ∈ blocks p.
Proof.
  intros Hinv Hr. rewrite (pi_blocks _ _ _ Hinv). apply list_elem_of_fmap.
  pose proof (pi_n _ _ _ Hinv). destruct Hr as [(i & -> & Hi)| ->].
  - exists i. split; [done|]. apply elem_of_seq. lia.
  - exists 0%nat. split; [done|]. apply elem_of_seq. lia.
Qed.

Lemma reset_spec p l :
  pool_wf p l ->
  let '(ok, p') := reset_prefix_cache p in
  pool_wf p' l /\ same_config p p' /\
  (ok = true <-> forall r, valid_block p r -> ref_cnt (pheap p r) = 0) /\
  (ok = false -> p' = p) /\
  (ok = true -> cached_block_hash_to_block p' = ∅ /\ forall r, valid_block p r -> block_hash (pheap p' r) = None).
Proof.
  intros Hinv. pose proof Hinv as [H1 H2 H3 H4 H5 H6 H7 H8 H9 H10 H11 H12].
  assert (Hlen : num_gpu_blocks p - get_num_free_blocks p = 1 <->
                 forall r, valid_block p r -> ref_cnt (pheap p r) = 0) by (by eapply free_count_all).
  unfold reset_prefix_cache. destruct (Z.eqb_spec (num_gpu_blocks p - get_num_free_blocks p) 1) as [E|E];
    cbn [negb].
  2: { split_and!; try done. split; [done|]. intros H. exfalso. by apply E, Hlen. }
  set (p1 := foldl _ _ _).
  destruct (reset_all_rest (blocks p) (set_cached ∅ p)) as [Hc1 Hm1]. fold p1 in Hc1, Hm1.
  assert (Hh1 : forall r, pheap p1 r = if decide (r ∈ blocks p) then reset_hash (pheap p r) else pheap p r)
    by (intros r; exact (reset_all_heap (blocks p) (set_cached ∅ p) r)).
  assert (Hn1 : num_gpu_blocks p1 = num_gpu_blocks p) by apply Hc1.
  assert (Hv : forall r, valid_block p1 r <-> valid_block p r) by (intros; by apply valid_same).
  split_and!.
  - apply inv_event. split.
    + by rewrite Hn1.
    + rewrite Hn1. destruct Hc1 as (_ & _ & _ & -> & _). done.
    + by apply reset_all_queue.
    + destruct Hc1 as (_ & _ & _ & _ & -> & _). done.
    + intros i. rewrite Hh1. by case_decide; rewrite <- H5.
    + rewrite Hh1. by case_decide.
    + intros r. rewrite Hh1. by case_decide; rewrite <- H7.
    + intros r. rewrite Hv, H8, Hh1. by case_decide.
    + done.
    + intros r Hr%Hv. rewrite Hh1. by case_decide; apply H10.
    + intros k b. rewrite Hm1. unfold cached_in.
      change (cached_block_hash_to_block (set_cached ∅ p)) with (∅ : hash_map). rewrite lookup_empty. split; [done|].
      intros [Hb%Hv Hk]. rewrite Hh1, decide_True in Hk by (eapply valid_in_blocks; eauto). done.
    + rewrite Hm1. intros k d.
      change (cached_block_hash_to_block (set_cached ∅ p)) with (∅ : hash_map). by rewrite lookup_empty.
  - etrans; [|apply push_event_config]. done.
  - naive_solver.
  - done.
  - intros _. split.
    + unfold push_event. by destruct (enable_kv_cache_events p1).
    + intros r Hr. rewrite push_event_heap, Hh1, decide_True; [done|]. eapply valid_in_blocks; eauto.
Qed.

(** *** Construction *)

Lemma pool_init_spec n caching hash_bs events :
  0 < n ->
  exists p, pool_init n caching hash_bs events = Ok p /\ pool_wf p (real_blocks p) /\
    num_gpu_blocks p = n /\ enable_caching p = caching /\ hash_block_size p = hash_bs /\
    enable_kv_cache_events p = events /\ kv_event_queue p = [] /\
    forall r, valid_block p r -> ref_cnt (pheap p r) = 0 /\ block_hash (pheap p r) = None.
Proof.
  intros Hn. unfold pool_init. rewrite (proj2 (Z.ltb_lt _ _)) by done. cbn [mbind result_bind py_assert].
  cbv zeta. set (h0 := fun r => match r with RBlk i => new_block (Z.of_nat i) | _ => new_block (-1) end).
  set (bs := RBlk <$> seq 0 (Z.to_nat n)).
  assert (Hnd : NoDup bs) by (apply NoDup_fmap_2; [by intros ?? [= ]|apply NoDup_seq]).
  destruct (queue_init_spec bs h0) as [Hrep Hdata]; [done|apply Forall_fmap, Forall_true; done|by intros []|].
  destruct (queue_init_ends bs h0) as [Hid1 Hid2].
  assert (Hbs : bs = RBlk 0 :: (RBlk <$> seq 1 (Z.to_nat n - 1))).
  { subst bs. replace (Z.to_nat n) with (S (Z.to_nat n - 1)) at 1 by lia. done. }
  rewrite Hbs in Hrep.
  destruct (popleft_cons _ _ _ Hrep) as (q & Hq & Hrepq & Hd). rewrite <- Hbs in Hq, Hd. rewrite Hq.
  cbn [mbind result_bind]. eexists. split; [done|].
  assert (Hf : forall i, bdata (qheap q (RBlk i)) = bdata (new_block (Z.of_nat i))).
  { intros i. rewrite (Hd (RBlk i)). by apply (Hdata (RBlk i)). }
  assert (Hh : forall r, upd (RBlk 0) (with_is_null true) (qheap q) r
     = if decide (RBlk 0 = r) then with_is_null true (qheap q r) else qheap q r) by done.
  split; [|split_and!; try done; intros r (i & -> & Hi); unfold pheap; cbn; rewrite Hh;
           injection (Hf i) as _ Hr Hk _; by case_decide].
  split; unfold pheap; cbn [num_gpu_blocks blocks free_block_queue null_block qheap
    cached_block_hash_to_block]; try done.
  - by apply (queue_rep_upd q).
  - intros i. rewrite Hh. injection (Hf i) as _ _ _ Hz. case_decide as E; cbn.
    + by injection E as <-.
    + rewrite Hz. by destruct i.
  - rewrite Hh. injection (Hf 0%nat) as _ _ Hk _. by case_decide.
  - intros r. rewrite Hh.
    assert (Hid : block_id (qheap q r) = ref_id r).
    { destruct r as [| |i]; [| |by injection (Hf i)].
      - rewrite (proj1 (data_eq_fields _ _ Hd RHead)). exact Hid1.
      - rewrite (proj1 (data_eq_fields _ _ Hd RTail)). exact Hid2. }
    by case_decide; rewrite <- Hid.
  - intros r. rewrite app_nil_r, elem_of_real_blocks. split; [|tauto].
    intros Hv. split; [done|]. destruct Hv as (i & -> & Hi). rewrite Hh.
    injection (Hf i) as _ Hr _ _. by case_decide.
  - rewrite app_nil_r. apply real_blocks_nodup.
  - intros r (i & -> & Hi). rewrite Hh. injection (Hf i) as _ Hr _ _. case_decide; cbn; rewrite Hr; done.
  - intros k b. unfold cached_in. rewrite lookup_empty. split; [done|].
    intros [(i & -> & Hi) Hk]. rewrite Hh in Hk. injection (Hf i) as _ _ Hk' _.
    case_decide; cbn in Hk; congruence.
Qed.

(** *** Lookup *)

Lemma get_cached_loop_spec p l h gids acc :
  pool_wf p l -> Forall (fun g => 0 <= g < 2 ^ 32) gids ->
  exists o, get_cached_block_loop p h gids acc = Ok o /\
    match o with
    | Some bs => exists bs', bs = acc ++ bs' /\
        Forall2 (fun g b => valid_block p b /\
          exists k, make_block_hash_with_group_id h g = Ok k /\ block_hash (pheap p b) = Some k) gids bs'
    | None => exists g k, g ∈ gids /\ make_block_hash_with_group_id h g = Ok k /\
        forall b, valid_block p b -> block_hash (pheap p b) <> Some k
    end.
Proof.
  intros Hinv. revert acc. induction gids as [|g gids IH]; intros acc Hg; cbn [get_cached_block_loop].
  - exists (Some acc). split; [done|]. exists []. rewrite app_nil_r. split; [done|constructor].
  - apply Forall_cons in Hg as [Hg Hgs]. destruct (make_key_total h g Hg) as [k Hk]. rewrite Hk.
    cbn [mbind result_bind].
    pose proof (get_one_block_cached ref_id _ k (pi_map _ _ _ Hinv)) as Hone.
    destruct (get_one_block (cached_block_hash_to_block p) k) as [[b|]|]; [| |done]; cbn [mbind result_bind].
    + apply (pi_cache _ _ _ Hinv) in Hone as [Hv Hb].
      destruct (IH (acc ++ [b]) Hgs) as (o & -> & Ho). exists o. split; [done|]. destruct o as [bs|].
      * destruct Ho as (bs' & -> & HF). exists (b :: bs'). rewrite <- app_assoc. split; [done|].
        constructor; [eauto|done].
      * destruct Ho as (g' & k' & ? & ?). exists g', k'. split; [by constructor|done].
    + exists None. split; [done|]. exists g, k. split_and!; [constructor|done|].
      intros b Hv Hb. apply (Hone b). by apply (pi_cache _ _ _ Hinv).
Qed.

(** *** Caching full blocks *)

(** Writing the hash of an unhashed block and its table entry together. *)
Lemma cache_one_inv use_int hs gid p nh l i b h :
  pool_wf p l -> valid_block p b -> block_hash (pheap p b) = None ->
  hs !! i = Some h -> 0 <= gid < 2 ^ 32 ->
  exists k p', make_block_hash_with_group_id h gid = Ok k /\
    cache_one_block use_int hs gid (p, nh) (i, b) = Ok (p', nh ++ [maybe_convert_block_hash use_int h]) /\
    pool_wf p' l /\ same_config p p' /\
    (forall r, pheap p' r = if decide (b = r) then with_hash (Some k) (pheap p r) else pheap p r).
Proof.
  intros Hinv Hv Hnone Hi Hg. pose proof Hinv as [H1 H2 H3 H4 H5 H6 H7 H8 H9 H10 H11 H12].
  destruct (make_key_total h gid Hg) as [k Hk]. exists k.
  assert (Hz : is_null (pheap p b) = false).
  { destruct Hv as (j & -> & Hj). rewrite H5. apply bool_decide_eq_false_2. lia. }
  unfold cache_one_block. rewrite Hz, Hnone, py_index_nonneg, Nat2Z.id, Hi by lia.
  rewrite bool_decide_eq_true_2 by done. cbn [py_assert mbind result_bind of_option]. rewrite Hk.
  cbn [mbind result_bind]. unfold set_block_hash. rewrite Hnone. cbn [mbind result_bind].
  set (f := fun _ => with_hash (Some k) (pheap p b)).
  assert (Hh : forall r, pheap (upd_block b f p) r
      = if decide (b = r) then with_hash (Some k) (pheap p r) else pheap p r).
  { intros r. rewrite pheap_upd. case_decide; [by subst r|done]. }
  assert (Hbid : forall r, block_id (pheap (upd_block b f p) r) = ref_id r).
  { intros r. rewrite Hh, <- H7. by case_decide. }
  destruct (map_insert_spec ref_id (cached_block_hash_to_block p) k b) as [Hwf Hin]; [done| |].
  { intros b' Hb' Heq. apply H11 in Hb' as [(j & -> & _) Hb'].
    destruct Hv as (j' & -> & _). cbn in Heq. assert (j = j') as -> by lia. congruence. }
  rewrite (map_insert_ext _ ref_id _ _ _ Hbid).
  set (p' := set_cached _ (upd_block b f p)). exists p'.
  assert (Hh' : forall r, pheap p' r = if decide (b = r) then with_hash (Some k) (pheap p r) else pheap p r)
    by exact Hh.
  split_and!; [done|done| |done|exact Hh']. split; try done.
  - apply (queue_rep_ext (mkQ (upd b (with_hash (Some k)) (pheap p)) (num_free_blocks (free_block_queue p))));
      [|done|by apply (queue_rep_upd (free_block_queue p))].
    intros r. symmetry. apply (Hh r).
  - intros j. rewrite Hh'. by case_decide; rewrite <- H5.
  - rewrite Hh'. case_decide; [|done]. subst b. destruct Hv as (j & [= <-] & ?). lia.
  - intros r. rewrite H8, Hh'. by case_decide.
  - intros r Hr. rewrite Hh'. by case_decide; apply H10.
  - intros k' r. change (cached_block_hash_to_block p') with (map_insert ref_id k b (cached_block_hash_to_block p)).
    rewrite Hin, H11, Hh'. change (valid_block p' r) with (valid_block p r).
    case_decide as Hd; [subst r; cbn|]; naive_solver.
Qed.

Lemma cache_one_null use_int hs gid p nh i b :
  is_null (pheap p b) = true -> cache_one_block use_int hs gid (p, nh) (i, b) = Ok (p, nh).
Proof. intros Hz. unfold cache_one_block. by rewrite Hz. Qed.

(** The caching loop over blocks that are null, or real and not cached yet. *)
Lemma cache_loop_spec use_int hs gid p nh l (ibs : list (nat * blkref)) :
  pool_wf p l -> 0 <= gid < 2 ^ 32 ->
  (forall i b, (i, b) ∈ ibs -> (i < length hs)%nat /\ in_pool p b /\
     (valid_block p b -> block_hash (pheap p b) = None)) ->
  NoDup (filter (valid_block p) ibs.*2) ->
  exists p' nh', foldM (cache_one_block use_int hs gid) (p, nh) ibs = Ok (p', nh') /\
    pool_wf p' l /\ same_config p p' /\
    (forall r, ref_cnt (pheap p' r) = ref_cnt (pheap p r) /\ is_null (pheap p' r) = is_null (pheap p r)) /\
    (forall i b, (i, b) ∈ ibs -> valid_block p b ->
       exists h k, hs !! i = Some h /\ make_block_hash_with_group_id h gid = Ok k /\
                   block_hash (pheap p' b) = Some k) /\
    (forall r, r ∉ ibs.*2 -> pheap p' r = pheap p r).
Proof.
  intros Hinv Hg. revert p nh Hinv. induction ibs as [|[i b] ibs IH]; intros p nh Hinv Hall Hnd.
  { exists p, nh. split_and!; try done. intros i b Hin. by apply elem_of_nil in Hin. }
  destruct (Hall i b) as (Hi & Hp & Hnone); [constructor|]. cbn [foldM].
  destruct (in_pool_cases _ _ _ _ Hinv Hp) as [(-> & Hz & Hnv)|[Hz Hv]].
  - rewrite cache_one_null by done. cbn [mbind result_bind].
    destruct (IH p nh Hinv) as (p' & nh' & Hf & Hw & Hc & Hd & Hin & Hout).
    { intros i' b' Hin. apply Hall. by constructor. }
    { rewrite fmap_cons, filter_cons_False in Hnd by done. done. }
    exists p', nh'. split_and!; try done.
    + intros i' b' [[= -> ->]|Hin']%elem_of_cons ?; [done|eauto].
    + intros r Hr. apply Hout. set_solver.
  - destruct (lookup_lt_is_Some_2 hs i Hi) as [h Hh].
    destruct (cache_one_inv use_int hs gid p nh l i b h) as (k & p1 & Hk & Hf1 & Hinv1 & Hc1 & Hh1); auto.
    rewrite Hf1. cbn [mbind result_bind].
    rewrite fmap_cons, filter_cons_True in Hnd by done. apply NoDup_cons in Hnd as [Hb Hnd].
    assert (Hv1 : forall r, valid_block p1 r <-> valid_block p r) by (intros; apply valid_same, Hc1).
    assert (Hbn : b ∉ ibs.*2) by (intros Hin; apply Hb; by apply list_elem_of_filter).
    destruct (IH p1 (nh ++ [maybe_convert_block_hash use_int h]) Hinv1) as (p' & nh' & Hf & Hw & Hc & Hd & Hin & Hout).
    { intros i' b' Hin. destruct (Hall i' b') as (? & Hp' & Hn'); [by constructor|].
      split_and!; [done| |]. { destruct Hc1 as (Hn & _). destruct Hp' as (j & -> & ?). exists j. by rewrite Hn. }
      intros Hv'%Hv1. rewrite Hh1. rewrite decide_False; [auto|]. intros <-. apply Hbn.
      apply list_elem_of_fmap. by exists (i', b). }
    { erewrite list_filter_iff; [exact Hnd|exact Hv1]. }
    exists p', nh'. split_and!; [done|done|by etrans| | |].
    + intros r. destruct (Hd r) as [-> ->]. rewrite Hh1. by case_decide.
    + intros i' b' [[= -> ->]|Hin']%elem_of_cons Hvb; [|apply Hin; [done|by apply Hv1]].
      exists h, k. split_and!; [done..|]. rewrite Hout by done. by rewrite Hh1, decide_True.
    + intros r Hr. rewrite Hout by set_solver. rewrite Hh1, decide_False; [done|]. set_solver.
Qed.

(** *** [cache_full_blocks] *)

(** Only the table of digests of a request changes, and it stays right. *)
Definition memo_update (req req' : Request) : Prop :=
  (exists memo, req' = set_embeds_hashes memo req) /\ (memo_ok req -> memo_ok req').

Lemma memo_update_refl req : memo_update req req.
Proof. split; [|done]. exists (embeds_hashes req). by destruct req. Qed.
Lemma memo_update_trans (r1 r2 r3 : Request) : memo_update r1 r2 -> memo_update r2 r3 -> memo_update r1 r3.
Proof. intros [[a ->] Ha] [[b ->] Hb]. split; [by exists b|]. auto. Qed.

(** The event of the newly cached blocks can always be built for a request
    without multi-modal inputs. *)
Lemma stored_keys_total p bs block_size (req : Request) keys idx (ids : list Z) :
  mm_features req = [] -> memo_ok req -> (forall i, i ∈ ids -> 0 <= i < zlen bs) ->
  exists keys' idx' req', foldM (stored_keys_step p bs block_size) (keys, idx, req) ids = Ok (keys', idx', req') /\
    memo_update req req'.
Proof.
  revert keys idx req. induction ids as [|i ids IH]; intros keys idx req Hmm Hmemo His; cbn [foldM].
  { exists keys, idx, req. split; [done|apply memo_update_refl]. }
  assert (Hi : 0 <= i < zlen bs) by (apply His; constructor). unfold zlen in Hi.
  assert (His' : forall j, j ∈ ids -> 0 <= j < zlen bs) by (intros; apply His; by constructor).
  unfold stored_keys_step at 2. cbv beta iota zeta. rewrite (py_index_nonneg bs i) by lia.
  destruct (lookup_lt_is_Some_2 bs (Z.to_nat i)) as [b ->]; [lia|]. cbn [of_option mbind result_bind].
  destruct (is_null (pheap p b)); [by apply IH|].
  destruct (generate_keys_text req (i * block_size) (i * block_size + block_size) idx Hmm Hmemo)
    as (memo & -> & Hmemo').
  cbn [mbind result_bind].
  destruct (IH (keys ++ [text_keys req (i * block_size) (i * block_size + block_size)]) idx
              (set_embeds_hashes memo req)) as (k' & i' & req' & H & [memo' ->] & Hm); [done..|].
  eexists k', i', _. rewrite H. split; [done|]. split; [by exists memo'|]. intros _. by apply Hm.
Qed.

(** What [cache_full_blocks] needs of its arguments: full blocks with hashes of
    the group's granularity, not cached yet. *)
Record cacheable p (req : Request) (bs : list blkref) (num_cached num_full block_size gid : Z) : Prop := {
  ca_size : block_size = hash_block_size p;
  ca_gid : 0 <= gid < 2 ^ 32;
  ca_range : 0 <= num_cached < num_full;
  ca_blocks : num_full <= zlen bs;
  ca_hashes : num_full <= zlen (Request.block_hashes req);
  ca_pool : forall i b, num_cached <= Z.of_nat i < num_full -> bs !! i = Some b ->
              in_pool p b /\ (valid_block p b -> block_hash (pheap p b) = None);
  ca_nodup : NoDup (filter (valid_block p) (py_slice bs num_cached num_full));
  ca_text : enable_kv_cache_events p = true -> mm_features req = [] /\ memo_ok req;
}.

Lemma py_slice_lookup {A} (xs : list A) lo hi i :
  0 <= lo -> hi <= zlen xs ->
  py_slice xs lo hi !! i = if decide (lo + Z.of_nat i < hi) then xs !! (Z.to_nat lo + i)%nat else None.
Proof.
  intros Hlo Hhi. unfold py_slice. rewrite lookup_drop. case_decide.
  - by rewrite lookup_take_lt by lia.
  - by rewrite lookup_take_ge by lia.
Qed.

Lemma elem_of_zip_seq {A} (xs : list A) n i x :
  (i, x) ∈ zip (seq n (length xs)) xs -> (n <= i)%nat /\ xs !! (i - n)%nat = Some x.
Proof.
  revert n. induction xs as [|y xs IH]; intros n; cbn; [by intros ?%elem_of_nil|].
  rewrite elem_of_cons. intros [[= -> ->]|Hin].
  - by rewrite Nat.sub_diag.
  - destruct (IH (S n) Hin) as [? H]. split; [lia|]. by replace (i - n)%nat with (S (i - S n)) by lia.
Qed.

(** Publishing the event never fails and touches nothing but the queue of events. *)
Lemma stored_event_total use_int p1 req bs nh num_cached num_full block_size :
  0 <= num_cached < num_full -> num_full <= zlen bs -> num_full <= zlen (Request.block_hashes req) ->
  (enable_kv_cache_events p1 = true -> mm_features req = [] /\ memo_ok req) ->
  exists req' p', (if enable_kv_cache_events p1 then
      '(ev, r') ← stored_event use_int p1 req bs (Plain (Request.block_hashes req)) nh num_cached num_full block_size;
      Ok (r', push_event ev p1) else Ok (req, p1)) = Ok (req', p') /\
    memo_update req req' /\ (p' = p1 \/ exists ev, p' = push_event ev p1).
Proof.
  intros Hr Hbs Hhs Htext.
  destruct (enable_kv_cache_events p1) eqn:Ee; [|by exists req, p1; auto using memo_update_refl].
  destruct Htext as [Hmm Hmemo]; [done|]. unfold stored_event. cbn [hl_index].
  assert (Hpar : exists o, (if num_cached =? 0 then Ok None else
      h ← py_index (Request.block_hashes req) (num_cached - 1); Ok (Some (maybe_convert_block_hash use_int h))) = Ok o).
  { destruct (Z.eqb_spec num_cached 0); [by eexists|]. rewrite py_index_nonneg by lia. unfold zlen in *.
    destruct (lookup_lt_is_Some_2 (Request.block_hashes req) (Z.to_nat (num_cached - 1))) as [h ->]; [lia|].
    by eexists. }
  destruct Hpar as [o ->]. cbn [mbind result_bind].
  destruct (stored_keys_total p1 bs block_size req [] 0 (py_range num_cached num_full))
    as (ks & ix & req' & -> & Hbh); [done|done|intros i Hi%elem_of_py_range; lia|].
  cbn [mbind result_bind]. do 2 eexists. split; [done|]. split; [done|]. right. by eexists.
Qed.

Lemma cache_full_blocks_spec use_int p l req bs num_cached num_full block_size gid :
  pool_wf p l -> cacheable p req bs num_cached num_full block_size gid ->
  exists req' p', cache_full_blocks use_int req bs num_cached num_full block_size gid p = Ok (req', p') /\
    pool_wf p' l /\ same_config p p' /\
    memo_update req req' /\
    (forall r, ref_cnt (pheap p' r) = ref_cnt (pheap p r)) /\
    (forall i b, num_cached <= Z.of_nat i < num_full -> bs !! i = Some b -> valid_block p b ->
       exists h k, Request.block_hashes req !! i = Some h /\
         make_block_hash_with_group_id h gid = Ok k /\ block_hash (pheap p' b) = Some k) /\
    (forall r, r ∉ py_slice bs num_cached num_full -> pheap p' r = pheap p r).
Proof.
  intros Hinv [-> Hgid Hr Hbs Hhs Hpool Hnd Htext]. unfold cache_full_blocks.
  rewrite (proj2 (Z.leb_gt _ _)), (proj2 (Z.leb_le _ _)), Z.eqb_refl by lia.
  cbn [py_assert mbind result_bind hl_from]. cbv zeta.
  set (sl := py_slice bs num_cached num_full) in *. set (hs := drop _ _).
  pose proof (fun i => py_slice_lookup bs num_cached num_full i ltac:(lia) Hbs) as Hsl. fold sl in Hsl.
  assert (Hlen : length sl = Z.to_nat (num_full - num_cached)).
  { subst sl. unfold py_slice, zlen in *. rewrite length_drop, length_take. lia. }
  destruct (cache_loop_spec use_int hs gid p [] l (zip (seq 0 (length sl)) sl))
    as (p1 & nh & -> & Hw & Hc & Hd & Hin & Hout); [done|done| | |].
  { intros i b Hib. apply elem_of_zip_seq in Hib as [_ Hib]. rewrite Nat.sub_0_r, Hsl in Hib.
    case_decide; [|done]. split; [subst hs; unfold zlen in *; rewrite length_drop; lia|].
    eapply Hpool; [|done]. lia. }
  { rewrite snd_zip; [done|]. rewrite length_seq. lia. }
  cbn [mbind result_bind].
  destruct (stored_event_total use_int p1 req bs nh num_cached num_full (hash_block_size p))
    as (req' & p' & -> & Hbh & Hp'); [done..| |].
  { intros He. apply Htext. destruct Hc as (_&_&_&_&_&<-). done. }
  assert (Hp1 : pool_wf p' l /\ same_config p1 p' /\ forall r, pheap p' r = pheap p1 r).
  { destruct Hp' as [->|[ev ->]]; [done|]. split_and!; [by apply inv_event|apply push_event_config|].
    intros r. by rewrite push_event_heap. }
  destruct Hp1 as (Hw' & Hc' & Hh'). exists req', p'. split_and!; [done|done|by etrans|done| | |].
  - intros r. rewrite Hh'. apply Hd.
  - intros i b Hi Hb Hv.
    destruct (Hin (i - Z.to_nat num_cached)%nat b) as (h & k & Hh & Hk & Hbk); [|done|].
    + apply list_elem_of_lookup. exists (i - Z.to_nat num_cached)%nat.
      apply lookup_zip_with_Some. do 2 eexists. split; [done|]. split.
      * apply lookup_seq. split; [done|]. lia.
      * rewrite Hsl, decide_True by lia. by replace (_ + _)%nat with i by lia.
    + exists h, k. rewrite Hh'. split_and!; [|done..]. subst hs. rewrite lookup_drop in Hh.
      by replace (_ + _)%nat with i in Hh by lia.
  - intros r Hr'. rewrite Hh'. apply Hout. rewrite snd_zip; [done|]. rewrite length_seq. lia.
Qed.
End PoolInvariant.
