(* ===== verification/PoolSafety.v ===== *)
(** * What the block pool promises

    The theorems on vllm/v1/core/block_pool.py: every sequence of operations that
    respects the callers' contract runs without an exception and keeps the pool
    consistent; allocation, sharing, freeing, caching, eviction and reset do what
    the scheduler's managers rely on.  The lemmas behind them are in BlockPool.v. *)
From S2P Require Import Prelude FreeQueue Request BlockHash BlockPool.

(** ** Sequences of operations *)

(** The calls the managers make. *)
Inductive pool_op : Type :=
  | OpAlloc (n : Z)
  | OpTouch (bs : list blkref)
  | OpFree (bs : list blkref)
  | OpCache (r : Request) (bs : list blkref) (num_cached num_full block_size gid : Z)
  | OpEvict (ids : list Z)
  | OpReset
  | OpTakeEvents.

Definition pool_exec (use_int : bool) (o : pool_op) (p : BlockPool) : result BlockPool :=
  match o with
  | OpAlloc n => snd <$> get_new_blocks use_int n p
  | OpTouch bs => touch bs p
  | OpFree bs => free_blocks bs p
  | OpCache r bs nc nf size gid => snd <$> cache_full_blocks use_int r bs nc nf size gid p
  | OpEvict ids => evict_blocks use_int ids p
  | OpReset => Ok (snd (reset_prefix_cache p))
  | OpTakeEvents => Ok (snd (take_events p))
  end.

(** The contract of each call in a given state. *)
Definition op_ok (o : pool_op) (p : BlockPool) : Prop :=
  match o with
  | OpAlloc n => 0 <= n <= get_num_free_blocks p
  | OpTouch bs => forall b, b ∈ bs -> in_pool p b
  | OpFree bs => freeable_list p bs
  | OpCache r bs nc nf size gid => cacheable p r bs nc nf size gid
  | OpEvict ids => forall i, i ∈ ids -> 0 <= i < num_gpu_blocks p
  | OpReset | OpTakeEvents => True
  end.

(** Runs of the pool: each operation meets its contract when it is called. *)
Inductive pool_run (use_int : bool) : BlockPool -> list pool_op -> result BlockPool -> Prop :=
  | run_nil p : pool_run use_int p [] (Ok p)
  | run_ok p o os p1 res : op_ok o p -> pool_exec use_int o p = Ok p1 -> pool_run use_int p1 os res ->
      pool_run use_int p (o :: os) res
  | run_err p o os e : op_ok o p -> pool_exec use_int o p = Err e -> pool_run use_int p (o :: os) (Err e).

Lemma take_events_spec p l :
  pool_wf p l -> pool_wf (snd (take_events p)) l /\ same_config p (snd (take_events p)).
Proof. intros H. unfold take_events. destruct (enable_kv_cache_events p); cbn; [|done]. by destruct H. Qed.

Lemma pool_exec_wf use_int o p l :
  pool_wf p l -> op_ok o p -> exists p' l', pool_exec use_int o p = Ok p' /\ pool_wf p' l' /\ same_config p p'.
Proof.
  intros Hwf Hok. destruct o as [n|bs|bs|req bs nc nf size gid|ids| |]; cbn in *.
  - unfold get_num_free_blocks in Hok. rewrite (rep_num _ _ (pi_rep _ _ _ Hwf)) in Hok.
    destruct (get_new_blocks_spec use_int n p l Hwf Hok) as (p' & -> & ? & ? & _). by eexists _, _.
  - destruct (touch_spec p l bs Hwf Hok) as (p' & -> & ? & ? & _). by eexists _, _.
  - destruct (free_blocks_spec p l bs Hwf Hok) as (p' & -> & ? & ? & _). by eexists _, _.
  - destruct (cache_full_blocks_spec use_int p l req bs nc nf size gid Hwf Hok)
      as (? & p' & -> & ? & ? & _). by eexists _, _.
  - destruct (evict_blocks_spec use_int p l ids Hwf Hok) as (p' & -> & ? & ? & _). by eexists _, _.
  - pose proof (reset_spec p l Hwf) as H. destruct (reset_prefix_cache p) as [b p'].
    destruct H as (? & ? & _). by eexists _, _.
  - destruct (take_events_spec p l Hwf). by eexists _, _.
Qed.

Lemma pool_run_wf use_int p l os res :
  pool_wf p l -> pool_run use_int p os res -> exists p' l', res = Ok p' /\ pool_wf p' l' /\ same_config p p'.
Proof.
  intros Hwf Hrun. revert l Hwf. induction Hrun as [p|p o os p1 res Hok He Hrun IH|p o os e Hok He]; intros l Hwf.
  - by exists p, l.
  - destruct (pool_exec_wf use_int o p l Hwf Hok) as (p' & l' & He' & Hwf' & Hc). rewrite He in He'.
    injection He' as ->. destruct (IH l' Hwf') as (p2 & l2 & ? & ? & ?). exists p2, l2.
    split_and!; [done..|by etrans].
  - destruct (pool_exec_wf use_int o p l Hwf Hok) as (p' & l' & He' & _). congruence.
Qed.

(** What a consistent pool is, in terms of its parts: the free queue reads back as
    a duplicate-free list, which is exactly the unreferenced blocks; the counter
    agrees with it; the cache table and the blocks' hashes say the same; reference
    counts are never negative; the null block is never free nor cached. *)
Definition pool_consistent (p : BlockPool) : Prop :=
  exists l, get_all_free_blocks (Z.to_nat (num_gpu_blocks p)) (free_block_queue p) = Some (Ok l) /\ NoDup l /\
    get_num_free_blocks p = zlen l /\
    (forall r, r ∈ l <-> valid_block p r /\ ref_cnt (pheap p r) = 0) /\
    (forall r, valid_block p r -> 0 <= ref_cnt (pheap p r)) /\
    (forall k b, cached_in (cached_block_hash_to_block p) k b <->
       valid_block p b /\ block_hash (pheap p b) = Some k) /\
    null_block p ∉ l /\ is_null (pheap p (null_block p)) = true /\ block_hash (pheap p (null_block p)) = None.

Lemma free_length p l : pool_wf p l -> (length l < Z.to_nat (num_gpu_blocks p))%nat.
Proof.
  intros Hwf. rewrite (Permutation_length (free_perm p l Hwf)).
  pose proof (pi_n _ _ _ Hwf).
  pose proof (length_filter (fun r => ref_cnt (pheap p r) = 0) (real_blocks p)) as Hle.
  unfold real_blocks in Hle at 2. rewrite length_fmap, length_seq in Hle. lia.
Qed.

Lemma wf_consistent p l : pool_wf p l -> pool_consistent p.
Proof.
  intros Hwf. pose proof (free_length p l Hwf) as Hlen.
  destruct Hwf as [Hn Hbl Hrep Hnull Hin Hnh Hid Hfr Hnd Href Hc Hm]. rewrite app_nil_r in *.
  exists l. split_and!; try done.
  - by apply get_all_free_blocks_spec.
  - exact (rep_num _ _ Hrep).
  - rewrite Hnull, Hfr. intros [(j & [= <-] & Hj) _]. lia.
  - by rewrite Hnull, Hin.
  - by rewrite Hnull.
Qed.

(** C7: From a fresh pool of [n > 0] blocks, every sequence of allocations, touches,
    frees, cachings, evictions, resets and event drains in which each call meets its
    contract ends normally (no call raises) in a consistent pool: the free queue is
    exactly the unreferenced blocks, the free counter is its length, the cache table
    agrees with the block hashes, no reference count is negative and the null block is
    neither free nor cached. *)
Theorem pool_run_safe use_int n caching hash_bs events p os res :
  pool_init n caching hash_bs events = Ok p -> pool_run use_int p os res ->
  exists p', res = Ok p' /\ pool_consistent p' /\ num_gpu_blocks p' = n.
Proof.
  intros Hinit Hrun. destruct (Z.ltb_spec 0 n) as [Hn|Hn].
  - destruct (pool_init_spec n caching hash_bs events Hn) as (p0 & Hp0 & Hwf & Hnum & _).
    rewrite Hinit in Hp0. injection Hp0 as <-.
    destruct (pool_run_wf _ _ _ _ _ Hwf Hrun) as (p' & l' & -> & Hwf' & Hc). exists p'.
    split_and!; [done|by eapply wf_consistent|]. by rewrite (proj1 Hc).
  - unfold pool_init in Hinit. by rewrite (proj2 (Z.ltb_ge _ _)) in Hinit by lia.
Qed.

(** A concrete pool: blocks 1 to 4 behind the null block. *)
Definition demo_pool : BlockPool :=
  match pool_init 5 true 2 true with Ok p => p | Err _ => mkPool 0 false 0 [] (mkQ (fun _ => new_block 0) 0) ∅ RHead false [] end.

Lemma demo_pool_init : pool_init 5 true 2 true = Ok demo_pool.
Proof. reflexivity. Qed.

Lemma demo_pool_wf : pool_wf demo_pool (RBlk <$> [1; 2; 3; 4]%nat).
Proof.
  destruct (pool_init_spec 5 true 2 true) as (p & Hp & Hwf & _); [lia|].
  rewrite demo_pool_init in Hp. injection Hp as <-. exact Hwf.
Qed.

(** A two-block text request whose hashes are in place. *)
Definition demo_request : Request := text_request 2 [1; 2; 3; 4; 5].

(** The contracts are decidable on concrete pools. *)
#[global] Instance in_pool_dec p r : Decision (in_pool p r).
Proof.
  refine (match r with RBlk i => cast_if (decide (Z.of_nat i < num_gpu_blocks p)) | _ => right _ end);
    unfold in_pool; naive_solver.
Defined.

Lemma freeable_list_intro p bs :
  Forall (in_pool p) bs /\ NoDup (filter (valid_block p) bs) /\
    Forall (fun b => valid_block p b -> 0 < ref_cnt (pheap p b)) bs -> freeable_list p bs.
Proof. rewrite !Forall_forall. intros (H1 & H2 & H3). split_and!; auto. Qed.

Definition exec_or (o : pool_op) (p : BlockPool) : BlockPool :=
  match pool_exec false o p with Ok p' => p' | Err _ => p end.

Lemma run_exec p o os res :
  op_ok o p -> is_ok (pool_exec false o p) = true -> pool_run false (exec_or o p) os res ->
  pool_run false p (o :: os) res.
Proof.
  unfold exec_or. intros Hok Hex Hrun. destruct (pool_exec false o p) as [p1|e] eqn:E; [|done].
  by eapply run_ok.
Qed.

Lemma demo_cacheable :
  cacheable (exec_or (OpAlloc 3) demo_pool) demo_request (RBlk <$> [1; 2; 3]%nat) 0 2 2 0.
Proof.
  split; [by vm_compute..| | |].
  - intros i b Hi Hb. destruct i as [|[|i]]; [..|lia]; injection Hb as <-; split;
      [apply (bool_decide_unpack _); by vm_compute|by vm_compute
      |apply (bool_decide_unpack _); by vm_compute|by vm_compute].
  - apply (bool_decide_unpack _). by vm_compute.
  - intros _. split; [by vm_compute|]. apply text_request_ok. lia.
Qed.

Ltac by_eval := apply (bool_decide_unpack _); by vm_compute.

Lemma pool_run_safe_witness :
  exists p', pool_run false demo_pool
      [OpAlloc 3; OpCache demo_request (RBlk <$> [1; 2; 3]%nat) 0 2 2 0;
       OpFree (RBlk <$> [3; 2; 1]%nat); OpTouch [RBlk 2]; OpFree [RBlk 2]; OpReset; OpTakeEvents] (Ok p') /\
    pool_consistent p'.
Proof.
  assert (Hrun : exists res, pool_run false demo_pool
      [OpAlloc 3; OpCache demo_request (RBlk <$> [1; 2; 3]%nat) 0 2 2 0;
       OpFree (RBlk <$> [3; 2; 1]%nat); OpTouch [RBlk 2]; OpFree [RBlk 2]; OpReset; OpTakeEvents] res).
  { eexists. apply run_exec; [by vm_compute|by vm_compute|].
    apply run_exec; [exact demo_cacheable|by vm_compute|].
    apply run_exec; [apply freeable_list_intro; by_eval|by vm_compute|].
    apply run_exec; [intros b ->%list_elem_of_singleton; by_eval|by vm_compute|].
    apply run_exec; [apply freeable_list_intro; by_eval|by vm_compute|].
    apply run_exec; [done|by vm_compute|]. apply run_exec; [done|by vm_compute|]. constructor. }
  destruct Hrun as [res Hrun].
  destruct (pool_run_safe false 5 true 2 true demo_pool _ res demo_pool_init Hrun) as (p' & -> & Hc & _).
  by exists p'.
Defined.

(** ** The operations *)

(** [get_new_blocks] returns the [n] least recently freed blocks in order, each
    with one reference and, when caching is on, without a hash; every other block keeps
    its contents and exactly those blocks leave the free queue. With fewer than [n]
    free blocks it raises [ValueError]. *)
Theorem get_new_blocks_correct use_int n p l :
  pool_wf p l -> 0 <= n ->
  (n <= zlen l ->
    exists p', get_new_blocks use_int n p = Ok (take (Z.to_nat n) l, p') /\
      pool_wf p' (drop (Z.to_nat n) l) /\ get_num_free_blocks p' = get_num_free_blocks p - n /\
      (forall r, r ∈ take (Z.to_nat n) l -> ref_cnt (pheap p' r) = 1 /\
         (enable_caching p = true -> block_hash (pheap p' r) = None)) /\
      (forall r, r ∉ take (Z.to_nat n) l -> bdata (pheap p' r) = bdata (pheap p r))) /\
  (zlen l < n -> get_new_blocks use_int n p = Err ValueError).
Proof.
  intros Hwf Hn. pose proof (rep_num _ _ (pi_rep _ _ _ Hwf)) as Hnum. unfold zlen. split.
  - intros Hl. destruct (get_new_blocks_spec use_int n p l Hwf) as (p' & Hp' & Hwf' & _ & Hd); [lia|].
    exists p'. split_and!; [done|done| | |].
    + unfold get_num_free_blocks. rewrite Hnum, (rep_num _ _ (pi_rep _ _ _ Hwf')), length_drop. lia.
    + intros r Hr. specialize (Hd r). rewrite decide_True in Hd by done. unfold bdata in Hd. cbn in Hd.
      injection Hd as _ Href Hh _. split; [done|]. intros Hc. by rewrite Hh, Hc.
    + intros r Hr. by rewrite Hd, decide_False by done.
  - intros Hl. unfold get_new_blocks, get_num_free_blocks. by rewrite Hnum, (proj2 (Z.ltb_lt _ _)).
Qed.

Lemma get_new_blocks_correct_witness :
  (exists p', get_new_blocks false 3 demo_pool = Ok (RBlk <$> [1; 2; 3]%nat, p') /\
     get_num_free_blocks p' = 1) /\ get_new_blocks false 5 demo_pool = Err ValueError.
Proof.
  split.
  - destruct (get_new_blocks_correct false 3 demo_pool _ demo_pool_wf) as [H _]; [lia|].
    destruct H as (p' & Hp' & _ & Hn & _); [by vm_compute|]. exists p'. split; [exact Hp'|exact Hn].
  - destruct (get_new_blocks_correct false 5 demo_pool _ demo_pool_wf) as [_ H]; [lia|].
    apply H. by vm_compute.
Defined.

(** [free_blocks] takes one reference from each listed block and appends exactly
    the real blocks that lose their last one to the tail of the free queue, in the order
    given (the eviction order); a freed block keeps its hash, so the cache table is
    unchanged and a later lookup still finds it. *)
Theorem free_blocks_correct p l bs :
  pool_wf p l -> freeable_list p bs ->
  exists p', free_blocks bs p = Ok p' /\
    get_all_free_blocks (Z.to_nat (num_gpu_blocks p)) (free_block_queue p')
      = Some (Ok (l ++ filter (fun b => valid_block p b /\ ref_cnt (pheap p b) = 1) bs)) /\
    (forall r, ref_cnt (pheap p' r) = ref_cnt (pheap p r) - Z.of_nat (length (filter (fun x => x = r) bs)) /\
               block_hash (pheap p' r) = block_hash (pheap p r)) /\
    (forall k b, cached_in (cached_block_hash_to_block p') k b <-> cached_in (cached_block_hash_to_block p) k b).
Proof.
  intros Hwf Hfr. destruct (free_blocks_spec p l bs Hwf Hfr) as (p' & Hp' & Hwf' & Hc & Hd).
  exists p'. split_and!; [done| | |].
  - destruct Hc as (<- & _). apply get_all_free_blocks_spec; [exact (pi_rep _ _ _ Hwf')|by apply free_length].
  - intros r. destruct (Hd r) as (? & _ & ?). done.
  - intros k b. rewrite (pi_cache _ _ _ Hwf'), (pi_cache _ _ _ Hwf).
    destruct (Hd b) as (-> & _). rewrite (valid_same p p'); [done|apply Hc].
Qed.

Lemma demo_alloc_wf : pool_wf (exec_or (OpAlloc 3) demo_pool) [RBlk 4].
Proof.
  destruct (get_new_blocks_spec false 3 demo_pool _ demo_pool_wf) as (p' & Hp' & Hwf & _); [cbn; lia|].
  unfold exec_or, pool_exec. rewrite Hp'. exact Hwf.
Qed.

Lemma free_blocks_correct_witness :
  exists p', free_blocks (RBlk <$> [3; 0; 2; 1]%nat) (exec_or (OpAlloc 3) demo_pool) = Ok p' /\
    get_all_free_blocks 5 (free_block_queue p') = Some (Ok (RBlk <$> [4; 3; 2; 1]%nat)).
Proof.
  destruct (free_blocks_correct _ _ (RBlk <$> [3; 0; 2; 1]%nat) demo_alloc_wf) as (p' & Hp' & Hq & _).
  { apply freeable_list_intro. by_eval. }
  exists p'. split; [exact Hp'|]. exact Hq.
Defined.

(** [touch] adds one reference per occurrence to each listed block, takes the
    blocks that were free out of the queue (the others keep their order) and leaves
    the hashes and the cache table alone; freeing the same distinct blocks afterwards
    restores every reference count. *)
Theorem touch_free_roundtrip p l bs :
  pool_wf p l -> NoDup bs -> (forall b, b ∈ bs -> valid_block p b) ->
  exists p1 p2, touch bs p = Ok p1 /\ free_blocks bs p1 = Ok p2 /\
    (forall b, b ∈ bs -> ref_cnt (pheap p1 b) = ref_cnt (pheap p b) + 1) /\
    get_all_free_blocks (Z.to_nat (num_gpu_blocks p)) (free_block_queue p1)
      = Some (Ok (filter (fun x => x ∉ bs) l)) /\
    (forall r, ref_cnt (pheap p2 r) = ref_cnt (pheap p r) /\ block_hash (pheap p2 r) = block_hash (pheap p r)) /\
    get_all_free_blocks (Z.to_nat (num_gpu_blocks p)) (free_block_queue p2)
      = Some (Ok (filter (fun x => x ∉ bs) l ++ filter (fun b => ref_cnt (pheap p b) = 0) bs)).
Proof.
  intros Hwf Hnd Hv.
  assert (Hin : forall b, b ∈ bs -> in_pool p b).
  { intros b Hb. destruct (Hv b Hb) as (i & ? & ?). exists i. split; [done|lia]. }
  destruct (touch_spec p l bs Hwf Hin) as (p1 & Hp1 & Hwf1 & Hc1 & Hd1).
  assert (Hone : forall b, b ∈ bs -> length (filter (fun x => x = b) bs) = 1%nat).
  { intros b Hb. apply (nodup_filter_count (fun _ => True)); [|done|done]. by rewrite filter_all. }
  assert (Hv1 : forall r, valid_block p1 r <-> valid_block p r) by (intros; apply valid_same, Hc1).
  assert (Hfr : freeable_list p1 bs).
  { split_and!; [| |].
    - intros b Hb. destruct (Hin b Hb) as (i & ? & ?). exists i. by rewrite (proj1 Hc1).
    - by apply NoDup_filter.
    - intros b Hb Hvb. destruct (Hd1 b) as (_ & _ & ->). rewrite Hone by done.
      pose proof (pi_ref _ _ _ Hwf b ltac:(by apply Hv)). lia. }
  destruct (free_blocks_spec p1 _ bs Hwf1 Hfr) as (p2 & Hp2 & Hwf2 & Hc2 & Hd2).
  exists p1, p2. split_and!; [done|done| | | |].
  - intros b Hb. destruct (Hd1 b) as (_ & _ & ->). rewrite Hone by done. lia.
  - rewrite <- (proj1 Hc1). apply get_all_free_blocks_spec; [exact (pi_rep _ _ _ Hwf1)|by apply free_length].
  - intros r. destruct (Hd1 r) as (Hh1 & _ & Hr1), (Hd2 r) as (Hh2 & _ & Hr2). split; [lia|congruence].
  - rewrite <- (proj1 Hc1), <- (proj1 Hc2).
    rewrite (list_filter_iff' (fun b => ref_cnt (pheap p b) = 0)
               (fun b => valid_block p1 b /\ ref_cnt (pheap p1 b) = 1) bs).
    + apply get_all_free_blocks_spec; [exact (pi_rep _ _ _ Hwf2)|by apply free_length].
    + intros b Hb. destruct (Hd1 b) as (_ & _ & ->). rewrite Hone, Hv1 by done.
      split; [intros ->; split; [by apply Hv|lia]|lia].
Qed.

Lemma touch_free_roundtrip_witness :
  exists p1 p2, touch (RBlk <$> [3; 2]%nat) demo_pool = Ok p1 /\ free_blocks (RBlk <$> [3; 2]%nat) p1 = Ok p2 /\
    get_all_free_blocks 5 (free_block_queue p2) = Some (Ok (RBlk <$> [1; 4; 3; 2]%nat)).
Proof.
  destruct (touch_free_roundtrip demo_pool _ (RBlk <$> [3; 2]%nat) demo_pool_wf)
    as (p1 & p2 & H1 & H2 & _ & _ & _ & H3); [by_eval|apply Forall_forall; by_eval|].
  exists p1, p2. split; [exact H1|]. split; [exact H2|exact H3].
Defined.

(** [get_cached_block] never raises for group ids that fit in 4 bytes; it returns
    one block per group, each a real block that carries exactly that hash and group id,
    and it answers [None] only when for some group no block carries that hash. *)
Theorem get_cached_block_correct p l h gids :
  pool_wf p l -> Forall (fun g => 0 <= g < 2 ^ 32) gids ->
  exists o, get_cached_block p h gids = Ok o /\
    match o with
    | Some bs => Forall2 (fun g b => valid_block p b /\
        exists k, block_hash (pheap p b) = Some k /\ get_block_hash k = h /\ get_group_id k = g) gids bs
    | None => exists g, g ∈ gids /\
        forall b k, valid_block p b -> block_hash (pheap p b) = Some k ->
          make_block_hash_with_group_id h g <> Ok k
    end.
Proof.
  intros Hwf Hg. destruct (get_cached_loop_spec p l h gids [] Hwf Hg) as (o & Ho & Hspec).
  exists o. split; [exact Ho|]. destruct o as [bs|].
  - destruct Hspec as (bs' & -> & H). cbn. eapply Forall2_impl; [exact H|].
    intros g b (Hv & k & Hk & Hb). split; [done|]. exists k.
    pose proof (make_key_components h g k Hk). done.
  - destruct Hspec as (g & k & Hgin & Hk & Hno). exists g. split; [done|].
    intros b k' Hv Hb Hk'. rewrite Hk in Hk'. injection Hk' as <-. by apply (Hno b).
Qed.

Lemma get_cached_block_correct_witness :
  exists o, get_cached_block demo_pool [7; 7] [0; 1] = Ok o /\ o = None.
Proof.
  destruct (get_cached_block_correct demo_pool _ [7; 7] [0; 1] demo_pool_wf) as (o & Ho & _).
  { apply (bool_decide_unpack _). by vm_compute. }
  exists o. split; [exact Ho|]. vm_compute in Ho. congruence.
Defined.

(** C24: After [cache_full_blocks] for one group, looking up the hash of any newly
    cached full block hits: the lookup returns a real block whose key is that hash and
    group (the block itself, or an earlier block with the same contents), no reference
    count changed and the free queue is the same. *)
Theorem cache_then_lookup use_int p l req bs num_cached num_full block_size gid :
  pool_wf p l -> cacheable p req bs num_cached num_full block_size gid ->
  exists req' p', cache_full_blocks use_int req bs num_cached num_full block_size gid p = Ok (req', p') /\
    pool_wf p' l /\ (forall r, ref_cnt (pheap p' r) = ref_cnt (pheap p r)) /\
    forall i b h, num_cached <= Z.of_nat i < num_full -> bs !! i = Some b -> valid_block p b ->
      Request.block_hashes req !! i = Some h ->
      exists k b', block_hash (pheap p' b) = Some k /\ get_block_hash k = h /\ get_group_id k = gid /\
        get_cached_block p' h [gid] = Ok (Some [b']) /\ block_hash (pheap p' b') = Some k.
Proof.
  intros Hwf Hca. destruct (cache_full_blocks_spec use_int p l _ _ _ _ _ _ Hwf Hca)
    as (req' & p' & Hcf & Hwf' & Hc & _ & Href & Hin & _).
  exists req', p'. split_and!; [done..|]. intros i b h Hi Hb Hv Hh.
  destruct (Hin i b Hi Hb Hv) as (h' & k & Hh' & Hk & Hbk). rewrite Hh in Hh'. injection Hh' as <-.
  destruct (get_cached_loop_spec p' l h [gid] [] Hwf') as (o & Ho & Hspec).
  { constructor; [apply Hca|constructor]. }
  destruct o as [bs'|].
  - destruct Hspec as (bs2 & -> & H2). inversion H2 as [|? b' ? ? (Hvb' & k' & Hk' & Hbk') Hnil]; subst.
    inversion Hnil; subst. rewrite Hk in Hk'. injection Hk' as <-. exists k, b'.
    pose proof (make_key_components h gid k Hk) as [? ?]. split_and!; done.
  - destruct Hspec as (g & k' & Hg%list_elem_of_singleton & Hk' & Hno). subst g.
    rewrite Hk in Hk'. injection Hk' as <-. exfalso. apply (Hno b); [|done].
    rewrite (valid_same p p'); [done|apply Hc].
Qed.

Lemma cache_then_lookup_witness :
  exists req' p' h, cache_full_blocks false demo_request (RBlk <$> [1; 2; 3]%nat) 0 2 2 0
                      (exec_or (OpAlloc 3) demo_pool) = Ok (req', p') /\
    Request.block_hashes demo_request !! 1%nat = Some h /\
    exists b, get_cached_block p' h [0] = Ok (Some [b]).
Proof.
  destruct (cache_then_lookup false _ _ _ _ _ _ _ _ demo_alloc_wf demo_cacheable)
    as (req' & p' & Hc & _ & _ & Hl).
  destruct (Request.block_hashes demo_request !! 1%nat) as [h|] eqn:Hh; [|by vm_compute in Hh].
  destruct (Hl 1%nat (RBlk 2) h) as (k & b & _ & _ & _ & Hg & _); [lia|done|by_eval|done|].
  exists req', p', h. split; [exact Hc|]. split; [done|]. exists b. exact Hg.
Defined.

(** [reset_prefix_cache] succeeds exactly when no real block is referenced; then
    no lookup can hit any more and no block keeps a hash; when it answers [False] it
    changed nothing. *)
Theorem reset_prefix_cache_correct p l :
  pool_wf p l ->
  let '(ok, p') := reset_prefix_cache p in
  pool_wf p' l /\
  (ok = true <-> forall r, valid_block p r -> ref_cnt (pheap p r) = 0) /\
  (ok = false -> p' = p) /\
  (ok = true -> (forall r, valid_block p r -> block_hash (pheap p' r) = None) /\
     forall h g, 0 <= g < 2 ^ 32 -> get_cached_block p' h [g] = Ok None).
Proof.
  intros Hwf. pose proof (reset_spec p l Hwf) as H. destruct (reset_prefix_cache p) as [ok p'].
  destruct H as (Hwf' & Hc & Hiff & Hf & Ht). split_and!; [done..|]. intros Hok.
  destruct (Ht Hok) as [_ Hnone]. split; [done|]. intros h g Hg.
  destruct (get_cached_loop_spec p' l h [g] [] Hwf') as (o & Ho & Hspec); [by constructor; [|constructor]|].
  destruct o as [bs|]; [|exact Ho]. exfalso.
  destruct Hspec as (bs2 & _ & H2). inversion H2 as [|? b ? ? (Hv & k & _ & Hb) _]; subst.
  rewrite Hnone in Hb; [done|]. rewrite <- (valid_same p p'); [done|apply Hc].
Qed.

Lemma reset_prefix_cache_correct_witness :
  fst (reset_prefix_cache demo_pool) = true /\
  fst (reset_prefix_cache (exec_or (OpAlloc 3) demo_pool)) = false.
Proof.
  split.
  - pose proof (reset_prefix_cache_correct demo_pool _ demo_pool_wf) as H.
    destruct (reset_prefix_cache demo_pool) as [ok p'] eqn:E. destruct H as (_ & Hiff & _).
    apply Hiff. intros r Hr. apply elem_of_real_blocks in Hr. revert r Hr. apply Forall_forall. by_eval.
  - pose proof (reset_prefix_cache_correct _ _ demo_alloc_wf) as H.
    destruct (reset_prefix_cache _) as [ok p'] eqn:E. destruct H as (_ & Hiff & _). cbn.
    destruct ok; [|done]. exfalso. pose proof (proj1 Hiff eq_refl (RBlk 1)) as Hr.
    vm_compute in Hr. specialize (Hr ltac:(exists 1%nat; by vm_compute)). discriminate.
Defined.

(** Blocks are conserved: in a consistent pool the free blocks and the referenced
    real blocks add up to all the blocks but the null block. *)
Theorem pool_conservation p l :
  pool_wf p l ->
  get_num_free_blocks p + zlen (filter (fun r => 0 < ref_cnt (pheap p r)) (real_blocks p))
    = num_gpu_blocks p - 1.
Proof.
  intros Hwf. unfold get_num_free_blocks. rewrite (rep_num _ _ (pi_rep _ _ _ Hwf)).
  rewrite (Permutation_length (free_perm p l Hwf)). unfold zlen.
  rewrite (list_filter_iff' (fun r => 0 < ref_cnt (pheap p r)) (fun r => ~ ref_cnt (pheap p r) = 0)).
  - rewrite <- Nat2Z.inj_add, filter_split_length. unfold real_blocks. rewrite length_fmap, length_seq.
    pose proof (pi_n _ _ _ Hwf). lia.
  - intros r Hr%elem_of_real_blocks. pose proof (pi_ref _ _ _ Hwf r Hr). lia.
Qed.

Lemma pool_conservation_witness :
  get_num_free_blocks (exec_or (OpAlloc 3) demo_pool) = 1 /\
  zlen (filter (fun r => 0 < ref_cnt (pheap (exec_or (OpAlloc 3) demo_pool) r))
          (real_blocks (exec_or (OpAlloc 3) demo_pool))) = 3.
Proof.
  pose proof (pool_conservation _ _ demo_alloc_wf) as H. split; [by vm_compute|].
  change (get_num_free_blocks _) with 1 in H. change (num_gpu_blocks _) with 5 in H. lia.
Defined.

(** [evict_blocks] only strips the hashes of the listed blocks: reference counts
    and the free queue are unchanged, and none of these blocks can be returned by a
    lookup afterwards. *)
Theorem evict_blocks_correct use_int p l ids :
  pool_wf p l -> (forall i, i ∈ ids -> 0 <= i < num_gpu_blocks p) ->
  exists p', evict_blocks use_int ids p = Ok p' /\ pool_wf p' l /\
    (forall r, ref_cnt (pheap p' r) = ref_cnt (pheap p r)) /\
    (forall r, r ∉ id_ref <$> ids -> block_hash (pheap p' r) = block_hash (pheap p r)) /\
    forall h gids bs i, Forall (fun g => 0 <= g < 2 ^ 32) gids ->
      get_cached_block p' h gids = Ok (Some bs) -> i ∈ ids -> id_ref i ∉ bs.
Proof.
  intros Hwf Hids. destruct (evict_blocks_spec use_int p l ids Hwf Hids) as (p' & Hp' & Hwf' & _ & Hd).
  exists p'. split_and!; [done|done| | |].
  - intros r. rewrite Hd. by case_decide.
  - intros r Hr. by rewrite Hd, decide_False.
  - intros h gids bs i Hg Hget Hi Hin.
    destruct (get_cached_loop_spec p' l h gids [] Hwf' Hg) as (o & Ho & Hspec).
    unfold get_cached_block in Hget. rewrite Hget in Ho. injection Ho as <-.
    destruct Hspec as (bs' & -> & H2). cbn in Hin. apply list_elem_of_lookup in Hin as [j Hj].
    destruct (Forall2_lookup_r _ _ _ _ _ H2 Hj) as (g & _ & _ & k & _ & Hb).
    rewrite Hd, decide_True in Hb; [done|]. by apply list_elem_of_fmap_2.
Qed.

Lemma evict_blocks_correct_witness :
  exists p', evict_blocks false [2; 1] demo_pool = Ok p' /\ pool_wf p' (RBlk <$> [1; 2; 3; 4]%nat).
Proof.
  destruct (evict_blocks_correct false demo_pool _ [2; 1] demo_pool_wf) as (p' & Hp' & Hwf & _).
  { apply Forall_forall. by_eval. }
  exists p'. split; [exact Hp'|exact Hwf].
Defined.
