(* ===== verification/SingleTypeManager.v ===== *)
(** * The managers of one attention type

    vllm/v1/core/single_type_kv_cache_manager.py: the base class
    [SingleTypeKVCacheManager] and its subclasses, chosen by the spec of the group.
    The block pool is shared by the managers, so every operation takes and returns it
    next to the manager.  [req_to_blocks] is a [defaultdict(list)]: subscripting it
    inserts an empty list ([rb_touch]), [get] does not. *)
From S2P Require Import Prelude FreeQueue Request BlockHash KVCacheSpec BlockPool.

(** The subclass that [spec_manager_map] gives for a spec. *)
Inductive manager_class : Type :=
  | FullAttentionManager
  | SlidingWindowManager
  | ChunkedLocalAttentionManager
  | MambaManager
  | CrossAttentionManager
  | SinkFullAttentionManager.
#[global] Instance manager_class_eq_dec : EqDecision manager_class.
Proof. solve_decision. Defined.

Definition spec_manager_map (s : layer_spec) : result manager_class :=
  match s with
  | FullAttentionSpec _ _ _ | MLAAttentionSpec _ _ _ _ => Ok FullAttentionManager
  | SlidingWindowSpec _ _ _ => Ok SlidingWindowManager
  | ChunkedLocalAttentionSpec _ _ _ => Ok ChunkedLocalAttentionManager
  | MambaSpec _ _ _ _ _ _ _ => Ok MambaManager
  | CrossAttentionSpec _ _ => Ok CrossAttentionManager
  | SinkFullAttentionSpec _ _ _ _ => Ok SinkFullAttentionManager
  | EncoderOnlyAttentionSpec _ _ => Err KeyError
  end.

Record STManager : Type := mkSTM {
  st_class : manager_class;
  st_spec : layer_spec;
  st_block_size : Z;
  st_enable_caching : bool;
  kv_cache_group_id : Z;
  new_block_ids : list Z;
  req_to_blocks : gmap string (list blkref);
  num_cached_block : gmap string Z;
  (* MambaManager *)
  cached_blocks_this_step : gset bytes;
  last_state_block_idx : gmap string Z;
  allocated_block_reqs : gset string;
  (* SinkFullAttentionManager *)
  sink_blocks : list blkref;
}.

Definition set_new_ids (v : list Z) (m : STManager) : STManager :=
  mkSTM (st_class m) (st_spec m) (st_block_size m) (st_enable_caching m) (kv_cache_group_id m) v
    (req_to_blocks m) (num_cached_block m) (cached_blocks_this_step m) (last_state_block_idx m)
    (allocated_block_reqs m) (sink_blocks m).
Definition set_rb (v : gmap string (list blkref)) (m : STManager) : STManager :=
  mkSTM (st_class m) (st_spec m) (st_block_size m) (st_enable_caching m) (kv_cache_group_id m)
    (new_block_ids m) v (num_cached_block m) (cached_blocks_this_step m) (last_state_block_idx m)
    (allocated_block_reqs m) (sink_blocks m).
Definition set_ncb (v : gmap string Z) (m : STManager) : STManager :=
  mkSTM (st_class m) (st_spec m) (st_block_size m) (st_enable_caching m) (kv_cache_group_id m)
    (new_block_ids m) (req_to_blocks m) v (cached_blocks_this_step m) (last_state_block_idx m)
    (allocated_block_reqs m) (sink_blocks m).
Definition set_step_cache (v : gset bytes) (m : STManager) : STManager :=
  mkSTM (st_class m) (st_spec m) (st_block_size m) (st_enable_caching m) (kv_cache_group_id m)
    (new_block_ids m) (req_to_blocks m) (num_cached_block m) v (last_state_block_idx m)
    (allocated_block_reqs m) (sink_blocks m).
Definition set_last_state (v : gmap string Z) (m : STManager) : STManager :=
  mkSTM (st_class m) (st_spec m) (st_block_size m) (st_enable_caching m) (kv_cache_group_id m)
    (new_block_ids m) (req_to_blocks m) (num_cached_block m) (cached_blocks_this_step m) v
    (allocated_block_reqs m) (sink_blocks m).
Definition set_allocated_reqs (v : gset string) (m : STManager) : STManager :=
  mkSTM (st_class m) (st_spec m) (st_block_size m) (st_enable_caching m) (kv_cache_group_id m)
    (new_block_ids m) (req_to_blocks m) (num_cached_block m) (cached_blocks_this_step m)
    (last_state_block_idx m) v (sink_blocks m).

Definition set_sink (v : list blkref) (m : STManager) : STManager :=
  mkSTM (st_class m) (st_spec m) (st_block_size m) (st_enable_caching m) (kv_cache_group_id m)
    (new_block_ids m) (req_to_blocks m) (num_cached_block m) (cached_blocks_this_step m)
    (last_state_block_idx m) (allocated_block_reqs m) v.

(** [self.req_to_blocks[rid]] of the defaultdict. *)
Definition rb_get (rid : string) (m : STManager) : list blkref := default [] (req_to_blocks m !! rid).
Definition rb_touch (rid : string) (m : STManager) : STManager :=
  match req_to_blocks m !! rid with None => set_rb (<[rid := []]> (req_to_blocks m)) m | Some _ => m end.
Definition rb_set (rid : string) (bs : list blkref) (m : STManager) : STManager :=
  set_rb (<[rid := bs]> (req_to_blocks m)) m.

(** [SingleTypeKVCacheManager.__init__]. *)
Definition base_manager_init (cls : manager_class) (s : layer_spec) (caching : bool) (gid dcp pcp : Z) : STManager :=
  let bs := if 1 <? dcp * pcp then spec_block_size s * (dcp * pcp) else spec_block_size s in
  mkSTM cls s bs caching gid [] ∅ ∅ ∅ ∅ ∅ [].

(** [SinkFullAttentionManager.__init__]: the sink blocks leave the free queue. *)
Definition sink_manager_init (sink_len : option Z) (p : BlockPool) (m : STManager) : result (BlockPool * STManager) :=
  match sink_len with
  | Some k =>
      _ ← py_assert ((0 <? k) && (k mod st_block_size m =? 0));
      '(sink, q) ← popleft_n (k / st_block_size m) (free_block_queue p);
      Ok (set_queue q p, set_sink sink m)
  | None => Err AssertionError
  end.

(** [get_manager_for_kv_cache_spec]. *)
Definition manager_init (s : layer_spec) (caching : bool) (gid dcp pcp : Z) (p : BlockPool)
  : result (BlockPool * STManager) :=
  cls ← spec_manager_map s;
  let m := base_manager_init cls s caching gid dcp pcp in
  match s with
  | SinkFullAttentionSpec _ _ _ sink_len => sink_manager_init sink_len p m
  | _ => Ok (p, m)
  end.

(** [get_num_skipped_tokens] of each class. *)
Definition sliding_num_skipped_tokens (w num_computed_tokens : Z) : Z := Z.max 0 (num_computed_tokens - w + 1).
Definition chunked_num_skipped_tokens (k num_computed_tokens : Z) : Z := num_computed_tokens / k * k.
Definition mamba_num_skipped_tokens (num_computed_tokens : Z) : Z := num_computed_tokens - 1.
Definition get_num_skipped_tokens (m : STManager) (num_computed_tokens : Z) : Z :=
  match st_spec m with
  | SlidingWindowSpec _ _ w => sliding_num_skipped_tokens w num_computed_tokens
  | ChunkedLocalAttentionSpec _ _ k => chunked_num_skipped_tokens k num_computed_tokens
  | MambaSpec _ _ _ _ _ _ _ => mamba_num_skipped_tokens num_computed_tokens
  | _ => 0
  end.

(** [_get_num_evictable_blocks]. *)
Definition get_num_evictable_blocks (p : BlockPool) (bs : list blkref) : Z :=
  zlen (filter (is_freeable p) bs).

(** The speculative blocks and the cache mode of a Mamba manager. *)
Definition num_speculative_blocks (m : STManager) : Z :=
  match st_spec m with MambaSpec _ _ _ _ _ _ n => n | _ => 0 end.
Definition mamba_align (m : STManager) : bool :=
  match st_spec m with MambaSpec _ _ _ _ _ MambaAlign _ => true | _ => false end.

(** ** [get_num_blocks_to_allocate] *)

Definition base_num_blocks_to_allocate (rid : string) (num_tokens : Z) (new_computed : list blkref)
    (total_computed : Z) (p : BlockPool) (m : STManager) : result Z :=
  let num_required := cdiv num_tokens (st_block_size m) in
  let num_req := zlen (rb_get rid m) in
  match num_cached_block m !! rid with
  | Some _ =>
      _ ← py_assert (zlen new_computed =? 0);
      Ok (Z.max (num_required - num_req) 0)
  | None =>
      let num_skipped := get_num_skipped_tokens m total_computed / st_block_size m in
      let num_local := zlen new_computed + num_req in
      let num_new := Z.max (num_required - Z.max num_skipped num_local) 0 in
      let num_skipped_new := Z.max 0 (num_skipped - num_req) in
      Ok (num_new + get_num_evictable_blocks p (drop (Z.to_nat num_skipped_new) new_computed))
  end.

(** [MambaManager.get_num_blocks_to_allocate]; the align mode subscripts
    [req_to_blocks]. *)
Definition mamba_num_blocks_to_allocate (rid : string) (num_tokens : Z) (new_computed : list blkref)
    (total_computed num_tokens_main : Z) (p : BlockPool) (m : STManager) : result (Z * STManager) :=
  if match last new_computed with
     | Some b => match block_hash (pheap p b) with
                 | Some k => bool_decide (k ∈ cached_blocks_this_step m)
                 | None => false
                 end
     | None => false
     end then Ok (num_gpu_blocks p + 1, m) else
  if negb (mamba_align m) then
    let nt := if 0 <? num_speculative_blocks m
              then num_tokens + spec_block_size (st_spec m) * num_speculative_blocks m else num_tokens in
    n ← base_num_blocks_to_allocate rid nt new_computed total_computed p m; Ok (n, m)
  else
    let num_required := cdiv num_tokens_main (st_block_size m) + num_speculative_blocks m in
    let num_new := num_required - zlen new_computed - zlen (rb_get rid m) in
    let num_new' := if 0 <? num_new then
                      if bool_decide (rid ∈ allocated_block_reqs m) then 1 else 1 + num_speculative_blocks m
                    else num_new in
    Ok (num_new' + get_num_evictable_blocks p new_computed, rb_touch rid m).

Definition st_num_blocks_to_allocate (rid : string) (num_tokens : Z) (new_computed : list blkref)
    (total_computed num_tokens_main : Z) (p : BlockPool) (m : STManager) : result (Z * STManager) :=
  match st_class m with
  | MambaManager => mamba_num_blocks_to_allocate rid num_tokens new_computed total_computed num_tokens_main p m
  | _ => n ← base_num_blocks_to_allocate rid num_tokens new_computed total_computed p m; Ok (n, m)
  end.

(** ** Allocation *)

Section Allocation.
Context (use_int : bool).

(** [type(self.kv_cache_spec) is FullAttentionSpec]: record the ids of new blocks. *)
Definition record_new_ids (p : BlockPool) (bs : list blkref) (m : STManager) : STManager :=
  match st_spec m with
  | FullAttentionSpec _ _ _ => set_new_ids (new_block_ids m ++ ((fun b => block_id (pheap p b)) <$> bs)) m
  | _ => m
  end.

Definition base_allocate_new_computed_blocks (rid : string) (new_computed : list blkref)
    (num_local num_external : Z) (p : BlockPool) (m : STManager) : result (BlockPool * STManager) :=
  match num_cached_block m !! rid with
  | Some _ => _ ← py_assert (zlen new_computed =? 0); Ok (p, m)
  | None =>
      let req_blocks := rb_get rid m in
      _ ← py_assert (zlen req_blocks =? 0);
      let num_total := num_local + num_external in
      let skipped_tokens := get_num_skipped_tokens m num_total in
      let num_skipped := skipped_tokens / st_block_size m in
      let '(computed, ext) :=
        if 0 <? num_skipped
        then (drop (Z.to_nat num_skipped) new_computed, Z.min (num_total - skipped_tokens) num_external)
        else (new_computed, num_external) in
      p1 ← (if st_enable_caching m then touch computed p
            else _ ← py_assert (zlen computed =? 0); Ok p);
      let req1 := req_blocks ++ replicate (Z.to_nat num_skipped) (null_block p1) ++ computed in
      let m1 := set_ncb (<[rid := zlen req1]> (num_cached_block m)) (rb_set rid req1 m) in
      if 0 <? ext then
        '(bs, p2) ← get_new_blocks use_int (cdiv num_total (st_block_size m) - zlen req1) p1;
        Ok (p2, record_new_ids p2 bs (rb_set rid (req1 ++ bs) m1))
      else Ok (p1, m1)
  end.

Definition st_allocate_new_computed_blocks (rid : string) (new_computed : list blkref)
    (num_local num_external : Z) (p : BlockPool) (m : STManager) : result (BlockPool * STManager) :=
  match st_class m with
  | CrossAttentionManager => _ ← py_assert (zlen new_computed =? 0); Ok (p, m)
  | _ => base_allocate_new_computed_blocks rid new_computed num_local num_external p m
  end.

Definition base_allocate_new_blocks (rid : string) (num_tokens : Z) (p : BlockPool) (m : STManager)
  : result (list blkref * BlockPool * STManager) :=
  let req_blocks := rb_get rid m in
  let num_new := cdiv num_tokens (st_block_size m) - zlen req_blocks in
  if num_new <=? 0 then Ok ([], p, rb_touch rid m) else
  '(bs, p1) ← get_new_blocks use_int num_new p;
  Ok (bs, p1, record_new_ids p1 bs (rb_set rid (req_blocks ++ bs) m)).

(** Reusing the speculative blocks of the previous step: the loop over their
    indices, left at the first one that is not skipped. *)
Fixpoint reuse_spec_blocks (null : blkref) (num_skipped : Z) (idxs : list Z) (req_blocks : list blkref)
  : result (list blkref) :=
  match idxs with
  | [] => Ok req_blocks
  | i :: idxs' =>
      if i <? num_skipped then
        b ← py_index req_blocks i;
        let j := Z.to_nat (if i <? 0 then i + zlen req_blocks + 1 else i) in
        reuse_spec_blocks null num_skipped idxs' (<[j := null]> (req_blocks ++ [b]))
      else Ok req_blocks
  end.

(** [MambaManager.allocate_new_blocks]. *)
Definition mamba_allocate_new_blocks (rid : string) (num_tokens num_tokens_main : Z)
    (p : BlockPool) (m : STManager) : result (list blkref * BlockPool * STManager) :=
  let nspec := num_speculative_blocks m in
  if negb (mamba_align m) then
    base_allocate_new_blocks rid
      (if 0 <? nspec then num_tokens + st_block_size m * nspec else num_tokens) p m
  else
    let req_blocks := rb_get rid m in
    let prev_len := zlen req_blocks in
    let num_required := cdiv num_tokens_main (st_block_size m) + nspec in
    if num_required =? prev_len then Ok ([], p, rb_touch rid m) else
    _ ← py_assert (prev_len <? num_required);
    let allocated := bool_decide (rid ∈ allocated_block_reqs m) in
    let m1 := if allocated then set_last_state (<[rid := prev_len - 1 - nspec]> (last_state_block_idx m)) m
              else if 0 <? prev_len then set_last_state (<[rid := prev_len - 1]> (last_state_block_idx m)) m
              else m in
    let num_skipped := num_required - nspec - 1 in
    let req1 := req_blocks ++ replicate (Z.to_nat (num_skipped - prev_len)) (null_block p) in
    req2 ← (if allocated then reuse_spec_blocks (null_block p) num_skipped
                                (py_range (prev_len - nspec) prev_len) req1
            else Ok req1);
    let num_new := num_required - zlen req2 in
    _ ← py_assert (num_new <=? (if allocated then 1 else nspec + 1));
    '(bs, p1) ← get_new_blocks use_int num_new p;
    let req3 := req2 ++ bs in
    Ok (drop (Z.to_nat prev_len) req3, p1,
        set_allocated_reqs ({[rid]} ∪ allocated_block_reqs m1) (rb_set rid req3 m1)).

Definition st_allocate_new_blocks (rid : string) (num_tokens num_tokens_main : Z)
    (p : BlockPool) (m : STManager) : result (list blkref * BlockPool * STManager) :=
  match st_class m with
  | MambaManager => mamba_allocate_new_blocks rid num_tokens num_tokens_main p m
  | _ => base_allocate_new_blocks rid num_tokens p m
  end.

(** [take_new_block_ids]. *)
Definition take_new_block_ids (m : STManager) : list Z * STManager := (new_block_ids m, set_new_ids [] m).

(** ** [cache_blocks] *)

Definition base_cache_blocks (r : Request) (num_tokens : Z) (p : BlockPool) (m : STManager)
  : result (Request * BlockPool * STManager) :=
  let num_cached := default 0 (num_cached_block m !! request_id r) in
  let num_full := num_tokens / st_block_size m in
  if num_full <=? num_cached then Ok (r, p, m) else
  let m1 := rb_touch (request_id r) m in
  '(r1, p1) ← cache_full_blocks use_int r (rb_get (request_id r) m) num_cached num_full
                (st_block_size m) (kv_cache_group_id m) p;
  Ok (r1, p1, set_ncb (<[request_id r := num_full]> (num_cached_block m1)) m1).

(** The loop of [MambaManager.cache_blocks] over the newly cached blocks. *)
Definition collect_step_hashes (p : BlockPool) (acc : gset bytes) (b : blkref) : result (gset bytes) :=
  if is_null (pheap p b) then Ok acc else
  k ← of_option AssertionError (block_hash (pheap p b));
  Ok ({[k]} ∪ acc).

Definition mamba_cache_blocks (r : Request) (num_tokens : Z) (p : BlockPool) (m : STManager)
  : result (Request * BlockPool * STManager) :=
  let before := default 0 (num_cached_block m !! request_id r) in
  '(r1, p1, m1) ← base_cache_blocks r num_tokens p m;
  let after := default 0 (num_cached_block m1 !! request_id r) in
  if before <? after then
    acc ← foldM (collect_step_hashes p1) (cached_blocks_this_step m1)
            (py_slice (rb_get (request_id r) m1) before after);
    Ok (r1, p1, set_step_cache acc (rb_touch (request_id r) m1))
  else Ok (r1, p1, m1).

Definition st_cache_blocks (r : Request) (num_tokens : Z) (p : BlockPool) (m : STManager)
  : result (Request * BlockPool * STManager) :=
  match st_class m with
  | CrossAttentionManager => Err ValueError
  | MambaManager => mamba_cache_blocks r num_tokens p m
  | _ => base_cache_blocks r num_tokens p m
  end.
End Allocation.

(** ** Release *)

Definition base_free (rid : string) (p : BlockPool) (m : STManager) : result (BlockPool * STManager) :=
  let req_blocks := rb_get rid m in
  p1 ← free_blocks (rev req_blocks) p;
  Ok (p1, set_ncb (delete rid (num_cached_block m)) (set_rb (delete rid (req_to_blocks m)) m)).

Definition st_free (rid : string) (p : BlockPool) (m : STManager) : result (BlockPool * STManager) :=
  let m1 := if mamba_align m
            then set_last_state (delete rid (last_state_block_idx m))
                   (set_allocated_reqs (allocated_block_reqs m ∖ {[rid]}) m)
            else m in
  base_free rid p m1.

(** The loop of [remove_skipped_blocks] from index [n - 1] down, stopped by the first
    null block: the removed blocks and the list with nulls in their place. *)
Fixpoint skip_scan (null : blkref) (n : nat) (bs removed : list blkref) : list blkref * list blkref :=
  match n with
  | O => (removed, bs)
  | S i =>
      match bs !! i with
      | None => (removed, bs)
      | Some b => if decide (b = null) then (removed, bs)
                  else skip_scan null i (<[i := null]> bs) (removed ++ [b])
      end
  end.

Definition base_remove_skipped_blocks (rid : string) (total_computed : Z) (p : BlockPool) (m : STManager)
  : result (BlockPool * STManager) :=
  let skipped_tokens := get_num_skipped_tokens m total_computed in
  if skipped_tokens <=? 0 then Ok (p, m) else
  let bs := rb_get rid m in
  let n := Z.min (skipped_tokens / st_block_size m) (zlen bs) in
  let '(removed, bs') := skip_scan (null_block p) (Z.to_nat n) bs [] in
  p1 ← free_blocks removed p;
  Ok (p1, rb_set rid bs' m).

Definition mamba_remove_skipped_blocks (rid : string) (total_computed : Z) (p : BlockPool) (m : STManager)
  : result (BlockPool * STManager) :=
  let computed := Z.max 0 (total_computed - num_speculative_blocks m) in
  '(p1, m1) ← base_remove_skipped_blocks rid computed p m;
  match (if mamba_align m1 then last_state_block_idx m1 !! rid else None) with
  | None => Ok (p1, m1)
  | Some idx =>
      if idx <? cdiv computed (st_block_size m1) - 1 then
        let bs := rb_get rid m1 in
        b ← py_index bs idx;
        if decide (b = null_block p1) then Ok (p1, rb_touch rid m1) else
        p2 ← free_blocks [b] p1;
        Ok (p2, rb_set rid (<[Z.to_nat (if idx <? 0 then idx + zlen bs else idx) := null_block p1]> bs) m1)
      else Ok (p1, m1)
  end.

Definition st_remove_skipped_blocks (rid : string) (total_computed : Z) (p : BlockPool) (m : STManager)
  : result (BlockPool * STManager) :=
  match st_class m with
  | MambaManager => mamba_remove_skipped_blocks rid total_computed p m
  | _ => base_remove_skipped_blocks rid total_computed p m
  end.

(** [new_step_starts]. *)
Definition st_new_step_starts (m : STManager) : STManager :=
  match st_class m with MambaManager => set_step_cache ∅ m | _ => m end.

(** [get_num_common_prefix_blocks]. *)
Fixpoint common_prefix_loop (p : BlockPool) (n : Z) (bs : list blkref) : Z :=
  match bs with
  | [] => 0
  | b :: bs' => if ref_cnt (pheap p b) =? n then 1 + common_prefix_loop p n bs' else 0
  end.
Definition st_num_common_prefix_blocks (rid : string) (p : BlockPool) (m : STManager) : Z * STManager :=
  match st_class m with
  | FullAttentionManager | SinkFullAttentionManager =>
      let m1 := rb_touch rid m in
      (common_prefix_loop p (Z.of_nat (size (req_to_blocks m1))) (rb_get rid m1), m1)
  | _ => (0, m)
  end.
