(* ===== verification/CacheHit.v ===== *)
(** * Prefix-cache lookup

    [find_longest_cache_hit] of the managers in
    vllm/v1/core/single_type_kv_cache_manager.py.  The result is one list of blocks
    per group id; all lists have the same length. *)
From S2P Require Import Prelude FreeQueue Request BlockHash KVCacheSpec BlockPool PoolSafety SingleTypeManager.

(** [len] of the list of hashes. *)
Definition hl_len (l : hash_list) : Z :=
  match l with Plain l => zlen l | Scaled b => bhl_len b end.

(** [if cached_block := block_pool.get_cached_block(...)]: an empty answer is a miss. *)
Definition lookup_block (p : BlockPool) (hl : hash_list) (gids : list Z) (i : Z)
  : result (option (list blkref)) :=
  h ← hl_index hl i;
  o ← get_cached_block p h gids;
  Ok (match o with Some [] => None | o => o end).

(** [computed.append(cached)] for each group. *)
Definition append_all (computed : list (list blkref)) (cached : list blkref) : list (list blkref) :=
  zip_with (fun c b => c ++ [b]) computed cached.

(** [computed.pop()] for each group. *)
Definition pop_all (computed : list (list blkref)) : result (list (list blkref)) :=
  if forallb (fun c => 0 <? zlen c) computed then Ok ((fun c => removelast c) <$> computed) else Err IndexError.

(** [computed_blocks[0]]. *)
Definition first_group (computed : list (list blkref)) : result (list blkref) :=
  of_option IndexError (head computed).

(** The loop that trims the hit to a multiple of [alignment_tokens]. *)
Fixpoint align_loop (fuel : nat) (block_size alignment : Z) (computed : list (list blkref))
  : result (list (list blkref)) :=
  match fuel with
  | O => Err OutOfFuel
  | S fuel' =>
      if block_size =? alignment then Ok computed else
      c0 ← first_group computed;
      if alignment =? 0 then Err ZeroDivisionError else
      if (zlen c0 * block_size) mod alignment =? 0 then Ok computed else
      computed' ← pop_all computed;
      align_loop fuel' block_size alignment computed'
  end.
Definition trim_aligned (block_size alignment : Z) (computed : list (list blkref))
  : result (list (list blkref)) :=
  align_loop (S (length (default [] (head computed)))) block_size alignment computed.

(** The scan of full and chunked attention: extend the hit until the first miss. *)
Fixpoint prefix_scan (p : BlockPool) (hl : hash_list) (gids : list Z) (idxs : list Z)
    (computed : list (list blkref)) : result (list (list blkref)) :=
  match idxs with
  | [] => Ok computed
  | i :: idxs' =>
      o ← lookup_block p hl gids i;
      match o with
      | Some cached => prefix_scan p hl gids idxs' (append_all computed cached)
      | None => Ok computed
      end
  end.

(** [if use_eagle and computed_blocks[0]]: drop the last matched block. *)
Definition eagle_drop (use_eagle : bool) (computed : list (list blkref)) : result (list (list blkref)) :=
  if use_eagle then
    c0 ← first_group computed;
    if 0 <? zlen c0 then pop_all computed else Ok computed
  else Ok computed.

(** [isinstance(kv_cache_spec, FullAttentionSpec | ChunkedLocalAttentionSpec)]. *)
Definition is_full_or_chunked (s : layer_spec) : bool :=
  match s with
  | FullAttentionSpec _ _ _ | MLAAttentionSpec _ _ _ _ | SinkFullAttentionSpec _ _ _ _
  | ChunkedLocalAttentionSpec _ _ _ => true
  | _ => false
  end.

(** [FullAttentionManager.find_longest_cache_hit]. *)
Definition full_find (hl : hash_list) (max_length : Z) (gids : list Z) (p : BlockPool) (s : layer_spec)
    (use_eagle : bool) (alignment dcp pcp : Z) : result (list (list blkref)) :=
  _ ← py_assert (is_full_or_chunked s);
  let block_size := if 1 <? dcp * pcp then spec_block_size s * (dcp * pcp) else spec_block_size s in
  let max_num_blocks := max_length / block_size in
  if max_num_blocks <? 0 then Err ValueError else
  c1 ← prefix_scan p hl gids (py_range 0 (Z.min max_num_blocks (hl_len hl))) (replicate (length gids) []);
  c2 ← eagle_drop use_eagle c1;
  trim_aligned block_size alignment c2.

(** The right-to-left scan of [SlidingWindowManager]; the answer says whether a
    window of [need] contiguous hits was found. *)
Fixpoint window_scan (p : BlockPool) (hl : hash_list) (gids : list Z) (block_size alignment need : Z)
    (n : nat) (num_contiguous : Z) (computed : list (list blkref)) : result (bool * Z * list (list blkref)) :=
  match n with
  | O => Ok (false, num_contiguous, computed)
  | S i =>
      o ← lookup_block p hl gids (Z.of_nat i);
      match o with
      | None => window_scan p hl gids block_size alignment need i 0 computed
      | Some cached =>
          if (num_contiguous =? 0) && negb (block_size =? alignment) && (alignment =? 0)
          then Err ZeroDivisionError
          else if (num_contiguous =? 0) && negb (block_size =? alignment)
             && negb ((Z.of_nat i + 1) * block_size mod alignment =? 0)
          then window_scan p hl gids block_size alignment need i num_contiguous computed
          else
            let computed' := zip_with (fun c b => <[i := b]> c) computed cached in
            let nc := num_contiguous + 1 in
            if need <=? nc then Ok (true, nc, take (i + Z.to_nat nc) <$> computed')
            else window_scan p hl gids block_size alignment need i nc computed'
      end
  end.

(** [SlidingWindowManager.find_longest_cache_hit]. *)
Definition sliding_find (hl : hash_list) (max_length : Z) (gids : list Z) (p : BlockPool) (s : layer_spec)
    (use_eagle : bool) (alignment dcp pcp : Z) : result (list (list blkref)) :=
  match s with
  | SlidingWindowSpec block_size _ window =>
      _ ← py_assert (dcp =? 1);
      _ ← py_assert (pcp =? 1);
      let need := cdiv (window - 1) block_size + (if use_eagle then 1 else 0) in
      let max_num_blocks := max_length / block_size in
      let init := replicate (length gids) (replicate (Z.to_nat max_num_blocks) (null_block p)) in
      '(found, nc, computed) ← window_scan p hl gids block_size alignment need (Z.to_nat max_num_blocks) 0 init;
      c1 ← (if found : bool then Ok computed
            else trim_aligned block_size alignment (take (Z.to_nat nc) <$> computed));
      if use_eagle then
        c0 ← first_group c1;
        if 0 <? zlen c0 then _ ← py_assert (block_size =? alignment); pop_all c1 else Ok c1
      else Ok c1
  | _ => Err AssertionError
  end.

(** [ChunkedLocalAttentionManager.find_longest_cache_hit]. *)
Definition chunked_find (hl : hash_list) (max_length : Z) (gids : list Z) (p : BlockPool) (s : layer_spec)
    (use_eagle : bool) (alignment dcp pcp : Z) : result (list (list blkref)) :=
  match s with
  | ChunkedLocalAttentionSpec block_size _ chunk =>
      _ ← py_assert (negb use_eagle);
      _ ← py_assert (dcp =? 1);
      _ ← py_assert (pcp =? 1);
      _ ← py_assert (block_size =? alignment);
      let max_num_blocks := max_length / block_size in
      let start_idx := if 0 <? max_length then max_length / chunk * chunk else 0 in
      let start_block := start_idx / block_size in
      prefix_scan p hl gids (py_range start_block max_num_blocks)
        (replicate (length gids) (replicate (Z.to_nat start_block) (null_block p)))
  | _ => Err AssertionError
  end.

(** [MambaManager.find_longest_cache_hit]: the last hit, from right to left. *)
Fixpoint mamba_scan (p : BlockPool) (hl : hash_list) (gids : list Z) (block_size alignment : Z) (n : nat)
  : result (list (list blkref)) :=
  match n with
  | O => Ok (replicate (length gids) [])
  | S i =>
      o ← lookup_block p hl gids (Z.of_nat i);
      match o with
      | None => mamba_scan p hl gids block_size alignment i
      | Some cached =>
          if negb (block_size =? alignment) && (alignment =? 0) then Err ZeroDivisionError else
          if negb (block_size =? alignment) && negb ((Z.of_nat i + 1) * block_size mod alignment =? 0)
          then mamba_scan p hl gids block_size alignment i
          else Ok (map (fun b => replicate i (null_block p) ++ [b]) cached)
      end
  end.
Definition mamba_find (hl : hash_list) (max_length : Z) (gids : list Z) (p : BlockPool) (s : layer_spec)
    (use_eagle : bool) (alignment dcp pcp : Z) : result (list (list blkref)) :=
  match s with
  | MambaSpec block_size _ _ _ _ _ _ =>
      _ ← py_assert (dcp =? 1);
      _ ← py_assert (pcp =? 1);
      mamba_scan p hl gids block_size alignment (Z.to_nat (max_length / block_size))
  | _ => Err AssertionError
  end.

(** [manager_cls.find_longest_cache_hit]. *)
Definition find_longest_cache_hit (cls : manager_class) (hl : hash_list) (max_length : Z) (gids : list Z)
    (p : BlockPool) (s : layer_spec) (use_eagle : bool) (alignment dcp pcp : Z) : result (list (list blkref)) :=
  match cls with
  | FullAttentionManager | SinkFullAttentionManager =>
      full_find hl max_length gids p s use_eagle alignment dcp pcp
  | SlidingWindowManager => sliding_find hl max_length gids p s use_eagle alignment dcp pcp
  | ChunkedLocalAttentionManager => chunked_find hl max_length gids p s use_eagle alignment dcp pcp
  | MambaManager => mamba_find hl max_length gids p s use_eagle alignment dcp pcp
  | CrossAttentionManager =>
      match s with CrossAttentionSpec _ _ => Err NotImplementedError | _ => Err AssertionError end
  end.

(** ** Lookups *)

Definition hl_ok (hl : hash_list) : Prop :=
  match hl with Plain _ => True | Scaled b => 0 < scale_factor b end.

(** The hash at an index, when it exists. *)
Definition hash_at (hl : hash_list) (i : nat) : option bytes :=
  match hl_index hl (Z.of_nat i) with Ok h => Some h | Err _ => None end.

Lemma hl_index_total hl i :
  hl_ok hl -> Z.of_nat i < hl_len hl -> exists h, hl_index hl (Z.of_nat i) = Ok h.
Proof.
  intros Hok Hi. destruct hl as [hs|b]; cbn in *.
  - rewrite py_index_nonneg, Nat2Z.id by lia. unfold zlen in Hi.
    destruct (lookup_lt_is_Some_2 hs i) as [h ->]; [lia|]. by exists h.
  - eexists. apply bhl_get_value_spec; [done|lia].
Qed.

(** Columns: one list of blocks per group, from the hits of consecutive blocks. *)
Definition cols (n : nat) (css : list (list blkref)) : list (list blkref) :=
  (fun g => omap (fun cs => cs !! g) css) <$> seq 0 n.

Section Columns.
Context (n : nat).
Implicit Types (css : list (list blkref)).

Lemma cols_col css g :
  Forall (fun cs => length cs = n) css -> (g < n)%nat ->
  cols n css !! g = Some (omap (fun cs => cs !! g) css) /\
  forall j, omap (fun cs => cs !! g) css !! j = css !! j ≫= (fun cs => cs !! g).
Proof.
  intros Hall Hg. split.
  { unfold cols. rewrite list_lookup_fmap, lookup_seq_lt by done. done. }
  induction css as [|cs css IH]; intros j; [done|]. apply Forall_cons in Hall as [Hcs Hall].
  cbn. destruct (lookup_lt_is_Some_2 cs g) as [b Hb]; [lia|]. rewrite Hb.
  destruct j as [|j]; cbn; [by rewrite Hb|]. by apply IH.
Qed.

Lemma cols_len css g c :
  Forall (fun cs => length cs = n) css -> cols n css !! g = Some c -> length c = length css.
Proof.
  intros Hall Hc. unfold cols in Hc. apply list_lookup_fmap_Some in Hc as (g' & -> & Hg).
  apply lookup_seq in Hg as [-> Hg]. induction css as [|cs css IH]; [done|].
  apply Forall_cons in Hall as [Hcs Hall]. cbn. destruct (lookup_lt_is_Some_2 cs (0 + g)) as [b Hb]; [lia|].
  cbn in Hb. rewrite Hb. cbn. f_equal. by apply IH.
Qed.

Lemma cols_app css cs : length cs = n -> append_all (cols n css) cs = cols n (css ++ [cs]).
Proof.
  intros Hcs. apply list_eq. intros g. unfold append_all, cols.
  rewrite lookup_zip_with, !list_lookup_fmap. destruct (decide (g < n)%nat) as [Hg|Hg].
  - rewrite lookup_seq_lt by done. cbn. rewrite omap_app. cbn.
    destruct (lookup_lt_is_Some_2 cs g) as [b Hb]; [lia|]. by rewrite Hb.
  - rewrite lookup_seq_ge by lia. done.
Qed.

Lemma removelast_take {A} (x : list A) : removelast x = take (length x - 1) x.
Proof.
  destruct x as [|y x _] using rev_ind; [done|]. rewrite removelast_last, length_app. cbn.
  replace (length x + 1 - 1)%nat with (length x) by lia. by rewrite take_app_length.
Qed.

Lemma cols_take css k :
  Forall (fun cs => length cs = n) css -> (fun c => take k c) <$> cols n css = cols n (take k css).
Proof.
  intros Hall. unfold cols. rewrite <- list_fmap_compose. apply list_fmap_ext. intros i g Hg.
  apply lookup_seq in Hg as [-> Hg]. cbn. revert k. induction css as [|cs css IH]; intros k; [by destruct k|].
  apply Forall_cons in Hall as [Hcs Hall]. cbn.
  destruct (lookup_lt_is_Some_2 cs i) as [b Hb]; [lia|]. rewrite Hb.
  destruct k as [|k]; [done|]. cbn. rewrite Hb. f_equal. by apply IH.
Qed.

Lemma cols_pop css :
  Forall (fun cs => length cs = n) css -> css <> [] ->
  pop_all (cols n css) = Ok (cols n (take (length css - 1) css)).
Proof.
  intros Hall Hne. unfold pop_all.
  rewrite (proj2 (forallb_forall _ _)).
  - rewrite <- cols_take by done. f_equal. apply list_fmap_ext. intros g c Hc.
    rewrite removelast_take. by rewrite (cols_len css g c Hall Hc).
  - intros c Hin%list_elem_of_In. apply list_elem_of_lookup in Hin as [g Hc]. unfold zlen.
    rewrite (cols_len css g c Hall Hc). apply Z.ltb_lt. destruct css; [done|cbn; lia].
Qed.

Lemma cols_first css :
  Forall (fun cs => length cs = n) css -> (0 < n)%nat ->
  exists c, first_group (cols n css) = Ok c /\ length c = length css.
Proof.
  intros Hall Hn. unfold first_group. destruct (cols_col css 0 Hall Hn) as [Hc _].
  destruct (cols n css) as [|c cs] eqn:E; [done|]. injection Hc as ->. eexists. split; [done|].
  apply (cols_len css 0 _ Hall). by rewrite E.
Qed.

(** A hit of [j] blocks is aligned. *)
Definition aligned (bs al : Z) (j : nat) : Prop := bs = al \/ (Z.of_nat j * bs) mod al = 0.

Lemma align_loop_spec fuel bs al css :
  Forall (fun cs => length cs = n) css -> (0 < n)%nat -> al <> 0 -> (length css < fuel)%nat ->
  exists k, (k <= length css)%nat /\ align_loop fuel bs al (cols n css) = Ok (cols n (take k css)) /\
    aligned bs al k /\ forall j, (k < j <= length css)%nat -> ~ aligned bs al j.
Proof.
  intros Hall Hn Hal. revert css Hall. induction fuel as [|fuel IH]; intros css Hall Hf; [lia|]. cbn [align_loop].
  destruct (Z.eqb_spec bs al) as [E|E].
  { exists (length css). rewrite firstn_all. split_and!; [done|done|by left|lia]. }
  destruct (cols_first css Hall Hn) as (c & -> & Hc). cbn [mbind result_bind].
  rewrite (proj2 (Z.eqb_neq al 0)) by done. unfold zlen. rewrite Hc.
  destruct (Z.eqb_spec ((Z.of_nat (length css) * bs) mod al) 0) as [Ea|Ea].
  { exists (length css). rewrite firstn_all. split_and!; [done|done|by right|lia]. }
  assert (Hne : css <> []) by (intros ->; cbn in Ea; by rewrite Z.mod_0_l in Ea).
  rewrite cols_pop by done. cbn [mbind result_bind].
  assert (Hl : length (take (length css - 1) css) = (length css - 1)%nat) by (rewrite length_take; lia).
  assert (length css <> 0%nat) by (destruct css; [done|cbn; lia]).
  destruct (IH (take (length css - 1) css)) as (k & Hk & He & Hka & Hmax); [by apply Forall_take|lia|].
  exists k. rewrite He, take_take. split_and!; [lia| |done|].
  - by replace (k `min` (length css - 1))%nat with k by lia.
  - intros j Hj. destruct (decide (j = length css)) as [->|]; [intros [?|?]; done|]. apply Hmax. lia.
Qed.

Lemma trim_aligned_spec bs al css :
  Forall (fun cs => length cs = n) css -> (0 < n)%nat -> al <> 0 ->
  exists k, (k <= length css)%nat /\ trim_aligned bs al (cols n css) = Ok (cols n (take k css)) /\
    aligned bs al k /\ forall j, (k < j <= length css)%nat -> ~ aligned bs al j.
Proof.
  intros Hall Hn Hal. unfold trim_aligned. apply align_loop_spec; [done..|].
  destruct (cols_col css 0 Hall Hn) as [Hc _]. destruct (cols n css) as [|c cs] eqn:E; [done|].
  cbn. rewrite (cols_len css 0 c Hall) by (by rewrite E). lia.
Qed.
End Columns.

Section Find.
Context (p : BlockPool) (l : list blkref) (hl : hash_list) (gids : list Z).
Hypothesis Hwf : pool_wf p l.
Hypothesis Hgids : Forall (fun g => 0 <= g < 2 ^ 32) gids.
Hypothesis Hgne : gids <> [].
Hypothesis Hhl : hl_ok hl.

(** [cs] answers a lookup of block [i]: for each group a real block that carries
    the block's hash and the group id. *)
Definition hit_by (i : nat) (cs : list blkref) : Prop :=
  exists h, hash_at hl i = Some h /\
    Forall2 (fun g b => valid_block p b /\
      exists k, make_block_hash_with_group_id h g = Ok k /\ block_hash (pheap p b) = Some k) gids cs.

(** For some group no block carries the hash of block [i]. *)
Definition missed (i : nat) : Prop :=
  exists h g k, hash_at hl i = Some h /\ g ∈ gids /\ make_block_hash_with_group_id h g = Ok k /\
    forall b, valid_block p b -> block_hash (pheap p b) <> Some k.

Lemma lookup_block_spec i :
  Z.of_nat i < hl_len hl ->
  (exists cs, lookup_block p hl gids (Z.of_nat i) = Ok (Some cs) /\ hit_by i cs /\ length cs = length gids) \/
  (lookup_block p hl gids (Z.of_nat i) = Ok None /\ missed i).
Proof.
  intros Hi. destruct (hl_index_total hl i Hhl Hi) as [h Hh]. unfold lookup_block, hit_by, missed, hash_at.
  rewrite Hh. cbn [mbind result_bind]. unfold get_cached_block.
  destruct (get_cached_loop_spec p l h gids [] Hwf Hgids) as (o & -> & Hs). cbn [mbind result_bind].
  destruct o as [bs|].
  - left. destruct Hs as (bs' & -> & Hf). cbn [app]. pose proof (Forall2_length _ _ _ Hf) as Hlen.
    destruct bs' as [|b bs']; [by destruct gids|]. exists (b :: bs'). split; [done|]. split; [|done]. by exists h.
  - right. split; [done|]. destruct Hs as (g & k & ? & ? & ?). by exists h, g, k.
Qed.

Lemma hit_missed i cs : hit_by i cs -> missed i -> False.
Proof.
  intros (h & Hh & Hf) (h' & g & k & Hh' & Hg & Hk & Hno). rewrite Hh in Hh'. injection Hh' as <-.
  apply list_elem_of_lookup in Hg as [j Hj].
  destruct (Forall2_lookup_l _ _ _ _ _ Hf Hj) as (b & _ & Hv & k' & Hk' & Hb).
  rewrite Hk in Hk'. injection Hk' as <-. by apply (Hno b).
Qed.

(** Consecutive hits from block [lo]. *)
Definition hits_from (lo : nat) (css : list (list blkref)) : Prop :=
  forall j cs, css !! j = Some cs -> hit_by (lo + j) cs /\ length cs = length gids.

Lemma hits_forall lo css : hits_from lo css -> Forall (fun cs => length cs = length gids) css.
Proof. intros H. apply Forall_lookup. intros j cs Hj. by apply (H j). Qed.

Lemma prefix_scan_spec n lo computed :
  Z.of_nat (lo + n) <= hl_len hl ->
  exists css, hits_from lo css /\ (length css <= n)%nat /\
    prefix_scan p hl gids (seqZ (Z.of_nat lo) (Z.of_nat n)) computed = Ok (foldl append_all computed css) /\
    (length css = n \/ missed (lo + length css)).
Proof.
  revert lo computed. induction n as [|n IH]; intros lo computed Hlen.
  { exists []. split_and!; [by intros j cs Hj|done|done|by left]. }
  rewrite seqZ_cons by lia. cbn [prefix_scan].
  destruct (lookup_block_spec lo) as [(cs & -> & Hhit & Hcs)|[-> Hmiss]]; [lia| |].
  - cbn [mbind result_bind]. replace (Z.succ (Z.of_nat lo)) with (Z.of_nat (S lo)) by lia.
    replace (Z.pred (Z.of_nat (S n))) with (Z.of_nat n) by lia.
    destruct (IH (S lo) (append_all computed cs)) as (css & Hh & Hn & He & Hend); [lia|].
    exists (cs :: css). split_and!; [|cbn; lia|done|].
    + intros [|j] cs' Hj; cbn in Hj.
      * injection Hj as <-. rewrite Nat.add_0_r. done.
      * replace (lo + S j)%nat with (S lo + j)%nat by lia. by apply Hh.
    + cbn. destruct Hend as [->|Hm]; [by left|right]. by replace (lo + S (length css))%nat with (S lo + length css)%nat by lia.
  - exists []. cbn. split_and!; [by intros j cs Hj|lia|done|right; by rewrite Nat.add_0_r].
Qed.

Lemma foldl_append_cols css0 css :
  Forall (fun cs => length cs = length gids) css ->
  foldl append_all (cols (length gids) css0) css = cols (length gids) (css0 ++ css).
Proof.
  revert css0. induction css as [|cs css IH]; intros css0 Hall; cbn; [by rewrite app_nil_r|].
  apply Forall_cons in Hall as [Hcs Hall]. rewrite cols_app, IH, <- app_assoc by done. done.
Qed.

Lemma cols_nil n : replicate n [] = cols n [].
Proof.
  unfold cols. apply list_eq. intros i. rewrite list_lookup_fmap. destruct (decide (i < n)%nat).
  - rewrite lookup_replicate_2, lookup_seq_lt by done. done.
  - rewrite lookup_seq_ge by lia. apply lookup_ge_None_2. rewrite length_replicate. lia.
Qed.

Lemma eagle_drop_spec use_eagle css :
  Forall (fun cs => length cs = length gids) css ->
  eagle_drop use_eagle (cols (length gids) css)
  = Ok (cols (length gids) (take (if use_eagle then length css - 1 else length css) css)).
Proof.
  intros Hall. unfold eagle_drop. destruct use_eagle; [|by rewrite firstn_all].
  assert (Hn : (0 < length gids)%nat) by (destruct gids; [done|cbn; lia]).
  destruct (cols_first _ css Hall Hn) as (c & -> & Hc). cbn [mbind result_bind]. unfold zlen. rewrite Hc.
  destruct css as [|cs css]; [done|]. rewrite (proj2 (Z.ltb_lt _ _)) by (cbn; lia).
  by apply cols_pop.
Qed.
End Find.

(** ** Full attention *)

(** The block size a manager works with under context parallelism. *)
Definition cp_block_size (s : layer_spec) (dcp pcp : Z) : Z :=
  if 1 <? dcp * pcp then spec_block_size s * (dcp * pcp) else spec_block_size s.

Lemma full_find_spec p l hl gids s (use_eagle : bool) alignment dcp pcp max_length :
  pool_wf p l -> Forall (fun g => 0 <= g < 2 ^ 32) gids -> gids <> [] -> hl_ok hl ->
  is_Some (as_full s) -> 0 < cp_block_size s dcp pcp -> alignment <> 0 -> 0 <= max_length ->
  max_length / cp_block_size s dcp pcp <= hl_len hl ->
  exists css n, hits_from p hl gids 0 css /\
    Z.of_nat (length css) <= max_length / cp_block_size s dcp pcp /\
    (Z.of_nat (length css) = max_length / cp_block_size s dcp pcp \/ missed p hl gids (length css)) /\
    (n <= length css - (if use_eagle then 1 else 0))%nat /\ aligned (cp_block_size s dcp pcp) alignment n /\
    (forall j, (n < j <= length css - (if use_eagle then 1 else 0))%nat ->
       ~ aligned (cp_block_size s dcp pcp) alignment j) /\
    full_find hl max_length gids p s use_eagle alignment dcp pcp = Ok (cols (length gids) (take n css)).
Proof.
  intros Hwf Hg Hgne Hhl [x Hs] Hbs Hal Hmax Hlen. unfold full_find.
  assert (is_full_or_chunked s = true) as -> by (by destruct s).
  cbn [py_assert mbind result_bind]. fold (cp_block_size s dcp pcp). set (bs := cp_block_size s dcp pcp) in *.
  assert (Hq : 0 <= max_length / bs) by (apply Z.div_pos; lia).
  rewrite (proj2 (Z.ltb_ge _ _)), Z.min_l by lia. unfold py_range. rewrite Z.sub_0_r.
  destruct (prefix_scan_spec p l hl gids Hwf Hg Hgne Hhl (Z.to_nat (max_length / bs)) 0
              (replicate (length gids) [])) as (css & Hh & Hn & He & Hend); [lia|].
  rewrite Z2Nat.id in He by lia. change (Z.of_nat 0) with 0 in He. rewrite He. cbn [mbind result_bind].
  pose proof (hits_forall p hl gids 0 css Hh) as Hall.
  rewrite cols_nil, foldl_append_cols, eagle_drop_spec by done. cbn [app mbind result_bind].
  assert (Hn0 : (0 < length gids)%nat) by (destruct gids; [done|cbn; lia]).
  set (css1 := take (if use_eagle then length css - 1 else length css) css).
  assert (Hl1 : length css1 = (length css - (if use_eagle then 1 else 0))%nat).
  { subst css1. rewrite length_take. destruct use_eagle; lia. }
  destruct (trim_aligned_spec (length gids) bs alignment css1) as (k & Hk & -> & Hka & Hmaxk);
    [by apply Forall_take|done|done|].
  exists css, k. rewrite Hl1 in *. split_and!; try done; try lia.
  - destruct Hend as [->|Hm]; [left; lia|right; done].
  - subst css1. rewrite take_take. do 3 f_equal. destruct use_eagle; lia.
Qed.

(** C28: [FullAttentionManager.find_longest_cache_hit] returns the longest hit: with
    [k] the length of the longest prefix of blocks (up to [max_length]) that all hit, it
    returns for every group the first [n] cached blocks, where [n] is the largest aligned
    number of blocks not above [k] (or [k - 1], when EAGLE drops the last hit), and each
    returned block carries the hash of its position and the id of its group. *)
Theorem full_attention_longest_hit p l hl gids s (use_eagle : bool) alignment dcp pcp max_length :
  pool_wf p l -> Forall (fun g => 0 <= g < 2 ^ 32) gids -> gids <> [] -> hl_ok hl ->
  is_Some (as_full s) -> 0 < cp_block_size s dcp pcp -> alignment <> 0 -> 0 <= max_length ->
  max_length / cp_block_size s dcp pcp <= hl_len hl ->
  exists k n res,
    full_find hl max_length gids p s use_eagle alignment dcp pcp = Ok res /\
    (forall i, (i < k)%nat -> exists cs, hit_by p hl gids i cs) /\
    Z.of_nat k <= max_length / cp_block_size s dcp pcp /\
    (Z.of_nat k = max_length / cp_block_size s dcp pcp \/ missed p hl gids k) /\
    (n <= k - (if use_eagle then 1 else 0))%nat /\ aligned (cp_block_size s dcp pcp) alignment n /\
    (forall j, (n < j <= k - (if use_eagle then 1 else 0))%nat ->
       ~ aligned (cp_block_size s dcp pcp) alignment j) /\
    length res = length gids /\
    (forall g c, res !! g = Some c -> length c = n /\
       forall j b, c !! j = Some b -> exists cs, hit_by p hl gids j cs /\ cs !! g = Some b).
Proof.
  intros Hwf Hg Hgne Hhl Hs Hbs Hal Hmax Hlen.
  destruct (full_find_spec p l hl gids s use_eagle alignment dcp pcp max_length Hwf Hg Hgne Hhl Hs Hbs Hal Hmax Hlen)
    as (css & n & Hh & Hk & Hend & Hn & Hna & Hmaxn & He).
  exists (length css), n, (cols (length gids) (take n css)). split_and!; try done.
  - intros i [cs Hcs]%lookup_lt_is_Some. exists cs. by apply (Hh i).
  - unfold cols. by rewrite length_fmap, length_seq.
  - intros g c Hc. pose proof (hits_forall p hl gids 0 css Hh) as Hall.
    assert (Hallt : Forall (fun cs => length cs = length gids) (take n css)) by (by apply Forall_take).
    split; [rewrite (cols_len _ _ _ _ Hallt Hc), length_take; lia|].
    assert (Hg' : (g < length gids)%nat).
    { apply lookup_lt_Some in Hc. unfold cols in Hc. by rewrite length_fmap, length_seq in Hc. }
    destruct (cols_col _ _ g Hallt Hg') as [Hc' Hj]. rewrite Hc in Hc'. injection Hc' as ->.
    intros j b Hb. rewrite Hj in Hb. apply bind_Some in Hb as (cs & Hcs & Hb).
    apply lookup_take_Some in Hcs as [Hcs _]. exists cs. split; [|done]. by apply (Hh j).
Qed.

(** Blocks 1 and 2 hold the two full blocks of [demo_request]. *)
Definition demo_cached : BlockPool :=
  exec_or (OpCache demo_request (RBlk <$> [1; 2; 3]%nat) 0 2 2 0) (exec_or (OpAlloc 3) demo_pool).
Definition demo_attn : attn := mkAttn 1 1 (mkDtype "float16" 2) None.
Definition demo_full : layer_spec := FullAttentionSpec 2 demo_attn (mkFull 1 None None).

Lemma demo_cached_wf : pool_wf demo_cached [RBlk 4].
Proof.
  destruct (cache_full_blocks_spec false _ _ _ _ _ _ _ _ demo_alloc_wf demo_cacheable)
    as (r' & p' & He & Hwf & _).
  unfold demo_cached. unfold exec_or at 1. cbn [pool_exec]. rewrite He. exact Hwf.
Qed.

Lemma full_attention_longest_hit_witness :
  full_find (Plain (Request.block_hashes demo_request)) 5 [0] demo_cached demo_full false 2 1 1
    = Ok [[RBlk 1; RBlk 2]] /\
  exists k n res, full_find (Plain (Request.block_hashes demo_request)) 5 [0] demo_cached demo_full false 2 1 1
    = Ok res /\ (n <= k)%nat.
Proof.
  split; [by vm_compute|].
  destruct (full_attention_longest_hit demo_cached _ (Plain (Request.block_hashes demo_request)) [0] demo_full
              false 2 1 1 5 demo_cached_wf) as (k & n & res & He & _ & _ & _ & Hn & _);
    [by_eval|done|done|by eexists|by vm_compute|done|done|by vm_compute|].
  exists k, n, res. split; [exact He|lia].
Defined.

(** ** Sliding windows *)

Section Window.
Context (p : BlockPool) (l : list blkref) (hl : hash_list) (gids : list Z) (bs al : Z) (need M : nat).
Hypothesis Hwf : pool_wf p l.
Hypothesis Hgids : Forall (fun g => 0 <= g < 2 ^ 32) gids.
Hypothesis Hgne : gids <> [].
Hypothesis Hhl : hl_ok hl.
Hypothesis Hal : al <> 0.
Hypothesis Hneed : (0 < need)%nat.
Hypothesis HM : Z.of_nat M <= hl_len hl.

(** A prefix of [L] blocks can be reused by a windowed layer: the length is aligned
    and the last [need] blocks (all of them, when there are fewer) hit. *)
Definition window_hit (L : nat) : Prop :=
  aligned bs al L /\ forall j, (L - need <= j < L)%nat -> exists cs, hit_by p hl gids j cs.

(** The lists of the scan when the blocks from [n] on are done: [nc] hits at [n]. *)
Definition scan_lists (n : nat) (css computed : list (list blkref)) : Prop :=
  length computed = length gids /\
  forall g c, computed !! g = Some c -> length c = M /\
    (forall j, (j < n)%nat -> c !! j = Some (null_block p)) /\
    (forall j cs, css !! j = Some cs -> c !! (n + j)%nat = cs !! g).

Definition scan_inv (n : nat) (css computed : list (list blkref)) : Prop :=
  (n + length css <= M)%nat /\ (length css < need)%nat /\ hits_from p hl gids n css /\
  (css <> [] -> aligned bs al (n + length css)) /\
  (forall L, (n + length css < L <= M)%nat -> ~ window_hit L) /\
  scan_lists n css computed.

(** What the scan returns: the largest length that hits, nulls before the window. *)
Definition scan_result (L : nat) (computed : list (list blkref)) : Prop :=
  (L <= M)%nat /\ window_hit L /\ (forall L', (L < L' <= M)%nat -> ~ window_hit L') /\
  length computed = length gids /\
  forall g c, computed !! g = Some c -> length c = L /\
    (forall j, (j < L - need)%nat -> c !! j = Some (null_block p)) /\
    (forall j b, (L - need <= j)%nat -> c !! j = Some b -> exists cs, hit_by p hl gids j cs /\ cs !! g = Some b).

Lemma scan_lists_insert i css computed cs :
  (i < M)%nat -> length cs = length gids -> scan_lists (S i) css computed ->
  scan_lists i (cs :: css) (zip_with (fun c b => <[i := b]> c) computed cs).
Proof.
  intros Hi Hcs [Hl Hc]. split; [rewrite length_zip_with; lia|].
  intros g c Hg. apply lookup_zip_with_Some in Hg as (c0 & b & -> & Hc0 & Hb).
  destruct (Hc g c0 Hc0) as (Hlen & Hnull & Hhit). split_and!.
  - by rewrite length_insert.
  - intros j Hj. rewrite list_lookup_insert_ne by lia. apply Hnull. lia.
  - intros [|j] cs' Hj; cbn in Hj.
    + injection Hj as <-. rewrite Nat.add_0_r, list_lookup_insert_eq by lia. done.
    + rewrite list_lookup_insert_ne by lia. replace (i + S j)%nat with (S i + j)%nat by lia. by apply Hhit.
Qed.

(** A hit at [i] extends the run: the invariant, or the result when it is long enough. *)
Lemma scan_step_hit i css computed cs :
  scan_inv (S i) css computed -> hit_by p hl gids i cs -> length cs = length gids ->
  (css = [] -> aligned bs al (S i)) ->
  let computed' := zip_with (fun c b => <[i := b]> c) computed cs in
  if (need <=? S (length css))%nat
  then scan_result (i + S (length css)) (take (i + S (length css)) <$> computed')
  else scan_inv i (cs :: css) computed'.
Proof.
  intros (Hle & Hlt & Hh & Hali & Hmax & Hls) Hhit Hcs Hstart computed'.
  assert (Hal' : aligned bs al (S i + length css)).
  { destruct css as [|c0 css0]; [cbn; rewrite Nat.add_0_r; by apply Hstart|by apply Hali]. }
  pose proof (scan_lists_insert i css computed cs ltac:(lia) Hcs Hls) as Hls'.
  assert (Hhits : hits_from p hl gids i (cs :: css)).
  { intros [|j] cs' Hj; cbn in Hj; [injection Hj as <-; by rewrite Nat.add_0_r|].
    replace (i + S j)%nat with (S i + j)%nat by lia. by apply Hh. }
  replace (i + S (length css))%nat with (S i + length css)%nat by lia.
  destruct (Nat.leb_spec need (S (length css))) as [Hn|Hn].
  - assert (Hneed' : (S i + length css - need = i)%nat) by lia.
    split; [lia|]. split; [split; [done|]|]; [|split; [done|]].
    { rewrite Hneed'. intros j Hj. destruct (lookup_lt_is_Some_2 (cs :: css) (j - i)) as [cs' Hcs']; [cbn; lia|].
      exists cs'. replace j with (i + (j - i))%nat by lia. by apply (Hhits (j - i)%nat). }
    destruct Hls' as [Hl' Hc']. split; [by rewrite length_fmap|].
    intros g c Hg. apply list_lookup_fmap_Some in Hg as (c0 & -> & Hc0).
    destruct (Hc' g c0 Hc0) as (Hlen & Hnull & Hhitc). split_and!.
    + rewrite length_take. lia.
    + rewrite Hneed'. intros j Hj. rewrite lookup_take_lt by lia. by apply Hnull.
    + rewrite Hneed'. intros j b Hj Hb. apply lookup_take_Some in Hb as [Hb Hjl].
      destruct (lookup_lt_is_Some_2 (cs :: css) (j - i)) as [cs' Hcs']; [cbn; lia|].
      exists cs'. rewrite <- (Hhitc _ _ Hcs'). replace (i + (j - i))%nat with j by lia. split; [|done].
      replace j with (i + (j - i))%nat by lia. by apply (Hhits (j - i)%nat).
  - split_and!; cbn [length]; try done; try lia.
    + intros _. by replace (i + S (length css))%nat with (S i + length css)%nat by lia.
    + intros L HL. apply Hmax. lia.
Qed.

(** A block that cannot end a hit restarts the run. *)
Lemma scan_step_reset i css computed :
  scan_inv (S i) css computed ->
  missed p hl gids i \/ (css = [] /\ ~ aligned bs al (S i)) -> scan_inv i [] computed.
Proof.
  intros (Hle & Hlt & Hh & Hali & Hmax & Hls) Hwhy. split_and!; cbn; try done; try lia.
  - intros L HL Hw. destruct (decide (S i + length css < L)%nat) as [Hg|Hg]; [by apply (Hmax L); [lia|]|].
    destruct Hw as [HLa Hwin]. destruct Hwhy as [Hm|[-> Hna]].
    + destruct (Hwin i) as [cs Hcs]; [lia|]. by eapply hit_missed.
    + cbn in Hg. apply Hna. by replace (S i) with L by lia.
  - destruct Hls as [Hl Hc]. split; [done|]. intros g c Hg. destruct (Hc g c Hg) as (Hlen & Hnull & _).
    split_and!; [done|intros; apply Hnull; lia|]. intros j cs Hj. by destruct j.
Qed.

Lemma window_scan_spec n css computed :
  scan_inv n css computed ->
  exists found nc computed',
    window_scan p hl gids bs al (Z.of_nat need) n (Z.of_nat (length css)) computed = Ok (found, nc, computed') /\
    if found : bool then exists L, scan_result L computed'
    else exists css', nc = Z.of_nat (length css') /\ scan_inv 0 css' computed'.
Proof.
  revert css computed. induction n as [|i IH]; intros css computed Hinv; cbn [window_scan].
  { exists false, (Z.of_nat (length css)), computed. split; [done|]. by exists css. }
  pose proof Hinv as (Hle & Hlt & _).
  destruct (lookup_block_spec p l hl gids Hwf Hgids Hgne Hhl i) as [(cs & -> & Hhit & Hcs)|[-> Hmiss]]; [lia| |];
    cbn [mbind result_bind].
  2: { apply (IH [] computed). eapply scan_step_reset; [done|by left]. }
  rewrite (proj2 (Z.eqb_neq al 0)), andb_false_r by done.
  set (skip := _ && _ && negb _). destruct skip eqn:Eskip.
  - subst skip. apply andb_prop in Eskip as [[E1 E2]%andb_prop E3].
    apply Z.eqb_eq in E1. apply negb_true_iff in E2, E3. apply Z.eqb_neq in E2, E3.
    assert (css = []) as -> by (destruct css; [done|cbn in E1; lia]).
    apply (IH [] computed). eapply scan_step_reset; [done|]. right. split; [done|].
    intros [?|Hm]; [done|]. apply E3. rewrite <- Hm. f_equal. lia.
  - assert (Hstart : css = [] -> aligned bs al (S i)).
    { intros ->. subst skip. cbn in Eskip. destruct (Z.eqb_spec bs al); [by left|]. cbn in Eskip.
      apply negb_false_iff, Z.eqb_eq in Eskip. right. rewrite <- Eskip. f_equal. lia. }
    pose proof (scan_step_hit i css computed cs Hinv Hhit Hcs Hstart) as Hstep. cbv zeta in Hstep.
    replace (Z.of_nat need <=? Z.of_nat (length css) + 1) with (need <=? S (length css))%nat.
    2: { destruct (Nat.leb_spec need (S (length css))), (Z.leb_spec (Z.of_nat need) (Z.of_nat (length css) + 1)); lia. }
    destruct (need <=? S (length css))%nat.
    + eexists true, _, _. split; [done|]. eexists.
      replace (Z.to_nat (Z.of_nat (length css) + 1)) with (S (length css)) by lia. exact Hstep.
    + replace (Z.of_nat (length css) + 1) with (Z.of_nat (length (cs :: css))) by (cbn; lia). by apply IH.
Qed.

Lemma scan_init : scan_inv M [] (replicate (length gids) (replicate M (null_block p))).
Proof.
  split_and!; cbn; try done; try lia. split; [by rewrite length_replicate|].
  intros g c [-> _]%lookup_replicate. split_and!; [by rewrite length_replicate| |].
  - intros j Hj. by apply lookup_replicate_2.
  - intros j cs Hj. by destruct j.
Qed.

(** Without a full window, the hits from block 0 on are the answer. *)
Lemma scan_not_found css computed :
  scan_inv 0 css computed ->
  exists res, trim_aligned bs al (take (length css) <$> computed) = Ok res /\ scan_result (length css) res.
Proof.
  intros (Hle & Hlt & Hh & Hali & Hmax & Hl & Hc). cbn [Nat.add] in *.
  pose proof (hits_forall p hl gids 0 css Hh) as Hall.
  assert (Hal0 : aligned bs al (length css)).
  { destruct css as [|cs css]; [right; by rewrite Z.mod_0_l|by apply Hali]. }
  assert (Hcols : take (length css) <$> computed = cols (length gids) css).
  { apply list_eq_same_length with (length gids); [by unfold cols; rewrite length_fmap, length_seq|by rewrite length_fmap|].
    intros g c1 c2 Hg H1 H2. apply list_lookup_fmap_Some in H1 as (c & -> & Hcg).
    destruct (cols_col _ css g Hall Hg) as [H2' Hj]. rewrite H2 in H2'. injection H2' as ->.
    destruct (Hc g c Hcg) as (HlenM & _ & Hhit). apply list_eq. intros j. rewrite Hj.
    destruct (css !! j) as [cs|] eqn:Ej; cbn.
    - rewrite lookup_take_lt by (by apply lookup_lt_Some in Ej). by apply Hhit.
    - apply lookup_ge_None in Ej. by rewrite lookup_take_ge. }
  assert (Hn0 : (0 < length gids)%nat) by (destruct gids; [done|cbn; lia]).
  rewrite Hcols. destruct (trim_aligned_spec (length gids) bs al css Hall Hn0 Hal) as (k & Hk & -> & _ & Hkmax).
  assert (k = length css) as ->.
  { destruct (decide (k = length css)); [done|]. exfalso. by apply (Hkmax (length css)); [lia|]. }
  rewrite firstn_all. eexists. split; [done|]. split; [lia|]. split; [split; [done|]|]; [|split; [intros; apply Hmax; lia|]].
  { intros j Hj. destruct (lookup_lt_is_Some_2 css j) as [cs Hcs]; [lia|]. exists cs. by apply (Hh j). }
  split; [by unfold cols; rewrite length_fmap, length_seq|]. intros g c Hg.
  assert (Hg' : (g < length gids)%nat).
  { apply lookup_lt_Some in Hg. unfold cols in Hg. by rewrite length_fmap, length_seq in Hg. }
  split; [by rewrite (cols_len _ _ _ _ Hall Hg)|]. split; [intros; lia|].
  destruct (cols_col _ css g Hall Hg') as [Hg2 Hj]. rewrite Hg in Hg2. injection Hg2 as ->.
  intros j b _ Hb. rewrite Hj in Hb. apply bind_Some in Hb as (cs & Hcs & Hb). exists cs.
  split; [by apply (Hh j)|done].
Qed.

Lemma window_find_total :
  exists L res, (
    '(found, nc, computed) ← window_scan p hl gids bs al (Z.of_nat need) M 0
        (replicate (length gids) (replicate M (null_block p)));
    if found : bool then Ok computed else trim_aligned bs al (take (Z.to_nat nc) <$> computed)) = Ok res /\
    scan_result L res.
Proof.
  destruct (window_scan_spec M [] _ scan_init) as (found & nc & computed & He & Hres).
  change (Z.of_nat (length [])) with 0 in He. rewrite He. cbn [mbind result_bind]. destruct found.
  - destruct Hres as [L HL]. by exists L, computed.
  - destruct Hres as (css & -> & Hinv). rewrite Nat2Z.id.
    destruct (scan_not_found css computed Hinv) as (res & Hr & Hs). by exists (length css), res.
Qed.

Lemma scan_result_pop L res :
  scan_result L res -> (0 < L)%nat -> pop_all res = Ok ((fun c => take (L - 1) c) <$> res).
Proof.
  intros (_ & _ & _ & Hl & Hc) HL. unfold pop_all. rewrite (proj2 (forallb_forall _ _)).
  - f_equal. apply list_fmap_ext. intros g c Hg. rewrite removelast_take. by destruct (Hc g c Hg) as (-> & _).
  - intros c Hin%list_elem_of_In. apply list_elem_of_lookup in Hin as [g Hg].
    destruct (Hc g c Hg) as (Hlen & _). unfold zlen. rewrite Hlen. apply Z.ltb_lt. lia.
Qed.
End Window.

(** C29: [SlidingWindowManager.find_longest_cache_hit] returns the longest reusable
    prefix: the largest aligned number of blocks [L] within [max_length] whose last
    [ceil((window - 1) / block_size)] blocks (one more with EAGLE, which then drops the
    last block of the answer) all hit, or all of whose blocks hit when it is shorter than
    that window. Positions before the window hold the null block, the others the cached
    blocks of their hash and group. *)
Theorem sliding_window_longest_hit p l hl gids bs a window (use_eagle : bool) alignment max_length :
  pool_wf p l -> Forall (fun g => 0 <= g < 2 ^ 32) gids -> gids <> [] -> hl_ok hl ->
  0 < bs -> 1 < window -> alignment <> 0 -> 0 <= max_length -> max_length / bs <= hl_len hl ->
  (use_eagle = true -> bs = alignment) ->
  let need := Z.to_nat (cdiv (window - 1) bs + (if use_eagle then 1 else 0)) in
  let M := Z.to_nat (max_length / bs) in
  exists L res,
    sliding_find hl max_length gids p (SlidingWindowSpec bs a window) use_eagle alignment 1 1 = Ok res /\
    (L <= M)%nat /\ window_hit p hl gids bs alignment need L /\
    (forall L', (L < L' <= M)%nat -> ~ window_hit p hl gids bs alignment need L') /\
    length res = length gids /\
    forall g c, res !! g = Some c -> length c = (if use_eagle then L - 1 else L)%nat /\
      (forall j b, c !! j = Some b ->
         if (j <? L - need)%nat then b = null_block p
         else exists cs, hit_by p hl gids j cs /\ cs !! g = Some b).
Proof.
  intros Hwf Hg Hgne Hhl Hbs Hw Hal Hmax Hlen Heagle need M. unfold sliding_find.
  cbn [Z.eqb py_assert mbind result_bind Pos.eqb]. fold M.
  assert (Hq : 0 <= max_length / bs) by (apply Z.div_pos; lia).
  assert (Hneed : (0 < need)%nat).
  { pose proof (cdiv_spec (window - 1) bs Hbs). subst need. destruct use_eagle; nia. }
  assert (HM : Z.of_nat M <= hl_len hl) by lia.
  destruct (window_find_total p l hl gids bs alignment need M Hwf Hg Hgne Hhl Hal Hneed HM) as (L & res & He & Hres).
  replace (cdiv (window - 1) bs + (if use_eagle then 1 else 0)) with (Z.of_nat need)
    by (subst need; pose proof (cdiv_nonneg (window - 1) bs Hbs ltac:(lia)); destruct use_eagle; lia).
  destruct (window_scan p hl gids bs alignment (Z.of_nat need) M 0 _) as [[[found nc] computed]|]; [|done].
  cbn [mbind result_bind] in He |- *. rewrite He. cbn [mbind result_bind].
  pose proof Hres as (HLM & Hwin & HLmax & Hl & Hc).
  assert (Hpick : forall c g j b, res !! g = Some c -> c !! j = Some b ->
    if (j <? L - need)%nat then b = null_block p else exists cs, hit_by p hl gids j cs /\ cs !! g = Some b).
  { intros c g j b Hgc Hb. destruct (Hc g c Hgc) as (_ & Hnull & Hhit).
    destruct (Nat.ltb_spec j (L - need)) as [Hj|Hj]; [rewrite Hnull in Hb by done; by injection Hb as <-|by apply Hhit]. }
  destruct use_eagle.
  2: { exists L, res. split_and!; try done. intros g c Hgc. split; [by apply Hc in Hgc as [? _]|]. intros j b. by apply Hpick. }
  assert (Hfirst : exists c0, first_group res = Ok c0 /\ length c0 = L).
  { unfold first_group. destruct res as [|c0 res]; [destruct gids; [done|discriminate Hl]|]. exists c0. split; [done|].
    by destruct (Hc 0%nat c0) as (-> & _). }
  destruct Hfirst as (c0 & -> & Hc0). cbn [mbind result_bind]. unfold zlen. rewrite Hc0.
  destruct (Z.ltb_spec 0 (Z.of_nat L)) as [HL|HL].
  - rewrite (proj2 (Z.eqb_eq bs alignment)) by auto. cbn [py_assert mbind result_bind].
    rewrite (scan_result_pop _ _ _ _ _ _ _ Hneed L res Hres) by lia. eexists L, _. split; [done|].
    split_and!; try done; [by rewrite length_fmap|].
    intros g c Hgc. apply list_lookup_fmap_Some in Hgc as (c' & -> & Hgc).
    split; [rewrite length_take; destruct (Hc g c' Hgc) as (-> & _); lia|].
    intros j b [Hb _]%lookup_take_Some. by eapply Hpick.
  - exists L, res. split_and!; try done. intros g c Hgc. destruct (Hc g c Hgc) as (Hlc & _).
    split; [lia|]. intros j b. by apply Hpick.
Qed.

Lemma sliding_window_longest_hit_witness :
  sliding_find (Plain (Request.block_hashes demo_request)) 5 [0] demo_cached (SlidingWindowSpec 2 demo_attn 3)
    false 2 1 1 = Ok [[RBlk 0; RBlk 2]] /\
  exists L res, sliding_find (Plain (Request.block_hashes demo_request)) 5 [0] demo_cached
    (SlidingWindowSpec 2 demo_attn 3) false 2 1 1 = Ok res /\ (L <= 2)%nat.
Proof.
  split; [by vm_compute|].
  destruct (sliding_window_longest_hit demo_cached _ (Plain (Request.block_hashes demo_request)) [0] 2 demo_attn 3
              false 2 5 demo_cached_wf) as (L & res & He & HL & _);
    [by_eval|done|done|done|done|done|done|by vm_compute|done|].
  exists L, res. split; [exact He|exact HL].
Defined.
