(* ===== verification/Coordinator.v ===== *)
(** * The KV cache coordinators

    vllm/v1/core/kv_cache_coordinator.py: one manager per KV cache group over the
    shared block pool, and the three subclasses that differ in the prefix lookup
    (none, one group, several groups).  A subclass is its [find_longest_cache_hit]
    data: [coord_kind]. *)
From S2P Require Import Prelude FreeQueue Request BlockHash KVCacheSpec BlockPool SingleTypeManager CacheHit.

(** One entry of [attention_groups]. *)
Record AttentionGroup : Type := mkAG {
  ag_spec : layer_spec;
  ag_group_ids : list Z;
  ag_class : manager_class;
}.

Inductive coord_kind : Type :=
  | NoPrefixCache
  | Unitary (spec : layer_spec) (block_size dcp pcp : Z)
  | Hybrid (hash_block_size : Z) (attention_groups : list AttentionGroup) (lcm_block_size : Z).

Record Coordinator : Type := mkCoord {
  co_kind : coord_kind;
  co_use_eagle : bool;
  co_enable_caching : bool;
  co_pool : BlockPool;
  single_type_managers : list STManager;
}.

Definition with_state (p : BlockPool) (ms : list STManager) (c : Coordinator) : Coordinator :=
  mkCoord (co_kind c) (co_use_eagle c) (co_enable_caching c) p ms.

(** ** Construction *)

(** The tuple of managers; they are built in order over the shared pool. *)
Fixpoint init_managers (groups : list KVCacheGroupSpec) (caching : bool) (i dcp pcp : Z) (p : BlockPool)
  : result (BlockPool * list STManager) :=
  match groups with
  | [] => Ok (p, [])
  | g :: groups' =>
      match kv_cache_spec g with
      | LayerSpec s =>
          '(p1, m) ← manager_init s caching i dcp pcp p;
          '(p2, ms) ← init_managers groups' caching (i + 1) dcp pcp p1;
          Ok (p2, m :: ms)
      | UniformTypeKVCacheSpecs _ _ => Err KeyError
      end
  end.

(** [verify_and_split_kv_cache_groups]: the loop over the groups. *)
Fixpoint add_to_group (s : layer_spec) (i : Z) (cls : manager_class) (ags : list AttentionGroup)
  : result (list AttentionGroup) :=
  match ags with
  | [] => Ok [mkAG s [i] cls]
  | ag :: ags' =>
      if decide (ag_spec ag = s) then
        _ ← py_assert (bool_decide (cls = ag_class ag));
        Ok (mkAG (ag_spec ag) (ag_group_ids ag ++ [i]) (ag_class ag) :: ags')
      else rest ← add_to_group s i cls ags'; Ok (ag :: rest)
  end.

Fixpoint split_groups (ms : list STManager) (i : Z) (ags : list AttentionGroup) : result (list AttentionGroup) :=
  match ms with
  | [] => Ok ags
  | m :: ms' => ags' ← add_to_group (st_spec m) i (st_class m) ags; split_groups ms' (i + 1) ags'
  end.

Definition is_full_group (ag : AttentionGroup) : bool := bool_decide (is_Some (as_full (ag_spec ag))).

(** [sorted(..., key=lambda x: not isinstance(x[0], FullAttentionSpec))]: stable. *)
Definition full_first (ags : list AttentionGroup) : list AttentionGroup :=
  filter (fun a => is_full_group a = true) ags ++ filter (fun a => is_full_group a = false) ags.

Definition split_kv_cache_groups (ms : list STManager) : result (list AttentionGroup * Z) :=
  ags ← split_groups ms 0 [];
  _ ← py_assert (1 <? zlen ags);
  Ok (full_first ags, foldr (fun a acc => Z.lcm (spec_block_size (ag_spec a)) acc) 1 ags).

(** [KVCacheCoordinatorNoPrefixCache.__init__] after the base class. *)
Definition no_prefix_init (use_eagle : bool) (p : BlockPool) (ms : list STManager) : Coordinator :=
  mkCoord NoPrefixCache use_eagle false p ms.

(** [UnitaryKVCacheCoordinator.__init__] after the base class. *)
Definition unitary_init (use_eagle caching : bool) (dcp pcp hash_block_size : Z) (p : BlockPool) (ms : list STManager)
  : result Coordinator :=
  m ← of_option IndexError (head ms);
  let bs0 := spec_block_size (st_spec m) in
  let bs1 := if 1 <? dcp then bs0 * dcp else bs0 in
  let bs := if 1 <? pcp then bs1 * pcp else bs1 in
  _ ← py_assert (negb caching || (hash_block_size =? bs));
  _ ← py_assert (zlen ms =? 1);
  Ok (mkCoord (Unitary (st_spec m) bs dcp pcp) use_eagle caching p ms).

(** [HybridKVCacheCoordinator.__init__] after the base class; [%] by 0 raises. *)
Definition hybrid_init (use_eagle caching : bool) (dcp pcp hash_block_size : Z) (p : BlockPool) (ms : list STManager)
  : result Coordinator :=
  if (hash_block_size =? 0) && (0 <? zlen ms) then Err ZeroDivisionError else
  _ ← py_assert (forallb (fun m => spec_block_size (st_spec m) mod hash_block_size =? 0) ms);
  _ ← py_assert (dcp =? 1);
  _ ← py_assert (pcp =? 1);
  '(ags, lcm) ← split_kv_cache_groups ms;
  Ok (mkCoord (Hybrid hash_block_size ags lcm) use_eagle caching p ms).

(** [get_kv_cache_coordinator]; each constructor runs the base class first. *)
Definition get_kv_cache_coordinator (cfg : KVCacheConfig) (use_eagle caching events : bool)
    (dcp pcp hash_block_size : Z) : result Coordinator :=
  p0 ← pool_init (num_blocks cfg) caching hash_block_size events;
  '(p, ms) ← init_managers (kv_cache_groups cfg) caching 0 dcp pcp p0;
  if negb caching then Ok (no_prefix_init use_eagle p ms)
  else if zlen (kv_cache_groups cfg) =? 1 then unitary_init use_eagle caching dcp pcp hash_block_size p ms
  else hybrid_init use_eagle caching dcp pcp hash_block_size p ms.

(** ** Operations of the base class *)

Section Operations.
Context (use_int : bool).

(** [num_blocks_to_allocate] over the managers; [i] is the index of the group. *)
Fixpoint sum_blocks_to_allocate (rid : string) (num_tokens : Z) (ncb : list (list blkref)) (num_encoder total main : Z)
    (p : BlockPool) (ms : list STManager) : result (Z * list STManager) :=
  match ms with
  | [] => Ok (0, [])
  | m :: ms' =>
      '(n, m1) ← (match st_class m with
                  | CrossAttentionManager => st_num_blocks_to_allocate rid num_encoder [] 0 num_encoder p m
                  | _ => bs ← of_option IndexError (head ncb);
                         st_num_blocks_to_allocate rid num_tokens bs total main p m
                  end);
      '(k, ms1) ← sum_blocks_to_allocate rid num_tokens (tail ncb) num_encoder total main p ms';
      Ok (n + k, m1 :: ms1)
  end.
Definition co_num_blocks_to_allocate (rid : string) (num_tokens : Z) (ncb : list (list blkref))
    (num_encoder total main : Z) (c : Coordinator) : result (Z * Coordinator) :=
  '(n, ms) ← sum_blocks_to_allocate rid num_tokens ncb num_encoder total main (co_pool c) (single_type_managers c);
  Ok (n, with_state (co_pool c) ms c).

(** A loop over the managers that threads the pool. *)
Fixpoint each_manager (f : BlockPool -> STManager -> result (BlockPool * STManager)) (p : BlockPool)
    (ms : list STManager) : result (BlockPool * list STManager) :=
  match ms with
  | [] => Ok (p, [])
  | m :: ms' =>
      '(p1, m1) ← f p m;
      '(p2, ms2) ← each_manager f p1 ms';
      Ok (p2, m1 :: ms2)
  end.
Definition co_each (f : BlockPool -> STManager -> result (BlockPool * STManager)) (c : Coordinator)
  : result Coordinator :=
  '(p, ms) ← each_manager f (co_pool c) (single_type_managers c); Ok (with_state p ms c).

Fixpoint computed_loop (rid : string) (ncb : list (list blkref)) (num_local num_external : Z) (p : BlockPool)
    (ms : list STManager) : result (BlockPool * list STManager) :=
  match ms with
  | [] => Ok (p, [])
  | m :: ms' =>
      bs ← of_option IndexError (head ncb);
      '(p1, m1) ← st_allocate_new_computed_blocks use_int rid bs num_local num_external p m;
      '(p2, ms2) ← computed_loop rid (tail ncb) num_local num_external p1 ms';
      Ok (p2, m1 :: ms2)
  end.
Definition co_allocate_new_computed_blocks (rid : string) (ncb : list (list blkref)) (num_local num_external : Z)
    (c : Coordinator) : result Coordinator :=
  '(p, ms) ← computed_loop rid ncb num_local num_external (co_pool c) (single_type_managers c);
  Ok (with_state p ms c).

Fixpoint new_blocks_loop (rid : string) (num_tokens main num_encoder : Z) (p : BlockPool) (ms : list STManager)
  : result (list (list blkref) * BlockPool * list STManager) :=
  match ms with
  | [] => Ok ([], p, [])
  | m :: ms' =>
      '(bs, p1, m1) ← st_allocate_new_blocks use_int rid
          (match st_class m with CrossAttentionManager => num_encoder | _ => num_tokens end) main p m;
      '(bss, p2, ms2) ← new_blocks_loop rid num_tokens main num_encoder p1 ms';
      Ok (bs :: bss, p2, m1 :: ms2)
  end.
Definition co_allocate_new_blocks (rid : string) (num_tokens main num_encoder : Z) (c : Coordinator)
  : result (list (list blkref) * Coordinator) :=
  '(bss, p, ms) ← new_blocks_loop rid num_tokens main num_encoder (co_pool c) (single_type_managers c);
  Ok (bss, with_state p ms c).

Fixpoint cache_loop (r : Request) (num_tokens : Z) (p : BlockPool) (ms : list STManager)
  : result (Request * BlockPool * list STManager) :=
  match ms with
  | [] => Ok (r, p, [])
  | m :: ms' =>
      '(r1, p1, m1) ← st_cache_blocks use_int r num_tokens p m;
      '(r2, p2, ms2) ← cache_loop r1 num_tokens p1 ms';
      Ok (r2, p2, m1 :: ms2)
  end.
Definition co_cache_blocks (r : Request) (num_tokens : Z) (c : Coordinator) : result (Request * Coordinator) :=
  '(r1, p, ms) ← cache_loop r num_tokens (co_pool c) (single_type_managers c);
  Ok (r1, with_state p ms c).

Definition co_free (rid : string) (c : Coordinator) : result Coordinator := co_each (st_free rid) c.
Definition co_remove_skipped_blocks (rid : string) (total : Z) (c : Coordinator) : result Coordinator :=
  co_each (st_remove_skipped_blocks rid total) c.

Definition co_get_blocks (rid : string) (c : Coordinator) : list (list blkref) :=
  rb_get rid <$> single_type_managers c.

Definition co_new_step_starts (c : Coordinator) : Coordinator :=
  with_state (co_pool c) (st_new_step_starts <$> single_type_managers c) c.

Definition co_num_common_prefix_blocks (rid : string) (c : Coordinator) : list Z * Coordinator :=
  match co_kind c with
  | NoPrefixCache => (replicate (length (single_type_managers c)) 0, c)
  | _ =>
      let rs := st_num_common_prefix_blocks rid (co_pool c) <$> single_type_managers c in
      (rs.*1, with_state (co_pool c) rs.*2 c)
  end.
End Operations.

(** ** [find_longest_cache_hit] *)

(** [_get_block_hashes]. *)
Definition group_hashes (hs : list bytes) (hash_block_size : Z) (s : layer_spec) : result hash_list :=
  if spec_block_size s =? hash_block_size then Ok (Plain hs)
  else b ← bhl_init hs hash_block_size (spec_block_size s); Ok (Scaled b).

(** One pass over the attention groups: the state is the current hit length and the
    blocks found for each group so far. *)
Definition hybrid_pass (hs : list bytes) (hash_bs lcm : Z) (use_eagle : bool) (p : BlockPool)
    (st : Z * list (option (list blkref))) (ag : AttentionGroup) : result (Z * list (option (list blkref))) :=
  let '(curr, hits) := st in
  g0 ← py_index (ag_group_ids ag) 0;
  cached ← py_index hits g0;
  let bs := spec_block_size (ag_spec ag) in
  match (if is_full_group ag then cached else None) with
  | Some _ => Ok (curr / bs * bs, hits)
  | None =>
      hl ← group_hashes hs hash_bs (ag_spec ag);
      hit_blocks ← find_longest_cache_hit (ag_class ag) hl curr (ag_group_ids ag) p (ag_spec ag) use_eagle lcm 1 1;
      c0 ← first_group hit_blocks;
      Ok (zlen c0 * bs,
          foldl (fun hits gb => <[Z.to_nat gb.1 := Some gb.2]> hits) hits (zip (ag_group_ids ag) hit_blocks))
  end.

(** The [while True] loop; [hit_length] decreases at every turn but the last. *)
Fixpoint hybrid_loop (fuel : nat) (hs : list bytes) (hash_bs lcm : Z) (use_eagle simple : bool) (p : BlockPool)
    (ags : list AttentionGroup) (hit_length : Z) (hits : list (option (list blkref)))
  : result (Z * list (option (list blkref))) :=
  match fuel with
  | O => Err OutOfFuel
  | S fuel' =>
      '(curr, hits') ← foldM (hybrid_pass hs hash_bs lcm use_eagle p) (hit_length, hits) ags;
      if hit_length <=? curr then Ok (hit_length, hits')
      else if simple then Ok (curr, hits')
      else hybrid_loop fuel' hs hash_bs lcm use_eagle simple p ags curr hits'
  end.

(** [del blks[num_blocks:]] for the groups of the full attention type. *)
Definition truncate_groups (n : nat) (gids : list Z) (hits : list (option (list blkref)))
  : list (option (list blkref)) :=
  foldl (fun hits g => alter (fun o : option (list blkref) => take n <$> o) (Z.to_nat g) hits) hits gids.

Definition is_simple_hybrid (ags : list AttentionGroup) : bool :=
  (length ags =? 2)%nat && match ags with a :: _ => is_full_group a | [] => false end.

Definition hybrid_find (hash_bs : Z) (ags : list AttentionGroup) (lcm : Z) (use_eagle : bool) (p : BlockPool)
    (num_groups : nat) (hs : list bytes) (max_length : Z) : result (list (list blkref) * Z) :=
  '(hit_length, hits) ← hybrid_loop (S (S (Z.to_nat max_length))) hs hash_bs lcm use_eagle (is_simple_hybrid ags)
                          p ags max_length (replicate num_groups None);
  ag ← of_option IndexError (head ags);
  let hits' := if is_full_group ag
               then truncate_groups (Z.to_nat (hit_length / spec_block_size (ag_spec ag))) (ag_group_ids ag) hits
               else hits in
  Ok ((fun o : option (list blkref) => default [] o) <$> hits', hit_length).

(** [UnitaryKVCacheCoordinator.find_longest_cache_hit]. *)
Definition unitary_find (s : layer_spec) (bs dcp pcp : Z) (hs : list bytes) (max_length : Z) (c : Coordinator)
  : result (list (list blkref) * Z) :=
  m ← of_option IndexError (head (single_type_managers c));
  hit_blocks ← find_longest_cache_hit (st_class m) (Plain hs) max_length [0] (co_pool c) s (co_use_eagle c)
                 bs dcp pcp;
  c0 ← first_group hit_blocks;
  Ok (hit_blocks, zlen c0 * bs).

(** [KVCacheCoordinatorNoPrefixCache.find_longest_cache_hit]. *)
Definition no_prefix_find (c : Coordinator) : list (list blkref) * Z :=
  (replicate (length (single_type_managers c)) [], 0).

Definition co_find_longest_cache_hit (hs : list bytes) (max_length : Z) (c : Coordinator)
  : result (list (list blkref) * Z) :=
  match co_kind c with
  | NoPrefixCache => Ok (no_prefix_find c)
  | Unitary s bs dcp pcp => unitary_find s bs dcp pcp hs max_length c
  | Hybrid hash_bs ags lcm =>
      hybrid_find hash_bs ags lcm (co_use_eagle c) (co_pool c) (length (single_type_managers c)) hs max_length
  end.
