(* ===== verification/KVCacheManager.v ===== *)
(** * The KV cache manager

    vllm/v1/core/kv_cache_manager.py: the interface between the scheduler and the
    KV cache, over the coordinator; with vllm/v1/metrics/stats.py's
    [PrefixCacheStats].  [EmptyBlocks] is the shared object
    [empty_kv_cache_blocks], which the code compares by identity. *)
From S2P Require Import Prelude FreeQueue Request BlockHash KVCacheSpec BlockPool SingleTypeManager CacheHit Coordinator.

(** ** [KVCacheBlocks] *)

Inductive KVCacheBlocks : Type :=
  | EmptyBlocks
  | Blocks (blocks : list (list blkref)).

(** The field [blocks]; [n] is the number of groups. *)
Definition blocks_of (n : nat) (b : KVCacheBlocks) : list (list blkref) :=
  match b with EmptyBlocks => replicate n [] | Blocks bs => bs end.

(** [__add__]. *)
Definition blocks_add (n : nat) (a b : KVCacheBlocks) : KVCacheBlocks :=
  Blocks (zip_with app (blocks_of n a) (blocks_of n b)).

(** [[blk.block_id for blk in group]]. *)
Definition ids_of (p : BlockPool) (g : list blkref) : list Z := (fun x => block_id (pheap p x)) <$> g.

(** [get_block_ids]. *)
Definition get_block_ids (n : nat) (p : BlockPool) (allow_none : bool) (b : KVCacheBlocks)
  : option (list (list Z)) :=
  if allow_none && forallb (fun g => zlen g =? 0) (blocks_of n b) then None
  else Some (ids_of p <$> blocks_of n b).

(** [get_unhashed_block_ids] and its variant for all groups. *)
Definition get_unhashed_block_ids (n : nat) (p : BlockPool) (b : KVCacheBlocks) : result (list Z) :=
  match blocks_of n b with
  | [g] => Ok (ids_of p (filter (fun x => block_hash (pheap p x) = None) g))
  | _ => Err AssertionError
  end.
Definition get_unhashed_block_ids_all_groups (n : nat) (p : BlockPool) (b : KVCacheBlocks) : list (list Z) :=
  (fun g => ids_of p (filter (fun x => block_hash (pheap p x) = None /\ is_null (pheap p x) = false) g))
    <$> blocks_of n b.

(** ** Statistics *)

Record PrefixCacheStats : Type := mkStats {
  ps_reset : bool;
  ps_requests : Z;
  ps_queries : Z;
  ps_hits : Z;
  preempted_requests : Z;
  preempted_queries : Z;
  preempted_hits : Z;
}.
Definition empty_stats : PrefixCacheStats := mkStats false 0 0 0 0 0 0.

(** [record]. *)
Definition record_stats (num_tokens num_hits : Z) (preempted : bool) (s : PrefixCacheStats) : PrefixCacheStats :=
  if preempted then
    mkStats (ps_reset s) (ps_requests s) (ps_queries s) (ps_hits s) (preempted_requests s + 1)
      (preempted_queries s + num_tokens) (preempted_hits s + num_hits)
  else
    mkStats (ps_reset s) (ps_requests s + 1) (ps_queries s + num_tokens) (ps_hits s + num_hits)
      (preempted_requests s) (preempted_queries s) (preempted_hits s).

(** ** [KVCacheManager] *)

Record KVCacheManager : Type := mkKVM {
  km_max_model_len : Z;
  km_enable_caching : bool;
  prefix_cache_stats : option PrefixCacheStats;
  coordinator : Coordinator;
  num_kv_cache_groups : nat;
}.

Definition set_coord (c : Coordinator) (k : KVCacheManager) : KVCacheManager :=
  mkKVM (km_max_model_len k) (km_enable_caching k) (prefix_cache_stats k) c (num_kv_cache_groups k).
Definition set_stats (s : option PrefixCacheStats) (k : KVCacheManager) : KVCacheManager :=
  mkKVM (km_max_model_len k) (km_enable_caching k) s (coordinator k) (num_kv_cache_groups k).
Definition km_pool (k : KVCacheManager) : BlockPool := co_pool (coordinator k).

(** [__init__]. *)
Definition kvm_init (cfg : KVCacheConfig) (max_len hash_block_size : Z) (caching use_eagle log_stats events : bool)
    (dcp pcp : Z) : result KVCacheManager :=
  c ← get_kv_cache_coordinator cfg use_eagle caching events dcp pcp hash_block_size;
  Ok (mkKVM max_len caching (if log_stats then Some empty_stats else None) c (length (kv_cache_groups cfg))).

(** [create_kv_cache_blocks]: [any(blocks)] is false when every list is empty. *)
Definition create_kv_cache_blocks (bs : list (list blkref)) : KVCacheBlocks :=
  if existsb (fun g => 0 <? zlen g) bs then Blocks bs else EmptyBlocks.

(** [make_prefix_cache_stats]. *)
Definition make_prefix_cache_stats (k : KVCacheManager) : option PrefixCacheStats * KVCacheManager :=
  match prefix_cache_stats k with
  | None => (None, k)
  | Some s => (Some s, set_stats (Some empty_stats) k)
  end.

(** [get_computed_blocks]. *)
Definition get_computed_blocks (r : Request) (k : KVCacheManager) : result (KVCacheBlocks * Z * KVCacheManager) :=
  if negb (km_enable_caching k) || skip_reading_prefix_cache r then Ok (EmptyBlocks, 0, k) else
  '(bs, n) ← co_find_longest_cache_hit (Request.block_hashes r) (num_tokens r - 1) (coordinator k);
  let k1 := match prefix_cache_stats k with
            | Some s => set_stats (Some (record_stats (num_tokens r) n (0 <? num_preemptions r) s)) k
            | None => k
            end in
  Ok (create_kv_cache_blocks bs, n, k1).

Section Slots.
Context (use_int : bool).

(** [allocate_slots]; the request comes back with its digest table updated. *)
Definition allocate_slots (r : Request) (num_new_tokens num_new_computed_tokens : Z)
    (new_computed_blocks : option KVCacheBlocks) (num_lookahead num_external : Z) (delay_cache_blocks : bool)
    (num_encoder : Z) (k : KVCacheManager) : result (option KVCacheBlocks * Request * KVCacheManager) :=
  if (num_new_tokens =? 0) && (num_external =? 0) then Err ValueError else
  let ncb := default EmptyBlocks new_computed_blocks in
  let ncb_list := blocks_of (num_kv_cache_groups k) ncb in
  let num_local := num_computed_tokens r + num_new_computed_tokens in
  let total := Z.min (num_local + num_external) (km_max_model_len k) in
  let num_main := total + num_new_tokens in
  let num_slots := Z.min (num_main + num_lookahead) (km_max_model_len k) in
  c1 ← co_remove_skipped_blocks (request_id r) total (coordinator k);
  '(need, c2) ← co_num_blocks_to_allocate (request_id r) num_slots ncb_list num_encoder
                  (num_local + num_external) num_main c1;
  if get_num_free_blocks (co_pool c2) <? need then Ok (None, r, set_coord c2 k) else
  c3 ← (if match ncb with EmptyBlocks => false | Blocks _ => true end || (0 <? num_external)
        then co_allocate_new_computed_blocks use_int (request_id r) ncb_list num_local num_external c2
        else Ok c2);
  '(new_blocks, c4) ← co_allocate_new_blocks use_int (request_id r) num_slots num_main num_encoder c3;
  if negb (km_enable_caching k) || delay_cache_blocks
  then Ok (Some (create_kv_cache_blocks new_blocks), r, set_coord c4 k)
  else
    '(r1, c5) ← co_cache_blocks use_int r (Z.min (total + num_new_tokens) (num_tokens r)) c4;
    Ok (Some (create_kv_cache_blocks new_blocks), r1, set_coord c5 k).

(** [cache_blocks]. *)
Definition kvm_cache_blocks (r : Request) (num_computed : Z) (k : KVCacheManager)
  : result (Request * KVCacheManager) :=
  if km_enable_caching k then
    '(r1, c) ← co_cache_blocks use_int r num_computed (coordinator k); Ok (r1, set_coord c k)
  else Ok (r, k).

(** [evict_blocks]. *)
Definition kvm_evict_blocks (ids : list Z) (k : KVCacheManager) : result KVCacheManager :=
  p ← evict_blocks use_int ids (km_pool k);
  Ok (set_coord (with_state p (single_type_managers (coordinator k)) (coordinator k)) k).
End Slots.

(** [free], [remove_skipped_blocks]. *)
Definition kvm_free (r : Request) (k : KVCacheManager) : result KVCacheManager :=
  c ← co_free (request_id r) (coordinator k); Ok (set_coord c k).
Definition kvm_remove_skipped_blocks (rid : string) (total : Z) (k : KVCacheManager) : result KVCacheManager :=
  c ← co_remove_skipped_blocks rid total (coordinator k); Ok (set_coord c k).

(** [reset_prefix_cache]. *)
Definition kvm_reset_prefix_cache (k : KVCacheManager) : bool * KVCacheManager :=
  let '(ok, p) := reset_prefix_cache (km_pool k) in
  let k1 := set_coord (with_state p (single_type_managers (coordinator k)) (coordinator k)) k in
  if negb ok then (false, k1) else
  (true, match prefix_cache_stats k1 with
         | Some s => set_stats (Some (mkStats true (ps_requests s) (ps_queries s) (ps_hits s) (preempted_requests s)
                                        (preempted_queries s) (preempted_hits s))) k1
         | None => k1
         end).

(** [get_num_common_prefix_blocks], [take_events], [get_blocks], [take_new_block_ids],
    [new_step_starts]. *)
Definition kvm_num_common_prefix_blocks (rid : string) (k : KVCacheManager) : list Z * KVCacheManager :=
  let '(ns, c) := co_num_common_prefix_blocks rid (coordinator k) in (ns, set_coord c k).
Definition kvm_take_events (k : KVCacheManager) : list KVCacheEvent * KVCacheManager :=
  let '(ev, p) := take_events (km_pool k) in
  (ev, set_coord (with_state p (single_type_managers (coordinator k)) (coordinator k)) k).
Definition kvm_get_blocks (rid : string) (k : KVCacheManager) : KVCacheBlocks :=
  create_kv_cache_blocks (co_get_blocks rid (coordinator k)).
Definition kvm_take_new_block_ids (k : KVCacheManager) : list Z * KVCacheManager :=
  let c := coordinator k in
  let rs := take_new_block_ids <$> single_type_managers c in
  (mjoin rs.*1, set_coord (with_state (co_pool c) rs.*2 c) k).
Definition kvm_new_step_starts (k : KVCacheManager) : KVCacheManager :=
  set_coord (co_new_step_starts (coordinator k)) k.
