(* ===== verification/KVCacheSafety.v ===== *)
(** * Safety of KV cache allocation

    The ownership invariant of a manager over the shared pool (every reference of a
    block is one occurrence in the block lists of the requests, here or in another
    manager), that the operations of the base class of
    vllm/v1/core/single_type_kv_cache_manager.py keep it, and what follows for
    [KVCacheManager] with one group (vllm/v1/core/kv_cache_manager.py): the capacity
    check of [allocate_slots] is sufficient, and freeing gives every block back. *)
From S2P Require Import Prelude FreeQueue Request BlockHash KVCacheSpec BlockPool PoolSafety SingleTypeManager CacheHit Coordinator KVCacheManager.

(** Occurrences of a block in a list, and in the lists of a manager. *)
Definition cnt (r : blkref) (bs : list blkref) : Z := Z.of_nat (length (filter (fun x => x = r) bs)).
Definition own (m : STManager) (r : blkref) : Z := map_sum (fun _ bs => cnt r bs) (req_to_blocks m).

Lemma cnt_app r l1 l2 : cnt r (l1 ++ l2) = cnt r l1 + cnt r l2.
Proof. unfold cnt. rewrite filter_app, length_app. lia. Qed.
Lemma cnt_nonneg r l : 0 <= cnt r l.
Proof. unfold cnt. lia. Qed.
Lemma cnt_pos r l : r ∈ l <-> 0 < cnt r l.
Proof.
  unfold cnt. split.
  - intros Hin. destruct (filter (fun x => x = r) l) as [|y f] eqn:E; [|cbn; lia].
    exfalso. apply (not_elem_of_nil r). rewrite <- E. by apply list_elem_of_filter.
  - intros Hl. destruct (filter (fun x => x = r) l) as [|y f] eqn:E; [cbn in Hl; lia|].
    assert (Hy : y ∈ filter (fun x => x = r) l) by (rewrite E; constructor).
    by apply list_elem_of_filter in Hy as [-> ?].
Qed.
Lemma cnt_notin r l : r ∉ l -> cnt r l = 0.
Proof. intros Hn. pose proof (cnt_nonneg r l). rewrite cnt_pos in Hn. lia. Qed.
Lemma cnt_perm r l1 l2 : l1 ≡ₚ l2 -> cnt r l1 = cnt r l2.
Proof. intros Hp. unfold cnt. by rewrite Hp. Qed.
Lemma cnt_slice r l lo hi : cnt r (py_slice l lo hi) <= cnt r l.
Proof.
  unfold py_slice. set (t := take (Z.to_nat hi) l).
  rewrite <- (take_drop (Z.to_nat hi) l), cnt_app. fold t. rewrite <- (take_drop (Z.to_nat lo) t) at 2. rewrite cnt_app.
  pose proof (cnt_nonneg r (take (Z.to_nat lo) t)). pose proof (cnt_nonneg r (drop (Z.to_nat hi) l)). lia.
Qed.
Lemma cnt_replicate r n x : cnt r (replicate n x) = if decide (x = r) then Z.of_nat n else 0.
Proof.
  unfold cnt. induction n as [|n IH]; cbn [replicate]; [by case_decide|].
  rewrite filter_cons. destruct (decide (x = r)); cbn [length]; lia.
Qed.

Lemma own_nonneg m r : 0 <= own m r.
Proof. apply map_sum_nonneg. intros. apply cnt_nonneg. Qed.

Lemma own_ge m rid r : cnt r (rb_get rid m) <= own m r.
Proof.
  unfold rb_get, own. destruct (req_to_blocks m !! rid) as [bs|] eqn:E; cbn.
  - apply (map_sum_lookup_le (fun _ bs => cnt r bs) _ rid bs); [intros; apply cnt_nonneg|done].
  - apply own_nonneg.
Qed.

(** Replacing the list of one request. *)
Lemma own_set m rid bs r : own (rb_set rid bs m) r = own m r - cnt r (rb_get rid m) + cnt r bs.
Proof.
  unfold own, rb_set, rb_get. cbn. destruct (req_to_blocks m !! rid) as [bs0|] eqn:E; cbn.
  - by rewrite (map_sum_update _ _ _ _ _ E).
  - rewrite map_sum_insert by done. change (cnt r []) with 0. lia.
Qed.

Lemma own_touch m rid r : own (rb_touch rid m) r = own m r.
Proof.
  unfold rb_touch. destruct (req_to_blocks m !! rid) as [bs0|] eqn:E; [done|].
  unfold own. cbn. by rewrite map_sum_insert.
Qed.

Lemma own_delete m rid r ncb :
  own (set_ncb ncb (set_rb (delete rid (req_to_blocks m)) m)) r = own m r - cnt r (rb_get rid m).
Proof.
  unfold own, rb_get. cbn. destruct (req_to_blocks m !! rid) as [bs0|] eqn:E; cbn.
  - rewrite (map_sum_delete _ _ _ _ E). lia.
  - rewrite delete_id by done. change (cnt r []) with 0. lia.
Qed.

(** [oth] counts the references held outside the manager. *)
Record st_inv (oth : blkref -> Z) (p : BlockPool) (l : list blkref) (m : STManager) : Prop := {
  si_pool : pool_wf p l;
  si_bs : 0 < st_block_size m;
  si_gid : 0 <= kv_cache_group_id m < 2 ^ 32;
  si_caching : enable_caching p = st_enable_caching m;
  si_ref : forall r, valid_block p r -> ref_cnt (pheap p r) = oth r + own m r;
  si_oth : forall r, 0 <= oth r;
  si_blocks : forall rid b, b ∈ rb_get rid m -> in_pool p b;
  si_nodup : forall rid, NoDup (filter (valid_block p) (rb_get rid m));
  si_ncb : forall rid n, num_cached_block m !! rid = Some n -> 0 <= n <= zlen (rb_get rid m);
  si_fresh : forall rid i b, default 0 (num_cached_block m !! rid) <= Z.of_nat i ->
     rb_get rid m !! i = Some b -> valid_block p b ->
     st_enable_caching m = true -> block_hash (pheap p b) = None /\ ref_cnt (pheap p b) = 1;
}.

Lemma rb_get_set m rid rid' bs :
  rb_get rid' (rb_set rid bs m) = if decide (rid = rid') then bs else rb_get rid' m.
Proof. unfold rb_get, rb_set. cbn. rewrite lookup_insert. by case_decide. Qed.

Lemma rb_get_touch m rid rid' : rb_get rid' (rb_touch rid m) = rb_get rid' m.
Proof.
  unfold rb_touch. destruct (req_to_blocks m !! rid) eqn:E; [done|]. unfold rb_get. cbn.
  rewrite lookup_insert. case_decide; [subst; by rewrite E|done].
Qed.

(** A block without references is in no list. *)
Lemma free_not_owned oth p l m r rid : st_inv oth p l m -> r ∈ l -> r ∉ rb_get rid m.
Proof.
  intros Hinv Hr Hin. pose proof (si_pool _ _ _ _ Hinv) as Hwf.
  rewrite <- (app_nil_r l) in Hr. apply (pi_free _ _ _ Hwf) in Hr as [Hv H0].
  rewrite (si_ref _ _ _ _ Hinv r Hv) in H0. pose proof (si_oth _ _ _ _ Hinv r).
  pose proof (own_ge m rid r). apply cnt_pos in Hin. lia.
Qed.

(** A block outside the cached part of a list has one owner. *)
Lemma fresh_unique oth p l m rid i b :
  st_inv oth p l m -> st_enable_caching m = true -> valid_block p b ->
  default 0 (num_cached_block m !! rid) <= Z.of_nat i -> rb_get rid m !! i = Some b ->
  oth b = 0 /\ own m b = 1 /\ forall rid', rid' <> rid -> b ∉ rb_get rid' m.
Proof.
  intros Hinv Hc Hv Hi Hb. destruct (si_fresh _ _ _ _ Hinv rid i b Hi Hb Hv Hc) as [_ H1].
  rewrite (si_ref _ _ _ _ Hinv b Hv) in H1. pose proof (si_oth _ _ _ _ Hinv b).
  assert (Hin : b ∈ rb_get rid m) by (by eapply list_elem_of_lookup_2).
  pose proof (own_ge m rid b) as Hge. apply cnt_pos in Hin. split; [lia|]. split; [lia|].
  intros rid' Hne Hin'. apply cnt_pos in Hin'.
  assert (Hsum : cnt b (rb_get rid m) + cnt b (rb_get rid' m) <= own m b).
  { unfold rb_get, own in *. destruct (req_to_blocks m !! rid) as [bs|] eqn:E; [|cbn in *; unfold cnt in Hin; cbn in Hin; lia].
    rewrite (map_sum_delete _ _ _ _ E). cbn.
    destruct (req_to_blocks m !! rid') as [bs'|] eqn:E'; [|cbn in *; unfold cnt in Hin'; cbn in Hin'; lia]. cbn.
    enough (cnt b bs' <= map_sum (fun _ bs => cnt b bs) (delete rid (req_to_blocks m))) by lia.
    apply (map_sum_lookup_le (fun _ bs => cnt b bs) _ rid' bs'); [intros; apply cnt_nonneg|].
    by rewrite lookup_delete_ne. }
  lia.
Qed.

(** What an operation on one manager must leave alone for the other managers: their
    blocks that carry no hash and have one owner. *)
Definition frame (oth : blkref -> Z) (p p' : BlockPool) : Prop :=
  forall b, valid_block p b -> oth b = 1 -> block_hash (pheap p b) = None -> ref_cnt (pheap p b) = 1 ->
    block_hash (pheap p' b) = None /\ ref_cnt (pheap p' b) = 1.

Definition same_hashes (p p' : BlockPool) : Prop := forall r, block_hash (pheap p' r) = block_hash (pheap p r).

(** References only added, hashes kept. *)
Definition grows (p p' : BlockPool) : Prop :=
  forall r, block_hash (pheap p' r) = block_hash (pheap p r) /\ is_null (pheap p' r) = is_null (pheap p r) /\
    ref_cnt (pheap p r) <= ref_cnt (pheap p' r).

Lemma frame_refl oth p : frame oth p p.
Proof. by intros b. Qed.
Lemma frame_trans oth p1 p2 p3 : same_config p1 p2 -> frame oth p1 p2 -> frame oth p2 p3 -> frame oth p1 p3.
Proof.
  intros Hc H1 H2 b Hv Ho Hh Hr. destruct (H1 b Hv Ho Hh Hr) as [Hh2 Hr2].
  apply H2; try done. by apply (valid_same p1 p2); [apply Hc|].
Qed.

(** ** The operations keep the invariant *)

Lemma bdata_fields x y : bdata x = bdata y -> ref_cnt x = ref_cnt y /\ block_hash x = block_hash y /\ is_null x = is_null y.
Proof. unfold bdata. by intros [= ? ? ? ?]. Qed.

Lemma alloc_frame oth p l n p' :
  pool_wf p l -> (forall r, r ∉ take n l -> bdata (pheap p' r) = bdata (pheap p r)) -> frame oth p p'.
Proof.
  intros Hwf Hd b _ _ Hh Hr. assert (Hb : b ∉ take n l).
  { intros Hb%(subseteq_take n). rewrite <- (app_nil_r l) in Hb. apply (pi_free _ _ _ Hwf) in Hb as [_ ?]. lia. }
  destruct (bdata_fields _ _ (Hd b Hb)) as (-> & -> & _). done.
Qed.

Lemma cnt_nodup r bs : NoDup bs -> cnt r bs = if decide (r ∈ bs) then 1 else 0.
Proof.
  intros Hnd. case_decide as Hr; [|by apply cnt_notin]. unfold cnt.
  rewrite (nodup_filter_count (fun _ => True) bs r); [done|by rewrite filter_all|done|done].
Qed.

Lemma valid_in_pool p b : valid_block p b -> in_pool p b.
Proof. intros (i & ? & ?). exists i. split; [done|lia]. Qed.

Lemma in_pool_same p p' b : same_config p p' -> in_pool p b -> in_pool p' b.
Proof. intros Hc (i & ? & ?). exists i. by rewrite (proj1 Hc). Qed.

Lemma nodup_valid_same p p' bs :
  same_config p p' -> NoDup (filter (valid_block p) bs) -> NoDup (filter (valid_block p') bs).
Proof.
  intros Hc Hnd. erewrite list_filter_iff; [exact Hnd|]. intros r. apply valid_same, Hc.
Qed.

Lemma alloc_blocks_inv use_int oth p l m rid n :
  st_inv oth p l m -> 0 <= n <= zlen l ->
  exists p', get_new_blocks use_int n p = Ok (take (Z.to_nat n) l, p') /\ same_config p p' /\
    st_inv oth p' (drop (Z.to_nat n) l) (rb_set rid (rb_get rid m ++ take (Z.to_nat n) l) m) /\
    (forall r, r ∉ take (Z.to_nat n) l -> bdata (pheap p' r) = bdata (pheap p r)).
Proof.
  intros Hinv Hn. pose proof (si_pool _ _ _ _ Hinv) as Hwf. set (new := take (Z.to_nat n) l).
  destruct (get_new_blocks_spec use_int n p l Hwf Hn) as (p' & Hp' & Hwf' & Hc & Hd). fold new in Hp', Hd.
  assert (Hnd : NoDup new).
  { pose proof (pi_nodup _ _ _ Hwf) as H. rewrite app_nil_r in H. subst new.
    rewrite <- (take_drop (Z.to_nat n) l) in H. by apply NoDup_app in H as [? _]. }
  assert (Hnl : forall r, r ∈ new -> r ∈ l) by (intros r Hr; eapply (subseteq_take (Z.to_nat n)); exact Hr).
  assert (Hnew : forall r, r ∈ new -> valid_block p r /\ ref_cnt (pheap p r) = 0).
  { intros r Hr%Hnl. rewrite <- (app_nil_r l) in Hr. by apply (pi_free _ _ _ Hwf). }
  assert (Hout : forall r, r ∉ new -> bdata (pheap p' r) = bdata (pheap p r)).
  { intros r Hr. by rewrite Hd, decide_False. }
  assert (Hv : forall r, valid_block p' r <-> valid_block p r) by (intros; apply valid_same, Hc).
  exists p'. split_and!; try done.
  destruct Hinv as [_ Hbs Hgid Hcach Href Hoth Hblk Hndp Hncb Hfr]. split; try done.
  - rewrite (proj1 (proj2 Hc)). done.
  - intros r Hr%Hv. rewrite own_set, cnt_app, (cnt_nodup r new Hnd). specialize (Href r Hr). specialize (Hd r).
    case_decide as Hrn.
    + destruct (bdata_fields _ _ Hd) as [-> _]. cbn. destruct (Hnew r Hrn) as [_ H0]. lia.
    + destruct (bdata_fields _ _ Hd) as [-> _]. lia.
  - intros rid' b. rewrite rb_get_set. intros Hb. apply (in_pool_same p); [done|]. case_decide; [|by eapply Hblk].
    apply elem_of_app in Hb as [Hb|Hb]; [by eapply Hblk|]. by apply valid_in_pool, Hnew.
  - intros rid'. rewrite rb_get_set. apply (nodup_valid_same p); [done|]. case_decide; [|done].
    rewrite filter_app, (filter_all _ new) by (intros; by apply Hnew). apply NoDup_app. split_and!; [done| |done].
    intros b [_ Hb]%list_elem_of_filter Hbn. destruct (Hnew b Hbn) as [Hbv H0].
    rewrite (Href b Hbv) in H0. pose proof (Hoth b). pose proof (own_ge m rid b). apply cnt_pos in Hb. lia.
  - intros rid' k Hk. rewrite rb_get_set. specialize (Hncb rid' k Hk). case_decide; [subst|done].
    unfold zlen in *. rewrite length_app. lia.
  - intros rid' i b Hi. rewrite rb_get_set. intros Hb Hbv%Hv Hca. cbn in Hi, Hca.
    destruct (decide (b ∈ new)) as [Hbn|Hbn].
    + specialize (Hd b). rewrite decide_True in Hd by done. cbn in Hcach. rewrite Hcach, Hca in Hd.
      destruct (bdata_fields _ _ Hd) as (-> & -> & _). done.
    + assert (Hb' : rb_get rid' m !! i = Some b).
      { case_decide; [subst rid'|done]. apply lookup_app_Some in Hb as [Hb|[_ Hb]]; [done|].
        exfalso. apply Hbn. by eapply list_elem_of_lookup_2. }
      destruct (bdata_fields _ _ (Hout b Hbn)) as (-> & -> & _). by apply (Hfr rid' i).
Qed.

Lemma st_inv_record oth p l m p0 bs : st_inv oth p l m -> st_inv oth p l (record_new_ids p0 bs m).
Proof. unfold record_new_ids. destruct (st_spec m); intros []; done. Qed.

Lemma st_inv_touch oth p l m rid : st_inv oth p l m -> st_inv oth p l (rb_touch rid m).
Proof.
  intros [H1 H2 H3 H4 H5 H6 H7 H8 H9 H10].
  assert (Hsame : st_block_size (rb_touch rid m) = st_block_size m /\
    kv_cache_group_id (rb_touch rid m) = kv_cache_group_id m /\
    st_enable_caching (rb_touch rid m) = st_enable_caching m /\
    num_cached_block (rb_touch rid m) = num_cached_block m) by (unfold rb_touch; by destruct (req_to_blocks m !! rid)).
  destruct Hsame as (E1 & E2 & E3 & E4).
  split; rewrite ?E1, ?E2, ?E3, ?E4; try done; intros *; rewrite ?own_touch, ?rb_get_touch; eauto.
Qed.

(** What [get_computed_blocks] gives: real blocks that carry a hash, all different
    (and null blocks). *)
Definition computed_ok (p : BlockPool) (bs : list blkref) : Prop :=
  (forall b, b ∈ bs -> in_pool p b /\ (valid_block p b -> is_Some (block_hash (pheap p b)))) /\
  NoDup (filter (valid_block p) bs).

Lemma computed_ok_drop p bs k : computed_ok p bs -> computed_ok p (drop k bs).
Proof.
  intros [Hin Hnd]. split.
  - intros b Hb. apply Hin. eapply (subseteq_drop k). exact Hb.
  - rewrite <- (take_drop k bs), filter_app in Hnd. by apply NoDup_app in Hnd as (_ & _ & ?).
Qed.

Lemma cnt_valid p r bs : valid_block p r -> NoDup (filter (valid_block p) bs) -> cnt r bs <= 1.
Proof.
  intros Hv Hnd. destruct (decide (r ∈ bs)) as [Hr|Hr]; [|by rewrite cnt_notin].
  unfold cnt. by rewrite (nodup_filter_count (valid_block p) bs r).
Qed.

Lemma null_not_valid p l pend : pool_inv p l pend -> ~ valid_block p (null_block p).
Proof. intros Hi. rewrite (pi_null _ _ _ Hi). intros (j & [= <-] & Hj). lia. Qed.

Lemma null_in_pool p l pend : pool_inv p l pend -> in_pool p (null_block p).
Proof. intros Hi. rewrite (pi_null _ _ _ Hi). exists 0%nat. split; [done|]. pose proof (pi_n _ _ _ Hi). lia. Qed.

(** A new request takes the computed blocks, behind [k] null blocks. *)
Lemma touch_inv oth p l m rid computed k :
  st_inv oth p l m -> rb_get rid m = [] -> num_cached_block m !! rid = None ->
  computed_ok p computed ->
  let req := replicate k (null_block p) ++ computed in
  exists p', touch computed p = Ok p' /\ same_config p p' /\
    st_inv oth p' (filter (fun x => x ∉ computed) l)
      (set_ncb (<[rid := zlen req]> (num_cached_block m)) (rb_set rid req m)) /\
    frame oth p p' /\ grows p p'.
Proof.
  intros Hinv Hnil Hnone [Hin Hnd] req. pose proof (si_pool _ _ _ _ Hinv) as Hwf.
  destruct (touch_spec p l computed Hwf) as (p' & Hp' & Hwf' & Hc & Hd); [intros b Hb; by apply Hin|].
  assert (Hv : forall r, valid_block p' r <-> valid_block p r) by (intros; apply valid_same, Hc).
  exists p'. split_and!; try done; cycle 1.
  { intros b Hbv _ Hh Hr. destruct (Hd b) as (-> & _ & ->). split; [done|].
    assert (Hnb : b ∉ computed) by (intros Hbc; destruct (Hin b Hbc) as [_ Hs]; rewrite Hh in Hs; by destruct (Hs Hbv)).
    apply cnt_notin in Hnb. unfold cnt in Hnb. lia. }
  { intros r. destruct (Hd r) as (? & ? & ->). split_and!; try done. lia. }
  assert (Hfv : filter (valid_block p) req = filter (valid_block p) computed).
  { subst req. rewrite filter_app. replace (filter (valid_block p) (replicate k (null_block p))) with (@nil blkref); [done|].
    symmetry. apply filter_none. intros x [-> _]%elem_of_replicate. by eapply null_not_valid. }
  assert (Hcnt : forall r, valid_block p r -> cnt r req = cnt r computed).
  { intros r Hr. subst req. rewrite cnt_app, cnt_replicate. rewrite decide_False; [lia|].
    intros <-. by apply (null_not_valid p l [] Hwf). }
  destruct Hinv as [_ Hbs Hgid Hcach Href Hoth Hblk Hndp Hncb Hfr]. split; try done.
  - rewrite (proj1 (proj2 Hc)). done.
  - intros r Hr%Hv. change (own (set_ncb _ ?x) r) with (own x r). rewrite own_set, Hnil, Hcnt by done.
    destruct (Hd r) as (_ & _ & ->). change (cnt r []) with 0. rewrite (Href r Hr). unfold cnt. lia.
  - intros rid' b. change (rb_get rid' (set_ncb _ ?x)) with (rb_get rid' x). rewrite rb_get_set. intros Hb.
    apply (in_pool_same p); [done|]. case_decide; [|by eapply Hblk]. subst req.
    apply elem_of_app in Hb as [[-> _]%elem_of_replicate|Hb]; [by eapply null_in_pool|by apply Hin].
  - intros rid'. change (rb_get rid' (set_ncb _ ?x)) with (rb_get rid' x). rewrite rb_get_set.
    apply (nodup_valid_same p); [done|]. case_decide; [by rewrite Hfv|done].
  - intros rid' n. cbn. change (rb_get rid' (set_ncb _ ?x)) with (rb_get rid' x). rewrite rb_get_set, lookup_insert.
    case_decide; [intros [= <-]; unfold zlen; lia|apply Hncb].
  - intros rid' i b. cbn [num_cached_block set_ncb]. change (rb_get rid' (set_ncb _ ?x)) with (rb_get rid' x).
    rewrite rb_get_set, lookup_insert. case_decide as Hrid.
    + cbn. intros Hi Hb. apply lookup_lt_Some in Hb. unfold zlen in Hi. lia.
    + intros Hi Hb Hbv%Hv Hca. destruct (Hd b) as (-> & _ & ->).
      destruct (Hfr rid' i b Hi Hb Hbv Hca) as [Hh H1]. split; [done|].
      assert (Hnb : b ∉ computed).
      { intros Hbc. destruct (Hin b Hbc) as [_ Hs]. rewrite Hh in Hs. by destruct Hs as [? ?]. }
      apply cnt_notin in Hnb. unfold cnt in Hnb. lia.
Qed.

(** Touching uses up the evictable blocks. *)
Lemma touch_uses_evictable p l bs :
  pool_wf p l -> NoDup (filter (valid_block p) bs) -> (forall b, b ∈ bs -> in_pool p b) ->
  zlen (filter (fun x => x ∉ bs) l) = zlen l - get_num_evictable_blocks p bs.
Proof.
  intros Hwf Hnd Hin. unfold get_num_evictable_blocks, zlen.
  assert (Hfree : forall b, b ∈ bs -> is_freeable p b <-> b ∈ l).
  { intros b Hb. rewrite <- (app_nil_r l), (pi_free _ _ _ Hwf). unfold is_freeable.
    destruct (in_pool_cases p l [] b Hwf (Hin b Hb)) as [(-> & Hz & Hnv)|[Hz Hv]]; rewrite Hz; [|tauto].
    split; [by intros []|by intros []]. }
  assert (Hp : filter (is_freeable p) bs ≡ₚ filter (fun x => x ∈ bs) l).
  { apply NoDup_Permutation.
    - rewrite (list_filter_iff' (is_freeable p) (fun b => is_freeable p b /\ valid_block p b)).
      + rewrite <- list_filter_filter. by apply NoDup_filter.
      + intros b Hb. rewrite (Hfree b Hb). split; [|tauto]. intros Hl. split; [done|].
        rewrite <- (app_nil_r l), (pi_free _ _ _ Hwf) in Hl. apply Hl.
    - apply NoDup_filter. pose proof (pi_nodup _ _ _ Hwf) as H. by rewrite app_nil_r in H.
    - intros b. rewrite !list_elem_of_filter. split; intros [H1 H2].
      + split; [done|by apply Hfree].
      + split; [by apply Hfree|done]. }
  rewrite (Permutation_length Hp). pose proof (filter_split_length (fun x => x ∈ bs) l). lia.
Qed.

(** ** Allocation is sufficient *)

Lemma free_count oth p l m : st_inv oth p l m -> get_num_free_blocks p = zlen l.
Proof. intros Hi. exact (rep_num _ _ (pi_rep _ _ _ (si_pool _ _ _ _ Hi))). Qed.

(** What the allocations leave alone. *)
Definition same_manager (rid : string) (m m' : STManager) : Prop :=
  st_class m' = st_class m /\ st_spec m' = st_spec m /\ st_block_size m' = st_block_size m /\
  st_enable_caching m' = st_enable_caching m /\ kv_cache_group_id m' = kv_cache_group_id m /\
  (forall rid', rid' <> rid -> rb_get rid' m' = rb_get rid' m /\ num_cached_block m' !! rid' = num_cached_block m !! rid').

#[global] Instance same_manager_preorder rid : PreOrder (same_manager rid).
Proof.
  split; [by intros m|]. intros m1 m2 m3 (A1 & A2 & A3 & A4 & A5 & A6) (B1 & B2 & B3 & B4 & B5 & B6).
  unfold same_manager. split_and!; try congruence. intros rid' Hne.
  destruct (A6 rid' Hne), (B6 rid' Hne). split; congruence.
Qed.

Lemma same_record rid p bs m : same_manager rid m (record_new_ids p bs m).
Proof. unfold record_new_ids. by destruct (st_spec m). Qed.
Lemma record_get rid p bs m : rb_get rid (record_new_ids p bs m) = rb_get rid m.
Proof. unfold record_new_ids. by destruct (st_spec m). Qed.
Lemma record_ncb p bs m : num_cached_block (record_new_ids p bs m) = num_cached_block m.
Proof. unfold record_new_ids. by destruct (st_spec m). Qed.

Lemma same_set rid bs m : same_manager rid m (rb_set rid bs m).
Proof. split_and!; try done. intros rid' Hne. rewrite rb_get_set, decide_False by done. done. Qed.

Lemma new_blocks_inv use_int oth p l m rid nt :
  st_inv oth p l m ->
  let n := Z.max 0 (cdiv nt (st_block_size m) - zlen (rb_get rid m)) in
  n <= zlen l ->
  exists p' m', base_allocate_new_blocks use_int rid nt p m = Ok (take (Z.to_nat n) l, p', m') /\
    st_inv oth p' (drop (Z.to_nat n) l) m' /\ same_config p p' /\ same_manager rid m m' /\
    rb_get rid m' = rb_get rid m ++ take (Z.to_nat n) l /\
    num_cached_block m' !! rid = num_cached_block m !! rid /\ frame oth p p'.
Proof.
  intros Hinv n Hn. unfold base_allocate_new_blocks.
  destruct (Z.leb_spec (cdiv nt (st_block_size m) - zlen (rb_get rid m)) 0) as [Hle|Hgt].
  - assert (n = 0) as -> by lia. exists p, (rb_touch rid m). rewrite drop_0. cbn [take Z.to_nat].
    split_and!; try done.
    + by apply st_inv_touch.
    + split_and!; try (by unfold rb_touch; destruct (req_to_blocks m !! rid)).
      intros rid' _. rewrite rb_get_touch. by unfold rb_touch; destruct (req_to_blocks m !! rid).
    + by rewrite rb_get_touch, app_nil_r.
    + by unfold rb_touch; destruct (req_to_blocks m !! rid).
  - assert (Hn' : cdiv nt (st_block_size m) - zlen (rb_get rid m) = n) by lia. rewrite Hn'.
    destruct (alloc_blocks_inv use_int oth p l m rid n Hinv ltac:(lia)) as (p' & -> & Hc & Hinv' & Hd).
    cbn [mbind result_bind]. eexists p', _. split; [done|]. split_and!.
    + by apply st_inv_record.
    + done.
    + etrans; [apply same_set|apply same_record].
    + by rewrite record_get, rb_get_set, decide_True.
    + by rewrite record_ncb.
    + eapply alloc_frame; [apply Hinv|done].
Qed.

(** The number of whole blocks the attention window has passed. *)
Definition skipped_blocks (m : STManager) (total : Z) : Z := get_num_skipped_tokens m total / st_block_size m.

Lemma get_num_skipped_same m m' n : st_spec m' = st_spec m -> get_num_skipped_tokens m' n = get_num_skipped_tokens m n.
Proof. unfold get_num_skipped_tokens. by intros ->. Qed.

(** The caching switch only matters for an assertion. *)
Lemma touch_or_assert p m bs :
  (st_enable_caching m = false -> bs = []) ->
  (if st_enable_caching m then touch bs p else _ ← py_assert (zlen bs =? 0); Ok p) = touch bs p.
Proof. intros H. destruct (st_enable_caching m); [done|]. by rewrite H. Qed.

(** A new request: its computed blocks (those inside the window), then the blocks of
    the external tokens. *)
Lemma computed_inv use_int oth p l m rid computed num_local num_external :
  st_inv oth p l m -> rb_get rid m = [] -> num_cached_block m !! rid = None ->
  computed_ok p computed -> (st_enable_caching m = false -> computed = []) ->
  let total := num_local + num_external in
  let sk := skipped_blocks m total in
  let ext := if 0 <? sk then Z.min (total - get_num_skipped_tokens m total) num_external else num_external in
  let len1 := Z.max sk (zlen computed) in
  let E := if 0 <? ext then cdiv total (st_block_size m) - len1 else 0 in
  let ev := get_num_evictable_blocks p (drop (Z.to_nat sk) computed) in
  0 <= sk -> 0 <= E -> E + ev <= zlen l ->
  exists p' l' m', base_allocate_new_computed_blocks use_int rid computed num_local num_external p m = Ok (p', m') /\
    st_inv oth p' l' m' /\ same_config p p' /\ same_manager rid m m' /\
    zlen l' = zlen l - ev - E /\ zlen (rb_get rid m') = len1 + E /\
    num_cached_block m' !! rid = Some len1 /\ frame oth p p' /\ (num_external <= 0 -> grows p p').
Proof.
  intros Hinv Hnil Hnone Hok Hoff total sk ext len1 E ev Hsk HE Hroom.
  pose proof (si_pool _ _ _ _ Hinv) as Hwf.
  unfold base_allocate_new_computed_blocks. rewrite Hnone, Hnil. cbn [zlen length Z.of_nat Z.eqb py_assert mbind result_bind].
  set (comp := drop (Z.to_nat sk) computed) in *.
  assert (Hpair : (if 0 <? get_num_skipped_tokens m total / st_block_size m
                   then (drop (Z.to_nat (get_num_skipped_tokens m total / st_block_size m)) computed,
                         Z.min (total - get_num_skipped_tokens m total) num_external)
                   else (computed, num_external)) = (comp, ext)).
  { subst ext comp. change (get_num_skipped_tokens m total / st_block_size m) with sk.
    destruct (Z.ltb_spec 0 sk); [done|]. by replace sk with 0 by lia. }
  fold total. cbv zeta. rewrite Hpair. change (get_num_skipped_tokens m total / st_block_size m) with sk.
  rewrite touch_or_assert by (intros H; subst comp; rewrite (Hoff H); apply drop_nil).
  assert (Hcomp : computed_ok p comp) by (by apply computed_ok_drop).
  destruct (touch_inv oth p l m rid comp (Z.to_nat sk) Hinv Hnil Hnone Hcomp) as (p1 & -> & Hc1 & Hi1 & Hf1 & Hg1).
  cbn [mbind result_bind app].
  pose proof (touch_uses_evictable p l comp Hwf (proj2 Hcomp) (fun b Hb => proj1 (proj1 Hcomp b Hb))) as Hfree.
  fold ev in Hfree. set (l1 := filter (fun x => x ∉ comp) l) in *.
  assert (Hnull : null_block p1 = null_block p) by (by apply Hc1). rewrite Hnull.
  set (req := replicate (Z.to_nat sk) (null_block p) ++ comp) in *.
  assert (Hreq : zlen req = len1).
  { subst req comp len1. unfold zlen. rewrite length_app, length_replicate, length_drop. lia. }
  rewrite Hreq in Hi1 |- *. set (m1 := set_ncb _ _) in *.
  assert (Hsame : same_manager rid m m1).
  { split_and!; try done. intros rid' Hne. subst m1. split.
    - change (rb_get rid' (set_ncb _ ?x)) with (rb_get rid' x). by rewrite rb_get_set, decide_False.
    - cbn. by rewrite lookup_insert_ne. }
  assert (Hget : rb_get rid m1 = req) by (subst m1; change (rb_get rid (set_ncb _ ?x)) with (rb_get rid x); by rewrite rb_get_set, decide_True).
  assert (Hn1 : num_cached_block m1 !! rid = Some len1) by (subst m1; cbn; by rewrite lookup_insert_eq).
  subst E. destruct (Z.ltb_spec 0 ext) as [Hext|Hext].
  - change (st_block_size m) with (st_block_size m1) in HE, Hroom |- *.
    destruct (alloc_blocks_inv use_int oth p1 l1 m1 rid (cdiv total (st_block_size m1) - len1) Hi1 ltac:(lia))
      as (p2 & -> & Hc2 & Hi2 & Hd2).
    cbn [mbind result_bind]. rewrite Hget in Hi2. eexists p2, _, _. split; [done|]. split_and!.
    + apply st_inv_record, Hi2.
    + by etrans.
    + etrans; [exact Hsame|]. etrans; [apply same_set|apply same_record].
    + unfold zlen in *. rewrite length_drop. lia.
    + rewrite record_get, rb_get_set, decide_True by done. unfold zlen in *. rewrite length_app, length_take. lia.
    + by rewrite record_ncb.
    + apply (frame_trans _ _ p1); [done|done|]. eapply alloc_frame; [apply Hi1|done].
    + intros Hle. exfalso. subst ext. destruct (0 <? sk); lia.
  - exists p1, l1, m1. split_and!; try done; [lia|]. rewrite Hget. lia.
Qed.

(** ** Caching, freeing, removing *)

Lemma nodup_cnt p bs : (forall r, valid_block p r -> cnt r bs <= 1) <-> NoDup (filter (valid_block p) bs).
Proof.
  split; [|intros; by eapply cnt_valid]. intros H. induction bs as [|b bs IH]; [constructor|].
  assert (Hcons : forall r, cnt r (b :: bs) = (if decide (b = r) then 1 else 0) + cnt r bs).
  { intros r. unfold cnt. rewrite filter_cons. destruct (decide (b = r)); cbn [length]; lia. }
  assert (IH' : NoDup (filter (valid_block p) bs)).
  { apply IH. intros r Hr. specialize (H r Hr). rewrite Hcons in H. case_decide; lia. }
  rewrite filter_cons. case_decide as Hv; [|done]. constructor; [|done].
  intros [_ Hb]%list_elem_of_filter. apply cnt_pos in Hb. specialize (H b Hv). rewrite Hcons, decide_True in H by done. lia.
Qed.

Lemma valid_not_null_block p l pend r : pool_inv p l pend -> valid_block p r -> null_block p <> r.
Proof. intros Hi Hv <-. by eapply null_not_valid. Qed.

Lemma nodup_valid_lookup p bs i j b :
  NoDup (filter (valid_block p) bs) -> valid_block p b -> bs !! i = Some b -> bs !! j = Some b -> i = j.
Proof.
  intros Hnd Hv Hi Hj. destruct (decide (i = j)) as [|Hne]; [done|]. exfalso.
  assert (Hlt : forall i j, (i < j)%nat -> bs !! i = Some b -> bs !! j = Some b -> False).
  { clear i j Hi Hj Hne. intros i j Hij Hi Hj. pose proof (cnt_valid p b bs Hv Hnd) as H1.
    rewrite <- (take_drop j bs), cnt_app in H1.
    assert (0 < cnt b (take j bs)). { apply cnt_pos. apply (list_elem_of_lookup_2 _ i). by rewrite lookup_take_lt by lia. }
    assert (0 < cnt b (drop j bs)).
    { apply cnt_pos. apply (list_elem_of_lookup_2 _ 0). by rewrite lookup_drop, Nat.add_0_r. }
    lia. }
  destruct (Nat.lt_total i j) as [H|[H|H]]; [by eapply Hlt|done|by eapply Hlt].
Qed.

(** The contract of a request whose first [num_tokens] tokens get cached. *)
Record request_ok (p : BlockPool) (r : Request) (num_tokens : Z) : Prop := {
  ro_nonneg : 0 <= num_tokens;
  ro_hashes : num_tokens / hash_block_size p <= zlen (Request.block_hashes r);
  ro_text : enable_kv_cache_events p = true -> mm_features r = [] /\ memo_ok r;
}.

Lemma cache_inv use_int oth p l m r num_tokens :
  st_inv oth p l m -> st_enable_caching m = true -> st_block_size m = hash_block_size p ->
  request_ok p r num_tokens -> num_tokens / st_block_size m <= zlen (rb_get (request_id r) m) ->
  exists r' p' m', base_cache_blocks use_int r num_tokens p m = Ok (r', p', m') /\
    st_inv oth p' l m' /\ same_config p p' /\ same_manager (request_id r) m m' /\
    (forall rid, rb_get rid m' = rb_get rid m) /\
    default 0 (num_cached_block m' !! request_id r) =
      Z.max (default 0 (num_cached_block m !! request_id r)) (num_tokens / st_block_size m) /\
    frame oth p p' /\ memo_update r r'.
Proof.
  intros Hinv Hca Hsz [Hnn Hhs Htext] Hlen. unfold base_cache_blocks. set (rid := request_id r) in *.
  set (nc := default 0 (num_cached_block m !! rid)). set (nf := num_tokens / st_block_size m) in *.
  destruct (Z.leb_spec nf nc) as [Hle|Hgt].
  { exists r, p, m. split_and!; try done; [lia|apply memo_update_refl]. }
  assert (Hnc : 0 <= nc).
  { subst nc. destruct (num_cached_block m !! rid) as [n|] eqn:E; cbn; [|lia]. apply (si_ncb _ _ _ _ Hinv rid n E). }
  assert (Hca' : cacheable p r (rb_get rid m) nc nf (st_block_size m) (kv_cache_group_id m)).
  { pose proof (si_nodup _ _ _ _ Hinv rid) as Hnd. split; try done; try lia.
    - apply Hinv.
    - subst nf. by rewrite Hsz.
    - intros i b Hi Hb. split; [eapply (si_blocks _ _ _ _ Hinv); by eapply list_elem_of_lookup_2|].
      intros Hv. apply (si_fresh _ _ _ _ Hinv rid i b); try done; fold nc; lia.
    - apply nodup_cnt. intros b Hb. pose proof (cnt_valid p b _ Hb Hnd). pose proof (cnt_slice b (rb_get rid m) nc nf). lia. }
  destruct (cache_full_blocks_spec use_int p l r _ _ _ _ _ (si_pool _ _ _ _ Hinv) Hca')
    as (r' & p' & -> & Hwf' & Hc & Hmemo & Href & _ & Hout).
  cbn [mbind result_bind]. eexists r', p', _. split; [done|].
  assert (Hv : forall b, valid_block p' b <-> valid_block p b) by (intros; apply valid_same, Hc).
  assert (Hsl : forall b, b ∈ py_slice (rb_get rid m) nc nf ->
    exists i, nc <= Z.of_nat i < nf /\ rb_get rid m !! i = Some b).
  { intros b [i Hi]%list_elem_of_lookup. rewrite py_slice_lookup in Hi by lia. case_decide; [|done].
    exists (Z.to_nat nc + i)%nat. split; [lia|done]. }
  assert (Hncb : forall k, num_cached_block (rb_touch k m) = num_cached_block m)
    by (intros k; unfold rb_touch; by destruct (req_to_blocks m !! k)).
  assert (Hget : forall rid', rb_get rid' (set_ncb (<[rid := nf]> (num_cached_block (rb_touch rid m))) (rb_touch rid m))
     = rb_get rid' m) by (intros; change (rb_get ?x (set_ncb _ ?y)) with (rb_get x y); apply rb_get_touch).
  assert (Hframe : frame oth p p').
  { intros b Hb Ho Hh Hr. rewrite Href. rewrite Hout; [done|]. intros (i & Hi & Hbi)%Hsl.
    destruct (fresh_unique oth p l m rid i b Hinv Hca Hb ltac:(fold nc; lia) Hbi) as (H0 & _). lia. }
  split_and!; try done.
  - destruct (st_inv_touch _ _ _ _ rid Hinv) as [_ H2 H3 H4 H5 H6 H7 H8 H9 H10]. split; try done.
    + by rewrite (proj1 (proj2 Hc)).
    + intros b Hb%Hv. rewrite Href. by apply H5.
    + intros rid' b Hb. apply (in_pool_same p); [done|]. by apply (H7 rid').
    + intros rid'. rewrite Hget. apply (nodup_valid_same p); [done|]. apply Hinv.
    + intros rid' n. rewrite Hget. cbn. rewrite lookup_insert, Hncb.
      case_decide; [intros [= <-]; subst; lia|apply Hinv].
    + intros rid' i b. rewrite Hget. cbn [num_cached_block set_ncb]. rewrite Hncb, lookup_insert. intros Hi Hb Hbv%Hv _.
      assert (Hi' : default 0 (num_cached_block m !! rid') <= Z.of_nat i).
      { case_decide; [|done]. subst rid'. fold nc. cbn in Hi. lia. }
      rewrite Href, Hout; [by apply (si_fresh _ _ _ _ Hinv rid' i b)|]. intros (j & Hj & Hbj)%Hsl.
      case_decide as Hrid.
      * subst rid'. cbn in Hi. assert (i = j) as ->; [|lia].
        eapply (nodup_valid_lookup p); [apply (si_nodup _ _ _ _ Hinv rid)| | |]; done.
      * destruct (fresh_unique oth p l m rid' i b Hinv Hca Hbv Hi' Hb) as (_ & _ & Hno).
        apply (Hno rid ltac:(done)). by eapply list_elem_of_lookup_2.
  - unfold same_manager. split_and!; try (by unfold rb_touch; destruct (req_to_blocks m !! rid)).
    intros rid' Hne. rewrite Hget. cbn [num_cached_block set_ncb]. by rewrite Hncb, lookup_insert_ne.
  - cbn. rewrite lookup_insert_eq. cbn. lia.
Qed.

(** A request gives up the blocks [removed] of its list, which becomes [bs']. *)
Lemma release_inv oth p l m m' rid removed bs' :
  st_inv oth p l m ->
  (forall b, b ∈ removed -> b ∈ rb_get rid m) ->
  (forall r, valid_block p r -> cnt r removed + cnt r bs' = cnt r (rb_get rid m)) ->
  (forall i b, bs' !! i = Some b -> b = null_block p \/ rb_get rid m !! i = Some b) ->
  same_manager rid m m' -> rb_get rid m' = bs' ->
  (forall r, own m' r = own m r - cnt r (rb_get rid m) + cnt r bs') ->
  (num_cached_block m' !! rid = None /\ bs' = [] \/
   num_cached_block m' !! rid = num_cached_block m !! rid /\ length bs' = length (rb_get rid m)) ->
  exists p', free_blocks removed p = Ok p' /\ same_config p p' /\
    st_inv oth p' (l ++ last_refs p removed) m' /\ frame oth p p' /\ same_hashes p p'.
Proof.
  intros Hinv Hrem Hcnt Hlk (E1 & E2 & E3 & E4 & E5 & Hsame) Hget Hown Hncb'.
  pose proof (si_pool _ _ _ _ Hinv) as Hwf.
  assert (Hfr : freeable_list p removed).
  { split_and!.
    - intros b Hb. by eapply (si_blocks _ _ _ _ Hinv), Hrem.
    - apply nodup_cnt. intros r Hr. pose proof (cnt_valid p r _ Hr (si_nodup _ _ _ _ Hinv rid)).
      specialize (Hcnt r Hr). pose proof (cnt_nonneg r bs'). lia.
    - intros b Hb%Hrem%cnt_pos Hv. rewrite (si_ref _ _ _ _ Hinv b Hv). pose proof (si_oth _ _ _ _ Hinv b).
      pose proof (own_ge m rid b). lia. }
  destruct (free_blocks_spec p l removed Hwf Hfr) as (p' & -> & Hwf' & Hc & Hd).
  exists p'. split_and!; try done.
  - assert (Hv : forall r, valid_block p' r <-> valid_block p r) by (intros; apply valid_same, Hc).
    assert (Hgo : forall rid', rb_get rid' m' = if decide (rid' = rid) then bs' else rb_get rid' m).
    { intros rid'. case_decide; [by subst|]. by apply Hsame. }
    split; rewrite ?E3, ?E4, ?E5; try apply Hinv; try done.
    + rewrite (proj1 (proj2 Hc)). apply Hinv.
    + intros r Hr%Hv. destruct (Hd r) as (_ & _ & ->). fold (cnt r removed).
      rewrite Hown, (si_ref _ _ _ _ Hinv r Hr), <- (Hcnt r Hr). lia.
    + intros rid' b Hb. apply (in_pool_same p); [done|]. rewrite Hgo in Hb. case_decide; [|by eapply (si_blocks _ _ _ _ Hinv)].
      apply list_elem_of_lookup in Hb as [i [->|Hb]%Hlk]; [by eapply null_in_pool|].
      eapply (si_blocks _ _ _ _ Hinv). by eapply list_elem_of_lookup_2.
    + intros rid'. apply (nodup_valid_same p); [done|]. rewrite Hgo. case_decide; [|apply Hinv].
      apply nodup_cnt. intros r Hr. pose proof (cnt_valid p r _ Hr (si_nodup _ _ _ _ Hinv rid)).
      specialize (Hcnt r Hr). pose proof (cnt_nonneg r removed). lia.
    + intros rid' n Hn. rewrite Hgo. case_decide; [subst rid'|apply (si_ncb _ _ _ _ Hinv); by rewrite <- (proj2 (Hsame rid' ltac:(done)))].
      destruct Hncb' as [[Hno _]|[Hno Hl]]; rewrite Hno in Hn; [done|]. apply (si_ncb _ _ _ _ Hinv) in Hn. unfold zlen in *. lia.
    + intros rid' i b Hi Hb Hbv%Hv Hca. destruct (Hd b) as (-> & _ & ->). fold (cnt b removed).
      assert (Hold : default 0 (num_cached_block m !! rid') <= Z.of_nat i /\ rb_get rid' m !! i = Some b /\ cnt b removed = 0).
      { rewrite Hgo in Hb. case_decide as Hrid.
        - subst rid'. destruct Hncb' as [[_ ->]|[Hno _]]; [done|]. rewrite <- Hno. split; [done|].
          destruct (Hlk i b Hb) as [->|Hb']; [by destruct (null_not_valid p l [] Hwf)|]. split; [done|].
          pose proof (cnt_valid p b _ Hbv (si_nodup _ _ _ _ Hinv rid)). specialize (Hcnt b Hbv).
          apply list_elem_of_lookup_2, cnt_pos in Hb. pose proof (cnt_nonneg b removed). lia.
        - destruct (Hsame rid' Hrid) as [Hg Hn]. rewrite Hn in Hi. split_and!; try done. apply cnt_notin. intros Hbr%Hrem.
          destruct (fresh_unique oth p l m rid' i b Hinv Hca Hbv Hi Hb) as (_ & _ & Hno). by apply (Hno rid ltac:(done)). }
      destruct Hold as (Hi' & Hb' & ->). destruct (si_fresh _ _ _ _ Hinv rid' i b Hi' Hb' Hbv Hca). split; [done|lia].
  - intros b Hbv Ho Hh Hr. destruct (Hd b) as (-> & _ & ->). fold (cnt b removed). split; [done|].
    assert (cnt b removed = 0); [|lia]. apply cnt_notin. intros Hb%Hrem%cnt_pos.
    rewrite (si_ref _ _ _ _ Hinv b Hbv) in Hr. pose proof (own_ge m rid b). lia.
  - intros r. apply Hd.
Qed.

Lemma cnt_rev r l : cnt r (rev l) = cnt r l.
Proof. apply cnt_perm. rewrite <- Permutation_rev. done. Qed.

Lemma free_inv oth p l m rid :
  st_inv oth p l m ->
  exists p' m', base_free rid p m = Ok (p', m') /\ same_config p p' /\
    st_inv oth p' (l ++ last_refs p (rev (rb_get rid m))) m' /\ frame oth p p' /\ same_manager rid m m' /\
    rb_get rid m' = [] /\ num_cached_block m' !! rid = None /\ same_hashes p p'.
Proof.
  intros Hinv. unfold base_free. set (m' := set_ncb _ _).
  assert (Hget : rb_get rid m' = []) by (subst m'; unfold rb_get; cbn; by rewrite lookup_delete_eq).
  assert (Hno : num_cached_block m' !! rid = None) by (subst m'; cbn; by rewrite lookup_delete_eq).
  assert (Hsame : same_manager rid m m').
  { split_and!; try done. intros rid' Hne. subst m'. unfold rb_get. cbn. by rewrite !lookup_delete_ne by done. }
  destruct (release_inv oth p l m m' rid (rev (rb_get rid m)) [] Hinv) as (p' & -> & Hc & Hi & Hf & Hh); try done.
  - intros b Hb. by rewrite <- Permutation_rev in Hb.
  - intros r _. rewrite cnt_rev. change (cnt r []) with 0. lia.
  - intros r. subst m'. rewrite own_delete. change (cnt r []) with 0. lia.
  - by left.
  - cbn [mbind result_bind]. by exists p', m'.
Qed.

(** The scan of [remove_skipped_blocks]. *)
Lemma skip_scan_spec null n bs removed :
  (n <= length bs)%nat ->
  let '(removed', bs') := skip_scan null n bs removed in
  length bs' = length bs /\
  (forall b, b ∈ removed' -> b ∈ removed \/ b <> null /\ b ∈ bs) /\
  (forall r, r <> null -> cnt r removed' + cnt r bs' = cnt r removed + cnt r bs) /\
  (forall i b, bs' !! i = Some b -> b = null \/ bs !! i = Some b) /\
  (forall i, (n <= i)%nat -> bs' !! i = bs !! i).
Proof.
  revert bs removed. induction n as [|i IH]; intros bs removed Hn; cbn [skip_scan].
  { split_and!; try done; by eauto. }
  destruct (bs !! i) as [b|] eqn:Eb; [|by split_and!; eauto].
  case_decide as Hb; [by split_and!; eauto|].
  specialize (IH (<[i := null]> bs) (removed ++ [b]) ltac:(rewrite length_insert; lia)).
  destruct (skip_scan null i (<[i := null]> bs) (removed ++ [b])) as [removed' bs'].
  destruct IH as (Hl & Hrem & Hcnt & Hlk & Hhi). rewrite length_insert in Hl. split_and!; [done| | | |].
  - intros x [Hx|Hx]%Hrem.
    + apply elem_of_app in Hx as [?|Hx]; [by left|]. apply list_elem_of_singleton in Hx as ->. right. split; [done|by eapply list_elem_of_lookup_2].
    + destruct Hx as [Hne [j Hj]%list_elem_of_lookup]. right. split; [done|].
      apply list_lookup_insert_Some in Hj as [(_ & <- & _)|[_ Hj]]; [done|by eapply list_elem_of_lookup_2].
  - intros r Hr. rewrite (Hcnt r Hr), cnt_app, (insert_take_drop _ _ _ ltac:(by eapply lookup_lt_Some)).
    assert (Hbs : cnt r bs = cnt r (take i bs ++ b :: drop (S i) bs)) by (by rewrite take_drop_middle).
    rewrite Hbs, !cnt_app.
    assert (Hcons : forall x ys, cnt r (x :: ys) = cnt r [x] + cnt r ys) by (intros x ys; by rewrite <- (cnt_app r [x] ys)).
    rewrite (Hcons null), (Hcons b (drop _ _)), (cnt_notin r [null]); [lia|]. by intros ?%list_elem_of_singleton.
  - intros j x Hj. apply Hlk in Hj as [?|Hj]; [by left|]. apply list_lookup_insert_Some in Hj as [(_ & <- & _)|[_ Hj]]; [by left|by right].
  - intros j Hj. rewrite Hhi by lia. apply list_lookup_insert_ne. lia.
Qed.

Lemma remove_skipped_inv oth p l m rid total :
  st_inv oth p l m ->
  exists p' m' freed, base_remove_skipped_blocks rid total p m = Ok (p', m') /\ same_config p p' /\
    st_inv oth p' (l ++ freed) m' /\ frame oth p p' /\ same_manager rid m m' /\
    length (rb_get rid m') = length (rb_get rid m) /\
    num_cached_block m' !! rid = num_cached_block m !! rid /\
    (forall b, b ∈ freed -> b ∈ rb_get rid m) /\ same_hashes p p' /\
    (forall i, get_num_skipped_tokens m total / st_block_size m <= Z.of_nat i -> rb_get rid m' !! i = rb_get rid m !! i).
Proof.
  intros Hinv. unfold base_remove_skipped_blocks.
  destruct (Z.leb_spec (get_num_skipped_tokens m total) 0) as [Hle|Hgt].
  { exists p, m, []. rewrite app_nil_r. split_and!; try done. by intros b ?%elem_of_nil. }
  set (n := Z.to_nat _). pose proof (si_bs _ _ _ _ Hinv) as Hbs.
  assert (Hn : (n <= length (rb_get rid m))%nat) by (subst n; unfold zlen; lia).
  pose proof (skip_scan_spec (null_block p) n (rb_get rid m) [] Hn) as Hspec.
  destruct (skip_scan (null_block p) n (rb_get rid m) []) as [removed bs'].
  destruct Hspec as (Hl & Hrem & Hcnt & Hlk & Hhi).
  destruct (release_inv oth p l m (rb_set rid bs' m) rid removed bs' Hinv) as (p' & -> & Hc & Hi & Hf & Hh); try done.
  - intros b [?%elem_of_nil|[_ ?]]%Hrem; done.
  - intros r Hr. rewrite Hcnt; [done|]. intros ->. by apply (null_not_valid p l [] (si_pool _ _ _ _ Hinv)).
  - apply same_set.
  - by rewrite rb_get_set, decide_True.
  - intros r. apply own_set.
  - by right.
  - cbn [mbind result_bind]. eexists p', _, _. split_and!; try done.
    + apply same_set.
    + by rewrite rb_get_set, decide_True.
    + intros b [_ Hb]%list_elem_of_filter. apply Hrem in Hb as [?%elem_of_nil|[_ ?]]; done.
    + intros i Hi'. rewrite rb_get_set, decide_True by done. destruct (decide (n <= i)%nat) as [|Hge]; [by apply Hhi|].
      assert (0 <= get_num_skipped_tokens m total / st_block_size m) by (apply Z.div_pos; lia). subst n. lia.
Qed.
