(* ===== verification/KVCacheRun.v ===== *)
(** * Safety of the KV cache manager

    The invariant of [KVCacheManager] with any number of attention groups that share
    the pool, that every operation of vllm/v1/core/kv_cache_manager.py keeps it, that
    the capacity check of [allocate_slots] is sufficient, and what follows for a run
    of the manager from its construction. *)
From S2P Require Import Prelude FreeQueue Request BlockHash KVCacheSpec BlockPool PoolSafety SingleTypeManager CacheHit Coordinator KVCacheManager KVCacheSafety.

Definition zsum {A} (f : A -> Z) (xs : list A) : Z := foldr (fun x acc => f x + acc) 0 xs.

Lemma zsum_app {A} (f : A -> Z) xs ys : zsum f (xs ++ ys) = zsum f xs + zsum f ys.
Proof. induction xs as [|x xs IH]; cbn; [done|]. unfold zsum in *. lia. Qed.
Lemma zsum_le {A} (f g : A -> Z) xs : (forall x, x ∈ xs -> f x <= g x) -> zsum f xs <= zsum g xs.
Proof.
  induction xs as [|x xs IH]; intros H; cbn; [done|].
  pose proof (H x ltac:(constructor)). unfold zsum in IH. ospecialize (IH _); [|lia].
  intros y Hy. apply H. by constructor.
Qed.
Lemma zsum_nonneg {A} (f : A -> Z) xs : (forall x, x ∈ xs -> 0 <= f x) -> 0 <= zsum f xs.
Proof.
  intros H. transitivity (zsum (fun _ => 0) xs); [|by apply zsum_le].
  clear H. induction xs; cbn; [done|]. unfold zsum in *. lia.
Qed.
Lemma zsum_elem {A} (f : A -> Z) xs x : (forall y, y ∈ xs -> 0 <= f y) -> x ∈ xs -> f x <= zsum f xs.
Proof.
  intros H [xs1 [xs2 ->]]%list_elem_of_split. rewrite zsum_app. cbn. fold (zsum f xs2).
  assert (0 <= zsum f xs1) by (apply zsum_nonneg; intros; apply H; set_solver).
  assert (0 <= zsum f xs2) by (apply zsum_nonneg; intros; apply H; set_solver). lia.
Qed.

(** References held by a list of managers. *)
Definition tot (ms : list STManager) (r : blkref) : Z := zsum (fun m => own m r) ms.

Lemma tot_mid ms1 m ms2 r : tot (ms1 ++ m :: ms2) r = tot (ms1 ++ ms2) r + own m r.
Proof. unfold tot. rewrite !zsum_app. cbn. unfold zsum. lia. Qed.
Lemma tot_nonneg ms r : 0 <= tot ms r.
Proof. apply zsum_nonneg. intros. apply own_nonneg. Qed.

(** The managers the theorems cover: those of the decoder attention types. *)
Definition attn_manager (m : STManager) : Prop :=
  match st_class m, st_spec m with
  | FullAttentionManager, (FullAttentionSpec _ _ _ | MLAAttentionSpec _ _ _ _) => True
  | SlidingWindowManager, SlidingWindowSpec _ _ w => 0 < w
  | ChunkedLocalAttentionManager, ChunkedLocalAttentionSpec _ _ k => 0 < k
  | _, _ => False
  end.

Record st_local (p : BlockPool) (m : STManager) : Prop := {
  sl_attn : attn_manager m;
  sl_bs : 0 < st_block_size m;
  sl_hash : st_enable_caching m = true -> st_block_size m = hash_block_size p;
  sl_gid : 0 <= kv_cache_group_id m < 2 ^ 32;
  sl_caching : enable_caching p = st_enable_caching m;
  sl_blocks : forall rid b, b ∈ rb_get rid m -> in_pool p b;
  sl_nodup : forall rid, NoDup (filter (valid_block p) (rb_get rid m));
  sl_ncb : forall rid n, num_cached_block m !! rid = Some n -> 0 <= n <= zlen (rb_get rid m);
  sl_fresh : forall rid i b, default 0 (num_cached_block m !! rid) <= Z.of_nat i ->
     rb_get rid m !! i = Some b -> valid_block p b ->
     st_enable_caching m = true -> block_hash (pheap p b) = None /\ ref_cnt (pheap p b) = 1;
}.

(** [l] is the free queue; every reference of a block is an entry of a block list. *)
Record kv_inv (p : BlockPool) (l : list blkref) (ms : list STManager) : Prop := {
  ki_pool : pool_wf p l;
  ki_ref : forall r, valid_block p r -> ref_cnt (pheap p r) = tot ms r;
  ki_local : forall m, m ∈ ms -> st_local p m;
}.

Lemma kv_focus p l ms1 m ms2 : kv_inv p l (ms1 ++ m :: ms2) -> st_inv (tot (ms1 ++ ms2)) p l m /\ attn_manager m.
Proof.
  intros [Hp Hr Hl]. destruct (Hl m ltac:(set_solver)). split; [|done]. split; try done.
  - intros r Hv. rewrite Hr, tot_mid by done. done.
  - intros r. apply tot_nonneg.
Qed.

Lemma kv_put rid p l p' l' ms1 m m' ms2 :
  kv_inv p l (ms1 ++ m :: ms2) -> st_inv (tot (ms1 ++ ms2)) p' l' m' -> same_config p p' ->
  same_manager rid m m' -> frame (tot (ms1 ++ ms2)) p p' -> kv_inv p' l' (ms1 ++ m' :: ms2).
Proof.
  intros [Hp Hr Hl] [Hp' Hbs Hgid Hca Href _ Hblk Hnd Hncb Hfr] Hc (E1 & E2 & E3 & E4 & E5 & _) Hframe.
  assert (Hv : forall r, valid_block p' r <-> valid_block p r) by (intros; apply valid_same, Hc).
  split; [done| |].
  - intros r Hrv. rewrite Href, tot_mid by done. done.
  - intros m2 Hm2. assert (Hm2' : m2 = m' \/ m2 ∈ ms1 ++ ms2) by set_solver. destruct Hm2' as [->|Hin].
    + destruct (Hl m ltac:(set_solver)) as [A1 A2 A3 _ _ _ _ _ _]. split; try done.
      * unfold attn_manager. by rewrite E1, E2.
      * rewrite E3, E4. destruct Hc as (_ & _ & -> & _). done.
    + destruct (Hl m2 ltac:(set_solver)) as [A1 A2 A3 A4 A5 A6 A7 A8 A9]. split; try done.
      * destruct Hc as (_ & _ & -> & _). done.
      * by rewrite (proj1 (proj2 Hc)).
      * intros rid' b Hb. apply (in_pool_same p); [done|]. by eapply A6.
      * intros rid'. by apply (nodup_valid_same p).
      * intros rid' i b Hi Hb Hbv%Hv Hc2. destruct (A9 rid' i b Hi Hb Hbv Hc2) as [Hh H1].
        apply Hframe; try done. rewrite Hr, tot_mid in H1 by done. pose proof (own_nonneg m b).
        assert (own m2 b <= tot (ms1 ++ ms2) b) by (apply (zsum_elem (fun m => own m b)); [intros; apply own_nonneg|done]).
        pose proof (own_ge m2 rid' b). apply list_elem_of_lookup_2, cnt_pos in Hb. lia.
Qed.

(** ** Loops over the managers *)

(** One operation on each manager in turn. *)
Lemma each_inv f rid (R : STManager -> STManager -> Prop) :
  (forall oth p l m, st_inv oth p l m -> attn_manager m -> exists p' l' m', f p m = Ok (p', m') /\
     same_config p p' /\ st_inv oth p' l' m' /\ frame oth p p' /\ same_hashes p p' /\ same_manager rid m m' /\ R m m') ->
  forall ms dn p l, kv_inv p l (dn ++ ms) ->
  exists p' l' ms', each_manager f p ms = Ok (p', ms') /\ kv_inv p' l' (dn ++ ms') /\ same_config p p' /\
    same_hashes p p' /\ Forall2 (fun m m' => same_manager rid m m' /\ R m m') ms ms'.
Proof.
  intros Hf ms. induction ms as [|m ms IH]; intros dn p l Hinv; cbn [each_manager].
  { exists p, l, []. by split_and!. }
  destruct (kv_focus _ _ _ _ _ Hinv) as [Hm Ha].
  destruct (Hf _ _ _ _ Hm Ha) as (p1 & l1 & m1 & -> & Hc1 & Hi1 & Hf1 & Hh1 & Hs1 & HR).
  cbn [mbind result_bind]. pose proof (kv_put rid _ _ _ _ _ _ _ _ Hinv Hi1 Hc1 Hs1 Hf1) as Hinv1.
  rewrite cons_middle, app_assoc in Hinv1.
  destruct (IH _ _ _ Hinv1) as (p2 & l2 & ms2 & -> & Hi2 & Hc2 & Hh2 & HF). cbn [mbind result_bind].
  exists p2, l2, (m1 :: ms2). split_and!; try done.
  - by rewrite cons_middle, app_assoc.
  - by etrans.
  - intros r. by rewrite Hh2, Hh1.
  - by constructor.
Qed.

Lemma attn_mamba_align m : attn_manager m -> mamba_align m = false.
Proof. unfold attn_manager, mamba_align. by destruct (st_class m), (st_spec m). Qed.

(** [coordinator.free]. *)
Lemma free_all_inv rid p l ms :
  kv_inv p l ms ->
  exists p' l' ms', each_manager (st_free rid) p ms = Ok (p', ms') /\ kv_inv p' l' ms' /\ same_config p p' /\
    Forall2 (fun m m' => same_manager rid m m' /\ rb_get rid m' = [] /\ num_cached_block m' !! rid = None) ms ms'.
Proof.
  intros Hinv.
  destruct (each_inv (st_free rid) rid (fun _ m' => rb_get rid m' = [] /\ num_cached_block m' !! rid = None))
    with (ms := ms) (dn := @nil STManager) (p := p) (l := l) as (p' & l' & ms' & H & Hi & Hc & _ & HF).
  - intros oth p0 l0 m Hm Ha. unfold st_free. rewrite (attn_mamba_align m Ha).
    destruct (free_inv oth p0 l0 m rid Hm) as (p1 & m1 & H & H1 & H2 & H3 & H4 & H5 & H6 & H7). by eexists p1, _, m1.
  - done.
  - by exists p', l', ms'.
Qed.

(** [coordinator.remove_skipped_blocks]. *)
Lemma remove_all_inv rid total p l ms :
  kv_inv p l ms ->
  exists p' l' ms', each_manager (st_remove_skipped_blocks rid total) p ms = Ok (p', ms') /\ kv_inv p' l' ms' /\
    same_config p p' /\ same_hashes p p' /\
    Forall2 (fun m m' => same_manager rid m m' /\ length (rb_get rid m') = length (rb_get rid m) /\
      num_cached_block m' !! rid = num_cached_block m !! rid) ms ms'.
Proof.
  intros Hinv.
  apply (each_inv (st_remove_skipped_blocks rid total) rid (fun m m' => length (rb_get rid m') = length (rb_get rid m) /\
      num_cached_block m' !! rid = num_cached_block m !! rid)) with (dn := []) (l := l); [|done].
  intros oth p0 l0 m Hm Ha.
  assert (st_remove_skipped_blocks rid total p0 m = base_remove_skipped_blocks rid total p0 m) as ->.
  { unfold st_remove_skipped_blocks, attn_manager in *. by destruct (st_class m). }
  destruct (remove_skipped_inv oth p0 l0 m rid total Hm) as (p1 & m1 & fr & H & H1 & H2 & H3 & H4 & H5 & H6 & H7 & H8 & _).
  by eexists p1, _, m1.
Qed.

(** ** Allocation over the managers *)

Section Slots.
Context (use_int : bool) (rid : string) (num_local num_external slots : Z).
Context (Hlocal : 0 <= num_local) (Hexternal : 0 <= num_external).
Let total : Z := num_local + num_external.

(** What [allocate_new_computed_blocks] does for one manager: blocks for the external
    tokens inside the window, and touched blocks that leave the free queue. *)
Definition ext_tokens (m : STManager) : Z :=
  if 0 <? skipped_blocks m total then Z.min (total - get_num_skipped_tokens m total) num_external else num_external.
Definition ext_blocks (m : STManager) (c : list blkref) : Z :=
  if 0 <? ext_tokens m then cdiv total (st_block_size m) - Z.max (skipped_blocks m total) (zlen c) else 0.
Definition touch_cost (p : BlockPool) (m : STManager) (c : list blkref) : Z :=
  get_num_evictable_blocks p (drop (Z.to_nat (skipped_blocks m total)) c).
Definition start_len (m : STManager) (c : list blkref) : Z :=
  Z.max (skipped_blocks m total) (zlen c) + ext_blocks m c.
(** The blocks [allocate_new_blocks] adds to a list of [n] blocks. *)
Definition tail_blocks (m : STManager) (n : Z) : Z := Z.max 0 (cdiv slots (st_block_size m) - n).

(** A request that is not running yet, with the blocks of its prefix hit. *)
Record new_ok (p : BlockPool) (m : STManager) (c : list blkref) : Prop := {
  no_blocks : rb_get rid m = [];
  no_cached : num_cached_block m !! rid = None;
  no_computed : computed_ok p c;
  no_caching : st_enable_caching m = false -> c = [];
  no_len : zlen c * st_block_size m <= num_local;
}.

Lemma skipped_range m : attn_manager m -> 0 < st_block_size m ->
  0 <= get_num_skipped_tokens m total <= total /\ 0 <= skipped_blocks m total <= total / st_block_size m.
Proof.
  intros Ha Hbs. assert (Ht : 0 <= total) by (subst total; lia).
  assert (H : 0 <= get_num_skipped_tokens m total <= total).
  { unfold attn_manager, get_num_skipped_tokens in *. destruct (st_class m), (st_spec m); try done; try lia.
    - unfold sliding_num_skipped_tokens. lia.
    - unfold chunked_num_skipped_tokens. pose proof (Z.mul_div_le total attention_chunk_size Ha).
      pose proof (Z.div_pos total attention_chunk_size Ht Ha). nia. }
  split; [done|]. unfold skipped_blocks. split; [apply Z.div_pos; lia|apply Z.div_le_mono; lia].
Qed.

Lemma len_le_div n bs t : 0 < bs -> n * bs <= t -> n <= t / bs.
Proof. intros Hb Hn. apply Z.div_le_lower_bound; lia. Qed.

Lemma ext_blocks_nonneg p m c : attn_manager m -> 0 < st_block_size m -> new_ok p m c -> 0 <= ext_blocks m c.
Proof.
  intros Ha Hbs Hn. destruct (skipped_range m Ha Hbs) as [_ Hsk]. unfold ext_blocks. destruct (0 <? ext_tokens m); [|done].
  pose proof (div_le_cdiv total (st_block_size m) Hbs).
  pose proof (len_le_div (zlen c) (st_block_size m) total Hbs ltac:(pose proof (no_len _ _ _ Hn); subst total; lia)). lia.
Qed.

Lemma touch_cost_nonneg p m c : 0 <= touch_cost p m c.
Proof. unfold touch_cost, get_num_evictable_blocks, zlen. lia. Qed.

Lemma filter_length_mono {A} (P Q : A -> Prop) `{forall x, Decision (P x), forall x, Decision (Q x)} (xs : list A) :
  (forall x, x ∈ xs -> P x -> Q x) -> (length (filter P xs) <= length (filter Q xs))%nat.
Proof.
  induction xs as [|x xs IH]; intros HPQ; [done|]. rewrite !filter_cons.
  ospecialize (IH _); [intros y Hy; apply HPQ; by constructor|]. pose proof (HPQ x ltac:(constructor)).
  repeat case_decide; cbn [length]; try lia. tauto.
Qed.

Lemma touch_cost_grows p p' l m c : pool_wf p l -> grows p p' -> computed_ok p c -> touch_cost p' m c <= touch_cost p m c.
Proof.
  intros Hwf Hg Hok. unfold touch_cost, get_num_evictable_blocks, zlen. apply Nat2Z.inj_le, filter_length_mono.
  intros b Hb%(subseteq_drop _) [Hr Hz]. destruct (Hg b) as (_ & Hn & Hle). rewrite Hn in Hz. split; [|done].
  destruct (in_pool_cases p l [] b Hwf (proj1 (proj1 Hok b Hb))) as [(_ & Hz' & _)|[_ Hv]]; [congruence|].
  pose proof (pi_ref _ _ _ Hwf b Hv). lia.
Qed.

Lemma computed_ok_same p p' c : same_config p p' -> same_hashes p p' -> computed_ok p c -> computed_ok p' c.
Proof.
  intros Hc Hh [Hin Hnd]. split; [|by apply (nodup_valid_same p)]. intros b Hb. destruct (Hin b Hb) as [Hp Hs].
  split; [by apply (in_pool_same p)|]. intros Hv. rewrite Hh. apply Hs. by apply (valid_same p p'); [apply Hc|].
Qed.

Lemma new_ok_same p p' m c : same_config p p' -> same_hashes p p' -> new_ok p m c -> new_ok p' m c.
Proof. intros Hc Hh []. split; try done. by eapply computed_ok_same. Qed.

Lemma computed_loop_inv (mcs : list (STManager * list blkref)) dn p l :
  kv_inv p l (dn ++ mcs.*1) -> (forall mc, mc ∈ mcs -> new_ok p mc.1 mc.2) ->
  num_external <= 0 \/ (length mcs <= 1)%nat ->
  let cost := zsum (fun mc => ext_blocks mc.1 mc.2 + touch_cost p mc.1 mc.2) mcs in
  cost <= zlen l ->
  exists p' l' ms', computed_loop use_int rid mcs.*2 num_local num_external p mcs.*1 = Ok (p', ms') /\
    kv_inv p' l' (dn ++ ms') /\ same_config p p' /\ zlen l - cost <= zlen l' /\
    Forall2 (fun mc m' => same_manager rid mc.1 m' /\ zlen (rb_get rid m') = start_len mc.1 mc.2) mcs ms'.
Proof.
  revert dn p l. induction mcs as [|[m c] mcs IH]; intros dn p l Hinv Hok Hext cost Hroom; cbn [fmap list_fmap computed_loop].
  { exists p, l, []. split_and!; try done. subst cost. cbn. lia. }
  cbn [fst snd head tail of_option mbind result_bind].
  destruct (kv_focus _ _ _ _ _ Hinv) as [Hm Ha]. cbn [fst] in Hm, Ha.
  assert (Hmc : new_ok p m c) by (apply (Hok (m, c)); constructor).
  assert (Hrest : forall mc, mc ∈ mcs -> new_ok p mc.1 mc.2) by (intros; apply Hok; by constructor).
  pose proof (ext_blocks_nonneg p m c Ha (si_bs _ _ _ _ Hm) Hmc) as HE.
  assert (Hnn : 0 <= zsum (fun mc => ext_blocks mc.1 mc.2 + touch_cost p mc.1 mc.2) mcs).
  { apply zsum_nonneg. intros mc Hmc'. pose proof (touch_cost_nonneg p mc.1 mc.2).
    assert (Hl : st_local p mc.1) by (apply (ki_local _ _ _ Hinv); apply elem_of_app; right; apply elem_of_cons; right;
      by apply list_elem_of_fmap_2).
    pose proof (ext_blocks_nonneg p mc.1 mc.2 (sl_attn _ _ Hl) (sl_bs _ _ Hl) (Hrest mc Hmc')). lia. }
  assert (Hcost : cost = ext_blocks m c + touch_cost p m c +
    zsum (fun mc => ext_blocks mc.1 mc.2 + touch_cost p mc.1 mc.2) mcs) by done.
  destruct (computed_inv use_int _ p l m rid c num_local num_external Hm (no_blocks _ _ _ Hmc) (no_cached _ _ _ Hmc)
    (no_computed _ _ _ Hmc) (no_caching _ _ _ Hmc)) as (p1 & l1 & m1 & Heq & Hi1 & Hc1 & Hs1 & Hl1 & Hlen & _ & Hf1 & Hg1).
  { apply (skipped_range m Ha (si_bs _ _ _ _ Hm)). }
  { exact HE. }
  { fold total. fold (ext_tokens m). fold (ext_blocks m c). fold (touch_cost p m c). lia. }
  assert (st_allocate_new_computed_blocks use_int rid c num_local num_external p m =
          base_allocate_new_computed_blocks use_int rid c num_local num_external p m) as ->.
  { unfold st_allocate_new_computed_blocks, attn_manager in *. by destruct (st_class m). }
  rewrite Heq. cbn [mbind result_bind].
  fold total in Hl1. fold (ext_tokens m) in Hl1. fold (ext_blocks m c) in Hl1. fold (touch_cost p m c) in Hl1.
  fold total in Hlen. fold (ext_tokens m) in Hlen. fold (ext_blocks m c) in Hlen. fold (start_len m c) in Hlen.
  pose proof (kv_put rid _ _ _ _ _ _ _ _ Hinv Hi1 Hc1 Hs1 Hf1) as Hinv1.
  rewrite cons_middle, app_assoc in Hinv1.
  assert (Hgrow : mcs = [] \/ grows p p1).
  { destruct Hext as [He|He]; [right; by apply Hg1|left]. destruct mcs; [done|cbn in He; lia]. }
  destruct (IH _ _ _ Hinv1) as (p2 & l2 & ms2 & -> & Hi2 & Hc2 & Hl2 & HF).
  { intros mc Hin. destruct Hgrow as [->|Hg]; [by apply elem_of_nil in Hin|].
    apply (new_ok_same p); [done|intros r; apply Hg|by apply Hrest]. }
  { destruct Hext as [|He]; [by left|right]. cbn in He. lia. }
  all: assert (Hle : zsum (fun mc => ext_blocks mc.1 mc.2 + touch_cost p1 mc.1 mc.2) mcs <=
                     zsum (fun mc => ext_blocks mc.1 mc.2 + touch_cost p mc.1 mc.2) mcs) by
    (apply zsum_le; intros mc Hin; destruct Hgrow as [->|Hg]; [by apply elem_of_nil in Hin|];
     pose proof (touch_cost_grows p p1 l mc.1 mc.2 (ki_pool _ _ _ Hinv) Hg (no_computed _ _ _ (Hrest mc Hin))); lia).
  { lia. }
  cbn [mbind result_bind]. exists p2, l2, (m1 :: ms2). split_and!; try done.
  - by rewrite cons_middle, app_assoc.
  - by etrans.
  - lia.
  - by constructor.
Qed.

End Slots.

Lemma new_blocks_loop_inv use_int rid slots main enc ms dn p l :
  kv_inv p l (dn ++ ms) ->
  let cost := zsum (fun m => tail_blocks slots m (zlen (rb_get rid m))) ms in
  cost <= zlen l ->
  exists bss p' l' ms', new_blocks_loop use_int rid slots main enc p ms = Ok (bss, p', ms') /\
    kv_inv p' l' (dn ++ ms') /\ same_config p p' /\ zlen l' = zlen l - cost /\
    Forall2 (fun m m' => same_manager rid m m' /\ num_cached_block m' !! rid = num_cached_block m !! rid) ms ms' /\
    Forall2 (fun mb m' => rb_get rid m' = rb_get rid mb.1 ++ mb.2 /\ zlen mb.2 = tail_blocks slots mb.1 (zlen (rb_get rid mb.1)))
      (zip ms bss) ms' /\ length bss = length ms /\
    (forall bs b, bs ∈ bss -> b ∈ bs -> b ∈ l).
Proof.
  revert dn p l. induction ms as [|m ms IH]; intros dn p l Hinv cost Hroom; cbn [new_blocks_loop].
  { exists [], p, l, []. split_and!; try done; [subst cost; cbn; lia|]. by intros ? ? ?%elem_of_nil. }
  destruct (kv_focus _ _ _ _ _ Hinv) as [Hm Ha].
  assert (Hcost : cost = tail_blocks slots m (zlen (rb_get rid m)) + zsum (fun m => tail_blocks slots m (zlen (rb_get rid m))) ms) by done.
  assert (Hnn : 0 <= zsum (fun m => tail_blocks slots m (zlen (rb_get rid m))) ms) by (apply zsum_nonneg; intros; unfold tail_blocks; lia).
  assert (Ht : 0 <= tail_blocks slots m (zlen (rb_get rid m)) <= zlen l) by (unfold tail_blocks in *; lia).
  destruct (new_blocks_inv use_int _ p l m rid slots Hm) as (p1 & m1 & Heq & Hi1 & Hc1 & Hs1 & Hg1 & Hn1 & Hf1).
  { exact (proj2 Ht). }
  fold (tail_blocks slots m (zlen (rb_get rid m))) in Heq, Hi1, Hg1. set (n := tail_blocks slots m (zlen (rb_get rid m))) in *.
  assert (st_allocate_new_blocks use_int rid
            match st_class m with CrossAttentionManager => enc | _ => slots end main p m =
          base_allocate_new_blocks use_int rid slots p m) as ->.
  { unfold st_allocate_new_blocks, attn_manager in *. by destruct (st_class m). }
  rewrite Heq. cbn [mbind result_bind].
  pose proof (kv_put rid _ _ _ _ _ _ _ _ Hinv Hi1 Hc1 Hs1 Hf1) as Hinv1. rewrite cons_middle, app_assoc in Hinv1.
  assert (Hl1 : zlen (drop (Z.to_nat n) l) = zlen l - n) by (unfold zlen in *; rewrite length_drop; lia).
  destruct (IH _ _ _ Hinv1 ltac:(lia)) as (bss & p2 & l2 & ms2 & -> & Hi2 & Hc2 & Hl2 & HF & HG & HL & Hbs).
  cbn [mbind result_bind]. exists (take (Z.to_nat n) l :: bss), p2, l2, (m1 :: ms2). split_and!; try done.
  - by rewrite cons_middle, app_assoc.
  - by etrans.
  - lia.
  - by constructor.
  - cbn [zip zip_with]. constructor; [|done]. cbn. split; [done|]. unfold zlen in *. rewrite length_take. lia.
  - cbn. lia.
  - intros bs b [->|Hin]%elem_of_cons Hb; [by eapply (subseteq_take (Z.to_nat n))|].
    eapply (subseteq_drop (Z.to_nat n)). by eapply Hbs.
Qed.

(** ** The capacity check *)

Lemma sum_need rid slots total enc main p (need : STManager * list blkref -> Z) mcs :
  (forall mc, mc ∈ mcs -> attn_manager mc.1 /\
     base_num_blocks_to_allocate rid slots mc.2 total p mc.1 = Ok (need mc)) ->
  sum_blocks_to_allocate rid slots mcs.*2 enc total main p mcs.*1 = Ok (zsum need mcs, mcs.*1).
Proof.
  induction mcs as [|[m c] mcs IH]; intros H; [done|]. cbn [fmap list_fmap sum_blocks_to_allocate fst snd head tail of_option].
  destruct (H (m, c) ltac:(constructor)) as [Ha Hn]. cbn [fst snd] in Ha, Hn.
  assert (Hst : st_num_blocks_to_allocate rid slots c total main p m = Ok (need (m, c), m)).
  { unfold st_num_blocks_to_allocate, attn_manager in *. by destruct (st_class m); rewrite ?Hn. }
  assert (Hcl : st_class m <> CrossAttentionManager) by (unfold attn_manager in Ha; by destruct (st_class m)).
  destruct (st_class m); try done; cbn [mbind result_bind]; rewrite Hst; cbn [mbind result_bind];
    rewrite IH by (intros; apply H; by constructor); done.
Qed.

(** A request that has run before, or a new one without hits. *)
Definition running_ok (rid : string) (total : Z) (m : STManager) : Prop :=
  num_cached_block m !! rid = None -> skipped_blocks m total <= zlen (rb_get rid m).

Lemma need_running rid slots total p m :
  running_ok rid total m ->
  base_num_blocks_to_allocate rid slots [] total p m = Ok (tail_blocks slots m (zlen (rb_get rid m))).
Proof.
  unfold running_ok, base_num_blocks_to_allocate, tail_blocks. intros Hr.
  destruct (num_cached_block m !! rid).
  - change (zlen (@nil blkref) =? 0) with true. cbn [py_assert mbind result_bind]. f_equal. lia.
  - specialize (Hr eq_refl). fold (skipped_blocks m total). rewrite drop_nil. change (zlen (@nil blkref)) with 0.
    change (get_num_evictable_blocks p []) with 0. f_equal. lia.
Qed.

Lemma need_new rid num_local num_external slots p m c :
  0 <= num_local -> 0 <= num_external -> num_local + num_external <= slots ->
  attn_manager m -> 0 < st_block_size m -> new_ok rid num_local p m c ->
  base_num_blocks_to_allocate rid slots c (num_local + num_external) p m =
  Ok (ext_blocks num_local num_external m c + touch_cost num_local num_external p m c +
      tail_blocks slots m (start_len num_local num_external m c)).
Proof.
  intros Hl He Hs Ha Hbs Hn. unfold base_num_blocks_to_allocate. rewrite (no_cached _ _ _ _ _ Hn), (no_blocks _ _ _ _ _ Hn).
  fold (skipped_blocks m (num_local + num_external)). change (zlen (@nil blkref)) with 0.
  destruct (skipped_range num_local num_external Hl He m Ha Hbs) as [_ Hsk].
  pose proof (ext_blocks_nonneg rid num_local num_external Hl He p m c Ha Hbs Hn) as HE.
  replace (Z.max 0 (skipped_blocks m (num_local + num_external) - 0)) with (skipped_blocks m (num_local + num_external)) by lia. fold (touch_cost num_local num_external p m c). f_equal.
  rewrite Z.add_0_r. pose proof (cdiv_mono (num_local + num_external) slots (st_block_size m) Hbs Hs) as Hm.
  unfold tail_blocks, start_len. unfold ext_blocks in *. destruct (0 <? ext_tokens num_local num_external m); lia.
Qed.

(** ** Caching over the managers *)

Lemma memo_update_id r r' : memo_update r r' -> request_id r' = request_id r.
Proof. by intros [[memo ->] _]. Qed.

Lemma request_ok_update p p' r r' n : same_config p p' -> memo_update r r' -> request_ok p r n -> request_ok p' r' n.
Proof.
  intros (_ & _ & Hh & _ & _ & He) [[memo ->] Hm] [H1 H2 H3]. split; [done|by rewrite Hh|].
  rewrite He. intros E. destruct (H3 E). split; [done|by apply Hm].
Qed.

Lemma cache_loop_inv use_int r n ms dn p l :
  kv_inv p l (dn ++ ms) -> enable_caching p = true -> request_ok p r n ->
  (forall m, m ∈ ms -> n / st_block_size m <= zlen (rb_get (request_id r) m)) ->
  exists r' p' ms', cache_loop use_int r n p ms = Ok (r', p', ms') /\ kv_inv p' l (dn ++ ms') /\ same_config p p' /\
    memo_update r r' /\
    Forall2 (fun m m' => same_manager (request_id r) m m' /\ rb_get (request_id r) m' = rb_get (request_id r) m /\
      default 0 (num_cached_block m' !! request_id r) =
        Z.max (default 0 (num_cached_block m !! request_id r)) (n / st_block_size m)) ms ms'.
Proof.
  revert r dn p. induction ms as [|m ms IH]; intros r dn p Hinv Hca Hr Hlen; cbn [cache_loop].
  { exists r, p, []. split_and!; try done. apply memo_update_refl. }
  destruct (kv_focus _ _ _ _ _ Hinv) as [Hm Ha].
  assert (Hca' : st_enable_caching m = true) by (by rewrite <- (si_caching _ _ _ _ Hm)).
  assert (Hloc : st_local p m) by (apply (ki_local _ _ _ Hinv); set_solver).
  destruct (cache_inv use_int _ p l m r n Hm Hca' (sl_hash _ _ Hloc Hca') Hr) as
    (r1 & p1 & m1 & Heq & Hi1 & Hc1 & Hs1 & Hg1 & Hn1 & Hf1 & Hmu); [apply Hlen; constructor|].
  assert (st_cache_blocks use_int r n p m = base_cache_blocks use_int r n p m) as ->.
  { unfold st_cache_blocks, attn_manager in *. by destruct (st_class m). }
  rewrite Heq. cbn [mbind result_bind].
  pose proof (kv_put _ _ _ _ _ _ _ _ _ Hinv Hi1 Hc1 Hs1 Hf1) as Hinv1. rewrite cons_middle, app_assoc in Hinv1.
  destruct (IH r1 _ _ Hinv1) as (r2 & p2 & ms2 & -> & Hi2 & Hc2 & Hmu2 & HF).
  { by rewrite (proj1 (proj2 Hc1)). } { by eapply request_ok_update. }
  { intros m2 Hm2. rewrite (memo_update_id _ _ Hmu). apply Hlen. by constructor. }
  rewrite (memo_update_id _ _ Hmu) in HF. cbn [mbind result_bind]. exists r2, p2, (m1 :: ms2). split_and!; try done.
  - by rewrite cons_middle, app_assoc.
  - by etrans.
  - by eapply memo_update_trans.
  - by constructor.
Qed.

(** ** [allocate_slots] *)

Lemma Forall2_zip_trans {A B} (S T : A -> A -> Prop) (Q : A * B -> A -> Prop) (xs : list A) (ys : list B) zs ws :
  (forall x y z w, Q (x, y) z -> S z w -> T x w) -> length ys = length xs ->
  Forall2 Q (zip xs ys) zs -> Forall2 S zs ws -> Forall2 T xs ws.
Proof.
  intros H Hl HQ. revert ys zs ws Hl HQ.
  induction xs as [|x xs IH]; intros [|y ys] zs ws Hl HQ HS; cbn in *; try lia.
  - apply Forall2_nil_inv_l in HQ as ->. apply Forall2_nil_inv_l in HS as ->. constructor.
  - apply Forall2_cons_inv_l in HQ as (z & zs' & Hz & HQ & ->). apply Forall2_cons_inv_l in HS as (w & ws' & Hw & HS & ->).
    constructor; [by eapply H|]. eapply IH; [|done..]. lia.
Qed.

(** The last stage: every list reaches the slots. *)
Definition covers (rid : string) (slots : Z) (m m' : STManager) : Prop :=
  same_manager rid m m' /\ cdiv slots (st_block_size m) <= zlen (rb_get rid m').

Lemma new_blocks_cover use_int rid slots main enc p l ms :
  kv_inv p l ms -> zsum (fun m => tail_blocks slots m (zlen (rb_get rid m))) ms <= zlen l ->
  exists bss p' l' ms', new_blocks_loop use_int rid slots main enc p ms = Ok (bss, p', ms') /\ kv_inv p' l' ms' /\
    same_config p p' /\ Forall2 (covers rid slots) ms ms'.
Proof.
  intros Hinv Hroom. destruct (new_blocks_loop_inv use_int rid slots main enc ms [] p l Hinv Hroom)
    as (bss & p3 & l3 & ms3 & Hnl & Hi3 & Hc3 & _ & HF & HG & HL & _).
  exists bss, p3, l3, ms3. split_and!; try done.
  assert (HC : Forall2 (fun m m' => cdiv slots (st_block_size m) <= zlen (rb_get rid m')) ms ms3).
  { refine (Forall2_zip_trans eq _ _ ms bss ms3 ms3 _ HL HG _); [|by apply Forall_Forall2_diag, Forall_true].
    cbn. intros m b m' ? [Hr Hb'] <-. rewrite Hr. unfold zlen, tail_blocks in *. rewrite length_app. lia. }
  clear -HF HC. induction HF as [|a b ms2 ms3 [H1 _] _ IH]; [constructor|].
  apply Forall2_cons in HC as [H2 HC]. constructor; [done|by apply IH].
Qed.

(** What the check and the later stages have in common. *)
Definition slots_stages (use_int : bool) (rid : string) (num_local num_external slots enc main : Z) (uses : bool)
    (p : BlockPool) (l : list blkref) (ms : list STManager) (cs : list (list blkref)) : Prop :=
  exists need, sum_blocks_to_allocate rid slots cs enc (num_local + num_external) main p ms = Ok (need, ms) /\
    (need <= zlen l -> exists p2 ms2 bss p3 ms3 l3,
      (if uses then computed_loop use_int rid cs num_local num_external p ms else Ok (p, ms)) = Ok (p2, ms2) /\
      new_blocks_loop use_int rid slots main enc p2 ms2 = Ok (bss, p3, ms3) /\ kv_inv p3 l3 ms3 /\ same_config p p3 /\
      Forall2 (covers rid slots) ms ms3).

Lemma slots_new use_int rid num_local num_external slots enc main p l mcs :
  kv_inv p l mcs.*1 -> 0 <= num_local -> 0 <= num_external -> num_local + num_external <= slots ->
  (num_external = 0 \/ (length mcs <= 1)%nat) -> (forall mc, mc ∈ mcs -> new_ok rid num_local p mc.1 mc.2) ->
  slots_stages use_int rid num_local num_external slots enc main true p l mcs.*1 mcs.*2.
Proof.
  intros Hinv Hl He Hs Hg Hok.
  set (cost := fun mc : STManager * list blkref =>
    ext_blocks num_local num_external mc.1 mc.2 + touch_cost num_local num_external p mc.1 mc.2).
  set (tl := fun mc : STManager * list blkref => tail_blocks slots mc.1 (start_len num_local num_external mc.1 mc.2)).
  exists (zsum (fun mc => cost mc + tl mc) mcs). split.
  { apply sum_need. intros mc Hin.
    destruct (ki_local _ _ _ Hinv mc.1 ltac:(by apply list_elem_of_fmap_2)). split; [done|]. by apply need_new; try apply Hok. }
  intros Hroom.
  assert (Hsum : zsum (fun mc => cost mc + tl mc) mcs = zsum cost mcs + zsum tl mcs).
  { clear. induction mcs; cbn; [done|]. unfold zsum in *. lia. }
  assert (Htl : 0 <= zsum tl mcs) by (apply zsum_nonneg; intros; unfold tl, tail_blocks; lia).
  destruct (computed_loop_inv use_int rid num_local num_external Hl He mcs [] p l)
    as (p2 & l2 & ms2 & Hcl & Hi2 & Hc2 & Hl2 & HF2); try done; [lia|fold cost; lia|].
  fold cost in Hl2. cbn [app] in Hi2.
  assert (Htail : zsum (fun m => tail_blocks slots m (zlen (rb_get rid m))) ms2 = zsum tl mcs).
  { clear -HF2. induction HF2 as [|mc m' mcs ms2 [Hs Hlen] _ IH]; cbn; [done|]. unfold zsum in IH. rewrite IH.
    unfold tl, tail_blocks. rewrite Hlen. destruct Hs as (_ & _ & -> & _). done. }
  destruct (new_blocks_cover use_int rid slots main enc p2 l2 ms2 Hi2 ltac:(lia)) as (bss & p3 & l3 & ms3 & Hnl & Hi3 & Hc3 & HC).
  exists p2, ms2, bss, p3, ms3, l3. split_and!; try done; [by etrans|].
  clear -HF2 HC. revert ms3 HC. induction HF2 as [|mc m2 mcs ms2 [Hs _] _ IH]; intros ms3 HC.
  - by apply Forall2_nil_inv_l in HC as ->.
  - apply Forall2_cons_inv_l in HC as (m3 & ms3' & [Hs3 Hcv] & HC & ->). constructor; [|by apply IH].
    split; [by etrans|]. by destruct Hs as (_ & _ & <- & _).
Qed.

Lemma slots_running use_int rid num_local slots enc main p l ms :
  kv_inv p l ms -> (forall m, m ∈ ms -> running_ok rid num_local m) ->
  slots_stages use_int rid num_local 0 slots enc main false p l ms (replicate (length ms) []).
Proof.
  intros Hinv Hok. set (mcs := (fun m => (m, @nil blkref)) <$> ms).
  assert (Hz1 : mcs.*1 = ms) by (subst mcs; rewrite <- list_fmap_compose; apply list_fmap_id).
  assert (Hz2 : mcs.*2 = replicate (length ms) []).
  { subst mcs. rewrite <- list_fmap_compose. clear. induction ms; cbn; [done|]. by f_equal. }
  exists (zsum (fun m => tail_blocks slots m (zlen (rb_get rid m))) ms). split.
  - rewrite Z.add_0_r, <- Hz2. rewrite <- Hz1 at 1.
    rewrite (sum_need rid slots num_local enc main p (fun mc => tail_blocks slots mc.1 (zlen (rb_get rid mc.1))) mcs).
    + rewrite Hz1. f_equal. f_equal. subst mcs. clear. induction ms; cbn; [done|]. by f_equal.
    + intros mc (m & -> & Hin)%list_elem_of_fmap. cbn. destruct (ki_local _ _ _ Hinv m Hin). split; [done|].
      by apply need_running, Hok.
  - intros Hroom. destruct (new_blocks_cover use_int rid slots main enc p l ms Hinv Hroom) as (bss & p3 & l3 & ms3 & ? & ? & ? & ?).
    by exists p, ms, bss, p3, ms3, l3.
Qed.

Definition managers (k : KVCacheManager) : list STManager := single_type_managers (coordinator k).

Record kvm_inv (k : KVCacheManager) (l : list blkref) : Prop := {
  vi_inv : kv_inv (km_pool k) l (managers k);
  vi_groups : num_kv_cache_groups k = length (managers k);
  vi_caching : km_enable_caching k = enable_caching (km_pool k);
}.

(** Whether [allocate_slots] calls [allocate_new_computed_blocks]. *)
Definition uses_prefix (ncb : option KVCacheBlocks) (ext : Z) : bool :=
  match default EmptyBlocks ncb with EmptyBlocks => false | Blocks _ => true end || (0 <? ext).

(** What the scheduler guarantees when it calls [allocate_slots]. *)
Record slots_ok (r : Request) (new comp : Z) (ncb : option KVCacheBlocks) (look ext : Z) (k : KVCacheManager) : Prop := {
  so_nonneg : 0 <= new /\ 0 <= comp /\ 0 <= look /\ 0 <= ext /\ 0 <= num_computed_tokens r;
  so_some : 0 < new \/ 0 < ext;
  so_max : num_computed_tokens r + comp + ext + new <= km_max_model_len k;
  so_ext : ext = 0 \/ (length (managers k) <= 1)%nat;
  so_req : km_enable_caching k = true ->
    request_ok (km_pool k) r (Z.min (num_computed_tokens r + comp + ext + new) (num_tokens r));
  so_new : uses_prefix ncb ext = true ->
    Forall2 (new_ok (request_id r) (num_computed_tokens r + comp) (km_pool k)) (managers k)
      (blocks_of (length (managers k)) (default EmptyBlocks ncb));
  so_run : uses_prefix ncb ext = false -> forall m, m ∈ managers k -> running_ok (request_id r) (num_computed_tokens r + comp) m;
}.

Lemma stages_same use_int rid num_local ext slots enc main uses p p1 l1 ms ms1 cs :
  kv_inv p1 l1 ms1 -> same_config p p1 -> same_hashes p p1 ->
  Forall2 (fun m m' => same_manager rid m m' /\ length (rb_get rid m') = length (rb_get rid m) /\
    num_cached_block m' !! rid = num_cached_block m !! rid) ms ms1 ->
  0 <= num_local -> 0 <= ext -> num_local + ext <= slots -> (ext = 0 \/ (length ms <= 1)%nat) ->
  (uses = true -> Forall2 (new_ok rid num_local p) ms cs) ->
  (uses = false -> ext = 0 /\ cs = replicate (length ms) [] /\ forall m, m ∈ ms -> running_ok rid num_local m) ->
  slots_stages use_int rid num_local ext slots enc main uses p1 l1 ms1 cs.
Proof.
  intros Hinv Hc Hh HF Hl He Hs Hg Hnew Hrun. pose proof (Forall2_length _ _ _ HF) as Hlen. destruct uses.
  - specialize (Hnew eq_refl). pose proof (Forall2_length _ _ _ Hnew) as Hlc.
    assert (Hz : exists mcs, mcs.*1 = ms1 /\ mcs.*2 = cs) by (exists (zip ms1 cs); rewrite fst_zip, snd_zip by lia; done).
    destruct Hz as (mcs & <- & <-). apply slots_new; try done.
    + destruct Hg as [|Hg]; [by left|right]. rewrite length_fmap in Hlen. lia.
    + intros [m1 c] Hin. apply list_elem_of_lookup in Hin as [i Hi]. cbn [fst snd].
      assert (H1 : mcs.*1 !! i = Some m1) by (by rewrite list_lookup_fmap, Hi).
      assert (H2 : mcs.*2 !! i = Some c) by (by rewrite list_lookup_fmap, Hi).
      destruct (Forall2_lookup_r _ _ _ _ _ HF H1) as (m & Hm & (_ & _ & E3 & E4 & _) & Hb & Hn).
      destruct (Forall2_lookup_lr _ _ _ _ _ _ Hnew Hm H2) as [A1 A2 A3 A4 A5].
      split; rewrite ?E3, ?E4, ?Hn; try done; [|by eapply computed_ok_same]. rewrite A1 in Hb. by apply nil_length_inv in Hb.
  - destruct (Hrun eq_refl) as (-> & -> & Hok). rewrite Hlen. apply slots_running; [done|]. intros m1 [i Hi]%list_elem_of_lookup.
    destruct (Forall2_lookup_r _ _ _ _ _ HF Hi) as (m & Hm & (_ & E2 & E3 & _) & Hb & Hn).
    assert (Hmo : running_ok rid num_local m) by (apply Hok; by eapply list_elem_of_lookup_2).
    unfold running_ok, skipped_blocks, zlen in *. rewrite Hn, E3, Hb, (get_num_skipped_same m) by done. done.
Qed.

Lemma Forall2_compose (R1 R2 T : STManager -> STManager -> Prop) ms1 ms2 ms3 :
  (forall a b c, R1 a b -> R2 b c -> T a c) -> Forall2 R1 ms1 ms2 -> Forall2 R2 ms2 ms3 -> Forall2 T ms1 ms3.
Proof.
  intros H H1. revert ms3. induction H1 as [|a b ms1 ms2 Hab _ IH]; intros ms3 H2.
  - by apply Forall2_nil_inv_l in H2 as ->.
  - apply Forall2_cons_inv_l in H2 as (c & ms3' & Hbc & H2 & ->). constructor; [by eapply H|by apply IH].
Qed.
