(* ===== verification/KVCacheTheorems.v ===== *)
(** * What the KV cache manager guarantees

    The properties of [KVCacheManager] (vllm/v1/core/kv_cache_manager.py): with the
    calls the scheduler makes, [allocate_slots] never raises and gives the request its
    slots or refuses; freeing gives every block back; blocks that are still written
    to are never shared. *)
From S2P Require Import Prelude FreeQueue Request BlockHash KVCacheSpec BlockPool PoolSafety SingleTypeManager CacheHit Coordinator KVCacheManager KVCacheSafety KVCacheRun.

(** The outcome of a call that worked on the request [rid]. *)
Record step_ok (rid : string) (k k' : KVCacheManager) (l' : list blkref) : Prop := {
  ok_inv : kvm_inv k' l';
  ok_config : same_config (km_pool k) (km_pool k');
  ok_others : Forall2 (same_manager rid) (managers k) (managers k');
  ok_kind : co_kind (coordinator k') = co_kind (coordinator k);
}.

Lemma with_state_ok rid k l p' l' ms' c :
  kvm_inv k l -> kv_inv p' l' ms' -> same_config (km_pool k) p' -> Forall2 (same_manager rid) (managers k) ms' ->
  co_kind c = co_kind (coordinator k) ->
  step_ok rid k (set_coord (with_state p' ms' c) k) l'.
Proof.
  intros [_ Hg Hc] Hi Hcfg HF Hk. split; try done. split; [done| |].
  - cbn. unfold managers in *. cbn. rewrite Hg. by eapply Forall2_length.
  - cbn. rewrite Hc. symmetry. apply Hcfg.
Qed.

Lemma blocks_of_length n b : match b with EmptyBlocks => True | Blocks bs => length bs = n end -> length (blocks_of n b) = n.
Proof. destruct b; cbn; [by rewrite length_replicate|done]. Qed.

Lemma covers_trans rid slots a b c :
  same_manager rid a b /\ length (rb_get rid b) = length (rb_get rid a) /\
    num_cached_block b !! rid = num_cached_block a !! rid ->
  covers rid slots b c -> covers rid slots a c.
Proof. intros [Hab _] [Hbc Hcv]. split; [by etrans|]. by destruct Hab as (_ & _ & <- & _). Qed.

Lemma covers_same rid slots ms ms' : Forall2 (covers rid slots) ms ms' -> Forall2 (same_manager rid) ms ms'.
Proof. intros H. eapply Forall2_impl; [exact H|]. by intros ? ? [? _]. Qed.

Lemma covers_elem rid slots ms ms' m' :
  Forall2 (covers rid slots) ms ms' -> m' ∈ ms' -> cdiv slots (st_block_size m') <= zlen (rb_get rid m').
Proof.
  intros H [i Hi]%list_elem_of_lookup. destruct (Forall2_lookup_r _ _ _ _ _ H Hi) as (m & _ & (_ & _ & -> & _) & Hcv). done.
Qed.

Lemma covers_forall rid slots ms ms' :
  Forall2 (covers rid slots) ms ms' -> Forall (fun m => cdiv slots (st_block_size m) <= zlen (rb_get rid m)) ms'.
Proof. intros H. apply Forall_forall. intros m Hm. by eapply covers_elem. Qed.

(** The last stage of [allocate_slots] commits the full blocks. *)
Lemma cache_stage use_int r n slots delay k l c p3 ms3 l3 (nb : KVCacheBlocks) :
  kvm_inv k l -> kv_inv p3 l3 ms3 -> same_config (km_pool k) p3 ->
  Forall2 (covers (request_id r) slots) (managers k) ms3 -> co_kind c = co_kind (coordinator k) -> n <= slots ->
  (km_enable_caching k = true -> request_ok (km_pool k) r n) ->
  exists r' k', (if negb (km_enable_caching k) || delay then Ok (Some nb, r, set_coord (with_state p3 ms3 c) k)
      else '(r1, c5) ← co_cache_blocks use_int r n (with_state p3 ms3 c); Ok (Some nb, r1, set_coord c5 k))
      = Ok (Some nb, r', k') /\
    step_ok (request_id r) k k' l3 /\ memo_update r r' /\
    Forall (fun m => cdiv slots (st_block_size m) <= zlen (rb_get (request_id r) m)) (managers k').
Proof.
  intros Hinv Hi3 Hcfg3 HF Hkd Hn Hreq. destruct (negb (km_enable_caching k) || delay) eqn:Ed.
  { eexists r, _. split; [done|]. split_and!; [|apply memo_update_refl|by eapply covers_forall].
    apply (with_state_ok _ k l); try done. by eapply covers_same. }
  apply orb_false_iff in Ed as [Eca%negb_false_iff _].
  destruct (cache_loop_inv use_int r n ms3 [] p3 l3 Hi3) as (r4 & p4 & ms4 & Hcl & Hi4 & Hc4 & Hmu & HF4).
  { rewrite (proj1 (proj2 Hcfg3)), <- (vi_caching _ _ Hinv). done. }
  { eapply request_ok_update; [exact Hcfg3|apply memo_update_refl|by apply Hreq]. }
  { intros m Hm. pose proof (sl_bs _ _ (ki_local _ _ _ Hi3 m Hm)) as Hbs. eapply covers_elem in Hm; [|exact HF].
    etrans; [|exact Hm]. etrans; [apply div_le_cdiv; lia|]. apply cdiv_mono; lia. }
  unfold co_cache_blocks. cbn [single_type_managers with_state co_pool]. rewrite Hcl. cbn [mbind result_bind].
  assert (HF' : Forall2 (covers (request_id r) slots) (managers k) ms4).
  { eapply Forall2_compose; [|exact HF|exact HF4]. intros a b d [Hab Hcv] (Hbc & Hg & _). split; [by etrans|]. by rewrite Hg. }
  eexists r4, _. split; [done|]. split_and!; [|done|by eapply covers_forall].
  apply (with_state_ok _ k l); try done; [by etrans|]. by eapply covers_same.
Qed.

(** The request keeps as many blocks and as many cached ones. *)
Definition same_length (rid : string) (m m' : STManager) : Prop :=
  length (rb_get rid m') = length (rb_get rid m) /\ num_cached_block m' !! rid = num_cached_block m !! rid.

Lemma allocate_slots_spec use_int r new comp ncb look ext delay enc k l :
  kvm_inv k l -> slots_ok r new comp ncb look ext k ->
  let total := num_computed_tokens r + comp + ext in
  let slots := Z.min (total + new + look) (km_max_model_len k) in
  exists res r' k' l', allocate_slots use_int r new comp ncb look ext delay enc k = Ok (res, r', k') /\
    step_ok (request_id r) k k' l' /\ memo_update r r' /\
    match res with
    | None => Forall2 (same_length (request_id r)) (managers k) (managers k') /\
        exists need, get_num_free_blocks (km_pool k') < need /\
        co_num_blocks_to_allocate (request_id r) slots (blocks_of (num_kv_cache_groups k) (default EmptyBlocks ncb)) enc
          total (total + new) (coordinator k') = Ok (need, coordinator k')
    | Some _ => Forall (fun m => cdiv slots (st_block_size m) <= zlen (rb_get (request_id r) m)) (managers k')
    end.
Proof.
  intros Hinv Hok total slots. destruct Hok as [(H1 & H2 & H3 & H4 & H5) Hsome Hmax Hext Hreq Hnew Hrun].
  set (rid := request_id r) in *. set (num_local := num_computed_tokens r + comp) in *.
  unfold allocate_slots.
  assert ((new =? 0) && (ext =? 0) = false) as -> by (destruct (Z.eqb_spec new 0), (Z.eqb_spec ext 0); cbn; lia).
  cbv zeta. fold num_local. rewrite (Z.min_l (num_local + ext)) by lia.
  change (num_local + ext) with total. fold slots.
  destruct (remove_all_inv rid total _ _ _ (vi_inv _ _ Hinv)) as (p1 & l1 & ms1 & Hrem & Hi1 & Hc1 & Hh1 & HF1).
  unfold co_remove_skipped_blocks, co_each. unfold managers, km_pool in Hrem. fold rid. rewrite Hrem. cbn [mbind result_bind].
  rewrite (vi_groups _ _ Hinv). set (cs := blocks_of (length (managers k)) (default EmptyBlocks ncb)) in *.
  fold (uses_prefix ncb ext).
  destruct (stages_same use_int rid num_local ext slots enc (total + new) (uses_prefix ncb ext) _ _ l1 _ _ cs Hi1 Hc1 Hh1 HF1)
    as (need & Hneed & Hstage); try done; try lia.
  { intros Eu. unfold uses_prefix in Eu. apply orb_false_iff in Eu as [Eb Ee]. apply Z.ltb_ge in Ee.
    split_and!; [lia| |]. - subst cs. by destruct (default EmptyBlocks ncb). - apply Hrun. unfold uses_prefix. apply orb_false_iff.
    split; [done|by apply Z.ltb_ge]. }
  unfold co_num_blocks_to_allocate at 1. cbn [single_type_managers with_state co_pool]. fold total in Hneed. rewrite Hneed.
  cbn [mbind result_bind co_pool with_state].
  assert (Hfree : get_num_free_blocks p1 = zlen l1) by exact (rep_num _ _ (pi_rep _ _ _ (ki_pool _ _ _ Hi1))).
  rewrite Hfree. destruct (Z.ltb_spec (zlen l1) need) as [Hlt|Hge].
  { eexists None, r, _, l1. split; [done|]. split; [|split; [apply memo_update_refl|]].
    - apply (with_state_ok rid k l); try done. eapply Forall2_impl; [exact HF1|]. by intros ? ? [? _].
    - split; [eapply Forall2_impl; [exact HF1|]; by intros ? ? [_ ?]|].
      exists need. split; [exact (eq_ind_r (fun z => z < need) Hlt Hfree)|].
      unfold co_num_blocks_to_allocate. cbn [single_type_managers with_state co_pool coordinator set_coord]. by rewrite Hneed. }
  destruct (Hstage Hge) as (p2 & ms2 & bss & p3 & ms3 & l3 & Hcomp & Hnb & Hi3 & Hc3 & HF3). clear Hstage.
  pose proof (Forall2_compose _ _ (covers rid slots) _ _ _ (covers_trans rid slots) HF1 HF3) as HF.
  set (c1 := with_state p1 ms1 (coordinator k)).
  assert (Hstep : exists c3, (if uses_prefix ncb ext then co_allocate_new_computed_blocks use_int rid cs num_local ext (with_state p1 ms1 c1)
      else Ok (with_state p1 ms1 c1)) = Ok c3 /\ single_type_managers c3 = ms2 /\ co_pool c3 = p2 /\ co_kind c3 = co_kind (coordinator k)).
  { unfold co_allocate_new_computed_blocks. cbn [single_type_managers with_state co_pool].
    destruct (uses_prefix ncb ext); [rewrite Hcomp; by eexists|]. injection Hcomp as <- <-. by eexists. }
  destruct Hstep as (c3 & Hc3eq & Hms & Hpl & Hkd). rewrite Hc3eq. cbn [mbind result_bind].
  unfold co_allocate_new_blocks. rewrite Hms, Hpl, Hnb. cbn [mbind result_bind].
  destruct (cache_stage use_int r (Z.min (total + new) (num_tokens r)) slots delay k l c3 p3 ms3 l3 (create_kv_cache_blocks bss))
    as (r4 & k4 & Heq & Hok & Hmu & Hcov); try done; [by etrans|subst slots total; lia|].
  exists (Some (create_kv_cache_blocks bss)), r4, k4, l3. split_and!; try done.
Qed.

(** ** The other operations *)

Lemma pool_replace p p' l ms :
  kv_inv p l ms -> pool_wf p' l -> same_config p p' ->
  (forall r, valid_block p r -> ref_cnt (pheap p' r) = ref_cnt (pheap p r) /\
     (block_hash (pheap p r) = None -> block_hash (pheap p' r) = None)) ->
  kv_inv p' l ms.
Proof.
  intros [_ Href Hloc] Hwf Hc Hr. assert (Hv : forall r, valid_block p' r <-> valid_block p r) by (intros; apply valid_same, Hc).
  split; [done| |].
  - intros r Hvr%Hv. rewrite (proj1 (Hr r Hvr)). by apply Href.
  - intros m Hm. destruct (Hloc m Hm) as [A1 A2 A3 A4 A5 A6 A7 A8 A9]. split; try done.
    + destruct Hc as (_ & _ & -> & _). done.
    + by rewrite (proj1 (proj2 Hc)).
    + intros rid b Hb. apply (in_pool_same p); [done|]. by eapply A6.
    + intros rid. by apply (nodup_valid_same p).
    + intros rid i b Hi Hb Hbv%Hv Hca. destruct (A9 rid i b Hi Hb Hbv Hca) as [Hh H1]. destruct (Hr b Hbv) as [-> Hh'].
      split; [by apply Hh'|done].
Qed.

Lemma managers_replace (f : STManager -> STManager) p l ms :
  kv_inv p l ms ->
  (forall m, m ∈ ms -> st_class (f m) = st_class m /\ st_spec (f m) = st_spec m /\ st_block_size (f m) = st_block_size m /\
     st_enable_caching (f m) = st_enable_caching m /\ kv_cache_group_id (f m) = kv_cache_group_id m /\
     num_cached_block (f m) = num_cached_block m /\ (forall r, own (f m) r = own m r) /\ forall rid, rb_get rid (f m) = rb_get rid m) ->
  kv_inv p l (f <$> ms).
Proof.
  intros [Hwf Href Hloc] Hf. split; [done| |].
  - intros r Hv. rewrite (Href r Hv). clear -Hf. unfold tot. induction ms as [|m ms IH]; [done|]. cbn.
    destruct (Hf m ltac:(constructor)) as (_ & _ & _ & _ & _ & _ & -> & _). f_equal. apply IH. intros m' Hm'. apply Hf. by constructor.
  - intros m' (m & -> & Hm)%list_elem_of_fmap. destruct (Hloc m Hm). destruct (Hf m Hm) as (E1 & E2 & E3 & E4 & E5 & E6 & _ & E8).
    split; unfold attn_manager in *; rewrite ?E1, ?E2, ?E3, ?E4, ?E5, ?E6; try done; intros *; rewrite ?E8; eauto.
Qed.

(** The calls the scheduler makes. *)
Inductive kvm_op : Type :=
  | KSlots (r : Request) (new comp : Z) (ncb : option KVCacheBlocks) (look ext : Z) (delay : bool) (enc : Z)
  | KFree (r : Request)
  | KRemove (rid : string) (total : Z)
  | KCache (r : Request) (n : Z)
  | KEvict (ids : list Z)
  | KReset
  | KTakeEvents
  | KTakeIds
  | KNewStep
  | KCommonPrefix (rid : string).

Definition kvm_exec (use_int : bool) (o : kvm_op) (k : KVCacheManager) : result KVCacheManager :=
  match o with
  | KSlots r new comp ncb look ext delay enc =>
      '(_, _, k') ← allocate_slots use_int r new comp ncb look ext delay enc k; Ok k'
  | KFree r => kvm_free r k
  | KRemove rid total => kvm_remove_skipped_blocks rid total k
  | KCache r n => '(_, k') ← kvm_cache_blocks use_int r n k; Ok k'
  | KEvict ids => kvm_evict_blocks use_int ids k
  | KReset => Ok (snd (kvm_reset_prefix_cache k))
  | KTakeEvents => Ok (snd (kvm_take_events k))
  | KTakeIds => Ok (snd (kvm_take_new_block_ids k))
  | KNewStep => Ok (kvm_new_step_starts k)
  | KCommonPrefix rid => Ok (snd (kvm_num_common_prefix_blocks rid k))
  end.

(** The contract of each call. *)
Definition kvm_op_ok (o : kvm_op) (k : KVCacheManager) : Prop :=
  match o with
  | KSlots r new comp ncb look ext _ _ => slots_ok r new comp ncb look ext k
  | KCache r n => km_enable_caching k = true -> request_ok (km_pool k) r n /\
      forall m, m ∈ managers k -> n / st_block_size m <= zlen (rb_get (request_id r) m)
  | KEvict ids => forall i, i ∈ ids -> 0 <= i < num_gpu_blocks (km_pool k)
  | _ => True
  end.

Lemma kvm_inv_state k l p' l' ms' :
  kvm_inv k l -> kv_inv p' l' ms' -> same_config (km_pool k) p' -> length ms' = length (managers k) ->
  kvm_inv (set_coord (with_state p' ms' (coordinator k)) k) l'.
Proof. intros [_ Hg Hc] Hi Hcfg Hl. split; [done|cbn; by rewrite Hg|cbn; rewrite Hc; symmetry; apply Hcfg]. Qed.

Lemma reset_keeps p l ms : kv_inv p l ms -> kv_inv (snd (reset_prefix_cache p)) l ms /\ same_config p (snd (reset_prefix_cache p)).
Proof.
  intros Hinv. pose proof (reset_spec p l (ki_pool _ _ _ Hinv)) as H. destruct (reset_prefix_cache p) as [ok p'].
  destruct H as (Hwf & Hc & Hok & Hno & Hyes). cbn [snd]. split; [|done]. destruct ok; [|by rewrite Hno].
  apply (pool_replace p); try done. intros r Hv. split; [|intros _; by apply Hyes].
  rewrite (proj1 Hok eq_refl r Hv). apply (pi_free _ _ _ Hwf). rewrite (app_nil_r l). rewrite <- (app_nil_r l).
  apply (pi_free _ _ _ (ki_pool _ _ _ Hinv)). split; [done|]. by apply Hok.
Qed.

Lemma common_snd rid p m :
  snd (st_num_common_prefix_blocks rid p m) = m \/ snd (st_num_common_prefix_blocks rid p m) = rb_touch rid m.
Proof. unfold st_num_common_prefix_blocks. destruct (st_class m); auto. Qed.

Lemma common_keeps rid p l ms :
  kv_inv p l ms -> kv_inv p l ((st_num_common_prefix_blocks rid p <$> ms).*2).
Proof.
  intros Hinv. rewrite <- list_fmap_compose. apply managers_replace; [done|]. intros m _. cbn.
  destruct (common_snd rid p m) as [->| ->]; [by split_and!|].
  split_and!; try (unfold rb_touch; by destruct (req_to_blocks m !! rid)); intros; [apply own_touch|apply rb_get_touch].
Qed.

Lemma kvm_free_spec r k l :
  kvm_inv k l -> exists k' l', kvm_free r k = Ok k' /\ step_ok (request_id r) k k' l' /\
    Forall (fun m => rb_get (request_id r) m = [] /\ num_cached_block m !! request_id r = None) (managers k').
Proof.
  intros Hinv. destruct (free_all_inv (request_id r) _ _ _ (vi_inv _ _ Hinv)) as (p' & l' & ms' & Heq & Hi & Hc & HF).
  unfold kvm_free, co_free, co_each. unfold managers, km_pool in Heq. rewrite Heq. cbn [mbind result_bind].
  eexists _, l'. split; [done|]. split.
  - apply (with_state_ok _ k l); try done. eapply Forall2_impl; [exact HF|]. by intros ? ? [? _].
  - apply Forall_forall. intros m' [i Hm]%list_elem_of_lookup. by destruct (Forall2_lookup_r _ _ _ _ _ HF Hm) as (m & _ & _ & ?).
Qed.

Lemma kvm_remove_spec rid total k l :
  kvm_inv k l -> exists k' l', kvm_remove_skipped_blocks rid total k = Ok k' /\ step_ok rid k k' l'.
Proof.
  intros Hinv. destruct (remove_all_inv rid total _ _ _ (vi_inv _ _ Hinv)) as (p' & l' & ms' & Heq & Hi & Hc & _ & HF).
  unfold kvm_remove_skipped_blocks, co_remove_skipped_blocks, co_each. unfold managers, km_pool in Heq. rewrite Heq.
  cbn [mbind result_bind]. eexists _, l'. split; [done|]. apply (with_state_ok _ k l); try done.
  eapply Forall2_impl; [exact HF|]. by intros ? ? [? _].
Qed.

Lemma kvm_cache_spec use_int r n k l :
  kvm_inv k l -> kvm_op_ok (KCache r n) k ->
  exists r' k', kvm_cache_blocks use_int r n k = Ok (r', k') /\ step_ok (request_id r) k k' l /\ memo_update r r' /\
    Forall2 (fun m m' => rb_get (request_id r) m' = rb_get (request_id r) m) (managers k) (managers k').
Proof.
  intros Hinv Hok. unfold kvm_cache_blocks. cbn in Hok. destruct (km_enable_caching k) eqn:Eca.
  - destruct (Hok eq_refl) as [Hr Hlen].
    destruct (cache_loop_inv use_int r n (managers k) [] (km_pool k) l (vi_inv _ _ Hinv)) as (r' & p' & ms' & Heq & Hi & Hc & Hmu & HF);
      [by rewrite <- (vi_caching _ _ Hinv)|done|done|].
    unfold co_cache_blocks. unfold managers, km_pool in Heq. rewrite Heq. cbn [mbind result_bind].
    eexists r', _. split; [done|]. split; [|split; [done|]].
    + apply (with_state_ok _ k l); try done. eapply Forall2_impl; [exact HF|]. by intros ? ? [? _].
    + eapply Forall2_impl; [exact HF|]. by intros ? ? (_ & ? & _).
  - exists r, k. split; [done|]. split; [|split; [apply memo_update_refl|by apply Forall_Forall2_diag, Forall_true]]. split; try done.
Qed.

Lemma kvm_exec_inv use_int o k l :
  kvm_inv k l -> kvm_op_ok o k ->
  exists k' l', kvm_exec use_int o k = Ok k' /\ kvm_inv k' l' /\ same_config (km_pool k) (km_pool k').
Proof.
  intros Hinv Hok. pose proof (vi_inv _ _ Hinv) as Hi. destruct o as [r new comp ncb look ext delay enc|r|rid total|r n|ids| | | | |rid]; cbn [kvm_exec].
  - destruct (allocate_slots_spec use_int r new comp ncb look ext delay enc k l Hinv Hok) as (res & r' & k' & l' & -> & [] & _).
    by exists k', l'.
  - destruct (kvm_free_spec r k l Hinv) as (k' & l' & -> & [] & _). by exists k', l'.
  - destruct (kvm_remove_spec rid total k l Hinv) as (k' & l' & -> & []). by exists k', l'.
  - destruct (kvm_cache_spec use_int r n k l Hinv Hok) as (r' & k' & -> & [] & _). by exists k', l.
  - destruct (evict_blocks_spec use_int (km_pool k) l ids (ki_pool _ _ _ Hi) Hok) as (p' & Heq & Hwf & Hc & Hd).
    unfold kvm_evict_blocks. rewrite Heq. cbn [mbind result_bind]. eexists _, l. split; [done|]. split; [|done].
    apply (kvm_inv_state k l); try done. apply (pool_replace (km_pool k)); try done. intros r _. rewrite Hd. by case_decide.
  - destruct (reset_keeps _ _ _ Hi) as [Hi' Hc]. unfold kvm_reset_prefix_cache in *. destruct (reset_prefix_cache (km_pool k)) as [ok p'].
    eexists _, l. split; [done|]. destruct ok; cbn; [destruct (prefix_cache_stats k)|]; (split; [|exact Hc]);
      by destruct (kvm_inv_state k l _ l _ Hinv Hi' Hc eq_refl).
  - destruct (take_events_spec _ _ (ki_pool _ _ _ Hi)) as [Hwf Hc]. unfold kvm_take_events.
    assert (Hh : pheap (snd (take_events (km_pool k))) = pheap (km_pool k)) by (unfold take_events; by destruct (enable_kv_cache_events _)).
    destruct (take_events (km_pool k)) as [ev p']. eexists _, l. split; [done|]. split; [|done].
    apply (kvm_inv_state k l); try done. apply (pool_replace (km_pool k)); try done. intros r _. cbn in Hh. by rewrite Hh.
  - eexists _, l. split; [done|]. split; [|done]. apply (kvm_inv_state k l); try done.
    + rewrite <- list_fmap_compose. apply managers_replace; [done|]. by intros m _.
    + by rewrite !length_fmap.
  - eexists _, l. split; [done|]. split; [|done]. apply (kvm_inv_state k l); try done; [|by rewrite length_fmap].
    apply managers_replace; [done|]. intros m _.
    assert (Hn : st_new_step_starts m = m \/ st_new_step_starts m = set_step_cache ∅ m) by (unfold st_new_step_starts; destruct (st_class m); auto).
    by destruct Hn as [->| ->].
  - unfold kvm_num_common_prefix_blocks, co_num_common_prefix_blocks. destruct (co_kind (coordinator k));
      cbn [snd]; eexists _, l; (split; [done|]); (split; [|done]); try (by destruct Hinv);
      (apply (kvm_inv_state k l); [done|by apply common_keeps|done|by rewrite !length_fmap]).
Qed.

(** Runs of the manager. *)
Inductive kvm_run (use_int : bool) : KVCacheManager -> list kvm_op -> result KVCacheManager -> Prop :=
  | krun_nil k : kvm_run use_int k [] (Ok k)
  | krun_ok k o os k1 res : kvm_op_ok o k -> kvm_exec use_int o k = Ok k1 -> kvm_run use_int k1 os res ->
      kvm_run use_int k (o :: os) res
  | krun_err k o os e : kvm_op_ok o k -> kvm_exec use_int o k = Err e -> kvm_run use_int k (o :: os) (Err e).

Lemma kvm_run_inv use_int k l os res :
  kvm_inv k l -> kvm_run use_int k os res -> exists k' l', res = Ok k' /\ kvm_inv k' l' /\ same_config (km_pool k) (km_pool k').
Proof.
  intros Hinv Hrun. revert l Hinv. induction Hrun as [k|k o os k1 res Hok He Hrun IH|k o os e Hok He]; intros l Hinv.
  - by exists k, l.
  - destruct (kvm_exec_inv use_int o k l Hinv Hok) as (k' & l' & He' & Hinv' & Hc). rewrite He in He'. injection He' as ->.
    destruct (IH l' Hinv') as (k2 & l2 & ? & ? & ?). exists k2, l2. split_and!; [done..|by etrans].
  - destruct (kvm_exec_inv use_int o k l Hinv Hok) as (k' & l' & He' & _). congruence.
Qed.

(** ** Construction *)

Definition attn_spec (s : layer_spec) : Prop :=
  match s with
  | FullAttentionSpec _ _ _ | MLAAttentionSpec _ _ _ _ => True
  | SlidingWindowSpec _ _ w => 0 < w
  | ChunkedLocalAttentionSpec _ _ k => 0 < k
  | _ => False
  end.

(** The block size of a manager: the spec's times the context parallel sizes. *)
Definition scaled_block_size (s : layer_spec) (dcp pcp : Z) : Z :=
  if 1 <? dcp * pcp then spec_block_size s * (dcp * pcp) else spec_block_size s.

(** Groups of decoder attention with the block size of the hashes. *)
Record config_ok (cfg : KVCacheConfig) (caching : bool) (hash_bs dcp pcp : Z) : Prop := {
  cf_groups : forall g, g ∈ kv_cache_groups cfg -> exists s, kv_cache_spec g = LayerSpec s /\ attn_spec s /\
    0 < spec_block_size s /\ (caching = true -> scaled_block_size s dcp pcp = hash_bs);
  cf_count : zlen (kv_cache_groups cfg) < 2 ^ 32;
}.

Lemma init_managers_spec caching hash_bs dcp pcp p groups i :
  (forall g, g ∈ groups -> exists s, kv_cache_spec g = LayerSpec s /\ attn_spec s /\
    0 < spec_block_size s /\ (caching = true -> scaled_block_size s dcp pcp = hash_bs)) ->
  0 <= i -> i + zlen groups < 2 ^ 32 -> enable_caching p = caching -> hash_block_size p = hash_bs ->
  exists ms, init_managers groups caching i dcp pcp p = Ok (p, ms) /\ length ms = length groups /\
    forall m, m ∈ ms -> st_local p m /\ req_to_blocks m = ∅.
Proof.
  intros Hg Hi Hn Hca Hbs. revert i Hi Hn. induction groups as [|g groups IH]; intros i Hi Hn; cbn [init_managers].
  { exists []. split_and!; try done. by intros m ?%elem_of_nil. }
  destruct (Hg g ltac:(constructor)) as (s & -> & Hs & Hpos & Hsz). unfold zlen in *. cbn [length] in Hn.
  destruct IH with (i := i + 1) as (ms & Hms & Hlen & Hloc); [intros; apply Hg; by constructor|lia|lia|].
  assert (Hm : exists m, manager_init s caching i dcp pcp p = Ok (p, m) /\ attn_manager m /\ st_block_size m = scaled_block_size s dcp pcp /\
    st_enable_caching m = caching /\ kv_cache_group_id m = i /\ req_to_blocks m = ∅ /\ num_cached_block m = ∅).
  { unfold manager_init. destruct s; try done; by eexists. }
  destruct Hm as (m & -> & Ha & Hb & Hc & Hid & Hr & Hcb). cbn [mbind result_bind]. rewrite Hms. cbn [mbind result_bind].
  exists (m :: ms). split_and!; [done|cbn; lia|]. intros m' [->|Hm']%elem_of_cons; [|by apply Hloc]. split; [|done].
  assert (Hget : forall rid, rb_get rid m = []) by (intros rid; unfold rb_get; by rewrite Hr, lookup_empty).
  split; rewrite ?Hb, ?Hc, ?Hid; try done.
  - unfold scaled_block_size. destruct (Z.ltb_spec 1 (dcp * pcp)); nia.
  - intros E. rewrite Hbs. by apply Hsz.
  - lia.
  - intros rid b. rewrite Hget. by intros ?%elem_of_nil.
  - intros rid. rewrite Hget. constructor.
  - intros rid n. by rewrite Hcb, lookup_empty.
  - intros rid j b _. by rewrite Hget.
Qed.

Lemma empty_own ms r : (forall m, m ∈ ms -> req_to_blocks m = ∅) -> tot ms r = 0.
Proof.
  intros H. unfold tot. induction ms as [|m ms IH]; [done|]. cbn. unfold zsum in IH. rewrite IH by (intros; apply H; by constructor).
  unfold own. by rewrite (H m ltac:(constructor)), map_sum_empty.
Qed.

Lemma kvm_init_inv cfg max_len hash_bs caching use_eagle log_stats events dcp pcp k :
  config_ok cfg caching hash_bs dcp pcp -> kvm_init cfg max_len hash_bs caching use_eagle log_stats events dcp pcp = Ok k ->
  exists l, kvm_inv k l /\ km_max_model_len k = max_len /\ num_gpu_blocks (km_pool k) = num_blocks cfg.
Proof.
  intros [Hg Hcnt] Hinit. unfold kvm_init, get_kv_cache_coordinator in Hinit.
  destruct (Z.ltb_spec 0 (num_blocks cfg)) as [Hn|Hn].
  2: { unfold pool_init in Hinit. by rewrite (proj2 (Z.ltb_ge _ _)) in Hinit by lia. }
  destruct (pool_init_spec (num_blocks cfg) caching hash_bs events Hn) as (p & Hp & Hwf & Hnum & Hca & Hhb & _ & _ & Hall).
  rewrite Hp in Hinit. cbn [mbind result_bind] in Hinit.
  destruct (init_managers_spec caching hash_bs dcp pcp p (kv_cache_groups cfg) 0 Hg) as (ms & Hms & Hlen & Hloc); try done.
  rewrite Hms in Hinit. cbn [mbind result_bind] in Hinit.
  assert (Hkv : kv_inv p (real_blocks p) ms).
  { split; [done| |intros m Hm; by apply Hloc]. intros r Hr. rewrite empty_own by (intros m Hm; by apply Hloc). by apply Hall. }
  assert (Hk : exists kind b1 b2, k = mkKVM max_len caching (if log_stats then Some empty_stats else None) (mkCoord kind b1 b2 p ms)
      (length (kv_cache_groups cfg))).
  { unfold no_prefix_init, unitary_init, hybrid_init in Hinit. clear -Hinit. apply bind_Ok in Hinit as (c & Hc & [= <-]).
    assert (exists kind b1 b2, c = mkCoord kind b1 b2 p ms) as (kind & b1 & b2 & ->); [|by eauto].
    destruct caching; cbn [negb] in Hc; [|by injection Hc as <-; eauto]. destruct (zlen (kv_cache_groups cfg) =? 1).
    - inv_res. simplify_eq. eauto.
    - destruct ((hash_bs =? 0) && _); [done|]. inv_res. destruct_and?. case_match. simplify_eq. eauto. }
  destruct Hk as (kind & b1 & b2 & ->). exists (real_blocks p). split_and!; try done.
Qed.

(** ** Ownership *)

Lemma own_zero m b : (forall rid, b ∉ rb_get rid m) -> own m b = 0.
Proof.
  intros H. unfold own. rewrite (map_sum_ext _ (fun _ _ => 0)), map_sum_zero; [done|]. intros rid bs Hl. apply cnt_notin. specialize (H rid). unfold rb_get in H. by rewrite Hl in H.
Qed.

Lemma tot_zero ms b : tot ms b = 0 <-> forall m rid, m ∈ ms -> b ∉ rb_get rid m.
Proof.
  split.
  - intros H0 m rid Hm Hb%cnt_pos. pose proof (own_ge m rid b).
    assert (own m b <= tot ms b) by (apply (zsum_elem (fun m => own m b)); [intros; apply own_nonneg|done]). lia.
  - induction ms as [|m ms IH]; intros H; [done|]. unfold tot in *. cbn. unfold zsum in IH.
    rewrite IH by (intros m' rid Hm; apply H; by constructor). rewrite own_zero; [done|]. intros rid. apply H. constructor.
Qed.

Lemma free_iff_unowned k l b :
  kvm_inv k l -> valid_block (km_pool k) b -> b ∈ l <-> forall m rid, m ∈ managers k -> b ∉ rb_get rid m.
Proof.
  intros [[Hwf Href _] _ _] Hb. rewrite <- tot_zero, <- (Href b Hb), <- (app_nil_r l), (pi_free _ _ _ Hwf). tauto.
Qed.

(** A block outside the cached part has one owner over all groups. *)
Lemma writable_unique k l i m rid j b :
  kvm_inv k l -> km_enable_caching k = true -> managers k !! i = Some m ->
  default 0 (num_cached_block m !! rid) <= Z.of_nat j -> rb_get rid m !! j = Some b -> valid_block (km_pool k) b ->
  block_hash (pheap (km_pool k) b) = None /\ ref_cnt (pheap (km_pool k) b) = 1 /\
  forall i' m' rid', managers k !! i' = Some m' -> b ∈ rb_get rid' m' -> i' = i /\ rid' = rid.
Proof.
  intros [Hi _ Hca] Hc Hm Hj Hb Hv. assert (Hmc : st_enable_caching m = true).
  { rewrite <- (sl_caching _ _ (ki_local _ _ _ Hi m ltac:(by eapply list_elem_of_lookup_2))). by rewrite <- Hca. }
  pose proof (take_drop_middle _ _ _ Hm) as Hsplit. rewrite <- Hsplit in Hi. destruct (kv_focus _ _ _ _ _ Hi) as [Hst _].
  destruct (si_fresh _ _ _ _ Hst rid j b Hj Hb Hv Hmc) as [Hh H1]. split_and!; [done..|].
  destruct (fresh_unique _ _ _ _ rid j b Hst Hmc Hv Hj Hb) as (H0 & _ & Hno). intros i' m' rid' Hm' Hin.
  destruct (decide (i' = i)) as [->|Hne].
  - rewrite Hm in Hm'. injection Hm' as ->. split; [done|]. destruct (decide (rid' = rid)); [done|]. by destruct (Hno rid').
  - exfalso. rewrite tot_zero in H0. apply (H0 m' rid'); [|done]. apply elem_of_app.
    destruct (decide (i' < i)%nat).
    + left. apply (list_elem_of_lookup_2 _ i'). by rewrite lookup_take_lt.
    + right. apply (list_elem_of_lookup_2 _ (i' - S i)). rewrite lookup_drop. by replace (S i + (i' - S i))%nat with i' by lia.
Qed.
