(* ===== verification/KVCacheProps.v ===== *)
(** * Properties of the KV cache manager

    The theorems on [KVCacheManager] (vllm/v1/core/kv_cache_manager.py) over the
    coordinator, the managers and the pool, with concrete runs as witnesses; and two
    places where the code does not keep its promise. *)
From S2P Require Import Prelude FreeQueue Request BlockHash KVCacheSpec BlockPool PoolSafety SingleTypeManager CacheHit Coordinator KVCacheManager KVCacheSafety KVCacheRun KVCacheTheorems.

(** ** Runs *)

(** C9: From a manager built for groups of decoder attention, every sequence of calls
    that meets the scheduler's contract ends normally (no call raises), in a
    consistent pool where the reference count of every block is the number of times it
    occurs in the block lists of the requests, over all groups: no leak, no dangling
    block. *)
Theorem kvm_run_safe use_int cfg max_len hash_bs caching use_eagle log_stats events dcp pcp k os res :
  config_ok cfg caching hash_bs dcp pcp ->
  kvm_init cfg max_len hash_bs caching use_eagle log_stats events dcp pcp = Ok k ->
  kvm_run use_int k os res ->
  exists k', res = Ok k' /\ pool_consistent (km_pool k') /\ num_gpu_blocks (km_pool k') = num_blocks cfg /\
    forall r, valid_block (km_pool k') r -> ref_cnt (pheap (km_pool k') r) = tot (managers k') r.
Proof.
  intros Hcfg Hinit Hrun. destruct (kvm_init_inv _ _ _ _ _ _ _ _ _ _ Hcfg Hinit) as (l & Hinv & _ & Hn).
  destruct (kvm_run_inv _ _ _ _ _ Hinv Hrun) as (k' & l' & -> & [Hi _ _] & Hc). exists k'. split_and!; try done.
  - eapply wf_consistent, Hi.
  - by rewrite (proj1 Hc).
  - apply Hi.
Qed.

(** A full attention group and a sliding window group over 14 usable blocks. *)
Definition demo_cfg : KVCacheConfig :=
  mkKVConfig 15 [] [mkGroup ["a"] (LayerSpec demo_full); mkGroup ["b"] (LayerSpec (SlidingWindowSpec 2 demo_attn 10))].
Definition kvm_or (o : result KVCacheManager) : KVCacheManager :=
  match o with
  | Ok k => k
  | Err _ => mkKVM 0 false None (mkCoord NoPrefixCache false false demo_pool []) 0
  end.
Definition demo_kvm : KVCacheManager := kvm_or (kvm_init demo_cfg 100 2 true false true false 1 1).
Definition kexec_or (o : kvm_op) (k : KVCacheManager) : KVCacheManager := kvm_or (kvm_exec false o k).

Lemma Ok_inj {A} (a b : A) : Ok a = Ok b -> a = b.
Proof. by intros [= ->]. Qed.
Lemma kvm_or_ok o : is_ok o = true -> o = Ok (kvm_or o).
Proof. by destruct o. Qed.

Lemma demo_kvm_init : kvm_init demo_cfg 100 2 true false true false 1 1 = Ok demo_kvm.
Proof. apply kvm_or_ok. by vm_compute. Qed.

Lemma demo_cfg_ok : config_ok demo_cfg true 2 1 1.
Proof.
  split; [|by vm_compute]. intros g Hg. cbn in Hg.
  apply elem_of_cons in Hg as [->|Hg]; [eexists; split; [done|]; by vm_compute|].
  apply list_elem_of_singleton in Hg as ->. eexists. split; [done|]. by vm_compute.
Qed.

Lemma krun_exec k o os res :
  kvm_op_ok o k -> is_ok (kvm_exec false o k) = true -> kvm_run false (kexec_or o k) os res ->
  kvm_run false k (o :: os) res.
Proof.
  intros Hok Hex Hrun. eapply krun_ok; [done|by apply kvm_or_ok|done].
Qed.

(** Requests: [c] fills blocks, [a] and [b] share their first two blocks. *)
Definition req_c : Request := named_request "c" 2 [11; 12; 13; 14; 15; 16; 17; 18].
Definition req_a : Request := named_request "a" 2 [1; 2; 3; 4; 5].
Definition req_b : Request := named_request "b" 2 [1; 2; 3; 4; 5; 6; 7; 8; 9; 10; 11].

Lemma named_request_hashes id toks p n :
  hash_block_size p = 2 -> 0 <= n -> n / 2 <= zlen (Request.block_hashes (named_request id 2 toks)) ->
  mm_features (named_request id 2 toks) = [] -> request_ok p (named_request id 2 toks) n.
Proof. intros Hp Hn Hh Hm. split; [done|by rewrite Hp|]. intros _. split; [done|]. apply named_request_ok. lia. Qed.

Lemma slots_ok_intro r new k :
  0 < new -> num_computed_tokens r = 0 -> new <= km_max_model_len k ->
  (km_enable_caching k = true -> request_ok (km_pool k) r (Z.min (0 + 0 + 0 + new) (num_tokens r))) ->
  Forall (fun m => num_cached_block m !! request_id r = None -> skipped_blocks m 0 <= zlen (rb_get (request_id r) m)) (managers k) ->
  slots_ok r new 0 None 0 0 k.
Proof.
  intros Hn Hc Hm Hr Hf. split; rewrite ?Hc; try done; try lia.
  intros _ m Hin. rewrite Forall_forall in Hf. exact (Hf m Hin).
Qed.

Definition demo_k1 : KVCacheManager := kexec_or (KSlots req_c 8 0 None 0 0 false 0) demo_kvm.
Definition demo_k2 : KVCacheManager := kexec_or (KSlots req_a 5 0 None 0 0 false 0) demo_k1.
Definition demo_k3 : KVCacheManager := kexec_or (KFree req_a) demo_k2.
Definition demo_k4 : KVCacheManager := kexec_or (KFree req_c) demo_k3.

Lemma kvm_inv_exec o k : (exists l, kvm_inv k l) -> kvm_op_ok o k -> exists l, kvm_inv (kexec_or o k) l.
Proof.
  intros [l Hl] Hok. destruct (kvm_exec_inv false o k l Hl Hok) as (k' & l' & H & Hi & _). exists l'.
  unfold kexec_or. by rewrite H.
Qed.

#[local] Strategy opaque [kexec_or kvm_exec demo_kvm].

Lemma demo_slots_c : slots_ok req_c 8 0 None 0 0 demo_kvm.
Proof.
  apply slots_ok_intro; [done..|by vm_compute| |by_eval]. intros _. apply named_request_hashes; by vm_compute.
Qed.
Lemma demo_slots_a : slots_ok req_a 5 0 None 0 0 demo_k1.
Proof.
  apply slots_ok_intro; [done..|by vm_compute| |by_eval]. intros _. apply named_request_hashes; by vm_compute.
Qed.

Definition demo_ops : list kvm_op :=
  [KSlots req_c 8 0 None 0 0 false 0; KSlots req_a 5 0 None 0 0 false 0; KFree req_a; KFree req_c].

Lemma demo_run : kvm_run false demo_kvm demo_ops (Ok demo_k4).
Proof.
  refine (krun_exec demo_kvm (KSlots req_c 8 0 None 0 0 false 0) _ _ demo_slots_c _ _); [by vm_compute|].
  refine (krun_exec demo_k1 (KSlots req_a 5 0 None 0 0 false 0) _ _ demo_slots_a _ _); [by vm_compute|].
  refine (krun_exec demo_k2 (KFree req_a) _ _ I _ _); [by vm_compute|].
  refine (krun_exec demo_k3 (KFree req_c) _ _ I _ _); [by vm_compute|]. exact (krun_nil false demo_k4).
Qed.

Lemma kvm_run_safe_witness :
  kvm_run false demo_kvm demo_ops (Ok demo_k4) /\ get_num_free_blocks (km_pool demo_k2) = 0 /\
  get_num_free_blocks (km_pool demo_k4) = 14 /\ pool_consistent (km_pool demo_k4).
Proof.
  split; [exact demo_run|]. split; [by vm_compute|]. split; [by vm_compute|].
  destruct (kvm_run_safe false demo_cfg 100 2 true false true false 1 1 demo_kvm demo_ops _ demo_cfg_ok demo_kvm_init demo_run)
    as (k' & Hk & H & _). exact (eq_ind_r (fun k => pool_consistent (km_pool k)) H (Ok_inj _ _ Hk)).
Defined.

(** ** The operations *)

(** C10: In a state that the manager can be in, a call of [allocate_slots] that meets the
    scheduler's contract never raises: the capacity check is sufficient for every
    later allocation of the call.  The lists of the other requests do not change and
    the manager stays consistent.  When the call returns blocks, the block list of
    the request covers all tokens that need a slot, in every group; when it returns
    [None], the blocks needed are more than the free ones and the request keeps as many
    blocks as it had. *)
Theorem allocate_slots_correct use_int r new comp ncb look ext delay enc k l :
  kvm_inv k l -> slots_ok r new comp ncb look ext k ->
  let total := num_computed_tokens r + comp + ext in
  let slots := Z.min (total + new + look) (km_max_model_len k) in
  exists res r' k' l', allocate_slots use_int r new comp ncb look ext delay enc k = Ok (res, r', k') /\
    kvm_inv k' l' /\ Forall2 (same_manager (request_id r)) (managers k) (managers k') /\ memo_update r r' /\
    match res with
    | None => Forall2 (same_length (request_id r)) (managers k) (managers k') /\
        exists need, get_num_free_blocks (km_pool k') < need /\
        co_num_blocks_to_allocate (request_id r) slots (blocks_of (num_kv_cache_groups k) (default EmptyBlocks ncb)) enc
          total (total + new) (coordinator k') = Ok (need, coordinator k')
    | Some _ => Forall (fun m => cdiv slots (st_block_size m) <= zlen (rb_get (request_id r) m)) (managers k')
    end.
Proof.
  intros Hinv Hok. destruct (allocate_slots_spec use_int r new comp ncb look ext delay enc k l Hinv Hok)
    as (res & r' & k' & l' & H & [] & Hm & Hres). by exists res, r', k', l'.
Qed.

Lemma demo_kvm_inv : exists l, kvm_inv demo_kvm l.
Proof.
  destruct (kvm_init_inv _ _ _ _ _ _ _ _ _ _ demo_cfg_ok demo_kvm_init) as (l & H & _). by exists l.
Qed.

Lemma allocate_slots_correct_witness :
  (exists l, kvm_inv demo_kvm l) /\
  exists res r' k' l', allocate_slots false req_c 8 0 None 0 0 false 0 demo_kvm = Ok (res, r', k') /\ kvm_inv k' l'.
Proof.
  split; [exact demo_kvm_inv|]. destruct demo_kvm_inv as [l Hl].
  destruct (allocate_slots_correct false req_c 8 0 None 0 0 false 0 demo_kvm l Hl demo_slots_c)
    as (res & r' & k' & l' & H & Hi & _). exists res, r', k', l'. exact (conj H Hi).
Defined.

(** Freeing a request never raises, removes it from every group, leaves the lists
    of the other requests alone, and makes exactly the blocks free that no other
    request holds in any group: afterwards a block is in the free queue if and only
    if no list holds it. *)
Theorem kvm_free_correct r k l :
  kvm_inv k l ->
  exists k' l', kvm_free r k = Ok k' /\ kvm_inv k' l' /\
    Forall2 (same_manager (request_id r)) (managers k) (managers k') /\
    (forall m, m ∈ managers k' -> rb_get (request_id r) m = [] /\ num_cached_block m !! request_id r = None) /\
    forall b, valid_block (km_pool k') b -> b ∈ l' <-> forall m rid, m ∈ managers k' -> b ∉ rb_get rid m.
Proof.
  intros Hinv. destruct (kvm_free_spec r k l Hinv) as (k' & l' & Hfree & [Hi _ Hs _] & HF).
  exists k', l'. split_and!; try done; [by apply Forall_forall|]. intros b Hb. by apply (free_iff_unowned k' l').
Qed.

Lemma demo_k2_inv : exists l, kvm_inv demo_k2 l.
Proof.
  refine (kvm_inv_exec (KSlots req_a 5 0 None 0 0 false 0) demo_k1 _ demo_slots_a).
  exact (kvm_inv_exec (KSlots req_c 8 0 None 0 0 false 0) demo_kvm demo_kvm_inv demo_slots_c).
Qed.

Lemma kvm_free_correct_witness :
  (exists l, kvm_inv demo_k2 l) /\ exists k' l', kvm_free req_a demo_k2 = Ok k' /\ kvm_inv k' l'.
Proof.
  split; [exact demo_k2_inv|]. destruct demo_k2_inv as [l Hl].
  destruct (kvm_free_correct req_a demo_k2 l Hl) as (k' & l' & H & Hi & _). exists k', l'. exact (conj H Hi).
Defined.

(** C11: In every state that calls of the scheduler can bring a manager with prefix caching to,
    from its construction on, the blocks of a request past the ones that [cache_blocks] has
    recorded as cached, those that are still written to, are never shared: such a block has
    reference count 1, carries no hash, is not in the table of cached blocks, is not in the
    free queue, and is in no list of another request or another group. *)
Theorem writable_block_isolated use_int cfg max_len hash_bs caching use_eagle log_stats events dcp pcp k0 os k i m rid j b :
  config_ok cfg caching hash_bs dcp pcp ->
  kvm_init cfg max_len hash_bs caching use_eagle log_stats events dcp pcp = Ok k0 ->
  kvm_run use_int k0 os (Ok k) -> km_enable_caching k = true -> managers k !! i = Some m ->
  default 0 (num_cached_block m !! rid) <= Z.of_nat j -> rb_get rid m !! j = Some b -> valid_block (km_pool k) b ->
  ref_cnt (pheap (km_pool k) b) = 1 /\ block_hash (pheap (km_pool k) b) = None /\
  (exists fuel l, get_all_free_blocks fuel (free_block_queue (km_pool k)) = Some (Ok l) /\ b ∉ l) /\
  (forall key, ~ cached_in (cached_block_hash_to_block (km_pool k)) key b) /\
  forall i' m' rid', managers k !! i' = Some m' -> b ∈ rb_get rid' m' -> i' = i /\ rid' = rid.
Proof.
  intros Hcfg Hinit Hrun Hc Hm Hj Hb Hv. destruct (kvm_init_inv _ _ _ _ _ _ _ _ _ _ Hcfg Hinit) as (l0 & Hinv0 & _).
  destruct (kvm_run_inv _ _ _ _ _ Hinv0 Hrun) as (k' & l & Hk & Hinv & _). apply Ok_inj in Hk as <-.
  destruct (writable_unique k l i m rid j b Hinv Hc Hm Hj Hb Hv) as (Hh & H1 & Hu).
  pose proof (ki_pool _ _ _ (vi_inv _ _ Hinv)) as Hwf. split_and!; [done..| | |done].
  - exists (S (length l)), l. split; [apply get_all_free_blocks_spec; [apply Hwf|lia]|].
    intros Hl. rewrite <- (app_nil_r l), (pi_free _ _ _ Hwf) in Hl. lia.
  - intros key [_ Hk]%(pi_cache _ _ _ Hwf). congruence.
Qed.

(** The first two calls of [demo_ops]. *)
Lemma demo_run2 : kvm_run false demo_kvm [KSlots req_c 8 0 None 0 0 false 0; KSlots req_a 5 0 None 0 0 false 0] (Ok demo_k2).
Proof.
  refine (krun_exec demo_kvm (KSlots req_c 8 0 None 0 0 false 0) _ _ demo_slots_c _ _); [by vm_compute|].
  refine (krun_exec demo_k1 (KSlots req_a 5 0 None 0 0 false 0) _ _ demo_slots_a _ _); [by vm_compute|]. exact (krun_nil false demo_k2).
Qed.
Lemma writable_block_isolated_witness :
  exists m, managers demo_k2 !! 0%nat = Some m /\ rb_get "a" m !! 2%nat = Some (RBlk 11) /\
    ref_cnt (pheap (km_pool demo_k2) (RBlk 11)) = 1.
Proof.
  destruct (lookup_lt_is_Some_2 (managers demo_k2) 0) as [m Hm]; [by vm_compute; lia|]. exists m.
  assert (Hb : (fun m => (rb_get "a" m !! 2%nat, num_cached_block m !! "a")) <$> head (managers demo_k2) = Some (Some (RBlk 11), Some 2))
    by (vm_compute; reflexivity).
  assert (Hhd : head (managers demo_k2) = Some m) by (by rewrite head_lookup). rewrite Hhd in Hb. injection Hb as Hb Hn.
  split; [exact Hm|]. split; [exact Hb|].
  apply (writable_block_isolated false demo_cfg 100 2 true false true false 1 1 demo_kvm _ demo_k2 0 m "a" 2 (RBlk 11) demo_cfg_ok demo_kvm_init demo_run2);
    [by vm_compute|exact Hm|rewrite Hn; cbn; lia|exact Hb|by_eval].
Defined.

(** C12: When no request holds blocks, the whole pool is free again: every block but the
    null block is in the free queue, and [reset_prefix_cache] succeeds. *)
Theorem idle_pool_is_full k l :
  kvm_inv k l -> (forall m rid, m ∈ managers k -> rb_get rid m = []) ->
  l ≡ₚ real_blocks (km_pool k) /\ fst (kvm_reset_prefix_cache k) = true.
Proof.
  intros Hinv Hempty. pose proof (ki_pool _ _ _ (vi_inv _ _ Hinv)) as Hwf.
  assert (Hfree : forall b, valid_block (km_pool k) b -> b ∈ l).
  { intros b Hb. apply (free_iff_unowned k l b Hinv Hb). intros m rid Hm. rewrite (Hempty m rid Hm). apply not_elem_of_nil. }
  assert (Hl : forall b, b ∈ l -> valid_block (km_pool k) b /\ ref_cnt (pheap (km_pool k) b) = 0).
  { intros b Hb. rewrite <- (app_nil_r l) in Hb. by apply (pi_free _ _ _ Hwf). }
  split.
  - apply NoDup_Permutation; [|apply real_blocks_nodup|].
    + pose proof (pi_nodup _ _ _ Hwf) as Hnd. by rewrite app_nil_r in Hnd.
    + intros b. rewrite elem_of_real_blocks. split; [apply Hl|apply Hfree].
  - unfold kvm_reset_prefix_cache. pose proof (reset_spec _ _ Hwf) as H. destruct (reset_prefix_cache (km_pool k)) as [ok p'].
    destruct H as (_ & _ & Hok & _). destruct ok; [done|]. exfalso.
    enough (false = true) by done. apply Hok. intros b Hb. by apply Hl, Hfree.
Qed.

Lemma idle_pool_is_full_witness :
  exists l, kvm_inv demo_kvm l /\ l ≡ₚ real_blocks (km_pool demo_kvm) /\ fst (kvm_reset_prefix_cache demo_kvm) = true.
Proof.
  destruct demo_kvm_inv as [l Hl]. exists l. split; [exact Hl|]. apply (idle_pool_is_full demo_kvm l Hl).
  assert (He : Forall (fun m => req_to_blocks m = ∅) (managers demo_kvm)) by (repeat constructor).
  intros m rid Hm. rewrite Forall_forall in He. unfold rb_get. by rewrite (He m Hm).
Defined.

(** ** Where the code falls short *)

(** The call sequence: [demo_ops], then [b] finds its prefix in both groups and is
    given slots together with six tokens of an external cache.  The result is the
    block ids of [b] per group. *)
Definition external_run : result (list (list Z)) :=
  '(bs, n, k) ← get_computed_blocks req_b demo_k4;
  '(res, _, k') ← allocate_slots false req_b 1 n (Some bs) 0 6 false 0 k;
  Ok (ids_of (km_pool k') <$> co_get_blocks "b" (coordinator k')).

(** C32: With two groups and external tokens, [allocate_slots] hands one block to two
    groups: the blocks for the external tokens of the first group are taken from the
    free queue before the prefix blocks of the second group are touched.  In this
    run block 13, which holds the second group's cached prefix, also becomes a block
    of the first group that is about to be written. *)
Theorem external_tokens_share_block :
  kvm_run false demo_kvm demo_ops (Ok demo_k4) /\
  exists g0 g1, external_run = Ok [g0; g1] /\ 13 ∈ g0 /\ 13 ∈ g1.
Proof.
  split; [exact demo_run|]. exists [9; 10; 11; 14; 13; 1], [12; 13; 4; 3; 2; 8].
  split; [by vm_compute|]. split; by_eval.
Qed.

(** A manager for attention with sink tokens takes its sink blocks out of the free
    queue at construction without a reference, so [reset_prefix_cache] returns false
    from the start, when no request has any block. *)
Theorem sink_blocks_prevent_reset n caching hash_bs events p bs a f sink gid :
  pool_init n caching hash_bs events = Ok p -> 0 < bs -> 0 < sink -> sink mod bs = 0 -> sink / bs < n ->
  exists p' m, manager_init (SinkFullAttentionSpec bs a f (Some sink)) caching gid 1 1 p = Ok (p', m) /\
    req_to_blocks m = ∅ /\ get_num_free_blocks p' = n - 1 - sink / bs /\ fst (reset_prefix_cache p') = false /\
    (forall b, b ∈ sink_blocks m -> ref_cnt (pheap p' b) = 0).
Proof.
  intros Hinit Hbs Hs Hmod Hroom. assert (Hq : 0 < sink / bs).
  { destruct (Z.le_gt_cases bs sink); [by apply Z.div_str_pos|]. rewrite Z.mod_small in Hmod; lia. }
  destruct (pool_init_spec n caching hash_bs events ltac:(lia)) as (p0 & Hp0 & Hwf & Hnum & _).
  rewrite Hinit in Hp0. injection Hp0 as <-. pose proof (pi_rep _ _ _ Hwf) as Hrep.
  assert (Hlen : Z.of_nat (length (real_blocks p)) = n - 1) by (unfold real_blocks; rewrite length_fmap, length_seq, Hnum; lia).
  destruct (popleft_n_spec _ _ (sink / bs) Hrep ltac:(lia)) as (q & Hpop & Hq' & Hd).
  unfold manager_init. cbn [spec_manager_map mbind result_bind base_manager_init Z.mul]. unfold sink_manager_init.
  cbn [st_block_size base_manager_init]. change (1 <? 1 * 1) with false. cbn [spec_block_size].
  rewrite Hmod, (proj2 (Z.ltb_lt 0 sink) Hs). cbn [andb Z.eqb py_assert mbind result_bind]. rewrite Hpop. cbn [mbind result_bind].
  eexists _, _. split; [done|]. split; [done|].
  assert (Hfree : get_num_free_blocks (set_queue q p) = n - 1 - sink / bs).
  { unfold get_num_free_blocks. cbn. rewrite (rep_num _ _ Hq'), length_drop. lia. }
  split; [done|]. split.
  - unfold reset_prefix_cache. rewrite Hfree. change (num_gpu_blocks (set_queue q p)) with (num_gpu_blocks p). rewrite Hnum.
    destruct (Z.eqb_spec (n - (n - 1 - sink / bs)) 1); [lia|done].
  - intros b Hb. cbn in Hb. apply (subseteq_take (Z.to_nat (sink / bs))) in Hb. rewrite <- (app_nil_r (real_blocks p)) in Hb.
    apply (pi_free _ _ _ Hwf) in Hb as [_ H0]. specialize (Hd b). destruct (bdata_fields _ _ Hd) as [H _]. exact (eq_trans H H0).
Qed.

Lemma sink_blocks_prevent_reset_witness :
  pool_init 5 true 2 true = Ok demo_pool /\
  exists p' m, manager_init (SinkFullAttentionSpec 2 demo_attn (mkFull 1 None None) (Some 4)) true 0 1 1 demo_pool = Ok (p', m) /\
    get_num_free_blocks p' = 2 /\ fst (reset_prefix_cache p') = false.
Proof.
  split; [exact demo_pool_init|].
  destruct (sink_blocks_prevent_reset 5 true 2 true demo_pool 2 demo_attn (mkFull 1 None None) 4 0 demo_pool_init)
    as (p' & m & H & _ & Hf & Hr & _); [lia|lia|done|by vm_compute|]. exists p', m. exact (conj H (conj Hf Hr)).
Defined.
