(* ===== verification/NgramProposer.v ===== *)
(** * Speculative decoding by n-gram lookup

    vllm/v1/spec_decode/ngram_proposer.py: the proposer looks for the longest n-gram at
    the end of a request's tokens that occurred before and drafts the tokens that
    followed it.  The search is a prefix-function scan over the reversed tokens with
    the pattern length capped; the theorems compare it with the specification.  numpy
    arrays are lists; the indices are natural numbers. *)
From S2P Require Import Prelude.

(** ** The search *)

Record kmp_state : Type := mkKmp {
  lps : list nat;
  longest_ngram : nat;
  position : nat;
  prev_lps : nat;
  kmp_i : nat;
}.

(** The [while] loop of [_find_longest_matched_ngram_and_propose_tokens]. *)
Fixpoint kmp_loop (fuel : nat) (tokens : list Z) (max_ngram : nat) (s : kmp_state) : result kmp_state :=
  match fuel with
  | O => Err OutOfFuel
  | S fuel' =>
      let i := kmp_i s in
      if (i <? length tokens)%nat then
        a ← of_option IndexError (tokens !! prev_lps s);
        b ← of_option IndexError (tokens !! i);
        if a =? b then
          let p := S (prev_lps s) in
          let longer := (longest_ngram s <=? p)%nat in
          let lps1 := if (i <? max_ngram)%nat then <[i := p]> (lps s) else lps s in
          p' ← (if (p =? max_ngram)%nat then of_option IndexError (lps1 !! (max_ngram - 1)%nat) else Ok p);
          kmp_loop fuel' tokens max_ngram
            (mkKmp lps1 (if longer then p else longest_ngram s) (if longer then i else position s) p' (S i))
        else if negb (prev_lps s =? 0)%nat then
          p ← of_option IndexError (lps s !! (prev_lps s - 1)%nat);
          kmp_loop fuel' tokens max_ngram (mkKmp (lps s) (longest_ngram s) (position s) p i)
        else
          kmp_loop fuel' tokens max_ngram (mkKmp (lps s) (longest_ngram s) (position s) 0 (S i))
      else Ok s
  end.

Definition kmp_init (max_ngram : nat) : kmp_state := mkKmp (replicate max_ngram 0%nat) 0 0 0 1.

(** [_find_longest_matched_ngram_and_propose_tokens]. *)
Definition find_longest_matched_ngram_and_propose_tokens (origin_tokens : list Z) (min_ngram max_ngram : nat)
    (max_model_len k : Z) : result (list Z) :=
  let total_token := length origin_tokens in
  if (total_token <? min_ngram)%nat then Ok [] else
  let k := Z.min k (max_model_len - Z.of_nat total_token) in
  if k <=? 0 then Ok [] else
  s ← kmp_loop (S (2 * total_token)) (reverse origin_tokens) max_ngram (kmp_init max_ngram);
  if (longest_ngram s <? min_ngram)%nat then Ok [] else
  let start_position := (total_token - 1 - position s + longest_ngram s)%nat in
  let k := Z.min k (Z.of_nat (total_token - start_position)) in
  Ok (take (Z.to_nat k) (drop start_position origin_tokens)).

(** ** The proposer *)

Record NgramProposer : Type := mkNgram {
  min_n : nat;
  max_n : nat;
  ng_k : Z;
  ng_max_model_len : Z;
  valid_ngram_draft : list (list Z);
  valid_ngram_num_drafts : list nat;
}.

Definition set_drafts (d : list (list Z)) (n : list nat) (g : NgramProposer) : NgramProposer :=
  mkNgram (min_n g) (max_n g) (ng_k g) (ng_max_model_len g) d n.

(** One iteration of [batch_propose_numba]: the row of request [idx] is overwritten
    from its start. *)
Definition propose_one (num_tokens_no_spec : list nat) (token_ids_cpu : list (list Z)) (g : NgramProposer) (idx : nat)
  : result NgramProposer :=
  num_tokens ← of_option IndexError (num_tokens_no_spec !! idx);
  row ← of_option IndexError (token_ids_cpu !! idx);
  out ← find_longest_matched_ngram_and_propose_tokens (take num_tokens row) (min_n g) (max_n g)
          (ng_max_model_len g) (ng_k g);
  draft ← of_option IndexError (valid_ngram_draft g !! idx);
  Ok (set_drafts (<[idx := out ++ drop (length out) draft]> (valid_ngram_draft g))
                 (<[idx := length out]> (valid_ngram_num_drafts g)) g).

(** [batch_propose_numba]: the iterations write different rows, so the order of the
    parallel loop does not matter. *)
Definition batch_propose_numba (valid : list nat) (num_tokens_no_spec : list nat) (token_ids_cpu : list (list Z))
    (g : NgramProposer) : result NgramProposer :=
  foldM (propose_one num_tokens_no_spec token_ids_cpu) g valid.

(** The list [batch_propose] builds for request [i]. *)
Definition draft_of (valid : list nat) (g : NgramProposer) (i : nat) : result (list Z) :=
  if bool_decide (i ∈ valid) then
    n ← of_option IndexError (valid_ngram_num_drafts g !! i);
    if (0 <? n)%nat then
      row ← of_option IndexError (valid_ngram_draft g !! i);
      Ok (take n row)
    else Ok []
  else Ok [].

(** [batch_propose]. *)
Definition batch_propose (num_requests : nat) (valid : list nat) (num_tokens_no_spec : list nat)
    (token_ids_cpu : list (list Z)) (g : NgramProposer) : result (list (list Z) * NgramProposer) :=
  g1 ← (if (0 <? length valid)%nat then batch_propose_numba valid num_tokens_no_spec token_ids_cpu g else Ok g);
  ds ← mapM (draft_of valid g1) (seq 0 num_requests);
  Ok (ds, g1).

(** The loop of [propose] over the sampled tokens of the requests. *)
Fixpoint valid_requests (max_len : Z) (i : nat) (sampled_token_ids : list (list Z)) (num_tokens_no_spec : list nat)
  : result (list nat) :=
  match sampled_token_ids with
  | [] => Ok []
  | s :: rest =>
      match s with
      | [] => valid_requests max_len (S i) rest num_tokens_no_spec
      | _ =>
          n ← of_option IndexError (num_tokens_no_spec !! i);
          ids ← valid_requests max_len (S i) rest num_tokens_no_spec;
          Ok (if max_len <=? Z.of_nat n then ids else i :: ids)
      end
  end.

(** [propose]. *)
Definition propose (sampled_token_ids : list (list Z)) (num_tokens_no_spec : list nat) (token_ids_cpu : list (list Z))
    (g : NgramProposer) : result (list (list Z) * NgramProposer) :=
  valid ← valid_requests (ng_max_model_len g) 0 sampled_token_ids num_tokens_no_spec;
  batch_propose (length sampled_token_ids) valid num_tokens_no_spec token_ids_cpu g.

(** ** The scan is the prefix function *)

Section Kmp.
Context (t : list Z) (N : nat).
Hypothesis HN : (1 <= N)%nat.

(** The first [v] tokens end at [e], not at the start. *)
Definition occ (v e : nat) : Prop := (v < e <= length t)%nat /\ forall j, (j < v)%nat -> t !! j = t !! (e - v + j)%nat.

Lemma occ_zero e : (0 < e <= length t)%nat -> occ 0 e.
Proof. intros He. split; [done|]. intros j Hj. lia. Qed.

Lemma occ_succ v e : (e < length t)%nat -> occ (S v) (S e) <-> occ v e /\ t !! v = t !! e.
Proof.
  intros He. split.
  - intros [H1 H2]. split; [split; [lia|]|].
    + intros j Hj. rewrite H2 by lia. f_equal; lia.
    + rewrite H2 by lia. f_equal; lia.
  - intros [[H1 H2] H3]. split; [lia|]. intros j Hj. destruct (decide (j = v)) as [->|].
    + rewrite H3. f_equal; lia.
    + rewrite H2 by lia. f_equal; lia.
Qed.

(** A shorter match at the same place ends inside the longer one. *)
Lemma occ_inner u v e : occ v e -> occ u e -> (u < v)%nat -> occ u v.
Proof.
  intros [H1 H2] [H3 H4] Huv. split; [lia|]. intros j Hj. rewrite H4, (H2 (v - u + j)%nat) by lia. f_equal; lia.
Qed.
Lemma occ_outer u v e : occ v e -> occ u v -> occ u e.
Proof.
  intros [H1 H2] [H3 H4]. split; [lia|]. intros j Hj. rewrite H4, (H2 (v - u + j)%nat) by lia. f_equal; lia.
Qed.

(** [v] is the longest match that ends at [e]. *)
Definition longest_at (e v : nat) : Prop := occ v e /\ forall u, occ u e -> (u <= v)%nat.

Record kmp_inv (s : kmp_state) : Prop := {
  kv_i : (1 <= kmp_i s)%nat;
  kv_prev : occ (prev_lps s) (kmp_i s);
  kv_cap : (prev_lps s < N)%nat;
  kv_tried : forall u, occ u (kmp_i s) -> (u < N)%nat -> (prev_lps s < u)%nat -> t !! u <> t !! kmp_i s;
  kv_len : length (lps s) = N;
  kv_lps : forall e, (1 <= e <= N)%nat -> (e <= kmp_i s)%nat -> exists v, lps s !! (e - 1)%nat = Some v /\ longest_at e v;
  kv_zero : forall e, (kmp_i s <= e)%nat -> (e < N)%nat -> lps s !! e = Some 0%nat;
  kv_best : forall i u, (1 <= i < kmp_i s)%nat -> (1 <= u <= N)%nat -> occ u (S i) ->
              (u <= longest_ngram s)%nat /\ (u = longest_ngram s -> (i <= position s)%nat);
  kv_found : longest_ngram s = 0%nat \/ (longest_ngram s <= N /\ 1 <= position s < kmp_i s)%nat /\
                occ (longest_ngram s) (S (position s));
}.

Lemma kmp_init_inv : (1 <= length t)%nat -> kmp_inv (kmp_init N).
Proof.
  intros Ht. split; cbn; try lia.
  - apply occ_zero. lia.
  - intros u [H _]. lia.
  - apply length_replicate.
  - intros e He1 He2. assert (e = 1%nat) as -> by lia. exists 0%nat. split; [by apply lookup_replicate|].
    split; [apply occ_zero; lia|]. intros u [H _]. lia.
  - intros e _ He. by apply lookup_replicate.
Qed.

(** The match grows: no longer pattern ends here. *)
Lemma grow_longest s u :
  kmp_inv s -> (kmp_i s < length t)%nat -> (u <= N)%nat -> occ u (S (kmp_i s)) -> (u <= S (prev_lps s))%nat.
Proof.
  intros Hs Hi Hu Ho. destruct u as [|w]; [lia|]. apply occ_succ in Ho as [Ho He]; [|done].
  destruct (decide (prev_lps s < w)%nat) as [Hlt|]; [|lia]. exfalso. by apply (kv_tried s Hs w Ho).
Qed.

Lemma step_match_lps s e :
  kmp_inv s -> (kmp_i s < length t)%nat -> t !! prev_lps s = t !! kmp_i s ->
  let lps1 := if (kmp_i s <? N)%nat then <[kmp_i s := S (prev_lps s)]> (lps s) else lps s in
  (1 <= e <= N)%nat -> (e <= S (kmp_i s))%nat -> exists v, lps1 !! (e - 1)%nat = Some v /\ longest_at e v.
Proof.
  intros Hs Hi Heq lps1 He1 He2. pose proof (kv_i s Hs). subst lps1. destruct (decide (e = S (kmp_i s))) as [->|Hne].
  - rewrite (proj2 (Nat.ltb_lt _ _)) by lia. exists (S (prev_lps s)). split.
    + replace (S (kmp_i s) - 1)%nat with (kmp_i s) by lia. apply list_lookup_insert_eq. rewrite (kv_len s Hs). lia.
    + split; [apply occ_succ; [done|split; [apply Hs|done]]|]. intros u Hu. apply (grow_longest s); try done.
      destruct Hu as [? _]. lia.
  - destruct (kv_lps s Hs e He1) as (v & Hv & Hl); [lia|]. exists v. split; [|done].
    destruct (kmp_i s <? N)%nat; [|done]. rewrite list_lookup_insert_ne by lia. done.
Qed.

(** A token that matches. *)
Lemma step_match s :
  kmp_inv s -> (kmp_i s < length t)%nat -> t !! prev_lps s = t !! kmp_i s ->
  let p := S (prev_lps s) in
  let longer := (longest_ngram s <=? p)%nat in
  let lps1 := if (kmp_i s <? N)%nat then <[kmp_i s := p]> (lps s) else lps s in
  exists p', (if (p =? N)%nat then of_option IndexError (lps1 !! (N - 1)%nat) else Ok p) = Ok p' /\
    kmp_inv (mkKmp lps1 (if longer then p else longest_ngram s) (if longer then kmp_i s else position s) p' (S (kmp_i s))).
Proof.
  intros Hs Hi Heq p longer lps1. pose proof (kv_i s Hs) as Hi1. pose proof (kv_prev s Hs) as Hprev.
  assert (Hocc : occ p (S (kmp_i s))) by (apply occ_succ; done).
  assert (Hpi : (p <= kmp_i s)%nat) by (destruct Hprev; lia).
  assert (Hlen1 : length lps1 = N) by (subst lps1; destruct (kmp_i s <? N)%nat; [rewrite length_insert|]; apply Hs).
  assert (Hlps1 : forall e, (1 <= e <= N)%nat -> (e <= S (kmp_i s))%nat -> exists v, lps1 !! (e - 1)%nat = Some v /\ longest_at e v)
    by (intros; by apply step_match_lps).
  assert (Hp' : exists p', (if (p =? N)%nat then of_option IndexError (lps1 !! (N - 1)%nat) else Ok p) = Ok p' /\
     occ p' (S (kmp_i s)) /\ (p' < N)%nat /\ forall u, occ u (S (kmp_i s)) -> (u < N)%nat -> (u <= p')%nat).
  { pose proof (kv_cap s Hs). destruct (Nat.eqb_spec p N) as [HpN|HpN].
    - destruct (Hlps1 N) as (v & Hv & Hl & Hmax); [lia|lia|]. exists v. rewrite Hv. rewrite HpN in Hocc. split_and!; try done.
      + by apply (occ_outer v N).
      + destruct Hl as [? _]. lia.
      + intros u Hu Hlt. apply Hmax. by apply (occ_inner u N (S (kmp_i s))).
    - exists p. split_and!; try done; [lia|]. intros u Hu Hlt. apply (grow_longest s); try done; lia. }
  destruct Hp' as (p' & -> & Hop & Hcap & Hmaxp). exists p'. split; [done|].
  split; cbn [kmp_i prev_lps lps longest_ngram position]; try done; try lia.
  - intros u Hu Hlt Hgt. specialize (Hmaxp u Hu Hlt). lia.
  - intros e He1 He2. subst lps1. destruct (kmp_i s <? N)%nat; [rewrite list_lookup_insert_ne by lia|]; apply (kv_zero s Hs); lia.
  - intros i u Hir Hur Hou. subst longer. destruct (decide (i = kmp_i s)) as [->|Hne].
    + pose proof (grow_longest s u Hs Hi ltac:(lia) Hou). destruct (Nat.leb_spec (longest_ngram s) p); lia.
    + destruct (kv_best s Hs i u ltac:(lia) Hur Hou). destruct (Nat.leb_spec (longest_ngram s) p); lia.
  - pose proof (kv_cap s Hs). subst longer. destruct (Nat.leb_spec (longest_ngram s) p) as [Hle|Hgt].
    + right. split; [lia|done].
    + destruct (kv_found s Hs) as [H0|[H1 H2]]; [by left|right]. split; [lia|done].
Qed.

(** A token that does not match: the next candidate, or the next position. *)
Lemma step_shift s :
  kmp_inv s -> (kmp_i s < length t)%nat -> t !! prev_lps s <> t !! kmp_i s -> prev_lps s <> 0%nat ->
  exists p, lps s !! (prev_lps s - 1)%nat = Some p /\ (p < prev_lps s)%nat /\
    kmp_inv (mkKmp (lps s) (longest_ngram s) (position s) p (kmp_i s)).
Proof.
  intros Hs Hi Hne H0. pose proof Hs as [Hi1 Hprev Hcap Htr Hlen Hlps Hz Hb Hf]. pose proof Hprev as [Hpi _].
  destruct (Hlps (prev_lps s)) as (p & Hp & Hl & Hmax); [lia|lia|]. pose proof Hl as [Hlp _]. exists p. split_and!; [done|lia|].
  split; cbn [kmp_i prev_lps lps longest_ngram position]; try done; try lia.
  - by apply (occ_outer p (prev_lps s)).
  - intros u Hu Hlt Hgt. destruct (Nat.lt_total (prev_lps s) u) as [H|[<-|H]]; [by apply Htr|done|].
    exfalso. pose proof (Hmax u (occ_inner _ _ _ Hprev Hu H)). lia.
Qed.

Lemma step_next s :
  kmp_inv s -> (kmp_i s < length t)%nat -> t !! prev_lps s <> t !! kmp_i s -> prev_lps s = 0%nat ->
  kmp_inv (mkKmp (lps s) (longest_ngram s) (position s) 0 (S (kmp_i s))).
Proof.
  intros Hs Hi Hne H0. pose proof Hs as [Hi1 Hprev Hcap Htr Hlen Hlps Hz Hb Hf]. rewrite H0 in *.
  assert (Hno : forall u, (1 <= u <= N)%nat -> ~ occ u (S (kmp_i s))).
  { intros [|w] Hu Ho; [lia|]. apply occ_succ in Ho as [Ho He]; [|done]. destruct w; [done|]. apply (Htr (S w)); try done; lia. }
  split; cbn [kmp_i prev_lps lps longest_ngram position]; try done; try lia.
  - apply occ_zero. lia.
  - intros u Hu Hlt Hgt. exfalso. apply (Hno u); [lia|done].
  - intros e He1 He2. destruct (decide (e = S (kmp_i s))) as [->|]; [|apply Hlps; lia]. exists 0%nat.
    replace (S (kmp_i s) - 1)%nat with (kmp_i s) by lia. split; [apply Hz; lia|]. split; [apply occ_zero; lia|].
    intros u Hu. destruct (decide (u = 0%nat)) as [->|]; [lia|]. exfalso. apply (Hno u); [destruct Hu as [? _]; lia|done].
  - intros e He1 He2. apply Hz; lia.
  - intros i u Hir Hur Hou. destruct (decide (i = kmp_i s)) as [->|]; [|apply Hb; [lia|done|done]]. exfalso. by apply (Hno u).
  - destruct Hf as [Hf|[Hf1 Hf2]]; [by left|right]. split; [lia|done].
Qed.

(** The loop ends within [2 * length t] turns, at the end of the tokens. *)
Lemma kmp_loop_spec fuel s :
  kmp_inv s -> (kmp_i s <= length t)%nat -> (2 * (length t - kmp_i s) + prev_lps s < fuel)%nat ->
  exists s', kmp_loop fuel t N s = Ok s' /\ kmp_inv s' /\ kmp_i s' = length t.
Proof.
  revert s. induction fuel as [|fuel IH]; intros s Hs Hi Hf; [lia|]. cbn [kmp_loop].
  destruct (Nat.ltb_spec (kmp_i s) (length t)) as [Hlt|Hge]; [|exists s; split_and!; [done|done|lia]].
  pose proof (kv_prev s Hs) as [Hpi _].
  destruct (lookup_lt_is_Some_2 t (prev_lps s)) as [a Ha]; [lia|]. destruct (lookup_lt_is_Some_2 t (kmp_i s)) as [b Hb]; [lia|].
  rewrite Ha, Hb. cbn [of_option mbind result_bind]. destruct (Z.eqb_spec a b) as [->|Hab].
  - destruct (step_match s Hs Hlt) as (p' & Hp' & Hs'); [congruence|]. rewrite Hp'. cbn [mbind result_bind].
    pose proof (kv_prev _ Hs') as [Hp2 _]. cbn in Hp2.
    assert (Hle : (p' <= S (prev_lps s))%nat).
    { destruct (S (prev_lps s) =? N)%nat eqn:E; [|injection Hp' as <-; lia]. pose proof (kv_cap _ Hs') as Hc. cbn in Hc.
      apply Nat.eqb_eq in E. lia. }
    apply IH; [done|cbn; lia|cbn; lia].
  - assert (Hne : t !! prev_lps s <> t !! kmp_i s) by congruence. destruct (Nat.eqb_spec (prev_lps s) 0) as [H0|H0]; cbn [negb].
    + apply IH; [by apply step_next|cbn; lia|cbn; lia].
    + destruct (step_shift s Hs Hlt Hne H0) as (p & -> & Hp & Hs'). cbn [of_option mbind result_bind]. apply IH; [done|cbn; lia|cbn; lia].
Qed.
End Kmp.

(** ** The drafts *)

(** The last [n] tokens also stand at [s], before the end. *)
Definition ngram_at (o : list Z) (n s : nat) : Prop :=
  (s + n < length o)%nat /\ take n (drop s o) = drop (length o - n) o.

Lemma take_drop_eq_iff (o : list Z) n s :
  (s + n <= length o)%nat -> take n (drop s o) = drop (length o - n) o <->
  forall j, (j < n)%nat -> o !! (s + j)%nat = o !! (length o - n + j)%nat.
Proof.
  intros Hs. split.
  - intros H j Hj. rewrite <- (lookup_drop o (length o - n)), <- H, lookup_take_lt, lookup_drop by lia. done.
  - intros H. apply list_eq. intros j. rewrite lookup_drop. destruct (decide (j < n)%nat).
    + rewrite lookup_take_lt, lookup_drop by lia. by apply H.
    + rewrite lookup_take_ge by lia. symmetry. apply lookup_ge_None_2. lia.
Qed.

(** A match in the reversed tokens is an earlier occurrence. *)
Lemma occ_ngram o n i :
  (i < length o)%nat -> occ (reverse o) n (S i) <-> ngram_at o n (length o - 1 - i).
Proof.
  intros Hi. unfold occ, ngram_at. rewrite length_reverse.
  assert (Hr : forall a, (a < length o)%nat -> reverse o !! a = o !! (length o - 1 - a)%nat).
  { intros a Ha. rewrite reverse_lookup by done. f_equal; lia. }
  split.
  - intros [H1 H2]. split; [lia|]. apply take_drop_eq_iff; [lia|]. intros j Hj.
    specialize (H2 (n - 1 - j)%nat ltac:(lia)). rewrite !Hr in H2 by lia.
    replace (length o - n + j)%nat with (length o - 1 - (n - 1 - j))%nat by lia. rewrite H2. f_equal; lia.
  - intros [H1 H2]. split; [lia|]. intros j Hj. rewrite take_drop_eq_iff in H2 by lia.
    specialize (H2 (n - 1 - j)%nat ltac:(lia)). rewrite !Hr by lia.
    replace (length o - 1 - j)%nat with (length o - n + (n - 1 - j))%nat by lia. rewrite <- H2. f_equal; lia.
Qed.

Lemma take_min_length (k : Z) (xs : list Z) : 0 <= k -> take (Z.to_nat (Z.min k (zlen xs))) xs = take (Z.to_nat k) xs.
Proof.
  intros Hk. unfold zlen. destruct (Z.min_spec k (Z.of_nat (length xs))) as [[H ->]|[H ->]]; [done|].
  rewrite !take_ge by lia. done.
Qed.

(** C21: The proposer drafts from the right place: for [1 <= min <= max] the search always
    ends, and drafts the tokens that followed the earliest earlier occurrence of the
    longest n-gram, of a length from [min] to [max], that the tokens end with; at most [k]
    of them, and never past the maximum model length.  Without such an n-gram, or
    without room, the draft is empty. *)
Theorem ngram_proposal_correct o min_ngram max_ngram max_model_len k :
  (1 <= min_ngram <= max_ngram)%nat ->
  exists d, find_longest_matched_ngram_and_propose_tokens o min_ngram max_ngram max_model_len k = Ok d /\
    let room := Z.min k (max_model_len - zlen o) in
    (room <= 0 -> d = []) /\
    ((forall n s, (min_ngram <= n <= max_ngram)%nat -> ~ ngram_at o n s) -> d = []) /\
    (forall n s, 0 < room -> (min_ngram <= n <= max_ngram)%nat -> ngram_at o n s ->
       (forall n' s', (n < n' <= max_ngram)%nat -> ~ ngram_at o n' s') ->
       (forall s', (s' < s)%nat -> ~ ngram_at o n s') ->
       d = take (Z.to_nat room) (drop (s + n) o) /\ d <> []).
Proof.
  intros Hmm. unfold find_longest_matched_ngram_and_propose_tokens. cbv zeta.
  destruct (Nat.ltb_spec (length o) min_ngram) as [Hshort|Hlen].
  { exists []. split_and!; try done. intros n s _ Hn [Hs _]. lia. }
  fold (zlen o). set (room := Z.min k (max_model_len - zlen o)).
  destruct (Z.leb_spec room 0) as [Hroom|Hroom]; [exists []; split_and!; try done; intros; lia|].
  assert (Hinit : kmp_inv (reverse o) max_ngram (kmp_init max_ngram)) by (apply kmp_init_inv; rewrite ?length_reverse; lia).
  destruct (kmp_loop_spec (reverse o) max_ngram ltac:(lia) (S (2 * length o)) _ Hinit) as (s & Hloop & Hs & Hi);
    [cbn; rewrite length_reverse; lia|cbn; rewrite length_reverse; lia|].
  rewrite length_reverse in Hi. rewrite Hloop. cbn [mbind result_bind].
  pose proof (kv_best _ _ _ Hs) as Hbest. pose proof (kv_found _ _ _ Hs) as Hfound. rewrite Hi in Hbest, Hfound.
  assert (Hup : forall n s', (1 <= n <= max_ngram)%nat -> ngram_at o n s' ->
    (n <= longest_ngram s)%nat /\ (n = longest_ngram s -> length o - 1 - s' <= position s)%nat).
  { intros n s' Hn Hat. pose proof Hat as [Hat1 _]. apply (Hbest (length o - 1 - s')%nat n); [lia|done|]. apply occ_ngram; [lia|].
    by replace (length o - 1 - (length o - 1 - s'))%nat with s' by lia. }
  destruct (Nat.ltb_spec (longest_ngram s) min_ngram) as [Hlt|Hge].
  { exists []. split_and!; try done. intros n s' _ Hn Hat. destruct (Hup n s' ltac:(lia) Hat). lia. }
  destruct Hfound as [H0|[Hpos Hocc]]; [lia|]. rewrite occ_ngram in Hocc by lia.
  set (st := (length o - 1 - position s)%nat) in *. pose proof Hocc as [Hst _].
  eexists. split; [done|]. split_and!; [lia|intros Hno; by destruct (Hno (longest_ngram s) st ltac:(lia))|].
  intros n s' _ Hn Hat Hlong Hearly. assert (n = longest_ngram s) as ->.
  { destruct (Hup n s' ltac:(lia) Hat). destruct (decide (n = longest_ngram s)); [done|].
    by destruct (Hlong (longest_ngram s) st ltac:(lia)). }
  assert (s' = st) as ->.
  { destruct (Hup (longest_ngram s) s' ltac:(lia) Hat) as [_ Hp]. specialize (Hp eq_refl). destruct Hat as [Ha _].
    destruct (decide (st < s')%nat) as [Hs'|]; [by destruct (Hearly st Hs')|]. unfold st in *. lia. }
  assert (Hd : Z.of_nat (length o - (st + longest_ngram s)) = zlen (drop (st + longest_ngram s) o)) by (unfold zlen; by rewrite length_drop).
  rewrite Hd, take_min_length by lia. split; [done|]. intros Hnil%(f_equal length). rewrite length_take, length_drop in Hnil. cbn in Hnil. lia.
Qed.

Lemma ngram_proposal_correct_witness :
  find_longest_matched_ngram_and_propose_tokens [1; 2; 3; 4; 1; 2; 3; 9; 2; 3] 2 3 100 2 = Ok [4; 1] /\
  exists d, find_longest_matched_ngram_and_propose_tokens [1; 2; 3; 4; 1; 2; 3; 9; 2; 3] 2 3 100 2 = Ok d /\ d <> [].
Proof.
  split; [by vm_compute|].
  destruct (ngram_proposal_correct [1; 2; 3; 4; 1; 2; 3; 9; 2; 3] 2 3 100 2) as (d & Hd & _); [lia|].
  exists d. split; [exact Hd|]. vm_compute in Hd. injection Hd as <-. discriminate.
Defined.

(** ** The batch *)


Section Batch.
Context (nums : list nat) (rows : list (list Z)) (sampled : list (list Z)).

(** The buffers have a row per request, and the bounds are configured. *)
Record buffers_ok (g : NgramProposer) (n : nat) : Prop := {
  bo_range : (1 <= min_n g <= max_n g)%nat;
  bo_nums : (n <= length nums)%nat;
  bo_rows : (n <= length rows)%nat;
  bo_draft : (n <= length (valid_ngram_draft g))%nat;
  bo_count : (n <= length (valid_ngram_num_drafts g))%nat;
}.

(** The draft of request [i], from its tokens alone. *)
Definition draft_for (g : NgramProposer) (i : nat) (d : list Z) : Prop :=
  exists n row, nums !! i = Some n /\ rows !! i = Some row /\
    find_longest_matched_ngram_and_propose_tokens (take n row) (min_n g) (max_n g) (ng_max_model_len g) (ng_k g) = Ok d.

Lemma find_total o mn mx len k : (1 <= mn <= mx)%nat ->
  exists d, find_longest_matched_ngram_and_propose_tokens o mn mx len k = Ok d.
Proof.
  intros Hm. unfold find_longest_matched_ngram_and_propose_tokens. cbv zeta.
  destruct (Nat.ltb_spec (length o) mn); [by eexists|]. destruct (Z.leb_spec (Z.min k (len - Z.of_nat (length o))) 0); [by eexists|].
  destruct (kmp_loop_spec (reverse o) mx ltac:(lia) (S (2 * length o)) (kmp_init mx)) as (s & -> & _);
    [apply kmp_init_inv; rewrite ?length_reverse; lia|cbn; rewrite length_reverse; lia|cbn; rewrite length_reverse; lia|].
  cbn [mbind result_bind]. destruct (longest_ngram s <? mn)%nat; by eexists.
Qed.

(** What the loop over the valid requests leaves behind. *)
Definition drafted (g g' : NgramProposer) (valid : list nat) : Prop :=
  min_n g' = min_n g /\ max_n g' = max_n g /\ ng_k g' = ng_k g /\ ng_max_model_len g' = ng_max_model_len g /\
  length (valid_ngram_draft g') = length (valid_ngram_draft g) /\
  length (valid_ngram_num_drafts g') = length (valid_ngram_num_drafts g) /\
  (forall i, i ∉ valid -> valid_ngram_draft g' !! i = valid_ngram_draft g !! i /\
     valid_ngram_num_drafts g' !! i = valid_ngram_num_drafts g !! i) /\
  (forall i, i ∈ valid -> exists d rest, draft_for g i d /\ valid_ngram_num_drafts g' !! i = Some (length d) /\
     valid_ngram_draft g' !! i = Some (d ++ rest)).

Lemma propose_one_spec g n idx :
  buffers_ok g n -> (idx < n)%nat -> exists g', propose_one nums rows g idx = Ok g' /\ drafted g g' [idx].
Proof.
  intros [Hr Hn Hrow Hd Hc] Hi. unfold propose_one.
  destruct (lookup_lt_is_Some_2 nums idx) as [m Hm]; [lia|]. destruct (lookup_lt_is_Some_2 rows idx) as [row Hrw]; [lia|].
  destruct (lookup_lt_is_Some_2 (valid_ngram_draft g) idx) as [dr Hdr]; [lia|].
  rewrite Hm, Hrw. cbn [of_option mbind result_bind].
  destruct (find_total (take m row) _ _ (ng_max_model_len g) (ng_k g) Hr) as [d Hfind]. rewrite Hfind, Hdr.
  cbn [of_option mbind result_bind]. eexists. split; [done|]. unfold drafted, set_drafts. cbn. split_and!; try done.
  - by rewrite length_insert.
  - by rewrite length_insert.
  - intros i Hni. rewrite list_elem_of_singleton in Hni. by rewrite !list_lookup_insert_ne.
  - intros i ->%list_elem_of_singleton. exists d, (drop (length d) dr). rewrite !list_lookup_insert_eq by lia.
    split_and!; [by exists m, row|done|done].
Qed.

Lemma drafted_trans g1 g2 g3 v1 v2 : drafted g1 g2 v1 -> drafted g2 g3 v2 -> drafted g1 g3 (v1 ++ v2).
Proof.
  intros (A1 & A2 & A3 & A4 & A5 & A6 & A7 & A8) (B1 & B2 & B3 & B4 & B5 & B6 & B7 & B8).
  unfold drafted. split_and!; try congruence.
  - intros i Hi. rewrite elem_of_app in Hi. destruct (B7 i ltac:(tauto)) as [-> ->]. apply A7. tauto.
  - intros i Hi. destruct (decide (i ∈ v2)) as [H2|H2].
    + destruct (B8 i H2) as (d & rest & (n & row & Hn & Hr & Hf) & Hc & Hd). exists d, rest. split_and!; try done.
      exists n, row. by rewrite <- A1, <- A2, <- A3, <- A4.
    + destruct (B7 i H2) as [-> ->]. apply A8. rewrite elem_of_app in Hi. tauto.
Qed.

Lemma batch_spec g n valid :
  buffers_ok g n -> (forall i, i ∈ valid -> (i < n)%nat) ->
  exists g', batch_propose_numba valid nums rows g = Ok g' /\ drafted g g' valid.
Proof.
  revert g. unfold batch_propose_numba. induction valid as [|idx valid IH]; intros g Hg Hv; cbn [foldM].
  { exists g. split; [done|]. unfold drafted. split_and!; try done. by intros i ?%elem_of_nil. }
  destruct (propose_one_spec g n idx Hg) as (g1 & -> & Hd1); [apply Hv; constructor|]. cbn [mbind result_bind].
  destruct (IH g1) as (g2 & -> & Hd2).
  - destruct Hd1 as (E1 & E2 & _ & _ & E5 & E6 & _). destruct Hg. split; rewrite ?E1, ?E2, ?E5, ?E6; done.
  - intros i Hi. apply Hv. by constructor.
  - exists g2. split; [done|]. exact (drafted_trans g g1 g2 [idx] valid Hd1 Hd2).
Qed.

(** The requests [propose] drafts for. *)
Definition wants_draft (max_len : Z) (i : nat) : Prop :=
  exists s n, sampled !! i = Some s /\ s <> [] /\ nums !! i = Some n /\ Z.of_nat n < max_len.
End Batch.

Lemma valid_requests_spec max_len nums sampled i0 :
  (i0 + length sampled <= length nums)%nat ->
  exists v, valid_requests max_len i0 sampled nums = Ok v /\
    forall i, i ∈ v <-> (i0 <= i)%nat /\ exists s n, sampled !! (i - i0)%nat = Some s /\ s <> [] /\ nums !! i = Some n /\ Z.of_nat n < max_len.
Proof.
  revert i0. induction sampled as [|s sampled IH]; intros i0 Hlen; cbn [valid_requests length] in *.
  { exists []. split; [done|]. intros i. split; [by intros ?%elem_of_nil|]. by intros (_ & s & n & H & _). }
  destruct (IH (S i0) ltac:(lia)) as (v & Hv & Hspec). destruct (lookup_lt_is_Some_2 nums i0) as [m Hm]; [lia|].
  assert (Hstep : forall i, i <> i0 -> i ∈ v <-> (i0 <= i)%nat /\ exists s' n, (s :: sampled) !! (i - i0)%nat = Some s' /\ s' <> [] /\
      nums !! i = Some n /\ Z.of_nat n < max_len).
  { intros i Hi. rewrite Hspec. destruct (decide (S i0 <= i)%nat).
    - replace (i - i0)%nat with (S (i - S i0)) by lia. cbn. intuition lia.
    - intuition lia. }
  assert (Hno : i0 ∉ v) by (rewrite Hspec; lia).
  destruct s as [|a s].
  - exists v. split; [done|]. intros i. destruct (decide (i = i0)) as [->|Hne]; [|by apply Hstep].
    split; [done|]. rewrite Nat.sub_diag. by intros (_ & s' & n & [= <-] & ? & _).
  - rewrite Hm, Hv. cbn [of_option mbind result_bind]. eexists. split; [done|]. intros i.
    destruct (decide (i = i0)) as [->|Hne].
    + rewrite Nat.sub_diag. cbn. destruct (Z.leb_spec max_len (Z.of_nat m)).
      * split; [done|]. intros (_ & s' & n & _ & _ & Hn & Hlt). rewrite Hm in Hn. injection Hn as ->. lia.
      * split; [|by constructor]. intros _. split; [lia|]. by exists (a :: s), m.
    + rewrite <- Hstep by done. destruct (max_len <=? Z.of_nat m); [done|]. rewrite elem_of_cons. naive_solver.
Qed.

(** C22: A batch of proposals is the per-request search and nothing else: for each
    request that sampled a token and is below the maximum length, the draft of its own
    tokens; for every other request the empty draft.  What earlier calls left in the
    buffers never shows. *)
Theorem propose_correct sampled nums rows g :
  buffers_ok nums rows g (length sampled) ->
  exists ds g', propose sampled nums rows g = Ok (ds, g') /\ length ds = length sampled /\
    forall i, (i < length sampled)%nat -> exists d, ds !! i = Some d /\
      (wants_draft nums sampled (ng_max_model_len g) i -> draft_for nums rows g i d) /\
      (~ wants_draft nums sampled (ng_max_model_len g) i -> d = []).
Proof.
  intros Hg. destruct (valid_requests_spec (ng_max_model_len g) nums sampled 0 (bo_nums _ _ _ _ Hg)) as (v & Hv & Hspec).
  unfold propose, batch_propose. rewrite Hv. cbn [mbind result_bind].
  assert (Hw : forall i, i ∈ v <-> wants_draft nums sampled (ng_max_model_len g) i).
  { intros i. rewrite Hspec, Nat.sub_0_r. unfold wants_draft. intuition lia. }
  assert (Hin : forall i, i ∈ v -> (i < length sampled)%nat).
  { intros i (s & n & Hs & _)%Hw. by eapply lookup_lt_Some. }
  assert (Hb : exists g', (if (0 <? length v)%nat then batch_propose_numba v nums rows g else Ok g) = Ok g' /\ drafted nums rows g g' v).
  { destruct (batch_spec nums rows g (length sampled) v Hg Hin) as (g' & Hb & Hd). destruct v; [|by exists g']. by exists g'. }
  destruct Hb as (g' & -> & Hd). cbn [mbind result_bind].
  destruct Hd as (_ & _ & _ & _ & E5 & E6 & _ & Hdr). 
  assert (Hone : forall i, (i < length sampled)%nat -> exists d, draft_of v g' i = Ok d /\
      (i ∈ v -> draft_for nums rows g i d) /\ (i ∉ v -> d = [])).
  { intros i Hi. unfold draft_of. case_bool_decide as Hiv; [|by exists []].
    destruct (Hdr i Hiv) as (d & rest & Hdf & Hc & Hrow). rewrite Hc, Hrow. cbn [of_option mbind result_bind].
    exists d. split; [|done]. destruct (Nat.ltb_spec 0 (length d)) as [Hp|Hp]; [by rewrite take_app_length|].
    destruct d; [done|cbn in Hp; lia]. }
  destruct (mapM_total (draft_of v g') (seq 0 (length sampled))) as (ds & Hds & Hl).
  { intros i [_ Hi]%elem_of_seq. destruct (Hone i Hi) as (d & -> & _). by exists d. }
  rewrite Hds. cbn [mbind result_bind]. exists ds, g'. split; [done|].
  pose proof (Forall2_length _ _ _ Hl) as Hlen. rewrite length_seq in Hlen. split; [done|].
  intros i Hi. destruct (Hone i Hi) as (d & Hdo & H1 & H2).
  destruct (Forall2_lookup_l _ _ _ i i Hl) as (d' & Hd' & Heq); [by apply lookup_seq|]. rewrite Hdo in Heq. injection Heq as <-.
  exists d. split; [done|]. rewrite <- Hw. done.
Qed.

Lemma propose_correct_witness :
  exists ds g', propose [[3]; []] [7; 0]%nat [[1; 2; 3; 9; 1; 2; 3]; []] (mkNgram 2 3 2 100 [[5; 5]; [6; 6]] [2; 2]%nat) = Ok (ds, g') /\
    ds = [[9; 1]; []].
Proof.
  destruct (propose_correct [[3]; []] [7; 0]%nat [[1; 2; 3; 9; 1; 2; 3]; []] (mkNgram 2 3 2 100 [[5; 5]; [6; 6]] [2; 2]%nat))
    as (ds & g' & H & _); [split; cbn; lia|]. exists ds, g'. split; [exact H|]. vm_compute in H. by injection H as <- _.
Defined.
