(* ===== verification/BlockTable.v ===== *)
(** * The block table of the worker

    vllm/v1/worker/block_table.py: for every KV cache group the rows of block ids of the
    requests in the batch, the copy of them on the device, made only when something changed,
    and the slots of the tokens of a step.

    A buffer ([CpuGpuBuffer] of vllm/v1/utils.py) is a list of rows on the host and one on the
    device; row numbers are those of the batch, not negative.  The world sizes and ranks of
    context parallelism are arguments. *)
From S2P Require Import Prelude.

(** ** Buffers *)

(** [b[lo:lo + len(xs)] = xs]: numpy clips the slice, and stretches a single value over
    whatever is left of it; other lengths raise. *)
Definition set_slice {A} (lo : nat) (xs b : list A) : result (list A) :=
  let room := (min (lo + length xs) (length b) - lo)%nat in
  if (room =? length xs)%nat then Ok (take lo b ++ xs ++ drop (lo + length xs) b)
  else match xs with [_] => Ok b | _ => Err ValueError end.

(** [dst[:n].copy_(src[:n])]. *)
Definition copy_rows {A} (n : nat) (src dst : list A) : list A := take n src ++ drop n dst.

(** ** [BlockTable] *)

Record BlockTable : Type := mkBT {
  bt_block_size : Z;
  blocks_per_kv_block : Z;
  use_hybrid_blocks : bool;
  max_num_blocks_per_req : Z;
  table_cpu : list (list Z);
  table_gpu : list (list Z);
  num_blocks_per_row : list Z;
  block_table_dirty : bool;
  slots_cpu : list Z;
  slots_gpu : list Z;
  bt_pcp_world_size : Z;
  pcp_rank : Z;
  bt_dcp_world_size : Z;
  dcp_rank : Z;
  cp_kv_cache_interleave_size : Z;
}.
Definition set_table (cpu : list (list Z)) (counts : list Z) (t : BlockTable) : BlockTable :=
  mkBT (bt_block_size t) (blocks_per_kv_block t) (use_hybrid_blocks t) (max_num_blocks_per_req t) cpu (table_gpu t) counts true
    (slots_cpu t) (slots_gpu t) (bt_pcp_world_size t) (pcp_rank t) (bt_dcp_world_size t) (dcp_rank t) (cp_kv_cache_interleave_size t).
Definition set_device (cpu gpu : list (list Z)) (t : BlockTable) : BlockTable :=
  mkBT (bt_block_size t) (blocks_per_kv_block t) (use_hybrid_blocks t) (max_num_blocks_per_req t) cpu gpu (num_blocks_per_row t) false
    (slots_cpu t) (slots_gpu t) (bt_pcp_world_size t) (pcp_rank t) (bt_dcp_world_size t) (dcp_rank t) (cp_kv_cache_interleave_size t).
Definition set_slots (cpu gpu : list Z) (t : BlockTable) : BlockTable :=
  mkBT (bt_block_size t) (blocks_per_kv_block t) (use_hybrid_blocks t) (max_num_blocks_per_req t) (table_cpu t) (table_gpu t) (num_blocks_per_row t) (block_table_dirty t)
    cpu gpu (bt_pcp_world_size t) (pcp_rank t) (bt_dcp_world_size t) (dcp_rank t) (cp_kv_cache_interleave_size t).

(** [__init__]; [torch.zeros] refuses a negative size. *)
Definition zeros2 (rows cols : Z) : result (list (list Z)) :=
  if (rows <? 0) || (cols <? 0) then Err RuntimeError else Ok (replicate (Z.to_nat rows) (replicate (Z.to_nat cols) 0)).
Definition bt_init (block_size max_num_reqs max_blocks max_batched kernel_block_size interleave pcp prank dcp drank : Z) : result BlockTable :=
  '(bs, ratio, hybrid) ← (if kernel_block_size =? block_size then Ok (block_size, 1, false)
                          else if kernel_block_size =? 0 then Err ZeroDivisionError
                          else if negb (block_size mod kernel_block_size =? 0) then Err ValueError
                          else Ok (kernel_block_size, block_size / kernel_block_size, true));
  rows ← zeros2 max_num_reqs (max_blocks * ratio);
  slots ← (if max_batched <? 0 then Err RuntimeError else Ok (replicate (Z.to_nat max_batched) 0));
  Ok (mkBT bs ratio hybrid (max_blocks * ratio) rows rows (replicate (Z.to_nat max_num_reqs) 0) false slots slots pcp prank dcp drank interleave).

(** [map_to_kernel_blocks]; the second argument is the length of [kernel_block_arange]. *)
Definition map_to_kernel_blocks (ratio : Z) (ids : list Z) : list Z :=
  if ratio =? 1 then ids else concat ((fun b => (fun k => b * ratio + k) <$> py_range 0 ratio) <$> ids).

(** [append_row], [add_row]. *)
Definition append_row (ids : list Z) (row : nat) (t : BlockTable) : result BlockTable :=
  match ids with
  | [] => Ok t
  | _ =>
      let ids' := if use_hybrid_blocks t then map_to_kernel_blocks (blocks_per_kv_block t) ids else ids in
      start ← of_option IndexError (num_blocks_per_row t !! row);
      cells ← of_option IndexError (table_cpu t !! row);
      cells' ← set_slice (Z.to_nat start) ids' cells;
      Ok (set_table (<[row := cells']> (table_cpu t)) (<[row := start + zlen ids']> (num_blocks_per_row t)) t)
  end.
Definition add_row (ids : list Z) (row : nat) (t : BlockTable) : result BlockTable :=
  _ ← of_option IndexError (num_blocks_per_row t !! row);
  append_row ids row (set_table (table_cpu t) (<[row := 0]> (num_blocks_per_row t)) t).

(** [move_row], [swap_row]. *)
Definition move_row (src tgt : nat) (t : BlockTable) : result BlockTable :=
  n ← of_option IndexError (num_blocks_per_row t !! src);
  from ← of_option IndexError (table_cpu t !! src);
  to ← of_option IndexError (table_cpu t !! tgt);
  Ok (set_table (<[tgt := copy_rows (Z.to_nat n) from to]> (table_cpu t)) (<[tgt := n]> (num_blocks_per_row t)) t).
Definition swap_at {A} (i j : nat) (l : list A) : result (list A) :=
  x ← of_option IndexError (l !! i); y ← of_option IndexError (l !! j); Ok (<[j := x]> (<[i := y]> l)).
Definition swap_row (src tgt : nat) (t : BlockTable) : result BlockTable :=
  counts ← swap_at src tgt (num_blocks_per_row t);
  cpu ← swap_at src tgt (table_cpu t);
  Ok (set_table cpu counts t).

(** [compute_slot_mapping]: one entry for each pair of a row and a position.  The block numbers
    are an int32 array, and so is its product with [block_size]; positions and offsets are int64. *)
Definition int32 (x : Z) : Z := (x + 2 ^ 31) mod 2 ^ 32 - 2 ^ 31.
Definition slot_of (t : BlockTable) (r : nat) (p : Z) : result Z :=
  let world := bt_pcp_world_size t * bt_dcp_world_size t in
  let rank := pcp_rank t * bt_dcp_world_size t + dcp_rank t in
  let bs := bt_block_size t in
  let inter := cp_kv_cache_interleave_size t in
  if 1 <? world then
    let virtual := bs * world in
    block ← py_index (concat (table_cpu t)) (Z.of_nat r * max_num_blocks_per_req t + p / virtual);
    let off := p mod virtual in
    let mask := (off / inter) mod world =? rank in
    Ok (if mask then int32 (block * bs) + (off / (world * inter) * inter + off mod inter) else -1)
  else
    block ← py_index (concat (table_cpu t)) (Z.of_nat r * max_num_blocks_per_req t + p / bs);
    Ok (int32 (block * bs) + p mod bs).
Definition compute_slot_mapping (tokens : list (nat * Z)) (t : BlockTable) : result BlockTable :=
  slots ← mapM (fun '(r, p) => slot_of t r p) tokens;
  cpu ← (if (length slots <=? length (slots_cpu t))%nat then Ok (copy_rows (length slots) slots (slots_cpu t)) else Err ValueError);
  Ok (set_slots cpu (slots_gpu t) t).

(** [commit_block_table], [commit_slot_mapping], [clear]. *)
Definition commit_block_table (num_reqs : nat) (t : BlockTable) : BlockTable :=
  if block_table_dirty t then set_device (table_cpu t) (copy_rows num_reqs (table_cpu t) (table_gpu t)) t else t.
Definition commit_slot_mapping (num_tokens : nat) (t : BlockTable) : BlockTable :=
  set_slots (slots_cpu t) (copy_rows num_tokens (slots_cpu t) (slots_gpu t)) t.
Definition bt_clear (t : BlockTable) : BlockTable :=
  set_device ((fun row => replicate (length row) 0) <$> table_cpu t) ((fun row => replicate (length row) 0) <$> table_gpu t) t.

(** [get_device_tensor]; [get_cpu_tensor] and [get_numpy_array], whose callers may write. *)
Definition get_device_tensor (num_reqs : nat) (t : BlockTable) : list (list Z) := take num_reqs (table_gpu t).
Definition get_cpu_tensor (t : BlockTable) : list (list Z) * BlockTable := (table_cpu t, set_table (table_cpu t) (num_blocks_per_row t) t).

(** ** [MultiGroupBlockTable] *)

Definition mg_init (max_num_reqs max_model_len max_batched : Z) (block_sizes kernel_block_sizes : list Z) (max_num_blocks : option (list Z))
    (interleave pcp prank dcp drank : Z) : result (list BlockTable) :=
  if negb (zlen kernel_block_sizes =? zlen block_sizes) then Err ValueError else
  max_blocks ← match max_num_blocks with
               | Some l => Ok l
               | None => mapM (fun bs => if bs * (pcp * dcp) =? 0 then Err ZeroDivisionError else Ok (cdiv max_model_len (bs * (pcp * dcp)))) block_sizes
               end;
  if negb (zlen max_blocks =? zlen block_sizes) then Err ValueError else
  mapM (fun '(bs, kbs, mb) => bt_init bs max_num_reqs mb max_batched kbs interleave pcp prank dcp drank) (zip (zip block_sizes kernel_block_sizes) max_blocks).
(** The loops over the groups; a missing list of block ids raises. *)
Fixpoint each_group (f : list Z -> BlockTable -> result BlockTable) (ids : list (list Z)) (ts : list BlockTable) : result (list BlockTable) :=
  match ts with
  | [] => Ok []
  | t :: ts' => l ← of_option IndexError (head ids); t' ← f l t; ts'' ← each_group f (tail ids) ts'; Ok (t' :: ts'')
  end.
Definition mg_append_row (ids : list (list Z)) (row : nat) (ts : list BlockTable) : result (list BlockTable) := each_group (fun l => append_row l row) ids ts.
Definition mg_add_row (ids : list (list Z)) (row : nat) (ts : list BlockTable) : result (list BlockTable) := each_group (fun l => add_row l row) ids ts.
Definition mg_move_row (src tgt : nat) (ts : list BlockTable) : result (list BlockTable) := mapM (move_row src tgt) ts.
Definition mg_swap_row (src tgt : nat) (ts : list BlockTable) : result (list BlockTable) := mapM (swap_row src tgt) ts.
Definition mg_compute_slot_mapping (tokens : list (nat * Z)) (ts : list BlockTable) : result (list BlockTable) := mapM (compute_slot_mapping tokens) ts.
Definition mg_commit_block_table (num_reqs : nat) (ts : list BlockTable) : list BlockTable := commit_block_table num_reqs <$> ts.
Definition mg_commit_slot_mapping (num_tokens : nat) (ts : list BlockTable) : list BlockTable := commit_slot_mapping num_tokens <$> ts.
Definition mg_clear (ts : list BlockTable) : list BlockTable := bt_clear <$> ts.
