(* ===== verification/BlockTableProps.v ===== *)
(** * What the block table promises

    Rows hold the blocks of their requests, whatever the kernel's block size; the slots of
    [compute_slot_mapping] are those of the unsplit blocks, no two tokens share one, and each
    token is kept by one rank; after a commit the device has the rows of the host. *)
From S2P Require Import Prelude BlockTable.

(** ** Lists *)

Lemma set_slice_ok {A} lo (xs b : list A) : (lo + length xs <= length b)%nat -> set_slice lo xs b = Ok (take lo b ++ xs ++ drop (lo + length xs) b).
Proof. intros H. unfold set_slice. by rewrite (proj2 (Nat.eqb_eq _ _)) by lia. Qed.
Lemma copy_rows_length {A} n (src dst : list A) : length src = length dst -> length (copy_rows n src dst) = length dst.
Proof. intros H. unfold copy_rows. rewrite length_app, length_take, length_drop. lia. Qed.
Lemma copy_rows_take {A} n (src dst : list A) : length src = length dst -> take n (copy_rows n src dst) = take n src.
Proof.
  intros H. unfold copy_rows. destruct (Nat.le_gt_cases n (length src)).
  - by rewrite take_app_length' by (rewrite length_take; lia).
  - rewrite (take_ge src) by lia. rewrite drop_ge by lia. by rewrite app_nil_r, take_ge by lia.
Qed.
Lemma concat_lookup {A} (rows : list (list A)) w r c : (forall row, row ∈ rows -> length row = w) -> (c < w)%nat ->
  concat rows !! (r * w + c)%nat = (row ← rows !! r; row !! c).
Proof.
  intros Hw Hc. revert r. induction rows as [|row rows IH]; intros r; [done|]. cbn [concat].
  pose proof (Hw row ltac:(by left)) as Hl. destruct r as [|r]; cbn.
  - by rewrite lookup_app_l by lia.
  - rewrite lookup_app_r by lia. replace (w + r * w + c - length row)%nat with (r * w + c)%nat by lia. apply IH. intros x Hx. apply Hw. by right.
Qed.

Lemma kernel_length ratio ids : 0 < ratio -> length (map_to_kernel_blocks ratio ids) = (length ids * Z.to_nat ratio)%nat.
Proof.
  intros Hr. unfold map_to_kernel_blocks. destruct (Z.eqb_spec ratio 1) as [->|]; [lia|]. induction ids as [|b ids IH]; [done|]. cbn. rewrite length_app, IH, length_fmap.
  unfold py_range. rewrite length_seqZ. lia.
Qed.
Lemma kernel_nil ratio : map_to_kernel_blocks ratio [] = [].
Proof. unfold map_to_kernel_blocks. by destruct (ratio =? 1). Qed.
Lemma kernel_app ratio ids ids' : map_to_kernel_blocks ratio (ids ++ ids') = map_to_kernel_blocks ratio ids ++ map_to_kernel_blocks ratio ids'.
Proof. unfold map_to_kernel_blocks. destruct (ratio =? 1); [done|]. by rewrite fmap_app, concat_app. Qed.

(** A kernel block is a part of its block. *)
Lemma kernel_lookup ratio ids k b : 0 < ratio -> 0 <= k -> ids !! Z.to_nat (k / ratio) = Some b ->
  map_to_kernel_blocks ratio ids !! Z.to_nat k = Some (b * ratio + k mod ratio).
Proof.
  intros Hr Hk Hb. unfold map_to_kernel_blocks. destruct (Z.eqb_spec ratio 1) as [->|].
  - rewrite Z.div_1_r in Hb. rewrite Hb. f_equal. rewrite Z.mod_1_r. lia.
  - pose proof (Z.mod_pos_bound k ratio Hr). pose proof (Z.div_pos k ratio Hk Hr). pose proof (Z.div_mod k ratio ltac:(lia)).
    replace (Z.to_nat k) with (Z.to_nat (k / ratio) * Z.to_nat ratio + Z.to_nat (k mod ratio))%nat by nia.
    rewrite (concat_lookup _ (Z.to_nat ratio)); [|intros row Hrow; apply list_elem_of_fmap in Hrow as (x & -> & _); rewrite length_fmap; unfold py_range; rewrite length_seqZ; lia|lia].
    rewrite list_lookup_fmap, Hb. cbn. rewrite list_lookup_fmap. unfold py_range. rewrite lookup_seqZ_lt by lia. cbn. f_equal. lia.
Qed.

(** ** Well-formed tables and the blocks of a row *)

Definition row_width (t : BlockTable) : nat := Z.to_nat (max_num_blocks_per_req t).
Record bt_wf (t : BlockTable) : Prop := {
  bw_cpu : forall row, row ∈ table_cpu t -> length row = row_width t;
  bw_gpu : forall row, row ∈ table_gpu t -> length row = row_width t;
  bw_rows : length (table_gpu t) = length (table_cpu t);
  bw_counts : length (num_blocks_per_row t) = length (table_cpu t);
  bw_count : forall n, n ∈ num_blocks_per_row t -> 0 <= n <= max_num_blocks_per_req t;
  bw_ratio : 0 < blocks_per_kv_block t;
  bw_hybrid : use_hybrid_blocks t = false -> blocks_per_kv_block t = 1;
  bw_sizes : 0 < bt_block_size t /\ 0 <= max_num_blocks_per_req t;
}.
(** The fields no operation changes. *)
Definition bt_const (t : BlockTable) := (bt_block_size t, blocks_per_kv_block t, use_hybrid_blocks t, max_num_blocks_per_req t, length (table_cpu t),
  (bt_pcp_world_size t, pcp_rank t, bt_dcp_world_size t, dcp_rank t, cp_kv_cache_interleave_size t)).
(** The kernel blocks of a row. *)
Definition row_ids (t : BlockTable) (r : nat) : list Z :=
  match num_blocks_per_row t !! r, table_cpu t !! r with Some n, Some row => take (Z.to_nat n) row | _, _ => [] end.
(** Row [r] is that of a request with these blocks. *)
Definition holds (t : BlockTable) (r : nat) (blocks : list Z) : Prop :=
  (r < length (table_cpu t))%nat /\ row_ids t r = map_to_kernel_blocks (blocks_per_kv_block t) blocks.
(** [n] more blocks fit into the row. *)
Definition fits_row (t : BlockTable) (blocks : list Z) : Prop := zlen blocks * blocks_per_kv_block t <= max_num_blocks_per_req t.

Lemma set_table_wf t cpu counts : bt_wf t -> length cpu = length (table_cpu t) -> length counts = length (table_cpu t) ->
  (forall row, row ∈ cpu -> length row = row_width t) -> (forall n, n ∈ counts -> 0 <= n <= max_num_blocks_per_req t) -> bt_wf (set_table cpu counts t).
Proof. intros [] H1 H2 H3 H4. split; cbn; auto; congruence. Qed.
Lemma wf_row t r : bt_wf t -> (r < length (table_cpu t))%nat -> exists n row, num_blocks_per_row t !! r = Some n /\ table_cpu t !! r = Some row /\
  length row = row_width t /\ 0 <= n <= max_num_blocks_per_req t.
Proof.
  intros Hw Hr. destruct (lookup_lt_is_Some_2 (table_cpu t) r Hr) as [row Hrow]. destruct (lookup_lt_is_Some_2 (num_blocks_per_row t) r) as [n Hn]; [by rewrite bw_counts|].
  exists n, row. split_and!; [done|done|apply (bw_cpu t Hw); by apply list_elem_of_lookup_2 in Hrow|apply (bw_count t Hw); by apply list_elem_of_lookup_2 in Hn..].
Qed.
Lemma elem_insert {A} (l : list A) i x y : y ∈ <[i := x]> l -> y = x \/ y ∈ l.
Proof.
  intros Hy. apply list_elem_of_lookup in Hy as [j Hj]. destruct (decide (i = j)) as [->|Hne].
  - destruct (decide (j < length l)%nat); [rewrite list_lookup_insert_eq in Hj by done; injection Hj as <-; by left|].
    rewrite list_insert_ge in Hj by lia. right. by apply list_elem_of_lookup_2 in Hj.
  - rewrite list_lookup_insert_ne in Hj by done. right. by apply list_elem_of_lookup_2 in Hj.
Qed.

(** Replacing one row and its count. *)
Lemma set_row_spec t r row n : bt_wf t -> (r < length (table_cpu t))%nat -> length row = row_width t -> 0 <= n <= max_num_blocks_per_req t ->
  let t' := set_table (<[r := row]> (table_cpu t)) (<[r := n]> (num_blocks_per_row t)) t in
  bt_wf t' /\ bt_const t' = bt_const t /\ row_ids t' r = take (Z.to_nat n) row /\ (forall r', r' <> r -> row_ids t' r' = row_ids t r').
Proof.
  intros Hw Hr Hl Hn t'. split_and!.
  - apply set_table_wf; [done|by rewrite length_insert|rewrite length_insert; by apply bw_counts| |].
    + intros x [->|Hx]%elem_insert; [done|by apply (bw_cpu t Hw)].
    + intros x [->|Hx]%elem_insert; [done|by apply (bw_count t Hw)].
  - unfold bt_const, t'. cbn. by rewrite length_insert.
  - unfold row_ids, t'. cbn. rewrite !list_lookup_insert_eq; [done|done|by rewrite (bw_counts t Hw)].
  - intros r' Hne. unfold row_ids, t'. cbn. by rewrite !list_lookup_insert_ne by done.
Qed.

(** ** The operations *)

(** What an operation on rows leaves alone. *)
Definition bt_step (t t' : BlockTable) : Prop := bt_wf t' /\ bt_const t' = bt_const t /\ table_gpu t' = table_gpu t.

Lemma effective_ids t ids : bt_wf t ->
  (if use_hybrid_blocks t then map_to_kernel_blocks (blocks_per_kv_block t) ids else ids) = map_to_kernel_blocks (blocks_per_kv_block t) ids.
Proof. intros Hw. destruct (use_hybrid_blocks t) eqn:E; [done|]. by rewrite (bw_hybrid t Hw E). Qed.
Lemma row_count t r blocks n row : bt_wf t -> num_blocks_per_row t !! r = Some n -> table_cpu t !! r = Some row -> holds t r blocks ->
  n = zlen blocks * blocks_per_kv_block t /\ take (Z.to_nat n) row = map_to_kernel_blocks (blocks_per_kv_block t) blocks.
Proof.
  intros Hw Hn Hrow [Hr Hh]. unfold row_ids in Hh. rewrite Hn, Hrow in Hh. split; [|done]. apply (f_equal length) in Hh.
  destruct (wf_row t r Hw Hr) as (n' & row' & Hn' & Hrow' & Hl & Hb). rewrite Hn in Hn'. rewrite Hrow in Hrow'. injection Hn' as <-. injection Hrow' as <-.
  rewrite kernel_length in Hh by apply (bw_ratio t Hw). rewrite length_take, Hl in Hh. unfold row_width in Hh. unfold zlen. pose proof (bw_ratio t Hw). nia.
Qed.

Lemma append_row_ids t r ids : bt_wf t -> (r < length (table_cpu t))%nat -> zlen (row_ids t r) + zlen ids * blocks_per_kv_block t <= max_num_blocks_per_req t ->
  exists t', append_row ids r t = Ok t' /\ bt_step t t' /\ row_ids t' r = row_ids t r ++ map_to_kernel_blocks (blocks_per_kv_block t) ids /\
    (forall r', r' <> r -> row_ids t' r' = row_ids t r') /\ (ids = [] -> t' = t) /\ (ids <> [] -> block_table_dirty t' = true).
Proof.
  intros Hw Hr Hf. destruct ids as [|i l]; [exists t; rewrite kernel_nil, app_nil_r; split; [done|]; by split|].
  cbn [append_row]. set (ids := i :: l) in *. rewrite (effective_ids t ids Hw).
  destruct (wf_row t r Hw Hr) as (n & row & Hn & Hrow & Hl & Hb). rewrite Hn, Hrow. cbn [of_option mbind result_bind].
  assert (Eids : row_ids t r = take (Z.to_nat n) row) by (unfold row_ids; by rewrite Hn, Hrow). set (k := map_to_kernel_blocks (blocks_per_kv_block t) ids).
  pose proof (bw_ratio t Hw) as Hrat. assert (Hlen : zlen k = zlen ids * blocks_per_kv_block t) by (unfold zlen, k; rewrite kernel_length by done; lia).
  assert (Hroom : n + zlen k <= max_num_blocks_per_req t). { rewrite Eids in Hf. unfold zlen in *. rewrite length_take in Hf. unfold row_width in Hl. lia. }
  rewrite set_slice_ok by (unfold zlen, row_width in *; lia). cbn [mbind result_bind]. set (row' := take (Z.to_nat n) row ++ k ++ drop (Z.to_nat n + length k) row).
  assert (Hl' : length row' = row_width t) by (unfold row'; rewrite !length_app, length_take, length_drop; unfold zlen, row_width in *; lia).
  destruct (set_row_spec t r row' (n + zlen k) Hw Hr Hl') as (H1 & H2 & H3 & H4); [unfold zlen in *; lia|].
  eexists. split; [done|]. split_and!; [done| |by apply H4|done|done]. rewrite H3, Eids. unfold row'. rewrite app_assoc.
  by rewrite take_app_length' by (rewrite length_app, length_take; unfold zlen, row_width in *; lia).
Qed.
Lemma append_row_spec t r blocks ids : bt_wf t -> holds t r blocks -> fits_row t (blocks ++ ids) ->
  exists t', append_row ids r t = Ok t' /\ bt_step t t' /\ holds t' r (blocks ++ ids) /\ (forall r', r' <> r -> row_ids t' r' = row_ids t r') /\
    (ids = [] -> t' = t) /\ (ids <> [] -> block_table_dirty t' = true).
Proof.
  intros Hw [Hr Hh] Hf. pose proof (bw_ratio t Hw). destruct (append_row_ids t r ids Hw Hr) as (t' & E & S & Hi & Ho & H1 & H2).
  { rewrite Hh. unfold zlen, fits_row in *. unfold zlen in Hf. rewrite kernel_length by done. rewrite length_app in Hf. lia. }
  exists t'. split; [done|]. split; [done|]. destruct S as (_ & C & _). unfold bt_const in C. injection C as _ Er _ _ El _. split; [|done]. split; [by rewrite El|]. by rewrite Hi, Er, kernel_app, Hh.
Qed.

Lemma add_row_spec t r ids : bt_wf t -> (r < length (table_cpu t))%nat -> fits_row t ids ->
  exists t', add_row ids r t = Ok t' /\ bt_step t t' /\ holds t' r ids /\ (forall r', r' <> r -> row_ids t' r' = row_ids t r') /\ block_table_dirty t' = true.
Proof.
  intros Hw Hr Hf. destruct (wf_row t r Hw Hr) as (n & row & Hn & Hrow & Hl & Hb). unfold add_row. rewrite Hn. cbn [of_option mbind result_bind].
  destruct (set_row_spec t r row 0 Hw Hr Hl) as (H1 & H2 & H3 & H4); [lia|]. rewrite (list_insert_id _ _ _ Hrow) in H1, H2, H3, H4.
  set (t0 := set_table (table_cpu t) (<[r := 0]> (num_blocks_per_row t)) t) in *.
  destruct (append_row_spec t0 r [] ids H1) as (t' & E & (A1 & A2 & A3) & A4 & A5 & A6 & A7); [|by unfold fits_row in *|].
  { split; [done|]. rewrite H3. cbn. by rewrite kernel_nil. }
  exists t'. split; [done|]. split_and!; [split_and!; [done|by rewrite A2|by rewrite A3]|done|intros r' Hne; by rewrite A5, H4|].
  destruct ids; [by rewrite (A6 eq_refl)|by apply A7].
Qed.

Lemma move_row_spec t src tgt : bt_wf t -> (src < length (table_cpu t))%nat -> (tgt < length (table_cpu t))%nat ->
  exists t', move_row src tgt t = Ok t' /\ bt_step t t' /\ row_ids t' tgt = row_ids t src /\ (forall r', r' <> tgt -> row_ids t' r' = row_ids t r') /\ block_table_dirty t' = true.
Proof.
  intros Hw Hs Ht. destruct (wf_row t src Hw Hs) as (n & row & Hn & Hrow & Hl & Hb). destruct (wf_row t tgt Hw Ht) as (n2 & row2 & Hn2 & Hrow2 & Hl2 & Hb2).
  unfold move_row. rewrite Hn, Hrow, Hrow2. cbn [of_option mbind result_bind]. set (row' := copy_rows (Z.to_nat n) row row2).
  destruct (set_row_spec t tgt row' n Hw Ht) as (H1 & H2 & H3 & H4); [unfold row'; rewrite copy_rows_length; congruence|done|].
  eexists. split; [done|]. split_and!; [done| |done|done]. rewrite H3. unfold row', row_ids. rewrite copy_rows_take by congruence. by rewrite Hn, Hrow.
Qed.

Lemma swap_at_spec {A} i j (l : list A) x y : l !! i = Some x -> l !! j = Some y -> exists l', swap_at i j l = Ok l' /\ length l' = length l /\
  l' !! i = Some y /\ l' !! j = Some x /\ (forall k, k <> i -> k <> j -> l' !! k = l !! k) /\ forall z, z ∈ l' -> z ∈ l.
Proof.
  intros Hi Hj. unfold swap_at. rewrite Hi, Hj. cbn. eexists. split; [done|]. pose proof (lookup_lt_Some _ _ _ Hi). pose proof (lookup_lt_Some _ _ _ Hj).
  split_and!; [by rewrite !length_insert| |by rewrite list_lookup_insert_eq by (by rewrite length_insert)|intros k Hk1 Hk2; by rewrite !list_lookup_insert_ne by done|].
  - destruct (decide (i = j)) as [->|Hne]; [rewrite list_lookup_insert_eq by (by rewrite length_insert); congruence|]. by rewrite list_lookup_insert_ne, list_lookup_insert_eq by done.
  - intros z [->|[->|Hz]%elem_insert]%elem_insert; [by apply list_elem_of_lookup_2 in Hi|by apply list_elem_of_lookup_2 in Hj|done].
Qed.
Lemma swap_row_spec t i j : bt_wf t -> (i < length (table_cpu t))%nat -> (j < length (table_cpu t))%nat ->
  exists t', swap_row i j t = Ok t' /\ bt_step t t' /\ row_ids t' i = row_ids t j /\ row_ids t' j = row_ids t i /\
    (forall r', r' <> i -> r' <> j -> row_ids t' r' = row_ids t r') /\ block_table_dirty t' = true.
Proof.
  intros Hw Hi Hj. destruct (wf_row t i Hw Hi) as (ni & ri & Hni & Hri & _). destruct (wf_row t j Hw Hj) as (nj & rj & Hnj & Hrj & _).
  unfold swap_row. destruct (swap_at_spec i j (num_blocks_per_row t) ni nj Hni Hnj) as (counts & -> & L1 & A1 & A2 & A3 & A4). destruct (swap_at_spec i j (table_cpu t) ri rj Hri Hrj) as (cpu & -> & L2 & B1 & B2 & B3 & B4).
  cbn [mbind result_bind]. eexists. split; [done|]. split_and!; [split_and!; [|unfold bt_const; cbn; by rewrite L2|done]| | | |done].
  - apply set_table_wf; [done|done|rewrite L1; by apply bw_counts|intros row Hrow; apply (bw_cpu t Hw); by apply B4|intros n Hn; apply (bw_count t Hw); by apply A4].
  - unfold row_ids. cbn. by rewrite A1, B1, Hnj, Hrj.
  - unfold row_ids. cbn. by rewrite A2, B2, Hni, Hri.
  - intros r' H1 H2. unfold row_ids. cbn. by rewrite A3, B3.
Qed.

(** ** The slots of tokens *)

Definition cp_world (t : BlockTable) : Z := bt_pcp_world_size t * bt_dcp_world_size t.
Definition cp_rank (t : BlockTable) : Z := pcp_rank t * bt_dcp_world_size t + dcp_rank t.
(** The interleaved pieces divide the kernel's blocks among the ranks. *)
Record cp_ok (t : BlockTable) : Prop := {
  cp_world_pos : 1 <= cp_world t;
  cp_rank_range : 0 <= cp_rank t < cp_world t;
  cp_interleave : 0 < cp_kv_cache_interleave_size t /\ bt_block_size t mod cp_kv_cache_interleave_size t = 0;
}.

(** The reference: token [p] is in the block of size [bs * world] it falls into; the tokens of
    the block go to the ranks in turns of [inter], and each rank has [bs] places for its own. *)
Definition local_offset (world inter off : Z) : Z := off / (world * inter) * inter + off mod inter.
Definition owner (bs world inter p : Z) : Z := (p mod (bs * world) / inter) mod world.
Definition ref_slot (bs world rank inter : Z) (blocks : list Z) (p : Z) : option Z :=
  b ← blocks !! Z.to_nat (p / (bs * world));
  Some (if owner bs world inter p =? rank then b * bs + local_offset world inter (p mod (bs * world)) else -1).

Section Offsets.
Context (kb ratio world inter : Z).
Hypotheses (Hkb : 0 < kb) (Hratio : 0 < ratio) (Hworld : 0 < world) (Hinter : 0 < inter) (Hdiv : kb mod inter = 0).

Lemma kb_pieces : kb = kb / inter * inter.
Proof. pose proof (Z.div_mod kb inter ltac:(lia)). lia. Qed.
(** A token's place in its block, from its place in its kernel block. *)
Lemma split_mod p : p mod (kb * ratio * world) = p / (kb * world) mod ratio * (kb * world) + p mod (kb * world).
Proof. replace (kb * ratio * world) with (kb * world * ratio) by ring. rewrite Z.rem_mul_r by nia. ring. Qed.
Lemma split_div p : p / (kb * ratio * world) = p / (kb * world) / ratio.
Proof. replace (kb * ratio * world) with (kb * world * ratio) by ring. rewrite Z.div_div; [done|nia|lia]. Qed.
Lemma split_piece j o : (j * (kb * world) + o) / inter = j * (kb / inter) * world + o / inter.
Proof. rewrite kb_pieces at 1. replace (j * (kb / inter * inter * world) + o) with (j * (kb / inter) * world * inter + o) by ring. by rewrite Z.div_add_l by lia. Qed.
Lemma split_owner p : owner (kb * ratio) world inter p = owner kb world inter p.
Proof. unfold owner. rewrite split_mod, split_piece. rewrite Z.add_comm. by rewrite Z.mod_add by lia. Qed.
Lemma split_local j o : local_offset world inter (j * (kb * world) + o) = j * kb + local_offset world inter o.
Proof.
  unfold local_offset. pose proof kb_pieces as Hp. set (m := kb / inter) in *. replace (j * (kb * world) + o) with (j * m * (world * inter) + o) by (rewrite Hp; ring).
  rewrite Z.div_add_l by nia. replace (j * m * (world * inter) + o) with (o + j * m * world * inter) by ring. rewrite Z.mod_add by lia. rewrite Hp. ring.
Qed.
Lemma local_range p : 0 <= local_offset world inter (p mod (kb * world)) < kb.
Proof.
  unfold local_offset. pose proof (Z.mod_pos_bound p (kb * world) ltac:(nia)) as Ho. set (o := p mod (kb * world)) in *.
  pose proof (Z.mod_pos_bound o inter Hinter). pose proof (Z.div_pos o (world * inter) ltac:(lia) ltac:(nia)). pose proof kb_pieces as Hp. set (m := kb / inter) in *.
  assert (o / (world * inter) < m) by (apply Z.div_lt_upper_bound; nia). nia.
Qed.
End Offsets.

(** The slots of the blocks are int32 numbers. *)
Definition addressable (t : BlockTable) (b : Z) : Prop := 0 <= b /\ (b + 1) * (bt_block_size t * blocks_per_kv_block t) <= 2 ^ 31.
Lemma int32_small x : 0 <= x < 2 ^ 31 -> int32 x = x.
Proof. intros H. unfold int32. rewrite Z.mod_small by lia. lia. Qed.
Lemma kernel_slot_small kb ratio b j : 0 < kb -> 0 < ratio -> 0 <= b -> 0 <= j < ratio -> (b + 1) * (kb * ratio) <= 2 ^ 31 -> 0 <= (b * ratio + j) * kb < 2 ^ 31.
Proof.
  intros Hkb HR Hb Hj Hle. assert (0 <= b * ratio) by nia. assert ((b * ratio + j + 1) * kb <= (b + 1) * (kb * ratio)) by (replace ((b + 1) * (kb * ratio)) with ((b * ratio + ratio) * kb) by ring; apply Z.mul_le_mono_nonneg_r; lia). nia.
Qed.

(** One token: what [slot_of] computes from the kernel blocks is the slot in the block. *)
Lemma slot_of_spec t r blocks p : bt_wf t -> cp_ok t -> holds t r blocks -> (forall b, b ∈ blocks -> addressable t b) -> 0 <= p ->
  p / (bt_block_size t * blocks_per_kv_block t * cp_world t) < zlen blocks ->
  exists s, ref_slot (bt_block_size t * blocks_per_kv_block t) (cp_world t) (cp_rank t) (cp_kv_cache_interleave_size t) blocks p = Some s /\ slot_of t r p = Ok s.
Proof.
  intros Hw [Hworld Hrank [Hi Hdiv]] Hh Haddr Hp Hlt. pose proof (bw_ratio t Hw) as HR. pose proof (bw_sizes t Hw) as [Hkb Hmax].
  set (kb := bt_block_size t) in *. set (R := blocks_per_kv_block t) in *. set (W := cp_world t) in *. set (I := cp_kv_cache_interleave_size t) in *.
  set (k := p / (kb * W)). assert (Hk : 0 <= k) by (apply Z.div_pos; nia). pose proof (split_div kb R W Hkb HR ltac:(lia) p) as Ek. fold k in Ek.
  destruct (lookup_lt_is_Some_2 blocks (Z.to_nat (k / R))) as [b Hb]. { rewrite Ek in Hlt. unfold zlen in Hlt. pose proof (Z.div_pos k R Hk HR). lia. }
  destruct (wf_row t r Hw (proj1 Hh)) as (n & row & Hn & Hrow & Hl & Hc). destruct (row_count t r blocks n row Hw Hn Hrow Hh) as [En Et].
  pose proof (kernel_lookup R blocks k b HR Hk Hb) as Hlook.
  assert (Hcol : row !! Z.to_nat k = Some (b * R + k mod R)).
  { fold R in Et. rewrite <- Et in Hlook. apply lookup_take_Some in Hlook. tauto. }
  assert (Hkw : (Z.to_nat k < row_width t)%nat) by (rewrite <- Hl; by apply lookup_lt_Some in Hcol).
  assert (Hflat : py_index (concat (table_cpu t)) (Z.of_nat r * max_num_blocks_per_req t + k) = Ok (b * R + k mod R)).
  { unfold row_width in Hkw. rewrite py_index_nonneg by nia. replace (Z.to_nat (Z.of_nat r * max_num_blocks_per_req t + k)) with (r * row_width t + Z.to_nat k)%nat by (unfold row_width; nia).
    rewrite (concat_lookup _ (row_width t)); [|apply (bw_cpu t Hw)|done]. rewrite Hrow. cbn. by rewrite Hcol. }
  assert (H32 : int32 ((b * R + k mod R) * kb) = (b * R + k mod R) * kb).
  { apply int32_small. destruct (Haddr b) as [Hb0 Hb1]; [by apply list_elem_of_lookup_2 in Hb|]. apply kernel_slot_small; [done|done|done|by apply Z.mod_pos_bound|done]. }
  unfold ref_slot. rewrite Ek, Hb. cbn [mbind option_bind]. eexists. split; [done|]. rewrite (split_owner kb R W I Hkb HR ltac:(lia) Hi Hdiv).
  rewrite (split_mod kb R W Hkb HR ltac:(lia)). fold k. rewrite (split_local kb W I ltac:(lia) Hi Hdiv).
  unfold slot_of. fold (cp_world t) (cp_rank t) kb I. fold W. destruct (Z.ltb_spec 1 W) as [HW|HW].
  - fold k. rewrite Hflat. cbn [mbind result_bind]. rewrite H32. unfold owner. destruct (_ =? _); [|done]. f_equal. unfold local_offset. ring.
  - assert (W = 1) as EW by lia. unfold k in Hflat |- *. rewrite EW, Z.mul_1_r in Hflat |- *. rewrite Hflat. cbn [mbind result_bind]. unfold k in H32. rewrite EW, Z.mul_1_r in H32. rewrite H32. f_equal.
    replace (cp_rank t) with 0 by lia. unfold owner. rewrite Z.mod_1_r. cbn [Z.eqb]. rewrite ?Z.mul_1_r. unfold local_offset. rewrite Z.mul_1_l.
    pose proof (Z.div_mod (p mod kb) I ltac:(lia)). nia.
Qed.

(** A rank's place determines the token of its block. *)
Lemma local_inj world inter o1 o2 : 0 < world -> 0 < inter -> (o1 / inter) mod world = (o2 / inter) mod world ->
  local_offset world inter o1 = local_offset world inter o2 -> o1 = o2.
Proof.
  intros Hw Hi Ho Hl. unfold local_offset in Hl. rewrite (Z.mul_comm world inter), <- !Z.div_div in Hl by lia.
  pose proof (Z.div_mod o1 inter ltac:(lia)). pose proof (Z.div_mod o2 inter ltac:(lia)). pose proof (Z.mod_pos_bound o1 inter Hi). pose proof (Z.mod_pos_bound o2 inter Hi).
  pose proof (Z.div_mod (o1 / inter) world ltac:(lia)). pose proof (Z.div_mod (o2 / inter) world ltac:(lia)).
  assert (o1 / inter / world = o2 / inter / world) by nia. nia.
Qed.

(** The tokens of a step: rows with the blocks they hold, all of them addressable, and positions
    in these blocks. *)
Definition token_ok (t : BlockTable) (blocks : nat -> list Z) (tok : nat * Z) : Prop :=
  holds t tok.1 (blocks tok.1) /\ (forall b, b ∈ blocks tok.1 -> addressable t b) /\ 0 <= tok.2 /\
  tok.2 / (bt_block_size t * blocks_per_kv_block t * cp_world t) < zlen (blocks tok.1).
Definition slot_ref (t : BlockTable) (blocks : nat -> list Z) (tok : nat * Z) : option Z :=
  ref_slot (bt_block_size t * blocks_per_kv_block t) (cp_world t) (cp_rank t) (cp_kv_cache_interleave_size t) (blocks tok.1) tok.2.

Lemma compute_slots_spec t blocks tokens : bt_wf t -> cp_ok t -> Forall (token_ok t blocks) tokens -> (length tokens <= length (slots_cpu t))%nat ->
  exists t', compute_slot_mapping tokens t = Ok t' /\ length (slots_cpu t') = length (slots_cpu t) /\
    forall j tok, tokens !! j = Some tok -> exists s, slots_cpu t' !! j = Some s /\ slot_ref t blocks tok = Some s.
Proof.
  intros Hw Hcp Hall Hlen. unfold compute_slot_mapping. rewrite Forall_forall in Hall.
  destruct (mapM_total (fun '(r, p) => slot_of t r p) tokens) as (slots & Hs & HF).
  { intros [r p] Hin. destruct (Hall _ Hin) as (H1 & Ha & H2 & H3). destruct (slot_of_spec t r (blocks r) p Hw Hcp H1 Ha H2 H3) as (s & _ & E). by exists s. }
  rewrite Hs. cbn [mbind result_bind]. pose proof (mapM_length _ _ _ Hs) as Hl. rewrite (proj2 (Nat.leb_le _ _)) by lia. cbn [mbind result_bind].
  eexists. split; [done|]. cbn [slots_cpu set_slots]. split; [unfold copy_rows; rewrite length_app, length_take, length_drop; lia|].
  intros j [r p] Hj. destruct (Forall2_lookup_l _ _ _ _ _ HF Hj) as (s & Hsj & E). cbn in E. destruct (Hall _ (list_elem_of_lookup_2 _ _ _ Hj)) as (H1 & Ha & H2 & H3).
  destruct (slot_of_spec t r (blocks r) p Hw Hcp H1 Ha H2 H3) as (s' & Hr & E'). rewrite E in E'. injection E' as <-. exists s. split; [|exact Hr].
  unfold copy_rows. rewrite take_ge by lia. rewrite lookup_app_l by (by apply lookup_lt_Some in Hsj). done.
Qed.

(** What the bound on the blocks excludes: from block 2^27 of 16 tokens on, the product is past
    int32, and the token's slot is a negative number. *)
Lemma slot_wraps t r : bt_pcp_world_size t * bt_dcp_world_size t = 1 -> bt_block_size t = 16 ->
  py_index (concat (table_cpu t)) (Z.of_nat r * max_num_blocks_per_req t) = Ok (2 ^ 27) -> slot_of t r 3 = Ok (3 - 2 ^ 31).
Proof.
  intros Hw Hb Hi. unfold slot_of. rewrite Hw, Hb. change (1 <? 1) with false. cbv iota. change (3 / 16) with 0. by rewrite Z.add_0_r, Hi.
Qed.

(** C16: Whatever the kernel's block size, and however a block is divided among the ranks of
    context parallelism, [compute_slot_mapping] gives every token the slot that the reference
    gives it in the blocks of its request: splitting the blocks for the kernel changes no
    slot, and the slots stay within the block the token falls into.  The blocks' slots are to
    be below 2^31: the code computes them in int32 ([token_ok]). *)
Theorem compute_slot_mapping_correct t blocks tokens : bt_wf t -> cp_ok t -> Forall (token_ok t blocks) tokens -> (length tokens <= length (slots_cpu t))%nat ->
  exists t', compute_slot_mapping tokens t = Ok t' /\ forall j r p, tokens !! j = Some (r, p) ->
    exists b s, blocks r !! Z.to_nat (p / (bt_block_size t * blocks_per_kv_block t * cp_world t)) = Some b /\ slots_cpu t' !! j = Some s /\
      slot_ref t blocks (r, p) = Some s /\ (s = -1 \/ b * (bt_block_size t * blocks_per_kv_block t) <= s < (b + 1) * (bt_block_size t * blocks_per_kv_block t)).
Proof.
  intros Hw Hcp Hall Hlen. destruct (compute_slots_spec t blocks tokens Hw Hcp Hall Hlen) as (t' & E & _ & H). exists t'. split; [done|]. intros j r p Hj.
  destruct (H j _ Hj) as (s & Hs & Hr). unfold slot_ref, ref_slot in Hr. cbn [fst snd] in Hr. destruct (blocks r !! _) as [b|] eqn:Hb; cbn in Hr; [|done].
  exists b, s. split_and!; [done|done|unfold slot_ref, ref_slot; cbn; by rewrite Hb|]. destruct (_ =? _); injection Hr as <-; [right|by left].
  destruct Hcp as [H1 _ [H2 H3]]. pose proof (bw_sizes t Hw) as [H4 _]. pose proof (bw_ratio t Hw).
  assert (Hd : bt_block_size t * blocks_per_kv_block t mod cp_kv_cache_interleave_size t = 0) by (apply Z.mod_divide in H3; [|lia]; apply Z.mod_divide; [lia|]; by apply Z.divide_mul_l).
  pose proof (local_range (bt_block_size t * blocks_per_kv_block t) (cp_world t) (cp_kv_cache_interleave_size t) ltac:(nia) ltac:(lia) H2 Hd p). lia.
Qed.

(** C17: No two tokens of a step share a slot of the KV cache unless they are the same place of
    the same block, and each token is stored by exactly one of the ranks: a rank has a slot
    for it, and not -1, just when it is the token's owner; for blocks whose slots are below 2^31 ([token_ok]). *)
Theorem slots_never_collide t blocks tokens t' : bt_wf t -> cp_ok t -> Forall (token_ok t blocks) tokens -> (length tokens <= length (slots_cpu t))%nat ->
  compute_slot_mapping tokens t = Ok t' ->
  let bs := bt_block_size t * blocks_per_kv_block t in
  (forall j r p s, tokens !! j = Some (r, p) -> slots_cpu t' !! j = Some s ->
    0 <= owner bs (cp_world t) (cp_kv_cache_interleave_size t) p < cp_world t /\ (s <> -1 <-> cp_rank t = owner bs (cp_world t) (cp_kv_cache_interleave_size t) p)) /\
  forall j1 r1 p1 j2 r2 p2 s, tokens !! j1 = Some (r1, p1) -> tokens !! j2 = Some (r2, p2) -> slots_cpu t' !! j1 = Some s -> slots_cpu t' !! j2 = Some s -> s <> -1 ->
    blocks r1 !! Z.to_nat (p1 / (bs * cp_world t)) = blocks r2 !! Z.to_nat (p2 / (bs * cp_world t)) /\ p1 mod (bs * cp_world t) = p2 mod (bs * cp_world t).
Proof.
  intros Hw Hcp Hall Hlen E bs. destruct (compute_slots_spec t blocks tokens Hw Hcp Hall Hlen) as (t1 & E1 & _ & H). rewrite E in E1. injection E1 as <-.
  destruct Hcp as [H1 H1' [H2 H3]]. pose proof (bw_sizes t Hw) as [H4 _]. pose proof (bw_ratio t Hw) as HR. set (W := cp_world t) in *. set (I := cp_kv_cache_interleave_size t) in *.
  assert (Hbs : 0 < bs) by (unfold bs; nia). assert (Hd : bs mod I = 0) by (apply Z.mod_divide in H3; [|lia]; apply Z.mod_divide; [lia|]; by apply Z.divide_mul_l).
  assert (Hone : forall j r p s, tokens !! j = Some (r, p) -> slots_cpu t' !! j = Some s -> exists b, 0 <= b /\ blocks r !! Z.to_nat (p / (bs * W)) = Some b /\
    s = (if owner bs W I p =? cp_rank t then b * bs + local_offset W I (p mod (bs * W)) else -1)).
  { intros j r p s Hj Hs. destruct (H j _ Hj) as (s' & Hs' & Hr). rewrite Hs in Hs'. injection Hs' as <-. unfold slot_ref, ref_slot in Hr. cbn [fst snd] in Hr. fold bs W I in Hr.
    destruct (blocks r !! _) as [b|] eqn:Hb; cbn in Hr; [|done]. injection Hr as <-. exists b. split_and!; [|done|done]. rewrite Forall_forall in Hall.
    destruct (Hall _ (list_elem_of_lookup_2 _ _ _ Hj)) as (_ & Hpos & _). apply (Hpos b). by apply list_elem_of_lookup_2 in Hb. }
  split.
  - intros j r p s Hj Hs. destruct (Hone j r p s Hj Hs) as (b & Hb & _ & ->). split; [apply Z.mod_pos_bound; lia|].
    pose proof (local_range bs W I Hbs ltac:(lia) H2 Hd p). destruct (Z.eqb_spec (owner bs W I p) (cp_rank t)); split; intros; try lia; done.
  - intros j1 r1 p1 j2 r2 p2 s Hj1 Hj2 Hs1 Hs2 Hne. destruct (Hone _ _ _ _ Hj1 Hs1) as (b1 & Hb1 & -> & E1). destruct (Hone _ _ _ _ Hj2 Hs2) as (b2 & Hb2 & -> & E2).
    destruct (Z.eqb_spec (owner bs W I p1) (cp_rank t)) as [O1|]; [|done]. destruct (Z.eqb_spec (owner bs W I p2) (cp_rank t)) as [O2|]; [|congruence].
    pose proof (local_range bs W I Hbs ltac:(lia) H2 Hd p1) as R1. pose proof (local_range bs W I Hbs ltac:(lia) H2 Hd p2) as R2. assert (Eb : b1 = b2) by nia. split; [by rewrite Eb|].
    apply (local_inj W I); [lia|done|unfold owner in *; congruence|]. subst b2. lia.
Qed.

Lemma bt_init_wf bs reqs maxb batched kbs inter pcp pr dcp dr t : 0 < bs -> 0 < kbs -> 0 <= maxb ->
  bt_init bs reqs maxb batched kbs inter pcp pr dcp dr = Ok t -> bt_wf t /\ length (table_cpu t) = Z.to_nat reqs /\ table_gpu t = table_cpu t /\
  block_table_dirty t = false /\ bt_block_size t * blocks_per_kv_block t = bs.
Proof.
  intros Hbs Hk Hmax. unfold bt_init. intros H.
  assert (Hcase : exists b r h, (if kbs =? bs then Ok (bs, 1, false) else if kbs =? 0 then Err ZeroDivisionError
      else if negb (bs mod kbs =? 0) then Err ValueError else Ok (kbs, bs / kbs, true)) = Ok (b, r, h) /\ 0 < b /\ 0 < r /\ (h = false -> r = 1) /\ b * r = bs).
  { destruct (Z.eqb_spec kbs bs) as [->|]; [exists bs, 1, false; split_and!; [done|lia..]|]. destruct (kbs =? 0); [done|].
    destruct (Z.eqb_spec (bs mod kbs) 0) as [Hm|]; cbn [negb] in H |- *; [|done]. exists kbs, (bs / kbs), true. apply Z.mod_divide in Hm as [q Hq]; [|lia].
    rewrite Hq, Z.div_mul by lia. split_and!; [done|lia|nia|done|lia]. }
  destruct Hcase as (b & r & h & Ec & Hb & Hr & Hh & Eb). rewrite Ec in H. cbn [mbind result_bind] in H. unfold zeros2 in H.
  destruct (Z.ltb_spec reqs 0); cbn [orb mbind result_bind] in H; [done|]. destruct (Z.ltb_spec (maxb * r) 0); cbn [mbind result_bind] in H; [done|].
  destruct (batched <? 0); cbn [mbind result_bind] in H; [done|]. injection H as <-.
  assert (Hrow : forall row, row ∈ replicate (Z.to_nat reqs) (replicate (Z.to_nat (maxb * r)) 0) -> length row = Z.to_nat (maxb * r)).
  { intros row Hrow%elem_of_replicate. destruct Hrow as [-> _]. by rewrite length_replicate. }
  split_and!; [split; cbn; auto|cbn; by rewrite length_replicate|done|done|done]; [by rewrite !length_replicate|intros n [-> _]%elem_of_replicate; lia].
Qed.

(** ** A table over two ranks *)

Definition demo_table0 : result BlockTable := bt_init 4 3 5 20 2 1 1 0 2 1.
Definition table_or (x : result BlockTable) : BlockTable := match x with Ok t => t | Err _ => mkBT 0 0 false 0 [] [] [] false [] [] 0 0 0 0 0 end.
Definition demo_table : BlockTable := table_or (t ← demo_table0; t1 ← add_row [7; 3] 0 t; t2 ← add_row [5] 2 t1; append_row [6] 2 t2).
Definition demo_rows (r : nat) : list Z := match r with O => [7; 3] | 2%nat => [5; 6] | _ => [] end.
Definition demo_tokens : list (nat * Z) := [(0%nat, 0); (0%nat, 5); (0%nat, 13); (2%nat, 1); (2%nat, 3); (2%nat, 15)].

Lemma demo_table_ok : bt_wf demo_table /\ cp_ok demo_table /\ Forall (token_ok demo_table demo_rows) demo_tokens.
Proof.
  assert (Hw : bt_wf demo_table).
  { destruct (bt_init_wf 4 3 5 20 2 1 1 0 2 1 (table_or demo_table0)) as (Hw & Hl & _); [lia..|by vm_compute|].
    destruct (add_row_spec (table_or demo_table0) 0 [7; 3] Hw) as (t1 & E1 & (Hw1 & C1 & _) & _); [rewrite Hl; vm_compute; lia|by vm_compute|]. vm_compute in E1. injection E1 as <-.
    match type of Hw1 with bt_wf ?t1 => destruct (add_row_spec t1 2 [5] Hw1) as (t2 & E2 & (Hw2 & C2 & _) & H2 & _); [cbn; lia|by vm_compute|] end. vm_compute in E2. injection E2 as <-.
    match type of Hw2 with bt_wf ?t2 => destruct (append_row_spec t2 2 [5] [6] Hw2 H2) as (t3 & E3 & (Hw3 & _) & _); [by vm_compute|] end. vm_compute in E3. injection E3 as <-. exact Hw3. }
  split; [done|]. split; [split; by vm_compute|].
  repeat (constructor; [split_and!; [split; [vm_compute; lia|by vm_compute]|cbn; intros b Hb; repeat (apply elem_of_cons in Hb as [->|Hb]; [by vm_compute|]); by apply elem_of_nil in Hb|by vm_compute|by vm_compute]|]).
  constructor.
Qed.

Lemma compute_slot_mapping_correct_witness :
  exists t', compute_slot_mapping demo_tokens demo_table = Ok t' /\ take 6 (slots_cpu t') = [-1; 30; 14; 20; 21; 27] /\ forall j r p, demo_tokens !! j = Some (r, p) ->
    exists b s, demo_rows r !! Z.to_nat (p / 8) = Some b /\ slots_cpu t' !! j = Some s /\ slot_ref demo_table demo_rows (r, p) = Some s /\ (s = -1 \/ b * 4 <= s < (b + 1) * 4).
Proof.
  destruct demo_table_ok as (Hw & Hc & Ht). destruct (compute_slot_mapping_correct demo_table demo_rows demo_tokens Hw Hc Ht) as (t' & E & H); [vm_compute; lia|].
  exists t'. split; [exact E|]. split; [vm_compute in E; injection E as <-; by vm_compute|exact H].
Defined.
Lemma slots_never_collide_witness :
  exists t', compute_slot_mapping demo_tokens demo_table = Ok t' /\
  (forall j r p s, demo_tokens !! j = Some (r, p) -> slots_cpu t' !! j = Some s -> 0 <= owner 4 2 1 p < 2 /\ (s <> -1 <-> 1 = owner 4 2 1 p)) /\
  forall j1 r1 p1 j2 r2 p2 s, demo_tokens !! j1 = Some (r1, p1) -> demo_tokens !! j2 = Some (r2, p2) -> slots_cpu t' !! j1 = Some s -> slots_cpu t' !! j2 = Some s -> s <> -1 ->
    demo_rows r1 !! Z.to_nat (p1 / 8) = demo_rows r2 !! Z.to_nat (p2 / 8) /\ p1 mod 8 = p2 mod 8.
Proof.
  destruct demo_table_ok as (Hw & Hc & Ht). eexists. assert (E : compute_slot_mapping demo_tokens demo_table = Ok (table_or (compute_slot_mapping demo_tokens demo_table))) by (by vm_compute).
  split; [exact E|]. exact (slots_never_collide demo_table demo_rows demo_tokens _ Hw Hc Ht ltac:(vm_compute; lia) E).
Defined.
