(* ===== verification/BatchUpdate.v ===== *)
(** * Changes of the persistent batch

    vllm/v1/sample/logits_processor: [BatchUpdateBuilder] (state.py), which records the rows
    that a step removes, adds and moves; [process_dict_updates] and the two processors that
    keep a dict by row (builtin.py), and [MinPLogitsProcessor], which keeps an array. *)
From S2P Require Import Prelude.

Inductive MoveDirectionality : Type := UNIDIRECTIONAL | SWAP.
#[global] Instance direction_eq_dec : EqDecision MoveDirectionality.
Proof. solve_decision. Defined.
Abbreviation MovedRequest := (nat * nat * MoveDirectionality)%type.

Section Builder.
(** [P] is what is told about an added request. *)
Context {P : Type}.

Record BatchUpdateBuilder : Type := mkBuilder {
  removed_rows : list nat;
  is_removed_sorted : bool;
  added : list (nat * P);
  moved : list MovedRequest;
  batch_changed : bool;
}.
Record BatchUpdate : Type := mkUpdate {
  bu_batch_size : nat;
  bu_removed : list nat;
  bu_added : list (nat * P);
  bu_moved : list MovedRequest;
}.
Definition builder_init : BatchUpdateBuilder := mkBuilder [] false [] [] false.

(** [list.sort(reverse=True)] of row numbers. *)
Fixpoint insert_desc (x : nat) (l : list nat) : list nat :=
  match l with [] => [x] | y :: l' => if (y <=? x)%nat then x :: y :: l' else y :: insert_desc x l' end.
Definition sort_desc (l : list nat) : list nat := foldr insert_desc [] l.

(** [_ensure_removed_sorted]; [removed], [has_removed], [peek_removed], [pop_removed]. *)
Definition ensure_removed_sorted (b : BatchUpdateBuilder) : BatchUpdateBuilder :=
  if is_removed_sorted b then b else mkBuilder (sort_desc (removed_rows b)) true (added b) (moved b) (batch_changed b).
Definition removed (b : BatchUpdateBuilder) : list nat * BatchUpdateBuilder := let b' := ensure_removed_sorted b in (removed_rows b', b').
Definition removed_append (i : nat) (b : BatchUpdateBuilder) : result BatchUpdateBuilder :=
  if is_removed_sorted b then Err RuntimeError else Ok (mkBuilder (removed_rows b ++ [i]) false (added b) (moved b) true).
Definition has_removed (b : BatchUpdateBuilder) : bool := match removed_rows b with [] => false | _ => true end.
Definition peek_removed (b : BatchUpdateBuilder) : option nat * BatchUpdateBuilder :=
  if has_removed b then let b' := ensure_removed_sorted b in (last (removed_rows b'), b') else (None, b).
Definition drop_last {A} (l : list A) : list A := take (length l - 1) l.
Definition pop_removed (b : BatchUpdateBuilder) : option nat * BatchUpdateBuilder :=
  if has_removed b then
    let b' := ensure_removed_sorted b in
    (last (removed_rows b'), mkBuilder (drop_last (removed_rows b')) true (added b') (moved b') (batch_changed b'))
  else (None, b).
Definition push_added (i : nat) (p : P) (b : BatchUpdateBuilder) : BatchUpdateBuilder :=
  mkBuilder (removed_rows b) (is_removed_sorted b) (added b ++ [(i, p)]) (moved b) (batch_changed b).
Definition push_moved (m : MovedRequest) (b : BatchUpdateBuilder) : BatchUpdateBuilder :=
  mkBuilder (removed_rows b) (is_removed_sorted b) (added b) (moved b ++ [m]) (batch_changed b).
Definition mark_changed (b : BatchUpdateBuilder) : BatchUpdateBuilder :=
  mkBuilder (removed_rows b) (is_removed_sorted b) (added b) (moved b) true.

(** [reset], [get_and_reset]. *)
Definition builder_reset (b : BatchUpdateBuilder) : bool * BatchUpdateBuilder := (batch_changed b, builder_init).
Definition get_and_reset (batch_size : nat) (b : BatchUpdateBuilder) : option BatchUpdate * BatchUpdateBuilder :=
  match removed_rows b, moved b, added b with
  | [], [], [] => (None, mkBuilder [] false [] [] false)
  | _, _, _ => (Some (mkUpdate batch_size (removed_rows b) (added b) (moved b)), builder_init)
  end.

(** ** Processors with a dict *)

Section Dict.
(** [new_state] of the processor, and the truth value of an entry. *)
Context {T : Type} (new_state : P -> option T) (truthy : T -> bool).

Definition add_entry (st : gmap nat T * bool) (x : nat * P) : gmap nat T * bool :=
  let '(m, updated) := st in
  match new_state x.2 with
  | Some e => (<[x.1 := e]> m, true)
  | None => (delete x.1 m, updated || bool_decide (is_Some (m !! x.1)))
  end.
Definition remove_entry (st : gmap nat T * bool) (i : nat) : gmap nat T * bool :=
  let '(m, updated) := st in (delete i m, updated || match m !! i with Some e => truthy e | None => false end).
Definition move_entry (st : gmap nat T * bool) (x : MovedRequest) : gmap nat T * bool :=
  let '(m, updated) := st in
  let '(a, b, direct) := x in
  let a_entry := m !! a in
  let m1 := delete a m in
  let b_entry := m1 !! b in
  let m2 := delete b m1 in
  let '(m3, u3) := match a_entry with Some e => (<[b := e]> m2, true) | None => (m2, updated) end in
  match b_entry with
  | Some e => (if decide (direct = SWAP) then <[a := e]> m3 else m3, true)
  | None => (m3, u3)
  end.
Definition process_dict_updates (upd : option BatchUpdate) (m : gmap nat T) : gmap nat T * bool :=
  match upd with
  | None => (m, false)
  | Some u =>
      let '(m1, u1) := foldl add_entry (m, false) (bu_added u) in
      if decide (m1 = ∅) then (m1, u1)
      else foldl move_entry (foldl remove_entry (m1, u1) (bu_removed u)) (bu_moved u)
  end.
End Dict.
End Builder.
Arguments BatchUpdateBuilder P : clear implicits.
Arguments BatchUpdate P : clear implicits.

(** ** [MinPLogitsProcessor] *)

Section MinP.
(** Values of [min_p] up to [==], of which [zero] is false. The array is one of float32:
    [f32] is the conversion that a store makes, and [differs] compares an entry with the
    float of a request (NumPy 2 converts the latter first, NumPy 1 compares as doubles). *)
Context {P F : Type} `{EqDecision F} (zero : F) (min_p : P -> F) (f32 : F -> F) (differs : F -> F -> bool).

Record MinP : Type := mkMinP { min_p_count : Z; min_p_cpu : list F }.
Definition nonzero (x : F) : bool := negb (bool_decide (x = zero)).
(** A bool as the 0 or 1 it counts for. *)
Definition bump (b : bool) : Z := if b then 1 else 0.

Definition minp_add (st : MinP * bool) (x : nat * P) : result (MinP * bool) :=
  let '(s, updated) := st in
  before ← of_option IndexError (min_p_cpu s !! x.1);
  let v := min_p x.2 in
  if differs before v
  then Ok (mkMinP (min_p_count s + bump (nonzero v && negb (nonzero before)) - bump (negb (nonzero v) && nonzero before)) (<[x.1 := f32 v]> (min_p_cpu s)), true)
  else Ok (s, updated).
Definition minp_remove (s : MinP) (i : nat) : result MinP :=
  x ← of_option IndexError (min_p_cpu s !! i);
  Ok (if nonzero x then mkMinP (min_p_count s - 1) (<[i := zero]> (min_p_cpu s)) else s).
Definition minp_move (st : MinP * bool) (x : MovedRequest) : result (MinP * bool) :=
  let '(s, updated) := st in
  let '(a, b, direct) := x in
  va ← of_option IndexError (min_p_cpu s !! a);
  vb ← of_option IndexError (min_p_cpu s !! b);
  let cpu1 := if decide (va = vb) then min_p_cpu s else
              let c := <[b := va]> (min_p_cpu s) in if decide (direct = SWAP) then <[a := vb]> c else c in
  let updated1 := updated || negb (bool_decide (va = vb)) in
  Ok (if decide (direct = UNIDIRECTIONAL)
      then mkMinP (min_p_count s - bump (nonzero vb)) (if nonzero va then <[a := zero]> cpu1 else cpu1)
      else mkMinP (min_p_count s) cpu1, updated1).
(** [update_state], up to the copy to the device; with [needs_update]. *)
Definition minp_update_state (upd : option (BatchUpdate P)) (s : MinP) : result (MinP * bool) :=
  match upd with
  | None => Ok (s, false)
  | Some u =>
      '(s1, u1) ← foldM minp_add (s, false) (bu_added u);
      if min_p_count s1 =? 0 then Ok (s1, u1) else
      s2 ← foldM minp_remove s1 (bu_removed u);
      foldM minp_move (s2, match bu_removed u with [] => u1 | _ => true end) (bu_moved u)
  end.
End MinP.
