(* ===== verification/BatchUpdateProps.v ===== *)
(** * What the batch update promises

    The builder hands out the smallest free row; [MinPLogitsProcessor]'s array and counter
    follow the dict of the other processors; the effect of an update on a dict, row by row. *)
From S2P Require Import Prelude BatchUpdate.
From stdpp Require Import sorting.
Open Scope Z_scope.

(** ** The order of the removed rows *)

Lemma insert_desc_perm x l : insert_desc x l ≡ₚ x :: l.
Proof. induction l as [|y l IH]; cbn; [done|]. destruct (y <=? x)%nat; [done|]. rewrite IH. solve_Permutation. Qed.
Lemma sort_desc_perm l : sort_desc l ≡ₚ l.
Proof. induction l as [|x l IH]; cbn; [done|]. rewrite insert_desc_perm. by rewrite IH. Qed.
Lemma insert_desc_sorted x l : StronglySorted ge l -> StronglySorted ge (insert_desc x l).
Proof.
  induction 1 as [|y l Hs IH Hy]; cbn; [repeat constructor|]. destruct (Nat.leb_spec y x) as [H|H].
  - constructor; [by constructor|]. constructor; [lia|]. eapply Forall_impl; [exact Hy|]. cbn. lia.
  - constructor; [done|]. rewrite insert_desc_perm. constructor; [lia|done].
Qed.
Lemma sort_desc_sorted l : StronglySorted ge (sort_desc l).
Proof. induction l as [|x l IH]; cbn; [constructor|]. by apply insert_desc_sorted. Qed.
Lemma sorted_last l e : StronglySorted ge l -> last l = Some e -> e ∈ l /\ forall x, x ∈ l -> (e <= x)%nat.
Proof.
  intros Hs He. apply last_Some in He as [l' ->]. split; [set_solver|]. intros x [Hx| ->%list_elem_of_singleton]%elem_of_app; [|lia].
  apply (StronglySorted_app_1_elem_of ge _ _ x e) in Hs; [lia|done|by left].
Qed.
Lemma drop_last_snoc {A} (l : list A) x : drop_last (l ++ [x]) = l.
Proof. unfold drop_last. rewrite length_app. cbn. rewrite Nat.add_sub. by rewrite take_app_length. Qed.

Section Builder.
Context {P : Type}.
Implicit Types (b : BatchUpdateBuilder P).

(** The removed rows are kept without duplicates, and sorted once they have been read. *)
Definition builder_ok b : Prop := NoDup (removed_rows b) /\ (is_removed_sorted b = true -> StronglySorted ge (removed_rows b)).

Lemma ensure_sorted_spec b : builder_ok b -> let b' := ensure_removed_sorted b in
  removed_rows b' ≡ₚ removed_rows b /\ is_removed_sorted b' = true /\ builder_ok b' /\ StronglySorted ge (removed_rows b') /\
  added b' = added b /\ moved b' = moved b /\ batch_changed b' = batch_changed b.
Proof.
  intros [Hnd Hs]. unfold ensure_removed_sorted. destruct (is_removed_sorted b) eqn:E; [exact (conj (reflexivity _) (conj E (conj (conj Hnd (fun _ => Hs eq_refl)) (conj (Hs eq_refl) (conj eq_refl (conj eq_refl eq_refl))))))|].
  pose proof (sort_desc_perm (removed_rows b)) as Hp. pose proof (sort_desc_sorted (removed_rows b)) as Hss.
  cbn. split_and!; try done. split; cbn; [by rewrite Hp|done].
Qed.

(** The smallest free row comes first, and is no longer free. *)
Lemma pop_removed_spec b : builder_ok b -> removed_rows b <> [] ->
  exists e b', pop_removed b = (Some e, b') /\ removed_rows b ≡ₚ e :: removed_rows b' /\ (forall x, x ∈ removed_rows b -> (e <= x)%nat) /\
    builder_ok b' /\ added b' = added b /\ moved b' = moved b /\ is_removed_sorted b' = true.
Proof.
  intros Hok Hne. destruct (ensure_sorted_spec b Hok) as (Hp & Hs1 & [Hnd _] & Hss & Ha & Hm & Hc). unfold pop_removed, has_removed. destruct (removed_rows b) as [|x0 l0] eqn:E; [done|]. clear Hne.
  set (b' := ensure_removed_sorted b) in *. destruct (last (removed_rows b')) as [e|] eqn:El.
  2: { apply last_None in El. rewrite El in Hp. by apply Permutation_nil in Hp. }
  destruct (sorted_last _ _ Hss El) as [Hin Hle]. pose proof El as El2. apply last_Some in El2 as [l' El2].
  exists e. eexists. split; [done|]. cbn [removed_rows added moved is_removed_sorted]. rewrite El2, drop_last_snoc in *. split_and!; [rewrite <- Hp; solve_Permutation| | |done|done|done].
  - intros x Hx. apply Hle. by rewrite Hp.
  - split; cbn; [apply NoDup_app in Hnd as (? & _); done|intros _]. by apply StronglySorted_app_1_l in Hss.
Qed.
Lemma pop_removed_none b : removed_rows b = [] -> pop_removed b = (None, b).
Proof. unfold pop_removed, has_removed. by intros ->. Qed.
Lemma peek_removed_spec b : builder_ok b -> removed_rows b <> [] -> exists e, peek_removed b = (Some e, ensure_removed_sorted b) /\ e ∈ removed_rows b /\
  (forall x, x ∈ removed_rows b -> (e <= x)%nat) /\ fst (pop_removed b) = Some e.
Proof.
  intros Hok Hne. destruct (pop_removed_spec b Hok Hne) as (e & b' & E & Hp & Hle & _). exists e. unfold pop_removed, peek_removed in *. destruct (has_removed b); [|done].
  injection E as E _. rewrite E. split_and!; [done|rewrite Hp; by left|done|done].
Qed.
End Builder.

(** ** The effect of an update on a dict *)

Section Effect.
Context {P T : Type} (new_state : P -> option T) (truthy : T -> bool).
Implicit Types (m : gmap nat T) (x : MovedRequest).

Definition add_effect m (x : nat * P) : gmap nat T := match new_state x.2 with Some e => <[x.1 := e]> m | None => delete x.1 m end.
Definition move_effect m x : gmap nat T :=
  let '(a, b, direct) := x in
  let m2 := delete b (delete a m) in
  let m3 := match m !! a with Some e => <[b := e]> m2 | None => m2 end in
  match delete a m !! b with Some e => if decide (direct = SWAP) then <[a := e]> m3 else m3 | None => m3 end.
Definition remove_effect m (l : list nat) : gmap nat T := foldl (fun m i => delete i m) m l.
(** Rows added, then removed, then moved. *)
Definition effect (A : list (nat * P)) (R : list nat) (M : list MovedRequest) m : gmap nat T :=
  foldl move_effect (remove_effect (foldl add_effect m A) R) M.

Lemma add_entry_fst st (ip : nat * P) : (add_entry new_state st ip).1 = add_effect st.1 ip.
Proof. destruct st as [m u]. unfold add_entry, add_effect. cbn. by destruct (new_state ip.2). Qed.
Lemma remove_entry_fst st i : (remove_entry truthy st i).1 = delete i st.1.
Proof. by destruct st. Qed.
Lemma move_entry_fst st x : (move_entry st x).1 = move_effect st.1 x.
Proof.
  destruct st as [m u], x as [[a b] d]. unfold move_entry, move_effect. cbn [fst]. destruct (m !! a); destruct (delete a m !! b); done.
Qed.
Lemma foldl_fst {S A X} (f : S * A -> X -> S * A) (g : S -> X -> S) (l : list X) (st : S * A) : (forall st (y : X), (f st y).1 = g st.1 y) -> (foldl f st l).1 = foldl g st.1 l.
Proof. intros H. revert st. induction l as [|y l IH]; intros st; cbn; [done|]. by rewrite IH, H. Qed.
Lemma effect_empty R M : foldl move_effect (remove_effect ∅ R) M = (∅ : gmap nat T).
Proof.
  assert (HR : remove_effect (∅ : gmap nat T) R = ∅). { unfold remove_effect. induction R as [|i R IH]; cbn; [done|]. by rewrite delete_empty. }
  rewrite HR. induction M as [|[[a b] d] M IH]; cbn; [done|]. by rewrite !delete_empty, !lookup_empty.
Qed.
Lemma process_effect u m : (process_dict_updates new_state truthy (Some u) m).1 = effect (bu_added u) (bu_removed u) (bu_moved u) m.
Proof.
  unfold process_dict_updates, effect. pose proof (foldl_fst (add_entry new_state) add_effect (bu_added u) (m, false) add_entry_fst) as Ha. cbn in Ha.
  destruct (foldl (add_entry new_state) (m, false) (bu_added u)) as [m1 u1]. cbn in Ha. rewrite <- Ha. destruct (decide (m1 = ∅)) as [->|_]; [by rewrite effect_empty|].
  rewrite (foldl_fst move_entry move_effect) by apply move_entry_fst. by rewrite (foldl_fst (remove_entry truthy) (fun m i => delete i m)) by apply remove_entry_fst.
Qed.

Lemma remove_effect_lookup m l i : remove_effect m l !! i = if decide (i ∈ l) then None else m !! i.
Proof.
  unfold remove_effect. revert m. induction l as [|j l IH]; intros m; cbn [foldl]; [done|]. rewrite IH. destruct (decide (i ∈ l)); [by rewrite decide_True by (by right)|].
  destruct (decide (i = j)) as [->|Hne]; [rewrite decide_True by (by left); by rewrite lookup_delete_eq|]. rewrite decide_False by (by intros [|]%elem_of_cons). by rewrite lookup_delete_ne.
Qed.
Lemma add_effect_lookup m i p j : add_effect m (i, p) !! j = if decide (i = j) then new_state p else m !! j.
Proof. unfold add_effect. cbn. destruct (new_state p); [by rewrite lookup_insert|by rewrite lookup_delete]. Qed.
(** Rows that are not both removed and added may be handled in either order. *)
Lemma adds_removes_commute A R m : (forall i p, (i, p) ∈ A -> i ∉ R) -> remove_effect (foldl add_effect m A) R = foldl add_effect (remove_effect m R) A.
Proof.
  revert m. induction A as [|[i p] A IH]; intros m HA; cbn [foldl]; [done|]. rewrite IH by (intros j q Hj; apply (HA j q); by right). f_equal.
  apply map_eq. intros j. rewrite remove_effect_lookup, !add_effect_lookup, remove_effect_lookup. specialize (HA i p ltac:(by left)). repeat case_decide; subst; done.
Qed.
(** A row takes the other's entry; a one-way move leaves nothing behind. *)
Lemma move_effect_lookup m a b d j : a <> b ->
  move_effect m (a, b, d) !! j = if decide (j = b) then m !! a else if decide (j = a) then (if decide (d = SWAP) then m !! b else None) else m !! j.
Proof.
  intros Hne. unfold move_effect. rewrite lookup_delete_ne by done.
  destruct (m !! a) as [ea|] eqn:Ea, (m !! b) as [eb|] eqn:Eb; destruct (decide (d = SWAP)); repeat case_decide; subst; simplify_map_eq; congruence.
Qed.
(** Moves that do not touch a row do not depend on it. *)
Lemma moves_agree M m1 m2 e : (forall a b d, (a, b, d) ∈ M -> a <> b /\ a <> e /\ b <> e) -> (forall i, i <> e -> m1 !! i = m2 !! i) ->
  forall i, i <> e -> foldl move_effect m1 M !! i = foldl move_effect m2 M !! i.
Proof.
  revert m1 m2. induction M as [|[[a b] d] M IH]; intros m1 m2 HM Hm; cbn [foldl]; [done|]. destruct (HM a b d ltac:(by left)) as (H1 & H2 & H3).
  apply IH; [intros a' b' d' Hx; apply (HM a' b' d'); by right|]. intros i Hi. rewrite !move_effect_lookup by done. repeat case_decide; auto.
Qed.
End Effect.

(** ** The array of [MinPLogitsProcessor] *)

Section MinPDict.
Context {P F : Type} `{EqDecision F} (zero : F) (min_p : P -> F) (f32 : F -> F) (differs : F -> F -> bool).

(** What is relied on of the conversion to float32, which keeps a float32, and of the
    comparison: an entry that does not differ from a float is its conversion. *)
Record float32_ok : Prop := {
  f32_zero : f32 zero = zero;
  f32_idemp : forall x, f32 (f32 x) = f32 x;
  differs_f32 : forall x v, f32 x = x -> differs x v = false -> x = f32 v;
}.
(** The [min_p] of a request is not so small that its float32 is zero. *)
Definition no_underflow (p : P) : Prop := min_p p <> zero -> f32 (min_p p) <> zero.

(** The dict that an array with its counter stands for: a [min_p], as a float32. *)
Definition minp_entry (p : P) : option F := if decide (min_p p = zero) then None else Some (f32 (min_p p)).
Record minp_rel (m : gmap nat F) (s : MinP) : Prop := {
  mr_cpu : forall i x, min_p_cpu s !! i = Some x -> x = default zero (m !! i);
  mr_in : forall i x, m !! i = Some x -> (x <> zero /\ f32 x = x) /\ (i < length (min_p_cpu s))%nat;
  mr_count : min_p_count s = Z.of_nat (size m);
}.
Lemma size_put (m : gmap nat F) (i : nat) (o : option F) : Z.of_nat (size (partial_alter (fun _ => o) i m)) = Z.of_nat (size m) + bump (bool_decide (is_Some o)) - bump (bool_decide (is_Some (m !! i))).
Proof.
  destruct o as [x|].
  - change (partial_alter (fun _ => Some x) i m) with (<[i := x]> m). rewrite map_size_insert. destruct (m !! i); cbn; lia.
  - change (partial_alter (fun _ => None) i m) with (delete i m). rewrite map_size_delete. destruct (m !! i) eqn:E; cbn; [|lia].
    assert (size m <> 0%nat) by (intros H; apply map_size_empty_iff in H; subst; by rewrite lookup_empty in E). lia.
Qed.

Lemma cpu_value m s i : minp_rel m s -> (i < length (min_p_cpu s))%nat -> min_p_cpu s !! i = Some (default zero (m !! i)).
Proof. intros Hr Hi. destruct (lookup_lt_is_Some_2 _ _ Hi) as [x Hx]. rewrite Hx. f_equal. by apply (mr_cpu m s Hr). Qed.
Lemma nonzero_entry m s i : minp_rel m s -> nonzero zero (default zero (m !! i)) = bool_decide (is_Some (m !! i)).
Proof.
  intros Hr. unfold nonzero. destruct (m !! i) as [x|] eqn:E; cbn; [|by rewrite bool_decide_true]. destruct (mr_in m s Hr i x E) as [[Hne _] _]. by rewrite bool_decide_false.
Qed.
(** Writing an entry of the array, and the counter with it. *)
Lemma rel_put m s i o : minp_rel m s -> (i < length (min_p_cpu s))%nat -> (forall x, o = Some x -> x <> zero /\ f32 x = x) ->
  minp_rel (partial_alter (fun _ => o) i m)
    (mkMinP (min_p_count s + bump (bool_decide (is_Some o)) - bump (bool_decide (is_Some (m !! i)))) (<[i := default zero o]> (min_p_cpu s))).
Proof.
  intros Hr Hi Ho. split; cbn.
  - intros j x Hx. destruct (decide (i = j)) as [->|Hne]; [rewrite list_lookup_insert_eq in Hx by done; injection Hx as <-; by rewrite lookup_partial_alter_eq|].
    rewrite list_lookup_insert_ne in Hx by done. rewrite lookup_partial_alter_ne by done. by apply (mr_cpu m s Hr).
  - intros j x Hx. rewrite length_insert. destruct (decide (i = j)) as [->|Hne]; [rewrite lookup_partial_alter_eq in Hx; split; [by apply Ho|done]|].
    rewrite lookup_partial_alter_ne in Hx by done. by apply (mr_in m s Hr).
  - rewrite size_put, (mr_count m s Hr). lia.
Qed.
Lemma minp_entry_kept p x : float32_ok -> no_underflow p -> minp_entry p = Some x -> x <> zero /\ f32 x = x.
Proof. intros Hf Hp. unfold minp_entry. case_decide; [done|]. intros [= <-]. split; [by apply Hp|by apply f32_idemp]. Qed.
Lemma minp_entry_default p : float32_ok -> default zero (minp_entry p) = f32 (min_p p).
Proof. intros Hf. unfold minp_entry. case_decide as E; [|done]. by rewrite E, f32_zero. Qed.

Lemma minp_add_spec m s u i p : float32_ok -> no_underflow p -> minp_rel m s -> (i < length (min_p_cpu s))%nat ->
  exists s' u', minp_add zero min_p f32 differs (s, u) (i, p) = Ok (s', u') /\
  minp_rel (add_effect minp_entry m (i, p)) s' /\ length (min_p_cpu s') = length (min_p_cpu s).
Proof.
  intros Hf Hp Hr Hi. pose proof (rel_put m s i (minp_entry p) Hr Hi (fun x => minp_entry_kept p x Hf Hp)) as Hput. unfold minp_add. cbn [fst snd].
  assert (Hadd : add_effect minp_entry m (i, p) = partial_alter (fun _ => minp_entry p) i m) by (unfold add_effect; cbn; by destruct (minp_entry p)).
  rewrite Hadd, (cpu_value m s i Hr Hi), (minp_entry_default p Hf) in *. cbn [of_option mbind result_bind]. destruct (differs _ (min_p p)) eqn:Hd.
  - eexists _, _. split_and!; [done| |cbn; by rewrite length_insert]. rewrite (nonzero_entry m s i Hr).
    assert (Hn : nonzero zero (min_p p) = bool_decide (is_Some (minp_entry p))) by (unfold nonzero, minp_entry; case_decide; cbn; [by rewrite bool_decide_true|by rewrite bool_decide_false]).
    rewrite Hn. destruct Hput as [A B C]. split; [exact A|exact B|]. rewrite <- C. cbn. destruct (bool_decide (is_Some (minp_entry p))), (bool_decide (is_Some (m !! i))); cbn; lia.
  - exists s, u. split_and!; [done| |done]. assert (partial_alter (fun _ => minp_entry p) i m = m) as ->; [|done]. rewrite <- (partial_alter_self m i) at 2.
    apply partial_alter_ext. intros x _. clear Hput. unfold minp_entry. destruct (m !! i) as [y|] eqn:E; cbn in Hd |- *.
    + destruct (mr_in m s Hr i y E) as [[Hy Hy32] _]. pose proof (differs_f32 Hf y (min_p p) Hy32 Hd) as Hyp. rewrite decide_False; [by rewrite <- Hyp|]. intros Hz. by rewrite Hz, (f32_zero Hf) in Hyp.
    + pose proof (differs_f32 Hf zero (min_p p) (f32_zero Hf) Hd) as Hz. destruct (decide (min_p p = zero)) as [|Hne]; [done|]. by destruct (Hp Hne).
Qed.
Lemma minp_remove_spec m s i : minp_rel m s -> (i < length (min_p_cpu s))%nat -> exists s', minp_remove zero s i = Ok s' /\ minp_rel (delete i m) s' /\ length (min_p_cpu s') = length (min_p_cpu s).
Proof.
  intros Hr Hi. unfold minp_remove. rewrite (cpu_value m s i Hr Hi). cbn [of_option mbind result_bind]. rewrite (nonzero_entry m s i Hr).
  destruct (m !! i) as [x|] eqn:E; cbn.
  - eexists. split_and!; [done| |cbn; by rewrite length_insert]. destruct (rel_put m s i None Hr Hi ltac:(done)) as [A B C]. split; [exact A|exact B|]. cbn in C |- *. rewrite E in C. cbn in C. unfold delete, map_delete. lia.
  - exists s. split_and!; [done| |done]. by rewrite delete_id.
Qed.
End MinPDict.
Section MinPUpdate.
Context {P F : Type} `{EqDecision F} (zero : F) (min_p : P -> F) (f32 : F -> F) (differs : F -> F -> bool).

Lemma put_twice (m : gmap nat F) s a b oa ob : minp_rel zero f32 m s -> a <> b -> (a < length (min_p_cpu s))%nat -> (b < length (min_p_cpu s))%nat ->
  (forall x, oa = Some x -> x <> zero /\ f32 x = x) -> (forall x, ob = Some x -> x <> zero /\ f32 x = x) ->
  minp_rel zero f32 (partial_alter (fun _ => ob) b (partial_alter (fun _ => oa) a m))
    (mkMinP (min_p_count s + bump (bool_decide (is_Some oa)) - bump (bool_decide (is_Some (m !! a))) + bump (bool_decide (is_Some ob)) - bump (bool_decide (is_Some (m !! b))))
       (<[b := default zero ob]> (<[a := default zero oa]> (min_p_cpu s)))).
Proof.
  intros Hr Hne Ha Hb Hoa Hob. pose proof (rel_put zero f32 m s a oa Hr Ha Hoa) as H1. pose proof (rel_put zero f32 _ _ b ob H1 ltac:(cbn; by rewrite length_insert) Hob) as H2.
  cbn [min_p_cpu min_p_count] in H2. by rewrite lookup_partial_alter_ne in H2 by done.
Qed.
Lemma move_effect_alter (m : gmap nat F) a b d : a <> b ->
  move_effect m (a, b, d) = partial_alter (fun _ => m !! a) b (partial_alter (fun _ => if decide (d = SWAP) then m !! b else None) a m).
Proof.
  intros Hne. apply map_eq. intros j. rewrite move_effect_lookup by done. destruct (decide (j = b)) as [->|]; [by rewrite lookup_partial_alter_eq|].
  rewrite lookup_partial_alter_ne by done. destruct (decide (j = a)) as [->|]; [by rewrite lookup_partial_alter_eq|]. by rewrite lookup_partial_alter_ne by done.
Qed.
Lemma minp_move_spec (m : gmap nat F) s u a b d : minp_rel zero f32 m s -> a <> b -> (a < length (min_p_cpu s))%nat -> (b < length (min_p_cpu s))%nat ->
  exists s' u', minp_move zero (s, u) (a, b, d) = Ok (s', u') /\ minp_rel zero f32 (move_effect m (a, b, d)) s' /\ length (min_p_cpu s') = length (min_p_cpu s).
Proof.
  intros Hr Hne Ha Hb. pose proof (cpu_value zero f32 m s a Hr Ha) as Ca. pose proof (cpu_value zero f32 m s b Hr Hb) as Cb.
  unfold minp_move. rewrite Ca, Cb. cbn [of_option mbind result_bind]. rewrite !(nonzero_entry zero f32 m s _ Hr). rewrite move_effect_alter by done.
  assert (Hin : forall i x, m !! i = Some x -> x <> zero /\ f32 x = x) by (intros i x Hx; by apply (mr_in zero f32 m s Hr i)).
  pose proof (put_twice m s a b (if decide (d = SWAP) then m !! b else None) (m !! a) Hr Hne Ha Hb ltac:(case_decide; [apply Hin|done]) (Hin a)) as Hput.
  assert (Hba : <[b := default zero (m !! a)]> (<[a := default zero (m !! b)]> (min_p_cpu s)) = <[a := default zero (m !! b)]> (<[b := default zero (m !! a)]> (min_p_cpu s))) by (by apply list_insert_insert_ne).
  assert (Hnz : bool_decide (is_Some (m !! a)) = false -> default zero (m !! a) = zero) by (destruct (m !! a); [by cbn|done]).
  destruct d.
  - rewrite !(decide_False (P := UNIDIRECTIONAL = SWAP)) in * by done. rewrite (decide_True (P := UNIDIRECTIONAL = UNIDIRECTIONAL)) by done. eexists _, _. split; [reflexivity|]. cbn. split; [|repeat (case_match; cbn); by rewrite ?length_insert]. cbn in Hput.
    match type of Hput with minp_rel _ _ _ ?s1 => match goal with |- minp_rel _ _ _ ?s2 => replace s2 with s1; [exact Hput|] end end. f_equal; [destruct (m !! a); cbn; lia|].
    rewrite list_insert_insert_ne by done. destruct (decide (default zero (m !! a) = default zero (m !! b))) as [E|_].
    + rewrite (list_insert_id _ b) by (by rewrite E). destruct (bool_decide (is_Some (m !! a))) eqn:Ez; [done|]. apply list_insert_id. by rewrite Ca, Hnz.
    + destruct (bool_decide (is_Some (m !! a))) eqn:Ez; [done|]. apply list_insert_id. rewrite list_lookup_insert_ne by done. by rewrite Ca, Hnz.
  - rewrite !(decide_True (P := SWAP = SWAP)) in * by done. rewrite (decide_False (P := SWAP = UNIDIRECTIONAL)) by done. eexists _, _. split; [reflexivity|]. cbn. split; [|repeat (case_match; cbn); by rewrite ?length_insert]. cbn in Hput.
    match type of Hput with minp_rel _ _ _ ?s1 => match goal with |- minp_rel _ _ _ ?s2 => replace s2 with s1; [exact Hput|] end end. f_equal; [lia|].
    rewrite Hba. destruct (decide (default zero (m !! a) = default zero (m !! b))) as [E|_]; [|done].
    rewrite (list_insert_id _ b) by (by rewrite E). apply list_insert_id. by rewrite Ca, E.
Qed.

Lemma adds_spec A (m : gmap nat F) s u : float32_ok zero f32 differs -> minp_rel zero f32 m s ->
  (forall i p, (i, p) ∈ A -> (i < length (min_p_cpu s))%nat /\ no_underflow zero min_p f32 p) ->
  exists s' u', foldM (minp_add zero min_p f32 differs) (s, u) A = Ok (s', u') /\ minp_rel zero f32 (foldl (add_effect (minp_entry zero min_p f32)) m A) s' /\ length (min_p_cpu s') = length (min_p_cpu s).
Proof.
  intros Hf. revert m s u. induction A as [|[i p] A IH]; intros m s u Hr HA; [exists s, u; by split_and!|]. destruct (HA i p ltac:(by left)) as [Hi Hp].
  destruct (minp_add_spec zero min_p f32 differs m s u i p Hf Hp Hr Hi) as (s1 & u1 & E & Hr1 & L). cbn [foldM foldl]. rewrite E. cbn [mbind result_bind].
  destruct (IH _ s1 u1 Hr1) as (s2 & u2 & E2 & Hr2 & L2); [intros j q Hj; rewrite L; apply (HA j q); by right|]. exists s2, u2. split_and!; [done|done|congruence].
Qed.
Lemma removes_spec R (m : gmap nat F) s : minp_rel zero f32 m s -> (forall i, i ∈ R -> (i < length (min_p_cpu s))%nat) ->
  exists s', foldM (minp_remove zero) s R = Ok s' /\ minp_rel zero f32 (remove_effect m R) s' /\ length (min_p_cpu s') = length (min_p_cpu s).
Proof.
  revert m s. induction R as [|i R IH]; intros m s Hr HR; [exists s; by split_and!|].
  destruct (minp_remove_spec zero f32 m s i Hr) as (s1 & E & Hr1 & L); [apply HR; by left|]. cbn [foldM]. rewrite E. cbn [mbind result_bind].
  destruct (IH _ s1 Hr1) as (s2 & E2 & Hr2 & L2); [intros j Hj; rewrite L; apply HR; by right|]. exists s2. split_and!; [done|done|congruence].
Qed.
Lemma moves_spec M (m : gmap nat F) s u : minp_rel zero f32 m s -> (forall a b d, (a, b, d) ∈ M -> a <> b /\ (a < length (min_p_cpu s))%nat /\ (b < length (min_p_cpu s))%nat) ->
  exists s' u', foldM (minp_move zero) (s, u) M = Ok (s', u') /\ minp_rel zero f32 (foldl move_effect m M) s' /\ length (min_p_cpu s') = length (min_p_cpu s).
Proof.
  revert m s u. induction M as [|[[a b] d] M IH]; intros m s u Hr HM; [exists s, u; by split_and!|].
  destruct (HM a b d ltac:(by left)) as (Hne & Ha & Hb). destruct (minp_move_spec m s u a b d Hr Hne Ha Hb) as (s1 & u1 & E & Hr1 & L). cbn [foldM foldl]. rewrite E. cbn [mbind result_bind].
  destruct (IH _ s1 u1 Hr1) as (s2 & u2 & E2 & Hr2 & L2); [intros a' b' d' Hj; rewrite L; apply (HM a' b' d'); by right|]. exists s2, u2. split_and!; [done|done|congruence].
Qed.

(** No row is both removed and added: a removed row that an added request gets is popped from
    the removed ones, and the builder refuses removals from then on. *)
Definition rows_apart (u : BatchUpdate P) : Prop := forall i p, (i, p) ∈ bu_added u -> i ∉ bu_removed u.
(** The rows of an update, within an array of [n] rows. *)
Definition rows_within (n : nat) (u : BatchUpdate P) : Prop :=
  (forall i p, (i, p) ∈ bu_added u -> (i < n)%nat) /\ (forall i, i ∈ bu_removed u -> (i < n)%nat) /\
  (forall a b d, (a, b, d) ∈ bu_moved u -> a <> b /\ (a < n)%nat /\ (b < n)%nat).

(** C18: [MinPLogitsProcessor] refines the processors that keep a dict. Its array is one of
    float32, so an entry is the float32 of a request's [min_p]; for an update whose added and
    removed rows are not the same ones, and which adds no request with a [min_p] so small that
    its float32 is zero, the requests with a [min_p] in the array are those that the dict of
    [process_dict_updates] would have, each with its value, every other row is zero, the
    counter that decides whether the processor runs at all is their number, and the dict is
    the same whether rows are added before others are removed, as the code does, or after, as
    its interface documents. *)
Theorem minp_refines_dict (truthy : F -> bool) upd (m : gmap nat F) s : float32_ok zero f32 differs -> minp_rel zero f32 m s ->
  (forall u, upd = Some u -> rows_within (length (min_p_cpu s)) u /\ rows_apart u /\ forall i p, (i, p) ∈ bu_added u -> no_underflow zero min_p f32 p) ->
  let m' := (process_dict_updates (minp_entry zero min_p f32) truthy upd m).1 in
  exists s' needs, minp_update_state zero min_p f32 differs upd s = Ok (s', needs) /\ minp_rel zero f32 m' s' /\
    length (min_p_cpu s') = length (min_p_cpu s) /\ (min_p_count s' = 0 <-> m' = ∅) /\
    (forall u, upd = Some u -> m' = foldl move_effect (foldl (add_effect (minp_entry zero min_p f32)) (remove_effect m (bu_removed u)) (bu_added u)) (bu_moved u)).
Proof.
  intros Hf Hr Hu m'.
  enough (exists s' needs, minp_update_state zero min_p f32 differs upd s = Ok (s', needs) /\ minp_rel zero f32 m' s' /\ length (min_p_cpu s') = length (min_p_cpu s))
    as (s' & needs & E & Hr' & L).
  { exists s', needs. split_and!; [done|done|done| |].
    - rewrite (mr_count _ _ _ _ Hr'). rewrite <- map_size_empty_iff. lia.
    - intros u ->. destruct (Hu u eq_refl) as (_ & Hap & _). unfold m'. rewrite process_effect. unfold effect. by rewrite adds_removes_commute. }
  destruct upd as [u|]; [|by exists s, false]. destruct (Hu u eq_refl) as ((HA & HR & HM) & _ & Hp). unfold m'. rewrite process_effect. unfold effect. cbn [minp_update_state].
  destruct (adds_spec (bu_added u) m s false Hf Hr) as (s1 & u1 & E1 & Hr1 & L1); [intros i p Hi; split; [by apply (HA i p)|by apply (Hp i)]|].
  rewrite E1. cbn [mbind result_bind]. destruct (Z.eqb_spec (min_p_count s1) 0) as [Ez|_].
  { rewrite (mr_count _ _ _ _ Hr1) in Ez. assert (Hem : foldl (add_effect (minp_entry zero min_p f32)) m (bu_added u) = ∅) by (apply map_size_empty_iff; lia). rewrite Hem in *.
    exists s1, u1. rewrite effect_empty. by split_and!. }
  destruct (removes_spec (bu_removed u) _ s1 Hr1) as (s2 & E2 & Hr2 & L2); [by rewrite L1|]. rewrite E2. cbn [mbind result_bind].
  destruct (moves_spec (bu_moved u) _ s2 (match bu_removed u with [] => u1 | _ => true end) Hr2) as (s3 & u3 & E3 & Hr3 & L3); [by rewrite L2, L1|]. exists s3, u3. split_and!; [done|done|congruence].
Qed.
End MinPUpdate.

(** A [min_p] that float32 rounds to zero keeps the row counted. *)
Lemma underflow_stays_counted {P F} `{EqDecision F} (zero : F) (min_p : P -> F) (f32 : F -> F) differs count x i p (cpu : list F) :
  cpu !! i = Some x -> x <> zero -> min_p p <> zero -> f32 (min_p p) = zero -> differs x (min_p p) = true ->
  minp_add zero min_p f32 differs (mkMinP count cpu, false) (i, p) = Ok (mkMinP count (<[i := zero]> cpu), true).
Proof.
  intros Hx Hne Hp H0 Hd. unfold minp_add. cbn. rewrite Hx. cbn. rewrite Hd, H0. unfold nonzero. rewrite !bool_decide_false by done. cbn. do 3 f_equal. lia.
Qed.

(** Values in halves, of which the whole ones are float32. *)
Definition demo_f32 (x : Z) : Z := x / 2 * 2.
Definition demo_differs (x v : Z) : bool := negb (x =? demo_f32 v).
Definition demo_minp : MinP (F := Z) := mkMinP 2 [4; 0; 6; 0].
Definition demo_update : BatchUpdate Z := mkUpdate 3 [0%nat] [(1%nat, 9); (2%nat, 0)] [(1%nat, 0%nat, UNIDIRECTIONAL); (0%nat, 3%nat, SWAP)].
Lemma minp_refines_dict_witness : exists s' needs, minp_update_state 0 id demo_f32 demo_differs (Some demo_update) demo_minp = Ok (s', needs) /\ min_p_cpu s' = [0; 0; 0; 8] /\
  minp_rel 0 demo_f32 (process_dict_updates (minp_entry 0 id demo_f32) (fun _ => true) (Some demo_update) {[0%nat := 4; 2%nat := 6]}).1 s' /\ min_p_count s' = 1.
Proof.
  destruct (minp_refines_dict (P := Z) 0 id demo_f32 demo_differs (fun _ => true) (Some demo_update) {[0%nat := 4; 2%nat := 6]} demo_minp) as (s' & needs & E & Hr & _).
  - split; [done| |].
    + intros x. unfold demo_f32. by rewrite Z.div_mul.
    + intros x v _ Hd. unfold demo_differs in Hd. apply negb_false_iff in Hd. by apply Z.eqb_eq.
  - split; [|intros i x Hx; apply lookup_insert_Some in Hx as [[<- <-]|[_ [<- <-]%lookup_singleton_Some]]; (split; [done|cbn; lia])|done].
    intros i x Hx. do 4 (destruct i as [|i]; [by injection Hx as <-|]). done.
  - intros u [= <-]. split; [split_and!|split].
    + intros i p Hin. cbn in Hin |- *. repeat (apply elem_of_cons in Hin as [[= -> ->]|Hin]; [lia|]). by apply elem_of_nil in Hin.
    + intros i Hin. cbn in Hin. apply list_elem_of_singleton in Hin as ->. cbn. lia.
    + intros a b d Hin. cbn in Hin. repeat (apply elem_of_cons in Hin as [[= -> -> ->]|Hin]; [cbn; lia|]). by apply elem_of_nil in Hin.
    + intros i p Hin. cbn in Hin |- *. rewrite list_elem_of_singleton. repeat (apply elem_of_cons in Hin as [[= -> ->]|Hin]; [lia|]). by apply elem_of_nil in Hin.
    + intros i p Hin. cbn in Hin. repeat (apply elem_of_cons in Hin as [[= -> ->]|Hin]; [by vm_compute|]). by apply elem_of_nil in Hin.
  - exists s', needs. split; [exact E|]. vm_compute in E. injection E as <- <-. split; [reflexivity|]. split; [exact Hr|reflexivity].
Defined.
