(* ===== verification/InputBatch.v ===== *)
(** * The persistent batch of the worker

    vllm/v1/worker/gpu_input_batch.py: [InputBatch] keeps a row for every request of the
    batch, in arrays with one entry per row, dicts by row and sets by request id.  Requests
    that leave make holes, which new requests fill and [condense] closes.

    The parallel arrays are one list of [Row]s, one field per array; the mask of allowed
    tokens exists from the first request that needs it.  An output token list is its identity
    ([output_list]) and its contents at the time of the call, since the batch and the logits
    processors hold the list itself.  A generator, a tensor of prompt embeddings and the
    tensors on the device are their identities; floats are rationals, stored through the
    rounding [f32] to single precision. *)
From S2P Require Import Prelude Request BlockTable BatchUpdate.
From Stdlib Require Import QArith.QArith.
Open Scope Z_scope.

(** ** Requests *)

(** The fields of [SamplingParams] the batch reads; [sampling_type] is computed. *)
Record WorkerSampling : Type := mkWS {
  temperature : Q;
  has_seed : bool;
  top_p : Q;
  top_k : Z;
  frequency_penalty : Q;
  presence_penalty : Q;
  repetition_penalty : Q;
  ws_logprobs : option Z;
  allowed_token_ids : option (list Z);
  bad_words_token_ids : option (list (list Z));
  ws_min_tokens : Z;
  all_stop_token_ids : list Z;
  logit_bias : option (list (Z * Q));
}.
Definition sampling_eps : Q := 1 # 100000.
Inductive SamplingType : Type := GREEDY | RANDOM | RANDOM_SEED.
Definition sampling_type (p : WorkerSampling) : SamplingType :=
  if negb (Qle_bool sampling_eps (temperature p)) then GREEDY else if has_seed p then RANDOM_SEED else RANDOM.

Record WorkerPooling : Type := mkWP { requires_token_ids : bool }.

Record CachedRequestState : Type := mkCRS {
  cr_req_id : string;
  cr_prompt_token_ids : option (list Z);
  cr_prompt_embeds : option PromptEmbeds;
  cr_sampling_params : option WorkerSampling;
  cr_pooling_params : option WorkerPooling;
  cr_pooling_states : option Z;
  generator : option Z;
  cr_block_ids : list (list Z);
  cr_num_computed_tokens : Z;
  output_list : Z;
  cr_output_token_ids : list Z;
  cr_lora_request : option LoRARequest;
  prev_num_draft_len : Z;
}.
(** [__post_init__]'s [num_prompt_tokens], [num_tokens], [get_token_id]. *)
Definition cr_num_prompt_tokens (r : CachedRequestState) : result Z := length_from_prompt_token_ids_or_embeds (cr_prompt_token_ids r) (cr_prompt_embeds r).
Definition cr_num_tokens (r : CachedRequestState) : result Z := n ← cr_num_prompt_tokens r; Ok (n + zlen (cr_output_token_ids r)).
Definition get_token_id (i : Z) (r : CachedRequestState) : result Z :=
  n ← cr_num_prompt_tokens r;
  if i <? n then match cr_prompt_token_ids r with None => Err ValueError | Some l => py_index l i end
  else if i - n <? zlen (cr_output_token_ids r) then py_index (cr_output_token_ids r) (i - n)
  else Ok (-1).

(** ** The batch *)

(** One entry of each array. *)
Record Row : Type := mkRow {
  token_ids : list Z;
  is_token_ids : list bool;
  num_tokens_no_spec : Z;
  num_prompt_tokens : Z;
  num_computed_tokens : Z;
  row_temperature : Q;
  row_top_p : Q;
  row_top_k : Z;
  row_frequency_penalty : Q;
  row_presence_penalty : Q;
  row_repetition_penalty : Q;
  num_accepted_tokens : Z;
  lora_mapping : Z;
  needs_token_ids : bool;
  allowed_mask : list bool;
}.

(** What was told about an added request: parameters, prompt, and its output list. *)
Definition Added : Type := (WorkerSampling * option (list Z) * Z)%type.

Record InputBatch : Type := mkBatch {
  is_pooling_model : bool;
  max_num_reqs : nat;
  vocab_size : Z;
  req_ids : list (option string);
  req_id_to_index : gmap string nat;
  rows : list Row;
  req_prompt_embeds : gmap nat PromptEmbeds;
  block_tables : list BlockTable;
  greedy_reqs : gset string;
  random_reqs : gset string;
  top_p_reqs : gset string;
  top_k_reqs : gset string;
  frequency_penalties_reqs : gset string;
  presence_penalties_reqs : gset string;
  repetition_penalties_reqs : gset string;
  lora_id_to_request_ids : gmap Z (gset string);
  lora_id_to_lora_request : gmap Z LoRARequest;
  generators : gmap nat Z;
  num_logprobs : gmap string Z;
  in_progress_prompt_logprobs : gset string;
  batch_update_builder : BatchUpdateBuilder Added;
  has_allowed_token_ids : gset string;
  mask_allocated : bool;
  bad_words : gmap nat (list (list Z));
  req_output_token_ids : list (option Z);
  spec_token_ids : list (list Z);
  pooling_params : gmap string WorkerPooling;
  pooling_states : gmap string Z;
  prev_req_id_to_index : option (gmap string nat);
}.

(** Updates of one field. *)
Definition set_req_ids (x : list (option string)) (b : InputBatch) : InputBatch :=
  mkBatch (is_pooling_model b) (max_num_reqs b) (vocab_size b) x (req_id_to_index b) (rows b) (req_prompt_embeds b) (block_tables b) (greedy_reqs b) (random_reqs b) (top_p_reqs b) (top_k_reqs b) (frequency_penalties_reqs b) (presence_penalties_reqs b) (repetition_penalties_reqs b) (lora_id_to_request_ids b) (lora_id_to_lora_request b) (generators b) (num_logprobs b) (in_progress_prompt_logprobs b) (batch_update_builder b) (has_allowed_token_ids b) (mask_allocated b) (bad_words b) (req_output_token_ids b) (spec_token_ids b) (pooling_params b) (pooling_states b) (prev_req_id_to_index b).
Definition set_req_id_to_index (x : gmap string nat) (b : InputBatch) : InputBatch :=
  mkBatch (is_pooling_model b) (max_num_reqs b) (vocab_size b) (req_ids b) x (rows b) (req_prompt_embeds b) (block_tables b) (greedy_reqs b) (random_reqs b) (top_p_reqs b) (top_k_reqs b) (frequency_penalties_reqs b) (presence_penalties_reqs b) (repetition_penalties_reqs b) (lora_id_to_request_ids b) (lora_id_to_lora_request b) (generators b) (num_logprobs b) (in_progress_prompt_logprobs b) (batch_update_builder b) (has_allowed_token_ids b) (mask_allocated b) (bad_words b) (req_output_token_ids b) (spec_token_ids b) (pooling_params b) (pooling_states b) (prev_req_id_to_index b).
Definition set_rows (x : list Row) (b : InputBatch) : InputBatch :=
  mkBatch (is_pooling_model b) (max_num_reqs b) (vocab_size b) (req_ids b) (req_id_to_index b) x (req_prompt_embeds b) (block_tables b) (greedy_reqs b) (random_reqs b) (top_p_reqs b) (top_k_reqs b) (frequency_penalties_reqs b) (presence_penalties_reqs b) (repetition_penalties_reqs b) (lora_id_to_request_ids b) (lora_id_to_lora_request b) (generators b) (num_logprobs b) (in_progress_prompt_logprobs b) (batch_update_builder b) (has_allowed_token_ids b) (mask_allocated b) (bad_words b) (req_output_token_ids b) (spec_token_ids b) (pooling_params b) (pooling_states b) (prev_req_id_to_index b).
Definition set_req_prompt_embeds (x : gmap nat PromptEmbeds) (b : InputBatch) : InputBatch :=
  mkBatch (is_pooling_model b) (max_num_reqs b) (vocab_size b) (req_ids b) (req_id_to_index b) (rows b) x (block_tables b) (greedy_reqs b) (random_reqs b) (top_p_reqs b) (top_k_reqs b) (frequency_penalties_reqs b) (presence_penalties_reqs b) (repetition_penalties_reqs b) (lora_id_to_request_ids b) (lora_id_to_lora_request b) (generators b) (num_logprobs b) (in_progress_prompt_logprobs b) (batch_update_builder b) (has_allowed_token_ids b) (mask_allocated b) (bad_words b) (req_output_token_ids b) (spec_token_ids b) (pooling_params b) (pooling_states b) (prev_req_id_to_index b).
Definition set_block_tables (x : list BlockTable) (b : InputBatch) : InputBatch :=
  mkBatch (is_pooling_model b) (max_num_reqs b) (vocab_size b) (req_ids b) (req_id_to_index b) (rows b) (req_prompt_embeds b) x (greedy_reqs b) (random_reqs b) (top_p_reqs b) (top_k_reqs b) (frequency_penalties_reqs b) (presence_penalties_reqs b) (repetition_penalties_reqs b) (lora_id_to_request_ids b) (lora_id_to_lora_request b) (generators b) (num_logprobs b) (in_progress_prompt_logprobs b) (batch_update_builder b) (has_allowed_token_ids b) (mask_allocated b) (bad_words b) (req_output_token_ids b) (spec_token_ids b) (pooling_params b) (pooling_states b) (prev_req_id_to_index b).
Definition set_greedy_reqs (x : gset string) (b : InputBatch) : InputBatch :=
  mkBatch (is_pooling_model b) (max_num_reqs b) (vocab_size b) (req_ids b) (req_id_to_index b) (rows b) (req_prompt_embeds b) (block_tables b) x (random_reqs b) (top_p_reqs b) (top_k_reqs b) (frequency_penalties_reqs b) (presence_penalties_reqs b) (repetition_penalties_reqs b) (lora_id_to_request_ids b) (lora_id_to_lora_request b) (generators b) (num_logprobs b) (in_progress_prompt_logprobs b) (batch_update_builder b) (has_allowed_token_ids b) (mask_allocated b) (bad_words b) (req_output_token_ids b) (spec_token_ids b) (pooling_params b) (pooling_states b) (prev_req_id_to_index b).
Definition set_random_reqs (x : gset string) (b : InputBatch) : InputBatch :=
  mkBatch (is_pooling_model b) (max_num_reqs b) (vocab_size b) (req_ids b) (req_id_to_index b) (rows b) (req_prompt_embeds b) (block_tables b) (greedy_reqs b) x (top_p_reqs b) (top_k_reqs b) (frequency_penalties_reqs b) (presence_penalties_reqs b) (repetition_penalties_reqs b) (lora_id_to_request_ids b) (lora_id_to_lora_request b) (generators b) (num_logprobs b) (in_progress_prompt_logprobs b) (batch_update_builder b) (has_allowed_token_ids b) (mask_allocated b) (bad_words b) (req_output_token_ids b) (spec_token_ids b) (pooling_params b) (pooling_states b) (prev_req_id_to_index b).
Definition set_top_p_reqs (x : gset string) (b : InputBatch) : InputBatch :=
  mkBatch (is_pooling_model b) (max_num_reqs b) (vocab_size b) (req_ids b) (req_id_to_index b) (rows b) (req_prompt_embeds b) (block_tables b) (greedy_reqs b) (random_reqs b) x (top_k_reqs b) (frequency_penalties_reqs b) (presence_penalties_reqs b) (repetition_penalties_reqs b) (lora_id_to_request_ids b) (lora_id_to_lora_request b) (generators b) (num_logprobs b) (in_progress_prompt_logprobs b) (batch_update_builder b) (has_allowed_token_ids b) (mask_allocated b) (bad_words b) (req_output_token_ids b) (spec_token_ids b) (pooling_params b) (pooling_states b) (prev_req_id_to_index b).
Definition set_top_k_reqs (x : gset string) (b : InputBatch) : InputBatch :=
  mkBatch (is_pooling_model b) (max_num_reqs b) (vocab_size b) (req_ids b) (req_id_to_index b) (rows b) (req_prompt_embeds b) (block_tables b) (greedy_reqs b) (random_reqs b) (top_p_reqs b) x (frequency_penalties_reqs b) (presence_penalties_reqs b) (repetition_penalties_reqs b) (lora_id_to_request_ids b) (lora_id_to_lora_request b) (generators b) (num_logprobs b) (in_progress_prompt_logprobs b) (batch_update_builder b) (has_allowed_token_ids b) (mask_allocated b) (bad_words b) (req_output_token_ids b) (spec_token_ids b) (pooling_params b) (pooling_states b) (prev_req_id_to_index b).
Definition set_frequency_penalties_reqs (x : gset string) (b : InputBatch) : InputBatch :=
  mkBatch (is_pooling_model b) (max_num_reqs b) (vocab_size b) (req_ids b) (req_id_to_index b) (rows b) (req_prompt_embeds b) (block_tables b) (greedy_reqs b) (random_reqs b) (top_p_reqs b) (top_k_reqs b) x (presence_penalties_reqs b) (repetition_penalties_reqs b) (lora_id_to_request_ids b) (lora_id_to_lora_request b) (generators b) (num_logprobs b) (in_progress_prompt_logprobs b) (batch_update_builder b) (has_allowed_token_ids b) (mask_allocated b) (bad_words b) (req_output_token_ids b) (spec_token_ids b) (pooling_params b) (pooling_states b) (prev_req_id_to_index b).
Definition set_presence_penalties_reqs (x : gset string) (b : InputBatch) : InputBatch :=
  mkBatch (is_pooling_model b) (max_num_reqs b) (vocab_size b) (req_ids b) (req_id_to_index b) (rows b) (req_prompt_embeds b) (block_tables b) (greedy_reqs b) (random_reqs b) (top_p_reqs b) (top_k_reqs b) (frequency_penalties_reqs b) x (repetition_penalties_reqs b) (lora_id_to_request_ids b) (lora_id_to_lora_request b) (generators b) (num_logprobs b) (in_progress_prompt_logprobs b) (batch_update_builder b) (has_allowed_token_ids b) (mask_allocated b) (bad_words b) (req_output_token_ids b) (spec_token_ids b) (pooling_params b) (pooling_states b) (prev_req_id_to_index b).
Definition set_repetition_penalties_reqs (x : gset string) (b : InputBatch) : InputBatch :=
  mkBatch (is_pooling_model b) (max_num_reqs b) (vocab_size b) (req_ids b) (req_id_to_index b) (rows b) (req_prompt_embeds b) (block_tables b) (greedy_reqs b) (random_reqs b) (top_p_reqs b) (top_k_reqs b) (frequency_penalties_reqs b) (presence_penalties_reqs b) x (lora_id_to_request_ids b) (lora_id_to_lora_request b) (generators b) (num_logprobs b) (in_progress_prompt_logprobs b) (batch_update_builder b) (has_allowed_token_ids b) (mask_allocated b) (bad_words b) (req_output_token_ids b) (spec_token_ids b) (pooling_params b) (pooling_states b) (prev_req_id_to_index b).
Definition set_lora_id_to_request_ids (x : gmap Z (gset string)) (b : InputBatch) : InputBatch :=
  mkBatch (is_pooling_model b) (max_num_reqs b) (vocab_size b) (req_ids b) (req_id_to_index b) (rows b) (req_prompt_embeds b) (block_tables b) (greedy_reqs b) (random_reqs b) (top_p_reqs b) (top_k_reqs b) (frequency_penalties_reqs b) (presence_penalties_reqs b) (repetition_penalties_reqs b) x (lora_id_to_lora_request b) (generators b) (num_logprobs b) (in_progress_prompt_logprobs b) (batch_update_builder b) (has_allowed_token_ids b) (mask_allocated b) (bad_words b) (req_output_token_ids b) (spec_token_ids b) (pooling_params b) (pooling_states b) (prev_req_id_to_index b).
Definition set_lora_id_to_lora_request (x : gmap Z LoRARequest) (b : InputBatch) : InputBatch :=
  mkBatch (is_pooling_model b) (max_num_reqs b) (vocab_size b) (req_ids b) (req_id_to_index b) (rows b) (req_prompt_embeds b) (block_tables b) (greedy_reqs b) (random_reqs b) (top_p_reqs b) (top_k_reqs b) (frequency_penalties_reqs b) (presence_penalties_reqs b) (repetition_penalties_reqs b) (lora_id_to_request_ids b) x (generators b) (num_logprobs b) (in_progress_prompt_logprobs b) (batch_update_builder b) (has_allowed_token_ids b) (mask_allocated b) (bad_words b) (req_output_token_ids b) (spec_token_ids b) (pooling_params b) (pooling_states b) (prev_req_id_to_index b).
Definition set_generators (x : gmap nat Z) (b : InputBatch) : InputBatch :=
  mkBatch (is_pooling_model b) (max_num_reqs b) (vocab_size b) (req_ids b) (req_id_to_index b) (rows b) (req_prompt_embeds b) (block_tables b) (greedy_reqs b) (random_reqs b) (top_p_reqs b) (top_k_reqs b) (frequency_penalties_reqs b) (presence_penalties_reqs b) (repetition_penalties_reqs b) (lora_id_to_request_ids b) (lora_id_to_lora_request b) x (num_logprobs b) (in_progress_prompt_logprobs b) (batch_update_builder b) (has_allowed_token_ids b) (mask_allocated b) (bad_words b) (req_output_token_ids b) (spec_token_ids b) (pooling_params b) (pooling_states b) (prev_req_id_to_index b).
Definition set_num_logprobs (x : gmap string Z) (b : InputBatch) : InputBatch :=
  mkBatch (is_pooling_model b) (max_num_reqs b) (vocab_size b) (req_ids b) (req_id_to_index b) (rows b) (req_prompt_embeds b) (block_tables b) (greedy_reqs b) (random_reqs b) (top_p_reqs b) (top_k_reqs b) (frequency_penalties_reqs b) (presence_penalties_reqs b) (repetition_penalties_reqs b) (lora_id_to_request_ids b) (lora_id_to_lora_request b) (generators b) x (in_progress_prompt_logprobs b) (batch_update_builder b) (has_allowed_token_ids b) (mask_allocated b) (bad_words b) (req_output_token_ids b) (spec_token_ids b) (pooling_params b) (pooling_states b) (prev_req_id_to_index b).
Definition set_in_progress_prompt_logprobs (x : gset string) (b : InputBatch) : InputBatch :=
  mkBatch (is_pooling_model b) (max_num_reqs b) (vocab_size b) (req_ids b) (req_id_to_index b) (rows b) (req_prompt_embeds b) (block_tables b) (greedy_reqs b) (random_reqs b) (top_p_reqs b) (top_k_reqs b) (frequency_penalties_reqs b) (presence_penalties_reqs b) (repetition_penalties_reqs b) (lora_id_to_request_ids b) (lora_id_to_lora_request b) (generators b) (num_logprobs b) x (batch_update_builder b) (has_allowed_token_ids b) (mask_allocated b) (bad_words b) (req_output_token_ids b) (spec_token_ids b) (pooling_params b) (pooling_states b) (prev_req_id_to_index b).
Definition set_batch_update_builder (x : BatchUpdateBuilder Added) (b : InputBatch) : InputBatch :=
  mkBatch (is_pooling_model b) (max_num_reqs b) (vocab_size b) (req_ids b) (req_id_to_index b) (rows b) (req_prompt_embeds b) (block_tables b) (greedy_reqs b) (random_reqs b) (top_p_reqs b) (top_k_reqs b) (frequency_penalties_reqs b) (presence_penalties_reqs b) (repetition_penalties_reqs b) (lora_id_to_request_ids b) (lora_id_to_lora_request b) (generators b) (num_logprobs b) (in_progress_prompt_logprobs b) x (has_allowed_token_ids b) (mask_allocated b) (bad_words b) (req_output_token_ids b) (spec_token_ids b) (pooling_params b) (pooling_states b) (prev_req_id_to_index b).
Definition set_has_allowed_token_ids (x : gset string) (b : InputBatch) : InputBatch :=
  mkBatch (is_pooling_model b) (max_num_reqs b) (vocab_size b) (req_ids b) (req_id_to_index b) (rows b) (req_prompt_embeds b) (block_tables b) (greedy_reqs b) (random_reqs b) (top_p_reqs b) (top_k_reqs b) (frequency_penalties_reqs b) (presence_penalties_reqs b) (repetition_penalties_reqs b) (lora_id_to_request_ids b) (lora_id_to_lora_request b) (generators b) (num_logprobs b) (in_progress_prompt_logprobs b) (batch_update_builder b) x (mask_allocated b) (bad_words b) (req_output_token_ids b) (spec_token_ids b) (pooling_params b) (pooling_states b) (prev_req_id_to_index b).
Definition set_mask_allocated (x : bool) (b : InputBatch) : InputBatch :=
  mkBatch (is_pooling_model b) (max_num_reqs b) (vocab_size b) (req_ids b) (req_id_to_index b) (rows b) (req_prompt_embeds b) (block_tables b) (greedy_reqs b) (random_reqs b) (top_p_reqs b) (top_k_reqs b) (frequency_penalties_reqs b) (presence_penalties_reqs b) (repetition_penalties_reqs b) (lora_id_to_request_ids b) (lora_id_to_lora_request b) (generators b) (num_logprobs b) (in_progress_prompt_logprobs b) (batch_update_builder b) (has_allowed_token_ids b) x (bad_words b) (req_output_token_ids b) (spec_token_ids b) (pooling_params b) (pooling_states b) (prev_req_id_to_index b).
Definition set_bad_words (x : gmap nat (list (list Z))) (b : InputBatch) : InputBatch :=
  mkBatch (is_pooling_model b) (max_num_reqs b) (vocab_size b) (req_ids b) (req_id_to_index b) (rows b) (req_prompt_embeds b) (block_tables b) (greedy_reqs b) (random_reqs b) (top_p_reqs b) (top_k_reqs b) (frequency_penalties_reqs b) (presence_penalties_reqs b) (repetition_penalties_reqs b) (lora_id_to_request_ids b) (lora_id_to_lora_request b) (generators b) (num_logprobs b) (in_progress_prompt_logprobs b) (batch_update_builder b) (has_allowed_token_ids b) (mask_allocated b) x (req_output_token_ids b) (spec_token_ids b) (pooling_params b) (pooling_states b) (prev_req_id_to_index b).
Definition set_req_output_token_ids (x : list (option Z)) (b : InputBatch) : InputBatch :=
  mkBatch (is_pooling_model b) (max_num_reqs b) (vocab_size b) (req_ids b) (req_id_to_index b) (rows b) (req_prompt_embeds b) (block_tables b) (greedy_reqs b) (random_reqs b) (top_p_reqs b) (top_k_reqs b) (frequency_penalties_reqs b) (presence_penalties_reqs b) (repetition_penalties_reqs b) (lora_id_to_request_ids b) (lora_id_to_lora_request b) (generators b) (num_logprobs b) (in_progress_prompt_logprobs b) (batch_update_builder b) (has_allowed_token_ids b) (mask_allocated b) (bad_words b) x (spec_token_ids b) (pooling_params b) (pooling_states b) (prev_req_id_to_index b).
Definition set_spec_token_ids (x : list (list Z)) (b : InputBatch) : InputBatch :=
  mkBatch (is_pooling_model b) (max_num_reqs b) (vocab_size b) (req_ids b) (req_id_to_index b) (rows b) (req_prompt_embeds b) (block_tables b) (greedy_reqs b) (random_reqs b) (top_p_reqs b) (top_k_reqs b) (frequency_penalties_reqs b) (presence_penalties_reqs b) (repetition_penalties_reqs b) (lora_id_to_request_ids b) (lora_id_to_lora_request b) (generators b) (num_logprobs b) (in_progress_prompt_logprobs b) (batch_update_builder b) (has_allowed_token_ids b) (mask_allocated b) (bad_words b) (req_output_token_ids b) x (pooling_params b) (pooling_states b) (prev_req_id_to_index b).
Definition set_pooling_params (x : gmap string WorkerPooling) (b : InputBatch) : InputBatch :=
  mkBatch (is_pooling_model b) (max_num_reqs b) (vocab_size b) (req_ids b) (req_id_to_index b) (rows b) (req_prompt_embeds b) (block_tables b) (greedy_reqs b) (random_reqs b) (top_p_reqs b) (top_k_reqs b) (frequency_penalties_reqs b) (presence_penalties_reqs b) (repetition_penalties_reqs b) (lora_id_to_request_ids b) (lora_id_to_lora_request b) (generators b) (num_logprobs b) (in_progress_prompt_logprobs b) (batch_update_builder b) (has_allowed_token_ids b) (mask_allocated b) (bad_words b) (req_output_token_ids b) (spec_token_ids b) x (pooling_states b) (prev_req_id_to_index b).
Definition set_pooling_states (x : gmap string Z) (b : InputBatch) : InputBatch :=
  mkBatch (is_pooling_model b) (max_num_reqs b) (vocab_size b) (req_ids b) (req_id_to_index b) (rows b) (req_prompt_embeds b) (block_tables b) (greedy_reqs b) (random_reqs b) (top_p_reqs b) (top_k_reqs b) (frequency_penalties_reqs b) (presence_penalties_reqs b) (repetition_penalties_reqs b) (lora_id_to_request_ids b) (lora_id_to_lora_request b) (generators b) (num_logprobs b) (in_progress_prompt_logprobs b) (batch_update_builder b) (has_allowed_token_ids b) (mask_allocated b) (bad_words b) (req_output_token_ids b) (spec_token_ids b) (pooling_params b) x (prev_req_id_to_index b).
Definition set_prev_req_id_to_index (x : option (gmap string nat)) (b : InputBatch) : InputBatch :=
  mkBatch (is_pooling_model b) (max_num_reqs b) (vocab_size b) (req_ids b) (req_id_to_index b) (rows b) (req_prompt_embeds b) (block_tables b) (greedy_reqs b) (random_reqs b) (top_p_reqs b) (top_k_reqs b) (frequency_penalties_reqs b) (presence_penalties_reqs b) (repetition_penalties_reqs b) (lora_id_to_request_ids b) (lora_id_to_lora_request b) (generators b) (num_logprobs b) (in_progress_prompt_logprobs b) (batch_update_builder b) (has_allowed_token_ids b) (mask_allocated b) (bad_words b) (req_output_token_ids b) (spec_token_ids b) (pooling_params b) (pooling_states b) x.

(** ** Properties of the batch *)

Definition num_reqs (b : InputBatch) : nat := size (req_id_to_index b).
Definition all_greedy (b : InputBatch) : bool := bool_decide (random_reqs b = ∅).
Definition all_random (b : InputBatch) : bool := bool_decide (greedy_reqs b = ∅).
Definition no_top_p (b : InputBatch) : bool := bool_decide (top_p_reqs b = ∅).
Definition no_top_k (b : InputBatch) : bool := bool_decide (top_k_reqs b = ∅).
Definition no_penalties (b : InputBatch) : bool :=
  bool_decide (presence_penalties_reqs b = ∅) && bool_decide (frequency_penalties_reqs b = ∅) && bool_decide (repetition_penalties_reqs b = ∅).
Definition no_allowed_token_ids (b : InputBatch) : bool := bool_decide (has_allowed_token_ids b = ∅).
Definition max_num_logprobs (b : InputBatch) : option Z := match (map_to_list (num_logprobs b)).*2 with [] => None | x :: l => Some (foldl Z.max x l) end.

(** ** Adding a request *)

(** [a[lo:hi] = v] and [l[i] = v] of Python lists. *)
Definition fill_slice {A} (lo hi : nat) (v : A) (l : list A) : list A := imap (fun i x => if decide (lo <= i < hi)%nat then v else x) l.
Definition set_item {A} (i : nat) (v : A) (l : list A) : result (list A) := if decide (i < length l)%nat then Ok (<[i := v]> l) else Err IndexError.
(** Writing one row. *)
Definition set_row (i : nat) (r : Row) (b : InputBatch) : InputBatch := set_rows (<[i := r]> (rows b)) b.
Definition get_row (i : nat) (b : InputBatch) : result Row := of_option IndexError (rows b !! i).

(** [_register_add_request]. *)
Definition register_add_request (r : CachedRequestState) (b : InputBatch) : result (nat * InputBatch) :=
  let '(popped, bld) := pop_removed (batch_update_builder b) in
  let i := default (num_reqs b) popped in
  _ ← py_assert (bool_decide (i < max_num_reqs b)%nat);
  let bld1 := mark_changed bld in
  let bld2 := match cr_sampling_params r with
              | Some p => push_added i (p, cr_prompt_token_ids r, output_list r) bld1
              | None => bld1
              end in
  Ok (i, set_batch_update_builder bld2 b).

(** The three lists with an entry per request. *)
Definition place_request (i : nat) (r : CachedRequestState) (b : InputBatch) : result InputBatch :=
  if (i =? length (req_ids b))%nat then
    Ok (set_req_ids (req_ids b ++ [Some (cr_req_id r)]) (set_req_output_token_ids (req_output_token_ids b ++ [Some (output_list r)])
         (set_spec_token_ids (spec_token_ids b ++ [[]]) b)))
  else
    ids ← set_item i (Some (cr_req_id r)) (req_ids b);
    outs ← set_item i (Some (output_list r)) (req_output_token_ids b);
    specs ← set_item i [] (spec_token_ids b);
    Ok (set_req_ids ids (set_req_output_token_ids outs (set_spec_token_ids specs b))).

(** The tokens of the request in its row. *)
Definition fill_tokens (r : CachedRequestState) (row : Row) : result Row :=
  n ← cr_num_prompt_tokens r;
  let start := Z.to_nat n in
  let stop := (start + length (cr_output_token_ids r))%nat in
  toks1 ← match cr_prompt_token_ids r with Some l => set_slice 0 l (token_ids row) | None => Ok (token_ids row) end;
  let is1 := fill_slice 0 start (bool_decide (is_Some (cr_prompt_token_ids r))) (is_token_ids row) in
  toks2 ← set_slice start (cr_output_token_ids r) toks1;
  let is2 := fill_slice start stop true is1 in
  Ok (mkRow toks2 is2 (n + zlen (cr_output_token_ids r)) n (cr_num_computed_tokens r) (row_temperature row) (row_top_p row) (row_top_k row)
        (row_frequency_penalty row) (row_presence_penalty row) (row_repetition_penalty row) (num_accepted_tokens row) (lora_mapping row)
        (needs_token_ids row) (allowed_mask row)).

(** The mask of a row: [True] but for the allowed tokens; an index out of range raises. *)
Definition mask_of (vocab : Z) (allowed : list Z) : result (list bool) :=
  foldM (fun m t => let j := if t <? 0 then t + vocab else t in if (0 <=? j) && (j <? vocab) then Ok (<[Z.to_nat j := false]> m) else Err IndexError)
    (replicate (Z.to_nat vocab) true) allowed.

Section Rounding.
Context (f32 : Q -> Q).

Definition sampling_row (p : WorkerSampling) (vocab : Z) (mask : list bool) (row : Row) : Row :=
  mkRow (token_ids row) (is_token_ids row) (num_tokens_no_spec row) (num_prompt_tokens row) (num_computed_tokens row)
    (match sampling_type p with GREEDY => 0%Q | _ => f32 (temperature p) end) (f32 (top_p p)) (if (0 <? top_k p) && (top_k p <? vocab) then top_k p else vocab)
    (f32 (frequency_penalty p)) (f32 (presence_penalty p)) (f32 (repetition_penalty p)) (num_accepted_tokens row) (lora_mapping row) (needs_token_ids row) mask.
Definition add_if (c : bool) (id : string) (s : gset string) : gset string := if c then {[id]} ∪ s else s.

(** The sampling parameters of an added request. *)
Definition add_sampling (i : nat) (r : CachedRequestState) (p : WorkerSampling) (b : InputBatch) : result InputBatch :=
  row ← get_row i b;
  let id := cr_req_id r in
  let greedy := match sampling_type p with GREEDY => true | _ => false end in
  let b1 := set_greedy_reqs (add_if greedy id (greedy_reqs b)) (set_random_reqs (add_if (negb greedy) id (random_reqs b)) b) in
  let b2 := set_top_p_reqs (add_if (negb (Qle_bool 1 (top_p p))) id (top_p_reqs b)) b1 in
  let b3 := set_top_k_reqs (add_if ((0 <? top_k p) && (top_k p <? vocab_size b)) id (top_k_reqs b)) b2 in
  let b4 := set_frequency_penalties_reqs (add_if (negb (Qeq_bool (frequency_penalty p) 0)) id (frequency_penalties_reqs b)) b3 in
  let b5 := set_presence_penalties_reqs (add_if (negb (Qeq_bool (presence_penalty p) 0)) id (presence_penalties_reqs b)) b4 in
  let b6 := set_repetition_penalties_reqs (add_if (negb (Qeq_bool (repetition_penalty p) 1)) id (repetition_penalties_reqs b)) b5 in
  let b7 := match generator r with Some g => set_generators (<[i := g]> (generators b6)) b6 | None => b6 end in
  let b8 := match ws_logprobs p with
            | Some n => set_num_logprobs (<[id := if n =? -1 then vocab_size b else n]> (num_logprobs b7)) b7
            | None => b7
            end in
  '(mask, b9) ← match allowed_token_ids p with
                | Some (t :: l) =>
                    m ← mask_of (vocab_size b) (t :: l);
                    Ok (m, set_mask_allocated true (set_has_allowed_token_ids ({[id]} ∪ has_allowed_token_ids b8) b8))
                | _ => Ok (allowed_mask row, b8)
                end;
  let b10 := match bad_words_token_ids p with
             | Some (w :: ws) => set_bad_words (<[i := w :: ws]> (bad_words b9)) b9
             | _ => b9
             end in
  Ok (set_row i (sampling_row p (vocab_size b) mask row) b10).

Definition add_pooling (i : nat) (r : CachedRequestState) (p : WorkerPooling) (b : InputBatch) : result InputBatch :=
  st ← of_option AssertionError (cr_pooling_states r);
  row ← get_row i b;
  let row' := mkRow (token_ids row) (is_token_ids row) (num_tokens_no_spec row) (num_prompt_tokens row) (num_computed_tokens row) (row_temperature row)
    (row_top_p row) (row_top_k row) (row_frequency_penalty row) (row_presence_penalty row) (row_repetition_penalty row) (num_accepted_tokens row)
    (lora_mapping row) (requires_token_ids p) (allowed_mask row) in
  Ok (set_row i row' (set_pooling_states (<[cr_req_id r := st]> (pooling_states b)) (set_pooling_params (<[cr_req_id r := p]> (pooling_params b)) b))).

(** The LoRA of an added request, and its number of accepted tokens. *)
Definition set_lora (accepted lora : Z) (row : Row) : Row :=
  mkRow (token_ids row) (is_token_ids row) (num_tokens_no_spec row) (num_prompt_tokens row) (num_computed_tokens row) (row_temperature row)
    (row_top_p row) (row_top_k row) (row_frequency_penalty row) (row_presence_penalty row) (row_repetition_penalty row) accepted lora
    (needs_token_ids row) (allowed_mask row).
Definition add_lora (i : nat) (r : CachedRequestState) (b : InputBatch) : result InputBatch :=
  row ← get_row i b;
  match cr_lora_request r with
  | Some l =>
      let k := lora_int_id l in
      Ok (set_row i (set_lora 1 k row)
           (set_lora_id_to_lora_request (<[k := l]> (lora_id_to_lora_request b))
             (set_lora_id_to_request_ids (<[k := {[cr_req_id r]} ∪ default ∅ (lora_id_to_request_ids b !! k)]> (lora_id_to_request_ids b)) b)))
  | None => Ok (set_row i (set_lora 1 0 row) b)
  end.

(** [add_request]. *)
Definition add_request (r : CachedRequestState) (b : InputBatch) : result (nat * InputBatch) :=
  '(i, b1) ← register_add_request r b;
  b2 ← place_request i r b1;
  let b3 := set_req_id_to_index (<[cr_req_id r := i]> (req_id_to_index b2)) b2 in
  row ← get_row i b3;
  row' ← fill_tokens r row;
  let b4 := set_row i row' b3 in
  let b5 := match cr_prompt_embeds r with Some e => set_req_prompt_embeds (<[i := e]> (req_prompt_embeds b4)) b4 | None => b4 end in
  ts ← mg_add_row (cr_block_ids r) i (block_tables b5);
  let b6 := set_block_tables ts b5 in
  b7 ← match cr_sampling_params r with
       | Some p => add_sampling i r p b6
       | None => match cr_pooling_params r with Some p => add_pooling i r p b6 | None => Err NotImplementedError end
       end;
  b8 ← add_lora i r b7;
  Ok (i, b8).
End Rounding.

(** ** Draft tokens, removal *)

(** [update_req_spec_token_ids]; the request comes back with [prev_num_draft_len] set. *)
Definition update_req_spec_token_ids (r : CachedRequestState) (scheduled : list (string * list Z)) (b : InputBatch) : result (CachedRequestState * InputBatch) :=
  i ← of_option KeyError (req_id_to_index b !! cr_req_id r);
  let spec := default [] (dict_get (cr_req_id r) scheduled) in
  let r' := mkCRS (cr_req_id r) (cr_prompt_token_ids r) (cr_prompt_embeds r) (cr_sampling_params r) (cr_pooling_params r) (cr_pooling_states r) (generator r)
    (cr_block_ids r) (cr_num_computed_tokens r) (output_list r) (cr_output_token_ids r) (cr_lora_request r) (zlen spec) in
  specs ← set_item i spec (spec_token_ids b);
  row ← get_row i b;
  toks ← (match spec with [] => Ok (token_ids row) | _ => set_slice (Z.to_nat (num_tokens_no_spec row)) spec (token_ids row) end);
  let row' := mkRow toks (is_token_ids row) (num_tokens_no_spec row) (num_prompt_tokens row) (num_computed_tokens row) (row_temperature row)
    (row_top_p row) (row_top_k row) (row_frequency_penalty row) (row_presence_penalty row) (row_repetition_penalty row) (num_accepted_tokens row)
    (lora_mapping row) (needs_token_ids row) (allowed_mask row) in
  Ok (r', set_spec_token_ids specs (set_row i row' b)).

(** The LoRA bookkeeping of [remove_request]. *)
Definition remove_lora (i : nat) (id : string) (b : InputBatch) : result InputBatch :=
  row ← get_row i b;
  let k := lora_mapping row in
  if k =? 0 then Ok b else
  ids ← of_option KeyError ((lora_id_to_request_ids b : gmap Z (gset string)) !! k);
  let ids' : gset string := (ids : gset string) ∖ {[id]} in
  b1 ← (if decide (ids' = ∅) then
          _ ← of_option KeyError (lora_id_to_lora_request b !! k);
          Ok (set_lora_id_to_lora_request (delete k (lora_id_to_lora_request b)) (set_lora_id_to_request_ids (delete k (lora_id_to_request_ids b)) b))
        else Ok (set_lora_id_to_request_ids (<[k := ids']> (lora_id_to_request_ids b)) b));
  Ok (set_row i (set_lora (num_accepted_tokens row) 0 row) b1).
(** The sampling state of a removed request. *)
Definition discard_sampling (i : nat) (id : string) (b : InputBatch) : result InputBatch :=
  let b1 := set_greedy_reqs (greedy_reqs b ∖ {[id]}) (set_random_reqs (random_reqs b ∖ {[id]}) b) in
  let b2 := set_top_p_reqs (top_p_reqs b ∖ {[id]}) (set_top_k_reqs (top_k_reqs b ∖ {[id]}) b1) in
  let b3 := set_frequency_penalties_reqs (frequency_penalties_reqs b ∖ {[id]}) (set_presence_penalties_reqs (presence_penalties_reqs b ∖ {[id]}) b2) in
  let b4 := set_repetition_penalties_reqs (repetition_penalties_reqs b ∖ {[id]}) b3 in
  let b5 := set_generators (delete i (generators b)) (set_num_logprobs (delete id (num_logprobs b)) b4) in
  let b6 := set_in_progress_prompt_logprobs (in_progress_prompt_logprobs b ∖ {[id]}) (set_prev_req_id_to_index (delete id <$> prev_req_id_to_index b) b5) in
  let b7 := set_has_allowed_token_ids (has_allowed_token_ids b ∖ {[id]}) (set_bad_words (delete i (bad_words b)) b6) in
  row ← get_row i b;
  Ok (if mask_allocated b
      then set_row i (mkRow (token_ids row) (is_token_ids row) (num_tokens_no_spec row) (num_prompt_tokens row) (num_computed_tokens row) (row_temperature row)
             (row_top_p row) (row_top_k row) (row_frequency_penalty row) (row_presence_penalty row) (row_repetition_penalty row) (num_accepted_tokens row)
             (lora_mapping row) (needs_token_ids row) (replicate (Z.to_nat (vocab_size b)) false)) b7
      else b7).
(** [remove_request]. *)
Definition remove_request (id : string) (b : InputBatch) : result (option nat * InputBatch) :=
  match req_id_to_index b !! id with
  | None => Ok (None, b)
  | Some i =>
      let b1 := set_req_id_to_index (delete id (req_id_to_index b)) b in
      bld ← removed_append i (batch_update_builder b1);
      ids ← set_item i None (req_ids b1);
      outs ← set_item i None (req_output_token_ids b1);
      specs ← set_item i [] (spec_token_ids b1);
      let b2 := set_batch_update_builder bld (set_req_ids ids (set_req_output_token_ids outs (set_spec_token_ids specs b1))) in
      b3 ← remove_lora i id b2;
      if is_pooling_model b3 then Ok (Some i, set_pooling_states (delete id (pooling_states b3)) (set_pooling_params (delete id (pooling_params b3)) b3))
      else b4 ← discard_sampling i id b3; Ok (Some i, b4)
  end.

(** ** Moving rows *)

(** The entries a row [to] takes over from a row [from]; the sampling entries only without
    pooling, [needs_token_ids] never. *)
Definition move_fields (pooling : bool) (toks : list Z) (istoks : list bool) (mask : list bool) (from to : Row) : Row :=
  let s := if pooling then to else from in
  mkRow toks istoks (num_tokens_no_spec from) (num_prompt_tokens from) (num_computed_tokens from) (row_temperature s) (row_top_p s) (row_top_k s)
    (row_frequency_penalty s) (row_presence_penalty s) (row_repetition_penalty s) (num_accepted_tokens s) (lora_mapping from) (needs_token_ids to) mask.

(** [swap_dict_values] of vllm/utils/collection_utils.py. *)
Definition swap_dict_values {A} (m : gmap nat A) (i j : nat) : gmap nat A :=
  let vi := m !! i in
  let vj := m !! j in
  let m1 := match vi with Some v => <[j := v]> m | None => delete j m end in
  match vj with Some v => <[i := v]> m1 | None => delete i m1 end.

(** [swap_states].  The two rows of the mask are views: the first assignment overwrites row
    [i1] with row [i2], and the second copies it back. *)
Definition swap_states (i1 i2 : nat) (b : InputBatch) : result InputBatch :=
  o1 ← of_option IndexError (req_ids b !! i1);
  o2 ← of_option IndexError (req_ids b !! i2);
  ids ← swap_at i1 i2 (req_ids b);
  outs ← swap_at i1 i2 (req_output_token_ids b);
  specs ← swap_at i1 i2 (spec_token_ids b);
  id1 ← of_option AssertionError o1;
  id2 ← of_option AssertionError o2;
  n1 ← of_option KeyError (req_id_to_index b !! id1);
  n2 ← of_option KeyError (req_id_to_index b !! id2);
  r1 ← get_row i1 b;
  r2 ← get_row i2 b;
  ts ← mg_swap_row i1 i2 (block_tables b);
  let p := is_pooling_model b in
  let mask1 := if p then allowed_mask r1 else if mask_allocated b then allowed_mask r2 else allowed_mask r1 in
  let r1' := move_fields p (token_ids r2) (is_token_ids r2) mask1 r2 r1 in
  let r2' := move_fields p (token_ids r1) (is_token_ids r1) (allowed_mask r2) r1 r2 in
  let b1 := set_req_ids ids (set_req_output_token_ids outs (set_spec_token_ids specs (set_req_id_to_index (<[id2 := n1]> (<[id1 := n2]> (req_id_to_index b))) b))) in
  let b2 := set_rows (<[i2 := r2']> (<[i1 := r1']> (rows b))) (set_req_prompt_embeds (swap_dict_values (req_prompt_embeds b) i1 i2) (set_block_tables ts b1)) in
  Ok (if p then b2
      else set_batch_update_builder (push_moved (i1, i2, SWAP) (batch_update_builder b2))
             (set_generators (swap_dict_values (generators b2) i1 i2) (set_bad_words (swap_dict_values (bad_words b2) i1 i2) b2))).

(** ** [condense] *)

(** [while last_req_index in empty_req_indices: last_req_index -= 1]; [None] is -1. *)
Fixpoint largest_used (last : nat) (empties : list nat) : option nat :=
  if decide (last ∈ empties) then match last with S l => largest_used l empties | O => None end else Some last.
(** [d[to] = d.pop(from)] when there is one. *)
Definition move_key {A} (from to : nat) (m : gmap nat A) : gmap nat A :=
  match m !! from with Some v => <[to := v]> (delete from m) | None => m end.
(** One request slides down from row [l] to row [e]. *)
Definition slide (l e : nat) (b : InputBatch) : result InputBatch :=
  o ← of_option IndexError (req_ids b !! l);
  out ← of_option IndexError (req_output_token_ids b !! l);
  id ← of_option AssertionError o;
  ids0 ← set_item e (Some id) (req_ids b); ids ← set_item l None ids0;
  outs0 ← set_item e out (req_output_token_ids b); outs ← set_item l None outs0;
  spec ← of_option IndexError (spec_token_ids b !! l);
  specs0 ← set_item e spec (spec_token_ids b); specs ← set_item l [] specs0;
  from ← get_row l b;
  to ← get_row e b;
  ts ← mg_move_row l e (block_tables b);
  let p := is_pooling_model b in
  let n := Z.to_nat (num_tokens_no_spec from + zlen spec) in
  let mask := if negb p && mask_allocated b then allowed_mask from else allowed_mask to in
  let to' := move_fields p (copy_rows n (token_ids from) (token_ids to)) (copy_rows n (is_token_ids from) (is_token_ids to)) mask from to in
  let b1 := set_req_ids ids (set_req_output_token_ids outs (set_spec_token_ids specs (set_req_id_to_index (<[id := e]> (req_id_to_index b)) b))) in
  let b2 := set_row e to' (set_req_prompt_embeds (move_key l e (req_prompt_embeds b)) (set_block_tables ts b1)) in
  Ok (if p then b2
      else set_batch_update_builder (push_moved (l, e, UNIDIRECTIONAL) (batch_update_builder b2))
             (set_generators (move_key l e (generators b2)) (set_bad_words (move_key l e (bad_words b2)) b2))).
Fixpoint condense_loop (fuel : nat) (last : nat) (b : InputBatch) : result InputBatch :=
  match removed_rows (batch_update_builder b) with
  | [] => Ok b
  | empties =>
      match fuel with
      | O => Err OutOfFuel
      | S fuel' =>
          let '(peeked, bld) := peek_removed (batch_update_builder b) in
          e ← of_option AssertionError peeked;
          match largest_used last empties with
          | None => Ok (set_batch_update_builder bld b)
          | Some l =>
              if (l <=? e)%nat then Ok (set_batch_update_builder bld b) else
              b1 ← slide l e (set_batch_update_builder (pop_removed bld).2 b);
              condense_loop fuel' (l - 1) b1
          end
      end
  end.
Definition trim_lists (n : nat) (b : InputBatch) : InputBatch :=
  set_req_ids (take n (req_ids b)) (set_req_output_token_ids (take n (req_output_token_ids b)) (set_spec_token_ids (take n (spec_token_ids b)) b)).
Definition condense (b : InputBatch) : result InputBatch :=
  let n := num_reqs b in
  let '(empties, bld) := removed (batch_update_builder b) in
  let b0 := set_batch_update_builder bld b in
  match empties with
  | [] => Ok b0
  | _ =>
      if (n =? 0)%nat then Ok (set_req_ids [] (set_req_output_token_ids [] (set_spec_token_ids [] b0))) else
      b1 ← condense_loop (S (length empties)) (n + length empties - 1) b0;
      Ok (trim_lists n b1)
  end.

(** ** The sampler's view *)

(** [SamplingMetadata]; a slice of a device tensor is the values copied to it in this call,
    [None] where the call copies none.  Output token lists are identities. *)
Record SamplingMetadata : Type := mkMeta {
  md_temperature : option (list Q);
  md_all_greedy : bool;
  md_all_random : bool;
  md_top_p : option (list Q);
  md_top_k : option (list Z);
  md_generators : gmap nat Z;
  md_max_num_logprobs : option Z;
  md_no_penalties : bool;
  md_prompt_token_ids : option (list (list Z));
  md_penalties : option (list Q * list Q * list Q);
  md_output_token_ids : list (option Z);
  md_spec_token_ids : list (list Z);
  md_allowed_token_ids_mask : option (list (list bool));
  md_bad_words : gmap nat (list (list Z));
}.

(** [_make_prompt_token_ids_tensor]: padded with [vocab_size]; [max] of nothing raises. *)
Definition padded_prompt (vocab width : Z) (row : Row) : list Z :=
  imap (fun j t => if Z.of_nat j <? num_prompt_tokens row then t else vocab) (take (Z.to_nat width) (token_ids row)).
Definition make_prompt_token_ids_tensor (b : InputBatch) : result (list (list Z)) :=
  let live := take (num_reqs b) (rows b) in
  match num_prompt_tokens <$> live with
  | [] => Err ValueError
  | n :: l => Ok (padded_prompt (vocab_size b) (foldl Z.max n l) <$> live)
  end.

(** [_make_sampling_metadata]; [needs_output] is [logitsprocs_need_output_token_ids]. *)
Definition make_sampling_metadata (needs_output : bool) (b : InputBatch) : result SamplingMetadata :=
  let live := take (num_reqs b) (rows b) in
  let penalties := if no_penalties b then None else Some (row_frequency_penalty <$> live, row_presence_penalty <$> live, row_repetition_penalty <$> live) in
  prompt ← (if negb (no_penalties b) || existsb needs_token_ids live then t ← make_prompt_token_ids_tensor b; Ok (Some t) else Ok None);
  let needs := negb (no_penalties b) || negb (bool_decide (bad_words b = ∅)) || needs_output in
  mask ← (if no_allowed_token_ids b then Ok None else _ ← py_assert (mask_allocated b); Ok (Some (allowed_mask <$> live)));
  Ok (mkMeta (if all_greedy b then None else Some (row_temperature <$> live)) (all_greedy b) (all_random b)
        (if no_top_p b then None else Some (row_top_p <$> live)) (if no_top_k b then None else Some (row_top_k <$> live))
        (generators b) (max_num_logprobs b) (no_penalties b) prompt penalties (if needs then req_output_token_ids b else [])
        (spec_token_ids b) mask (bad_words b)).

(** [refresh_metadata]: the update for the logits processors, and the metadata if renewed. *)
Definition refresh_metadata (needs_output : bool) (b : InputBatch) : result (option (BatchUpdate Added) * option SamplingMetadata * InputBatch) :=
  if is_pooling_model b then
    let '(changed, bld) := builder_reset (batch_update_builder b) in
    let b1 := set_batch_update_builder bld b in
    if changed : bool then md ← make_sampling_metadata needs_output b1; Ok (None, Some md, b1) else Ok (None, None, b1)
  else
    let '(upd, bld) := get_and_reset (num_reqs b) (batch_update_builder b) in
    let b1 := set_batch_update_builder bld b in
    match upd with
    | Some u => md ← make_sampling_metadata needs_output b1; Ok (Some u, Some md, b1)
    | None => Ok (None, None, b1)
    end.

(** [get_pooling_params], [get_pooling_states]; [get_pooling_metadata] without its tensors. *)
Definition by_request {A} (d : gmap string A) (b : InputBatch) : result (list A) :=
  _ ← py_assert (length (req_ids b) =? size d)%nat;
  mapM (fun o => id ← of_option KeyError o; of_option KeyError (d !! id)) (req_ids b).
Definition get_pooling_params (b : InputBatch) : result (list WorkerPooling) := by_request (pooling_params b) b.
Definition get_pooling_states (b : InputBatch) : result (list Z) := by_request (pooling_states b) b.

(** [make_lora_inputs]: the LoRA of each sampled and of each scheduled token. *)
Definition repeat_each (mapping : list Z) (counts : list nat) : list Z := concat (zip_with (fun m n => replicate n m) mapping counts).
Definition make_lora_inputs (scheduled sampled : list nat) (b : InputBatch) : list Z * list Z * list LoRARequest :=
  let mapping := lora_mapping <$> take (num_reqs b) (rows b) in
  (repeat_each mapping sampled, repeat_each mapping scheduled, (map_to_list (lora_id_to_lora_request b)).*2).

(** [update_async_output_token_ids]: the placeholders -1 at the end of an output list are
    replaced by the ids that were sampled; the second list comes back shortened. *)
Definition index_of (x : Z) (l : list Z) : result nat := of_option ValueError (fst <$> list_find (fun y => y = x) l).
Definition repair_output (out new_ids : list Z) : result (list Z * list Z) :=
  match last out with
  | Some (-1) =>
      match last new_ids with
      | None => Ok (out, new_ids)
      | Some y =>
          num_sampled ← (if y =? -1 then index_of (-1) new_ids else Ok (length new_ids));
          first ← index_of (-1) out;
          let n := min num_sampled (length out - first) in
          let new' := take n new_ids in
          Ok (take first out ++ new' ++ drop (first + n) out, new')
      end
  | _ => Ok (out, new_ids)
  end.
(** [update_async_spec_token_ids] for one request: [draft_ids] and the lengths it keeps. *)
Definition repair_spec (spec draft : list Z) : list Z * list Z :=
  match spec, draft with
  | [], _ | _, [] => (spec, draft)
  | _, _ => let d := take (length spec) draft in (d, d)
  end.

(** [__init__].  The sampling arrays are not initialised: [garbage] is what they hold, row by
    row.  The mask of the allowed tokens is allocated with the first request that needs it;
    until then nothing writes it, so it is here what it is then: nothing is forbidden. *)
Definition initial_row (max_model_len : nat) (vocab : Z) (garbage : Q * Q * Z * Q * Q * Q) : Row :=
  let '(t, p, k, f, pr, r) := garbage in mkRow (replicate max_model_len 0) (replicate max_model_len false) 0 0 0 t p k f pr r 1 0 false (replicate (Z.to_nat vocab) false).
Definition batch_init (pooling needs_output : bool) (max_num_reqs max_model_len : nat) (max_batched vocab : Z) (block_sizes kernel_block_sizes : list Z)
    (max_num_blocks : option (list Z)) (interleave pcp prank dcp drank : Z) (garbage : nat -> Q * Q * Z * Q * Q * Q) : result (SamplingMetadata * InputBatch) :=
  tables ← mg_init (Z.of_nat max_num_reqs) (Z.of_nat max_model_len) max_batched block_sizes kernel_block_sizes max_num_blocks interleave pcp prank dcp drank;
  let b := mkBatch pooling max_num_reqs vocab [] ∅ ((fun i => initial_row max_model_len vocab (garbage i)) <$> seq 0 max_num_reqs) ∅ tables
             ∅ ∅ ∅ ∅ ∅ ∅ ∅ ∅ ∅ ∅ ∅ ∅ builder_init ∅ false ∅ [] (replicate max_num_reqs []) ∅ ∅ None in
  md ← make_sampling_metadata needs_output b;
  Ok (md, b).
