(* ===== verification/ModelRunner.v ===== *)
(** * The worker's step on its batch

    vllm/v1/worker/gpu_model_runner.py: [_update_states] up to the refresh of the metadata, for
    the last pipeline rank with synchronous scheduling, [_update_streaming_request], and the
    part of [_bookkeeping_sync] that records the sampled tokens; the reordering of
    vllm/v1/attention/backends/utils.py.  Not here: the encoder cache, positions of M-RoPE
    and XD-RoPE, the n-gram proposer on the device, prompt log-probabilities, and everything
    that only runs the model.

    The objects that are made for a new request, its generator, its pooling state and its list
    of output tokens, are identities that come with the request; a request's entry in
    [requests] is the object that the lists of requests to add refer to. *)
From S2P Require Import Prelude Request BlockTable BatchUpdate InputBatch.
From Stdlib Require Import QArith.QArith.
Open Scope Z_scope.

(** ** Input of a step *)

Record NewRequestData : Type := mkNewRequest {
  nr_req_id : string;
  nr_prompt_token_ids : option (list Z);
  nr_prompt_embeds : option PromptEmbeds;
  nr_sampling_params : option WorkerSampling;
  nr_pooling_params : option WorkerPooling;
  nr_block_ids : list (list Z);
  nr_num_computed_tokens : Z;
  nr_lora_request : option LoRARequest;
  new_generator : Z;
  new_pooling_states : Z;
  new_output_list : Z;
}.
(** The entries of [CachedRequestData] for one request. *)
Record CachedData : Type := mkCached {
  cd_req_id : string;
  cd_num_computed_tokens : Z;
  cd_new_block_ids : option (list (list Z));
  cd_resumed : bool;
  cd_num_output_tokens : Z;
}.
Record StepInput : Type := mkStep {
  finished_req_ids : list string;
  scheduled_req_ids : gset string;
  scheduled_new_reqs : list NewRequestData;
  scheduled_cached_reqs : list CachedData;
  scheduled_spec_decode_tokens : list (string * list Z);
}.
Definition resumed_req_ids (o : StepInput) : gset string := list_to_set (cd_req_id <$> filter cd_resumed (scheduled_cached_reqs o)).

Record Runner : Type := mkRunner { requests : gmap string CachedRequestState; input_batch : InputBatch }.

(** ** Cached requests *)

Definition crs_update (computed : Z) (outputs : list Z) (blocks : list (list Z)) (r : CachedRequestState) : CachedRequestState :=
  mkCRS (cr_req_id r) (cr_prompt_token_ids r) (cr_prompt_embeds r) (cr_sampling_params r) (cr_pooling_params r) (cr_pooling_states r) (generator r)
    blocks computed (output_list r) outputs (cr_lora_request r) (prev_num_draft_len r).
(** The state of a new request; [__post_init__] computes the length of its prompt. *)
Definition new_request_state (d : NewRequestData) : result CachedRequestState :=
  let g := match nr_sampling_params d with Some p => match sampling_type p with RANDOM_SEED => Some (new_generator d) | _ => None end | None => None end in
  let st := match nr_pooling_params d with Some _ => Some (new_pooling_states d) | None => None end in
  _ ← length_from_prompt_token_ids_or_embeds (nr_prompt_token_ids d) (nr_prompt_embeds d);
  Ok (mkCRS (nr_req_id d) (nr_prompt_token_ids d) (nr_prompt_embeds d) (nr_sampling_params d) (nr_pooling_params d) st g (nr_block_ids d)
        (nr_num_computed_tokens d) (new_output_list d) [] (nr_lora_request d) 0).
(** [_update_streaming_request]: the next turn of a session. *)
Definition streaming_state (d : NewRequestData) (r : CachedRequestState) : result CachedRequestState :=
  _ ← length_from_prompt_token_ids_or_embeds (nr_prompt_token_ids d) (nr_prompt_embeds d);
  Ok (mkCRS (cr_req_id r) (nr_prompt_token_ids d) (nr_prompt_embeds d) (nr_sampling_params d) (nr_pooling_params d) (cr_pooling_states r) (generator r)
        (nr_block_ids d) (nr_num_computed_tokens d) (output_list r) [] (cr_lora_request r) (prev_num_draft_len r)).

(** The loop over [scheduled_new_reqs]; the third component is [reqs_to_add], last first. *)
Definition new_request (st : Runner * list string) (d : NewRequestData) : result (Runner * list string) :=
  let '(s, to_add) := st in
  let id := nr_req_id d in
  match requests s !! id with
  | Some r =>
      '(_, b) ← remove_request id (input_batch s);
      r' ← streaming_state d r;
      Ok (mkRunner (<[id := r']> (requests s)) b, id :: to_add)
  | None =>
      _ ← (if is_pooling_model (input_batch s) then py_assert (bool_decide (is_Some (nr_pooling_params d))) else Ok tt);
      r ← new_request_state d;
      Ok (mkRunner (<[id := r]> (requests s)) (input_batch s), id :: to_add)
  end.

(** ** Running and resumed requests *)

Definition set_counts (num_tokens num_computed : Z) (row : Row) : Row :=
  mkRow (token_ids row) (is_token_ids row) num_tokens (num_prompt_tokens row) num_computed (row_temperature row)
    (row_top_p row) (row_top_k row) (row_frequency_penalty row) (row_presence_penalty row) (row_repetition_penalty row) (num_accepted_tokens row)
    (lora_mapping row) (needs_token_ids row) (allowed_mask row).
(** The row of a request that keeps running; [cut] is set when output tokens were discarded. *)
Definition update_row (i : nat) (d : CachedData) (cut : bool) (b : InputBatch) : result InputBatch :=
  row ← get_row i b;
  let n := if cut then num_prompt_tokens row + cd_num_output_tokens d else num_tokens_no_spec row in
  let b1 := set_row i (set_counts n (cd_num_computed_tokens d) row) b in
  match cd_new_block_ids d with
  | None => Ok b1
  | Some ids => ts ← mg_append_row ids i (block_tables b1); Ok (set_block_tables ts b1)
  end.
Definition cached_request (spec : list (string * list Z)) (st : Runner * list string) (d : CachedData) : result (Runner * list string) :=
  let '(s, to_add) := st in
  let id := cd_req_id d in
  r ← of_option KeyError (requests s !! id);
  let index := req_id_to_index (input_batch s) !! id in
  let cut := cd_num_output_tokens d <? zlen (cr_output_token_ids r) in
  let outputs := if cut then take (Z.to_nat (cd_num_output_tokens d)) (cr_output_token_ids r) else cr_output_token_ids r in
  blocks ← (if cd_resumed d then
              _ ← py_assert (bool_decide (index = None));
              of_option AssertionError (cd_new_block_ids d)
            else match cd_new_block_ids d with
                 | Some ids => Ok (zip_with app (cr_block_ids r) ids ++ drop (length ids) (cr_block_ids r))
                 | None => Ok (cr_block_ids r)
                 end);
  let r' := crs_update (cd_num_computed_tokens d) outputs blocks r in
  match index with
  | None => Ok (mkRunner (<[id := r']> (requests s)) (input_batch s), id :: to_add)
  | Some i =>
      b1 ← update_row i d cut (input_batch s);
      '(r'', b2) ← update_req_spec_token_ids r' spec b1;
      Ok (mkRunner (<[id := r'']> (requests s)) b2, to_add)
  end.

(** ** The step *)

Section Step.
Context (f32 : Q -> Q) (set_order : gset string -> list string) (needs_output : bool).
(** The swaps an attention backend asks for. *)
Context (reorder : StepInput -> InputBatch -> result InputBatch).

Definition remove_batch (b : InputBatch) (id : string) : result InputBatch := '(_, b') ← remove_request id b; Ok b'.
Definition add_batch (spec : list (string * list Z)) (s : Runner) (id : string) : result Runner :=
  r ← of_option KeyError (requests s !! id);
  '(_, b1) ← add_request f32 r (input_batch s);
  '(r', b2) ← update_req_spec_token_ids r spec b1;
  Ok (mkRunner (<[id := r']> (requests s)) b2).
Definition unscheduled_req_ids (o : StepInput) (b : InputBatch) : gset string := dom (req_id_to_index b) ∖ (scheduled_req_ids o ∖ resumed_req_ids o).

Definition update_states (o : StepInput) (s : Runner) : result (option (BatchUpdate Added) * option SamplingMetadata * Runner) :=
  let reqs := foldl (fun m id => delete id m) (requests s) (finished_req_ids o) in
  b1 ← foldM remove_batch (input_batch s) (finished_req_ids o);
  b2 ← foldM remove_batch b1 (set_order (unscheduled_req_ids o b1));
  '(s3, new) ← foldM new_request (mkRunner reqs b2, []) (scheduled_new_reqs o);
  '(s4, to_add) ← foldM (cached_request (scheduled_spec_decode_tokens o)) (s3, new) (scheduled_cached_reqs o);
  s5 ← foldM (add_batch (scheduled_spec_decode_tokens o)) s4 (rev to_add);
  b6 ← condense (input_batch s5);
  b7 ← reorder o b6;
  '(upd, md, b8) ← refresh_metadata needs_output b7;
  Ok (upd, md, mkRunner (requests s5) b8).
End Step.

(** ** Sampled tokens *)

(** The loop of [_bookkeeping_sync] that records the valid sampled tokens of every row. *)
Definition record_tokens (max_model_len : Z) (s : Runner) (x : nat * list Z) : result Runner :=
  let '(i, ids) := x in
  match ids with
  | [] => Ok s
  | _ =>
      row ← get_row i (input_batch s);
      let start := num_tokens_no_spec row in
      let stop := start + zlen ids in
      _ ← py_assert (stop <=? max_model_len);
      toks ← set_slice (Z.to_nat start) ids (token_ids row);
      let row' := mkRow toks (fill_slice (Z.to_nat start) (Z.to_nat stop) true (is_token_ids row)) stop (num_prompt_tokens row) (num_computed_tokens row)
        (row_temperature row) (row_top_p row) (row_top_k row) (row_frequency_penalty row) (row_presence_penalty row) (row_repetition_penalty row)
        (num_accepted_tokens row) (lora_mapping row) (needs_token_ids row) (allowed_mask row) in
      o ← of_option IndexError (req_ids (input_batch s) !! i);
      id ← of_option KeyError o;
      r ← of_option KeyError (requests s !! id);
      let r' := crs_update (cr_num_computed_tokens r) (cr_output_token_ids r ++ ids) (cr_block_ids r) r in
      Ok (mkRunner (<[id := r']> (requests s)) (set_row i row' (input_batch s)))
  end.
Definition bookkeeping (max_model_len : Z) (sampled : list (list Z)) (s : Runner) : result Runner :=
  foldM (record_tokens max_model_len) s (imap (fun i ids => (i, ids)) sampled).

(** ** Reordering *)

(** 0 for a decode, 1 for an extend, 2 for a prefill. *)
Definition region (threshold computed scheduled : Z) : Z :=
  if computed =? 0 then 2 else if scheduled <=? threshold then 0 else 1.
(** [np.argsort(kind="stable")]: the positions in the order of their keys. *)
Fixpoint insert_by (keys : list Z) (x : nat) (l : list nat) : list nat :=
  match l with [] => [x] | y :: l' => if nth x keys 0 <=? nth y keys 0 then x :: y :: l' else y :: insert_by keys x l' end.
Definition argsort_stable (keys : list Z) : list nat := foldr (insert_by keys) [] (seq 0 (length keys)).
(** [where(needs_swap)] and [src_dest_map], in the order of the dict. *)
Definition count_of (x : Z) (l : list Z) : nat := length (filter (fun y => y = x) l).
Definition target_regions (regions : list Z) : list Z :=
  replicate (count_of 0 regions) 0 ++ replicate (count_of 1 regions) 1 ++ replicate (length regions - count_of 0 regions - count_of 1 regions) 2.
Definition misplaced (regions : list Z) : list nat :=
  filter (fun i => nth i regions 0 <> nth i (target_regions regions) 0) (seq 0 (length regions)).
Definition swap_sources (regions : list Z) : list nat :=
  let orig := misplaced regions in
  (fun j => nth j orig 0%nat) <$> argsort_stable ((fun i => nth i regions 0) <$> orig).

(** [while src != dst]; there are at most as many swaps as keys. *)
Fixpoint follow_cycle {S} (swap : nat -> nat -> S -> result S) (fuel : nat) (src dst : nat) (m : gmap nat nat) (s : S) : result (gmap nat nat * S) :=
  if (src =? dst)%nat then Ok (m, s)
  else match fuel with
       | O => Err OutOfFuel
       | S fuel' => s' ← swap src dst s; follow_cycle swap fuel' src (default dst (m !! dst)) (<[dst := dst]> m) s'
       end.
Definition apply_cycles {S} (swap : nat -> nat -> S -> result S) (keys : list nat) (m : gmap nat nat) (s : S) : result S :=
  '(_, s') ← foldM (fun '(m, s) src => dst ← of_option KeyError (m !! src); follow_cycle swap (length keys) src dst m s) (m, s) keys;
  Ok s'.

(** [reorder_batch_to_split_decodes_and_prefills]; the second component is its result. *)
Definition batch_regions (threshold : Z) (scheduled : gmap string Z) (b : InputBatch) : result (list Z) :=
  counts ← mapM (fun o => id ← of_option KeyError o; of_option KeyError (scheduled !! id)) (req_ids b);
  Ok (zip_with (region threshold) (num_computed_tokens <$> take (length (req_ids b)) (rows b)) counts).
Definition reorder_batch_to_split_decodes_and_prefills (threshold : Z) (scheduled : gmap string Z) (b : InputBatch) : result (bool * InputBatch) :=
  regions ← batch_regions threshold scheduled b;
  let orig := misplaced regions in
  match orig with
  | [] => Ok (false, b)
  | _ =>
      let sources := swap_sources regions in
      b' ← apply_cycles swap_states sources (list_to_map (rev (zip sources orig))) b;
      Ok (true, b')
  end.
(** [_may_reorder_batch]. *)
Definition may_reorder_batch (num_kv_groups : nat) (threshold : option Z) (scheduled : gmap string Z) (b : InputBatch) : result InputBatch :=
  if (num_kv_groups =? 0)%nat then Ok b
  else match threshold with
       | None => Ok b
       | Some t => '(_, b') ← reorder_batch_to_split_decodes_and_prefills t scheduled b; Ok b'
       end.
