(* ===== verification/InputBatchView.v ===== *)
(** * What the batch stores about a request

    The abstract state of the persistent batch: for every request of the batch one [View] of
    what its row, the dicts and the sets hold about it. A view leaves out the two arrays that
    the code does not keep with the rows: the mask of the allowed tokens ([swap_states] leaves
    two rows with one mask, [condense] leaves a copy behind) and
    [logits_processing_needs_token_ids] (neither moves it). They are fields of [Row] and the
    operations store them; the theorems that speak of views say nothing about them.
    The invariant of the batch, its two phases, and counting its rows. *)
From S2P Require Import Prelude Request BlockTable BlockTableProps BatchUpdate BatchUpdateProps InputBatch.
From Stdlib Require Import QArith.QArith.
Open Scope Z_scope.

(** ** Views *)

Inductive ViewParams : Type :=
  | Pooled (p : option WorkerPooling) (states : option Z)
  | Sampled (scalars : Q * Q * Z * Q * Q * Q * Z) (flags : list bool) (logprobs : option Z) (g : option Z) (bad : option (list (list Z))).
(** All that [add_request] stores about a request, but for [allowed_mask] and
    [needs_token_ids] of its row. *)
Record View : Type := mkView {
  v_tokens : list (option Z);
  v_num_tokens : Z;
  v_num_prompt : Z;
  v_num_computed : Z;
  v_output : option Z;
  v_spec : list Z;
  v_drafts : list Z;
  v_blocks : list (list Z);
  v_lora : Z;
  v_embeds : option PromptEmbeds;
  v_params : ViewParams;
}.

(** The tokens of a row; [None] where the row has no token id but an embedding. *)
Definition known (x : Z) (is_id : bool) : option Z := if is_id then Some x else None.
Definition known_tokens (row : Row) : list (option Z) :=
  let n := Z.to_nat (num_tokens_no_spec row) in zip_with known (take n (token_ids row)) (take n (is_token_ids row)).
Definition row_scalars (row : Row) : Q * Q * Z * Q * Q * Q * Z :=
  (row_temperature row, row_top_p row, row_top_k row, row_frequency_penalty row, row_presence_penalty row, row_repetition_penalty row, num_accepted_tokens row).
(** Membership in the sets of request ids. *)
Definition id_sets (b : InputBatch) : list (gset string) :=
  [greedy_reqs b; random_reqs b; top_p_reqs b; top_k_reqs b; frequency_penalties_reqs b; presence_penalties_reqs b; repetition_penalties_reqs b; has_allowed_token_ids b].
Definition flags_of (b : InputBatch) (id : string) : list bool := (fun s : gset string => bool_decide (id ∈ s)) <$> id_sets b.

Definition params_of (b : InputBatch) (i : nat) (id : string) (row : Row) : ViewParams :=
  if is_pooling_model b then Pooled (pooling_params b !! id) (pooling_states b !! id)
  else Sampled (row_scalars row) (flags_of b id) (num_logprobs b !! id) (generators b !! i) (bad_words b !! i).
Definition view_of (b : InputBatch) (i : nat) (id : string) (row : Row) (out : option Z) (spec : list Z) : View :=
  mkView (known_tokens row) (num_tokens_no_spec row) (num_prompt_tokens row) (num_computed_tokens row) out spec
    (take (length spec) (drop (Z.to_nat (num_tokens_no_spec row)) (token_ids row))) ((fun t => row_ids t i) <$> block_tables b) (lora_mapping row)
    (if decide (None ∈ known_tokens row) then req_prompt_embeds b !! i else None) (params_of b i id row).

(** The request at a row, and its view. *)
Definition at_id (b : InputBatch) (i : nat) : option string := mjoin (req_ids b !! i).
Definition at_row (b : InputBatch) (i : nat) : option (string * View) :=
  id ← at_id b i; row ← rows b !! i; out ← req_output_token_ids b !! i; spec ← spec_token_ids b !! i;
  Some (id, view_of b i id row out spec).

(** The batch stores these views of these requests. *)
Definition represents (b : InputBatch) (m : gmap string View) : Prop := forall id v, m !! id = Some v <-> exists i, at_row b i = Some (id, v).

(** What an operation on rows leaves of a table's shape, and the kernel blocks of a group. *)
Definition bt_shape (t : BlockTable) : Z * Z := (blocks_per_kv_block t, max_num_blocks_per_req t).
Definition kernel_blocks (shape : Z * Z) (ids : list Z) : list Z := map_to_kernel_blocks shape.1 ids.

(** ** The invariant *)

Record lists_ok (b : InputBatch) : Prop := {
  lo_out : length (req_output_token_ids b) = length (req_ids b);
  lo_spec : (length (req_ids b) <= length (spec_token_ids b))%nat;
  lo_max : (length (req_ids b) <= max_num_reqs b)%nat;
  lo_rows : length (rows b) = max_num_reqs b;
  lo_spare : forall i s, (length (req_ids b) <= i)%nat -> spec_token_ids b !! i = Some s -> s = [];
}.
Definition table_ok (b : InputBatch) (t : BlockTable) : Prop := bt_wf t /\ length (table_cpu t) = max_num_reqs b.
Definition lora_ids (b : InputBatch) (k : Z) : gset string := default ∅ (lora_id_to_request_ids b !! k).

(** [max_model_len] is the length of a row. *)
Record batch_wf (max_model_len : nat) (b : InputBatch) : Prop := {
  iw_index : forall id i, req_id_to_index b !! id = Some i <-> at_id b i = Some id;
  iw_lists : lists_ok b;
  iw_rows : forall i row, rows b !! i = Some row -> length (token_ids row) = max_model_len /\ length (is_token_ids row) = max_model_len;
  iw_fit : forall i id v, at_row b i = Some (id, v) -> 0 <= v_num_tokens v <= Z.of_nat max_model_len;
  iw_embeds : forall i id v, at_row b i = Some (id, v) -> None ∈ v_tokens v -> is_Some (v_embeds v);
  iw_tables : forall t, t ∈ block_tables b -> table_ok b t;
  iw_dicts : forall i, is_Some (generators b !! i) \/ is_Some (bad_words b !! i) -> is_pooling_model b = false /\ is_Some (at_id b i);
  iw_sets : forall id, (exists s, s ∈ id_sets b /\ id ∈ s) \/ is_Some (num_logprobs b !! id) -> is_pooling_model b = false /\ exists i, at_id b i = Some id;
  iw_mask : has_allowed_token_ids b <> ∅ -> mask_allocated b = true;
  iw_pool : forall id, is_Some (pooling_params b !! id) <-> is_pooling_model b = true /\ exists i, at_id b i = Some id;
  iw_lora : forall k id, id ∈ lora_ids b k <-> k <> 0 /\ exists i v, at_row b i = Some (id, v) /\ v_lora v = k;
  iw_lora_live : forall k, is_Some (lora_id_to_request_ids b !! k) <-> lora_ids b k <> ∅;
  iw_lora_req : forall k, is_Some (lora_id_to_lora_request b !! k) <-> is_Some (lora_id_to_request_ids b !! k);
}.

(** While requests leave and arrive, the rows that left and were not filled are the holes. *)
Record editing (b : InputBatch) : Prop := {
  ed_builder : builder_ok (batch_update_builder b);
  ed_holes : forall i, i ∈ removed_rows (batch_update_builder b) <-> (i < length (req_ids b))%nat /\ at_id b i = None;
  ed_moved : moved (batch_update_builder b) = [];
}.
(** Between steps there are no holes. *)
Definition dense (b : InputBatch) : Prop := forall i, (i < length (req_ids b))%nat -> is_Some (at_id b i).
Definition ready (b : InputBatch) : Prop := dense b /\ batch_update_builder b = builder_init.

(** ** Reading a batch *)

Ltac bsimp := cbn [is_pooling_model max_num_reqs vocab_size req_ids req_id_to_index rows req_prompt_embeds block_tables greedy_reqs random_reqs top_p_reqs top_k_reqs
  frequency_penalties_reqs presence_penalties_reqs repetition_penalties_reqs lora_id_to_request_ids lora_id_to_lora_request generators num_logprobs
  in_progress_prompt_logprobs batch_update_builder has_allowed_token_ids mask_allocated bad_words req_output_token_ids spec_token_ids pooling_params pooling_states
  prev_req_id_to_index set_req_ids set_req_id_to_index set_rows set_row set_req_prompt_embeds set_block_tables set_greedy_reqs set_random_reqs set_top_p_reqs
  set_top_k_reqs set_frequency_penalties_reqs set_presence_penalties_reqs set_repetition_penalties_reqs set_lora_id_to_request_ids set_lora_id_to_lora_request
  set_generators set_num_logprobs set_in_progress_prompt_logprobs set_batch_update_builder set_has_allowed_token_ids set_mask_allocated set_bad_words
  set_req_output_token_ids set_spec_token_ids set_pooling_params set_pooling_states set_prev_req_id_to_index].
Ltac bsimp_all := cbn [is_pooling_model max_num_reqs vocab_size req_ids req_id_to_index rows req_prompt_embeds block_tables greedy_reqs random_reqs top_p_reqs top_k_reqs
  frequency_penalties_reqs presence_penalties_reqs repetition_penalties_reqs lora_id_to_request_ids lora_id_to_lora_request generators num_logprobs
  in_progress_prompt_logprobs batch_update_builder has_allowed_token_ids mask_allocated bad_words req_output_token_ids spec_token_ids pooling_params pooling_states
  prev_req_id_to_index set_req_ids set_req_id_to_index set_rows set_row set_req_prompt_embeds set_block_tables set_greedy_reqs set_random_reqs set_top_p_reqs
  set_top_k_reqs set_frequency_penalties_reqs set_presence_penalties_reqs set_repetition_penalties_reqs set_lora_id_to_request_ids set_lora_id_to_lora_request
  set_generators set_num_logprobs set_in_progress_prompt_logprobs set_batch_update_builder set_has_allowed_token_ids set_mask_allocated set_bad_words
  set_req_output_token_ids set_spec_token_ids set_pooling_params set_pooling_states set_prev_req_id_to_index] in *.

Lemma at_id_lookup b i id : at_id b i = Some id <-> req_ids b !! i = Some (Some id).
Proof. unfold at_id. destruct (req_ids b !! i) as [[x|]|]; cbn; split; congruence. Qed.
Lemma at_id_lt b i id : at_id b i = Some id -> (i < length (req_ids b))%nat.
Proof. intros H%at_id_lookup. by apply lookup_lt_Some in H. Qed.
Lemma at_row_id b i id v : at_row b i = Some (id, v) -> at_id b i = Some id.
Proof. unfold at_row. intros H. repeat (apply bind_Some in H as (? & ? & H)). congruence. Qed.
Lemma at_row_some b i id : lists_ok b -> at_id b i = Some id -> exists row out spec,
  rows b !! i = Some row /\ req_output_token_ids b !! i = Some out /\ spec_token_ids b !! i = Some spec /\ at_row b i = Some (id, view_of b i id row out spec).
Proof.
  intros [] Hid. pose proof (at_id_lt b i id Hid). destruct (lookup_lt_is_Some_2 (rows b) i) as [row Hrow]; [lia|].
  destruct (lookup_lt_is_Some_2 (req_output_token_ids b) i) as [out Hout]; [lia|]. destruct (lookup_lt_is_Some_2 (spec_token_ids b) i) as [spec Hspec]; [lia|].
  exists row, out, spec. split_and!; try done. unfold at_row. by rewrite Hid, Hrow, Hout, Hspec.
Qed.
Lemma at_row_none b i : at_id b i = None -> at_row b i = None.
Proof. unfold at_row. by intros ->. Qed.
Lemma at_row_views b i id : lists_ok b -> at_id b i = Some id -> exists v, at_row b i = Some (id, v).
Proof. intros Hl Hid. destruct (at_row_some b i id Hl Hid) as (? & ? & ? & _ & _ & _ & H). eauto. Qed.

(** A row of which nothing changed is seen as before. *)
Lemma at_row_ext b b' i j : at_id b' j = at_id b i -> rows b' !! j = rows b !! i -> req_output_token_ids b' !! j = req_output_token_ids b !! i ->
  spec_token_ids b' !! j = spec_token_ids b !! i -> (fun t => row_ids t j) <$> block_tables b' = (fun t => row_ids t i) <$> block_tables b ->
  req_prompt_embeds b' !! j = req_prompt_embeds b !! i -> (forall id row, at_id b i = Some id -> rows b !! i = Some row -> params_of b' j id row = params_of b i id row) ->
  at_row b' j = at_row b i.
Proof.
  intros H1 H2 H3 H4 H5 H6 H7. unfold at_row. rewrite H1, H2, H3, H4. destruct (at_id b i) as [id|] eqn:Eid; [|done]. destruct (rows b !! i) as [row|] eqn:Er; [|done]. cbn.
  destruct (req_output_token_ids b !! i) as [out|]; [|done]. destruct (spec_token_ids b !! i) as [spec|]; [|done]. cbn. unfold view_of. by rewrite H5, H6, H7.
Qed.

Section Rows.
Context (W : nat).

Lemma index_inj b i j id : batch_wf W b -> at_id b i = Some id -> at_id b j = Some id -> i = j.
Proof. intros Hw Hi%(iw_index W b Hw) Hj%(iw_index W b Hw). congruence. Qed.
Lemma represents_wf b : batch_wf W b -> represents b (omap (fun i => snd <$> at_row b i) (req_id_to_index b)).
Proof.
  intros Hw id v. rewrite lookup_omap, bind_Some. split.
  - intros (i & Hi & Hv). apply (iw_index W b Hw) in Hi. destruct (at_row_views b i id (iw_lists W b Hw) Hi) as [v' Ev]. rewrite Ev in Hv. injection Hv as ->. eauto.
  - intros (i & Hi). exists i. rewrite (iw_index W b Hw). split; [by eapply at_row_id|by rewrite Hi].
Qed.
Lemma represents_unique b m1 m2 : represents b m1 -> represents b m2 -> m1 = m2.
Proof. intros H1 H2. apply map_eq. intros id. apply option_eq. intros v. by rewrite (H1 id v), (H2 id v). Qed.

(** Requests and holes together fill the rows. *)
Lemma rows_count b n holes : (forall id i, req_id_to_index b !! id = Some i <-> at_id b i = Some id) -> NoDup holes ->
  (forall i, i ∈ holes <-> (i < n)%nat /\ at_id b i = None) -> (forall i, is_Some (at_id b i) -> (i < n)%nat) -> (num_reqs b + length holes)%nat = n.
Proof.
  intros Hidx Hnd Hholes Hlive. set (L := (map_to_list (req_id_to_index b)).*2).
  assert (HL : forall i, i ∈ L <-> is_Some (at_id b i)).
  { intros i. unfold L. rewrite list_elem_of_fmap. split.
    - intros ([id j] & -> & Hin%elem_of_map_to_list). exists id. by apply Hidx.
    - intros [id Hid]. exists (id, i). split; [done|]. apply elem_of_map_to_list. by apply Hidx. }
  assert (HLnd : NoDup L).
  { unfold L. apply NoDup_fmap_2_strong; [|apply NoDup_map_to_list]. intros [id1 i1] [id2 i2] H1%elem_of_map_to_list H2%elem_of_map_to_list. cbn. intros ->.
    apply Hidx in H1. apply Hidx in H2. congruence. }
  assert (Hp : L ++ holes ≡ₚ seq 0 n).
  { apply NoDup_Permutation; [apply NoDup_app; split_and!; [done| |done]|apply NoDup_seq|].
    - intros i [id Hid]%HL [_ Hn]%Hholes. congruence.
    - intros i. rewrite elem_of_app, HL, Hholes, elem_of_seq. split; [intros [H|[H _]]; [apply Hlive in H|]; lia|]. intros [_ Hi]. destruct (at_id b i) eqn:E; [left; eauto|right; split; [lia|done]]. }
  apply Permutation_length in Hp. rewrite length_app, length_seq in Hp. rewrite <- Hp. unfold num_reqs, L. rewrite length_fmap, length_map_to_list. done.
Qed.
Lemma editing_count b : batch_wf W b -> editing b -> (num_reqs b + length (removed_rows (batch_update_builder b)))%nat = length (req_ids b).
Proof.
  intros Hw [[Hnd _] Hh _]. apply rows_count; [apply (iw_index W b Hw)|done|done|]. intros i [id Hid]. by eapply at_id_lt.
Qed.
Lemma dense_count b : batch_wf W b -> dense b -> num_reqs b = length (req_ids b).
Proof.
  intros Hw Hd. rewrite <- (rows_count b (length (req_ids b)) []); [cbn; lia|apply (iw_index W b Hw)|constructor| |].
  - intros i. split; [by intros ?%elem_of_nil|]. intros [Hi Hn]. destruct (Hd i Hi). congruence.
  - intros i [id Hid]. by eapply at_id_lt.
Qed.
Lemma ready_editing b : ready b -> editing b.
Proof.
  intros [Hd Hb]. split; rewrite Hb; cbn.
  - split; cbn; [constructor|done].
  - intros i. split; [by intros ?%elem_of_nil|]. intros [Hi Hn]. destruct (Hd i Hi). congruence.
  - done.
Qed.
End Rows.

(** ** The pending update *)

Definition holes (b : InputBatch) : list nat := removed_rows (batch_update_builder b).
Definition sorted_flag (b : InputBatch) : bool := is_removed_sorted (batch_update_builder b).
Definition pending_update (b : InputBatch) : BatchUpdate Added :=
  mkUpdate (num_reqs b) (holes b) (added (batch_update_builder b)) (moved (batch_update_builder b)).
(** The rows that moved so far are not holes. *)
Definition moves_ok (b : InputBatch) : Prop := forall x y d, (x, y, d) ∈ moved (batch_update_builder b) -> x <> y /\ x ∉ holes b /\ y ∉ holes b.

Section Sync.
(** A logits processor: what it keeps of an added request, its dict before the step, and
    what it was told about the requests of the batch. *)
Context {T : Type} (new_state : Added -> option T) (m0 : gmap nat T) (told : gmap string Added).

Definition pending (b : InputBatch) : gmap nat T := let u := pending_update b in effect new_state (bu_added u) (bu_removed u) (bu_moved u) m0.
(** The dict is by row what the requests of the batch call for. *)
Definition entry_at (b : InputBatch) (i : nat) : option T := id ← at_id b i; p ← told !! id; new_state p.
Definition in_sync (m : gmap nat T) (b : InputBatch) : Prop := forall i, m !! i = entry_at b i.
End Sync.
