(* ===== verification/InputBatchProps.v ===== *)
(** * The operations of the batch

    [remove_request], [add_request], [swap_states] and [condense] keep the invariant, and
    change the view of no request but the one they are about. *)
From S2P Require Import Prelude Request BlockTable BlockTableProps BatchUpdate BatchUpdateProps InputBatch InputBatchView.
From Stdlib Require Import QArith.QArith.
Open Scope Z_scope.

(** What no operation changes. *)
Definition batch_const (b : InputBatch) := (is_pooling_model b, max_num_reqs b, vocab_size b, length (block_tables b)).

Lemma set_item_ok {A} i (v : A) l : (i < length l)%nat -> set_item i v l = Ok (<[i := v]> l).
Proof. intros H. unfold set_item. by rewrite decide_True. Qed.
Lemma get_row_ok i b row : rows b !! i = Some row -> get_row i b = Ok row.
Proof. unfold get_row. by intros ->. Qed.
Lemma insert_lookup {A} (l : list A) i j x : (i < length l)%nat -> <[i := x]> l !! j = if decide (i = j) then Some x else l !! j.
Proof. intros H. destruct (decide (i = j)) as [->|Hne]; [by apply list_lookup_insert_eq|by apply list_lookup_insert_ne]. Qed.
Lemma flags_minus (L : list (gset string)) id id' : id' <> id -> (fun s : gset string => bool_decide (id' ∈ s)) <$> ((fun s : gset string => s ∖ {[id]}) <$> L) = (fun s : gset string => bool_decide (id' ∈ s)) <$> L.
Proof. intros Hne. rewrite <- list_fmap_compose. apply list_fmap_ext. intros _ s _. cbn. apply bool_decide_ext. set_solver. Qed.

Section Ops.
Context (W : nat).

(** ** Removal *)

(** The LoRA bookkeeping forgets the request. *)
Lemma remove_lora_spec b i id row : rows b !! i = Some row -> (forall k, id ∈ lora_ids b k <-> k <> 0 /\ lora_mapping row = k) ->
  (forall k, is_Some (lora_id_to_request_ids b !! k) <-> lora_ids b k <> ∅) -> (forall k, is_Some (lora_id_to_lora_request b !! k) <-> is_Some (lora_id_to_request_ids b !! k)) ->
  exists rws ids reqs, remove_lora i id b = Ok (set_rows rws (set_lora_id_to_lora_request reqs (set_lora_id_to_request_ids ids b))) /\
    rws = <[i := set_lora (num_accepted_tokens row) 0 row]> (rows b) /\ (forall k, (default ∅ (ids !! k) : gset string) = lora_ids b k ∖ {[id]}) /\
    (forall k, is_Some (ids !! k) <-> (default ∅ (ids !! k) : gset string) <> ∅) /\ (forall k, is_Some (reqs !! k) <-> is_Some (ids !! k)).
Proof.
  intros Hrow Hin Hlive Hreq. unfold remove_lora. rewrite (get_row_ok i b row Hrow). cbn [mbind result_bind]. pose proof (lookup_lt_Some _ _ _ Hrow) as Hlt.
  destruct (Z.eqb_spec (lora_mapping row) 0) as [E0|Hne].
  - exists (rows b), (lora_id_to_request_ids b), (lora_id_to_lora_request b).
    assert (Hsame : set_lora (num_accepted_tokens row) 0 row = row) by (destruct row; cbn in *; by subst).
    split; [by destruct b|]. split; [by rewrite Hsame, list_insert_id|]. split_and!; [|exact Hlive|exact Hreq]. intros k. fold (lora_ids b k).
    assert (id ∉ lora_ids b k) by (rewrite Hin; intros [? ?]; congruence). set_solver.
  - set (k := lora_mapping row) in *. assert (Hk : id ∈ lora_ids b k) by (by apply Hin). assert (Hother : forall k', k' <> k -> id ∉ lora_ids b k') by (intros k' Hk'; rewrite Hin; intros [_ ?]; unfold k in *; congruence).
    assert (Hs : is_Some (lora_id_to_request_ids b !! k)) by (apply Hlive; set_solver). destruct (proj2 (Hreq k) Hs) as [lr Hlr]. destruct Hs as [ids Hids].
    assert (Eids : lora_ids b k = ids) by (unfold lora_ids; by rewrite Hids). rewrite Hids. cbn [of_option mbind result_bind]. destruct (decide (ids ∖ {[id]} = ∅)) as [Hem|Hem].
    + rewrite Hlr. cbn [of_option mbind result_bind]. eexists _, (delete k (lora_id_to_request_ids b)), (delete k (lora_id_to_lora_request b)).
      split; [reflexivity|]. split; [done|]. split_and!.
      * intros k'. destruct (decide (k' = k)) as [->|Hk']; [by rewrite lookup_delete_eq, Eids|]. rewrite lookup_delete_ne by done. fold (lora_ids b k'). pose proof (Hother k' Hk'). set_solver.
      * intros k'. destruct (decide (k' = k)) as [->|Hk']; [rewrite lookup_delete_eq; cbn; split; [by intros []|done]|]. rewrite lookup_delete_ne by done. apply Hlive.
      * intros k'. destruct (decide (k' = k)) as [->|Hk']; [rewrite !lookup_delete_eq; done|]. by rewrite !lookup_delete_ne by done.
    + eexists _, (<[k := ids ∖ {[id]}]> (lora_id_to_request_ids b)), (lora_id_to_lora_request b). split; [by destruct b|]. split; [done|]. split_and!.
      * intros k'. destruct (decide (k' = k)) as [->|Hk']; [by rewrite lookup_insert_eq, Eids|]. rewrite lookup_insert_ne by done. fold (lora_ids b k'). pose proof (Hother k' Hk'). set_solver.
      * intros k'. destruct (decide (k' = k)) as [->|Hk']; [rewrite lookup_insert_eq; cbn; split; [done|eauto]|]. rewrite lookup_insert_ne by done. apply Hlive.
      * intros k'. rewrite Hreq. destruct (decide (k' = k)) as [->|Hk']; [rewrite lookup_insert_eq, Hids; split; eauto|]. by rewrite lookup_insert_ne by done.
Qed.

(** [b'] is [b] without the request [id] of row [i]. *)
Record erased (b b' : InputBatch) (i : nat) (id : string) : Prop := {
  er_const : batch_const b' = batch_const b;
  er_index : req_id_to_index b' = delete id (req_id_to_index b);
  er_ids : req_ids b' = <[i := None]> (req_ids b);
  er_outs : req_output_token_ids b' = <[i := None]> (req_output_token_ids b);
  er_specs : spec_token_ids b' = <[i := []]> (spec_token_ids b);
  er_rows : exists row row', rows b !! i = Some row /\ rows b' = <[i := row']> (rows b) /\ length (token_ids row') = length (token_ids row) /\ length (is_token_ids row') = length (is_token_ids row);
  er_tables : block_tables b' = block_tables b;
  er_embeds : req_prompt_embeds b' = req_prompt_embeds b;
  er_gen : generators b' = if is_pooling_model b then generators b else delete i (generators b);
  er_bad : bad_words b' = if is_pooling_model b then bad_words b else delete i (bad_words b);
  er_sets : id_sets b' = if is_pooling_model b then id_sets b else (fun s : gset string => s ∖ {[id]}) <$> id_sets b;
  er_logprobs : num_logprobs b' = if is_pooling_model b then num_logprobs b else delete id (num_logprobs b);
  er_mask : mask_allocated b' = mask_allocated b;
  er_pool : pooling_params b' = if is_pooling_model b then delete id (pooling_params b) else pooling_params b;
  er_states : pooling_states b' = if is_pooling_model b then delete id (pooling_states b) else pooling_states b;
  er_lora : forall k, lora_ids b' k = lora_ids b k ∖ {[id]};
  er_lora_live : forall k, is_Some (lora_id_to_request_ids b' !! k) <-> lora_ids b' k <> ∅;
  er_lora_req : forall k, is_Some (lora_id_to_lora_request b' !! k) <-> is_Some (lora_id_to_request_ids b' !! k);
}.

Lemma const_fields b b' : batch_const b' = batch_const b -> is_pooling_model b' = is_pooling_model b /\ max_num_reqs b' = max_num_reqs b /\ vocab_size b' = vocab_size b /\
  length (block_tables b') = length (block_tables b).
Proof. unfold batch_const. by intros [= -> -> -> ->]. Qed.

Lemma erased_at_id b b' i id j : batch_wf W b -> at_id b i = Some id -> erased b b' i id -> at_id b' j = if decide (i = j) then None else at_id b j.
Proof.
  intros Hw Hi He. unfold at_id. rewrite (er_ids _ _ _ _ He), insert_lookup by (by eapply at_id_lt). by destruct (decide (i = j)).
Qed.
Lemma erased_at_row b b' i id j : batch_wf W b -> at_id b i = Some id -> erased b b' i id -> at_row b' j = if decide (i = j) then None else at_row b j.
Proof.
  intros Hw Hi He. pose proof (erased_at_id b b' i id j Hw Hi He) as Hid. destruct (decide (i = j)) as [Ej|Hne]; [by apply at_row_none|].
  destruct (const_fields _ _ (er_const _ _ _ _ He)) as (Ep & _). destruct (er_rows _ _ _ _ He) as (row & row' & _ & Er & _). apply at_row_ext.
  - done.
  - by rewrite Er, list_lookup_insert_ne.
  - by rewrite (er_outs _ _ _ _ He), list_lookup_insert_ne.
  - by rewrite (er_specs _ _ _ _ He), list_lookup_insert_ne.
  - by rewrite (er_tables _ _ _ _ He).
  - by rewrite (er_embeds _ _ _ _ He).
  - intros id' r Hid' _. assert (Hne' : id <> id') by (intros ->; apply Hne; by eapply index_inj).
    unfold params_of, flags_of. rewrite Ep, (er_gen _ _ _ _ He), (er_bad _ _ _ _ He), (er_sets _ _ _ _ He), (er_logprobs _ _ _ _ He), (er_pool _ _ _ _ He), (er_states _ _ _ _ He).
    destruct (is_pooling_model b); [by rewrite !lookup_delete_ne by done|]. rewrite flags_minus by done. by rewrite !lookup_delete_ne by done.
Qed.
Lemma erased_wf b b' i id : batch_wf W b -> at_id b i = Some id -> erased b b' i id -> batch_wf W b'.
Proof.
  intros Hw Hi He. pose proof (fun j => erased_at_id b b' i id j Hw Hi He) as Hid. pose proof (fun j => erased_at_row b b' i id j Hw Hi He) as Hrow.
  destruct (const_fields _ _ (er_const _ _ _ _ He)) as (Ep & Emax & _). destruct (er_rows _ _ _ _ He) as (row & row' & Er & Er' & Lt & Li).
  assert (Hlive : forall id', id' <> id -> (exists j, at_id b j = Some id') -> exists j, at_id b' j = Some id').
  { intros id' Hne [j Hj]. exists j. rewrite Hid. destruct (decide (i = j)) as [->|]; [congruence|done]. }
  assert (Hdead : ~ exists j, at_id b' j = Some id). { intros [j Hj]. rewrite Hid in Hj. destruct (decide (i = j)) as [|Hne]; [done|]. apply Hne. by eapply index_inj. }
  destruct (iw_lists W b Hw) as [L1 L2 L3 L4 L5]. split.
  - intros id' j. rewrite (er_index _ _ _ _ He), Hid. destruct (decide (id = id')) as [<-|Hne].
    + rewrite lookup_delete_eq. split; [done|]. destruct (decide (i = j)) as [|Hj]; [done|]. intros H. exfalso. apply Hj. by eapply index_inj.
    + rewrite lookup_delete_ne by done. rewrite (iw_index W b Hw). destruct (decide (i = j)) as [<-|]; [split; congruence|done].
  - split; rewrite ?(er_outs _ _ _ _ He), ?(er_specs _ _ _ _ He), ?(er_ids _ _ _ _ He), ?Er', ?length_insert; [lia|lia|lia|lia|]. intros j s Hj. pose proof (at_id_lt b i id Hi).
    rewrite list_lookup_insert_ne by lia. by apply L5.
  - intros j r Hj. rewrite Er', insert_lookup in Hj by (by eapply lookup_lt_Some). destruct (decide (i = j)); [|by apply (iw_rows W b Hw j)]. injection Hj as <-.
    rewrite Lt, Li. by apply (iw_rows W b Hw i).
  - intros j id' v. rewrite Hrow. destruct (decide (i = j)); [done|]. apply (iw_fit W b Hw).
  - intros j id' v. rewrite Hrow. destruct (decide (i = j)); [done|]. apply (iw_embeds W b Hw).
  - intros t. rewrite (er_tables _ _ _ _ He). unfold table_ok. rewrite Emax. apply (iw_tables W b Hw).
  - intros j. rewrite (er_gen _ _ _ _ He), (er_bad _ _ _ _ He), Ep, Hid. pose proof (iw_dicts W b Hw j) as H. destruct (is_pooling_model b); [intros H'; by destruct (H H')|].
    destruct (decide (i = j)) as [->|]; [rewrite !lookup_delete_eq; by intros [[]|[]]|by rewrite !lookup_delete_ne by done].
  - intros id'. rewrite (er_sets _ _ _ _ He), (er_logprobs _ _ _ _ He), Ep. pose proof (iw_sets W b Hw id') as H. destruct (is_pooling_model b); [intros H'; by destruct (H H')|].
    intros H'. split; [done|]. assert (id' <> id) as Hne.
    { intros ->. rewrite lookup_delete_eq in H'. destruct H' as [(s & (s0 & -> & _)%list_elem_of_fmap & Hs)|[]]; [set_solver|done]. }
    apply Hlive; [done|]. apply H. rewrite lookup_delete_ne in H' by done. destruct H' as [(s & (s0 & -> & Hs0)%list_elem_of_fmap & Hs)|?]; [left; exists s0; set_solver|by right].
  - rewrite (er_mask _ _ _ _ He). intros Hne. apply (iw_mask W b Hw). intros Hem. apply Hne. pose proof (er_sets _ _ _ _ He) as Hsets. unfold id_sets in Hsets.
    destruct (is_pooling_model b); injection Hsets as _ _ _ _ _ _ _ ->; rewrite Hem; set_solver.
  - intros id'. rewrite (er_pool _ _ _ _ He), Ep. pose proof (iw_pool W b Hw id') as H. destruct (is_pooling_model b); [|rewrite H; split; by intros []].
    destruct (decide (id = id')) as [<-|Hne]; [rewrite lookup_delete_eq; split; [by intros []|intros [_ H']; by destruct Hdead]|]. rewrite lookup_delete_ne by done. rewrite H.
    split; intros [_ H']; (split; [done|]); [by apply Hlive|]. destruct H' as [j Hj]. exists j. rewrite Hid in Hj. by destruct (decide (i = j)).
  - intros k id'. rewrite (er_lora _ _ _ _ He), elem_of_difference, (iw_lora W b Hw), elem_of_singleton. split.
    + intros [(Hk & j & v & Hj & Hv) Hne]. split; [done|]. exists j, v. rewrite Hrow. destruct (decide (i = j)) as [->|]; [|done]. apply at_row_id in Hj. congruence.
    + intros (Hk & j & v & Hj & Hv). pose proof (at_row_id _ _ _ _ Hj) as Hjd. split; [|intros ->; apply Hdead; eauto]. split; [done|]. exists j, v. rewrite Hrow in Hj. by destruct (decide (i = j)).
  - apply (er_lora_live _ _ _ _ He).
  - apply (er_lora_req _ _ _ _ He).
Qed.

Lemma bind_ok {A B} (a : A) (f : A -> result B) : (x ← Ok a; f x) = f a.
Proof. reflexivity. Qed.
Lemma remove_request_none b id : req_id_to_index b !! id = None -> remove_request id b = Ok (None, b).
Proof. unfold remove_request. by intros ->. Qed.
Lemma lora_at b i id row : batch_wf W b -> at_id b i = Some id -> rows b !! i = Some row -> forall k, id ∈ lora_ids b k <-> k <> 0 /\ lora_mapping row = k.
Proof.
  intros Hw Hi Hr k. destruct (at_row_some b i id (iw_lists W b Hw) Hi) as (row' & out & spec & Hr' & _ & _ & Hv). rewrite Hr in Hr'. injection Hr' as <-. rewrite (iw_lora W b Hw). split.
  - intros (Hk & j & v & Hj & Ek). split; [done|]. assert (j = i) as -> by (eapply index_inj; [done|by eapply at_row_id|done]). rewrite Hv in Hj. injection Hj as <-. exact Ek.
  - intros [Hk Ek]. split; [done|]. by exists i, (view_of b i id row out spec).
Qed.
Lemma remove_request_erases b id i : batch_wf W b -> editing b -> sorted_flag b = false -> req_id_to_index b !! id = Some i ->
  exists b', remove_request id b = Ok (Some i, b') /\ erased b b' i id /\ batch_update_builder b' = mkBuilder (holes b ++ [i]) false (added (batch_update_builder b)) (moved (batch_update_builder b)) true.
Proof.
  intros Hw Hed Hs Hix. pose proof Hix as Hi. apply (iw_index W b Hw) in Hi. pose proof (at_id_lt b i id Hi) as Hlt. destruct (iw_lists W b Hw) as [L1 L2 L3 L4 L5].
  destruct (at_row_some b i id (iw_lists W b Hw) Hi) as (row & out & spec & Hr & Ho & Hsp & _).
  pose proof (lora_at b i id row Hw Hi Hr) as Hla. pose proof (iw_lora_live W b Hw) as Hll. pose proof (iw_lora_req W b Hw) as Hlr. clear Hw Hed Hi Ho Hsp. unfold holes, sorted_flag in *.
  destruct b. unfold lora_ids in *. bsimp_all. unfold remove_request, removed_append. bsimp. rewrite Hix, Hs. rewrite !bind_ok. bsimp. rewrite !set_item_ok by lia. rewrite !bind_ok. cbv beta zeta. bsimp.
  match goal with |- context [remove_lora i id ?b2] => destruct (remove_lora_spec b2 i id row Hr Hla Hll Hlr) as (rws & ids & reqs & E & Er & Hids & Hl & Hq) end. rewrite E, Er. clear E Er Hla Hll Hlr. rewrite !bind_ok. bsimp.
  destruct is_pooling_model.
  - eexists. split; [reflexivity|]. split; [|reflexivity]. split; bsimp; try done. eexists _, _. by split_and!.
  - unfold discard_sampling, get_row. bsimp. rewrite list_lookup_insert_eq by lia. cbn [of_option mbind result_bind]. destruct mask_allocated.
    + eexists. split; [reflexivity|]. bsimp. split; [|reflexivity]. split; bsimp; try done. eexists row, _. split_and!; [done|by rewrite list_insert_insert_eq|done|done].
    + eexists. split; [reflexivity|]. bsimp. split; [|reflexivity]. split; bsimp; try done. eexists _, _. by split_and!.
Qed.

(** The holes of an erased batch. *)
Lemma erased_editing b b' i id : batch_wf W b -> editing b -> at_id b i = Some id -> erased b b' i id -> moved (batch_update_builder b') = [] ->
  holes b' = holes b ++ [i] -> sorted_flag b' = false -> editing b'.
Proof.
  intros Hw [[Hnd _] Hh Hm] Hi He Hm' Hh' Hs'. fold (holes b) in *. assert (Hfresh : i ∉ holes b) by (rewrite Hh; intros [_ ?]; congruence). split; [split| |done]; fold (holes b') (sorted_flag b').
  - rewrite Hh'. apply NoDup_app. split_and!; [done|set_solver|apply NoDup_singleton].
  - rewrite Hs'. done.
  - intros j. fold (holes b'). rewrite Hh', elem_of_app, list_elem_of_singleton, Hh. rewrite (er_ids _ _ _ _ He), length_insert, (erased_at_id b b' i id j Hw Hi He). pose proof (at_id_lt b i id Hi).
    destruct (decide (i = j)) as [->|]; [split; [intros; by split|by right]|]. split; [intros [?| ->]; done|by left].
Qed.

(** A request leaves; every other keeps its row and its view. *)
Lemma remove_request_spec b id : batch_wf W b -> editing b -> sorted_flag b = false -> exists b', remove_request id b = Ok (req_id_to_index b !! id, b') /\
  batch_wf W b' /\ editing b' /\ sorted_flag b' = false /\ batch_const b' = batch_const b /\ (forall j, at_row b' j = if decide (req_id_to_index b !! id = Some j) then None else at_row b j) /\
  holes b' = holes b ++ option_list (req_id_to_index b !! id) /\ added (batch_update_builder b') = added (batch_update_builder b).
Proof.
  intros Hw Hed Hs. destruct (req_id_to_index b !! id) as [i|] eqn:Hix.
  2: { exists b. rewrite (remove_request_none b id Hix). cbn. rewrite app_nil_r. by split_and!. }
  destruct (remove_request_erases b id i Hw Hed Hs Hix) as (b' & E & He & Eb). pose proof Hix as Hi. apply (iw_index W b Hw) in Hi. exists b'. rewrite E. unfold holes, sorted_flag. rewrite Eb. cbn.
  split_and!; try done; [by eapply erased_wf| |by apply He|].
  - eapply erased_editing; try done; [rewrite Eb; apply (ed_moved b Hed)|unfold holes; by rewrite Eb|unfold sorted_flag; by rewrite Eb].
  - intros j. rewrite (erased_at_row b b' i id j Hw Hi He). destruct (decide (i = j)) as [->|]; [by rewrite decide_True|]. rewrite decide_False by congruence. done.
Qed.
End Ops.
