(* ===== verification/InputBatchAdd.v ===== *)
(** * Adding a request to the batch

    [add_request] fills the lowest hole, or a new row at the end, with all that the request
    carries; no other request is touched. *)
From S2P Require Import Prelude Request BlockTable BlockTableProps BatchUpdate BatchUpdateProps InputBatch InputBatchView InputBatchProps.
From Stdlib Require Import QArith.QArith.
Open Scope Z_scope.

(** ** The request *)

Definition has_allowed (p : WorkerSampling) : bool := match allowed_token_ids p with Some (_ :: _) => true | _ => false end.
Definition is_greedy (p : WorkerSampling) : bool := match sampling_type p with GREEDY => true | _ => false end.
Definition lora_of (r : CachedRequestState) : Z := match cr_lora_request r with Some l => lora_int_id l | None => 0 end.
Definition logprobs_of (vocab : Z) (p : WorkerSampling) : option Z := (fun n => if n =? -1 then vocab else n) <$> ws_logprobs p.
Definition bad_words_of (p : WorkerSampling) : option (list (list Z)) := match bad_words_token_ids p with Some (w :: ws) => Some (w :: ws) | _ => None end.
Definition limits_top_k (vocab : Z) (p : WorkerSampling) : bool := (0 <? top_k p) && (top_k p <? vocab).
Definition prompt_len (r : CachedRequestState) : Z := match cr_num_prompt_tokens r with Ok n => n | Err _ => 0 end.

(** What the batch should store about it. *)
Definition request_params (f32 : Q -> Q) (vocab : Z) (r : CachedRequestState) : ViewParams :=
  match cr_sampling_params r with
  | Some p =>
      Sampled ((if is_greedy p then 0%Q else f32 (temperature p)), f32 (top_p p), (if limits_top_k vocab p then top_k p else vocab),
               f32 (frequency_penalty p), f32 (presence_penalty p), f32 (repetition_penalty p), 1)
        [is_greedy p; negb (is_greedy p); negb (Qle_bool 1 (top_p p)); limits_top_k vocab p; negb (Qeq_bool (frequency_penalty p) 0);
         negb (Qeq_bool (presence_penalty p) 0); negb (Qeq_bool (repetition_penalty p) 1); has_allowed p]
        (logprobs_of vocab p) (generator r) (bad_words_of p)
  | None => Pooled (cr_pooling_params r) (cr_pooling_states r)
  end.
Definition request_tokens (r : CachedRequestState) : list (option Z) :=
  match cr_prompt_token_ids r with Some l => Some <$> l | None => replicate (Z.to_nat (prompt_len r)) None end ++ (Some <$> cr_output_token_ids r).
Definition request_view (f32 : Q -> Q) (vocab : Z) (ratios : list (Z * Z)) (r : CachedRequestState) : View :=
  mkView (request_tokens r) (prompt_len r + zlen (cr_output_token_ids r)) (prompt_len r) (cr_num_computed_tokens r) (Some (output_list r)) [] []
    (zip_with kernel_blocks ratios (cr_block_ids r)) (lora_of r) (if decide (None ∈ request_tokens r) then cr_prompt_embeds r else None)
    (request_params f32 vocab r).

(** A request that fits into a batch of this shape. *)
Record request_ok (max_model_len : nat) (b : InputBatch) (r : CachedRequestState) : Prop := {
  ro_prompt : cr_num_prompt_tokens r = Ok (prompt_len r);
  ro_fits : 0 <= prompt_len r /\ prompt_len r + zlen (cr_output_token_ids r) <= Z.of_nat max_model_len;
  ro_blocks : Forall2 fits_row (block_tables b) (cr_block_ids r);
  ro_params : if is_pooling_model b then cr_sampling_params r = None /\ is_Some (cr_pooling_params r) /\ is_Some (cr_pooling_states r) else is_Some (cr_sampling_params r);
  ro_allowed : forall p t, cr_sampling_params r = Some p -> t ∈ default [] (allowed_token_ids p) -> - vocab_size b <= t < vocab_size b;
  ro_lora : forall l, cr_lora_request r = Some l -> lora_int_id l <> 0;
}.

(** ** Its tokens *)

Lemma fill_slice_lookup {A} lo hi (v : A) l k : fill_slice lo hi v l !! k = (fun x => if decide (lo <= k < hi)%nat then v else x) <$> l !! k.
Proof. unfold fill_slice. by rewrite list_lookup_imap. Qed.
Lemma fill_slice_length {A} lo hi (v : A) l : length (fill_slice lo hi v l) = length l.
Proof. apply length_imap. Qed.
(** A list written at a place. *)
Lemma set_slice_spec {A} lo (xs l : list A) : (lo + length xs <= length l)%nat -> exists l', set_slice lo xs l = Ok l' /\ length l' = length l /\
  forall k, l' !! k = if decide (lo <= k < lo + length xs)%nat then xs !! (k - lo)%nat else l !! k.
Proof.
  intros H. rewrite set_slice_ok by done. eexists. split; [done|]. split; [rewrite !length_app, length_take, length_drop; lia|]. intros k.
  destruct (Nat.lt_ge_cases k lo); [rewrite decide_False by lia; rewrite lookup_app_l by (rewrite length_take; lia); by rewrite lookup_take_lt by lia|].
  rewrite lookup_app_r by (rewrite length_take; lia). rewrite length_take, Nat.min_l by lia. case_decide; [by rewrite lookup_app_l by lia|].
  rewrite lookup_app_r by lia. rewrite lookup_drop. f_equal. lia.
Qed.

Lemma prompt_len_ids r l : cr_num_prompt_tokens r = Ok (prompt_len r) -> cr_prompt_token_ids r = Some l -> prompt_len r = zlen l.
Proof.
  unfold cr_num_prompt_tokens, length_from_prompt_token_ids_or_embeds. intros H E. rewrite E in H. destruct (cr_prompt_embeds r); [destruct (negb _)|]; congruence.
Qed.
Lemma fill_tokens_spec r row (max_model_len : nat) : cr_num_prompt_tokens r = Ok (prompt_len r) -> 0 <= prompt_len r ->
  prompt_len r + zlen (cr_output_token_ids r) <= Z.of_nat max_model_len -> length (token_ids row) = max_model_len -> length (is_token_ids row) = max_model_len ->
  exists toks ists, fill_tokens r row = Ok (mkRow toks ists (prompt_len r + zlen (cr_output_token_ids r)) (prompt_len r) (cr_num_computed_tokens r) (row_temperature row) (row_top_p row)
      (row_top_k row) (row_frequency_penalty row) (row_presence_penalty row) (row_repetition_penalty row) (num_accepted_tokens row) (lora_mapping row) (needs_token_ids row) (allowed_mask row)) /\
    length toks = max_model_len /\ length ists = max_model_len /\
    let n := Z.to_nat (prompt_len r + zlen (cr_output_token_ids r)) in zip_with known (take n toks) (take n ists) = request_tokens r.
Proof.
  intros Hn Hpos Hfit Ht Hi. pose proof (prompt_len_ids r) as Hids. unfold fill_tokens. rewrite Hn. cbn [mbind result_bind]. set (n := prompt_len r) in *. set (outs := cr_output_token_ids r) in *.
  set (start := Z.to_nat n). assert (Hs : (start + length outs <= max_model_len)%nat) by (unfold start, zlen in *; lia).
  assert (H1 : exists toks1, match cr_prompt_token_ids r with Some l => set_slice 0 l (token_ids row) | None => Ok (token_ids row) end = Ok toks1 /\ length toks1 = max_model_len /\
      forall l, cr_prompt_token_ids r = Some l -> forall k, (k < start)%nat -> toks1 !! k = l !! k).
  { destruct (cr_prompt_token_ids r) as [l|] eqn:El; [|exists (token_ids row); by split_and!]. pose proof (Hids l Hn eq_refl) as E. unfold zlen in E.
    destruct (set_slice_spec 0 l (token_ids row)) as (t1 & E1 & L1 & K1); [lia|]. exists t1. split_and!; [done|congruence|]. intros l' [= <-] k Hk.
    rewrite K1, decide_True by lia. by rewrite Nat.sub_0_r. }
  destruct H1 as (toks1 & E1 & L1 & K1). rewrite E1. cbn [mbind result_bind]. destruct (set_slice_spec start outs toks1) as (toks2 & E2 & L2 & K2); [lia|]. rewrite E2. cbn [mbind result_bind].
  eexists _, _. split; [reflexivity|]. split; [congruence|]. split; [by rewrite !fill_slice_length|]. cbn zeta. replace (Z.to_nat (n + zlen outs)) with (start + length outs)%nat by (unfold start, zlen; lia).
  apply list_eq. intros k. rewrite lookup_zip_with. destruct (Nat.lt_ge_cases k (start + length outs)) as [Hk|Hk].
  - rewrite !lookup_take_lt by done. rewrite !fill_slice_lookup, K2. destruct (lookup_lt_is_Some_2 (is_token_ids row) k) as [x Hx]; [lia|]. rewrite Hx. cbn [fmap option_fmap option_map].
    unfold request_tokens. fold n outs start. destruct (Nat.lt_ge_cases k start).
    + repeat (case_decide; try lia). destruct (cr_prompt_token_ids r) as [l|] eqn:El.
      * rewrite (K1 l eq_refl k) by done. pose proof (Hids l Hn eq_refl) as E. unfold zlen in E. rewrite lookup_app_l by (rewrite length_fmap; lia). rewrite list_lookup_fmap.
        destruct (lookup_lt_is_Some_2 l k) as [y Hy]; [lia|]. by rewrite Hy.
      * destruct (lookup_lt_is_Some_2 toks1 k) as [y Hy]; [lia|]. rewrite Hy. cbn. rewrite lookup_app_l by (rewrite length_replicate; lia). by rewrite lookup_replicate_2 by lia.
    + repeat (case_decide; try lia). destruct (lookup_lt_is_Some_2 outs (k - start)) as [y Hy]; [lia|]. rewrite Hy. cbn.
      assert (Hlen : length (match cr_prompt_token_ids r with Some l => Some <$> l | None => replicate start None end) = start).
      { destruct (cr_prompt_token_ids r) as [l|] eqn:El; [|by rewrite length_replicate]. pose proof (Hids l Hn eq_refl) as E. unfold zlen in E. rewrite length_fmap. lia. }
      rewrite lookup_app_r by lia. rewrite Hlen, list_lookup_fmap. fold outs. by rewrite Hy.
  - rewrite (lookup_ge_None_2 (take _ toks2)) by (rewrite length_take; lia). cbn. symmetry. apply lookup_ge_None_2. unfold request_tokens. fold n outs start. rewrite length_app, length_fmap.
    destruct (cr_prompt_token_ids r) as [l|] eqn:El; [|rewrite length_replicate; lia]. pose proof (Hids l Hn eq_refl) as E. unfold zlen in E. rewrite length_fmap. lia.
Qed.

(** ** Its row *)

Definition put_at {A} (i : nat) (x : A) (l : list A) : list A := if decide (i = length l) then l ++ [x] else <[i := x]> l.
Lemma put_at_lookup {A} i (x : A) l j : (i <= length l)%nat -> put_at i x l !! j = if decide (i = j) then Some x else l !! j.
Proof.
  intros H. unfold put_at. destruct (decide (i = length l)) as [->|Hne]; [|apply insert_lookup; lia]. destruct (decide (length l = j)) as [<-|Hj].
  - by rewrite lookup_app_r, Nat.sub_diag by lia.
  - destruct (Nat.lt_ge_cases j (length l)); [by rewrite lookup_app_l by done|]. rewrite (lookup_ge_None_2 l) by done. apply lookup_ge_None_2. rewrite length_app. cbn. lia.
Qed.
Lemma put_at_length {A} i (x : A) l : (i <= length l)%nat -> length (put_at i x l) = max (length l) (S i).
Proof. intros H. unfold put_at. case_decide; [rewrite length_app; cbn; lia|rewrite length_insert; lia]. Qed.

(** The list of drafts starts with an entry for every row, and a new one goes to its end. *)
Definition put_spec (i n : nat) (l : list (list Z)) : list (list Z) := if decide (i = n) then l ++ [[]] else <[i := []]> l.
Lemma put_spec_lookup i n l j : (i <= n <= length l)%nat -> (forall j s, (n <= j)%nat -> l !! j = Some s -> s = []) -> put_spec i n l !! i = Some [] /\
  (j <> i -> (j < n)%nat -> put_spec i n l !! j = l !! j) /\ ((n <= j)%nat -> forall s, put_spec i n l !! j = Some s -> s = []) /\ (max n (S i) <= length (put_spec i n l))%nat.
Proof.
  intros Hn Hs. unfold put_spec. destruct (decide (i = n)) as [->|Hne].
  - split_and!; [|intros; by rewrite lookup_app_l by lia| |rewrite length_app; cbn; lia].
    + destruct (Nat.lt_ge_cases n (length l)) as [Hlt|Hge]; [|by rewrite lookup_app_r, (proj2 (Nat.sub_0_le _ _)) by lia]. rewrite lookup_app_l by done.
      destruct (lookup_lt_is_Some_2 l n Hlt) as [s E]. by rewrite E, (Hs n s).
    + intros Hj s. destruct (Nat.lt_ge_cases j (length l)); [rewrite lookup_app_l by done; by apply Hs|]. rewrite lookup_app_r by done. by intros [_ ?]%list_lookup_singleton_Some.
  - split_and!; [apply list_lookup_insert_eq; lia|intros; by rewrite list_lookup_insert_ne| |rewrite length_insert; lia]. intros Hj s. rewrite list_lookup_insert_ne by lia. by apply Hs.
Qed.

Section Add.
Context (W : nat) (f32 : Q -> Q).

Definition added_entry (r : CachedRequestState) (i : nat) : list (nat * Added) :=
  match cr_sampling_params r with Some p => [(i, (p, cr_prompt_token_ids r, output_list r))] | None => [] end.

(** The row of a new request is the lowest hole, or the row after the last. *)
Lemma register_spec r b : batch_wf W b -> editing b -> (num_reqs b < max_num_reqs b)%nat -> exists i bld,
  register_add_request r b = Ok (i, set_batch_update_builder bld b) /\ (i <= length (req_ids b))%nat /\ (i < max_num_reqs b)%nat /\ at_id b i = None /\
  (forall j, j ∈ removed_rows bld <-> j ∈ holes b /\ j <> i) /\ (holes b = [] -> i = num_reqs b) /\ (forall j, j ∈ holes b -> (i <= j)%nat) /\ (i = length (req_ids b) \/ i ∈ holes b) /\
  builder_ok bld /\ moved bld = [] /\ added bld = added (batch_update_builder b) ++ added_entry r i.
Proof.
  intros Hw Hed Hroom. pose proof (editing_count W b Hw Hed) as Hcount. destruct Hed as [Hok Hh Hm]. fold (holes b) in *. destruct (iw_lists W b Hw) as [_ _ Hmax _ _]. unfold register_add_request.
  destruct (decide (holes b = [])) as [Hem|Hne].
  - rewrite pop_removed_none by done. rewrite Hem in Hcount. cbn in Hcount. cbn [default py_assert]. rewrite bool_decide_true by done. cbn [py_assert]. rewrite bind_ok.
    eexists _, _. split; [reflexivity|]. assert (Hi : at_id b (num_reqs b) = None) by (unfold at_id; by rewrite lookup_ge_None_2 by lia).
    split_and!; [lia|done|done| |done|intros j; rewrite Hem; by intros ?%elem_of_nil|left; lia| | |].
    + intros j. rewrite Hem. unfold holes in Hem. destruct (cr_sampling_params r); cbn; rewrite Hem; set_solver.
    + unfold holes in Hem. unfold builder_ok in *. by destruct (cr_sampling_params r).
    + by destruct (cr_sampling_params r).
    + unfold added_entry. destruct (cr_sampling_params r); cbn; by rewrite ?app_nil_r.
  - destruct (pop_removed_spec (batch_update_builder b) Hok Hne) as (e & bld & E & Hp & Hle & Hok' & Ea & Em & Es). rewrite E. cbn [default]. fold (holes b) in Hp, Hle.
    assert (He : e ∈ holes b) by (rewrite Hp; by left). destruct (proj1 (Hh e) He) as [Hlt Hnone]. rewrite bool_decide_true by (cbn; lia). cbn [py_assert]. rewrite bind_ok.
    eexists _, _. split; [reflexivity|]. destruct Hok as [Hnd _]. fold (holes b) in Hnd. rewrite Hp in Hnd. apply NoDup_cons in Hnd as [Hnot _]. cbn [id].
    split_and!; [lia|lia|done| |done|done|by right| | |].
    + intros j. rewrite Hp. destruct (cr_sampling_params r); cbn; set_solver.
    + unfold builder_ok in *. by destruct (cr_sampling_params r).
    + destruct (cr_sampling_params r); cbn; congruence.
    + unfold added_entry. destruct (cr_sampling_params r); cbn; rewrite ?app_nil_r; by rewrite Ea.
Qed.
Lemma place_request_eq i r b : lists_ok b -> (i <= length (req_ids b))%nat -> place_request i r b =
  Ok (set_req_ids (put_at i (Some (cr_req_id r)) (req_ids b)) (set_req_output_token_ids (put_at i (Some (output_list r)) (req_output_token_ids b))
       (set_spec_token_ids (put_spec i (length (req_ids b)) (spec_token_ids b)) b))).
Proof.
  intros [L1 L2 _ _ _] Hi. unfold place_request, put_at, put_spec. rewrite L1. destruct (Nat.eqb_spec i (length (req_ids b))) as [E|E]; [by rewrite !decide_True|].
  rewrite !decide_False by done. rewrite !set_item_ok by lia. by rewrite !bind_ok.
Qed.

(** Its blocks in every table. *)
Lemma mg_add_row_spec b ts ids i : (forall t, t ∈ ts -> table_ok b t) -> (i < max_num_reqs b)%nat -> Forall2 fits_row ts ids -> exists ts', mg_add_row ids i ts = Ok ts' /\
  (forall t, t ∈ ts' -> table_ok b t) /\ length ts' = length ts /\ (fun t => row_ids t i) <$> ts' = zip_with kernel_blocks (bt_shape <$> ts) ids /\
  bt_shape <$> ts' = bt_shape <$> ts /\
  forall j, j <> i -> (fun t => row_ids t j) <$> ts' = (fun t => row_ids t j) <$> ts.
Proof.
  intros Hts Hi HF. induction HF as [|t l ts ids Hfit HF IH]; [exists []; by split_and!|]. destruct (Hts t ltac:(by left)) as [Hwf Hlen].
  destruct (add_row_spec t i l Hwf) as (t' & E & (Hw' & Hc & _) & Hh & Ho & _); [lia|done|]. destruct IH as (ts' & E' & H1 & H2 & H3 & H4 & H5); [intros x Hx; apply Hts; by right|].
  exists (t' :: ts'). unfold mg_add_row in *. cbn [each_group head of_option]. rewrite bind_ok, E, bind_ok. cbn [tail]. rewrite E', bind_ok. unfold bt_const in Hc.
  injection Hc as Eb Er _ Em El _. split_and!; [done| |cbn; congruence| |cbn; unfold bt_shape; rewrite Er, Em; f_equal; exact H4|].
  - intros x [->|Hx]%elem_of_cons; [split; [done|congruence]|by apply H1].
  - cbn. destruct Hh as [_ ->]. unfold kernel_blocks at 2, bt_shape at 2. cbn. by rewrite H3, Er.
  - intros j Hj. cbn. by rewrite Ho, H5 by done.
Qed.

(** ** Its parameters *)

Lemma mask_of_total vocab l : (forall t, t ∈ l -> - vocab <= t < vocab) -> exists m, mask_of vocab l = Ok m.
Proof.
  unfold mask_of. generalize (replicate (Z.to_nat vocab) true). induction l as [|t l IH]; intros m H; [by exists m|]. cbn [foldM]. pose proof (H t ltac:(by left)) as Ht.
  assert (E : (0 <=? (if t <? 0 then t + vocab else t)) && ((if t <? 0 then t + vocab else t) <? vocab) = true) by (destruct (Z.ltb_spec t 0); apply andb_true_iff; lia).
  rewrite E, bind_ok. apply IH. intros x Hx. apply H. by right.
Qed.
Definition or_insert {K A} `{EqDecision K, Countable K} (k : K) (o : option A) (m : gmap K A) : gmap K A := match o with Some x => <[k := x]> m | None => m end.
Definition sampling_batch (i : nat) (r : CachedRequestState) (p : WorkerSampling) (mask : list bool) (row : Row) (b : InputBatch) : InputBatch :=
  let id := cr_req_id r in
  let b1 := set_greedy_reqs (add_if (is_greedy p) id (greedy_reqs b)) (set_random_reqs (add_if (negb (is_greedy p)) id (random_reqs b)) b) in
  let b2 := set_top_p_reqs (add_if (negb (Qle_bool 1 (top_p p))) id (top_p_reqs b)) (set_top_k_reqs (add_if (limits_top_k (vocab_size b) p) id (top_k_reqs b)) b1) in
  let b3 := set_frequency_penalties_reqs (add_if (negb (Qeq_bool (frequency_penalty p) 0)) id (frequency_penalties_reqs b)) b2 in
  let b4 := set_presence_penalties_reqs (add_if (negb (Qeq_bool (presence_penalty p) 0)) id (presence_penalties_reqs b)) b3 in
  let b5 := set_repetition_penalties_reqs (add_if (negb (Qeq_bool (repetition_penalty p) 1)) id (repetition_penalties_reqs b)) b4 in
  let b6 := set_has_allowed_token_ids (add_if (has_allowed p) id (has_allowed_token_ids b)) (set_mask_allocated (mask_allocated b || has_allowed p) b5) in
  let b7 := set_generators (or_insert i (generator r) (generators b)) (set_num_logprobs (or_insert id (logprobs_of (vocab_size b) p) (num_logprobs b)) b6) in
  set_row i (sampling_row f32 p (vocab_size b) mask row) (set_bad_words (or_insert i (bad_words_of p) (bad_words b)) b7).
Lemma add_sampling_eq i r p row b : rows b !! i = Some row -> (forall t, t ∈ default [] (allowed_token_ids p) -> - vocab_size b <= t < vocab_size b) ->
  exists mask, add_sampling f32 i r p b = Ok (sampling_batch i r p mask row b).
Proof.
  intros Hrow Hall. unfold add_sampling, sampling_batch. rewrite (get_row_ok i b row Hrow). rewrite bind_ok. fold (is_greedy p) (limits_top_k (vocab_size b) p). unfold has_allowed, bad_words_of, logprobs_of.
  destruct b. bsimp_all. destruct (allowed_token_ids p) as [[|t l]|].
  2: destruct (mask_of_total vocab_size (t :: l) Hall) as [mask Em]; rewrite Em; exists mask.
  1, 3: exists (allowed_mask row).
  all: destruct (generator r), (ws_logprobs p), (bad_words_token_ids p) as [[|w ws]|], mask_allocated; reflexivity.
Qed.
Definition lora_batch (i : nat) (r : CachedRequestState) (row : Row) (b : InputBatch) : InputBatch :=
  let k := lora_of r in
  set_row i (set_lora 1 k row)
    (match cr_lora_request r with
     | Some l => set_lora_id_to_lora_request (<[k := l]> (lora_id_to_lora_request b)) (set_lora_id_to_request_ids (<[k := {[cr_req_id r]} ∪ lora_ids b k]> (lora_id_to_request_ids b)) b)
     | None => b
     end).
Lemma add_lora_eq i r row b : rows b !! i = Some row -> add_lora i r b = Ok (lora_batch i r row b).
Proof. intros Hrow. unfold add_lora, lora_batch, lora_of. rewrite (get_row_ok i b row Hrow), bind_ok. by destruct (cr_lora_request r). Qed.
Definition pooling_batch (i : nat) (r : CachedRequestState) (p : WorkerPooling) (st : Z) (row : Row) (b : InputBatch) : InputBatch :=
  let row' := mkRow (token_ids row) (is_token_ids row) (num_tokens_no_spec row) (num_prompt_tokens row) (num_computed_tokens row) (row_temperature row)
    (row_top_p row) (row_top_k row) (row_frequency_penalty row) (row_presence_penalty row) (row_repetition_penalty row) (num_accepted_tokens row)
    (lora_mapping row) (requires_token_ids p) (allowed_mask row) in
  set_row i row' (set_pooling_states (<[cr_req_id r := st]> (pooling_states b)) (set_pooling_params (<[cr_req_id r := p]> (pooling_params b)) b)).
Lemma add_pooling_eq i r p st row b : rows b !! i = Some row -> cr_pooling_states r = Some st -> add_pooling i r p b = Ok (pooling_batch i r p st row b).
Proof. intros Hrow Hst. unfold add_pooling. rewrite Hst, (get_row_ok i b row Hrow). cbn [of_option]. by rewrite !bind_ok. Qed.

(** [b'] is [b] with the request [id] at row [i], which was free. *)
Record joined (b b' : InputBatch) (i : nat) (id : string) (v : View) : Prop := {
  jo_const : batch_const b' = batch_const b;
  jo_index : req_id_to_index b' = <[id := i]> (req_id_to_index b);
  jo_id : forall j, at_id b' j = if decide (i = j) then Some id else at_id b j;
  jo_lists : lists_ok b';
  jo_length : length (req_ids b') = max (length (req_ids b)) (S i);
  jo_outs : forall j, j <> i -> req_output_token_ids b' !! j = req_output_token_ids b !! j;
  jo_specs : forall j, j <> i -> (j < length (req_ids b))%nat -> spec_token_ids b' !! j = spec_token_ids b !! j;
  jo_rows : forall j, j <> i -> rows b' !! j = rows b !! j;
  jo_row : forall row, rows b' !! i = Some row -> length (token_ids row) = W /\ length (is_token_ids row) = W;
  jo_tables : forall t, t ∈ block_tables b' -> table_ok b t;
  jo_blocks : forall j, j <> i -> (fun t => row_ids t j) <$> block_tables b' = (fun t => row_ids t j) <$> block_tables b;
  jo_embeds : forall j, j <> i -> req_prompt_embeds b' !! j = req_prompt_embeds b !! j;
  jo_dicts : forall j, j <> i -> generators b' !! j = generators b !! j /\ bad_words b' !! j = bad_words b !! j;
  jo_sampled : is_pooling_model b = true -> generators b' !! i = generators b !! i /\ bad_words b' !! i = bad_words b !! i /\ flags_of b' id = flags_of b id /\ num_logprobs b' !! id = num_logprobs b !! id;
  jo_flags : forall id', id' <> id -> flags_of b' id' = flags_of b id' /\ num_logprobs b' !! id' = num_logprobs b !! id' /\
    pooling_params b' !! id' = pooling_params b !! id' /\ pooling_states b' !! id' = pooling_states b !! id';
  jo_mask : has_allowed_token_ids b' <> ∅ -> mask_allocated b' = true;
  jo_pool : is_Some (pooling_params b' !! id) <-> is_pooling_model b = true;
  jo_view : at_row b' i = Some (id, v);
  jo_fit : 0 <= v_num_tokens v <= Z.of_nat W;
  jo_embedded : None ∈ v_tokens v -> is_Some (v_embeds v);
  jo_lora : forall k, lora_ids b' k = if decide (k <> 0 /\ v_lora v = k) then {[id]} ∪ lora_ids b k else lora_ids b k;
  jo_lora_live : forall k, is_Some (lora_id_to_request_ids b' !! k) <-> lora_ids b' k <> ∅;
  jo_lora_req : forall k, is_Some (lora_id_to_lora_request b' !! k) <-> is_Some (lora_id_to_request_ids b' !! k);
}.

Lemma flagged b id : (exists s, s ∈ id_sets b /\ id ∈ s) <-> true ∈ flags_of b id.
Proof.
  unfold flags_of. rewrite list_elem_of_fmap. split.
  - intros (s & Hs & Hid). exists s. split; [by rewrite bool_decide_true|done].
  - intros (s & Hb & Hs). exists s. split; [done|]. symmetry in Hb. by apply bool_decide_eq_true in Hb.
Qed.
Lemma joined_at_row b b' i id v j : batch_wf W b -> joined b b' i id v -> (forall j', at_id b j' <> Some id) -> at_row b' j = if decide (i = j) then Some (id, v) else at_row b j.
Proof.
  intros Hw Hj Hnew. destruct (decide (i = j)) as [<-|Hne]; [apply (jo_view _ _ _ _ _ Hj)|]. destruct (const_fields _ _ (jo_const _ _ _ _ _ Hj)) as (Ep & _). destruct (at_id b j) as [idj|] eqn:Hidj.
  2: { rewrite !at_row_none; [done|done|]. rewrite (jo_id _ _ _ _ _ Hj). by destruct (decide (i = j)). }
  apply at_row_ext.
  - rewrite (jo_id _ _ _ _ _ Hj). by rewrite decide_False.
  - by apply (jo_rows _ _ _ _ _ Hj).
  - by apply (jo_outs _ _ _ _ _ Hj).
  - apply (jo_specs _ _ _ _ _ Hj); [done|by eapply at_id_lt].
  - by apply (jo_blocks _ _ _ _ _ Hj).
  - by apply (jo_embeds _ _ _ _ _ Hj).
  - intros id' row Hid' _. assert (id' <> id) by (intros ->; by apply (Hnew j)). destruct (jo_flags _ _ _ _ _ Hj id') as (F1 & F2 & F3 & F4); [done|].
    destruct (jo_dicts _ _ _ _ _ Hj j) as [D1 D2]; [done|]. unfold params_of. by rewrite Ep, F1, F2, F3, F4, D1, D2.
Qed.
Lemma joined_wf b b' i id v : batch_wf W b -> joined b b' i id v -> (forall j', at_id b j' <> Some id) -> at_id b i = None -> batch_wf W b'.
Proof.
  intros Hw Hj Hnew Hfree. pose proof (fun j => joined_at_row b b' i id v j Hw Hj Hnew) as Hrow. pose proof (jo_id _ _ _ _ _ Hj) as Hid.
  destruct (const_fields _ _ (jo_const _ _ _ _ _ Hj)) as (Ep & Emax & _).
  assert (Hlive : forall id', (exists j, at_id b' j = Some id') <-> id' = id \/ exists j, at_id b j = Some id').
  { intros id'. split; [intros [j Hj']; rewrite Hid in Hj'; destruct (decide (i = j)); [left; congruence|right; eauto]|].
    intros [->|[j Hj']]; [exists i; rewrite Hid; by rewrite decide_True|exists j; rewrite Hid]. destruct (decide (i = j)); congruence. }
  split.
  - intros id' j. rewrite (jo_index _ _ _ _ _ Hj), Hid. destruct (decide (id = id')) as [<-|Hne].
    + rewrite lookup_insert_eq. destruct (decide (i = j)) as [->|]; [done|]. split; [congruence|]. intros H. by destruct (Hnew j).
    + rewrite lookup_insert_ne by done. rewrite (iw_index W b Hw). destruct (decide (i = j)) as [<-|]; [split; congruence|done].
  - apply (jo_lists _ _ _ _ _ Hj).
  - intros j row Hr. destruct (decide (j = i)) as [->|]; [by apply (jo_row _ _ _ _ _ Hj)|]. rewrite (jo_rows _ _ _ _ _ Hj) in Hr by done. by apply (iw_rows W b Hw j).
  - intros j id' v'. rewrite Hrow. destruct (decide (i = j)); [|apply (iw_fit W b Hw)]. intros [= <- <-]. apply (jo_fit _ _ _ _ _ Hj).
  - intros j id' v'. rewrite Hrow. destruct (decide (i = j)); [|apply (iw_embeds W b Hw)]. intros [= <- <-]. apply (jo_embedded _ _ _ _ _ Hj).
  - intros t Ht. pose proof (jo_tables _ _ _ _ _ Hj t Ht) as H. unfold table_ok in *. by rewrite Emax.
  - intros j. rewrite Ep, Hid. destruct (decide (i = j)) as [->|Hne].
    + destruct (is_pooling_model b) eqn:Epool; [|by split]. destruct (jo_sampled _ _ _ _ _ Hj Epool) as (-> & -> & _). intros H. apply (iw_dicts W b Hw) in H as [H _]. congruence.
    + destruct (jo_dicts _ _ _ _ _ Hj j) as [-> ->]; [done|]. apply (iw_dicts W b Hw).
  - intros id'. rewrite flagged, Ep, Hlive. pose proof (iw_sets W b Hw id') as H. rewrite flagged in H. destruct (decide (id' = id)) as [->|Hne].
    + destruct (is_pooling_model b) eqn:Epool; [|intros _; split; [done|by left]]. destruct (jo_sampled _ _ _ _ _ Hj Epool) as (_ & _ & -> & ->). intros H'. by destruct (H H').
    + destruct (jo_flags _ _ _ _ _ Hj id' Hne) as (-> & -> & _). intros H'. destruct (H H') as [? ?]. split; [done|by right].
  - apply (jo_mask _ _ _ _ _ Hj).
  - intros id'. rewrite Ep, Hlive. destruct (decide (id' = id)) as [->|Hne]; [rewrite (jo_pool _ _ _ _ _ Hj); split; [intros ?; split; [done|by left]|by intros []]|].
    destruct (jo_flags _ _ _ _ _ Hj id' Hne) as (_ & _ & -> & _). rewrite (iw_pool W b Hw). split; intros [? ?]; (split; [done|]); [by right|]. by destruct H0.
  - intros k id'. rewrite (jo_lora _ _ _ _ _ Hj). split.
    + intros H. assert (H' : (k <> 0 /\ v_lora v = k /\ id' = id) \/ id' ∈ lora_ids b k) by (destruct (decide _) as [[? ?]|]; set_solver). destruct H' as [(Hk & Hv & ->)|Hin].
      * split; [done|]. exists i, v. split; [|done]. rewrite Hrow. by rewrite decide_True.
      * apply (iw_lora W b Hw) in Hin as (Hk & j & v' & Hv' & Ek). split; [done|]. exists j, v'. split; [|done]. rewrite Hrow. destruct (decide (i = j)) as [->|]; [|done].
        apply at_row_id in Hv'. congruence.
    + intros (Hk & j & v' & Hv' & Ek). rewrite Hrow in Hv'. destruct (decide (i = j)) as [->|].
      * injection Hv' as <- <-. rewrite decide_True by done. set_solver.
      * assert (id' ∈ lora_ids b k) by (apply (iw_lora W b Hw); eauto). destruct (decide _); set_solver.
  - apply (jo_lora_live _ _ _ _ _ Hj).
  - apply (jo_lora_req _ _ _ _ _ Hj).
Qed.

(** The batch before the parameters are stored. *)
Definition base_batch (i : nat) (r : CachedRequestState) (row : Row) (ts : list BlockTable) (bld : BatchUpdateBuilder Added) (b : InputBatch) : InputBatch :=
  let b1 := set_req_ids (put_at i (Some (cr_req_id r)) (req_ids b)) (set_req_output_token_ids (put_at i (Some (output_list r)) (req_output_token_ids b))
              (set_spec_token_ids (put_spec i (length (req_ids b)) (spec_token_ids b)) (set_batch_update_builder bld b))) in
  let b2 := set_rows (<[i := row]> (rows b)) (set_req_id_to_index (<[cr_req_id r := i]> (req_id_to_index b)) b1) in
  set_block_tables ts (set_req_prompt_embeds (or_insert i (cr_prompt_embeds r) (req_prompt_embeds b)) b2).
Lemma add_request_eq i r row row' ts bld b : register_add_request r b = Ok (i, set_batch_update_builder bld b) -> lists_ok b -> (i <= length (req_ids b))%nat ->
  rows b !! i = Some row -> fill_tokens r row = Ok row' -> mg_add_row (cr_block_ids r) i (block_tables b) = Ok ts ->
  add_request f32 r b =
    (b7 ← match cr_sampling_params r with
          | Some p => add_sampling f32 i r p (base_batch i r row' ts bld b)
          | None => match cr_pooling_params r with Some p => add_pooling i r p (base_batch i r row' ts bld b) | None => Err NotImplementedError end
          end;
     b8 ← add_lora i r b7; Ok (i, b8)).
Proof.
  intros Hreg Hl Hi Hrow Hfill Hts. unfold add_request. rewrite Hreg, bind_ok. cbn beta match. rewrite place_request_eq by (done || (destruct Hl; by split)). rewrite bind_ok. cbv zeta.
  match goal with |- context [get_row i ?b3] => assert (get_row i b3 = Ok row) as -> by (by apply get_row_ok) end. rewrite bind_ok, Hfill, bind_ok.
  match goal with |- context [mg_add_row _ i ?t] => replace t with (block_tables b) by (by destruct (cr_prompt_embeds r)) end. rewrite Hts, bind_ok.
  unfold base_batch, or_insert. by destruct b, (cr_prompt_embeds r).
Qed.

Section Joins.
Context (b : InputBatch) (i : nat) (r : CachedRequestState) (toks : list Z) (ists : list bool) (ts : list BlockTable).
Hypotheses (Hw : batch_wf W b) (Hok : request_ok W b r) (Hnew : req_id_to_index b !! cr_req_id r = None).
Hypotheses (Hi : (i <= length (req_ids b))%nat) (Hmax : (i < max_num_reqs b)%nat) (Hfree : at_id b i = None).
Hypotheses (Htoks : length toks = W) (Hists : length ists = W).
Hypothesis Htokens : let n := Z.to_nat (prompt_len r + zlen (cr_output_token_ids r)) in zip_with known (take n toks) (take n ists) = request_tokens r.
Hypotheses (Hts : forall t, t ∈ ts -> table_ok b t) (Htl : length ts = length (block_tables b)).
Hypothesis Hti : (fun t => row_ids t i) <$> ts = zip_with kernel_blocks (bt_shape <$> block_tables b) (cr_block_ids r).
Hypothesis Htj : forall j, j <> i -> (fun t => row_ids t j) <$> ts = (fun t => row_ids t j) <$> block_tables b.

Lemma new_lora_ids k (reqs : gmap Z LoRARequest) (ids : gmap Z (gset string)) :
  ids = match cr_lora_request r with Some l => <[lora_of r := {[cr_req_id r]} ∪ lora_ids b (lora_of r)]> (lora_id_to_request_ids b) | None => lora_id_to_request_ids b end ->
  reqs = match cr_lora_request r with Some l => <[lora_of r := l]> (lora_id_to_lora_request b) | None => lora_id_to_lora_request b end ->
  (default ∅ (ids !! k) : gset string) = (if decide (k <> 0 /\ lora_of r = k) then {[cr_req_id r]} ∪ lora_ids b k else lora_ids b k) /\
  (is_Some (ids !! k) <-> (default ∅ (ids !! k) : gset string) <> ∅) /\ (is_Some (reqs !! k) <-> is_Some (ids !! k)).
Proof.
  intros -> ->. pose proof (iw_lora_live W b Hw k) as Hl. pose proof (iw_lora_req W b Hw k) as Hq. pose proof (ro_lora W b r Hok) as Hne. unfold lora_of. destruct (cr_lora_request r) as [l|].
  - pose proof (Hne l eq_refl). destruct (decide (lora_int_id l = k)) as [<-|Hk].
    + rewrite !lookup_insert_eq. destruct (decide (_ <> 0 /\ _)) as [_|Hc]; [|by destruct Hc]. split; [reflexivity|]. split; [split; [set_solver|by eexists]|]. split; by eexists.
    + rewrite !lookup_insert_ne by done. destruct (decide (_ <> 0 /\ _)) as [[_ ?]|_]; [done|]. by split_and!.
  - destruct (decide (_ <> 0 /\ _)) as [[? ?]|_]; [by subst|]. by split_and!.
Qed.

Lemma embeds_needed : None ∈ request_tokens r -> is_Some (cr_prompt_embeds r).
Proof.
  intros e. destruct (cr_prompt_embeds r) eqn:Epe; [done|]. exfalso. unfold request_tokens in *. pose proof (ro_prompt W b r Hok) as Hn.
  unfold cr_num_prompt_tokens, length_from_prompt_token_ids_or_embeds in Hn. rewrite Epe in Hn.
  destruct (cr_prompt_token_ids r); [|done]. apply elem_of_app in e as [e|e]; by apply list_elem_of_fmap in e as (? & ? & _).
Qed.
Lemma join_base b' row : batch_const b' = batch_const b -> req_id_to_index b' = <[cr_req_id r := i]> (req_id_to_index b) -> req_ids b' = put_at i (Some (cr_req_id r)) (req_ids b) ->
  req_output_token_ids b' = put_at i (Some (output_list r)) (req_output_token_ids b) -> spec_token_ids b' = put_spec i (length (req_ids b)) (spec_token_ids b) ->
  rows b' = <[i := row]> (rows b) -> req_prompt_embeds b' = or_insert i (cr_prompt_embeds r) (req_prompt_embeds b) -> block_tables b' = ts ->
  token_ids row = toks -> is_token_ids row = ists -> num_tokens_no_spec row = prompt_len r + zlen (cr_output_token_ids r) -> num_prompt_tokens row = prompt_len r ->
  num_computed_tokens row = cr_num_computed_tokens r -> lora_mapping row = lora_of r ->
  lora_id_to_request_ids b' = match cr_lora_request r with Some l => <[lora_of r := {[cr_req_id r]} ∪ lora_ids b (lora_of r)]> (lora_id_to_request_ids b) | None => lora_id_to_request_ids b end ->
  lora_id_to_lora_request b' = match cr_lora_request r with Some l => <[lora_of r := l]> (lora_id_to_lora_request b) | None => lora_id_to_lora_request b end ->
  (forall j, j <> i -> generators b' !! j = generators b !! j /\ bad_words b' !! j = bad_words b !! j) ->
  (is_pooling_model b = true -> generators b' = generators b /\ bad_words b' = bad_words b /\ id_sets b' = id_sets b /\ num_logprobs b' = num_logprobs b) ->
  (forall id', id' <> cr_req_id r -> flags_of b' id' = flags_of b id' /\ num_logprobs b' !! id' = num_logprobs b !! id' /\
    pooling_params b' !! id' = pooling_params b !! id' /\ pooling_states b' !! id' = pooling_states b !! id') ->
  (has_allowed_token_ids b' <> ∅ -> mask_allocated b' = true) -> (is_Some (pooling_params b' !! cr_req_id r) <-> is_pooling_model b = true) ->
  params_of b' i (cr_req_id r) row = request_params f32 (vocab_size b) r ->
  joined b b' i (cr_req_id r) (request_view f32 (vocab_size b) (bt_shape <$> block_tables b) r).
Proof.
  intros Ec Ex Ei Eo Es Er Ee Et R1 R2 R3 R4 R5 R6 El Eq Hd Hs Hf Hm Hp Hv. destruct (iw_lists W b Hw) as [L1 L2 L3 L4 L5]. destruct (const_fields _ _ Ec) as (Ep & Emax & Evoc & _).
  assert (Hid : forall j, at_id b' j = if decide (i = j) then Some (cr_req_id r) else at_id b j).
  { intros j. unfold at_id. rewrite Ei, put_at_lookup by lia. by destruct (decide (i = j)). }
  assert (Hrow : rows b' !! i = Some row) by (rewrite Er; apply list_lookup_insert_eq; lia).
  pose proof (fun k => new_lora_ids k _ _ El Eq) as Hlora. pose proof (fun j => put_spec_lookup i (length (req_ids b)) (spec_token_ids b) j (conj Hi L2) L5) as Hps. split.
  - done.
  - done.
  - done.
  - split; rewrite ?Eo, ?Es, ?Ei, ?Er, ?put_at_length, ?length_insert by lia; [lia|apply (Hps i)|lia|lia|]. intros j s Hj. apply (Hps j). lia.
  - rewrite Ei. by apply put_at_length.
  - intros j Hj. rewrite Eo, put_at_lookup by lia. by rewrite decide_False.
  - intros j Hj Hlt. rewrite Es. by apply (Hps j).
  - intros j Hj. rewrite Er. by rewrite list_lookup_insert_ne.
  - intros row' Hr'. rewrite Hrow in Hr'. injection Hr' as <-. by rewrite R1, R2.
  - by rewrite Et.
  - rewrite Et. apply Htj.
  - intros j Hj. rewrite Ee. unfold or_insert. destruct (cr_prompt_embeds r); [by rewrite lookup_insert_ne|done].
  - done.
  - intros Hpool. destruct (Hs Hpool) as (-> & -> & F & ->). split_and!; try done. unfold flags_of. by rewrite F.
  - done.
  - done.
  - done.
  - unfold at_row. rewrite (Hid i), decide_True by done. rewrite Hrow, Eo, Es, (proj1 (Hps i)), put_at_lookup, decide_True by (done || lia). cbn. f_equal. f_equal. unfold view_of, request_view.
    rewrite Hv, Et, Hti, R1, R3, R4, R5, R6. cbn. assert (Hkt : known_tokens row = request_tokens r) by (unfold known_tokens; by rewrite R1, R2, R3). rewrite Hkt. f_equal.
    destruct (decide (None ∈ request_tokens r)) as [e|]; [|done]. rewrite Ee. destruct (embeds_needed e) as [x Hx]. unfold or_insert. rewrite Hx. by rewrite lookup_insert_eq.
  - cbn. pose proof (ro_fits W b r Hok). unfold zlen in *. cbn. lia.
  - cbn. intros e. rewrite decide_True by done. by apply embeds_needed.
  - intros k. apply (Hlora k).
  - intros k. apply (Hlora k).
  - intros k. apply (Hlora k).
Qed.

Definition token_row (row : Row) : Row :=
  mkRow toks ists (prompt_len r + zlen (cr_output_token_ids r)) (prompt_len r) (cr_num_computed_tokens r) (row_temperature row) (row_top_p row) (row_top_k row)
    (row_frequency_penalty row) (row_presence_penalty row) (row_repetition_penalty row) (num_accepted_tokens row) (lora_mapping row) (needs_token_ids row) (allowed_mask row).
Lemma or_insert_ne {K A} `{Countable K} (k j : K) (o : option A) (m : gmap K A) : j <> k -> or_insert k o m !! j = m !! j.
Proof. intros H0. unfold or_insert. destruct o; [by rewrite lookup_insert_ne|done]. Qed.
Lemma or_insert_eq {K A} `{Countable K} (k : K) (o : option A) (m : gmap K A) : m !! k = None -> or_insert k o m !! k = o.
Proof. intros H0. unfold or_insert. destruct o; [by rewrite lookup_insert_eq|done]. Qed.
Lemma in_add_if c (id id' : string) (s : gset string) : bool_decide (id' ∈ add_if c id s) = (c && bool_decide (id' = id)) || bool_decide (id' ∈ s).
Proof.
  apply Bool.eq_true_iff_eq. rewrite orb_true_iff, andb_true_iff, !bool_decide_eq_true. unfold add_if. destruct c; set_solver.
Qed.
Lemma not_flagged id : req_id_to_index b !! id = None -> (forall s, s ∈ id_sets b -> id ∉ s) /\ num_logprobs b !! id = None.
Proof.
  intros Hid. assert (Hno : ~ exists j, at_id b j = Some id) by (intros [j Hj]; apply (iw_index W b Hw) in Hj; congruence). split.
  - intros s Hs Hin. destruct (iw_sets W b Hw id) as [_ H]; [left; by exists s|done].
  - apply eq_None_not_Some. intros Hs. destruct (iw_sets W b Hw id) as [_ H]; [by right|done].
Qed.
Lemma free_dicts : generators b !! i = None /\ bad_words b !! i = None.
Proof.
  pose proof (iw_dicts W b Hw i) as H. rewrite Hfree in H. split; apply eq_None_not_Some; intros Hs; destruct H as [_ [? ?]]; [by left|done|by right|done].
Qed.

Lemma join_sampling p row mask bld : is_pooling_model b = false -> cr_sampling_params r = Some p ->
  let row1 := token_row row in let row2 := sampling_row f32 p (vocab_size b) mask row1 in
  joined b (lora_batch i r row2 (sampling_batch i r p mask row1 (base_batch i r row1 ts bld b))) i (cr_req_id r) (request_view f32 (vocab_size b) (bt_shape <$> block_tables b) r).
Proof.
  intros Hp Hs row1 row2. destruct free_dicts as [Hg Hb]. destruct (not_flagged (cr_req_id r) Hnew) as [Hsets Hlp]. pose proof (iw_mask W b Hw) as Hmask. pose proof (iw_pool W b Hw (cr_req_id r)) as Hpool.
  apply join_base with (row := set_lora 1 (lora_of r) row2); unfold lora_batch, sampling_batch, base_batch; try (by destruct b, (cr_lora_request r)).
  - unfold batch_const. rewrite <- Htl. by destruct b, (cr_lora_request r).
  - destruct b, (cr_lora_request r); bsimp; by rewrite !list_insert_insert_eq.
  - intros j Hj. destruct b, (cr_lora_request r); bsimp; by rewrite !or_insert_ne by done.
  - congruence.
  - intros id' Hne. assert (HF : forall c (s : gset string), bool_decide (id' ∈ add_if c (cr_req_id r) s) = bool_decide (id' ∈ s)) by (intros c s; rewrite in_add_if; rewrite (bool_decide_false (id' = _)) by done; by rewrite andb_false_r).
    unfold flags_of, id_sets. destruct b, (cr_lora_request r); bsimp; cbn [fmap list_fmap]; rewrite !HF, or_insert_ne by done; done.
  - destruct b, (cr_lora_request r); bsimp_all; unfold add_if; destruct (has_allowed p); rewrite ?orb_true_r, ?orb_false_r; done.
  - destruct b, (cr_lora_request r); bsimp_all; rewrite Hpool; (split; [by intros []|by intros ?; congruence]).
  - unfold params_of, request_params. rewrite Hs. assert (HF : forall c (s : gset string), s ∈ id_sets b -> bool_decide (cr_req_id r ∈ add_if c (cr_req_id r) s) = c).
    { intros c s Hin. rewrite in_add_if, (bool_decide_true (_ = _)), (bool_decide_false (_ ∈ s)) by (done || by apply Hsets). by rewrite andb_true_r, orb_false_r. }
    unfold flags_of. unfold id_sets in *. destruct b, (cr_lora_request r); bsimp_all; rewrite Hp; bsimp; cbn [fmap list_fmap]; rewrite !HF by (repeat first [by left|right]); rewrite !or_insert_eq by done;
    by (unfold row2, sampling_row, is_greedy, limits_top_k; cbn; destruct (sampling_type p)).
Qed.
Lemma join_pooling p st row bld : is_pooling_model b = true -> cr_sampling_params r = None -> cr_pooling_params r = Some p -> cr_pooling_states r = Some st ->
  let row1 := token_row row in
  joined b (lora_batch i r (mkRow (token_ids row1) (is_token_ids row1) (num_tokens_no_spec row1) (num_prompt_tokens row1) (num_computed_tokens row1) (row_temperature row1)
    (row_top_p row1) (row_top_k row1) (row_frequency_penalty row1) (row_presence_penalty row1) (row_repetition_penalty row1) (num_accepted_tokens row1)
    (lora_mapping row1) (requires_token_ids p) (allowed_mask row1)) (pooling_batch i r p st row1 (base_batch i r row1 ts bld b))) i (cr_req_id r) (request_view f32 (vocab_size b) (bt_shape <$> block_tables b) r).
Proof.
  intros Hp Hs Hpp Hst row1. pose proof (iw_mask W b Hw) as Hmask.
  match goal with |- joined _ (lora_batch _ _ ?row2 _) _ _ _ => apply join_base with (row := set_lora 1 (lora_of r) row2) end; unfold lora_batch, pooling_batch, base_batch; try (by destruct b, (cr_lora_request r)).
  - unfold batch_const. rewrite <- Htl. by destruct b, (cr_lora_request r).
  - destruct b, (cr_lora_request r); bsimp; by rewrite !list_insert_insert_eq.
  - intros id' Hne. destruct b, (cr_lora_request r); bsimp; by rewrite !lookup_insert_ne by done.
  - destruct b, (cr_lora_request r); bsimp_all; by rewrite lookup_insert_eq.
  - unfold params_of, request_params. rewrite Hs, Hpp, Hst. destruct b, (cr_lora_request r); bsimp_all; rewrite Hp; by rewrite !lookup_insert_eq.
Qed.
End Joins.

Lemma add_request_joins r b : batch_wf W b -> editing b -> request_ok W b r -> req_id_to_index b !! cr_req_id r = None -> (num_reqs b < max_num_reqs b)%nat -> exists i b' bld,
  register_add_request r b = Ok (i, set_batch_update_builder bld b) /\ add_request f32 r b = Ok (i, b') /\ batch_update_builder b' = bld /\ bt_shape <$> block_tables b' = bt_shape <$> block_tables b /\
  joined b b' i (cr_req_id r) (request_view f32 (vocab_size b) (bt_shape <$> block_tables b) r).
Proof.
  intros Hw Hed Hok Hnew Hroom. destruct (register_spec r b Hw Hed Hroom) as (i & bld & Hreg & Hi & Hmax & Hfree & _). exists i.
  destruct (iw_lists W b Hw) as [L1 L2 L3 L4 L5]. destruct (lookup_lt_is_Some_2 (rows b) i) as [row Hrow]; [lia|]. destruct (iw_rows W b Hw i row Hrow) as [Ht Hs].
  destruct (fill_tokens_spec r row W (ro_prompt W b r Hok) (proj1 (ro_fits W b r Hok)) (proj2 (ro_fits W b r Hok)) Ht Hs) as (toks & ists & Efill & Htl & Hil & Htok).
  destruct (mg_add_row_spec b (block_tables b) (cr_block_ids r) i (iw_tables W b Hw) Hmax (ro_blocks W b r Hok)) as (ts & Ets & T1 & T2 & T3 & T4 & T5).
  set (row1 := token_row r toks ists row). assert (Hbase : rows (base_batch i r row1 ts bld b) !! i = Some row1) by (unfold base_batch; destruct b; bsimp_all; apply list_lookup_insert_eq; lia).
  rewrite (add_request_eq i r row row1 ts bld b Hreg (iw_lists W b Hw) Hi Hrow Efill Ets). pose proof (ro_params W b r Hok) as Hpar. destruct (is_pooling_model b) eqn:Ep.
  - destruct Hpar as (Esp & [p Epp] & [st Est]). rewrite Esp, Epp, (add_pooling_eq i r p st row1 _ Hbase Est), bind_ok. eexists _, bld. split; [done|]. erewrite add_lora_eq by (unfold pooling_batch; destruct b; bsimp_all; rewrite list_lookup_insert_eq; [done|by eapply lookup_lt_Some]).
    rewrite bind_ok. split; [reflexivity|]. split; [|split]; [unfold lora_batch, pooling_batch, base_batch; by destruct b, (cr_lora_request r)..|]. by apply join_pooling.
  - destruct Hpar as [p Esp]. rewrite Esp. destruct (add_sampling_eq i r p row1 (base_batch i r row1 ts bld b) Hbase) as [mask Emask].
    { intros t Ht'. replace (vocab_size (base_batch i r row1 ts bld b)) with (vocab_size b) by (by destruct b). by apply (ro_allowed W b r Hok p). }
    rewrite Emask, bind_ok. eexists _, bld. split; [done|]. erewrite add_lora_eq by (unfold sampling_batch; destruct b; bsimp_all; rewrite list_lookup_insert_eq; [done|by eapply lookup_lt_Some]).
    rewrite bind_ok. split; [reflexivity|]. split; [|split]; [unfold lora_batch, sampling_batch, base_batch; by destruct b, (cr_lora_request r)..|].
    replace (vocab_size (base_batch i r row1 ts bld b)) with (vocab_size b) by (by destruct b). by apply join_sampling.
Qed.

(** A request arrives; every other keeps its row and its view. *)
Lemma batch_add_request_spec r b : batch_wf W b -> editing b -> request_ok W b r -> req_id_to_index b !! cr_req_id r = None -> (num_reqs b < max_num_reqs b)%nat -> exists i b',
  add_request f32 r b = Ok (i, b') /\ batch_wf W b' /\ editing b' /\ batch_const b' = batch_const b /\ bt_shape <$> block_tables b' = bt_shape <$> block_tables b /\
  req_id_to_index b' = <[cr_req_id r := i]> (req_id_to_index b) /\ at_row b i = None /\ (holes b = [] -> i = num_reqs b) /\ (forall j, j ∈ holes b -> (i <= j)%nat) /\
  (forall j, at_row b' j = if decide (i = j) then Some (cr_req_id r, request_view f32 (vocab_size b) (bt_shape <$> block_tables b) r) else at_row b j) /\
  (forall j, j ∈ holes b' <-> j ∈ holes b /\ j <> i) /\ added (batch_update_builder b') = added (batch_update_builder b) ++ added_entry r i.
Proof.
  intros Hw Hed Hok Hnew Hroom. destruct (add_request_joins r b Hw Hed Hok Hnew Hroom) as (i & b' & bld & Hreg & E & Eb & Et & Hj).
  destruct (register_spec r b Hw Hed Hroom) as (i0 & bld0 & Hreg0 & Hi & Hmax & Hfree & Hholes & Hfirst & Hlow & Hwhere & Hbok & Hmoved & Hadded). rewrite Hreg in Hreg0. injection Hreg0 as <- Ebld.
  subst bld0.
  assert (Hno : forall j, at_id b j <> Some (cr_req_id r)) by (intros j Hj'; apply (iw_index W b Hw) in Hj'; congruence).
  exists i, b'. split; [done|]. split; [by eapply joined_wf|]. split_and!.
  - split; [by rewrite Eb| |by rewrite Eb]. intros j. rewrite Eb, Hholes, (jo_length _ _ _ _ _ Hj), (jo_id _ _ _ _ _ Hj). pose proof (ed_holes b Hed j) as Hh. fold (holes b) in Hh. rewrite Hh.
    destruct (decide (i = j)) as [->|Hne]; [split; [by intros []|by intros []]|]. split; [intros [[? ?] _]; split; [lia|done]|]. intros [Hlt Hnone]. split; [split; [lia|done]|done].
  - apply (jo_const _ _ _ _ _ Hj).
  - done.
  - apply (jo_index _ _ _ _ _ Hj).
  - by apply at_row_none.
  - done.
  - done.
  - intros j. by apply joined_at_row.
  - intros j. unfold holes. rewrite Eb. apply Hholes.
  - by rewrite Eb.
Qed.
End Add.
