(* ===== verification/InputBatchMove.v ===== *)
(** * Moving the rows of the batch

    [swap_states] exchanges two requests; [condense] slides requests down until the rows have
    no holes.  Neither changes the view of a request, and [condense] moves the mask of its
    allowed tokens with it. *)
From S2P Require Import Prelude Request BlockTable BlockTableProps BatchUpdate BatchUpdateProps InputBatch InputBatchView InputBatchProps.
From Stdlib Require Import QArith.QArith.
Open Scope Z_scope.

Section Move.
Context (W : nat).

(** [b'] has the rows of [b] in other places. *)
Record rearranged (b b' : InputBatch) : Prop := {
  re_const : batch_const b' = batch_const b;
  re_index : forall id i, req_id_to_index b' !! id = Some i <-> at_id b' i = Some id;
  re_lists : lists_ok b';
  re_rows : forall i row, rows b' !! i = Some row -> length (token_ids row) = W /\ length (is_token_ids row) = W;
  re_same : forall x, (exists i, at_row b' i = Some x) <-> exists i, at_row b i = Some x;
  re_tables : forall t, t ∈ block_tables b' -> table_ok b t;
  re_dicts : forall i, is_Some (generators b' !! i) \/ is_Some (bad_words b' !! i) -> is_pooling_model b = false /\ is_Some (at_id b' i);
  re_sets : id_sets b' = id_sets b /\ num_logprobs b' = num_logprobs b /\ mask_allocated b' = mask_allocated b;
  re_pool : pooling_params b' = pooling_params b /\ pooling_states b' = pooling_states b;
  re_lora : lora_id_to_request_ids b' = lora_id_to_request_ids b /\ lora_id_to_lora_request b' = lora_id_to_lora_request b;
}.
Lemma rearranged_ids b b' id : lists_ok b -> rearranged b b' -> (exists i, at_id b' i = Some id) <-> exists i, at_id b i = Some id.
Proof.
  intros Hl Hr. split; intros [i Hi].
  - destruct (at_row_views b' i id (re_lists _ _ Hr) Hi) as [v Hv]. destruct (proj1 (re_same _ _ Hr (id, v))) as [j Hj]; [eauto|]. exists j. by eapply at_row_id.
  - destruct (at_row_views b i id Hl Hi) as [v Hv]. destruct (proj2 (re_same _ _ Hr (id, v))) as [j Hj]; [eauto|]. exists j. by eapply at_row_id.
Qed.
Lemma rearranged_wf b b' : batch_wf W b -> rearranged b b' -> batch_wf W b'.
Proof.
  intros Hw Hr. pose proof (fun id => rearranged_ids b b' id (iw_lists W b Hw) Hr) as Hids. destruct (const_fields _ _ (re_const _ _ Hr)) as (Ep & Emax & _).
  destruct (re_sets _ _ Hr) as (Es & Elp & Em). destruct (re_pool _ _ Hr) as (Epp & _). destruct (re_lora _ _ Hr) as (El & Eq).
  assert (Ela : forall k, lora_ids b' k = lora_ids b k) by (intros k; unfold lora_ids; by rewrite El). split.
  - apply (re_index _ _ Hr).
  - apply (re_lists _ _ Hr).
  - apply (re_rows _ _ Hr).
  - intros i id v Hi. destruct (proj1 (re_same _ _ Hr (id, v))) as [j Hj]; [eauto|]. by apply (iw_fit W b Hw j id).
  - intros i id v Hi. destruct (proj1 (re_same _ _ Hr (id, v))) as [j Hj]; [eauto|]. by apply (iw_embeds W b Hw j id).
  - intros t Ht. pose proof (re_tables _ _ Hr t Ht) as H. unfold table_ok in *. by rewrite Emax.
  - intros i. rewrite Ep. apply (re_dicts _ _ Hr).
  - intros id. rewrite Es, Elp, Ep, Hids. apply (iw_sets W b Hw).
  - rewrite Em. unfold id_sets in Es. injection Es as _ _ _ _ _ _ _ ->. apply (iw_mask W b Hw).
  - intros id. rewrite Epp, Ep, Hids. apply (iw_pool W b Hw).
  - intros k id. rewrite Ela, (iw_lora W b Hw). split; intros (Hk & i & v & Hv & Ek); (split; [done|]); [destruct (proj2 (re_same _ _ Hr (id, v))) as [j Hj]|destruct (proj1 (re_same _ _ Hr (id, v))) as [j Hj]]; eauto.
  - intros k. rewrite Ela, El. apply (iw_lora_live W b Hw).
  - intros k. rewrite El, Eq. apply (iw_lora_req W b Hw).
Qed.
Lemma rearranged_represents b b' m : rearranged b b' -> represents b m -> represents b' m.
Proof. intros Hr Hm id v. rewrite (Hm id v). symmetry. apply (re_same _ _ Hr). Qed.

(** ** Tables *)

Lemma mg_step_spec b (f : BlockTable -> result BlockTable) ts (R : BlockTable -> BlockTable -> Prop) :
  (forall t, t ∈ ts -> exists t', f t = Ok t' /\ bt_step t t' /\ R t t') -> (forall t, t ∈ ts -> table_ok b t) ->
  exists ts', mapM f ts = Ok ts' /\ (forall t, t ∈ ts' -> table_ok b t) /\ length ts' = length ts /\ bt_shape <$> ts' = bt_shape <$> ts /\ Forall2 R ts ts'.
Proof.
  intros Hf Hts. destruct (mapM_total f ts) as (ts' & E & HF). { intros t Ht. destruct (Hf t Ht) as (t' & ? & _). eauto. }
  exists ts'. split; [done|]. assert (HS : Forall2 (fun t t' => bt_step t t' /\ R t t') ts ts').
  { apply Forall2_same_length_lookup. split; [by eapply Forall2_length|]. intros i t t' Ht Ht'. pose proof (Forall2_lookup_lr _ _ _ _ _ _ HF Ht Ht') as E'. cbn in E'.
    destruct (Hf t) as (t2 & E2 & H2); [by apply list_elem_of_lookup_2 in Ht|]. congruence. }
  split_and!; [|symmetry; by eapply Forall2_length| |eapply Forall2_impl; [exact HS|by intros ? ? []]].
  - intros t' [i Ht']%list_elem_of_lookup. destruct (Forall2_lookup_r _ _ _ _ _ HS Ht') as (t & Ht & (Hwf & Hc & _) & _). destruct (Hts t) as [_ Hl]; [by apply list_elem_of_lookup_2 in Ht|].
    unfold bt_const in Hc. injection Hc as _ _ _ _ El _. split; [done|congruence].
  - clear -HS. induction HS as [|t t' ts ts' [(_ & Hc & _) _] _ IH]; [done|]. cbn. unfold bt_const in Hc. injection Hc as _ Er _ Em _ _. rewrite IH. unfold bt_shape. by rewrite Er, Em.
Qed.
Lemma fmap_rows ts ts' i j : Forall2 (fun t t' => row_ids t' j = row_ids t i) ts ts' -> (fun t => row_ids t j) <$> ts' = (fun t => row_ids t i) <$> ts.
Proof. induction 1; cbn; congruence. Qed.
Lemma mg_move_row_spec b l e : (forall t, t ∈ block_tables b -> table_ok b t) -> (l < max_num_reqs b)%nat -> (e < max_num_reqs b)%nat -> exists ts', mg_move_row l e (block_tables b) = Ok ts' /\
  (forall t, t ∈ ts' -> table_ok b t) /\ length ts' = length (block_tables b) /\ bt_shape <$> ts' = bt_shape <$> block_tables b /\
  (fun t => row_ids t e) <$> ts' = (fun t => row_ids t l) <$> block_tables b /\ forall j, j <> e -> (fun t => row_ids t j) <$> ts' = (fun t => row_ids t j) <$> block_tables b.
Proof.
  intros Hts Hl He. destruct (mg_step_spec b (move_row l e) (block_tables b) (fun t t' => row_ids t' e = row_ids t l /\ forall j, j <> e -> row_ids t' j = row_ids t j)) as (ts' & E & T1 & T2 & T3 & T4).
  - intros t Ht. destruct (Hts t Ht) as [Hwf Hlen]. destruct (move_row_spec t l e Hwf) as (t' & E & S & H1 & H2 & _); [lia|lia|]. eauto 10.
  - done.
  - exists ts'. split_and!; [done|done|done|done| |]; intros; apply fmap_rows; (eapply Forall2_impl; [exact T4|]); intros t t' []; auto.
Qed.
Lemma mg_swap_row_spec b i j : (forall t, t ∈ block_tables b -> table_ok b t) -> (i < max_num_reqs b)%nat -> (j < max_num_reqs b)%nat -> exists ts', mg_swap_row i j (block_tables b) = Ok ts' /\
  (forall t, t ∈ ts' -> table_ok b t) /\ length ts' = length (block_tables b) /\ bt_shape <$> ts' = bt_shape <$> block_tables b /\
  (fun t => row_ids t i) <$> ts' = (fun t => row_ids t j) <$> block_tables b /\ (fun t => row_ids t j) <$> ts' = (fun t => row_ids t i) <$> block_tables b /\
  forall k, k <> i -> k <> j -> (fun t => row_ids t k) <$> ts' = (fun t => row_ids t k) <$> block_tables b.
Proof.
  intros Hts Hi Hj. destruct (mg_step_spec b (swap_row i j) (block_tables b) (fun t t' => row_ids t' i = row_ids t j /\ row_ids t' j = row_ids t i /\ forall k, k <> i -> k <> j -> row_ids t' k = row_ids t k)) as (ts' & E & T1 & T2 & T3 & T4).
  - intros t Ht. destruct (Hts t Ht) as [Hwf Hlen]. destruct (swap_row_spec t i j Hwf) as (t' & E & S & H1 & H2 & H3 & _); [lia|lia|]. eauto 10.
  - done.
  - exists ts'. split_and!; [done|done|done|done| | |]; intros; apply fmap_rows; (eapply Forall2_impl; [exact T4|]); intros t t' (?&?&?); auto.
Qed.

(** ** Sliding a request down *)

Lemma set_builder_wf b bld : batch_wf W b -> batch_wf W (set_batch_update_builder bld b).
Proof. destruct b. intros [H1 [L1 L2 L3 L4 L5] H2 H3 H4 H5 H6 H7 H8 H9 H10 H11 H12]. split; try assumption. by split. Qed.
Lemma set_builder_at_row b bld i : at_row (set_batch_update_builder bld b) i = at_row b i.
Proof. by destruct b. Qed.
Lemma set_builder_at_id b bld i : at_id (set_batch_update_builder bld b) i = at_id b i.
Proof. by destruct b. Qed.

Definition slid_row (b : InputBatch) (from to : Row) (spec : list Z) : Row :=
  let n := Z.to_nat (num_tokens_no_spec from + zlen spec) in
  move_fields (is_pooling_model b) (copy_rows n (token_ids from) (token_ids to)) (copy_rows n (is_token_ids from) (is_token_ids to))
    (if negb (is_pooling_model b) && mask_allocated b then allowed_mask from else allowed_mask to) from to.
Definition slid_batch (l e : nat) (id : string) (out : option Z) (spec : list Z) (from to : Row) (ts : list BlockTable) (b : InputBatch) : InputBatch :=
  let b1 := set_req_ids (<[l := None]> (<[e := Some id]> (req_ids b))) (set_req_output_token_ids (<[l := None]> (<[e := out]> (req_output_token_ids b)))
              (set_spec_token_ids (<[l := []]> (<[e := spec]> (spec_token_ids b))) (set_req_id_to_index (<[id := e]> (req_id_to_index b)) b))) in
  let b2 := set_row e (slid_row b from to spec) (set_req_prompt_embeds (move_key l e (req_prompt_embeds b)) (set_block_tables ts b1)) in
  if is_pooling_model b then b2
  else set_batch_update_builder (push_moved (l, e, UNIDIRECTIONAL) (batch_update_builder b))
         (set_generators (move_key l e (generators b)) (set_bad_words (move_key l e (bad_words b)) b2)).
Lemma slide_eq l e id out spec from to ts b : lists_ok b -> (l < length (req_ids b))%nat -> (e < length (req_ids b))%nat -> req_ids b !! l = Some (Some id) -> req_output_token_ids b !! l = Some out ->
  spec_token_ids b !! l = Some spec -> rows b !! l = Some from -> rows b !! e = Some to -> mg_move_row l e (block_tables b) = Ok ts ->
  slide l e b = Ok (slid_batch l e id out spec from to ts b).
Proof.
  intros [L1 L2 _ _ L5] Hl He H1 H2 H3 H4 H5 H6. unfold slide. rewrite H1, H2.
  repeat (cbn [of_option]; first [rewrite bind_ok|rewrite set_item_ok by (rewrite ?length_insert; lia)|rewrite H3|rewrite (get_row_ok _ _ _ H4)|rewrite (get_row_ok _ _ _ H5)|rewrite H6]).
  unfold slid_batch, slid_row. by destruct b, is_pooling_model.
Qed.

Lemma take_within {A} n m (x y : list A) : (n <= m)%nat -> take m x = take m y -> take n x = take n y.
Proof. intros Hle H. apply (f_equal (take n)) in H. by rewrite !take_take, !Nat.min_l in H by done. Qed.
(** The row that was copied is seen as the row it was copied from. *)
Lemma slid_view b b' l e id out spec from to : length (token_ids from) = length (token_ids to) -> length (is_token_ids from) = length (is_token_ids to) -> 0 <= num_tokens_no_spec from ->
  is_pooling_model b' = is_pooling_model b -> (fun t => row_ids t e) <$> block_tables b' = (fun t => row_ids t l) <$> block_tables b ->
  (None ∈ known_tokens from -> req_prompt_embeds b' !! e = req_prompt_embeds b !! l) ->
  params_of b' e id (slid_row b from to spec) = params_of b l id from ->
  view_of b' e id (slid_row b from to spec) out spec = view_of b l id from out spec.
Proof.
  intros Ht Hi Hn Hp Hb He Hv. unfold view_of. rewrite Hb, Hv. cbn. set (n := num_tokens_no_spec from) in *. set (k := Z.to_nat (n + zlen spec)).
  assert (Hk : k = (Z.to_nat n + length spec)%nat) by (unfold k, zlen; lia).
  pose proof (copy_rows_take k (token_ids from) (token_ids to) Ht) as C1. pose proof (copy_rows_take k (is_token_ids from) (is_token_ids to) Hi) as C2.
  assert (Hkt : known_tokens (slid_row b from to spec) = known_tokens from).
  { unfold known_tokens. cbn. fold n k. by rewrite (take_within (Z.to_nat n) k _ _ ltac:(lia) C1), (take_within (Z.to_nat n) k _ _ ltac:(lia) C2). }
  rewrite Hkt. f_equal; [|by destruct (decide (None ∈ known_tokens from)); [apply He|]]. rewrite !take_drop_commute, <- Hk. by rewrite C1.
Qed.
Lemma move_key_lookup {A} l e (m : gmap nat A) j : l <> e -> j <> e -> move_key l e m !! j = if decide (j = l) then None else m !! j.
Proof.
  intros Hle Hj. unfold move_key. destruct (m !! l) eqn:E; [rewrite lookup_insert_ne by done|]; destruct (decide (j = l)) as [->|Hne]; [by rewrite lookup_delete_eq|by rewrite lookup_delete_ne|done|done].
Qed.
Lemma move_key_to {A} l e (m : gmap nat A) : is_Some (m !! l) \/ m !! e = None -> move_key l e m !! e = m !! l.
Proof. unfold move_key. destruct (m !! l) eqn:E; [by rewrite lookup_insert_eq|]. intros [[]|]; done. Qed.

(** The fields of the slid batch. *)
Lemma slid_fields l e id out spec from to ts b : let b' := slid_batch l e id out spec from to ts b in
  req_ids b' = <[l := None]> (<[e := Some id]> (req_ids b)) /\ req_output_token_ids b' = <[l := None]> (<[e := out]> (req_output_token_ids b)) /\
  spec_token_ids b' = <[l := []]> (<[e := spec]> (spec_token_ids b)) /\ req_id_to_index b' = <[id := e]> (req_id_to_index b) /\
  rows b' = <[e := slid_row b from to spec]> (rows b) /\ req_prompt_embeds b' = move_key l e (req_prompt_embeds b) /\ block_tables b' = ts /\
  generators b' = (if is_pooling_model b then generators b else move_key l e (generators b)) /\ bad_words b' = (if is_pooling_model b then bad_words b else move_key l e (bad_words b)) /\
  batch_update_builder b' = (if is_pooling_model b then batch_update_builder b else push_moved (l, e, UNIDIRECTIONAL) (batch_update_builder b)).
Proof. unfold slid_batch. destruct b, is_pooling_model; by split_and!. Qed.
Lemma slid_same l e id out spec from to ts b : let b' := slid_batch l e id out spec from to ts b in
  is_pooling_model b' = is_pooling_model b /\ max_num_reqs b' = max_num_reqs b /\ vocab_size b' = vocab_size b /\
  id_sets b' = id_sets b /\ num_logprobs b' = num_logprobs b /\ mask_allocated b' = mask_allocated b /\ pooling_params b' = pooling_params b /\ pooling_states b' = pooling_states b /\
  lora_id_to_request_ids b' = lora_id_to_request_ids b /\ lora_id_to_lora_request b' = lora_id_to_lora_request b.
Proof. unfold slid_batch. destruct b, is_pooling_model; by split_and!. Qed.

Section Slide.
Context (b : InputBatch) (l e : nat) (id : string) (out : option Z) (spec : list Z) (from to : Row) (ts : list BlockTable).
Hypotheses (Hw : batch_wf W b) (Hl : at_id b l = Some id) (He : at_id b e = None) (Hlt : (e < length (req_ids b))%nat).
Hypotheses (Hout : req_output_token_ids b !! l = Some out) (Hspec : spec_token_ids b !! l = Some spec) (Hfrom : rows b !! l = Some from) (Hto : rows b !! e = Some to).
Hypotheses (Tok : forall t, t ∈ ts -> table_ok b t) (Tlen : length ts = length (block_tables b)).
Hypotheses (Te : (fun t => row_ids t e) <$> ts = (fun t => row_ids t l) <$> block_tables b) (Tj : forall j, j <> e -> (fun t => row_ids t j) <$> ts = (fun t => row_ids t j) <$> block_tables b).
Notation b' := (slid_batch l e id out spec from to ts b).

Lemma slid_ne : l <> e.
Proof. intros ->. congruence. Qed.
Lemma slid_at_id j : at_id b' j = if decide (j = e) then Some id else if decide (j = l) then None else at_id b j.
Proof.
  destruct (slid_fields l e id out spec from to ts b) as (E & _). unfold at_id. rewrite E. pose proof slid_ne. pose proof (at_id_lt b l id Hl).
  rewrite insert_lookup by (by rewrite length_insert). rewrite insert_lookup by done. repeat case_decide; subst; done.
Qed.
Lemma slid_dicts : is_pooling_model b = false -> generators b' !! e = generators b !! l /\ bad_words b' !! e = bad_words b !! l /\
  forall j, j <> e -> generators b' !! j = (if decide (j = l) then None else generators b !! j) /\ bad_words b' !! j = (if decide (j = l) then None else bad_words b !! j).
Proof.
  intros Ep. destruct (slid_fields l e id out spec from to ts b) as (_ & _ & _ & _ & _ & _ & _ & Eg & Eb & _). rewrite Ep in Eg, Eb. rewrite Eg, Eb. pose proof slid_ne.
  pose proof (iw_dicts W b Hw e) as Hd. rewrite He in Hd.
  assert (Hg : generators b !! e = None) by (apply eq_None_not_Some; intros Hs; destruct Hd as [_ [? ?]]; [by left|done]).
  assert (Hb : bad_words b !! e = None) by (apply eq_None_not_Some; intros Hs; destruct Hd as [_ [? ?]]; [by right|done]).
  split_and!; [apply move_key_to; by right|apply move_key_to; by right|]. intros j Hj. by rewrite !move_key_lookup by done.
Qed.
Lemma slid_at_row j : at_row b' j = if decide (j = e) then at_row b l else if decide (j = l) then None else at_row b j.
Proof.
  pose proof slid_ne as Hne. pose proof (slid_at_id j) as Hid. pose proof (at_id_lt b l id Hl) as Hll. destruct (iw_lists W b Hw) as [L1 L2 L3 L4 L5].
  destruct (slid_fields l e id out spec from to ts b) as (Ei & Eo & Es & Ex & Er & Ee & Et & Eg & Eb & _). destruct (slid_same l e id out spec from to ts b) as (Ep & _ & _ & Esets & Elp & _ & Epp & Eps & _).
  assert (Hflags : forall x, flags_of b' x = flags_of b x) by (intros x; unfold flags_of; by rewrite Esets). destruct (decide (j = e)) as [->|Hje]; [|destruct (decide (j = l)) as [->|Hjl]].
  - unfold at_row. rewrite Hid, Er, Eo, Es, Hl, Hfrom, Hout, Hspec. rewrite list_lookup_insert_eq by lia. rewrite !insert_lookup by (rewrite ?length_insert; lia).
    destruct (decide (l = e)); [done|]. rewrite !decide_True by done. cbn. f_equal. f_equal.
    destruct (iw_rows W b Hw l from Hfrom) as [F1 F2]. destruct (iw_rows W b Hw e to Hto) as [F3 F4]. destruct (at_row_some b l id (iw_lists W b Hw) Hl) as (row & o & s & Hr & Ho & Hs & Hv).
    rewrite Hfrom in Hr. rewrite Hout in Ho. rewrite Hspec in Hs. injection Hr as <-. injection Ho as <-. injection Hs as <-.
    apply slid_view; [congruence|congruence|apply (iw_fit W b Hw l id _ Hv)|done|by rewrite Et| |].
    + intros HN. rewrite Ee. apply move_key_to. left. pose proof (iw_embeds W b Hw l id _ Hv HN) as HS. cbn in HS. by rewrite decide_True in HS.
    + unfold params_of. rewrite Ep, Hflags, Elp, Epp, Eps. destruct (is_pooling_model b) eqn:Epool; [done|]. destruct (slid_dicts Epool) as (-> & -> & _). unfold row_scalars, slid_row. cbn. by rewrite Epool.
  - by apply at_row_none.
  - apply at_row_ext.
    + done.
    + rewrite Er. by rewrite list_lookup_insert_ne.
    + rewrite Eo. by rewrite !list_lookup_insert_ne.
    + rewrite Es. by rewrite !list_lookup_insert_ne.
    + rewrite Et. by apply Tj.
    + rewrite Ee. rewrite move_key_lookup by done. by rewrite decide_False.
    + intros id' row _ _. unfold params_of. rewrite Ep, Hflags, Elp, Epp, Eps. destruct (is_pooling_model b) eqn:Epool; [done|]. destruct (slid_dicts Epool) as (_ & _ & Hd).
      destruct (Hd j Hje) as [-> ->]. by destruct (decide (j = l)).
Qed.
Lemma slid_rearranged : rearranged b b'.
Proof.
  pose proof slid_ne as Hne. pose proof slid_at_id as Hid. pose proof slid_at_row as Hrow. pose proof (at_id_lt b l id Hl) as Hll. destruct (iw_lists W b Hw) as [L1 L2 L3 L4 L5].
  destruct (slid_fields l e id out spec from to ts b) as (Ei & Eo & Es & Ex & Er & Ee & Et & Eg & Eb & _). destruct (slid_same l e id out spec from to ts b) as (Ep & Em & Ev & Esets & Elp & Emask & Epp & Eps & El & Eq). split.
  - unfold batch_const. by rewrite Ep, Em, Ev, Et, Tlen.
  - intros id' i. rewrite Ex, Hid. destruct (decide (id = id')) as [<-|Hn].
    + rewrite lookup_insert_eq. destruct (decide (i = e)) as [->|Hie]; [done|]. split; [congruence|]. destruct (decide (i = l)); [done|]. intros H. assert (i = l) by (by eapply index_inj). done.
    + rewrite lookup_insert_ne by done. rewrite (iw_index W b Hw). destruct (decide (i = e)) as [->|]; [split; congruence|]. destruct (decide (i = l)) as [->|]; [split; congruence|done].
  - split; rewrite ?Eo, ?Es, ?Ei, ?Er, ?Em, ?length_insert; [lia|lia|lia|lia|]. intros i s Hi. rewrite !list_lookup_insert_ne by lia. by apply L5.
  - intros i row. rewrite Er. intros H. rewrite insert_lookup in H by lia. destruct (decide (e = i)); [|by apply (iw_rows W b Hw i)]. injection H as <-.
    destruct (iw_rows W b Hw l from Hfrom). destruct (iw_rows W b Hw e to Hto). unfold slid_row. cbn. rewrite !copy_rows_length by congruence. done.
  - intros x. split.
    + intros [i Hi]. rewrite Hrow in Hi. destruct (decide (i = e)); [eauto|]. destruct (decide (i = l)); [done|eauto].
    + intros [i Hi]. destruct (decide (i = l)) as [->|Hil]; [exists e; rewrite Hrow; by rewrite decide_True|]. exists i. rewrite Hrow. destruct (decide (i = e)) as [->|]; [|by rewrite decide_False].
      destruct x as [x v]. apply at_row_id in Hi. congruence.
  - by rewrite Et.
  - intros i H. destruct (is_pooling_model b) eqn:Epool; [rewrite Eg, Eb in H; apply (iw_dicts W b Hw) in H as [H _]; congruence|]. split; [done|]. destruct (slid_dicts Epool) as (_ & _ & Hd). rewrite Hid.
    destruct (decide (i = e)); [done|]. destruct (Hd i) as [G B]; [done|]. rewrite G, B in H. destruct (decide (i = l)); [by destruct H as [[]|[]]|]. by apply (iw_dicts W b Hw).
  - done.
  - done.
  - done.
Qed.
End Slide.

(** The mask of allowed tokens at the row of a request. *)
Definition request_mask (b : InputBatch) (id : string) : option (list bool) := i ← req_id_to_index b !! id; allowed_mask <$> rows b !! i.
(** Where a batch has masks, each stays with its request. *)
Record masks_kept (b b' : InputBatch) : Prop := {
  mk_pooling : is_pooling_model b' = is_pooling_model b;
  mk_allocated : mask_allocated b' = mask_allocated b;
  mk_masks : is_pooling_model b = false -> mask_allocated b = true -> forall id, request_mask b' id = request_mask b id;
}.
Lemma masks_kept_trans b1 b2 b3 : masks_kept b1 b2 -> masks_kept b2 b3 -> masks_kept b1 b3.
Proof. intros [P1 A1 M1] [P2 A2 M2]. split; [congruence|congruence|]. intros Hp Ha id. rewrite M2 by congruence. by apply M1. Qed.
Lemma set_builder_masks b bld : masks_kept b (set_batch_update_builder bld b).
Proof. by destruct b. Qed.
Lemma slid_masks b l e id out spec from to ts : batch_wf W b -> at_id b l = Some id -> at_id b e = None -> (e < max_num_reqs b)%nat -> rows b !! l = Some from ->
  masks_kept b (slid_batch l e id out spec from to ts b).
Proof.
  intros Hw Hl He Hlt Hfrom. destruct (slid_fields l e id out spec from to ts b) as (_ & _ & _ & Ex & Er & _). destruct (slid_same l e id out spec from to ts b) as (Ep & _ & _ & _ & _ & Ea & _).
  split; [done|done|]. intros Hp Ha x. unfold request_mask. rewrite Ex, Er. destruct (iw_lists W b Hw) as [_ _ _ Hrows _]. destruct (decide (id = x)) as [<-|Hne].
  - rewrite lookup_insert_eq. cbn. rewrite list_lookup_insert_eq by lia. apply (iw_index W b Hw) in Hl. rewrite Hl. cbn. rewrite Hfrom. unfold slid_row. by rewrite Hp, Ha.
  - rewrite lookup_insert_ne by done. destruct (req_id_to_index b !! x) as [i|] eqn:Ei; [|done]. cbn. rewrite list_lookup_insert_ne; [done|]. intros ->. apply (iw_index W b Hw) in Ei. congruence.
Qed.

Lemma slide_spec b l e id : batch_wf W b -> at_id b l = Some id -> at_id b e = None -> (e < length (req_ids b))%nat -> exists b', slide l e b = Ok b' /\
  rearranged b b' /\ bt_shape <$> block_tables b' = bt_shape <$> block_tables b /\ length (req_ids b') = length (req_ids b) /\
  (forall j, at_id b' j = if decide (j = e) then Some id else if decide (j = l) then None else at_id b j) /\
  batch_update_builder b' = (if is_pooling_model b then batch_update_builder b else push_moved (l, e, UNIDIRECTIONAL) (batch_update_builder b)) /\ masks_kept b b'.
Proof.
  intros Hw Hl He Hlt. pose proof (at_id_lt b l id Hl) as Hll. destruct (iw_lists W b Hw) as [L1 L2 L3 L4 L5].
  destruct (at_row_some b l id (iw_lists W b Hw) Hl) as (from & out & spec & Hfrom & Hout & Hspec & _). destruct (lookup_lt_is_Some_2 (rows b) e) as [to Hto]; [lia|].
  destruct (mg_move_row_spec b l e (iw_tables W b Hw)) as (ts & Ets & T1 & T2 & T3 & T4 & T5); [lia|lia|]. pose proof Hl as Hl'. apply at_id_lookup in Hl'.
  exists (slid_batch l e id out spec from to ts b). split; [by apply slide_eq; [apply (iw_lists W b Hw)|..]|]. split; [by apply slid_rearranged|].
  destruct (slid_fields l e id out spec from to ts b) as (Ei & _ & _ & _ & _ & _ & Et & _ & _ & Eb). split_and!; [by rewrite Et|rewrite Ei; by rewrite !length_insert| |done|apply slid_masks; try done; lia].
  intros j. by apply slid_at_id.
Qed.

(** ** Condensing *)

Lemma largest_used_spec last empties : match largest_used last empties with
  | Some l => (l <= last)%nat /\ l ∉ empties /\ forall j, (l < j <= last)%nat -> j ∈ empties
  | None => forall j, (j <= last)%nat -> j ∈ empties
  end.
Proof.
  induction last as [|n IH]; cbn [largest_used]; case_decide as H.
  - intros j Hj. by replace j with 0%nat by lia.
  - split_and!; [lia|done|lia].
  - destruct (largest_used n empties) as [l|].
    + destruct IH as (I1 & I2 & I3). split_and!; [lia|done|]. intros j Hj. destruct (decide (j = S n)) as [->|]; [done|apply I3; lia].
    + intros j Hj. destruct (decide (j = S n)) as [->|]; [done|apply IH; lia].
  - split_and!; [lia|done|lia].
Qed.

(** Above [last] there is no request, and up to it every hole is still to be filled. *)
Record loop_inv (last : nat) (b : InputBatch) : Prop := {
  li_wf : batch_wf W b;
  li_builder : builder_ok (batch_update_builder b);
  li_holes : forall j, j ∈ holes b -> (j < length (req_ids b))%nat /\ at_id b j = None;
  li_below : forall j, (j <= last)%nat -> at_id b j = None -> j ∈ holes b;
  li_above : forall j, (last < j)%nat -> at_id b j = None;
  li_moves : moves_ok b;
}.
(** What condensing leaves as it was. *)
Record condensed (b b' : InputBatch) : Prop := {
  cn_same : forall x, (exists i, at_row b' i = Some x) <-> exists i, at_row b i = Some x;
  cn_const : batch_const b' = batch_const b;
  cn_ratios : bt_shape <$> block_tables b' = bt_shape <$> block_tables b;
  cn_added : added (batch_update_builder b') = added (batch_update_builder b);
  cn_range : rows_within (max_num_reqs b) (pending_update b) -> rows_within (max_num_reqs b') (pending_update b');
  cn_sync : forall T (new_state : Added -> option T) m0 told, is_pooling_model b = false ->
    in_sync new_state told (pending new_state m0 b) b -> in_sync new_state told (pending new_state m0 b') b';
  cn_quiet : is_pooling_model b = false -> holes b' = [] -> moved (batch_update_builder b') = [] ->
    holes b = [] /\ moved (batch_update_builder b) = [] /\ forall i, at_row b' i = at_row b i;
}.
Lemma condensed_trans b1 b2 b3 : condensed b1 b2 -> condensed b2 b3 -> condensed b1 b3.
Proof.
  intros H1 H2. split.
  - intros x. rewrite (cn_same _ _ H2 x). apply (cn_same _ _ H1).
  - rewrite (cn_const _ _ H2). apply (cn_const _ _ H1).
  - rewrite (cn_ratios _ _ H2). apply (cn_ratios _ _ H1).
  - rewrite (cn_added _ _ H2). apply (cn_added _ _ H1).
  - intros H. by apply (cn_range _ _ H2), (cn_range _ _ H1).
  - intros T ns m0 told Hp H. destruct (const_fields _ _ (cn_const _ _ H1)) as (Ep & _). apply (cn_sync _ _ H2); [congruence|]. by apply (cn_sync _ _ H1).
  - intros Hp A B. destruct (const_fields _ _ (cn_const _ _ H1)) as (Ep & _). destruct (cn_quiet _ _ H2) as (C & D & E); [congruence|done|done|].
    destruct (cn_quiet _ _ H1 Hp C D) as (F & G & H). split_and!; [done|done|]. intros i. by rewrite E.
Qed.

Lemma remove_effect_ext {T} (m : gmap nat T) R R' : (forall i, i ∈ R <-> i ∈ R') -> remove_effect m R = remove_effect m R'.
Proof. intros H. apply map_eq. intros i. rewrite !remove_effect_lookup. destruct (decide (i ∈ R)) as [Hi|Hi], (decide (i ∈ R')) as [Hi'|Hi']; try done; by rewrite H in Hi. Qed.
Lemma condensed_builder b bld : (forall i, i ∈ removed_rows bld <-> i ∈ holes b) -> added bld = added (batch_update_builder b) -> moved bld = moved (batch_update_builder b) ->
  condensed b (set_batch_update_builder bld b).
Proof.
  intros Hr Ha Hm. split; try (by destruct b).
  - intros (H1 & H2 & H3). unfold rows_within, pending_update, holes in *. cbn in *. rewrite Ha, Hm. split_and!; [done| |done]. intros i Hi. apply H2. by apply Hr.
  - intros T ns m0 told _ Hs i. specialize (Hs i). unfold pending, effect, pending_update, holes, entry_at in *. cbn in *. rewrite set_builder_at_id, Ha, Hm, <- Hs. f_equal. f_equal.
    by apply remove_effect_ext.
  - intros _ A B. replace (holes (set_batch_update_builder bld b)) with (removed_rows bld) in A by (by destruct b). replace (batch_update_builder (set_batch_update_builder bld b)) with bld in B by (by destruct b).
    split_and!; [|congruence|intros; apply set_builder_at_row]. destruct (holes b) as [|j l]; [done|]. assert (Hj : j ∈ removed_rows bld) by (apply Hr; by left). rewrite A in Hj. by apply elem_of_nil in Hj.
Qed.

(** The dict of a logits processor follows a request that slides. *)
Lemma slide_sync {T} (ns : Added -> option T) m0 told b b' l e id : at_id b l = Some id -> at_id b e = None -> moves_ok b -> is_pooling_model b = false ->
  (forall i, i ∈ holes b <-> i = e \/ i ∈ holes b') -> e ∈ holes b -> added (batch_update_builder b') = added (batch_update_builder b) ->
  moved (batch_update_builder b') = moved (batch_update_builder b) ++ [(l, e, UNIDIRECTIONAL)] ->
  (forall j, at_id b' j = if decide (j = e) then Some id else if decide (j = l) then None else at_id b j) ->
  in_sync ns told (pending ns m0 b) b -> in_sync ns told (pending ns m0 b') b'.
Proof.
  intros Hl He Hmv Hp Hh Hein Ha Hm Hid Hs i. assert (Hne : l <> e) by congruence. unfold entry_at. rewrite Hid. unfold pending, effect, pending_update. cbn [bu_added bu_removed bu_moved]. rewrite Ha, Hm.
  rewrite foldl_app. cbn [foldl]. rewrite move_effect_lookup by done. rewrite (decide_False (P := UNIDIRECTIONAL = SWAP)) by done.
  assert (Hagree : forall j, j <> e -> foldl move_effect (remove_effect (foldl (add_effect ns) m0 (added (batch_update_builder b))) (holes b')) (moved (batch_update_builder b)) !! j = entry_at ns told b j).
  { intros j Hj. rewrite <- (Hs j). unfold pending, effect, pending_update. cbn [bu_added bu_removed bu_moved]. apply moves_agree with (e := e).
    - intros x y d Hin. destruct (Hmv x y d Hin) as (M1 & M2 & M3). split_and!; [done|congruence|congruence].
    - intros k Hk. rewrite !remove_effect_lookup. destruct (decide (k ∈ holes b')) as [H1|H1], (decide (k ∈ holes b)) as [H2|H2]; try done; exfalso; rewrite Hh in H2; tauto.
    - done. }
  destruct (decide (i = e)) as [->|Hi]; [rewrite Hagree by done; unfold entry_at; by rewrite Hl|]. destruct (decide (i = l)); [done|]. by rewrite Hagree.
Qed.

Lemma loop_step last b l e bld : loop_inv last b -> (l <= last)%nat -> l ∉ holes b -> (forall j, (l < j <= last)%nat -> j ∈ holes b) -> (e < l)%nat -> e ∈ holes b ->
  (forall j, j ∈ holes b <-> j = e \/ j ∈ removed_rows bld) -> e ∉ removed_rows bld -> builder_ok bld -> added bld = added (batch_update_builder b) -> moved bld = moved (batch_update_builder b) ->
  exists b', slide l e (set_batch_update_builder bld b) = Ok b' /\ loop_inv (l - 1) b' /\ condensed b b' /\ length (req_ids b') = length (req_ids b) /\ holes b' = removed_rows bld /\ masks_kept b b'.
Proof.
  intros [Hw Hb Hh Hbelow Habove Hmv] Hl Hln Hup Hel He Hbld Hen Hbok Ha Hm. destruct (Hh e He) as [Helt Henone].
  destruct (at_id b l) as [id|] eqn:Hid; [|by destruct Hln; apply Hbelow].
  destruct (slide_spec (set_batch_update_builder bld b) l e id) as (b' & E & Hr & Hrat & Hlen & Hids & Hbu & Hmk); [by apply set_builder_wf|by rewrite set_builder_at_id|by rewrite set_builder_at_id|by destruct b|].
  assert (Hids' : forall j, at_id b' j = if decide (j = e) then Some id else if decide (j = l) then None else at_id b j) by (intros j; rewrite Hids; by rewrite set_builder_at_id). clear Hids.
  replace (is_pooling_model (set_batch_update_builder bld b)) with (is_pooling_model b) in Hbu by (by destruct b). replace (batch_update_builder (set_batch_update_builder bld b)) with bld in Hbu by (by destruct b).
  replace (length (req_ids (set_batch_update_builder bld b))) with (length (req_ids b)) in Hlen by (by destruct b). replace (block_tables (set_batch_update_builder bld b)) with (block_tables b) in Hrat by (by destruct b).
  assert (Hholes : holes b' = removed_rows bld) by (unfold holes; rewrite Hbu; by destruct (is_pooling_model b)).
  assert (Hadd : added (batch_update_builder b') = added (batch_update_builder b)) by (rewrite Hbu; by destruct (is_pooling_model b)).
  assert (Hmvd : moved (batch_update_builder b') = moved (batch_update_builder b) ++ (if is_pooling_model b then [] else [(l, e, UNIDIRECTIONAL)])) by (rewrite Hbu; destruct (is_pooling_model b); cbn; rewrite ?app_nil_r, Hm; done).
  destruct (iw_lists W b Hw) as [_ _ Hmax _ _]. pose proof (at_id_lt b l id Hid) as Hllt. pose proof (re_const _ _ Hr) as Hc. assert (Hc' : batch_const b' = batch_const b) by (rewrite Hc; by destruct b).
  assert (Hin : forall x y d, (x, y, d) ∈ moved (batch_update_builder b') -> (x, y, d) ∈ moved (batch_update_builder b) \/ (x = l /\ y = e)).
  { intros x y d Hx. rewrite Hmvd in Hx. apply elem_of_app in Hx as [?|Hx]; [by left|]. destruct (is_pooling_model b); [by apply elem_of_nil in Hx|]. apply list_elem_of_singleton in Hx. injection Hx as -> -> _. by right. }
  exists b'. split; [done|]. split; [split|split; [split|split; [done|split; [done|eapply masks_kept_trans; [apply set_builder_masks|done]]]]].
  - eapply rearranged_wf; [by apply set_builder_wf|done].
  - rewrite Hbu. by destruct (is_pooling_model b).
  - intros j Hj. rewrite Hholes in Hj. rewrite Hlen, Hids'. destruct (Hh j) as [? ?]; [apply Hbld; by right|]. split; [done|]. destruct (decide (j = e)) as [->|]; [done|]. by destruct (decide (j = l)).
  - intros j Hj. rewrite Hids', Hholes. destruct (decide (j = e)); [done|]. destruct (decide (j = l)) as [->|]; [lia|]. intros Hn. assert (Hin' : j ∈ holes b) by (apply Hbelow; [lia|done]). apply Hbld in Hin' as [?|?]; done.
  - intros j Hj. rewrite Hids'. destruct (decide (j = e)) as [->|]; [lia|]. destruct (decide (j = l)); [done|]. destruct (decide (j <= last)%nat); [|apply Habove; lia]. apply (Hh j), Hup. lia.
  - intros x y d Hx. rewrite Hholes. destruct (Hin x y d Hx) as [H|[-> ->]]; [destruct (Hmv x y d H) as (? & M1 & M2); rewrite Hbld in M1, M2; tauto|]. split_and!; [lia| |done]. intros H. apply Hln, Hbld. by right.
  - intros x. rewrite (re_same _ _ Hr x). by setoid_rewrite set_builder_at_row.
  - done.
  - done.
  - done.
  - intros (H1 & H2 & H3). destruct (const_fields _ _ Hc') as (_ & Emax & _). rewrite Emax. unfold rows_within, pending_update in *. cbn in *. rewrite Hadd, Hholes. split_and!; [done|intros j Hj; apply H2, Hbld; by right|].
    intros x y d Hx. destruct (Hin x y d Hx) as [H|[-> ->]]; [by apply (H3 x y d)|lia].
  - intros T ns m0 told Hp. rewrite Hp in Hmvd. apply (slide_sync ns m0 told b b' l e id); try done. intros j. rewrite Hholes. apply Hbld.
  - intros Hp _ Hm0. rewrite Hp in Hmvd. rewrite Hm0 in Hmvd. by destruct (moved (batch_update_builder b)).
Qed.

(** The requests fill the first [n] rows. *)
Definition packed (n : nat) (b : InputBatch) : Prop := (forall j, is_Some (at_id b j) <-> (j < n)%nat) /\ (forall j, j ∈ holes b -> (n <= j)%nat).

Lemma condensed_refl b : condensed b b.
Proof. by split. Qed.
(** Every turn fills a hole, so the loop ends. *)
Lemma condense_loop_spec fuel last b : loop_inv last b -> (length (holes b) < fuel)%nat -> exists b' n, condense_loop fuel last b = Ok b' /\
  batch_wf W b' /\ condensed b b' /\ length (req_ids b') = length (req_ids b) /\ packed n b' /\ moves_ok b' /\ builder_ok (batch_update_builder b') /\ masks_kept b b'.
Proof.
  revert last b. induction fuel as [|fuel IH]; intros last b Hinv Hfuel; [lia|]. pose proof Hinv as [Hw Hb Hh Hbelow Habove Hmv]. cbn [condense_loop]. fold (holes b).
  assert (Hdone : forall l, (l <= last)%nat -> (forall j, (l < j <= last)%nat -> j ∈ holes b) -> (forall j, j ∈ holes b -> (l < j)%nat) -> packed (S l) b).
  { intros l Hl Hup Hall. split; [|intros j Hj; apply Hall in Hj; lia]. intros j. split; intros H.
    - destruct (decide (j < S l)%nat); [done|]. destruct (decide (j <= last)%nat); [destruct (Hh j) as [_ Hn]; [apply Hup; lia|]|rewrite Habove in H by lia; by destruct H]. rewrite Hn in H. by destruct H.
    - destruct (at_id b j) eqn:E; [done|]. assert (Hj : j ∈ holes b) by (apply Hbelow; [lia|done]). apply Hall in Hj. lia. }
  destruct (decide (holes b = [])) as [Hem|Hne].
  { exists b, (S last). rewrite Hem. repeat (split; [done || apply condensed_refl|]). split; [|by split_and!]. apply Hdone; [lia|intros; lia|]. rewrite Hem. by intros j ?%elem_of_nil. }
  destruct (peek_removed_spec (batch_update_builder b) Hb Hne) as (e & Epeek & Hein & Hmin & Epop). fold (holes b) in Hein, Hmin.
  destruct (ensure_sorted_spec (batch_update_builder b) Hb) as (Hp & Hs & Hb2 & _ & Ha2 & Hm2 & _). set (bld := ensure_removed_sorted (batch_update_builder b)) in *. fold (holes b) in Hp.
  assert (Hsame : forall j, j ∈ removed_rows bld <-> j ∈ holes b) by (intros j; by rewrite Hp).
  assert (Hstop : forall n, packed n b -> exists b' n, Ok (set_batch_update_builder bld b) = Ok b' /\ batch_wf W b' /\ condensed b b' /\ length (req_ids b') = length (req_ids b) /\ packed n b' /\ moves_ok b' /\
    builder_ok (batch_update_builder b') /\ masks_kept b b').
  { intros n [P1 P2]. eexists _, n. split; [done|]. split; [by apply set_builder_wf|]. split; [by apply condensed_builder|]. split; [by destruct b|]. split; [|split; [|split; [by destruct b|apply set_builder_masks]]].
    - split; intros j; [rewrite set_builder_at_id; apply P1|]. intros Hj. apply P2, Hsame. by destruct b.
    - intros x y d Hx. replace (holes (set_batch_update_builder bld b)) with (removed_rows bld) by (by destruct b). replace (batch_update_builder (set_batch_update_builder bld b)) with bld in Hx by (by destruct b).
      rewrite !Hsame. rewrite Hm2 in Hx. by apply (Hmv x y d). }
  destruct (holes b) as [|h0 hs] eqn:Eholes; [done|]. rewrite <- Eholes in *. rewrite Epeek. cbn [of_option]. rewrite bind_ok. pose proof (largest_used_spec last (holes b)) as Hlu.
  destruct (largest_used last (holes b)) as [l|].
  - destruct Hlu as (Hl & Hln & Hup). destruct (Nat.leb_spec l e) as [Hle|Hlt].
    + apply Hstop with (n := S l). apply Hdone; [done|done|]. intros j Hj. pose proof (Hmin j Hj). assert (l <> e) by (intros ->; done). lia.
    + destruct (pop_removed_spec bld Hb2) as (e2 & bld2 & E2 & Hp2 & Hmin2 & Hb3 & Ha3 & Hm3 & _); [intros Hn; apply Permutation_length in Hp; rewrite Hn, Eholes in Hp; done|]. rewrite E2. cbn [snd].
      assert (e2 = e) as ->. { apply Nat.le_antisymm; [apply Hmin2, Hsame, Hein|apply Hmin, Hsame; rewrite Hp2; by left]. }
      destruct Hb2 as [Hnd _]. rewrite Hp2 in Hnd. apply NoDup_cons in Hnd as [Hnot _].
      destruct (loop_step last b l e bld2 Hinv Hl Hln Hup Hlt Hein) as (b1 & E1 & Hinv1 & Hc1 & Hlen1 & Hh1 & Hmk1); [intros j; rewrite <- Hsame, Hp2; apply elem_of_cons|done|done|congruence|congruence|].
      rewrite E1, bind_ok. destruct (IH (l - 1)%nat b1 Hinv1) as (b' & n & E & R1 & R2 & R3 & R4 & R5 & R6 & R7).
      { rewrite Hh1. apply Permutation_length in Hp2. apply Permutation_length in Hp. cbn in Hp2. lia. }
      exists b', n. split; [done|]. split; [done|]. split; [by eapply condensed_trans|]. split; [congruence|]. do 3 (split; [done|]). by eapply masks_kept_trans.
  - apply Hstop with (n := 0%nat). split; [|intros; lia]. intros j. split; [|lia]. intros H. destruct (decide (j <= last)%nat) as [Hj|]; [destruct (Hh j (Hlu j Hj)) as [_ Hn]; rewrite Hn in H; by destruct H|].
    rewrite Habove in H by lia. by destruct H.
Qed.

Lemma take_lookup {A} n (l : list A) i : take n l !! i = if decide (i < n)%nat then l !! i else None.
Proof. case_decide; [by apply lookup_take_lt|]. apply lookup_take_ge. lia. Qed.
Lemma trim_at_id n b j : at_id (trim_lists n b) j = if decide (j < n)%nat then at_id b j else None.
Proof. unfold trim_lists, at_id. destruct b. bsimp. rewrite take_lookup. by destruct (decide (j < n)%nat). Qed.
Lemma trim_at_row n b j : (forall j, is_Some (at_id b j) -> (j < n)%nat) -> at_row (trim_lists n b) j = at_row b j.
Proof.
  intros Hn. destruct (decide (j < n)%nat) as [Hj|Hj].
  - apply at_row_ext; try (by unfold trim_lists; destruct b; bsimp; rewrite ?take_lookup, ?decide_True by done).
    rewrite trim_at_id. by rewrite decide_True.
  - rewrite !at_row_none; [done| |rewrite trim_at_id; by rewrite decide_False]. destruct (at_id b j) eqn:E; [|done]. destruct Hj. apply Hn. by rewrite E.
Qed.
Lemma trim_spec n b : batch_wf W b -> packed n b -> rearranged b (trim_lists n b) /\ dense (trim_lists n b) /\ length (req_ids (trim_lists n b)) = n /\ forall j, at_id (trim_lists n b) j = at_id b j.
Proof.
  intros Hw [P1 P2]. assert (Hn : forall j, is_Some (at_id b j) -> (j < n)%nat) by (intros j; apply P1). pose proof (iw_lists W b Hw) as [L1 L2 L3 L4 L5].
  assert (Hle : (n <= length (req_ids b))%nat). { destruct n as [|n]; [lia|]. destruct (proj2 (P1 n)) as [id Hid]; [lia|]. apply at_id_lt in Hid. lia. }
  assert (Hid : forall j, at_id (trim_lists n b) j = at_id b j). { intros j. rewrite trim_at_id. case_decide; [done|]. destruct (at_id b j) eqn:E; [|done]. destruct H. apply Hn. by rewrite E. }
  assert (Hlen : length (req_ids (trim_lists n b)) = n) by (unfold trim_lists; destruct b; bsimp_all; rewrite length_take; lia). split_and!; [|intros j Hj; rewrite Hid; apply P1; lia|done|done]. split.
  - by destruct b.
  - intros id i. rewrite Hid. replace (req_id_to_index (trim_lists n b)) with (req_id_to_index b) by (by destruct b). apply (iw_index W b Hw).
  - split; unfold trim_lists; destruct b; bsimp_all; rewrite ?length_take; [lia|lia|lia|lia|]. intros i s Hi. by rewrite lookup_take_ge by lia.
  - intros i row. replace (rows (trim_lists n b)) with (rows b) by (by destruct b). apply (iw_rows W b Hw).
  - intros x. by setoid_rewrite (trim_at_row n b _ Hn).
  - replace (block_tables (trim_lists n b)) with (block_tables b) by (by destruct b). apply (iw_tables W b Hw).
  - intros i. rewrite Hid. replace (generators (trim_lists n b)) with (generators b) by (by destruct b). replace (bad_words (trim_lists n b)) with (bad_words b) by (by destruct b). apply (iw_dicts W b Hw).
  - by destruct b.
  - by destruct b.
  - by destruct b.
Qed.
Lemma trim_condensed n b : batch_wf W b -> packed n b -> condensed b (trim_lists n b).
Proof.
  intros Hw Hp. destruct (trim_spec n b Hw Hp) as (Hr & _ & _ & Hid). split; try (by destruct b); [apply (re_same _ _ Hr)| |].
  2: { intros _ A B. assert (Hn : forall j, is_Some (at_id b j) -> (j < n)%nat) by (intros j; apply (proj1 Hp)). split_and!; [by destruct b|by destruct b|intros; by apply trim_at_row]. }
  intros T ns m0 told _ Hs i. unfold entry_at. rewrite Hid. replace (pending ns m0 (trim_lists n b)) with (pending ns m0 b) by (by destruct b). apply Hs.
Qed.

Lemma num_same b b' : batch_wf W b -> batch_wf W b' -> (forall x, (exists i, at_row b' i = Some x) <-> exists i, at_row b i = Some x) -> num_reqs b' = num_reqs b.
Proof.
  intros Hw Hw' Hs. unfold num_reqs. rewrite <- !size_dom. f_equal. apply set_eq. intros id. rewrite !elem_of_dom.
  assert (H : forall b, batch_wf W b -> is_Some (req_id_to_index b !! id) <-> exists v i, at_row b i = Some (id, v)).
  { intros b1 H1. split.
    - intros [i Hi]. apply (iw_index W b1 H1) in Hi. destruct (at_row_views b1 i id (iw_lists W b1 H1) Hi) as [v Hv]. eauto.
    - intros (v & i & Hi). exists i. apply (iw_index W b1 H1). by eapply at_row_id. }
  rewrite (H b Hw), (H b' Hw'). split; intros [v Hv]; exists v; by apply Hs.
Qed.

(** [condense] closes all holes, and only moves requests. *)
Lemma condense_spec b : batch_wf W b -> editing b -> exists b', condense b = Ok b' /\ batch_wf W b' /\ condensed b b' /\ dense b' /\ moves_ok b' /\
  (forall j, j ∈ holes b' -> (length (req_ids b') <= j)%nat) /\ masks_kept b b'.
Proof.
  intros Hw Hed. pose proof (editing_count W b Hw Hed) as Hcount. fold (holes b) in Hcount. pose proof Hed as [Hb Hh Hm]. fold (holes b) in Hh. unfold condense. destruct (ensure_sorted_spec (batch_update_builder b) Hb) as (Hp & _ & Hb2 & _ & Ha2 & Hm2 & _).
  unfold removed. set (bld := ensure_removed_sorted (batch_update_builder b)) in *. fold (holes b) in Hp. set (b0 := set_batch_update_builder bld b).
  assert (Hw0 : batch_wf W b0) by (by apply set_builder_wf). assert (Hid0 : forall j, at_id b0 j = at_id b j) by (intros; apply set_builder_at_id).
  assert (Hlen0 : length (req_ids b0) = length (req_ids b)) by (by destruct b). assert (Hn0 : num_reqs b0 = num_reqs b) by (by destruct b). assert (Eh0 : holes b0 = removed_rows bld) by (by destruct b).
  assert (Hc0 : condensed b b0) by (apply condensed_builder; [intros i; by rewrite Hp|done|done]).
  assert (Hmv0 : moves_ok b0). { intros x y d Hx. replace (batch_update_builder b0) with bld in Hx by (by destruct b). rewrite Hm2, Hm in Hx. by apply elem_of_nil in Hx. }
  assert (Hin : forall j, j ∈ holes b0 <-> (j < length (req_ids b))%nat /\ at_id b j = None) by (intros j; by rewrite Eh0, Hp, Hh).
  assert (Hmk0 : masks_kept b b0) by apply set_builder_masks.
  assert (Hfin : forall b1 n, batch_wf W b1 -> condensed b b1 -> packed n b1 -> moves_ok b1 -> masks_kept b b1 -> exists b', Ok (trim_lists n b1) = Ok b' /\ batch_wf W b' /\ condensed b b' /\ dense b' /\ moves_ok b' /\
    (forall j, j ∈ holes b' -> (length (req_ids b') <= j)%nat) /\ masks_kept b b').
  { intros b1 n Hw1 Hc1 Hp1 Hmv1 Hmk1. destruct (trim_spec n b1 Hw1 Hp1) as (Hr & Hd & Hl & _). exists (trim_lists n b1). split; [done|]. split; [by eapply rearranged_wf|].
    split; [eapply condensed_trans; [done|by apply trim_condensed]|]. split; [done|]. rewrite Hl. destruct b1; split; [apply Hmv1|split; [apply (proj2 Hp1)|destruct Hmk1; by split]]. }
  pose proof (Permutation_length Hp) as Hpl. destruct (removed_rows bld) as [|e0 es] eqn:Ebld.
  { exists b0. split; [done|]. split; [done|]. split; [done|]. split; [|split; [done|split; [rewrite Eh0; by intros j ?%elem_of_nil|done]]]. intros j Hj. rewrite Hid0. destruct (at_id b j) eqn:E; [done|].
    assert (Hj' : j ∈ holes b0) by (apply Hin; split; [lia|done]). rewrite Eh0 in Hj'. by apply elem_of_nil in Hj'. }
  rewrite <- Ebld in *. clear Ebld. destruct (Nat.eqb_spec (num_reqs b) 0) as [Ez|Hnz].
  - change (set_req_ids [] (set_req_output_token_ids [] (set_spec_token_ids [] b0))) with (trim_lists 0 b0). apply Hfin; [done|done| |done|done]. split; [|intros; lia]. intros j. rewrite Hid0. split; [|lia].
    intros [id Hid]. apply (iw_index W b Hw) in Hid. unfold num_reqs in Ez. apply map_size_empty_iff in Ez. rewrite Ez, lookup_empty in Hid. done.
  - destruct (condense_loop_spec (S (length (removed_rows bld))) (num_reqs b + length (removed_rows bld) - 1) b0) as (b1 & n & E & Hw1 & Hc1 & Hl1 & Hp1 & Hmv1 & _ & Hmk1).
    + split; [done|by destruct b|intros j Hj; rewrite Hid0, Hlen0; by apply Hin|intros j Hj Hn; apply Hin; rewrite <- Hid0; split; [lia|done]| |done].
      intros j Hj. rewrite Hid0. unfold at_id. rewrite lookup_ge_None_2 by lia. done.
    + rewrite Eh0. lia.
    + rewrite E, bind_ok. replace (num_reqs b) with n; [apply Hfin; try done; [by eapply condensed_trans|by eapply masks_kept_trans]|]. rewrite <- Hn0.
      assert (Hsz : num_reqs b1 = n). { rewrite <- (rows_count b1 n []); [cbn; lia|apply (iw_index W b1 Hw1)|constructor| |apply (proj1 Hp1)].
        intros j. split; [by intros ?%elem_of_nil|]. intros [Hj Hn]. destruct (proj2 (proj1 Hp1 j) Hj) as [? Hs]. congruence. }
      rewrite <- Hsz, Hn0. apply num_same; [done|done|apply (cn_same _ _ (condensed_trans _ _ _ Hc0 Hc1))].
Qed.

(** ** Exchanging two requests *)

Definition swapped {A} (i j : nat) (x y : A) (l : list A) : list A := <[j := x]> (<[i := y]> l).
Lemma swap_at_eq {A} i j (l : list A) x y : l !! i = Some x -> l !! j = Some y -> swap_at i j l = Ok (swapped i j x y l).
Proof. intros H1 H2. unfold swap_at. rewrite H1, H2. done. Qed.
Lemma swapped_lookup {A} i j (l : list A) x y k : i <> j -> (i < length l)%nat -> (j < length l)%nat -> swapped i j x y l !! k = if decide (k = i) then Some y else if decide (k = j) then Some x else l !! k.
Proof. intros Hne Hi Hj. unfold swapped. rewrite insert_lookup by (by rewrite length_insert). rewrite insert_lookup by done. repeat case_decide; congruence. Qed.
Lemma swap_dict_lookup {A} (m : gmap nat A) i j k : i <> j -> swap_dict_values m i j !! k = if decide (k = i) then m !! j else if decide (k = j) then m !! i else m !! k.
Proof. intros Hne. unfold swap_dict_values. destruct (m !! i) eqn:Ei, (m !! j) eqn:Ej; repeat case_decide; subst; simplify_map_eq; done. Qed.

Definition swapped_rows (i1 i2 : nat) (r1 r2 : Row) (b : InputBatch) : list Row :=
  let p := is_pooling_model b in
  let mask1 := if p then allowed_mask r1 else if mask_allocated b then allowed_mask r2 else allowed_mask r1 in
  swapped i1 i2 (move_fields p (token_ids r1) (is_token_ids r1) (allowed_mask r2) r1 r2) (move_fields p (token_ids r2) (is_token_ids r2) mask1 r2 r1) (rows b).
Definition swapped_batch (i1 i2 : nat) (id1 id2 : string) (o1 o2 : option Z) (s1 s2 : list Z) (r1 r2 : Row) (ts : list BlockTable) (b : InputBatch) : InputBatch :=
  let b1 := set_req_ids (swapped i1 i2 (Some id1) (Some id2) (req_ids b)) (set_req_output_token_ids (swapped i1 i2 o1 o2 (req_output_token_ids b))
              (set_spec_token_ids (swapped i1 i2 s1 s2 (spec_token_ids b)) (set_req_id_to_index (<[id2 := i1]> (<[id1 := i2]> (req_id_to_index b))) b))) in
  let b2 := set_rows (swapped_rows i1 i2 r1 r2 b) (set_req_prompt_embeds (swap_dict_values (req_prompt_embeds b) i1 i2) (set_block_tables ts b1)) in
  if is_pooling_model b then b2
  else set_batch_update_builder (push_moved (i1, i2, SWAP) (batch_update_builder b))
         (set_generators (swap_dict_values (generators b) i1 i2) (set_bad_words (swap_dict_values (bad_words b) i1 i2) b2)).

Lemma swapped_fields b i1 i2 id1 id2 o1 o2 s1 s2 r1 r2 ts : let b' := swapped_batch i1 i2 id1 id2 o1 o2 s1 s2 r1 r2 ts b in
  req_ids b' = swapped i1 i2 (Some id1) (Some id2) (req_ids b) /\ req_output_token_ids b' = swapped i1 i2 o1 o2 (req_output_token_ids b) /\
  spec_token_ids b' = swapped i1 i2 s1 s2 (spec_token_ids b) /\ req_id_to_index b' = <[id2 := i1]> (<[id1 := i2]> (req_id_to_index b)) /\
  rows b' = swapped_rows i1 i2 r1 r2 b /\ req_prompt_embeds b' = swap_dict_values (req_prompt_embeds b) i1 i2 /\ block_tables b' = ts /\
  generators b' = (if is_pooling_model b then generators b else swap_dict_values (generators b) i1 i2) /\ bad_words b' = (if is_pooling_model b then bad_words b else swap_dict_values (bad_words b) i1 i2) /\
  batch_update_builder b' = (if is_pooling_model b then batch_update_builder b else push_moved (i1, i2, SWAP) (batch_update_builder b)).
Proof. unfold swapped_batch. destruct b, is_pooling_model; by split_and!. Qed.
Lemma swapped_same b i1 i2 id1 id2 o1 o2 s1 s2 r1 r2 ts : let b' := swapped_batch i1 i2 id1 id2 o1 o2 s1 s2 r1 r2 ts b in
  is_pooling_model b' = is_pooling_model b /\ max_num_reqs b' = max_num_reqs b /\ vocab_size b' = vocab_size b /\
  id_sets b' = id_sets b /\ num_logprobs b' = num_logprobs b /\ mask_allocated b' = mask_allocated b /\ pooling_params b' = pooling_params b /\ pooling_states b' = pooling_states b /\
  lora_id_to_request_ids b' = lora_id_to_request_ids b /\ lora_id_to_lora_request b' = lora_id_to_lora_request b.
Proof. unfold swapped_batch. destruct b, is_pooling_model; by split_and!. Qed.

Section Swap.
Context (b : InputBatch) (i1 i2 : nat) (id1 id2 : string) (o1 o2 : option Z) (s1 s2 : list Z) (r1 r2 : Row) (ts : list BlockTable).
Hypotheses (Hw : batch_wf W b) (Hne : i1 <> i2) (H1 : at_id b i1 = Some id1) (H2 : at_id b i2 = Some id2).
Hypotheses (Ho1 : req_output_token_ids b !! i1 = Some o1) (Ho2 : req_output_token_ids b !! i2 = Some o2) (Hs1 : spec_token_ids b !! i1 = Some s1) (Hs2 : spec_token_ids b !! i2 = Some s2).
Hypotheses (Hr1 : rows b !! i1 = Some r1) (Hr2 : rows b !! i2 = Some r2).
Hypotheses (Ets : mg_swap_row i1 i2 (block_tables b) = Ok ts) (Tok : forall t, t ∈ ts -> table_ok b t) (Tlen : length ts = length (block_tables b)).
Hypotheses (T1 : (fun t => row_ids t i1) <$> ts = (fun t => row_ids t i2) <$> block_tables b) (T2 : (fun t => row_ids t i2) <$> ts = (fun t => row_ids t i1) <$> block_tables b).
Hypothesis Tj : forall j, j <> i1 -> j <> i2 -> (fun t => row_ids t j) <$> ts = (fun t => row_ids t j) <$> block_tables b.
Notation b' := (swapped_batch i1 i2 id1 id2 o1 o2 s1 s2 r1 r2 ts b).

Lemma swap_states_eq : swap_states i1 i2 b = Ok b'.
Proof.
  pose proof H1 as L1. pose proof H2 as L2. apply at_id_lookup in L1, L2. pose proof (proj2 (iw_index W b Hw id1 i1) H1) as X1. pose proof (proj2 (iw_index W b Hw id2 i2) H2) as X2.
  unfold swap_states. rewrite L1, L2.
  repeat (cbn [of_option]; first [rewrite bind_ok|rewrite (swap_at_eq i1 i2 _ _ _ L1 L2)|rewrite (swap_at_eq i1 i2 _ _ _ Ho1 Ho2)|rewrite (swap_at_eq i1 i2 _ _ _ Hs1 Hs2)|rewrite X1|rewrite X2
    |rewrite (get_row_ok _ _ _ Hr1)|rewrite (get_row_ok _ _ _ Hr2)|rewrite Ets]).
  unfold swapped_batch, swapped_rows, swapped. by destruct b, is_pooling_model.
Qed.
Lemma swapped_at_id j : at_id b' j = if decide (j = i1) then Some id2 else if decide (j = i2) then Some id1 else at_id b j.
Proof.
  destruct (swapped_fields b i1 i2 id1 id2 o1 o2 s1 s2 r1 r2 ts) as (E & _). unfold at_id. rewrite E. pose proof (at_id_lt b i1 id1 H1). pose proof (at_id_lt b i2 id2 H2). rewrite swapped_lookup by done. repeat case_decide; done.
Qed.
Lemma swapped_view j k id out spec row row' : at_id b k = Some id -> rows b !! k = Some row -> req_output_token_ids b !! k = Some out -> spec_token_ids b !! k = Some spec ->
  at_id b' j = Some id -> rows b' !! j = Some row' -> req_output_token_ids b' !! j = Some out -> spec_token_ids b' !! j = Some spec ->
  (fun t => row_ids t j) <$> block_tables b' = (fun t => row_ids t k) <$> block_tables b -> req_prompt_embeds b' !! j = req_prompt_embeds b !! k ->
  (is_pooling_model b = false -> generators b' !! j = generators b !! k /\ bad_words b' !! j = bad_words b !! k) ->
  (exists mask to, row' = move_fields (is_pooling_model b) (token_ids row) (is_token_ids row) mask row to) -> at_row b' j = at_row b k.
Proof.
  intros A1 A2 A3 A4 B1 B2 B3 B4 C1 C2 C3 (mask & to & ->). destruct (swapped_same b i1 i2 id1 id2 o1 o2 s1 s2 r1 r2 ts) as (Ep & _ & _ & Esets & Elp & _ & Epp & Eps & _). unfold at_row. rewrite A1, A2, A3, A4, B1, B2, B3, B4. cbn. f_equal. f_equal.
  unfold view_of, known_tokens, params_of, flags_of. rewrite C1, C2, Ep, Esets, Elp, Epp, Eps. unfold row_scalars. cbn. destruct (is_pooling_model b); [done|]. by destruct C3 as [-> ->].
Qed.
Lemma swapped_at_row j : at_row b' j = if decide (j = i1) then at_row b i2 else if decide (j = i2) then at_row b i1 else at_row b j.
Proof.
  pose proof (at_id_lt b i1 id1 H1) as Hl1. pose proof (at_id_lt b i2 id2 H2) as Hl2. destruct (iw_lists W b Hw) as [L1 L2 L3 L4 L5].
  destruct (swapped_fields b i1 i2 id1 id2 o1 o2 s1 s2 r1 r2 ts) as (Ei & Eo & Es & Ex & Er & Ee & Et & Eg & Eb & _). destruct (swapped_same b i1 i2 id1 id2 o1 o2 s1 s2 r1 r2 ts) as (Ep & _ & _ & Esets & Elp & _ & Epp & Eps & _). pose proof swapped_at_id as Hid.
  assert (Hsr : forall k, rows b' !! k = if decide (k = i1) then Some (move_fields (is_pooling_model b) (token_ids r2) (is_token_ids r2) (if is_pooling_model b then allowed_mask r1 else if mask_allocated b then allowed_mask r2 else allowed_mask r1) r2 r1)
    else if decide (k = i2) then Some (move_fields (is_pooling_model b) (token_ids r1) (is_token_ids r1) (allowed_mask r2) r1 r2) else rows b !! k) by (intros k; rewrite Er; unfold swapped_rows; by rewrite swapped_lookup by lia).
  assert (Hd : is_pooling_model b = false -> forall k, generators b' !! k = (if decide (k = i1) then generators b !! i2 else if decide (k = i2) then generators b !! i1 else generators b !! k) /\
    bad_words b' !! k = (if decide (k = i1) then bad_words b !! i2 else if decide (k = i2) then bad_words b !! i1 else bad_words b !! k)).
  { intros Hp k. rewrite Eg, Eb, Hp. by rewrite !swap_dict_lookup by done. }
  destruct (decide (j = i1)) as [->|Hj1]; [|destruct (decide (j = i2)) as [->|Hj2]].
  - eapply (swapped_view i1 i2 id2 o2 s2 r2); [done|done|done|done| | | | | | |intros Hp; destruct (Hd Hp i1) as [-> ->]; by rewrite !decide_True|]; cycle 6; [eexists _, _; reflexivity|..].
    + rewrite Hid. by rewrite decide_True.
    + rewrite Hsr. by rewrite decide_True.
    + rewrite Eo, swapped_lookup by lia. by rewrite decide_True.
    + rewrite Es, swapped_lookup by lia. by rewrite decide_True.
    + by rewrite Et.
    + rewrite Ee, swap_dict_lookup by done. by rewrite decide_True.
  - eapply (swapped_view i2 i1 id1 o1 s1 r1); [done|done|done|done| | | | | | |intros Hp; destruct (Hd Hp i2) as [-> ->]; by destruct (decide (i2 = i1)); [|rewrite !decide_True]|]; cycle 6; [eexists _, _; reflexivity|..].
    + rewrite Hid. destruct (decide (i2 = i1)); [done|]. by rewrite decide_True.
    + rewrite Hsr. destruct (decide (i2 = i1)); [done|]. by rewrite decide_True.
    + rewrite Eo, swapped_lookup by lia. destruct (decide (i2 = i1)); [done|]. by rewrite decide_True.
    + rewrite Es, swapped_lookup by lia. destruct (decide (i2 = i1)); [done|]. by rewrite decide_True.
    + by rewrite Et.
    + rewrite Ee, swap_dict_lookup by done. destruct (decide (i2 = i1)); [done|]. by rewrite decide_True.
  - apply at_row_ext.
    + rewrite Hid. by destruct (decide (j = i1)), (decide (j = i2)).
    + rewrite Hsr. by destruct (decide (j = i1)), (decide (j = i2)).
    + rewrite Eo, swapped_lookup by lia. by destruct (decide (j = i1)), (decide (j = i2)).
    + rewrite Es, swapped_lookup by lia. by destruct (decide (j = i1)), (decide (j = i2)).
    + rewrite Et. by apply Tj.
    + rewrite Ee, swap_dict_lookup by done. by destruct (decide (j = i1)), (decide (j = i2)).
    + intros id row _ _. unfold params_of, flags_of. rewrite Ep, Esets, Elp, Epp, Eps. destruct (is_pooling_model b) eqn:Epool; [done|]. destruct (Hd eq_refl j) as [-> ->].
      by destruct (decide (j = i1)), (decide (j = i2)).
Qed.

Lemma swapped_rearranged : rearranged b b'.
Proof.
  pose proof (at_id_lt b i1 id1 H1) as Hl1. pose proof (at_id_lt b i2 id2 H2) as Hl2. destruct (iw_lists W b Hw) as [L1 L2 L3 L4 L5]. pose proof swapped_at_id as Hid. pose proof swapped_at_row as Hrow.
  destruct (swapped_fields b i1 i2 id1 id2 o1 o2 s1 s2 r1 r2 ts) as (Ei & Eo & Es & Ex & Er & Ee & Et & Eg & Eb & _). destruct (swapped_same b i1 i2 id1 id2 o1 o2 s1 s2 r1 r2 ts) as (Ep & Em & Ev & Esets & Elp & Emask & Epp & Eps & El & Eq).
  assert (Hids : id1 <> id2) by (intros E; apply Hne; eapply index_inj; [done|exact H1|congruence]).
  assert (Hlen : forall A (x y : A) (l : list A), length (swapped i1 i2 x y l) = length l) by (intros; unfold swapped; by rewrite !length_insert). split.
  - unfold batch_const. by rewrite Ep, Em, Ev, Et, Tlen.
  - intros id i. rewrite Ex, Hid. pose proof (iw_index W b Hw id i) as HI. destruct (decide (id = id2)) as [->|Hn2]; [|destruct (decide (id = id1)) as [->|Hn1]].
    + rewrite lookup_insert_eq. destruct (decide (i = i1)) as [->|]; [done|]. destruct (decide (i = i2)) as [->|]; [split; congruence|]. split; [congruence|]. intros H. destruct n0. by eapply index_inj.
    + rewrite lookup_insert_ne, lookup_insert_eq by done. destruct (decide (i = i1)) as [->|]; [split; congruence|]. destruct (decide (i = i2)) as [->|]; [done|]. split; [congruence|]. intros H. destruct n. by eapply index_inj.
    + rewrite !lookup_insert_ne by done. rewrite HI. destruct (decide (i = i1)) as [->|]; [split; congruence|]. destruct (decide (i = i2)) as [->|]; [split; congruence|done].
  - split; rewrite ?Eo, ?Es, ?Ei, ?Er, ?Em; unfold swapped_rows; rewrite ?Hlen; [lia|lia|lia|lia|]. intros i s Hi. unfold swapped. rewrite !list_lookup_insert_ne by lia. by apply L5.
  - intros i row. rewrite Er. unfold swapped_rows. rewrite swapped_lookup by lia. destruct (iw_rows W b Hw i1 r1 Hr1), (iw_rows W b Hw i2 r2 Hr2).
    destruct (decide (i = i1)); [intros [= <-]; by cbn|]. destruct (decide (i = i2)); [intros [= <-]; by cbn|]. apply (iw_rows W b Hw).
  - intros x. split; intros [i Hi].
    + rewrite Hrow in Hi. destruct (decide (i = i1)); [eauto|]. destruct (decide (i = i2)); eauto.
    + destruct (decide (i = i1)) as [->|]; [exists i2; rewrite Hrow; destruct (decide (i2 = i1)); [done|by rewrite decide_True]|].
      destruct (decide (i = i2)) as [->|]; [exists i1; rewrite Hrow; by rewrite decide_True|]. exists i. rewrite Hrow. by destruct (decide (i = i1)), (decide (i = i2)).
  - by rewrite Et.
  - intros i. rewrite Eg, Eb, Hid. destruct (is_pooling_model b) eqn:Epool; [intros H; apply (iw_dicts W b Hw) in H as [H _]; congruence|]. rewrite !swap_dict_lookup by done. intros H. split; [done|].
    destruct (decide (i = i1)); [done|]. destruct (decide (i = i2)); [done|]. by apply (iw_dicts W b Hw).
  - done.
  - done.
  - done.
Qed.
End Swap.

(** The dict of a logits processor follows two requests that change places. *)
Lemma swap_sync {T} (ns : Added -> option T) m0 told b b' i1 i2 id1 id2 : i1 <> i2 -> at_id b i1 = Some id1 -> at_id b i2 = Some id2 ->
  holes b' = holes b -> added (batch_update_builder b') = added (batch_update_builder b) -> moved (batch_update_builder b') = moved (batch_update_builder b) ++ [(i1, i2, SWAP)] ->
  (forall j, at_id b' j = if decide (j = i1) then Some id2 else if decide (j = i2) then Some id1 else at_id b j) ->
  in_sync ns told (pending ns m0 b) b -> in_sync ns told (pending ns m0 b') b'.
Proof.
  intros Hne H1 H2 Hh Ha Hm Hid Hs i. unfold entry_at. rewrite Hid. unfold pending, effect, pending_update. cbn [bu_added bu_removed bu_moved]. rewrite Ha, Hm, Hh, foldl_app. cbn [foldl].
  rewrite move_effect_lookup by done. rewrite (decide_True (P := SWAP = SWAP)) by done. unfold in_sync, pending, effect, pending_update in Hs. cbn [bu_added bu_removed bu_moved] in Hs. rewrite !Hs. unfold entry_at. rewrite H1, H2.
  destruct (decide (i = i2)) as [->|]; [by destruct (decide (i2 = i1))|]. by destruct (decide (i = i1)).
Qed.
(** Two requests change places; their views do not change. *)
Lemma swap_states_spec b i1 i2 : batch_wf W b -> dense b -> moves_ok b -> (forall j, j ∈ holes b -> (length (req_ids b) <= j)%nat) -> i1 <> i2 ->
  (i1 < length (req_ids b))%nat -> (i2 < length (req_ids b))%nat -> exists b', swap_states i1 i2 b = Ok b' /\ batch_wf W b' /\ condensed b b' /\ dense b' /\ moves_ok b' /\
  length (req_ids b') = length (req_ids b) /\ holes b' = holes b /\ forall j, at_row b' j = if decide (j = i1) then at_row b i2 else if decide (j = i2) then at_row b i1 else at_row b j.
Proof.
  intros Hw Hd Hmv Hh Hne Hl1 Hl2. destruct (Hd i1 Hl1) as [id1 H1]. destruct (Hd i2 Hl2) as [id2 H2]. destruct (iw_lists W b Hw) as [L1 L2 L3 L4 L5].
  destruct (at_row_some b i1 id1 (iw_lists W b Hw) H1) as (r1 & o1 & s1 & Hr1 & Ho1 & Hs1 & _). destruct (at_row_some b i2 id2 (iw_lists W b Hw) H2) as (r2 & o2 & s2 & Hr2 & Ho2 & Hs2 & _).
  destruct (mg_swap_row_spec b i1 i2 (iw_tables W b Hw)) as (ts & Ets & T1 & T2 & T3 & T4 & T5 & T6); [lia|lia|]. set (b' := swapped_batch i1 i2 id1 id2 o1 o2 s1 s2 r1 r2 ts b).
  destruct (swapped_fields b i1 i2 id1 id2 o1 o2 s1 s2 r1 r2 ts) as (Ei & _ & _ & _ & _ & _ & Et & _ & _ & Eb). fold b' in Ei, Et, Eb.
  assert (Hr : rearranged b b') by (by apply swapped_rearranged). assert (Hlen : length (req_ids b') = length (req_ids b)) by (rewrite Ei; unfold swapped; by rewrite !length_insert).
  assert (Hid : forall j, at_id b' j = if decide (j = i1) then Some id2 else if decide (j = i2) then Some id1 else at_id b j) by (by apply swapped_at_id).
  assert (Hho : holes b' = holes b) by (unfold holes; rewrite Eb; by destruct (is_pooling_model b)). assert (Ha : added (batch_update_builder b') = added (batch_update_builder b)) by (rewrite Eb; by destruct (is_pooling_model b)).
  assert (Hin : forall x y d, (x, y, d) ∈ moved (batch_update_builder b') -> (x, y, d) ∈ moved (batch_update_builder b) \/ (x = i1 /\ y = i2)).
  { intros x y d. rewrite Eb. destruct (is_pooling_model b); [by left|]. cbn. intros [?|Hx]%elem_of_app; [by left|]. apply list_elem_of_singleton in Hx. injection Hx as -> -> _. by right. }
  exists b'. split; [by apply swap_states_eq|]. split; [by eapply rearranged_wf|]. split; [split|].
  - apply (re_same _ _ Hr).
  - apply (re_const _ _ Hr).
  - by rewrite Et.
  - done.
  - intros (A & B & C). destruct (const_fields _ _ (re_const _ _ Hr)) as (_ & Emax & _). rewrite Emax. unfold rows_within, pending_update in *. cbn in *. rewrite Ha, Hho. split_and!; [done|done|].
    intros x y d Hx. destruct (Hin x y d Hx) as [H|[-> ->]]; [by apply (C x y d)|lia].
  - intros T ns m0 told Hp. rewrite Hp in Eb. eapply swap_sync; try done. by rewrite Eb.
  - intros Hp _ Hm0. rewrite Eb, Hp in Hm0. cbn in Hm0. by destruct (moved (batch_update_builder b)).
  - split; [|split; [|split; [done|split; [done|by apply swapped_at_row]]]].
    + intros j Hj. rewrite Hlen in Hj. rewrite Hid. destruct (decide (j = i1)); [done|]. destruct (decide (j = i2)); [done|by apply Hd].
    + intros x y d Hx. rewrite Hho. destruct (Hin x y d Hx) as [H|[-> ->]]; [by apply (Hmv x y d)|]. split; [done|]. split; intros H%Hh; lia.
Qed.
End Move.
