(* ===== verification/InputBatchUpdate.v ===== *)
(** * Updating the row of a request

    The draft tokens, counts, blocks and sampled tokens of a request that stays in its row:
    [update_req_spec_token_ids], and what the model runner writes itself. *)
From S2P Require Import Prelude Request BlockTable BlockTableProps BatchUpdate BatchUpdateProps InputBatch ModelRunner InputBatchView InputBatchProps InputBatchAdd InputBatchMove.
From Stdlib Require Import QArith.QArith.
Open Scope Z_scope.

Section Update.
Context (W : nat).

(** ** One row, its drafts and its blocks *)

Definition rewritten (i : nat) (row : Row) (spec : list Z) (ts : list BlockTable) (b : InputBatch) : InputBatch :=
  set_block_tables ts (set_spec_token_ids (<[i := spec]> (spec_token_ids b)) (set_row i row b)).
(** The view of the rewritten row. *)
Definition new_view (b : InputBatch) (i : nat) (id : string) (row : Row) (spec : list Z) (ts : list BlockTable) (out : option Z) : View :=
  view_of (rewritten i row spec ts b) i id row out spec.
Record rewrite_ok (b : InputBatch) (i : nat) (old row : Row) (ts : list BlockTable) : Prop := {
  rw_row : rows b !! i = Some old;
  rw_scalars : row_scalars row = row_scalars old;
  rw_lora : lora_mapping row = lora_mapping old;
  rw_lengths : length (token_ids row) = W /\ length (is_token_ids row) = W;
  rw_count : 0 <= num_tokens_no_spec row <= Z.of_nat W;
  rw_known : None ∈ known_tokens row -> None ∈ known_tokens old;
  rw_tables : forall t, t ∈ ts -> table_ok b t;
  rw_ratios : bt_shape <$> ts = bt_shape <$> block_tables b;
  rw_others : forall j, j <> i -> (fun t => row_ids t j) <$> ts = (fun t => row_ids t j) <$> block_tables b;
}.
(** What else the batch is made of. *)
Definition rest_of (b : InputBatch) := (batch_const b, req_ids b, req_id_to_index b, req_output_token_ids b, batch_update_builder b, bt_shape <$> block_tables b).

Lemma rewritten_fields i row spec ts b : let b' := rewritten i row spec ts b in
  req_ids b' = req_ids b /\ req_id_to_index b' = req_id_to_index b /\ req_output_token_ids b' = req_output_token_ids b /\ spec_token_ids b' = <[i := spec]> (spec_token_ids b) /\
  rows b' = <[i := row]> (rows b) /\ req_prompt_embeds b' = req_prompt_embeds b /\ block_tables b' = ts /\ batch_update_builder b' = batch_update_builder b /\
  is_pooling_model b' = is_pooling_model b /\ max_num_reqs b' = max_num_reqs b /\ vocab_size b' = vocab_size b.
Proof. by destruct b. Qed.
Lemma rewritten_params i row spec ts b j id r : params_of (rewritten i row spec ts b) j id r = params_of b j id r.
Proof. by destruct b. Qed.
Lemma rewritten_at_id i row spec ts b j : at_id (rewritten i row spec ts b) j = at_id b j.
Proof. by destruct b. Qed.

Section Rewrite.
Context (b : InputBatch) (i : nat) (id : string) (old row : Row) (spec0 spec : list Z) (out : option Z) (ts : list BlockTable).
Hypotheses (Hw : batch_wf W b) (Hi : at_id b i = Some id) (Hok : rewrite_ok b i old row ts).
Hypotheses (Hout : req_output_token_ids b !! i = Some out) (Hspec : spec_token_ids b !! i = Some spec0).
Notation b' := (rewritten i row spec ts b).

Lemma rewritten_rest : rest_of b' = rest_of b.
Proof.
  destruct (rewritten_fields i row spec ts b) as (E1 & E2 & E3 & E4 & E5 & E6 & E7 & E8 & E9 & E10 & E11). unfold rest_of, batch_const. rewrite E1, E2, E3, E7, E8, E9, E10, E11, (rw_ratios _ _ _ _ _ Hok).
  pose proof (f_equal length (rw_ratios _ _ _ _ _ Hok)) as Hl. rewrite !length_fmap in Hl. by rewrite Hl.
Qed.
Lemma rewritten_at_row j : at_row b' j = if decide (i = j) then Some (id, new_view b i id row spec ts out) else at_row b j.
Proof.
  destruct (rewritten_fields i row spec ts b) as (E1 & E2 & E3 & E4 & E5 & E6 & E7 & E8 & E9 & E10 & E11). pose proof (lookup_lt_Some _ _ _ (rw_row _ _ _ _ _ Hok)). pose proof (lookup_lt_Some _ _ _ Hspec).
  destruct (decide (i = j)) as [<-|Hne].
  - unfold at_row, new_view. rewrite rewritten_at_id, Hi, E3, E4, E5, Hout, !list_lookup_insert_eq by done. done.
  - apply at_row_ext.
    + apply rewritten_at_id.
    + rewrite E5. by rewrite list_lookup_insert_ne.
    + by rewrite E3.
    + rewrite E4. by rewrite list_lookup_insert_ne.
    + rewrite E7. apply (rw_others _ _ _ _ _ Hok). congruence.
    + by rewrite E6.
    + intros. apply rewritten_params.
Qed.
Lemma old_view : at_row b i = Some (id, view_of b i id old out spec0).
Proof. unfold at_row. by rewrite Hi, (rw_row _ _ _ _ _ Hok), Hout, Hspec. Qed.
Lemma new_view_fields : let v := new_view b i id row spec ts out in let v0 := view_of b i id old out spec0 in
  v_tokens v = known_tokens row /\ v_num_tokens v = num_tokens_no_spec row /\ v_spec v = spec /\ v_drafts v = take (length spec) (drop (Z.to_nat (num_tokens_no_spec row)) (token_ids row)) /\
  v_num_prompt v = num_prompt_tokens row /\ v_num_computed v = num_computed_tokens row /\ v_output v = v_output v0 /\ v_lora v = v_lora v0 /\
  v_blocks v = (fun t => row_ids t i) <$> ts /\ v_params v = v_params v0 /\ v_embeds v = (if decide (None ∈ known_tokens row) then v_embeds v0 else None).
Proof.
  destruct (rewritten_fields i row spec ts b) as (E1 & E2 & E3 & E4 & E5 & E6 & E7 & E8 & E9 & E10 & E11). cbn zeta. unfold new_view, view_of. cbn [v_tokens v_num_tokens v_num_prompt v_num_computed v_output v_spec v_drafts v_blocks v_lora v_embeds v_params]. rewrite E6, E7, rewritten_params, (rw_lora _ _ _ _ _ Hok).
  unfold params_of. rewrite (rw_scalars _ _ _ _ _ Hok). repeat (split; [done|]). destruct (decide (None ∈ known_tokens row)) as [HN|]; [|done].
  rewrite (decide_True (P := None ∈ known_tokens old)) by (by apply (rw_known _ _ _ _ _ Hok)). done.
Qed.
Lemma rewritten_wf : batch_wf W b'.
Proof.
  destruct (rewritten_fields i row spec ts b) as (E1 & E2 & E3 & E4 & E5 & E6 & E7 & E8 & E9 & E10 & E11). pose proof rewritten_at_row as Hrow. pose proof (fun j => rewritten_at_id i row spec ts b j) as Hid.
  destruct new_view_fields as (V1 & V2 & V3 & V4 & V5 & V6 & V7 & V8 & V9 & V10 & V11). pose proof old_view as Hold. pose proof (at_id_lt b i id Hi) as Hlt. destruct (iw_lists W b Hw) as [L1 L2 L3 L4 L5]. split.
  - intros id' j. rewrite E2, Hid. apply (iw_index W b Hw).
  - split; rewrite ?E1, ?E3, ?E4, ?E5, ?E10, ?length_insert; [lia|lia|lia|lia|]. intros j s Hj. rewrite list_lookup_insert_ne by lia. by apply L5.
  - intros j r. rewrite E5. intros H. rewrite insert_lookup in H by lia. destruct (decide (i = j)); [injection H as <-; apply (rw_lengths _ _ _ _ _ Hok)|by apply (iw_rows W b Hw j)].
  - intros j id' v. rewrite Hrow. destruct (decide (i = j)); [|apply (iw_fit W b Hw)]. intros [= <- <-]. rewrite V2. apply (rw_count _ _ _ _ _ Hok).
  - intros j id' v. rewrite Hrow. destruct (decide (i = j)); [|apply (iw_embeds W b Hw)]. intros [= <- <-]. rewrite V1, V11. intros HN. rewrite decide_True by done.
    pose proof (iw_embeds W b Hw i id _ Hold) as H. cbn in H. apply H. by apply (rw_known _ _ _ _ _ Hok).
  - intros t. rewrite E7. unfold table_ok. rewrite E10. apply (rw_tables _ _ _ _ _ Hok).
  - intros j. rewrite Hid, E9. replace (generators b') with (generators b) by (by destruct b). replace (bad_words b') with (bad_words b) by (by destruct b). apply (iw_dicts W b Hw).
  - intros id'. rewrite E9. setoid_rewrite Hid. replace (id_sets b') with (id_sets b) by (by destruct b). replace (num_logprobs b') with (num_logprobs b) by (by destruct b). apply (iw_sets W b Hw).
  - replace (mask_allocated b') with (mask_allocated b) by (by destruct b). replace (has_allowed_token_ids b') with (has_allowed_token_ids b) by (by destruct b). apply (iw_mask W b Hw).
  - intros id'. rewrite E9. setoid_rewrite Hid. replace (pooling_params b') with (pooling_params b) by (by destruct b). apply (iw_pool W b Hw).
  - intros k id'. replace (lora_ids b' k) with (lora_ids b k) by (by destruct b). rewrite (iw_lora W b Hw). split; intros (Hk & j & v & Hj & Ek); (split; [done|]); exists j.
    + rewrite Hrow. destruct (decide (i = j)) as [<-|]; [|by exists v]. rewrite Hold in Hj. injection Hj as <- <-. eexists. split; [done|]. by rewrite V8.
    + rewrite Hrow in Hj. destruct (decide (i = j)) as [<-|]; [|by exists v]. injection Hj as <- <-. eexists. split; [exact Hold|]. by rewrite <- V8.
  - replace (lora_id_to_request_ids b') with (lora_id_to_request_ids b) by (by destruct b). intros k. replace (lora_ids b' k) with (lora_ids b k) by (by destruct b). apply (iw_lora_live W b Hw).
  - replace (lora_id_to_request_ids b') with (lora_id_to_request_ids b) by (by destruct b). replace (lora_id_to_lora_request b') with (lora_id_to_lora_request b) by (by destruct b). apply (iw_lora_req W b Hw).
Qed.
End Rewrite.

(** ** Draft tokens *)

Definition with_drafts (spec : list Z) (v : View) : View :=
  mkView (v_tokens v) (v_num_tokens v) (v_num_prompt v) (v_num_computed v) (v_output v) spec spec (v_blocks v) (v_lora v) (v_embeds v) (v_params v).
Definition with_draft_len (n : Z) (r : CachedRequestState) : CachedRequestState :=
  mkCRS (cr_req_id r) (cr_prompt_token_ids r) (cr_prompt_embeds r) (cr_sampling_params r) (cr_pooling_params r) (cr_pooling_states r) (generator r)
    (cr_block_ids r) (cr_num_computed_tokens r) (output_list r) (cr_output_token_ids r) (cr_lora_request r) n.
Definition drafts_for (id : string) (scheduled : list (string * list Z)) : list Z := default [] (dict_get id scheduled).

Lemma at_row_parts b i id v : batch_wf W b -> at_row b i = Some (id, v) -> exists row out spec, at_id b i = Some id /\ rows b !! i = Some row /\ req_output_token_ids b !! i = Some out /\
  spec_token_ids b !! i = Some spec /\ v = view_of b i id row out spec /\ 0 <= num_tokens_no_spec row <= Z.of_nat W /\ length (token_ids row) = W /\ length (is_token_ids row) = W.
Proof.
  intros Hw Hv. pose proof (at_row_id _ _ _ _ Hv) as Hi. destruct (at_row_some b i id (iw_lists W b Hw) Hi) as (row & out & spec & Hr & Ho & Hs & E). rewrite E in Hv. injection Hv as <-.
  pose proof (iw_fit W b Hw i id _ E) as Hf. exists row, out, spec. by pose proof (iw_rows W b Hw i row Hr).
Qed.
Lemma rewritten_same_tables i row spec b : rewritten i row spec (block_tables b) b = set_spec_token_ids (<[i := spec]> (spec_token_ids b)) (set_row i row b).
Proof. by destruct b. Qed.

(** The drafts of a request are written behind its tokens. *)
Lemma update_spec_spec r scheduled b i v : batch_wf W b -> at_row b i = Some (cr_req_id r, v) -> let spec := drafts_for (cr_req_id r) scheduled in
  v_num_tokens v + zlen spec <= Z.of_nat W -> exists b', update_req_spec_token_ids r scheduled b = Ok (with_draft_len (zlen spec) r, b') /\ batch_wf W b' /\ rest_of b' = rest_of b /\
    forall j, at_row b' j = if decide (i = j) then Some (cr_req_id r, with_drafts spec v) else at_row b j.
Proof.
  intros Hw Hv spec Hfit. destruct (at_row_parts b i _ v Hw Hv) as (row & out & spec0 & Hi & Hr & Ho & Hs & -> & Hn & Ht & His). cbn in Hfit.
  assert (Hw1 : exists toks, match spec with [] => Ok (token_ids row) | _ => set_slice (Z.to_nat (num_tokens_no_spec row)) spec (token_ids row) end = Ok toks /\ length toks = W /\
    take (Z.to_nat (num_tokens_no_spec row)) toks = take (Z.to_nat (num_tokens_no_spec row)) (token_ids row) /\ take (length spec) (drop (Z.to_nat (num_tokens_no_spec row)) toks) = spec).
  { destruct spec as [|x l] eqn:Esp; [by exists (token_ids row)|]. rewrite <- Esp in *. destruct (set_slice_spec (Z.to_nat (num_tokens_no_spec row)) spec (token_ids row)) as (toks & E & L & K); [unfold zlen in Hfit; lia|].
    exists toks. split; [done|]. split; [lia|]. split; apply list_eq; intros k.
    - rewrite !take_lookup. case_decide; [|done]. rewrite K. by rewrite decide_False by lia.
    - rewrite take_lookup, lookup_drop, K. case_decide as Hk; [rewrite decide_True by lia; f_equal; lia|]. symmetry. apply lookup_ge_None_2. lia. }
  destruct Hw1 as (toks & Et & Lt & T1 & T2). set (row' := mkRow toks (is_token_ids row) (num_tokens_no_spec row) (num_prompt_tokens row) (num_computed_tokens row) (row_temperature row)
    (row_top_p row) (row_top_k row) (row_frequency_penalty row) (row_presence_penalty row) (row_repetition_penalty row) (num_accepted_tokens row) (lora_mapping row) (needs_token_ids row) (allowed_mask row)).
  assert (Hk : known_tokens row' = known_tokens row) by (unfold known_tokens; cbn; by rewrite T1).
  assert (Hok : rewrite_ok b i row row' (block_tables b)) by (split; cbn; try done; [by rewrite Hk|apply (iw_tables W b Hw)]).
  exists (rewritten i row' spec (block_tables b) b). pose proof (lookup_lt_Some _ _ _ Hs). split; [|split; [|split]].
  - unfold update_req_spec_token_ids. pose proof (proj2 (iw_index W b Hw _ _) Hi) as Hx. rewrite Hx. cbn [of_option]. rewrite bind_ok. fold (drafts_for (cr_req_id r) scheduled). fold spec.
    rewrite set_item_ok by done. rewrite bind_ok, (get_row_ok _ _ _ Hr), bind_ok. rewrite Et, bind_ok. rewrite rewritten_same_tables. done.
  - by eapply rewritten_wf.
  - by eapply rewritten_rest.
  - intros j. rewrite (rewritten_at_row b i (cr_req_id r) row row' spec0 spec out (block_tables b) Hi Hok Ho Hs). destruct (decide (i = j)); [|done]. f_equal. f_equal.
    unfold new_view, view_of, with_drafts. rewrite rewritten_params. cbn. rewrite Hk. f_equal. exact T2.
Qed.

(** ** Counts and blocks *)

Definition updated_view (n computed : Z) (ratios : list (Z * Z)) (ids : option (list (list Z))) (drafts : list Z) (v : View) : View :=
  mkView (take (Z.to_nat n) (v_tokens v)) n (v_num_prompt v) computed (v_output v) (v_spec v) drafts
    (match ids with Some l => zip_with app (v_blocks v) (zip_with kernel_blocks ratios l) | None => v_blocks v end) (v_lora v) (if decide (None ∈ take (Z.to_nat n) (v_tokens v)) then v_embeds v else None) (v_params v).

Lemma mg_append_row_spec b ts ids i : (forall t, t ∈ ts -> table_ok b t) -> (i < max_num_reqs b)%nat ->
  Forall2 (fun t l => zlen (row_ids t i) + zlen l * blocks_per_kv_block t <= max_num_blocks_per_req t) ts ids -> exists ts', mg_append_row ids i ts = Ok ts' /\
  (forall t, t ∈ ts' -> table_ok b t) /\ bt_shape <$> ts' = bt_shape <$> ts /\
  (fun t => row_ids t i) <$> ts' = zip_with app ((fun t => row_ids t i) <$> ts) (zip_with kernel_blocks (bt_shape <$> ts) ids) /\
  forall j, j <> i -> (fun t => row_ids t j) <$> ts' = (fun t => row_ids t j) <$> ts.
Proof.
  intros Hts Hi HF. induction HF as [|t l ts ids Hfit HF IH]; [exists []; by split_and!|]. destruct (Hts t ltac:(by left)) as [Hwf Hlen].
  destruct (append_row_ids t i l Hwf) as (t' & E & (Hw' & Hc & _) & Hh & Ho & _); [lia|done|]. destruct IH as (ts' & E' & H1 & H3 & H4 & H5); [intros x Hx; apply Hts; by right|].
  exists (t' :: ts'). unfold mg_append_row in *. cbn [each_group head of_option]. rewrite bind_ok, E, bind_ok. cbn [tail]. rewrite E', bind_ok. unfold bt_const in Hc.
  injection Hc as Eb Er _ Em El _. split_and!; [done| |cbn; unfold bt_shape; rewrite Er, Em; f_equal; exact H3| |].
  - intros x [->|Hx]%elem_of_cons; [split; [done|congruence]|by apply H1].
  - cbn. by rewrite Hh, H4.
  - intros j Hj. cbn. by rewrite Ho, H5 by done.
Qed.

Definition blocks_fit (b : InputBatch) (i : nat) (ids : list (list Z)) : Prop :=
  Forall2 (fun t l => zlen (row_ids t i) + zlen l * blocks_per_kv_block t <= max_num_blocks_per_req t) (block_tables b) ids.
Lemma known_take n row : known_tokens row = zip_with known (take n (token_ids row)) (take n (is_token_ids row)) -> forall k row', (k <= n)%nat -> num_tokens_no_spec row' = Z.of_nat k ->
  token_ids row' = token_ids row -> is_token_ids row' = is_token_ids row -> known_tokens row' = take k (known_tokens row).
Proof.
  intros E k row' Hk Hn E1 E2. rewrite E, zip_with_take, !take_take, !Nat.min_l by done. unfold known_tokens. rewrite Hn, E1, E2. by rewrite Nat2Z.id.
Qed.
(** A request that keeps running gets its new count and its new blocks. *)
Lemma update_row_spec d cut b i id v : batch_wf W b -> at_row b i = Some (id, v) -> let n := if cut : bool then v_num_prompt v + cd_num_output_tokens d else v_num_tokens v in
  0 <= n <= v_num_tokens v -> (forall ids, cd_new_block_ids d = Some ids -> blocks_fit b i ids) ->
  exists b' drafts, update_row i d cut b = Ok b' /\ batch_wf W b' /\ rest_of b' = rest_of b /\
    forall j, at_row b' j = if decide (i = j) then Some (id, updated_view n (cd_num_computed_tokens d) (bt_shape <$> block_tables b) (cd_new_block_ids d) drafts v) else at_row b j.
Proof.
  intros Hw Hv n Hn Hfit. destruct (at_row_parts b i id v Hw Hv) as (row & out & spec0 & Hi & Hr & Ho & Hs & -> & Hnum & Ht & His). unfold n in *. cbn in Hn. clear n. set (n := if cut then num_prompt_tokens row + cd_num_output_tokens d else num_tokens_no_spec row) in *.
  destruct (iw_lists W b Hw) as [L1 L2 L3 L4 L5]. pose proof (at_id_lt b i id Hi) as Hlt. set (row' := set_counts n (cd_num_computed_tokens d) row).
  assert (Hk : known_tokens row' = take (Z.to_nat n) (known_tokens row)) by (apply (known_take (Z.to_nat (num_tokens_no_spec row))); [done|lia|cbn; lia|done|done]).
  assert (Hts : exists ts, match cd_new_block_ids d with None => Ok (block_tables b) | Some ids => mg_append_row ids i (block_tables b) end = Ok ts /\ (forall t, t ∈ ts -> table_ok b t) /\
    bt_shape <$> ts = bt_shape <$> block_tables b /\ (forall j, j <> i -> (fun t => row_ids t j) <$> ts = (fun t => row_ids t j) <$> block_tables b) /\
    (fun t => row_ids t i) <$> ts = match cd_new_block_ids d with Some l => zip_with app ((fun t => row_ids t i) <$> block_tables b) (zip_with kernel_blocks (bt_shape <$> block_tables b) l) | None => (fun t => row_ids t i) <$> block_tables b end).
  { destruct (cd_new_block_ids d) as [ids|]; [|exists (block_tables b); split_and!; try done; apply (iw_tables W b Hw)].
    destruct (mg_append_row_spec b (block_tables b) ids i (iw_tables W b Hw)) as (ts & E & T1 & T2 & T3 & T4); [lia|by apply Hfit|]. exists ts. by split_and!. }
  destruct Hts as (ts & Ets & T1 & T2 & T3 & T4).
  assert (Hok : rewrite_ok b i row row' ts). { split; cbn; try done; [lia|]. rewrite Hk. intros Hin. rewrite <- (take_drop (Z.to_nat n) (known_tokens row)). apply elem_of_app. by left. }
  exists (rewritten i row' spec0 ts b), (take (length spec0) (drop (Z.to_nat n) (token_ids row))). split; [|split; [by eapply rewritten_wf|split; [by eapply rewritten_rest|]]].
  - unfold update_row. rewrite (get_row_ok _ _ _ Hr), bind_ok. fold n. fold row'. unfold rewritten. rewrite (list_insert_id _ _ _ Hs). destruct b. bsimp_all. destruct (cd_new_block_ids d); [rewrite Ets, bind_ok; done|]. injection Ets as <-. done.
  - intros j. rewrite (rewritten_at_row b i id row row' spec0 spec0 out ts Hi Hok Ho Hs). destruct (decide (i = j)); [|done]. f_equal. f_equal.
    destruct (new_view_fields b i id row row' spec0 spec0 out ts Hok) as (V1 & V2 & V3 & V4 & V5 & V6 & V7 & V8 & V9 & V10 & V11). destruct (new_view b i id row' spec0 ts out) as [a1 a2 a3 a4 a5 a6 a7 a8 a9 a10 a11].
    cbn in V1, V2, V3, V4, V5, V6, V7, V8, V9, V10, V11. subst. rewrite Hk, T4. unfold updated_view. cbn. done.
Qed.

(** ** Sampled tokens *)

Definition recorded_view (ids drafts : list Z) (v : View) : View :=
  mkView (v_tokens v ++ (Some <$> ids)) (v_num_tokens v + zlen ids) (v_num_prompt v) (v_num_computed v) (v_output v) (v_spec v) drafts (v_blocks v) (v_lora v) (v_embeds v) (v_params v).
Definition with_sampled (ids : list Z) (r : CachedRequestState) : CachedRequestState :=
  crs_update (cr_num_computed_tokens r) (cr_output_token_ids r ++ ids) (cr_block_ids r) r.
Lemma record_tokens_spec s i ids id v r : batch_wf W (input_batch s) -> at_row (input_batch s) i = Some (id, v) -> requests s !! id = Some r -> ids <> [] ->
  v_num_tokens v + zlen ids <= Z.of_nat W -> exists s' drafts, record_tokens (Z.of_nat W) s (i, ids) = Ok s' /\ requests s' = <[id := with_sampled ids r]> (requests s) /\ batch_wf W (input_batch s') /\
    rest_of (input_batch s') = rest_of (input_batch s) /\ forall j, at_row (input_batch s') j = if decide (i = j) then Some (id, recorded_view ids drafts v) else at_row (input_batch s) j.
Proof.
  intros Hw Hv Hreq Hne Hfit. destruct s as [reqs b]. cbn [requests input_batch] in *. destruct (at_row_parts b i id v Hw Hv) as (row & out & spec0 & Hi & Hr & Ho & Hs & -> & Hnum & Ht & His). cbn in Hfit.
  set (n := num_tokens_no_spec row) in *. destruct (set_slice_spec (Z.to_nat n) ids (token_ids row)) as (toks & E & L & K); [unfold zlen in Hfit; lia|].
  set (row' := mkRow toks (fill_slice (Z.to_nat n) (Z.to_nat (n + zlen ids)) true (is_token_ids row)) (n + zlen ids) (num_prompt_tokens row) (num_computed_tokens row)
        (row_temperature row) (row_top_p row) (row_top_k row) (row_frequency_penalty row) (row_presence_penalty row) (row_repetition_penalty row)
        (num_accepted_tokens row) (lora_mapping row) (needs_token_ids row) (allowed_mask row)).
  assert (Hk : known_tokens row' = known_tokens row ++ (Some <$> ids)).
  { assert (Hl0 : length (known_tokens row) = Z.to_nat n) by (unfold known_tokens; fold n; rewrite length_zip_with, !length_take; lia).
    apply list_eq. intros k. unfold known_tokens at 1. cbn. rewrite lookup_zip_with, !take_lookup. unfold zlen in *. destruct (Nat.lt_ge_cases k (Z.to_nat n)) as [Hkn|Hkn].
    - rewrite !decide_True by lia. rewrite K, fill_slice_lookup. rewrite decide_False by lia. rewrite lookup_app_l by lia. unfold known_tokens. fold n. rewrite lookup_zip_with, !lookup_take_lt by done.
      destruct (lookup_lt_is_Some_2 (is_token_ids row) k) as [x Hx]; [lia|]. rewrite Hx. cbn. rewrite decide_False by lia. done.
    - rewrite lookup_app_r by lia. rewrite Hl0, list_lookup_fmap. destruct (decide (k < Z.to_nat (n + Z.of_nat (length ids)))%nat) as [Hk2|Hk2].
      + rewrite K, fill_slice_lookup, decide_True by lia. destruct (lookup_lt_is_Some_2 (is_token_ids row) k) as [x Hx]; [lia|]. rewrite Hx. cbn. rewrite decide_True by lia.
        destruct (ids !! (k - Z.to_nat n)%nat) eqn:Ei; [done|]. apply lookup_ge_None_1 in Ei. lia.
      + rewrite (lookup_ge_None_2 ids) by lia. done. }
  assert (HN : None ∈ known_tokens row' <-> None ∈ known_tokens row). { rewrite Hk, elem_of_app. split; [|by left]. intros [?|Hin]; [done|]. apply list_elem_of_fmap in Hin as (? & ? & _). done. }
  assert (Hok : rewrite_ok b i row row' (block_tables b)).
  { split; cbn; try done; [split; [lia|rewrite fill_slice_length; lia]|unfold zlen in *; lia|apply HN|apply (iw_tables W b Hw)]. }
  exists (mkRunner (<[id := with_sampled ids r]> reqs) (rewritten i row' spec0 (block_tables b) b)), (take (length spec0) (drop (Z.to_nat (n + zlen ids)) toks)). cbn [requests input_batch].
  split; [|split; [done|split; [by eapply rewritten_wf|split; [by eapply rewritten_rest|]]]].
  - unfold record_tokens. destruct ids as [|x l] eqn:Eids; [done|]. rewrite <- Eids in *. cbn [requests input_batch]. rewrite (get_row_ok _ _ _ Hr), bind_ok. fold n. rewrite (proj2 (Z.leb_le _ _)) by lia. cbn [py_assert]. rewrite bind_ok, E, bind_ok.
    pose proof (proj1 (at_id_lookup b i id) Hi) as Hids. rewrite Hids. cbn [of_option]. rewrite bind_ok. cbn [of_option]. rewrite bind_ok, Hreq. cbn [of_option]. rewrite bind_ok. rewrite rewritten_same_tables, (list_insert_id _ _ _ Hs).
    unfold with_sampled, row'. rewrite Eids. clear. by destruct b.
  - intros j. rewrite (rewritten_at_row b i id row row' spec0 spec0 out (block_tables b) Hi Hok Ho Hs). destruct (decide (i = j)); [|done]. f_equal. f_equal.
    destruct (new_view_fields b i id row row' spec0 spec0 out (block_tables b) Hok) as (V1 & V2 & V3 & V4 & V5 & V6 & V7 & V8 & V9 & V10 & V11). destruct (new_view b i id row' spec0 (block_tables b) out) as [a1 a2 a3 a4 a5 a6 a7 a8 a9 a10 a11].
    cbn in V1, V2, V3, V4, V5, V6, V7, V8, V9, V10, V11. subst. rewrite Hk. unfold recorded_view. cbn. f_equal. rewrite Hk in HN. destruct (decide (None ∈ known_tokens row)) as [Hd|Hd]; [by rewrite decide_True by (by apply HN)|by rewrite decide_False by (by rewrite HN)].
Qed.
End Update.
