(* ===== verification/InputBatchMetadata.v ===== *)
(** * The metadata of the sampler

    [_make_sampling_metadata] describes every row as the request at the row calls for, and
    what it leaves out no request needs. *)
From S2P Require Import Prelude Request BlockTable BlockTableProps BatchUpdate BatchUpdateProps InputBatch InputBatchView InputBatchProps InputBatchAdd InputBatchMove InputBatchUpdate.
From Stdlib Require Import QArith.QArith.
Open Scope Z_scope.

(** A tensor with an entry for each row, or none when nothing is needed. *)
Definition column {A} (o : option (list A)) (i : nat) (x : A) (needed : bool) : Prop := match o with Some l => l !! i = Some x | None => needed = false end.
(** The prompt of a request, as far as it has token ids, padded with the vocabulary size. *)
Definition prompt_row (vocab : Z) (v : View) (l : list Z) : Prop :=
  forall j x, l !! j = Some x -> if Z.of_nat j <? v_num_prompt v then (forall t, v_tokens v !! j = Some (Some t) -> x = t) else x = vocab.
Definition covers_prompt (v : View) (l : list Z) : Prop := forall j t, Z.of_nat j < v_num_prompt v -> v_tokens v !! j = Some (Some t) -> l !! j = Some t.
Definition row_metadata (md : SamplingMetadata) (vocab : Z) (i : nat) (v : View) : Prop :=
  forall t tp tk fp pp rp acc flags lp g bad gr ra fl_p fl_k f1 f2 f3 al, v_params v = Sampled (t, tp, tk, fp, pp, rp, acc) flags lp g bad -> flags = [gr; ra; fl_p; fl_k; f1; f2; f3; al] ->
    (column (md_temperature md) i t ra /\ column (md_top_p md) i tp fl_p /\ column (md_top_k md) i tk fl_k) /\
    (column ((fun x => x.1.1) <$> md_penalties md) i fp f1 /\ column ((fun x => x.1.2) <$> md_penalties md) i pp f2 /\ column ((fun x => x.2) <$> md_penalties md) i rp f3) /\
    (md_generators md !! i = g /\ md_bad_words md !! i = bad) /\
    ((md_all_greedy md = true -> ra = false) /\ (md_all_random md = true -> gr = false) /\ (md_no_penalties md = true -> f1 || f2 || f3 = false)) /\
    (al = true -> is_Some (md_allowed_token_ids_mask md)) /\ (forall n, lp = Some n -> exists m, md_max_num_logprobs md = Some m /\ n <= m) /\
    (md_no_penalties md = false -> exists rows l, md_prompt_token_ids md = Some rows /\ rows !! i = Some l /\ covers_prompt v l /\ prompt_row vocab v l).
Definition metadata_ok (md : SamplingMetadata) (b : InputBatch) : Prop := forall i id v, at_row b i = Some (id, v) -> row_metadata md (vocab_size b) i v.

(** What the metadata depends on. *)
Definition static (v : View) := (v_params v, v_num_prompt v, take (Z.to_nat (v_num_prompt v)) (v_tokens v)).
Lemma static_token v v' j : static v = static v' -> Z.of_nat j < v_num_prompt v -> v_tokens v !! j = v_tokens v' !! j.
Proof.
  intros [= _ E2 E3] Hj. rewrite E2 in E3, Hj. apply (f_equal (.!! j)) in E3. by rewrite !lookup_take_lt in E3 by lia.
Qed.
Lemma row_metadata_static md vocab i v v' : static v = static v' -> row_metadata md vocab i v -> row_metadata md vocab i v'.
Proof.
  intros Hs H t tp tk fp pp rp acc flags lp g bad gr ra fl_p fl_k f1 f2 f3 al Hv Hf. pose proof Hs as Hs'. injection Hs' as E1 E2 _. rewrite <- E1 in Hv.
  destruct (H _ _ _ _ _ _ _ _ _ _ _ _ _ _ _ _ _ _ _ Hv Hf) as (A & B & C & D & E & F & G). do 6 (split; [done|]). intros Hn. destruct (G Hn) as (rows & l & R1 & R2 & R3 & R4). exists rows, l.
  split; [done|]. split; [done|]. split.
  - intros j x Hj Hx. rewrite <- E2 in Hj. apply R3; [done|]. by rewrite (static_token v v' j Hs Hj).
  - intros j x Hx. specialize (R4 j x Hx). rewrite <- E2. destruct (Z.ltb_spec (Z.of_nat j) (v_num_prompt v)) as [Hj|]; [|done]. intros y Hy. apply R4. by rewrite (static_token v v' j Hs Hj).
Qed.

Lemma foldl_max_ge l x : x <= foldl Z.max x l /\ forall y, y ∈ l -> y <= foldl Z.max x l.
Proof.
  revert x. induction l as [|z l IH]; intros x; cbn; [split; [lia|by intros y ?%elem_of_nil]|]. destruct (IH (Z.max x z)) as [H1 H2]. split; [lia|]. intros y [->|Hy]%elem_of_cons; [lia|by apply H2].
Qed.
Lemma padded_prompt_lookup vocab w row j : padded_prompt vocab w row !! j = (fun t => if Z.of_nat j <? num_prompt_tokens row then t else vocab) <$> take (Z.to_nat w) (token_ids row) !! j.
Proof. unfold padded_prompt. by rewrite list_lookup_imap. Qed.

Section Metadata.
Context (W : nat).

Lemma live_rows b i row : batch_wf W b -> dense b -> (i < num_reqs b)%nat -> rows b !! i = Some row -> take (num_reqs b) (rows b) !! i = Some row.
Proof. intros _ _ Hi Hr. by rewrite lookup_take_lt. Qed.
Lemma prompt_tensor_ok b : batch_wf W b -> dense b -> (num_reqs b <> 0)%nat -> exists t, make_prompt_token_ids_tensor b = Ok t /\
  forall i id v, at_row b i = Some (id, v) -> exists l, t !! i = Some l /\ covers_prompt v l /\ prompt_row (vocab_size b) v l.
Proof.
  intros Hw Hd Hn. pose proof (dense_count W b Hw Hd) as Hc. destruct (iw_lists W b Hw) as [L1 L2 L3 L4 L5]. unfold make_prompt_token_ids_tensor. set (live := take (num_reqs b) (rows b)).
  assert (Hcons : exists r0 live0, live = r0 :: live0) by (destruct live as [|r0 l0] eqn:E; [|by exists r0, l0]; apply (f_equal length) in E; unfold live in E; rewrite length_take in E; cbn in E; lia).
  destruct Hcons as (r0 & live0 & Elive). rewrite Elive. cbn [fmap list_fmap]. set (w := foldl Z.max (num_prompt_tokens r0) (list_fmap _ _ num_prompt_tokens live0)).
  eexists. split; [done|]. intros i id v Hv. destruct (at_row_parts W b i id v Hw Hv) as (row & out & spec & Hi & Hr & Ho & Hs & -> & Hnum & Ht & His). pose proof (at_id_lt b i id Hi) as Hlt.
  assert (Hlive : live !! i = Some row) by (apply live_rows; [done|done|lia|done]). rewrite Elive in Hlive.
  exists (padded_prompt (vocab_size b) w row). split; [by apply (list_lookup_fmap_Some_2 (padded_prompt (vocab_size b) w) (r0 :: live0))|].
  assert (Hwide : num_prompt_tokens row <= w).
  { destruct (foldl_max_ge (num_prompt_tokens <$> live0) (num_prompt_tokens r0)) as [H1 H2]. destruct i as [|i]; [injection Hlive as ->; exact H1|].
    apply H2. apply list_elem_of_fmap. exists row. split; [done|]. by apply (list_elem_of_lookup_2 live0 i). }
  assert (Htok : forall j t, v_tokens (view_of b i id row out spec) !! j = Some (Some t) -> token_ids row !! j = Some t).
  { intros j t. cbn. unfold known_tokens. rewrite lookup_zip_with. intros Hj. apply bind_Some in Hj as (x & Hx & Hj). apply bind_Some in Hj as (k & _ & Hj). injection Hj as Hj. apply lookup_take_Some in Hx as [Hx _].
    unfold known in Hj. destruct k; congruence. }
  split.
  - intros j t Hj Hv'. cbn in Hj. rewrite padded_prompt_lookup, lookup_take_lt by lia. rewrite (Htok j t Hv'). cbn. by rewrite (proj2 (Z.ltb_lt _ _)).
  - intros j x. rewrite padded_prompt_lookup. intros Hx. apply fmap_Some in Hx as (y & Hy & ->). cbn. apply lookup_take_Some in Hy as [Hy _].
    destruct (Z.of_nat j <? num_prompt_tokens row); [|done]. intros t Ht'. apply Htok in Ht'. congruence.
Qed.

Lemma column_some {A} (f : Row -> A) (c : bool) b i row (needed : bool) : batch_wf W b -> dense b -> rows b !! i = Some row -> (i < num_reqs b)%nat -> (c = true -> needed = false) ->
  column (if c then None else Some (f <$> take (num_reqs b) (rows b))) i (f row) needed.
Proof. intros Hw Hd Hr Hi Hc. destruct c; cbn; [by apply Hc|]. rewrite list_lookup_fmap, (live_rows b i row Hw Hd Hi Hr). done. Qed.
Lemma unflagged (s : gset string) id : bool_decide (s = ∅) = true -> bool_decide (id ∈ s) = false.
Proof. intros H%bool_decide_eq_true. apply bool_decide_eq_false. set_solver. Qed.
Lemma flagged_somewhere b (s : gset string) : batch_wf W b -> dense b -> s ∈ id_sets b -> bool_decide (s = ∅) = false -> num_reqs b <> 0%nat.
Proof.
  intros Hw Hd Hs Hne. apply bool_decide_eq_false in Hne. destruct (set_choose_L s Hne) as [id Hid]. destruct (iw_sets W b Hw id) as [_ [j Hj]]; [left; by exists s|].
  rewrite (dense_count W b Hw Hd). apply at_id_lt in Hj. lia.
Qed.
Lemma penalties_somewhere b : batch_wf W b -> dense b -> no_penalties b = false -> num_reqs b <> 0%nat.
Proof.
  intros Hw Hd H. unfold no_penalties in H. apply andb_false_iff in H as [H|H]; [apply andb_false_iff in H as [H|H]|]; revert H; apply (flagged_somewhere b _ Hw Hd); unfold id_sets; set_solver.
Qed.

(** The metadata is always made, and describes the batch. *)
Lemma make_metadata_ok needs b : batch_wf W b -> dense b -> exists md, make_sampling_metadata needs b = Ok md /\ metadata_ok md b.
Proof.
  intros Hw Hd. unfold make_sampling_metadata. set (live := take (num_reqs b) (rows b)).
  assert (Hprompt : exists p, (if negb (no_penalties b) || existsb needs_token_ids live then t ← make_prompt_token_ids_tensor b; Ok (Some t) else Ok None) = Ok p /\
    (no_penalties b = false -> exists t, p = Some t /\ forall i id v, at_row b i = Some (id, v) -> exists l, t !! i = Some l /\ covers_prompt v l /\ prompt_row (vocab_size b) v l)).
  { destruct (negb (no_penalties b) || existsb needs_token_ids live) eqn:E; [|exists None; split; [done|]; intros Hn; by rewrite Hn in E].
    destruct (prompt_tensor_ok b Hw Hd) as (t & Et & Ht).
    - apply orb_true_iff in E as [E|E]; [by apply (penalties_somewhere b Hw Hd), negb_true_iff|]. intros Hz. unfold live in E. by rewrite Hz in E.
    - exists (Some t). rewrite Et. split; [done|]. intros _. by exists t. }
  destruct Hprompt as (p & Ep & Hp). rewrite Ep, bind_ok.
  assert (Hmask : exists m, (if no_allowed_token_ids b then Ok None else _ ← py_assert (mask_allocated b); Ok (Some (allowed_mask <$> live))) = Ok m /\ (no_allowed_token_ids b = false -> is_Some m)).
  { destruct (no_allowed_token_ids b) eqn:E; [by exists None|]. rewrite (iw_mask W b Hw); [|by apply bool_decide_eq_false in E]. cbn [py_assert]. rewrite bind_ok. by eexists. }
  destruct Hmask as (m & Em & Hm). rewrite Em, bind_ok. eexists. split; [done|]. intros i id v Hv. destruct (at_row_parts W b i id v Hw Hv) as (row & out & spec & Hi & Hr & Ho & Hs & -> & _).
  assert (Hlt : (i < num_reqs b)%nat) by (rewrite (dense_count W b Hw Hd); by eapply at_id_lt).
  intros t tp tk fp pp rp acc flags lp g bad gr ra fl_p fl_k f1 f2 f3 al Hpar Hf. cbn [v_params view_of] in Hpar. unfold params_of in Hpar. destruct (is_pooling_model b); [done|]. rewrite Hf in Hpar. unfold row_scalars, flags_of, id_sets in Hpar.
  cbn [fmap list_fmap] in Hpar. injection Hpar as <- <- <- <- <- <- <- <- <- <- <- <- <- <- <- <- <- <-.
  cbn [md_temperature md_top_p md_top_k md_penalties md_generators md_bad_words md_all_greedy md_all_random md_no_penalties md_allowed_token_ids_mask md_max_num_logprobs md_prompt_token_ids].
  assert (Hnp : no_penalties b = true -> bool_decide (id ∈ frequency_penalties_reqs b) = false /\ bool_decide (id ∈ presence_penalties_reqs b) = false /\ bool_decide (id ∈ repetition_penalties_reqs b) = false).
  { unfold no_penalties. intros [[H1 H2]%andb_true_iff H3]%andb_true_iff. split_and!; by apply unflagged. }
  split_and!.
  - apply (column_some row_temperature); try done. apply unflagged.
  - apply (column_some row_top_p); try done. apply unflagged.
  - apply (column_some row_top_k); try done. apply unflagged.
  - pose proof (column_some row_frequency_penalty (no_penalties b) b i row _ Hw Hd Hr Hlt (fun H => proj1 (Hnp H))) as H. by destruct (no_penalties b).
  - pose proof (column_some row_presence_penalty (no_penalties b) b i row _ Hw Hd Hr Hlt (fun H => proj1 (proj2 (Hnp H)))) as H. by destruct (no_penalties b).
  - pose proof (column_some row_repetition_penalty (no_penalties b) b i row _ Hw Hd Hr Hlt (fun H => proj2 (proj2 (Hnp H)))) as H. by destruct (no_penalties b).
  - done.
  - done.
  - apply unflagged.
  - apply unflagged.
  - intros H. destruct (Hnp H) as (-> & -> & ->). done.
  - intros Hal. apply Hm. apply bool_decide_eq_true in Hal. apply bool_decide_eq_false. set_solver.
  - intros n Hn. unfold max_num_logprobs. assert (Hin : n ∈ (map_to_list (num_logprobs b)).*2) by (apply list_elem_of_fmap; exists (id, n); split; [done|by apply elem_of_map_to_list]).
    destruct ((map_to_list (num_logprobs b)).*2) as [|x l]; [by apply elem_of_nil in Hin|]. eexists. split; [done|]. destruct (foldl_max_ge l x). apply elem_of_cons in Hin as [->|Hin]; auto.
  - intros Hn. destruct (Hp Hn) as (tt & -> & Ht). destruct (Ht i id _ Hv) as (l & H1 & H2 & H3). by exists tt, l.
Qed.
End Metadata.
