(* ===== verification/ModelRunnerProps.v ===== *)
(** * The worker's batch mirrors its requests

    Whatever the scheduler sends, after [_update_states] the persistent batch holds just the
    scheduled requests, each with what a batch built anew would store about it; the logits
    processors and the metadata of the sampler follow the rows. *)
From S2P Require Import Prelude Request BlockTable BlockTableProps BatchUpdate BatchUpdateProps InputBatch ModelRunner InputBatchView InputBatchProps InputBatchAdd InputBatchMove InputBatchUpdate InputBatchMetadata.
From Stdlib Require Import QArith.QArith.
Open Scope Z_scope.

(** ** Requests *)

Definition shapes (b : InputBatch) : list (Z * Z) := bt_shape <$> block_tables b.
(** What the operations leave as it is. *)
Definition frame (b : InputBatch) := (is_pooling_model b, max_num_reqs b, vocab_size b, shapes b).

(** A request the batch can take, but for its size. *)
Record good_request (b : InputBatch) (r : CachedRequestState) : Prop := {
  gr_prompt : cr_num_prompt_tokens r = Ok (prompt_len r) /\ 0 <= prompt_len r;
  gr_params : if is_pooling_model b then cr_sampling_params r = None /\ is_Some (cr_pooling_params r) /\ is_Some (cr_pooling_states r) else is_Some (cr_sampling_params r);
  gr_allowed : forall p t, cr_sampling_params r = Some p -> t ∈ default [] (allowed_token_ids p) -> - vocab_size b <= t < vocab_size b;
  gr_lora : forall l, cr_lora_request r = Some l -> lora_int_id l <> 0;
}.
(** Its tokens and its blocks fit. *)
Definition fits_shapes (sh : list (Z * Z)) (ids : list (list Z)) : Prop := Forall2 (fun s l => zlen l * s.1 <= s.2) sh ids.
Definition sized (max_model_len : nat) (sh : list (Z * Z)) (drafts : list Z) (r : CachedRequestState) : Prop :=
  prompt_len r + zlen (cr_output_token_ids r) + zlen drafts <= Z.of_nat max_model_len /\ fits_shapes sh (cr_block_ids r).

Lemma frame_fields b b' : frame b' = frame b -> is_pooling_model b' = is_pooling_model b /\ max_num_reqs b' = max_num_reqs b /\ vocab_size b' = vocab_size b /\ shapes b' = shapes b.
Proof. unfold frame. by intros [= -> -> -> ->]. Qed.
Lemma frame_of b b' : batch_const b' = batch_const b -> shapes b' = shapes b -> frame b' = frame b.
Proof. intros Hc Hs. destruct (const_fields _ _ Hc) as (E1 & E2 & E3 & _). unfold frame. by rewrite E1, E2, E3, Hs. Qed.
Lemma frame_good b b' r : frame b' = frame b -> good_request b r -> good_request b' r.
Proof. intros Hf [H1 H2 H3 H4]. destruct (frame_fields _ _ Hf) as (E1 & _ & E3 & _). split; [done|by rewrite E1|rewrite E3; apply H3|done]. Qed.
Lemma good_sized W b r drafts : good_request b r -> sized W (shapes b) drafts r -> request_ok W b r.
Proof.
  intros [[H1 H1'] H2 H3 H4] [S1 S2]. unfold zlen in S1. split; [done|split; [done|unfold zlen; lia]| |done|done|done].
  unfold fits_shapes, shapes in S2. rewrite Forall2_fmap_l in S2. exact S2.
Qed.

(** The entry for the logits processors. *)
Definition told_entry (r : CachedRequestState) : option Added := p ← cr_sampling_params r; Some (p, cr_prompt_token_ids r, output_list r).
Definition told_of (reqs : gmap string CachedRequestState) : gmap string Added := omap told_entry reqs.

(** The ids of the batch. *)
Definition live (b : InputBatch) : gset string := dom (req_id_to_index b).
Definition core (v : View) : View := with_drafts [] v.
(** A batch that stores about each of its requests what [add_request] would. *)
Definition mirrors (f32 : Q -> Q) (reqs : gmap string CachedRequestState) (b : InputBatch) : Prop :=
  forall i id v, at_row b i = Some (id, v) -> exists r, reqs !! id = Some r /\ core v = request_view f32 (vocab_size b) (shapes b) r.
(** For the ids of [D], with the drafts of this step. *)
Definition exact (f32 : Q -> Q) (spec : list (string * list Z)) (D : gset string) (reqs : gmap string CachedRequestState) (b : InputBatch) : Prop :=
  forall i id v, at_row b i = Some (id, v) -> id ∈ D -> exists r, reqs !! id = Some r /\ v = with_drafts (drafts_for id spec) (request_view f32 (vocab_size b) (shapes b) r).

Section Runner.
Context (W : nat) (f32 : Q -> Q).

Lemma live_iff b id : batch_wf W b -> id ∈ live b <-> exists i, at_id b i = Some id.
Proof. intros Hw. unfold live. rewrite elem_of_dom. split; intros [i Hi]; exists i; by apply (iw_index W b Hw). Qed.
Lemma live_rows_iff b id : batch_wf W b -> id ∈ live b <-> exists i v, at_row b i = Some (id, v).
Proof.
  intros Hw. rewrite live_iff by done. split; intros [i Hi]; [destruct (at_row_views b i id (iw_lists W b Hw) Hi) as [v Hv]; eauto|destruct Hi as [v Hv]; exists i; by eapply at_row_id].
Qed.

(** ** Between the operations of a step *)

(** The state since the step began with [s0]. *)
Definition quiet (b0 b : InputBatch) : Prop := is_pooling_model b = false -> added (batch_update_builder b) = [] -> holes b = [] -> moved (batch_update_builder b) = [] ->
  forall i, prod_map id static <$> at_row b i = prod_map id static <$> at_row b0 i.
Definition follows (reqs0 : gmap string CachedRequestState) (b0 : InputBatch) (reqs : gmap string CachedRequestState) (b : InputBatch) : Prop :=
  forall T (ns : Added -> option T) m0, is_pooling_model b = false -> in_sync ns (told_of reqs0) m0 b0 -> in_sync ns (told_of reqs) (pending ns m0 b) b.
Record mid (s0 : Runner) (reqs : gmap string CachedRequestState) (b : InputBatch) : Prop := {
  mi_wf : batch_wf W b;
  mi_editing : editing b;
  mi_frame : frame b = frame (input_batch s0);
  mi_mirrors : mirrors f32 reqs b;
  mi_good : forall id r, reqs !! id = Some r -> cr_req_id r = id /\ good_request b r;
  mi_follows : follows (requests s0) (input_batch s0) reqs b;
  mi_range : rows_within (max_num_reqs b) (pending_update b);
  mi_quiet : quiet (input_batch s0) b;
}.

Lemma mirrors_frame reqs b b' : frame b' = frame b -> (forall i id v, at_row b' i = Some (id, v) -> exists r, reqs !! id = Some r /\ core v = request_view f32 (vocab_size b) (shapes b) r) -> mirrors f32 reqs b'.
Proof. intros Hf H i id v Hv. destruct (frame_fields _ _ Hf) as (_ & _ & -> & ->). by apply (H i). Qed.

(** *** Removal *)

Lemma remove_mid s0 reqs b id : mid s0 reqs b -> sorted_flag b = false -> exists b', remove_request id b = Ok (req_id_to_index b !! id, b') /\ mid s0 reqs b' /\ sorted_flag b' = false /\ live b' = live b ∖ {[id]} /\
  forall i id' v, at_row b' i = Some (id', v) -> at_row b i = Some (id', v).
Proof.
  intros Hm Hs. destruct Hm as [Hw Hed Hf Hmir Hgood Hfol Hran Hq]. destruct (req_id_to_index b !! id) as [i|] eqn:Hix.
  2: { exists b. rewrite (remove_request_none b id Hix). split; [done|]. split; [done|]. split; [done|]. split; [|done]. apply not_elem_of_dom in Hix. unfold live. set_solver. }
  pose proof (proj1 (iw_index W b Hw id i) Hix) as Hi. destruct (remove_request_spec W b id Hw Hed Hs) as (b' & E & Hw' & Hed' & Hs' & Hc & Hrow & Hho & Hadd). rewrite Hix in E, Hrow, Hho. cbn in Hho.
  destruct (remove_request_erases W b id i Hw Hed Hs Hix) as (b2 & E2 & He & Eb). rewrite E in E2. injection E2 as <-.
  assert (Hsh : shapes b' = shapes b) by (unfold shapes; by rewrite (er_tables _ _ _ _ He)). assert (Hfr : frame b' = frame b) by (by apply frame_of).
  destruct (const_fields _ _ Hc) as (Ep & Em & _). assert (Hsub : forall j id' v, at_row b' j = Some (id', v) -> at_row b j = Some (id', v)) by (intros j id' v; rewrite Hrow; by destruct (decide (Some i = Some j))).
  assert (Hmv : moved (batch_update_builder b') = moved (batch_update_builder b)) by (by rewrite Eb).
  exists b'. split; [done|]. split; [split|split; [done|split; [unfold live; rewrite (er_index _ _ _ _ He), dom_delete_L; done|done]]].
  - done.
  - done.
  - congruence.
  - apply mirrors_frame with (b := b); [done|]. intros j id' v Hv. by apply (Hmir j), Hsub.
  - intros id' r Hr. destruct (Hgood id' r Hr) as [? ?]. split; [done|]. by eapply frame_good.
  - intros T ns m0 Hp H j. rewrite Ep in Hp. specialize (Hfol T ns m0 Hp H j). unfold pending, effect, pending_update, entry_at in *. cbn [bu_added bu_removed bu_moved] in *.
    rewrite (erased_at_id W b b' i id j Hw Hi He). rewrite (ed_moved b Hed) in Hfol. rewrite Hmv, (ed_moved b Hed), Hadd, Hho. cbn [foldl] in *. rewrite remove_effect_lookup in *.
    destruct (decide (i = j)) as [<-|Hne]; [by rewrite decide_True by (apply elem_of_app; right; by left)|]. rewrite <- Hfol. destruct (decide (j ∈ holes b)) as [Hin|Hin], (decide (j ∈ holes b ++ [i])) as [Hin'|Hin']; try done; exfalso; set_solver.
  - destruct Hran as (R1 & R2 & R3). unfold rows_within, pending_update in *. cbn in *. rewrite Em, Hadd, Hho, Hmv. split_and!; [done| |done]. intros j [Hj| ->%list_elem_of_singleton]%elem_of_app; [by apply R2|].
    pose proof (at_id_lt b i id Hi). destruct (iw_lists W b Hw). lia.
  - intros _ _ Hh _. rewrite Hho in Hh. by destruct (holes b).
Qed.
Lemma remove_all_mid s0 reqs b ids : mid s0 reqs b -> sorted_flag b = false -> exists b', foldM remove_batch b ids = Ok b' /\ mid s0 reqs b' /\ sorted_flag b' = false /\ live b' = live b ∖ list_to_set ids.
Proof.
  revert b. induction ids as [|id ids IH]; intros b Hm Hs; [exists b; split_and!; [done|done|done|set_solver]|]. destruct (remove_mid s0 reqs b id Hm Hs) as (b1 & E & Hm1 & Hs1 & Hl1 & _).
  cbn [foldM]. replace (remove_batch b id) with (Ok b1) by (unfold remove_batch; by rewrite E). rewrite bind_ok. destruct (IH b1 Hm1 Hs1) as (b' & E' & Hm' & Hs' & Hl'). exists b'. split_and!; [done|done|done|]. rewrite Hl', Hl1. set_solver.
Qed.

Lemma live_told reqs b id : mirrors f32 reqs b -> batch_wf W b -> id ∈ live b -> is_Some (reqs !! id).
Proof. intros Hm Hw Hl. apply (live_rows_iff b id Hw) in Hl as (i & v & Hv). destruct (Hm i id v Hv) as (r & Hr & _). by exists r. Qed.
Lemma told_of_lookup reqs id : told_of reqs !! id = reqs !! id ≫= told_entry.
Proof. apply lookup_omap. Qed.

(** *** Other changes of the requests *)

Lemma mid_requests s0 reqs reqs' b : mid s0 reqs b -> (forall id, id ∈ live b -> reqs' !! id = reqs !! id) -> (forall id r, reqs' !! id = Some r -> cr_req_id r = id /\ good_request b r) -> mid s0 reqs' b.
Proof.
  intros [Hw Hed Hf Hmir Hgood Hfol Hran Hq] Hsame Hgood'. split; try done.
  - intros i id v Hv. rewrite Hsame by (apply (live_rows_iff b id Hw); eauto). by apply (Hmir i).
  - intros T ns m0 Hp H j. rewrite (Hfol T ns m0 Hp H j). unfold entry_at. destruct (at_id b j) as [id|] eqn:E; [|done]. cbn. rewrite !told_of_lookup, Hsame; [done|]. apply (live_iff b id Hw). eauto.
Qed.

(** *** New requests *)

Definition fresh_state (reqs : gmap string CachedRequestState) (d : NewRequestData) : result CachedRequestState :=
  match reqs !! nr_req_id d with Some r => streaming_state d r | None => new_request_state d end.
Lemma fresh_id reqs d r : (forall id r, reqs !! id = Some r -> cr_req_id r = id) -> fresh_state reqs d = Ok r -> cr_req_id r = nr_req_id d.
Proof.
  intros Hid. unfold fresh_state. destruct (reqs !! nr_req_id d) as [r0|] eqn:E.
  - unfold streaming_state. destruct (length_from_prompt_token_ids_or_embeds _ _); [|done]. intros [= <-]. cbn. by apply Hid.
  - unfold new_request_state. destruct (length_from_prompt_token_ids_or_embeds _ _); [|done]. by intros [= <-].
Qed.
Lemma new_request_mid s0 reqs b acc d r : mid s0 reqs b -> sorted_flag b = false -> fresh_state reqs d = Ok r -> good_request b r -> exists b',
  new_request (mkRunner reqs b, acc) d = Ok (mkRunner (<[nr_req_id d := r]> reqs) b', nr_req_id d :: acc) /\ mid s0 (<[nr_req_id d := r]> reqs) b' /\ sorted_flag b' = false /\ live b' = live b ∖ {[nr_req_id d]}.
Proof.
  intros Hm Hs Hr Hg. pose proof Hm as [Hw _ Hf Hmir Hgood _ _ _]. pose proof (fresh_id reqs d r (fun id r H => proj1 (Hgood id r H)) Hr) as Hid.
  assert (Hgood' : forall b', frame b' = frame b -> forall id' r', <[nr_req_id d := r]> reqs !! id' = Some r' -> cr_req_id r' = id' /\ good_request b' r').
  { intros b' Hfr id' r' H. apply lookup_insert_Some in H as [[<- <-]|[_ H]]; [split; [done|by eapply frame_good]|]. destruct (Hgood id' r' H). split; [done|by eapply frame_good]. }
  unfold new_request, fresh_state in *. cbn [requests input_batch]. destruct (reqs !! nr_req_id d) as [r0|] eqn:Er.
  - destruct (remove_mid s0 reqs b (nr_req_id d) Hm Hs) as (b1 & E & Hm1 & Hs1 & Hl1 & _). rewrite E, bind_ok. cbn beta match. rewrite Hr, bind_ok. exists b1. split; [done|]. split; [|done].
    apply (mid_requests s0 reqs _ b1 Hm1); [intros id' Hin; rewrite lookup_insert_ne; [done|set_solver]|]. apply Hgood'. rewrite (mi_frame _ _ _ Hm1). done.
  - assert (Hnl : nr_req_id d ∉ live b) by (intros H; destruct (live_told reqs b (nr_req_id d) Hmir Hw H); congruence).
    assert (Hpool : (if is_pooling_model b then py_assert (bool_decide (is_Some (nr_pooling_params d))) else Ok tt) = Ok tt).
    { pose proof (gr_params b r Hg) as Hpar. destruct (is_pooling_model b); [|done]. unfold new_request_state in Hr. destruct (length_from_prompt_token_ids_or_embeds _ _); [|done]. injection Hr as <-. cbn in Hpar.
      destruct Hpar as (_ & H & _). by rewrite bool_decide_true. }
    rewrite Hpool, bind_ok, Hr, bind_ok. exists b. split; [done|]. split; [|split; [done|set_solver]]. apply (mid_requests s0 reqs _ b Hm); [intros id' Hin; rewrite lookup_insert_ne; [done|set_solver]|]. by apply Hgood'.
Qed.

(** *** Rows that are updated *)

Definition prompt_tokens (r : CachedRequestState) : list (option Z) := match cr_prompt_token_ids r with Some l => Some <$> l | None => replicate (Z.to_nat (prompt_len r)) None end.
Lemma prompt_tokens_length r : cr_num_prompt_tokens r = Ok (prompt_len r) -> 0 <= prompt_len r -> length (prompt_tokens r) = Z.to_nat (prompt_len r).
Proof.
  intros H Hp. unfold prompt_tokens. destruct (cr_prompt_token_ids r) as [l|] eqn:E; [|by rewrite length_replicate]. rewrite length_fmap. rewrite (prompt_len_ids r l H E). unfold zlen. lia.
Qed.
Lemma core_static v w : core v = w -> static v = static w.
Proof. by intros <-. Qed.
Lemma request_static vocab sh r : cr_num_prompt_tokens r = Ok (prompt_len r) -> 0 <= prompt_len r ->
  static (request_view f32 vocab sh r) = (request_params f32 vocab r, prompt_len r, prompt_tokens r).
Proof.
  intros H Hp. unfold static, request_view. cbn. unfold request_tokens. fold (prompt_tokens r). rewrite take_app_length'; [done|]. symmetry. by apply prompt_tokens_length.
Qed.
Lemma rest_fields b b' : rest_of b' = rest_of b -> frame b' = frame b /\ req_ids b' = req_ids b /\ req_id_to_index b' = req_id_to_index b /\ batch_update_builder b' = batch_update_builder b.
Proof. unfold rest_of. intros [= E1 E2 E3 E4 E5 E6 E7 E8 E9]. split_and!; try done. unfold frame, shapes. congruence. Qed.
Lemma touch_mid s0 reqs b b' i id v v' r r' : mid s0 reqs b -> batch_wf W b' -> rest_of b' = rest_of b -> at_row b i = Some (id, v) -> reqs !! id = Some r ->
  (forall j, at_row b' j = if decide (i = j) then Some (id, v') else at_row b j) -> core v' = request_view f32 (vocab_size b) (shapes b) r' -> cr_req_id r' = id -> good_request b r' ->
  told_entry r' = told_entry r -> static v' = static v -> mid s0 (<[id := r']> reqs) b'.
Proof.
  intros [Hw Hed Hf Hmir Hgood Hfol Hran Hq] Hw' Hrest Hv Hr Hrow Hcore Hid Hg Htold Hstat. destruct (rest_fields _ _ Hrest) as (Hfr & Ei & Ex & Eb). destruct (frame_fields _ _ Hfr) as (Ep & Em & Ev & Esh).
  assert (Hat : forall j, at_id b' j = at_id b j) by (intros j; unfold at_id; by rewrite Ei).
  assert (Hne : forall j id' w, i <> j -> at_row b j = Some (id', w) -> id' <> id) by (intros j id' w Hij Hj ->; apply Hij; exact (index_inj W b i j id Hw (at_row_id _ _ _ _ Hv) (at_row_id _ _ _ _ Hj))). split.
  - done.
  - destruct Hed as [E1 E2 E3]. split; unfold holes in *; rewrite ?Eb; try done. intros j. rewrite Ei, Hat. apply E2.
  - congruence.
  - intros j id' w. rewrite Hrow, Ev, Esh. destruct (decide (i = j)); [intros [= <- <-]; exists r'; by rewrite lookup_insert_eq|]. intros Hj. destruct (Hmir j id' w Hj) as (r1 & Hr1 & H1). exists r1. split; [|done].
    rewrite lookup_insert_ne; [done|]. intros ->. by eapply Hne.
  - intros id' r1 H. apply lookup_insert_Some in H as [[<- <-]|[_ H]]; [split; [done|by eapply frame_good]|]. destruct (Hgood id' r1 H). split; [done|by eapply frame_good].
  - intros T ns m0 Hp H j. rewrite Ep in Hp. specialize (Hfol T ns m0 Hp H j). unfold pending, pending_update, holes, entry_at in *. rewrite Eb, Hat. cbn [bu_added bu_removed bu_moved] in *. rewrite Hfol. destruct (at_id b j) as [id'|]; [|done]. cbn.
    rewrite !told_of_lookup. destruct (decide (id = id')) as [<-|Hn]; [rewrite lookup_insert_eq, Hr; cbn; by rewrite Htold|by rewrite lookup_insert_ne].
  - rewrite Em. unfold pending_update, holes in *. rewrite Eb. exact Hran.
  - intros Hp Ha Hh Hmv j. rewrite Ep in Hp. unfold holes in *. rewrite Eb in *. rewrite <- (Hq Hp Ha Hh Hmv j), Hrow. destruct (decide (i = j)) as [<-|]; [|done]. rewrite Hv. cbn. unfold prod_map. cbn. by rewrite Hstat.
Qed.

(** *** Running requests *)

Definition cached_outputs (d : CachedData) (r : CachedRequestState) : list Z :=
  if cd_num_output_tokens d <? zlen (cr_output_token_ids r) then take (Z.to_nat (cd_num_output_tokens d)) (cr_output_token_ids r) else cr_output_token_ids r.
Definition cached_blocks (d : CachedData) (r : CachedRequestState) : list (list Z) :=
  if cd_resumed d then default [] (cd_new_block_ids d)
  else match cd_new_block_ids d with Some ids => zip_with app (cr_block_ids r) ids ++ drop (length ids) (cr_block_ids r) | None => cr_block_ids r end.
Definition cached_state (d : CachedData) (r : CachedRequestState) : CachedRequestState := crs_update (cd_num_computed_tokens d) (cached_outputs d r) (cached_blocks d r) r.

Lemma kernel_blocks_app s l1 l2 : kernel_blocks s (l1 ++ l2) = kernel_blocks s l1 ++ kernel_blocks s l2.
Proof. apply kernel_app. Qed.
Lemma zip_kernel_app sh l1 l2 : length l1 = length sh -> length l2 = length sh ->
  zip_with app (zip_with kernel_blocks sh l1) (zip_with kernel_blocks sh l2) = zip_with kernel_blocks sh (zip_with app l1 l2).
Proof.
  revert l1 l2. induction sh as [|s sh IH]; intros [|x l1] [|y l2] H1 H2; try done. cbn in *. rewrite kernel_blocks_app. f_equal. apply IH; lia.
Qed.
(** The updated view is that of the updated request. *)
Lemma updated_core vocab sh d r v drafts n : cr_num_prompt_tokens r = Ok (prompt_len r) -> 0 <= prompt_len r -> 0 <= cd_num_output_tokens d -> core v = request_view f32 vocab sh r ->
  length (cr_block_ids r) = length sh -> cd_resumed d = false -> (forall ids, cd_new_block_ids d = Some ids -> length ids = length sh) -> n = prompt_len r + zlen (cached_outputs d r) ->
  core (updated_view n (cd_num_computed_tokens d) sh (cd_new_block_ids d) drafts v) = request_view f32 vocab sh (cached_state d r).
Proof.
  intros Hp Hp0 Hout Hcore Hlen Hres Hnew ->. set (r' := cached_state d r).
  assert (Htok : take (Z.to_nat (prompt_len r + zlen (cached_outputs d r))) (request_tokens r) = request_tokens r').
  { unfold request_tokens. fold (prompt_tokens r) (prompt_tokens r'). assert (Ept : prompt_tokens r' = prompt_tokens r) by done. rewrite Ept. pose proof (prompt_tokens_length r Hp Hp0) as Hl.
    replace (Z.to_nat (prompt_len r + zlen (cached_outputs d r))) with (length (prompt_tokens r) + length (cached_outputs d r))%nat by (unfold zlen; lia). rewrite take_app_add. f_equal. rewrite <- fmap_take. f_equal.
    cbn. unfold cached_outputs. case_match; [|by rewrite take_ge by done]. rewrite length_take. symmetry. destruct (Nat.le_gt_cases (Z.to_nat (cd_num_output_tokens d)) (length (cr_output_token_ids r))); [by rewrite Nat.min_l by done|].
    rewrite Nat.min_r by lia. rewrite !take_ge by lia. done. }
  assert (Hv : forall A (g : View -> A), g (core v) = g (request_view f32 vocab sh r)) by (intros A g; by rewrite Hcore).
  pose proof (Hv _ v_tokens) as V1. pose proof (Hv _ v_num_prompt) as V2. pose proof (Hv _ v_output) as V3. pose proof (Hv _ v_blocks) as V4. pose proof (Hv _ v_lora) as V5. pose proof (Hv _ v_embeds) as V6. pose proof (Hv _ v_params) as V7.
  cbn in V1, V2, V3, V4, V5, V6, V7. clear Hv. unfold core, with_drafts, updated_view, request_view. cbn [v_tokens v_num_tokens v_num_prompt v_num_computed v_output v_spec v_drafts v_blocks v_lora v_embeds v_params].
  rewrite V1, V2, V3, V4, V5, V6, V7, Htok. f_equal.
  - change (cr_block_ids r') with (cached_blocks d r). unfold cached_blocks. rewrite Hres. destruct (cd_new_block_ids d) as [ids|]; [|done]. rewrite zip_kernel_app by (done || by apply Hnew). rewrite drop_ge by (rewrite (Hnew ids eq_refl); lia). by rewrite app_nil_r.
  - change (cr_prompt_embeds r') with (cr_prompt_embeds r). destruct (decide (None ∈ request_tokens r')) as [HN|]; [|done]. destruct (decide (None ∈ request_tokens r)) as [|Hn]; [done|]. destruct Hn. rewrite <- (take_drop (Z.to_nat (prompt_len r + zlen (cached_outputs d r))) (request_tokens r)), Htok. apply elem_of_app. by left.
Qed.
(** The new blocks fit behind the old ones. *)
Lemma cached_fit b i id v d r ids : batch_wf W b -> at_row b i = Some (id, v) -> core v = request_view f32 (vocab_size b) (shapes b) r -> cd_resumed d = false -> cd_new_block_ids d = Some ids ->
  length ids = length (shapes b) -> length (cr_block_ids r) = length (shapes b) -> fits_shapes (shapes b) (cached_blocks d r) -> blocks_fit b i ids.
Proof.
  intros Hw Hv Hcore Hres Hids Hl1 Hl2 Hfit. apply (f_equal v_blocks) in Hcore. cbn in Hcore. destruct (at_row_parts W b i id v Hw Hv) as (row & out & spec & _ & _ & _ & _ & -> & _). cbn in Hcore.
  unfold cached_blocks in Hfit. rewrite Hres, Hids in Hfit. rewrite drop_ge, app_nil_r in Hfit by lia. unfold blocks_fit, fits_shapes, shapes in *. pose proof (iw_tables W b Hw) as Hts. rewrite length_fmap in Hl1, Hl2.
  apply Forall2_same_length_lookup. split; [done|]. intros k t l Hk Hl. rewrite Forall2_fmap_l in Hfit. destruct (lookup_lt_is_Some_2 (cr_block_ids r) k) as [k0 Hk0]; [rewrite Hl2; by eapply lookup_lt_Some|].
  assert (Hz : zip_with app (cr_block_ids r) ids !! k = Some (k0 ++ l)) by (rewrite lookup_zip_with, Hk0; cbn; by rewrite Hl).
  pose proof (Forall2_lookup_lr _ _ _ _ _ _ Hfit Hk Hz) as Hsz. cbn in Hsz.
  apply (f_equal (.!! k)) in Hcore. rewrite list_lookup_fmap, Hk, lookup_zip_with, list_lookup_fmap, Hk in Hcore. cbn in Hcore. rewrite Hk0 in Hcore. injection Hcore as ->.
  destruct (Hts t) as [Hwf _]; [by apply list_elem_of_lookup_2 in Hk|]. pose proof (bw_ratio t Hwf). unfold kernel_blocks, bt_shape, zlen in *. cbn. rewrite kernel_length by done. rewrite length_app in Hsz. lia.
Qed.

Lemma core_count b v r : core v = request_view f32 (vocab_size b) (shapes b) r -> v_num_tokens v = prompt_len r + zlen (cr_output_token_ids r) /\ v_num_prompt v = prompt_len r.
Proof. intros H. pose proof (f_equal v_num_tokens H) as H1. pose proof (f_equal v_num_prompt H) as H2. by cbn in H1, H2. Qed.
Lemma cached_good b d r : good_request b r -> good_request b (cached_state d r).
Proof. intros [H1 H2 H3 H4]. by split. Qed.
Lemma draft_good b n r : good_request b r -> good_request b (with_draft_len n r).
Proof. intros [H1 H2 H3 H4]. by split. Qed.

(** Its own drafts are written behind the tokens of a row. *)
Lemma drafts_mid s0 reqs b i v r spec : mid s0 reqs b -> at_row b i = Some (cr_req_id r, v) -> reqs !! cr_req_id r = Some r -> core v = request_view f32 (vocab_size b) (shapes b) r -> good_request b r ->
  prompt_len r + zlen (cr_output_token_ids r) + zlen (drafts_for (cr_req_id r) spec) <= Z.of_nat W -> let r' := with_draft_len (zlen (drafts_for (cr_req_id r) spec)) r in
  exists b', update_req_spec_token_ids r spec b = Ok (r', b') /\ mid s0 (<[cr_req_id r := r']> reqs) b' /\ req_id_to_index b' = req_id_to_index b /\ frame b' = frame b /\ batch_update_builder b' = batch_update_builder b /\
    forall j, at_row b' j = if decide (i = j) then Some (cr_req_id r, with_drafts (drafts_for (cr_req_id r) spec) (request_view f32 (vocab_size b) (shapes b) r)) else at_row b j.
Proof.
  intros Hm Hv Hr Hcore Hg Hfit r'. destruct (core_count b v r Hcore) as [Hn _]. destruct (update_spec_spec W r spec b i v (mi_wf _ _ _ Hm) Hv) as (b' & E & Hw' & Hrest & Hrow); [lia|].
  assert (Hwd : with_drafts (drafts_for (cr_req_id r) spec) v = with_drafts (drafts_for (cr_req_id r) spec) (request_view f32 (vocab_size b) (shapes b) r)) by (rewrite <- Hcore; done). rewrite Hwd in Hrow.
  destruct (rest_fields _ _ Hrest) as (Hfr & _ & Ex & Eb). exists b'. split; [done|]. split; [|done].
  eapply (touch_mid s0 reqs b b' i (cr_req_id r) v _ r r'); [done|done|done|exact Hv|done|exact Hrow|done|done|by apply draft_good|done|]. by rewrite (core_static v _ Hcore).
Qed.

Lemma cached_outputs_le d r : 0 <= zlen (cached_outputs d r) <= zlen (cr_output_token_ids r).
Proof. unfold cached_outputs, zlen. destruct (_ <? _); rewrite ?length_take; lia. Qed.
Definition cached_ok (spec : list (string * list Z)) (sh : list (Z * Z)) (d : CachedData) (r : CachedRequestState) : Prop :=
  0 <= cd_num_output_tokens d /\ (cd_resumed d = true -> is_Some (cd_new_block_ids d)) /\ (forall ids, cd_new_block_ids d = Some ids -> length ids = length sh) /\
  length (cr_block_ids r) = length sh /\ sized W sh (drafts_for (cd_req_id d) spec) (cached_state d r).
Lemma cached_request_mid s0 reqs b acc d spec r : mid s0 reqs b -> reqs !! cd_req_id d = Some r -> cached_ok spec (shapes b) d r -> (cd_resumed d = true -> cd_req_id d ∉ live b) ->
  let r' := cached_state d r in exists b' r2 acc', cached_request spec (mkRunner reqs b, acc) d = Ok (mkRunner (<[cd_req_id d := r2]> reqs) b', acc') /\ mid s0 (<[cd_req_id d := r2]> reqs) b' /\
    req_id_to_index b' = req_id_to_index b /\ frame b' = frame b /\ sorted_flag b' = sorted_flag b /\
    if decide (cd_req_id d ∈ live b) then acc' = acc /\ r2 = with_draft_len (zlen (drafts_for (cd_req_id d) spec)) r' /\
      (forall i id v, at_row b' i = Some (id, v) -> if decide (id = cd_req_id d) then v = with_drafts (drafts_for id spec) (request_view f32 (vocab_size b) (shapes b) r') else at_row b i = Some (id, v))
    else acc' = cd_req_id d :: acc /\ r2 = r' /\ b' = b.
Proof.
  intros Hm Hr (Hout & Hres & Hnew & Hlen & Hsz1 & Hsz2) Hnl r'. pose proof (mi_wf _ _ _ Hm) as Hw. destruct (mi_good _ _ _ Hm _ _ Hr) as [Hid Hg]. pose proof (cached_good b d r Hg) as Hg'. fold r' in Hg', Hsz1, Hsz2.
  unfold cached_request. cbn [requests input_batch]. rewrite Hr. cbn [of_option]. rewrite bind_ok. fold (cached_outputs d r). destruct (decide (cd_req_id d ∈ live b)) as [Hl|Hl].
  - assert (Er : cd_resumed d = false) by (destruct (cd_resumed d); [by destruct (Hnl eq_refl)|done]). apply (live_rows_iff b _ Hw) in Hl as (i & v & Hv). pose proof (proj2 (iw_index W b Hw _ _) (at_row_id _ _ _ _ Hv)) as Hix. rewrite Hix, Er.
    destruct (mi_mirrors _ _ _ Hm i _ v Hv) as (r0 & Hr0 & Hcore). rewrite Hr in Hr0. injection Hr0 as <-. destruct (core_count b v r Hcore) as [Hn Hnp]. destruct (gr_prompt b r Hg) as [Hp Hp0].
    assert (Eb : match cd_new_block_ids d with Some ids => Ok (zip_with app (cr_block_ids r) ids ++ drop (length ids) (cr_block_ids r)) | None => Ok (cr_block_ids r) end = Ok (cached_blocks d r)) by (unfold cached_blocks; rewrite Er; by destruct (cd_new_block_ids d)).
    rewrite Eb, bind_ok. fold (cached_state d r). fold r'. set (cut := cd_num_output_tokens d <? zlen (cr_output_token_ids r)).
    assert (En : (if cut then v_num_prompt v + cd_num_output_tokens d else v_num_tokens v) = prompt_len r + zlen (cached_outputs d r)).
    { rewrite Hn, Hnp. unfold cached_outputs. fold cut. destruct cut eqn:Ec; [|done]. apply Z.ltb_lt in Ec. unfold zlen in *. rewrite length_take. lia. }
    destruct (update_row_spec W d cut b i (cd_req_id d) v Hw Hv) as (b1 & drafts & E1 & Hw1 & Hrest1 & Hrow1).
    + rewrite En, Hn. pose proof (cached_outputs_le d r). lia.
    + intros ids Hids. eapply cached_fit; try done. by apply Hnew.
    + rewrite En in Hrow1. fold (shapes b) in Hrow1. destruct (rest_fields _ _ Hrest1) as (Hfr1 & _ & Ex1 & Eb1). destruct (frame_fields _ _ Hfr1) as (_ & _ & Ev1 & Es1).
      pose proof (updated_core (vocab_size b) (shapes b) d r v drafts _ Hp Hp0 Hout Hcore Hlen Er Hnew eq_refl) as Hcore1. fold r' in Hcore1. set (v1 := updated_view _ _ _ _ _ _) in *.
      assert (Hm1 : mid s0 (<[cd_req_id d := r']> reqs) b1).
      { eapply (touch_mid s0 reqs b b1 i (cd_req_id d) v v1 r r'); try done. rewrite (core_static v1 _ Hcore1), (core_static v _ Hcore). destruct (gr_prompt b r' Hg') as [Hp' Hp0']. by rewrite !request_static. }
      assert (Hv1 : at_row b1 i = Some (cr_req_id r', v1)) by (rewrite Hrow1, decide_True by done; by rewrite <- Hid).
      assert (Eid : cr_req_id r' = cd_req_id d) by done. destruct (drafts_mid s0 _ b1 i v1 r' spec Hm1 Hv1) as (b2 & E2 & Hm2 & Ex2 & Hfr2 & Eb2 & Hrow2).
      * rewrite Eid. apply lookup_insert_eq.
      * by rewrite Ev1, Es1.
      * by eapply frame_good.
      * rewrite Eid. exact Hsz1.
      * rewrite E1, bind_ok, E2, bind_ok. rewrite Eid, insert_insert_eq in *. eexists b2, _, acc. split; [done|]. split; [done|]. split; [congruence|]. split; [congruence|].
        split; [|split; [done|split; [done|]]].
        -- unfold sorted_flag. by rewrite Eb2, Eb1.
        -- intros j id w. rewrite Hrow2, Ev1, Es1. destruct (decide (i = j)) as [<-|Hne]; [intros [= <- <-]; by rewrite decide_True|]. intros Hj. rewrite Hrow1, decide_False in Hj by done.
           destruct (decide (id = cd_req_id d)) as [->|]; [|done]. destruct Hne. exact (index_inj W b i j _ Hw (at_row_id _ _ _ _ Hv) (at_row_id _ _ _ _ Hj)).
  - assert (Hix : req_id_to_index b !! cd_req_id d = None) by (by apply not_elem_of_dom). rewrite Hix.
    assert (Eb : exists blocks, cached_blocks d r = blocks) by eauto. destruct Eb as [blocks Eb]. assert (Er' : crs_update (cd_num_computed_tokens d) (cached_outputs d r) blocks r = r') by (by subst blocks).
    match goal with |- exists _ _ _, mbind _ ?m = _ /\ _ => assert (Em : m = Ok blocks) end.
    { subst blocks. unfold cached_blocks. destruct (cd_resumed d) eqn:Er; [|by destruct (cd_new_block_ids d)]. destruct (Hres eq_refl) as [ids ->]. done. }
    rewrite Em, bind_ok, Er'. clear Em. exists b, r', (cd_req_id d :: acc). split; [done|]. split; [|by split_and!].
    apply (mid_requests s0 reqs _ b Hm); [intros id' Hin; rewrite lookup_insert_ne; [done|congruence]|]. intros id' r1 H. apply lookup_insert_Some in H as [[<- <-]|[_ H]]; [done|]. by apply (mi_good _ _ _ Hm).
Qed.

(** *** Requests that join *)

Lemma join_mid s0 reqs b r : mid s0 reqs b -> reqs !! cr_req_id r = Some r -> cr_req_id r ∉ live b -> good_request b r -> request_ok W b r -> (num_reqs b < max_num_reqs b)%nat ->
  exists i b', add_request f32 r b = Ok (i, b') /\ mid s0 reqs b' /\ req_id_to_index b' = <[cr_req_id r := i]> (req_id_to_index b) /\ frame b' = frame b /\
    forall j, at_row b' j = if decide (i = j) then Some (cr_req_id r, request_view f32 (vocab_size b) (shapes b) r) else at_row b j.
Proof.
  intros Hm Hr Hnl Hg Hok Hroom. pose proof Hm as [Hw Hed Hf Hmir Hgood Hfol Hran Hq]. assert (Hnx : req_id_to_index b !! cr_req_id r = None) by (by apply not_elem_of_dom).
  destruct (batch_add_request_spec W f32 r b Hw Hed Hok Hnx Hroom) as (i & b' & E & Hw' & Hed' & Hc & Hsh & Hix & Hi & _ & _ & Hrow & Hho & Hadd). fold (shapes b) in Hrow.
  assert (Hfr : frame b' = frame b) by (by apply frame_of). destruct (frame_fields _ _ Hfr) as (Ep & Em & Ev & Es).
  exists i, b'. split; [done|]. split; [|done]. split.
  - done.
  - done.
  - congruence.
  - apply mirrors_frame with (b := b); [done|]. intros j id v. rewrite Hrow. destruct (decide (i = j)) as [<-|]; [|by apply Hmir]. intros [= <- <-]. by exists r.
  - intros id r1 H. destruct (Hgood id r1 H). split; [done|by eapply frame_good].
  - intros T ns m0 Hp H j. rewrite Ep in Hp. specialize (Hfol T ns m0 Hp H j). pose proof (gr_params b r Hg) as Hpar. rewrite Hp in Hpar. destruct Hpar as [p Hsp].
    unfold pending, effect, pending_update, entry_at in *. cbn [bu_added bu_removed bu_moved] in *. rewrite (ed_moved b' Hed'), Hadd, foldl_app. rewrite (ed_moved b Hed) in Hfol. cbn [foldl] in *.
    unfold added_entry. rewrite Hsp. cbn [foldl]. rewrite remove_effect_lookup in *. rewrite add_effect_lookup. pose proof (Hho j) as Hj.
    assert (Hat : at_id b' j = if decide (i = j) then Some (cr_req_id r) else at_id b j).
    { unfold at_id. assert (Hx : forall k id, at_id b' k = Some id <-> (if decide (i = k) then Some (cr_req_id r) else at_id b k) = Some id).
      { intros k id. rewrite <- (iw_index W b' Hw'), Hix, lookup_insert_Some, (iw_index W b Hw). destruct (decide (i = k)) as [<-|Hne].
        - split; [intros [[-> _]|[_ Hk]]; [done|]|by intros [= ->]; left]. exfalso. destruct (at_row_views b i id (iw_lists W b Hw) Hk). congruence.
        - split; [intros [[_ ?]|[_ ?]]; done|]. intros Hk. right. split; [|done]. intros <-. apply (iw_index W b Hw) in Hk. congruence. }
      apply option_eq. intros id. apply Hx. }
    rewrite Hat. destruct (decide (i = j)) as [<-|Hne].
    + rewrite decide_False by (intros Hin; apply Hho in Hin; by destruct Hin). cbn. rewrite told_of_lookup, Hr. cbn. unfold told_entry. by rewrite Hsp.
    + rewrite <- Hfol. destruct (decide (j ∈ holes b)), (decide (j ∈ holes b')); try done; exfalso; naive_solver.
  - destruct Hran as (R1 & R2 & R3). assert (Hlt : (i < max_num_reqs b)%nat).
    { assert (Hat : at_id b' i = Some (cr_req_id r)) by (eapply (at_row_id b' i); rewrite Hrow; by rewrite decide_True). pose proof (at_id_lt _ _ _ Hat). destruct (iw_lists W b' Hw'). lia. }
    unfold rows_within, pending_update in *. cbn in *. rewrite Em, Hadd, (ed_moved b' Hed'). split; [|split].
    + intros k p [Hk|Hk]%elem_of_app; [by eapply R1|]. unfold added_entry in Hk. destruct (cr_sampling_params r); [|by apply elem_of_nil in Hk]. apply list_elem_of_singleton in Hk. by injection Hk as -> _.
    + intros k Hk. apply Hho in Hk as [Hk _]. by apply R2.
    + by intros ? ? ? ?%elem_of_nil.
  - intros Hp Ha. rewrite Ep in Hp. pose proof (gr_params b r Hg) as Hpar. rewrite Hp in Hpar. destruct Hpar as [p Hsp]. rewrite Hadd in Ha. unfold added_entry in Ha. rewrite Hsp in Ha. by apply app_nil in Ha as [_ Ha].
Qed.
Lemma add_batch_mid s0 reqs b spec id r : mid s0 reqs b -> reqs !! id = Some r -> id ∉ live b -> sized W (shapes b) (drafts_for id spec) r -> (num_reqs b < max_num_reqs b)%nat ->
  let r' := with_draft_len (zlen (drafts_for id spec)) r in
  exists b', add_batch f32 spec (mkRunner reqs b) id = Ok (mkRunner (<[id := r']> reqs) b') /\ mid s0 (<[id := r']> reqs) b' /\ live b' = {[id]} ∪ live b /\ num_reqs b' = S (num_reqs b) /\ frame b' = frame b /\
    forall i id' v, at_row b' i = Some (id', v) -> if decide (id' = id) then v = with_drafts (drafts_for id spec) (request_view f32 (vocab_size b) (shapes b) r') else at_row b i = Some (id', v).
Proof.
  intros Hm Hr Hnl Hsz Hroom r'. destruct (mi_good _ _ _ Hm _ _ Hr) as [<- Hg]. pose proof (mi_wf _ _ _ Hm) as Hw. pose proof (good_sized W b r _ Hg Hsz) as Hok.
  destruct (join_mid s0 reqs b r Hm Hr Hnl Hg Hok Hroom) as (i & b1 & E1 & Hm1 & Hix1 & Hfr1 & Hrow1). destruct (frame_fields _ _ Hfr1) as (_ & _ & Ev1 & Es1).
  assert (Hv1 : at_row b1 i = Some (cr_req_id r, request_view f32 (vocab_size b1) (shapes b1) r)) by (rewrite Hrow1, Ev1, Es1; by rewrite decide_True).
  destruct (drafts_mid s0 reqs b1 i _ r spec Hm1 Hv1 Hr eq_refl) as (b2 & E2 & Hm2 & Ex2 & Hfr2 & _ & Hrow2); [by eapply frame_good|apply (proj1 Hsz)|].
  exists b2. unfold add_batch. cbn [requests input_batch]. rewrite Hr. cbn [of_option]. rewrite bind_ok, E1, bind_ok, E2, bind_ok. split; [done|]. split; [done|].
  assert (Hnx : req_id_to_index b !! cr_req_id r = None) by (by apply not_elem_of_dom). split; [|split; [|split; [congruence|]]].
  - unfold live. by rewrite Ex2, Hix1, dom_insert_L.
  - unfold num_reqs. rewrite Ex2, Hix1. by rewrite map_size_insert_None.
  - intros j id' v. rewrite Hrow2, Ev1, Es1. destruct (decide (i = j)) as [<-|Hne]; [intros [= <- <-]; by rewrite decide_True|]. intros Hj. rewrite Hrow1, decide_False in Hj by done.
    destruct (decide (id' = cr_req_id r)) as [->|]; [|done]. apply at_row_id, (iw_index W b Hw) in Hj. congruence.
Qed.
End Runner.
