(* ===== verification/ModelRunnerStep.v ===== *)
(** * The step of the worker as a whole

    The loops of [_update_states] over the requests that finish, leave, arrive, run on and
    join, and what they add up to: the persistent batch after a step is the batch that would be
    built anew from the requests, and the logits processors and the metadata agree with it. *)
From S2P Require Import Prelude Request BlockTable BlockTableProps BatchUpdate BatchUpdateProps InputBatch ModelRunner InputBatchView InputBatchProps InputBatchAdd InputBatchMove InputBatchUpdate InputBatchMetadata ModelRunnerProps.
From Stdlib Require Import QArith.QArith.
Open Scope Z_scope.

Section Step.
Context (W : nat) (f32 : Q -> Q).
Local Notation mid := (mid W f32).

(** ** The loops *)

Lemma new_requests_mid s0 reqs b acc ds : mid s0 reqs b -> sorted_flag b = false -> NoDup (nr_req_id <$> ds) ->
  (forall d, d ∈ ds -> exists r, fresh_state reqs d = Ok r /\ good_request b r) -> exists reqs' b',
  foldM new_request (mkRunner reqs b, acc) ds = Ok (mkRunner reqs' b', rev (nr_req_id <$> ds) ++ acc) /\ mid s0 reqs' b' /\ live b' = live b ∖ list_to_set (nr_req_id <$> ds) /\
  (forall d, d ∈ ds -> exists r, fresh_state reqs d = Ok r /\ reqs' !! nr_req_id d = Some r) /\ (forall id, id ∉ nr_req_id <$> ds -> reqs' !! id = reqs !! id).
Proof.
  revert reqs b acc. induction ds as [|d ds IH]; intros reqs b acc Hm Hs Hnd Hds.
  { exists reqs, b. split_and!; [done|done|set_solver|by intros d ?%elem_of_nil|done]. }
  cbn in Hnd. apply NoDup_cons in Hnd as [Hnin Hnd]. destruct (Hds d) as (r & Hr & Hg); [by left|].
  destruct (new_request_mid W f32 s0 reqs b acc d r Hm Hs Hr Hg) as (b1 & E1 & Hm1 & Hs1 & Hl1).
  assert (Hframe : frame b1 = frame b) by (rewrite (mi_frame _ _ _ _ _ Hm1); symmetry; apply (mi_frame _ _ _ _ _ Hm)).
  assert (Hsame : forall e, e ∈ ds -> fresh_state (<[nr_req_id d := r]> reqs) e = fresh_state reqs e).
  { intros e He. unfold fresh_state. rewrite lookup_insert_ne; [done|]. intros Heq. apply Hnin. rewrite Heq. by apply list_elem_of_fmap_2. }
  destruct (IH _ b1 (nr_req_id d :: acc) Hm1 Hs1 Hnd) as (reqs' & b' & E & Hm' & Hl' & Hin & Hout).
  { intros e He. destruct (Hds e) as (r' & Hr' & Hg'); [by right|]. exists r'. rewrite Hsame by done. split; [done|by eapply frame_good]. }
  exists reqs', b'. split; [cbn [foldM]; rewrite E1, bind_ok, E; cbn; by rewrite <- app_assoc|]. split; [done|]. split; [rewrite Hl', Hl1; cbn; set_solver|]. split.
  - intros e [->|He]%elem_of_cons; [exists r; split; [done|]; rewrite Hout by done; by rewrite lookup_insert_eq|]. destruct (Hin e He) as (r' & Hr' & ?). exists r'. split; [by rewrite <- Hsame|done].
  - intros id Hid. cbn in Hid. rewrite Hout by set_solver. rewrite lookup_insert_ne; [done|set_solver].
Qed.

Lemma exact_cached spec D s0 reqs b b' d r r2 : mid s0 reqs b -> frame b' = frame b -> exact f32 spec D reqs b ->
  (if decide (cd_req_id d ∈ live b) then r2 = with_draft_len (zlen (drafts_for (cd_req_id d) spec)) r /\
      (forall i id v, at_row b' i = Some (id, v) -> if decide (id = cd_req_id d) then v = with_drafts (drafts_for id spec) (request_view f32 (vocab_size b) (shapes b) r) else at_row b i = Some (id, v))
    else r2 = r /\ b' = b) -> exact f32 spec (D ∪ {[cd_req_id d]}) (<[cd_req_id d := r2]> reqs) b'.
Proof.
  intros Hm Hf Hex H i id v Hv Hin. destruct (frame_fields _ _ Hf) as (_ & _ & -> & ->). destruct (decide (cd_req_id d ∈ live b)) as [Hl|Hl].
  - destruct H as [-> Hrows]. specialize (Hrows i id v Hv). destruct (decide (id = cd_req_id d)) as [->|Hne]; [eexists; rewrite lookup_insert_eq; by split|].
    rewrite lookup_insert_ne by done. apply (Hex i); [done|set_solver].
  - destruct H as [-> ->]. assert (Hne : id <> cd_req_id d) by (intros ->; apply Hl; apply (live_rows_iff W); [apply Hm|eauto]). rewrite lookup_insert_ne by done. apply (Hex i); [done|set_solver].
Qed.
Lemma cached_requests_mid spec s0 D reqs b acc ds : mid s0 reqs b -> NoDup (cd_req_id <$> ds) -> exact f32 spec D reqs b ->
  (forall d, d ∈ ds -> (exists r, reqs !! cd_req_id d = Some r /\ cached_ok W spec (shapes b) d r) /\ (cd_resumed d = true -> cd_req_id d ∉ live b)) -> exists reqs' b',
  foldM (cached_request spec) (mkRunner reqs b, acc) ds = Ok (mkRunner reqs' b', rev (filter (fun id => id ∉ live b) (cd_req_id <$> ds)) ++ acc) /\ mid s0 reqs' b' /\ live b' = live b /\
  exact f32 spec (D ∪ list_to_set (cd_req_id <$> ds)) reqs' b' /\
  (forall d, d ∈ ds -> exists r, reqs !! cd_req_id d = Some r /\ reqs' !! cd_req_id d = Some ((if decide (cd_req_id d ∈ live b) then with_draft_len (zlen (drafts_for (cd_req_id d) spec)) else (fun r => r)) (cached_state d r))) /\
  (forall id, id ∉ cd_req_id <$> ds -> reqs' !! id = reqs !! id).
Proof.
  revert D reqs b acc. induction ds as [|d ds IH]; intros D reqs b acc Hm Hnd Hex Hds.
  { exists reqs, b. split_and!; [done|done|done| |by intros d ?%elem_of_nil|done]. cbn. by rewrite union_empty_r_L. }
  cbn in Hnd. apply NoDup_cons in Hnd as [Hnin Hnd]. destruct (Hds d) as [(r & Hr & Hok) Hres]; [by left|].
  destruct (cached_request_mid W f32 s0 reqs b acc d spec r Hm Hr Hok Hres) as (b1 & r2 & acc1 & E1 & Hm1 & Hx1 & Hf1 & _ & Hcase).
  assert (Hl1 : live b1 = live b) by (unfold live; by rewrite Hx1). destruct (frame_fields _ _ Hf1) as (_ & _ & _ & Es1).
  assert (Hother : forall e, e ∈ ds -> cd_req_id e <> cd_req_id d) by (intros e He Heq; apply Hnin; rewrite <- Heq; by apply list_elem_of_fmap_2).
  assert (Hex1 : exact f32 spec (D ∪ {[cd_req_id d]}) (<[cd_req_id d := r2]> reqs) b1).
  { apply (exact_cached spec D s0 reqs b b1 d (cached_state d r) r2 Hm Hf1 Hex). case_decide; by destruct Hcase as (_ & ? & ?). }
  destruct (IH _ _ b1 acc1 Hm1 Hnd Hex1) as (reqs' & b' & E & Hm' & Hl' & Hex' & Hin & Hout).
  { intros e He. destruct (Hds e) as [(r' & Hr' & Hok') Hres']; [by right|]. rewrite Hl1, Es1. split; [|done]. exists r'. rewrite lookup_insert_ne by (symmetry; by apply Hother). done. }
  exists reqs', b'. cbn [foldM]. rewrite E1, bind_ok, E, Hl1. split; [|split; [done|split; [congruence|split; [|split]]]].
  - do 2 f_equal. cbn [fmap list_fmap]. rewrite filter_cons. destruct (decide (cd_req_id d ∈ live b)) as [Hl|Hl]; destruct Hcase as (-> & _).
    + by rewrite decide_False by (by intros []).
    + rewrite decide_True by done. cbn. by rewrite <- app_assoc.
  - cbn. by rewrite union_assoc_L.
  - intros e [->|He]%elem_of_cons.
    + exists r. split; [done|]. rewrite Hout, lookup_insert_eq by done. case_decide; destruct Hcase as (_ & -> & _); done.
    + destruct (Hin e He) as (r' & Hr' & H'). rewrite lookup_insert_ne in Hr' by (symmetry; by apply Hother). exists r'. split; [done|]. by rewrite Hl1 in H'.
  - intros id Hid. cbn in Hid. rewrite Hout by set_solver. rewrite lookup_insert_ne; [done|set_solver].
Qed.

Lemma add_batches_mid spec s0 D reqs b ids : mid s0 reqs b -> NoDup ids -> exact f32 spec D reqs b -> (forall id, id ∈ ids -> id ∉ live b /\ exists r, reqs !! id = Some r /\ sized W (shapes b) (drafts_for id spec) r) ->
  (num_reqs b + length ids <= max_num_reqs b)%nat -> exists reqs' b',
  foldM (add_batch f32 spec) (mkRunner reqs b) ids = Ok (mkRunner reqs' b') /\ mid s0 reqs' b' /\ live b' = list_to_set ids ∪ live b /\ exact f32 spec (D ∪ list_to_set ids) reqs' b' /\
  (forall id, id ∈ ids -> exists r, reqs !! id = Some r /\ reqs' !! id = Some (with_draft_len (zlen (drafts_for id spec)) r)) /\ (forall id, id ∉ ids -> reqs' !! id = reqs !! id).
Proof.
  revert D reqs b. induction ids as [|id ids IH]; intros D reqs b Hm Hnd Hex Hids Hroom.
  { exists reqs, b. split_and!; [done|done|set_solver| |by intros d ?%elem_of_nil|done]. cbn. by rewrite union_empty_r_L. }
  apply NoDup_cons in Hnd as [Hnin Hnd]. cbn in Hroom. destruct (Hids id) as (Hnl & r & Hr & Hsz); [by left|].
  destruct (add_batch_mid W f32 s0 reqs b spec id r Hm Hr Hnl Hsz) as (b1 & E1 & Hm1 & Hl1 & Hn1 & Hf1 & Hrows); [lia|]. destruct (frame_fields _ _ Hf1) as (_ & Emax & Ev1 & Es1).
  destruct (IH (D ∪ {[id]}) _ b1 Hm1 Hnd) as (reqs' & b' & E & Hm' & Hl' & Hex' & Hin & Hout).
  - intros i id' v Hv Hd. rewrite Ev1, Es1. specialize (Hrows i id' v Hv). destruct (decide (id' = id)) as [->|Hne]; [eexists; rewrite lookup_insert_eq; by split|].
    rewrite lookup_insert_ne by done. apply (Hex i); [done|set_solver].
  - intros id' Hin. destruct (Hids id') as (Hnl' & r' & Hr' & Hsz'); [by right|]. rewrite Hl1, Es1. split; [set_solver|]. exists r'. rewrite lookup_insert_ne by (intros ->; done). done.
  - rewrite Hn1, Emax. lia.
  - exists reqs', b'. cbn [foldM]. rewrite E1, bind_ok, E. split; [done|]. split; [done|]. split; [rewrite Hl', Hl1; cbn; set_solver|]. split; [cbn; by rewrite union_assoc_L|]. split.
    + intros id' [->|Hin']%elem_of_cons; [exists r; rewrite Hout by done; by rewrite lookup_insert_eq|]. destruct (Hin id' Hin') as (r' & Hr' & H'). rewrite lookup_insert_ne in Hr' by (intros ->; done). by exists r'.
    + intros id' Hid. rewrite Hout by set_solver. rewrite lookup_insert_ne; [done|set_solver].
Qed.

(** ** A step *)

Record runner_ok (s : Runner) : Prop := {
  ru_wf : batch_wf W (input_batch s);
  ru_ready : ready (input_batch s);
  ru_mirrors : mirrors f32 (requests s) (input_batch s);
  ru_good : forall id r, requests s !! id = Some r -> cr_req_id r = id /\ good_request (input_batch s) r;
}.
(** The requests that stay known. *)
Definition unfinished (ids : list string) (reqs : gmap string CachedRequestState) : gmap string CachedRequestState := foldl (fun m id => delete id m) reqs ids.
Definition step_ids (o : StepInput) : list string := (nr_req_id <$> scheduled_new_reqs o) ++ (cd_req_id <$> scheduled_cached_reqs o).
(** What the scheduler sends: every scheduled request once, with room for its tokens, its
    drafts and its blocks. *)
Record step_ok (s : Runner) (o : StepInput) : Prop := {
  so_ids : NoDup (step_ids o);
  so_scheduled : scheduled_req_ids o = list_to_set (step_ids o);
  so_room : (length (step_ids o) <= max_num_reqs (input_batch s))%nat;
  so_new : forall d, d ∈ scheduled_new_reqs o -> exists r, fresh_state (unfinished (finished_req_ids o) (requests s)) d = Ok r /\ good_request (input_batch s) r /\
    sized W (shapes (input_batch s)) (drafts_for (nr_req_id d) (scheduled_spec_decode_tokens o)) r;
  so_cached : forall d, d ∈ scheduled_cached_reqs o -> cd_req_id d ∉ finished_req_ids o /\
    exists r, requests s !! cd_req_id d = Some r /\ cached_ok W (scheduled_spec_decode_tokens o) (shapes (input_batch s)) d r;
}.
(** The state that a step gives to a request it schedules. *)
Definition state_in_step (o : StepInput) (reqs : gmap string CachedRequestState) (id : string) (r : CachedRequestState) : Prop :=
  (exists d, d ∈ scheduled_new_reqs o /\ nr_req_id d = id /\ fresh_state (unfinished (finished_req_ids o) reqs) d = Ok r) \/
  (exists d r0, d ∈ scheduled_cached_reqs o /\ cd_req_id d = id /\ reqs !! id = Some r0 /\ r = cached_state d r0).
Definition requests_after (o : StepInput) (reqs reqs' : gmap string CachedRequestState) : Prop :=
  (forall id, id ∈ step_ids o -> exists r, state_in_step o reqs id r /\ reqs' !! id = Some (with_draft_len (zlen (drafts_for id (scheduled_spec_decode_tokens o))) r)) /\
  (forall id, id ∉ step_ids o -> reqs' !! id = if decide (id ∈ finished_req_ids o) then None else reqs !! id).

Lemma unfinished_lookup ids reqs id : unfinished ids reqs !! id = if decide (id ∈ ids) then None else reqs !! id.
Proof.
  unfold unfinished. revert reqs. induction ids as [|x ids IH]; intros reqs; cbn [foldl]; [by rewrite decide_False by (by intros ?%elem_of_nil)|]. rewrite IH.
  destruct (decide (id ∈ ids)) as [H|H]; [by rewrite decide_True by (by right)|]. destruct (decide (id = x)) as [->|Hne]; [rewrite lookup_delete_eq; by rewrite decide_True by (by left)|].
  rewrite lookup_delete_ne by done. rewrite decide_False; [done|]. by intros [|]%elem_of_cons.
Qed.
Lemma runner_mid s : runner_ok s -> mid s (requests s) (input_batch s) /\ sorted_flag (input_batch s) = false.
Proof.
  intros [Hw [Hd Hb] Hm Hg]. split; [split|].
  - done.
  - by apply ready_editing.
  - done.
  - done.
  - done.
  - intros T ns m0 _ H i. rewrite <- (H i). unfold pending, pending_update, holes. by rewrite Hb.
  - unfold pending_update, holes. rewrite Hb. split_and!; cbn; intros *; by intros ?%elem_of_nil.
  - by intros _ _ _ _ i.
  - unfold sorted_flag. by rewrite Hb.
Qed.
Lemma num_live b : num_reqs b = size (live b).
Proof. unfold num_reqs, live. by rewrite size_dom. Qed.

(** *** Who leaves *)

Lemma leave_spec set_order s o : (forall X, set_order X ≡ₚ elements X) -> runner_ok s -> exists b1 b2,
  foldM remove_batch (input_batch s) (finished_req_ids o) = Ok b1 /\ foldM remove_batch b1 (set_order (unscheduled_req_ids o b1)) = Ok b2 /\
  mid s (unfinished (finished_req_ids o) (requests s)) b2 /\ sorted_flag b2 = false /\ live b2 ⊆ scheduled_req_ids o ∖ resumed_req_ids o.
Proof.
  intros Horder Hs. destruct (runner_mid s Hs) as [Hm0 Hs0]. destruct (remove_all_mid W f32 s _ _ (finished_req_ids o) Hm0 Hs0) as (b1 & E1 & Hm1 & Hs1 & Hl1).
  destruct (remove_all_mid W f32 s _ _ (set_order (unscheduled_req_ids o b1)) Hm1 Hs1) as (b2 & E2 & Hm2 & Hs2 & Hl2). exists b1, b2.
  assert (Hl2' : forall id, id ∈ live b2 <-> id ∈ live b1 /\ id ∈ scheduled_req_ids o ∖ resumed_req_ids o).
  { intros id. rewrite Hl2, elem_of_difference, elem_of_list_to_set, (Horder _), elem_of_elements. unfold unscheduled_req_ids. fold (live b1). rewrite (elem_of_difference (live b1)).
    destruct (decide (id ∈ scheduled_req_ids o ∖ resumed_req_ids o)); naive_solver. }
  split_and!; [done|done| |done|intros id H; by apply Hl2' in H as [_ H]]. apply (mid_requests W f32 s (requests s) _ b2 Hm2).
  - intros id Hid. rewrite unfinished_lookup, decide_False; [done|]. intros Hf. apply Hl2' in Hid as [Hid _]. rewrite Hl1 in Hid. set_solver.
  - intros id r. rewrite unfinished_lookup. case_decide; [done|]. apply (mi_good _ _ _ _ _ Hm2).
Qed.

(** *** Who arrives, and who runs on *)

Definition old_ids (o : StepInput) : list string := cd_req_id <$> scheduled_cached_reqs o.
Definition new_ids (o : StepInput) : list string := nr_req_id <$> scheduled_new_reqs o.
(** Those that are to join. *)
Definition joining (o : StepInput) (b : InputBatch) : list string := new_ids o ++ filter (fun id => id ∉ live b) (old_ids o).

Lemma resumed_in o d : d ∈ scheduled_cached_reqs o -> cd_resumed d = true -> cd_req_id d ∈ resumed_req_ids o.
Proof. intros Hd Hr. unfold resumed_req_ids. apply elem_of_list_to_set, list_elem_of_fmap. exists d. split; [done|]. apply list_elem_of_filter. split; [by rewrite Hr|done]. Qed.
Lemma mid_good s reqs b r : mid s reqs b -> good_request (input_batch s) r -> good_request b r.
Proof. intros H. apply frame_good. apply (mi_frame _ _ _ _ _ H). Qed.
Lemma mid_shapes s reqs b : mid s reqs b -> shapes b = shapes (input_batch s) /\ max_num_reqs b = max_num_reqs (input_batch s).
Proof. intros H. by destruct (frame_fields _ _ (mi_frame _ _ _ _ _ H)) as (_ & -> & _ & ->). Qed.

Lemma arrive_spec s o b2 : step_ok s o -> let reqs0 := unfinished (finished_req_ids o) (requests s) in mid s reqs0 b2 -> sorted_flag b2 = false -> live b2 ⊆ scheduled_req_ids o ∖ resumed_req_ids o ->
  exists s3 new reqs4 b4, foldM new_request (mkRunner reqs0 b2, []) (scheduled_new_reqs o) = Ok (s3, new) /\
  foldM (cached_request (scheduled_spec_decode_tokens o)) (s3, new) (scheduled_cached_reqs o) = Ok (mkRunner reqs4 b4, rev (joining o b4)) /\
  mid s reqs4 b4 /\ live b4 ⊆ list_to_set (old_ids o) /\ (forall id, id ∈ live b4 -> id ∉ new_ids o) /\ exact f32 (scheduled_spec_decode_tokens o) (list_to_set (old_ids o)) reqs4 b4 /\
  (forall d, d ∈ scheduled_new_reqs o -> exists r, fresh_state reqs0 d = Ok r /\ reqs4 !! nr_req_id d = Some r) /\
  (forall d, d ∈ scheduled_cached_reqs o -> exists r, requests s !! cd_req_id d = Some r /\
    reqs4 !! cd_req_id d = Some ((if decide (cd_req_id d ∈ live b4) then with_draft_len (zlen (drafts_for (cd_req_id d) (scheduled_spec_decode_tokens o))) else (fun r => r)) (cached_state d r))) /\
  (forall id, id ∉ step_ids o -> reqs4 !! id = reqs0 !! id).
Proof.
  intros [Hnd Hsch Hroom Hnew Hcached] reqs0 Hm2 Hs2 Hl2. set (spec := scheduled_spec_decode_tokens o) in *. unfold step_ids in Hnd, Hsch |- *. fold (new_ids o) (old_ids o) in *.
  pose proof (proj1 (NoDup_app (new_ids o) (old_ids o)) Hnd) as (Hnd1 & Hdisj & Hnd2).
  destruct (new_requests_mid s reqs0 b2 [] (scheduled_new_reqs o) Hm2 Hs2 Hnd1) as (reqs3 & b3 & E3 & Hm3 & Hl3 & Hin3 & Hout3).
  { intros d Hd. destruct (Hnew d Hd) as (r & Hr & Hg & _). exists r. split; [done|by eapply mid_good]. }
  fold (new_ids o) in Hl3, Hout3, E3. rewrite app_nil_r in E3. assert (Hold : forall d, d ∈ scheduled_cached_reqs o -> cd_req_id d ∈ old_ids o) by (intros d Hd; by apply list_elem_of_fmap_2).
  assert (Hback : forall d, d ∈ scheduled_cached_reqs o -> reqs3 !! cd_req_id d = requests s !! cd_req_id d).
  { intros d Hd. rewrite Hout3 by (intros H; apply (Hdisj _ H); by apply Hold). unfold reqs0. rewrite unfinished_lookup, decide_False; [done|]. apply (Hcached d Hd). }
  destruct (cached_requests_mid spec s ∅ reqs3 b3 (rev (new_ids o)) (scheduled_cached_reqs o) Hm3 Hnd2) as (reqs4 & b4 & E4 & Hm4 & Hl4 & Hex4 & Hin4 & Hout4).
  { intros i id v _ H. set_solver. }
  { intros d Hd. destruct (Hcached d Hd) as (Hfin & r & Hr & Hok). split.
    - exists r. rewrite Hback by done. by rewrite (proj1 (mid_shapes _ _ _ Hm3)).
    - intros Hr'. pose proof (resumed_in o d Hd Hr'). set_solver. }
  fold (old_ids o) in E4, Hex4, Hout4. exists (mkRunner reqs3 b3), (rev (new_ids o)), reqs4, b4. split; [done|]. split.
  { rewrite E4. do 2 f_equal. unfold joining. by rewrite rev_app_distr, Hl4. }
  split; [done|]. split; [|split; [|split; [|split; [|split]]]].
  - rewrite Hl4, Hl3. intros id [H1 H2]%elem_of_difference. apply Hl2, elem_of_difference in H1 as [H1 _]. rewrite Hsch, list_to_set_app_L in H1. set_solver.
  - intros id. rewrite Hl4, Hl3. set_solver.
  - by rewrite union_empty_l_L in Hex4.
  - intros d Hd. destruct (Hin3 d Hd) as (r & Hr & Hlook). exists r. split; [done|]. rewrite Hout4; [done|]. apply Hdisj. by apply list_elem_of_fmap_2.
  - intros d Hd. destruct (Hin4 d Hd) as (r & Hr & Hlook). exists r. rewrite Hback in Hr by done. split; [done|]. by rewrite Hl4.
  - intros id Hid. assert (id ∉ new_ids o /\ id ∉ old_ids o) as [Hn1 Hn2] by (split; intros H; apply Hid, elem_of_app; auto). by rewrite Hout4, Hout3.
Qed.

(** *** Who joins *)

Lemma joining_iff o b id : (forall x, x ∈ live b -> x ∉ new_ids o) -> id ∈ joining o b <-> id ∈ step_ids o /\ id ∉ live b.
Proof.
  intros Hnew. unfold joining, step_ids. fold (new_ids o) (old_ids o). rewrite !elem_of_app, list_elem_of_filter. split; [intros [H|[H1 H2]]; [split; [by left|]|by split; [right|]]|].
  - intros Hl. by apply (Hnew id).
  - intros [[H|H] Hn]; [by left|by right].
Qed.
Lemma joining_nodup o b : NoDup (step_ids o) -> NoDup (joining o b).
Proof.
  unfold step_ids. fold (new_ids o) (old_ids o). intros (H1 & H2 & H3)%NoDup_app. apply NoDup_app. split_and!; [done| |by apply NoDup_filter]. intros id Hid [_ Hj]%list_elem_of_filter. by apply (H2 id).
Qed.
Lemma joining_room o b : NoDup (step_ids o) -> live b ⊆ list_to_set (old_ids o) -> (forall x, x ∈ live b -> x ∉ new_ids o) -> (num_reqs b + length (joining o b) <= length (step_ids o))%nat.
Proof.
  intros Hnd Hl Hnew. rewrite num_live. pose proof (joining_nodup o b Hnd) as Hj. rewrite <- (size_list_to_set (C := gset string) (joining o b)), <- (size_list_to_set (C := gset string) (step_ids o)) by done.
  rewrite <- size_union by (intros id H1 H2%elem_of_list_to_set; by apply joining_iff in H2 as [_ H2]). apply subseteq_size. intros id. rewrite elem_of_union, !elem_of_list_to_set, (joining_iff o b id Hnew).
  intros [H|[H _]]; [|done]. apply Hl, elem_of_list_to_set in H. unfold step_ids. apply elem_of_app. by right.
Qed.

(** The batch when all requests are in it, before it is condensed. *)
Lemma gather_spec set_order s o : (forall X, set_order X ≡ₚ elements X) -> runner_ok s -> step_ok s o -> exists b1 b2 s3 new s4 to_add reqs b,
  foldM remove_batch (input_batch s) (finished_req_ids o) = Ok b1 /\ foldM remove_batch b1 (set_order (unscheduled_req_ids o b1)) = Ok b2 /\
  foldM new_request (mkRunner (unfinished (finished_req_ids o) (requests s)) b2, []) (scheduled_new_reqs o) = Ok (s3, new) /\
  foldM (cached_request (scheduled_spec_decode_tokens o)) (s3, new) (scheduled_cached_reqs o) = Ok (s4, to_add) /\
  foldM (add_batch f32 (scheduled_spec_decode_tokens o)) s4 (rev to_add) = Ok (mkRunner reqs b) /\ mid s reqs b /\ live b = scheduled_req_ids o /\
  exact f32 (scheduled_spec_decode_tokens o) (scheduled_req_ids o) reqs b /\ requests_after o (requests s) reqs.
Proof.
  intros Horder Hs Ho. destruct (leave_spec set_order s o Horder Hs) as (b1 & b2 & E1 & E2 & Hm2 & Hs2 & Hl2).
  destruct (arrive_spec s o b2 Ho Hm2 Hs2 Hl2) as (s3 & new & reqs4 & b4 & E3 & E4 & Hm4 & Hl4 & Hfresh & Hex4 & Hin3 & Hin4 & Hout4). pose proof Ho as [Hnd Hsch Hroom Hnew Hcached]. set (spec := scheduled_spec_decode_tokens o) in *.
  pose proof (fun id => joining_iff o b4 id Hfresh) as Hj. destruct (mid_shapes _ _ _ Hm4) as [Esh Emax].
  assert (Hbefore : forall id, id ∈ step_ids o -> exists r, state_in_step o (requests s) id r /\ sized W (shapes b4) (drafts_for id spec) r /\ reqs4 !! id = Some ((if decide (id ∈ live b4) then with_draft_len (zlen (drafts_for id spec)) else (fun r => r)) r)).
  { intros id [Hid|Hid]%elem_of_app; rewrite Esh; apply list_elem_of_fmap in Hid as (d & -> & Hd).
    - destruct (Hnew d Hd) as (r & Hr & Hg & Hsz). destruct (Hin3 d Hd) as (r' & Hr' & Hlook). assert (r' = r) as -> by congruence. exists r. split; [left; by exists d|split; [done|]].
      rewrite decide_False; [done|]. intros Hl. apply (Hfresh _ Hl). by apply list_elem_of_fmap_2.
    - destruct (Hcached d Hd) as (_ & r & Hr & Hok). destruct (Hin4 d Hd) as (r' & Hr' & Hlook). assert (r' = r) as -> by congruence. exists (cached_state d r). split; [right; by exists d, r|split; [apply Hok|done]]. }
  destruct (add_batches_mid spec s _ reqs4 b4 (joining o b4) Hm4 (joining_nodup o b4 Hnd) Hex4) as (reqs5 & b5 & E5 & Hm5 & Hl5 & Hex5 & Hin5 & Hout5).
  { intros id [Hid Hnl]%Hj. split; [done|]. destruct (Hbefore id Hid) as (r & _ & Hsz & Hr). rewrite decide_False in Hr by done. by exists r. }
  { rewrite Emax. etrans; [by apply joining_room|done]. }
  assert (Hfin : live b5 = scheduled_req_ids o).
  { rewrite Hl5, Hsch. apply set_eq. intros id. rewrite elem_of_union, !elem_of_list_to_set, Hj. split; [intros [[? _]|H]; [done|apply elem_of_app; right; by apply Hl4, elem_of_list_to_set in H]|]. destruct (decide (id ∈ live b4)); tauto. }
  exists b1, b2, s3, new, (mkRunner reqs4 b4), (rev (joining o b4)), reqs5, b5. rewrite rev_involutive. split_and!; try done.
  - intros i id v Hv Hid. apply (Hex5 i id v Hv). rewrite <- Hfin, Hl5 in Hid. set_solver.
  - split; intros id Hid; [|rewrite Hout5, Hout4 by (rewrite ?Hj; tauto); apply unfinished_lookup]. destruct (Hbefore id Hid) as (r & Hst & _ & Hr). exists r. split; [done|].
    destruct (decide (id ∈ live b4)) as [Hl|Hl]; [rewrite Hout5 by (rewrite Hj; tauto); done|]. destruct (Hin5 id) as (r' & Hr' & H5); [by apply Hj|]. assert (r' = r) as -> by congruence. done.
Qed.

(** *** The rows settle *)

(** What is known of the batch before the update is sent. *)
Record settled (o : StepInput) (s0 : Runner) (reqs : gmap string CachedRequestState) (b : InputBatch) : Prop := {
  se_wf : batch_wf W b;
  se_dense : dense b;
  se_frame : frame b = frame (input_batch s0);
  se_live : live b = scheduled_req_ids o;
  se_exact : exact f32 (scheduled_spec_decode_tokens o) (scheduled_req_ids o) reqs b;
  se_good : forall id r, reqs !! id = Some r -> cr_req_id r = id /\ good_request b r;
  se_follows : follows (requests s0) (input_batch s0) reqs b;
  se_range : rows_within (max_num_reqs b) (pending_update b);
  se_quiet : quiet (input_batch s0) b;
}.
(** What an attention backend may do to the batch: rows are put in another order. *)
Definition reordering (b b' : InputBatch) : Prop := batch_wf W b' /\ condensed b b' /\ dense b'.
(** A batch that can be reordered. *)
Definition orderly (b : InputBatch) : Prop := batch_wf W b /\ dense b /\ moves_ok b /\ forall j, j ∈ holes b -> (length (req_ids b) <= j)%nat.
Definition reorders (reorder : StepInput -> InputBatch -> result InputBatch) (o : StepInput) : Prop :=
  forall b, orderly b -> live b = scheduled_req_ids o -> exists b', reorder o b = Ok b' /\ reordering b b'.

Lemma live_same b b' : batch_wf W b -> batch_wf W b' -> condensed b b' -> live b' = live b.
Proof.
  intros Hw Hw' Hc. apply set_eq. intros id. rewrite (live_rows_iff W b' id Hw'), (live_rows_iff W b id Hw). 
  split; intros (i & v & Hv); [destruct (proj1 (cn_same _ _ Hc (id, v))) as [j Hj]|destruct (proj2 (cn_same _ _ Hc (id, v))) as [j Hj]]; eauto.
Qed.
Lemma condensed_frame b b' : condensed b b' -> frame b' = frame b.
Proof. intros H. apply frame_of; apply H. Qed.
Lemma settle o s0 reqs b b' : mid s0 reqs b -> live b = scheduled_req_ids o -> exact f32 (scheduled_spec_decode_tokens o) (scheduled_req_ids o) reqs b ->
  batch_wf W b' -> dense b' -> condensed b b' -> settled o s0 reqs b'.
Proof.
  intros Hm Hl Hex Hw' Hd' Hc. pose proof (condensed_frame _ _ Hc) as Hf. destruct (frame_fields _ _ Hf) as (Ep & Em & Ev & Es). pose proof (mi_wf _ _ _ _ _ Hm) as Hw. split.
  - done.
  - done.
  - rewrite Hf. apply (mi_frame _ _ _ _ _ Hm).
  - by rewrite (live_same b b').
  - intros i id v Hv Hid. rewrite Ev, Es. destruct (proj1 (cn_same _ _ Hc (id, v))) as [j Hj]; [by exists i|]. by apply (Hex j).
  - intros id r Hr. destruct (mi_good _ _ _ _ _ Hm id r Hr). split; [done|by eapply frame_good].
  - intros T ns m0 Hp H. rewrite Ep in Hp. apply (cn_sync _ _ Hc); [done|]. by apply (mi_follows _ _ _ _ _ Hm).
  - apply (cn_range _ _ Hc), (mi_range _ _ _ _ _ Hm).
  - intros Hp Ha Hh Hmv i. rewrite Ep in Hp. rewrite (cn_added _ _ Hc) in Ha. destruct (cn_quiet _ _ Hc Hp Hh Hmv) as (Hh' & Hmv' & Hrows). rewrite Hrows. by apply (mi_quiet _ _ _ _ _ Hm).
Qed.

(** *** The update and the metadata *)

Definition refreshed (b : InputBatch) (upd : option (BatchUpdate Added)) (md : option SamplingMetadata) (b' : InputBatch) : Prop :=
  b' = set_batch_update_builder builder_init b /\ (forall m, md = Some m -> metadata_ok m b') /\
  (is_pooling_model b = false -> match upd with Some u => u = pending_update b /\ is_Some md | None => md = None /\ holes b = [] /\ added (batch_update_builder b) = [] /\ moved (batch_update_builder b) = [] end).
Lemma refresh_spec needs b : batch_wf W b -> dense b -> exists upd md b', refresh_metadata needs b = Ok (upd, md, b') /\ refreshed b upd md b'.
Proof.
  intros Hw Hd. set (b' := set_batch_update_builder builder_init b). assert (Hw' : batch_wf W b') by (by apply set_builder_wf). assert (Hd' : dense b') by (by destruct b).
  destruct (make_metadata_ok W needs b' Hw' Hd') as (m & Em & Hm). unfold refresh_metadata, refreshed. destruct (is_pooling_model b) eqn:Ep.
  - unfold builder_reset. cbv beta iota zeta. fold b'. destruct (batch_changed _); [rewrite Em, bind_ok; exists None, (Some m), b'|exists None, None, b']; (split; [done|split; [done|split; [|done]]]); intros ? [=]; by subst.
  - unfold get_and_reset, pending_update, holes. change (mkBuilder [] false [] [] false) with (@builder_init Added).
    destruct (removed_rows (batch_update_builder b)) as [|x l] eqn:E1, (moved (batch_update_builder b)) as [|y l2] eqn:E2, (added (batch_update_builder b)) as [|z l3] eqn:E3;
      cbv beta iota zeta; fold b'; try (exists None, None, b'; by split_and!); rewrite Em, bind_ok; eexists _, (Some m), b'; (split; [done|split; [done|split; [intros ? [=]; by subst|by split]]]).
Qed.
Lemma pending_process {T} (ns : Added -> option T) truthy m0 b upd md b' : is_pooling_model b = false -> refreshed b upd md b' -> (process_dict_updates ns truthy upd m0).1 = pending ns m0 b.
Proof.
  intros Hp (_ & _ & H). specialize (H Hp). destruct upd as [u|]; [destruct H as [-> _]; by rewrite process_effect|]. destruct H as (_ & H1 & H2 & H3). unfold pending, pending_update. rewrite H1, H2, H3. done.
Qed.

(** A step: what it leaves behind. *)
Lemma update_states_settles set_order needs reorder s o : (forall X, set_order X ≡ₚ elements X) -> runner_ok s -> step_ok s o -> reorders reorder o ->
  exists upd md reqs b b', update_states f32 set_order needs reorder o s = Ok (upd, md, mkRunner reqs b') /\ settled o s reqs b /\ requests_after o (requests s) reqs /\ refreshed b upd md b'.
Proof.
  intros Horder Hs Ho Hre. destruct (gather_spec set_order s o Horder Hs Ho) as (b1 & b2 & s3 & new & s4 & to_add & reqs & b & E1 & E2 & E3 & E4 & E5 & Hm & Hl & Hex & Hreqs).
  destruct (condense_spec W b (mi_wf _ _ _ _ _ Hm) (mi_editing _ _ _ _ _ Hm)) as (b6 & E6 & Hw6 & Hc6 & Hd6 & Hmv6 & Hh6 & _).
  destruct (Hre b6) as (b7 & E7 & Hw7 & Hc7 & Hd7); [exact (conj Hw6 (conj Hd6 (conj Hmv6 Hh6)))|by rewrite (live_same b b6 (mi_wf _ _ _ _ _ Hm) Hw6 Hc6)|].
  pose proof (settle o s reqs b b7 Hm Hl Hex Hw7 Hd7 (condensed_trans _ _ _ Hc6 Hc7)) as Hset. destruct (refresh_spec needs b7 Hw7 Hd7) as (upd & md & b8 & E8 & Hr8).
  exists upd, md, reqs, b7, b8. split; [|done]. unfold update_states. fold (unfinished (finished_req_ids o) (requests s)). rewrite E1, bind_ok, E2, bind_ok, E3, bind_ok, E4, bind_ok, E5, bind_ok. cbn [input_batch requests].
  by rewrite E6, bind_ok, E7, bind_ok, E8, bind_ok.
Qed.

(** The batch is ready for the next step. *)
Lemma settled_ok o s reqs b upd md b' : settled o s reqs b -> refreshed b upd md b' -> runner_ok (mkRunner reqs b') /\ live b' = scheduled_req_ids o /\ frame b' = frame (input_batch s) /\
  (forall i, at_row b' i = at_row b i) /\ exact f32 (scheduled_spec_decode_tokens o) (scheduled_req_ids o) reqs b'.
Proof.
  intros [Hw Hd Hf Hl Hex Hg Hfol Hran Hq] (-> & _). assert (Hf' : frame (set_batch_update_builder builder_init b) = frame b) by (by destruct b). destruct (frame_fields _ _ Hf') as (_ & _ & Ev & Es).
  assert (Hex' : exact f32 (scheduled_spec_decode_tokens o) (scheduled_req_ids o) reqs (set_batch_update_builder builder_init b)) by (intros i id v; rewrite Ev, Es, set_builder_at_row; apply Hex).
  assert (Hl' : live (set_batch_update_builder builder_init b) = live b) by (by destruct b).
  split; [split; cbn|split; [congruence|split; [congruence|split; [intros i; apply set_builder_at_row|done]]]].
  - by apply set_builder_wf.
  - split; by destruct b.
  - intros i id v Hv. destruct (Hex' i id v Hv) as (r & Hr & ->); [|by exists r]. rewrite <- Hl, <- Hl'. apply (live_rows_iff W); [by apply set_builder_wf|eauto].
  - intros id r Hr. destruct (Hg id r Hr). split; [done|by eapply frame_good].
Qed.
End Step.
