(* ===== verification/BatchReorder.v ===== *)
(** * Reordering the batch

    [reorder_batch_to_split_decodes_and_prefills] takes the rows that stand in the wrong region,
    pairs them stably with the places they go to, and follows the cycles of this permutation
    with [swap_states].  The loops end, and afterwards decodes, extends and prefills follow each
    other. *)
From stdpp Require Import sorting.
From S2P Require Import Prelude Request BlockTable BlockTableProps BatchUpdate BatchUpdateProps InputBatch ModelRunner InputBatchView InputBatchProps InputBatchMove InputBatchUpdate ModelRunnerProps ModelRunnerStep.
From Stdlib Require Import QArith.QArith.
Open Scope Z_scope.

(** ** The pairs *)

Section Argsort.
Context (keys : list Z).
Definition before_key (i j : nat) : Prop := nth i keys 0 <= nth j keys 0.
Lemma insert_by_perm x l : insert_by keys x l ≡ₚ x :: l.
Proof. induction l as [|y l IH]; cbn; [done|]. destruct (_ <=? _); [done|]. rewrite IH. apply Permutation_swap. Qed.
Lemma insert_by_sorted x l : StronglySorted before_key l -> StronglySorted before_key (insert_by keys x l).
Proof.
  induction 1 as [|y l Hl IH Hy]; cbn; [by repeat constructor|]. destruct (Z.leb_spec (nth x keys 0) (nth y keys 0)) as [H|H].
  - constructor; [by constructor|]. constructor; [done|]. eapply Forall_impl; [exact Hy|]. intros z. unfold before_key. lia.
  - constructor; [done|]. rewrite Forall_forall. intros z. rewrite insert_by_perm, elem_of_cons. intros [->|Hz]; [unfold before_key; lia|]. by apply (proj1 (Forall_forall _ _) Hy).
Qed.
Lemma argsort_perm : argsort_stable keys ≡ₚ seq 0 (length keys).
Proof. unfold argsort_stable. induction (seq 0 (length keys)) as [|x l IH]; [done|]. cbn. by rewrite insert_by_perm, IH. Qed.
Lemma argsort_sorted : StronglySorted before_key (argsort_stable keys).
Proof. unfold argsort_stable. induction (seq 0 (length keys)) as [|x l IH]; [constructor|]. by apply insert_by_sorted. Qed.
End Argsort.

Lemma nth_seq {A} (l : list A) d : (fun i => nth i l d) <$> seq 0 (length l) = l.
Proof.
  apply list_eq. intros i. rewrite list_lookup_fmap. destruct (decide (i < length l)%nat) as [H|H].
  - rewrite lookup_seq_lt by done. cbn. destruct (lookup_lt_is_Some_2 l i H) as [x Hx]. by rewrite (nth_lookup_Some l i d x Hx), Hx.
  - rewrite lookup_seq_ge by lia. symmetry. apply lookup_ge_None. lia.
Qed.
Definition is_region (r : Z) : Prop := r = 0 \/ r = 1 \/ r = 2.
Lemma regions_perm rs : Forall is_region rs -> (count_of 0 rs + count_of 1 rs <= length rs)%nat /\ rs ≡ₚ target_regions rs.
Proof.
  assert (Hcons : forall x y l, count_of y (x :: l) = ((if (x =? y)%Z then 1 else 0) + count_of y l)%nat) by (intros x y l; unfold count_of; rewrite filter_cons; destruct (decide (x = y)), (Z.eqb_spec x y); done).
  unfold target_regions. induction 1 as [|x l Hx Hl [Hlen IH]]; [done|]. rewrite !Hcons. destruct Hx as [->|[->| ->]]; cbn [length Z.eqb Pos.eqb Nat.add] in *.
  - split; [lia|]. replace (S (length l) - _ - _)%nat with (length l - count_of 0 l - count_of 1 l)%nat by lia. cbn. by constructor.
  - split; [lia|]. replace (S (length l) - _ - _)%nat with (length l - count_of 0 l - count_of 1 l)%nat by lia. cbn. rewrite <- Permutation_middle. by constructor.
  - split; [lia|]. replace (S (length l) - _ - _)%nat with (S (length l - count_of 0 l - count_of 1 l)) by lia. cbn. rewrite app_assoc, <- Permutation_middle, <- app_assoc. by constructor.
Qed.
Lemma target_sorted rs : StronglySorted Z.le (target_regions rs).
Proof.
  assert (Hrep : forall n (x : Z), StronglySorted Z.le (replicate n x)) by (intros n x; induction n; cbn; constructor; [done|apply Forall_replicate; lia]).
  assert (Happ : forall l1 l2, StronglySorted Z.le l1 -> StronglySorted Z.le l2 -> (forall x y, x ∈ l1 -> y ∈ l2 -> x <= y) -> StronglySorted Z.le (l1 ++ l2)).
  { intros l1 l2 H1 H2 H. induction H1 as [|x l1 H1 IH Hx]; [done|]. cbn. constructor; [apply IH; intros a b Ha Hb; apply H; [by right|done]|].
    apply Forall_app. split; [done|]. apply Forall_forall. intros y Hy. apply H; [by left|done]. }
  unfold target_regions. apply Happ; [done|apply Happ; [done|done|]|].
  - intros x y [-> _]%elem_of_replicate [-> _]%elem_of_replicate. lia.
  - intros x y [-> _]%elem_of_replicate [[-> _]%elem_of_replicate|[-> _]%elem_of_replicate]%elem_of_app; lia.
Qed.

Lemma strong_filter {A} (P : A -> A -> Prop) (Q : A -> Prop) `{!forall x, Decision (Q x)} l : StronglySorted P l -> StronglySorted P (filter Q l).
Proof.
  induction 1 as [|x l Hl IH Hx]; [constructor|]. rewrite filter_cons. case_decide; [|done]. constructor; [done|]. rewrite Forall_forall in Hx |- *. intros y [_ Hy]%list_elem_of_filter. by apply Hx.
Qed.
(** The sources, in the order of the places they go to, have the regions of these places. *)
Lemma strong_map {A B} (P : A -> A -> Prop) (Q : B -> B -> Prop) (f : A -> B) l : (forall x y, x ∈ l -> y ∈ l -> P x y -> Q (f x) (f y)) -> StronglySorted P l -> StronglySorted Q (f <$> l).
Proof.
  intros HPQ Hl. induction Hl as [|x l Hl IH Hx]; cbn; constructor.
  - apply IH. intros a b Ha Hb. apply HPQ; by right.
  - rewrite Forall_fmap. rewrite Forall_forall in Hx |- *. intros y Hy. apply HPQ; [by left|by right|by apply Hx].
Qed.
Lemma sources_perm rs : swap_sources rs ≡ₚ misplaced rs.
Proof. unfold swap_sources. rewrite argsort_perm, length_fmap. by rewrite nth_seq. Qed.
Lemma misplaced_iff rs i : i ∈ misplaced rs <-> (i < length rs)%nat /\ nth i rs 0 <> nth i (target_regions rs) 0.
Proof. unfold misplaced. rewrite list_elem_of_filter, elem_of_seq. split; intros [? ?]; (split; [lia || done|lia || done]). Qed.
Lemma misplaced_sorted rs : StronglySorted (fun i j => (i < j)%nat) (misplaced rs).
Proof. unfold misplaced. apply strong_filter. generalize 0%nat. induction (length rs) as [|n IH]; intros k; cbn; constructor; [apply IH|]. apply Forall_forall. intros x Hx%elem_of_seq. lia. Qed.
Lemma misplaced_nodup rs : NoDup (misplaced rs).
Proof. apply NoDup_filter, NoDup_seq. Qed.
Lemma sorted_nth (l : list Z) i j : StronglySorted Z.le l -> (i < j)%nat -> (j < length l)%nat -> nth i l 0 <= nth j l 0.
Proof.
  intros Hl. revert i j. induction Hl as [|x l Hl IH Hx]; intros i j Hij Hj; cbn in Hj; [lia|]. destruct i as [|i], j as [|j]; try lia; cbn; [|apply IH; lia].
  rewrite Forall_forall in Hx. apply Hx, list_elem_of_In, nth_In. lia.
Qed.
Lemma sorted_pairwise (l : list Z) : StronglySorted Z.le l <-> forall i j x y, (i < j)%nat -> l !! i = Some x -> l !! j = Some y -> x <= y.
Proof.
  split.
  - intros Hl i j x y Hij Hx Hy. rewrite <- (nth_lookup_Some _ _ 0 _ Hx), <- (nth_lookup_Some _ _ 0 _ Hy). apply sorted_nth; [done|done|by eapply lookup_lt_Some].
  - induction l as [|x l IH]; intros H; constructor; [apply IH; intros i j a c Hij; apply (H (S i) (S j)); lia|]. apply Forall_lookup. intros i y Hy. apply (H 0%nat (S i)); [lia|done|done].
Qed.
Lemma sources_targets rs : Forall is_region rs -> (fun i => nth i rs 0) <$> swap_sources rs = (fun i => nth i (target_regions rs) 0) <$> misplaced rs.
Proof.
  intros Hrs. destruct (regions_perm rs Hrs) as [_ Hperm]. apply (StronglySorted_unique Z.le).
  - unfold swap_sources. rewrite <- list_fmap_compose. apply (strong_map (before_key ((fun i => nth i rs 0) <$> misplaced rs))); [|apply argsort_sorted].
    intros i j Hi Hj. rewrite argsort_perm, elem_of_seq, length_fmap in Hi, Hj. unfold before_key, compose.
    assert (Hn : forall k, (k < length (misplaced rs))%nat -> nth k ((fun i => nth i rs 0) <$> misplaced rs) 0 = nth (nth k (misplaced rs) 0%nat) rs 0).
    { intros k Hk. rewrite (nth_indep _ 0 (nth 0%nat rs 0)) by (rewrite length_fmap; lia). by apply (map_nth (fun i => nth i rs 0)). }
    rewrite !Hn by lia. done.
  - apply (strong_map (fun i j => (i < j)%nat)); [|apply misplaced_sorted]. intros i j _ [Hj _]%misplaced_iff Hij. apply sorted_nth; [apply target_sorted|done|by rewrite <- (Permutation_length Hperm)].
  - rewrite sources_perm. set (P := fun i => nth i rs 0 <> nth i (target_regions rs) 0). pose proof (filter_app_complement P (seq 0 (length rs))) as Hsplit.
    apply (Permutation_app_inv_r ((fun i => nth i rs 0) <$> filter (fun x => ~ P x) (seq 0 (length rs)))). rewrite <- fmap_app. change (misplaced rs) with (filter P (seq 0 (length rs))). rewrite Hsplit.
    assert (Hkeep : (fun i => nth i rs 0) <$> filter (fun x => ~ P x) (seq 0 (length rs)) = (fun i => nth i (target_regions rs) 0) <$> filter (fun x => ~ P x) (seq 0 (length rs))).
    { apply list_fmap_ext. intros k i Hk. apply list_elem_of_lookup_2, list_elem_of_filter in Hk as [Hi _]. unfold P in Hi. by apply dec_stable in Hi. }
    rewrite Hkeep, <- fmap_app, Hsplit, nth_seq, Hperm at 1. rewrite (Permutation_length Hperm) at 1. by rewrite nth_seq.
Qed.

(** ** The cycles *)

(** Where the requests at the rows have to go, when two of them change places. *)
Definition exchange (i j : nat) (D : nat -> nat) (p : nat) : nat := if decide (p = i) then D j else if decide (p = j) then D i else D p.
Section Cycles.
(** [R s D]: in state [s] the item at each place [p] has to go to [D p]. *)
Context {S : Type} (swap : nat -> nat -> S -> result S) (keys : list nat) (R : S -> (nat -> nat) -> Prop).
Context (swap_ok : forall s D i j, R s D -> i <> j -> i ∈ keys -> j ∈ keys -> exists s', swap i j s = Ok s' /\ R s' (exchange i j D)).

Definition unfixed (D : nat -> nat) : list nat := filter (fun p => D p <> p) keys.
(** [done] places have their item; the map tells where the items of the other places go, but
    for the place that is at work. *)
Record course (src : option nat) (fixed : list nat) (m : gmap nat nat) (D : nat -> nat) : Prop := {
  co_inj : forall p q, D p = D q -> p = q;
  co_keys : forall p, p ∈ keys -> D p ∈ keys;
  co_fixed : forall p, p ∈ fixed -> D p = p;
  co_map : forall p, p ∈ keys -> p ∉ fixed -> src <> Some p -> m !! p = Some (D p);
}.
Lemma unfixed_step src dst D : (forall p q, D p = D q -> p = q) -> dst ∈ keys -> D src = dst -> src <> dst -> (length (unfixed (exchange src dst D)) < length (unfixed D))%nat.
Proof.
  intros Hinj Hd Hsrc Hne. assert (Hsub : forall p, exchange src dst D p <> p -> D p <> p /\ p <> dst).
  { intros p. unfold exchange. destruct (decide (p = src)) as [->|]; [by rewrite Hsrc|]. destruct (decide (p = dst)) as [->|]; [by rewrite Hsrc|done]. }
  assert (Hdst : D dst <> dst) by (intros H; apply Hne, Hinj; congruence). unfold unfixed. clear -Hsub Hdst Hd.
  assert (Hle : forall l, (length (filter (fun p => exchange src dst D p <> p) l) <= length (filter (fun p => D p <> p) l))%nat).
  { induction l as [|x l IH]; [done|]. rewrite !filter_cons. destruct (decide (exchange src dst D x <> x)) as [H|H]; [rewrite decide_True by (by apply Hsub); cbn; lia|]. case_decide; cbn; lia. }
  induction keys as [|x l IH]; [by apply elem_of_nil in Hd|]. rewrite !filter_cons. destruct (decide (x = dst)) as [->|Hx].
  - rewrite (decide_True (P := D dst <> dst)) by done. rewrite decide_False by (intros H; by apply Hsub in H as [_ H]). cbn. specialize (Hle l). lia.
  - apply elem_of_cons in Hd as [Hd|Hd]; [done|]. specialize (IH Hd). destruct (decide (exchange src dst D x <> x)) as [H|H]; [rewrite decide_True by (by apply Hsub); cbn; lia|]. case_decide; cbn; lia.
Qed.
Lemma follow_cycle_spec fuel src dst fixed m s D : R s D -> course (Some src) fixed m D -> src ∈ keys -> src ∉ fixed -> D src = dst -> (length (unfixed D) <= fuel)%nat -> exists m' s' D',
  follow_cycle swap fuel src dst m s = Ok (m', s') /\ R s' D' /\ course None (src :: fixed) m' D' /\ forall p, p ∉ keys -> D' p = D p.
Proof.
  revert dst m s D. induction fuel as [|fuel IH]; intros dst m s D HR Hco Hsrc Hnf Hdst Hfuel; cbn [follow_cycle]; destruct (Nat.eqb_spec src dst) as [<-|Hne].
  1, 3: exists m, s, D; split; [done|split; [done|split; [|done]]]; destruct Hco as [C1 C2 C3 C4]; split; [done|done| |]; [by intros p [->|Hp]%elem_of_cons; [|apply C3]|];
    intros p Hp Hn _; apply not_elem_of_cons in Hn as [Hn1 Hn2]; by apply C4; [| |congruence].
  - pose proof (unfixed_step src dst D (co_inj _ _ _ _ Hco)) as Hstep. rewrite <- Hdst in Hstep at 1. specialize (Hstep (co_keys _ _ _ _ Hco src Hsrc) Hdst Hne). lia.
  - assert (Hdk : dst ∈ keys) by (rewrite <- Hdst; by apply (co_keys _ _ _ _ Hco)). pose proof (unfixed_step src dst D (co_inj _ _ _ _ Hco) Hdk Hdst Hne) as Hless.
    destruct (swap_ok s D src dst HR Hne Hsrc Hdk) as (s1 & E1 & HR1). rewrite E1. cbn [mbind result_bind]. destruct Hco as [C1 C2 C3 C4].
    assert (Hdf : dst ∉ fixed) by (intros H; apply C3 in H; apply Hne, C1; congruence). assert (Hmd : m !! dst = Some (D dst)) by (apply C4; [done|done|congruence]). rewrite Hmd. cbn [default].
    assert (Hx : exchange src dst D src = D dst) by (unfold exchange; by rewrite decide_True).
    destruct (IH (D dst) (<[dst := dst]> m) s1 (exchange src dst D) HR1) as (m' & s' & D' & E & HR' & Hco' & Hout); [|done|done|done|lia|].
    + split.
      * intros p q. unfold exchange. intros H. repeat case_decide; subst; try done; apply C1 in H; congruence.
      * intros p Hp. unfold exchange. repeat case_decide; by apply C2.
      * intros p Hp. unfold exchange. rewrite decide_False by (by intros ->). rewrite decide_False by (by intros ->). by apply C3.
      * intros p Hp Hn Hs. unfold exchange. rewrite decide_False by congruence. destruct (decide (p = dst)) as [->|Hpd]; [by rewrite lookup_insert_eq, Hdst|]. rewrite lookup_insert_ne by done. by apply C4.
    + exists m', s', D'. split; [done|split; [done|split; [done|]]]. intros p Hp. rewrite Hout by done. unfold exchange. rewrite !decide_False; [done| |]; by intros ->.
Qed.
Lemma apply_cycles_spec m s D : NoDup keys -> R s D -> course None [] m D -> exists s' D', apply_cycles swap keys m s = Ok s' /\ R s' D' /\ (forall p, p ∈ keys -> D' p = p) /\ forall p, p ∉ keys -> D' p = D p.
Proof.
  intros Hnd HR Hco. unfold apply_cycles. match goal with |- context [foldM ?f (m, s) keys] => set (step := f) end.
  enough (Hgen : forall ks fixed m s D, NoDup ks -> (forall p, p ∈ ks -> p ∈ keys /\ p ∉ fixed) -> R s D -> course None fixed m D ->
    exists m' s' D', foldM step (m, s) ks = Ok (m', s') /\ R s' D' /\ (forall p, p ∈ ks \/ p ∈ fixed -> D' p = p) /\ forall p, p ∉ keys -> D' p = D p).
  { destruct (Hgen keys [] m s D Hnd) as (m' & s' & D' & E & HR' & Hfix & Hout); [by intros p Hp; split; [|by intros ?%elem_of_nil]|done|done|]. rewrite E. exists s', D'. split; [done|split; [done|split; [|done]]]. intros p Hp. apply Hfix. by left. }
  clear -swap_ok. intros ks. induction ks as [|src ks IH]; intros fixed m s D Hnd Hks HR Hco.
  { exists m, s, D. split; [done|split; [done|split; [|done]]]. intros p [?%elem_of_nil|Hp]; [done|]. by apply (co_fixed _ _ _ _ Hco). }
  apply NoDup_cons in Hnd as [Hnin Hnd]. destruct (Hks src) as [Hk Hf]; [by left|]. cbn [foldM]. change (step (m, s) src) with (dst ← of_option KeyError (m !! src); follow_cycle swap (length keys) src dst m s). rewrite (co_map _ _ _ _ Hco src Hk Hf) by done. cbn [of_option mbind result_bind].
  destruct (follow_cycle_spec (length keys) src (D src) fixed m s D HR) as (m1 & s1 & D1 & E1 & HR1 & Hco1 & Hout1); [|done|done|done|apply length_filter|].
  { destruct Hco as [C1 C2 C3 C4]. split; [done|done|done|]. intros p Hp Hn _. by apply C4. }
  rewrite E1. cbn [mbind result_bind]. destruct (IH (src :: fixed) m1 s1 D1 Hnd) as (m' & s' & D' & E & HR' & Hfix & Hout); [|done|done|].
  { intros p Hp. destruct (Hks p) as [? ?]; [by right|]. split; [done|]. apply not_elem_of_cons. split; [by intros ->|done]. }
  exists m', s', D'. split; [done|split; [done|split]].
  - intros p [[->|Hp]%elem_of_cons|Hp]; apply Hfix; [right; by left|by left|right; by right].
  - intros p Hp. by rewrite Hout, Hout1.
Qed.
End Cycles.

(** ** The batch *)

Section Reorder.
Context (W : nat) (threshold : Z) (scheduled : gmap string Z).

(** The region of the request at a row. *)
Definition row_region (b : InputBatch) (p : nat) (r : Z) : Prop := exists id v k, at_row b p = Some (id, v) /\ scheduled !! id = Some k /\ r = region threshold (v_num_computed v) k.
Lemma region_is t c k : is_region (region t c k).
Proof. unfold region, is_region. repeat case_match; auto. Qed.
Lemma batch_regions_spec b : batch_wf W b -> dense b -> (forall i id, at_id b i = Some id -> is_Some (scheduled !! id)) -> exists rs, batch_regions threshold scheduled b = Ok rs /\
  length rs = length (req_ids b) /\ Forall is_region rs /\ forall i r, rs !! i = Some r <-> row_region b i r.
Proof.
  intros Hw Hd Hsch. destruct (iw_lists W b Hw) as [L1 L2 L3 L4 L5].
  assert (Hc : exists counts, mapM (fun o => id ← of_option KeyError o; of_option KeyError (scheduled !! id)) (req_ids b) = Ok counts /\ length counts = length (req_ids b) /\
    forall i id, at_id b i = Some id -> counts !! i = scheduled !! id).
  { setoid_rewrite at_id_lookup. assert (Hall : forall i, (i < length (req_ids b))%nat -> exists id, req_ids b !! i = Some (Some id)) by (intros i Hi; destruct (Hd i Hi) as [id Hid]; exists id; by apply at_id_lookup).
    assert (Hkey : forall i id, req_ids b !! i = Some (Some id) -> is_Some (scheduled !! id)) by (intros i id Hi; apply (Hsch i), at_id_lookup, Hi). clear -Hall Hkey.
    induction (req_ids b) as [|o l IH]; [by exists []|]. destruct (Hall 0%nat) as [id Hid]; [cbn; lia|]. injection Hid as ->. destruct (Hkey 0%nat id eq_refl) as [k Hk].
    destruct IH as (cs & E & Hl & Hcs); [intros i Hi; by apply (Hall (S i)); cbn; lia|intros i; apply (Hkey (S i))|]. exists (k :: cs). cbn. rewrite Hk. cbn. rewrite E. split_and!; [done|cbn; lia|].
    intros [|i] id' Hi; cbn in *; [injection Hi as <-; by rewrite Hk|by apply Hcs]. }
  destruct Hc as (counts & Ec & Hlc & Hcs). unfold batch_regions. rewrite Ec. cbn [mbind result_bind]. eexists. split; [done|].
  set (rs := zip_with _ _ _). assert (Hlen : length rs = length (req_ids b)) by (unfold rs; rewrite length_zip_with, length_fmap, length_take; lia).
  assert (Hrs : forall i r, rs !! i = Some r <-> row_region b i r).
  { intros i r. unfold row_region. destruct (decide (i < length (req_ids b))%nat) as [Hi|Hi].
    - destruct (Hd i Hi) as [id Hid]. destruct (at_row_some b i id (iw_lists W b Hw) Hid) as (row & out & spec & Hr & _ & _ & Hrow). destruct (Hsch i id Hid) as [k Hk].
      assert (Hlook : rs !! i = Some (region threshold (num_computed_tokens row) k)) by (unfold rs; rewrite lookup_zip_with, list_lookup_fmap, lookup_take_lt, Hr by done; cbn; by rewrite (Hcs i id Hid), Hk).
      rewrite Hlook, Hrow. split; [intros [= <-]; by eexists _, _, _|]. intros (? & ? & k' & [= <- <-] & Hk' & ->). rewrite Hk in Hk'. by injection Hk' as <-.
    - rewrite lookup_ge_None_2 by lia. split; [done|]. intros (id & v & k & Hv & _). apply at_row_id, at_id_lt in Hv. lia. }
  split_and!; [done| |done]. apply Forall_lookup. intros i r Hr. apply Hrs in Hr as (id & v & k & _ & _ & ->). apply region_is.
Qed.

(** The order that is asked for, in the terms of the requests: a request with computed tokens
    stands before one without, and of those with computed tokens one with at most [threshold]
    scheduled tokens before one with more. *)
Definition split_order (b : InputBatch) : Prop := forall i j id1 v1 k1 id2 v2 k2, (i < j)%nat ->
  at_row b i = Some (id1, v1) -> scheduled !! id1 = Some k1 -> at_row b j = Some (id2, v2) -> scheduled !! id2 = Some k2 ->
  v_num_computed v2 <> 0 -> v_num_computed v1 <> 0 /\ (k2 <= threshold -> k1 <= threshold).
Lemma region_order c1 k1 c2 k2 : region threshold c1 k1 <= region threshold c2 k2 <-> (c2 <> 0 -> c1 <> 0 /\ (k2 <= threshold -> k1 <= threshold)).
Proof. unfold region. destruct (Z.eqb_spec c1 0), (Z.eqb_spec c2 0), (Z.leb_spec k1 threshold), (Z.leb_spec k2 threshold); split; intros; lia || (split; lia) || tauto. Qed.
Lemma split_order_sorted b rs : (forall i r, rs !! i = Some r <-> row_region b i r) -> split_order b <-> StronglySorted Z.le rs.
Proof.
  intros Hrs. rewrite sorted_pairwise. split.
  - intros H i j x y Hij (id1 & v1 & k1 & R1 & K1 & ->)%Hrs (id2 & v2 & k2 & R2 & K2 & ->)%Hrs. apply region_order. by apply (H i j id1 v1 k1 id2 v2 k2).
  - intros H i j id1 v1 k1 id2 v2 k2 Hij R1 K1 R2 K2. apply region_order, (H i j); [done|apply Hrs..]; [by exists id1, v1, k1|by exists id2, v2, k2].
Qed.

(** Among the swaps: where each request has to go. *)
Definition heading (b0 : InputBatch) (target : list Z) (b : InputBatch) (D : nat -> nat) : Prop :=
  orderly W b /\ condensed b0 b /\ length (req_ids b) = length (req_ids b0) /\ forall p r, row_region b p r -> target !! D p = Some r.
Lemma heading_swap b0 target b D i j : heading b0 target b D -> i <> j -> (i < length (req_ids b0))%nat -> (j < length (req_ids b0))%nat ->
  exists b', swap_states i j b = Ok b' /\ heading b0 target b' (exchange i j D).
Proof.
  intros ((Hw & Hd & Hmv & Hh) & Hc & Hl & Hr) Hne Hi Hj. rewrite <- Hl in Hi, Hj. destruct (swap_states_spec W b i j Hw Hd Hmv Hh Hne Hi Hj) as (b' & E & Hw' & Hc' & Hd' & Hmv' & Hl' & Hh' & Hrow).
  exists b'. split; [done|]. split; [|split; [by eapply condensed_trans|split; [congruence|]]].
  - split_and!; [done|done|done|]. intros k. rewrite Hh', Hl'. apply Hh.
  - intros p r (id & v & k & Hv & Hk & ->). rewrite Hrow in Hv. unfold exchange. repeat case_decide; apply Hr; by exists id, v, k.
Qed.

Lemma paired (l1 l2 : list nat) : NoDup l1 -> length l1 = length l2 -> forall i a c, l1 !! i = Some a -> l2 !! i = Some c -> (list_to_map (rev (zip l1 l2)) : gmap nat nat) !! a = Some c.
Proof.
  intros Hnd Hl i a c Ha Hc. apply elem_of_list_to_map.
  - rewrite <- (Permutation_rev (zip l1 l2)). by rewrite fst_zip by lia.
  - rewrite <- (Permutation_rev (zip l1 l2)). apply list_elem_of_lookup. exists i. rewrite lookup_zip_with, Ha. cbn. by rewrite Hc.
Qed.
(** The map sends each source to a place of its own among the places to fill. *)
Lemma swap_course rs : Forall is_region rs -> let m := list_to_map (rev (zip (swap_sources rs) (misplaced rs))) in let D := fun p => default p ((m : gmap nat nat) !! p) in
  course (swap_sources rs) None [] m D /\ (forall p, p ∉ swap_sources rs -> D p = p) /\ forall p r, rs !! p = Some r -> target_regions rs !! D p = Some r.
Proof.
  intros Hrs m D. pose proof (sources_perm rs) as Hperm. pose proof (misplaced_nodup rs) as Hnd. assert (Hnds : NoDup (swap_sources rs)) by (by rewrite Hperm). pose proof (Permutation_length Hperm) as Hlen.
  assert (Hsome : forall i a, swap_sources rs !! i = Some a -> exists c, misplaced rs !! i = Some c /\ m !! a = Some c /\ D a = c).
  { intros i a Ha. destruct (lookup_lt_is_Some_2 (misplaced rs) i) as [c Hc]; [rewrite <- Hlen; by eapply lookup_lt_Some|]. pose proof (paired _ _ Hnds Hlen i a c Ha Hc) as Hm. exists c. split_and!; [done|done|]. unfold D. fold m in Hm. by rewrite Hm. }
  assert (Hnone : forall p, p ∉ swap_sources rs -> D p = p).
  { intros p Hp. unfold D. destruct (m !! p) as [c|] eqn:E; [|done]. apply elem_of_list_to_map_2 in E. rewrite <- (Permutation_rev (zip _ _)) in E. by apply elem_of_zip_l in E. }
  split; [split|split; [done|]].
  - intros p q Hpq. destruct (decide (p ∈ swap_sources rs)) as [Hp|Hp], (decide (q ∈ swap_sources rs)) as [Hq|Hq].
    + apply list_elem_of_lookup in Hp as [i Hi]. apply list_elem_of_lookup in Hq as [j Hj]. destruct (Hsome i p Hi) as (c & Hc & _ & Ec). destruct (Hsome j q Hj) as (e & He & _ & Ee).
      assert (i = j) as <- by (eapply NoDup_lookup; [exact Hnd|exact Hc|congruence]). congruence.
    + exfalso. apply list_elem_of_lookup in Hp as [i Hi]. destruct (Hsome i p Hi) as (c & Hc & _ & Ec). apply Hq. rewrite Hperm. rewrite (Hnone q Hq) in Hpq. rewrite <- Hpq, Ec. by eapply list_elem_of_lookup_2.
    + exfalso. apply list_elem_of_lookup in Hq as [i Hi]. destruct (Hsome i q Hi) as (c & Hc & _ & Ec). apply Hp. rewrite Hperm. rewrite (Hnone p Hp) in Hpq. rewrite Hpq, Ec. by eapply list_elem_of_lookup_2.
    + by rewrite (Hnone p Hp), (Hnone q Hq) in Hpq.
  - intros p Hp. apply list_elem_of_lookup in Hp as [i Hi]. destruct (Hsome i p Hi) as (c & Hc & _ & ->). rewrite Hperm. by eapply list_elem_of_lookup_2.
  - by intros p ?%elem_of_nil.
  - intros p Hp _ _. apply list_elem_of_lookup in Hp as [i Hi]. by destruct (Hsome i p Hi) as (c & _ & -> & ->).
  - intros p r Hr. destruct (regions_perm rs Hrs) as [_ Htp%Permutation_length]. pose proof (lookup_lt_Some _ _ _ Hr) as Hlt. assert (Hnth : forall k, (k < length rs)%nat -> target_regions rs !! k = Some (nth k (target_regions rs) 0)).
    { intros k Hk. destruct (lookup_lt_is_Some_2 (target_regions rs) k) as [x Hx]; [lia|]. by rewrite (nth_lookup_Some _ _ 0 _ Hx). }
    destruct (decide (p ∈ swap_sources rs)) as [Hp|Hp].
    + apply list_elem_of_lookup in Hp as [i Hi]. destruct (Hsome i p Hi) as (c & Hc & _ & ->). pose proof (f_equal (.!! i) (sources_targets rs Hrs)) as He. rewrite !list_lookup_fmap, Hi, Hc in He. cbn in He. injection He as He.
      apply list_elem_of_lookup_2, misplaced_iff in Hc as [Hc _]. rewrite Hnth by done. rewrite <- He. by rewrite (nth_lookup_Some _ _ 0 _ Hr).
    + rewrite Hnone by done. rewrite Hnth by done. rewrite Hperm, misplaced_iff in Hp. f_equal. rewrite <- (nth_lookup_Some _ _ 0 _ Hr). destruct (decide (nth p rs 0 = nth p (target_regions rs) 0)); [done|]. destruct Hp. by split.
Qed.

Lemma reorder_spec b : orderly W b -> (forall i id, at_id b i = Some id -> is_Some (scheduled !! id)) -> exists changed b' rs,
  batch_regions threshold scheduled b = Ok rs /\ reorder_batch_to_split_decodes_and_prefills threshold scheduled b = Ok (changed, b') /\ orderly W b' /\ condensed b b' /\
  batch_regions threshold scheduled b' = Ok (target_regions rs) /\ (changed = false -> b' = b) /\ split_order b' /\ (split_order b -> changed = false).
Proof.
  intros Hb Hsch. pose proof Hb as (Hw & Hd & _). destruct (batch_regions_spec b Hw Hd Hsch) as (rs & E & Hlen & Hreg & Hrs). destruct (swap_course rs Hreg) as (Hco & Hout & Htarget). cbn zeta in *. set (m := list_to_map _) in *.
  set (D := fun p => default p (m !! p)) in *. pose proof (regions_perm rs Hreg) as [_ Htp%Permutation_length].
  assert (Hhead : heading b (target_regions rs) b D) by (split_and!; [done|apply condensed_refl|done|intros p r Hr; by apply Htarget, Hrs]).
  assert (Hend : forall b' D', heading b (target_regions rs) b' D' -> (forall p, D' p = p) -> batch_regions threshold scheduled b' = Ok (target_regions rs) /\ split_order b').
  { intros b' D' ((Hw' & Hd' & _) & Hc & Hl & Hr') HD. destruct (batch_regions_spec b' Hw' Hd') as (rs' & E' & Hlen' & _ & Hrs').
    - intros i id Hid. destruct (at_row_views b' i id (iw_lists W b' Hw') Hid) as [v Hv]. destruct (proj1 (cn_same _ _ Hc (id, v))) as [j Hj]; [by exists i|]. apply (Hsch j). by eapply at_row_id.
    - assert (rs' = target_regions rs) as ->; [|split; [done|]; apply (split_order_sorted b' _ Hrs'), target_sorted]. apply list_eq_same_length with (n := length (target_regions rs)); [done|congruence|]. intros i x y _ Hx Hy. apply Hrs', Hr' in Hx. rewrite HD in Hx. congruence. }
  unfold reorder_batch_to_split_decodes_and_prefills. rewrite E. cbn [mbind result_bind]. destruct (misplaced rs) as [|x l] eqn:Emis.
  - exists false, b, rs. do 3 (split; [done|]). split; [apply condensed_refl|]. enough (batch_regions threshold scheduled b = Ok (target_regions rs) /\ split_order b) as [? ?] by done. apply (Hend b D Hhead). intros p. apply Hout. rewrite (sources_perm rs), Emis. by intros ?%elem_of_nil.
  - assert (Hkeys : forall p, p ∈ swap_sources rs -> (p < length (req_ids b))%nat) by (intros p; rewrite (sources_perm rs), misplaced_iff, Hlen; by intros [? _]).
    destruct (apply_cycles_spec swap_states (swap_sources rs) (heading b (target_regions rs))) with (m := m) (s := b) (D := D) as (b' & D' & E' & Hhead' & Hfix & Hout').
    + intros b1 D1 i j H Hne Hi Hj. apply heading_swap; auto.
    + rewrite (sources_perm rs). apply misplaced_nodup.
    + done.
    + done.
    + assert (HD' : forall p, D' p = p) by (intros p; destruct (decide (p ∈ swap_sources rs)); [by apply Hfix|rewrite Hout' by done; by apply Hout]).
      exists true, b', rs. fold m. rewrite E'. cbn [mbind result_bind]. do 2 (split; [done|]). split; [apply Hhead'|split; [apply Hhead'|]]. destruct (Hend b' D' Hhead' HD') as [Er Ho]. split; [done|split; [done|split; [done|]]].
      intros Hs%(split_order_sorted b rs Hrs). assert (Hx : x ∈ misplaced rs) by (rewrite Emis; by left). apply misplaced_iff in Hx as [_ []]. f_equal. apply (StronglySorted_unique Z.le); [done|apply target_sorted|by apply regions_perm].
Qed.
End Reorder.

(** What [_may_reorder_batch] does is a reordering. *)
Lemma may_reorder_reorders W scheduled groups t o : scheduled_req_ids o = dom scheduled -> reorders W (fun _ => may_reorder_batch groups t scheduled) o.
Proof.
  intros Hdom b Hb Hl. pose proof Hb as (Hw & Hd & _). assert (Hsame : exists b', Ok b = Ok b' /\ reordering W b b') by (exists b; split; [done|split; [done|split; [apply condensed_refl|done]]]).
  unfold may_reorder_batch. destruct (groups =? 0)%nat; [done|]. destruct t as [t|]; [|done].
  destruct (reorder_spec W t scheduled b Hb) as (changed & b' & rs & _ & E & (Hw' & Hd' & _) & Hc & _).
  - intros i id Hid. apply elem_of_dom. rewrite <- Hdom, <- Hl. apply (live_iff W b id Hw). eauto.
  - rewrite E. cbn [mbind result_bind]. by exists b'.
Qed.
