(* ===== verification/WorkerProps.v ===== *)
(** * What the worker promises

    The theorems on the model runner's batch: every step that the scheduler may send succeeds,
    the rows of the persistent batch then have the views they would have when built anew, and the
    logits processors, the metadata of the sampler and the recorded tokens agree with it. *)
From S2P Require Import Prelude Request BlockTable BlockTableProps BatchUpdate BatchUpdateProps InputBatch ModelRunner InputBatchView InputBatchProps InputBatchAdd InputBatchMove InputBatchUpdate InputBatchMetadata ModelRunnerProps ModelRunnerStep BatchReorder.
From Stdlib Require Import QArith.QArith.
Open Scope Z_scope.

(** ** The first batch *)

Lemma bt_init_blocks bs reqs maxb batched kbs inter pcp pr dcp dr t : 0 < bs -> 0 < kbs -> bt_init bs reqs maxb batched kbs inter pcp pr dcp dr = Ok t -> 0 <= maxb.
Proof.
  intros Hbs Hk. unfold bt_init, zeros2. assert (Hneg : forall r, 0 < r -> maxb < 0 -> (reqs <? 0) || (maxb * r <? 0) = true) by (intros r Hr Hm; apply orb_true_iff; right; apply Z.ltb_lt; nia).
  destruct (Z.lt_ge_cases maxb 0) as [Hm|]; [|done]. intros H. exfalso. destruct (Z.eqb_spec kbs bs); cbn [mbind result_bind] in H; [by rewrite Hneg in H by lia|].
  destruct (kbs =? 0); [done|]. destruct (Z.eqb_spec (bs mod kbs) 0) as [Hmod|]; cbn [negb mbind result_bind] in H; [|done].
  apply Z.mod_divide in Hmod as [q Hq]; [|lia]. rewrite Hneg in H; [done| |done]. rewrite Hq, Z.div_mul by lia. nia.
Qed.
Lemma mg_init_wf reqs len batched bs kbs maxb inter pcp pr dcp dr ts : Forall (fun x => 0 < x) bs -> Forall (fun x => 0 < x) kbs ->
  mg_init (Z.of_nat reqs) len batched bs kbs maxb inter pcp pr dcp dr = Ok ts -> forall t, t ∈ ts -> bt_wf t /\ length (table_cpu t) = reqs.
Proof.
  intros Hbs Hkbs H t Ht. unfold mg_init in H. destruct (negb _); [done|]. destruct (match maxb with Some l => Ok l | None => _ end) as [mb|]; cbn [mbind result_bind] in H; [|done]. destruct (negb _); [done|].
  destruct (mapM_elem _ _ _ _ H Ht) as ([[b k] m] & Hin & E). apply elem_of_zip_l in Hin as Hin2. assert (0 < b /\ 0 < k) as [Hb Hk].
  { split; [apply (proj1 (Forall_forall _ _) Hbs); by eapply elem_of_zip_l|apply (proj1 (Forall_forall _ _) Hkbs); by eapply elem_of_zip_r]. }
  pose proof (bt_init_blocks _ _ _ _ _ _ _ _ _ _ _ Hb Hk E) as Hm. destruct (bt_init_wf _ _ _ _ _ _ _ _ _ _ _ Hb Hk Hm E) as (Hw & Hl & _). split; [done|]. rewrite Hl. lia.
Qed.
Lemma batch_init_ok W f32 pooling needs reqs batched vocab bs kbs maxb inter pcp pr dcp dr g md b : Forall (fun x => 0 < x) bs -> Forall (fun x => 0 < x) kbs ->
  batch_init pooling needs reqs W batched vocab bs kbs maxb inter pcp pr dcp dr g = Ok (md, b) -> runner_ok W f32 (mkRunner ∅ b) /\ metadata_ok md b.
Proof.
  intros Hbs Hkbs. unfold batch_init. destruct (mg_init _ _ _ _ _ _ _ _ _ _ _) as [ts|] eqn:E; cbn [mbind result_bind]; [|done]. set (b0 := mkBatch _ _ _ _ _ _ _ _ _ _ _ _ _ _ _ _ _ _ _ _ _ _ _ _ _ _ _ _ _).
  destruct (make_sampling_metadata needs b0) as [md0|] eqn:Em; cbn [mbind result_bind]; [|done]. intros [= -> <-]. pose proof (mg_init_wf _ _ _ _ _ _ _ _ _ _ _ _ Hbs Hkbs E) as Hts.
  assert (Hno : forall i, at_row b0 i = None) by done. assert (Hset : forall s id, s ∈ id_sets b0 -> id ∉ s) by (intros s id Hs; assert (Hall : Forall (fun s => s = ∅) (id_sets b0)) by (unfold id_sets; repeat constructor); rewrite Forall_forall in Hall; rewrite (Hall s Hs); apply not_elem_of_empty).
  split; [split; cbn|by intros i id v Hv].
  - split.
    + intros id i. split; by intros H.
    + split; cbn; [done|lia|lia|by rewrite length_fmap, length_seq|]. intros i s _ [-> _]%lookup_replicate. done.
    + intros i row Hr. unfold b0 in Hr. cbn [rows input_batch] in Hr. rewrite list_lookup_fmap in Hr; apply fmap_Some in Hr as (k & _ & ->). unfold initial_row. destruct (g k) as [[[[[? ?] ?] ?] ?] ?]. cbn. by rewrite !length_replicate.
    + by intros i id v Hv.
    + by intros i id v Hv.
    + intros t Ht. apply Hts, Ht.
    + intros i [[? H]|[? H]]; done.
    + intros id [(s & Hs & Hid)|[? H]]; [by destruct (Hset s id Hs)|done].
    + intros H. by destruct H.
    + intros id. split; [by intros [? H]|]. intros [_ [i Hi]]. done.
    + intros k id. split; [intros H; unfold lora_ids in H; cbn in H; rewrite lookup_empty in H; set_solver|]. intros [_ (i & v & Hv & _)]. done.
    + intros k. split; [by intros [? H]|]. intros H. by destruct H.
    + intros k. split; by intros [? H].
  - split; [|done]. intros i Hi. cbn in Hi. lia.
  - by intros i id v Hv.
  - done.
Qed.

Section Worker.
Context (W : nat) (f32 : Q -> Q).

(** ** Sampled tokens *)

Lemma recorded_core vocab sh ids drafts v r : cr_num_prompt_tokens r = Ok (prompt_len r) -> core v = request_view f32 vocab sh r -> core (recorded_view ids drafts v) = request_view f32 vocab sh (with_sampled ids r).
Proof.
  intros Hp Hcore. assert (Ht : request_tokens (with_sampled ids r) = request_tokens r ++ (Some <$> ids)) by (unfold request_tokens; cbn; by rewrite fmap_app, app_assoc).
  assert (Hv : forall A (g : View -> A), g (core v) = g (request_view f32 vocab sh r)) by (intros A g; by rewrite Hcore).
  pose proof (Hv _ v_tokens) as V1. pose proof (Hv _ v_num_prompt) as V2. pose proof (Hv _ v_output) as V3. pose proof (Hv _ v_blocks) as V4. pose proof (Hv _ v_lora) as V5. pose proof (Hv _ v_embeds) as V6. pose proof (Hv _ v_params) as V7.
  pose proof (Hv _ v_num_tokens) as V8. pose proof (Hv _ v_num_computed) as V9. cbn in V1, V2, V3, V4, V5, V6, V7, V8, V9. clear Hv.
  unfold core, with_drafts, recorded_view, request_view. cbn [v_tokens v_num_tokens v_num_prompt v_num_computed v_output v_spec v_drafts v_blocks v_lora v_embeds v_params]. rewrite V1, V2, V3, V4, V5, V6, V7, V8, V9, Ht. f_equal.
  - change (prompt_len (with_sampled ids r)) with (prompt_len r). cbn. unfold zlen. rewrite length_app. lia.
  - change (cr_prompt_embeds (with_sampled ids r)) with (cr_prompt_embeds r). destruct (decide (None ∈ request_tokens r)) as [Hn|Hn].
    + rewrite decide_True; [done|]. apply elem_of_app. by left.
    + rewrite decide_False; [done|]. intros [H|H]%elem_of_app; [done|]. apply list_elem_of_fmap in H as (? & ? & _). done.
Qed.
Lemma record_step s i ids : runner_ok W f32 s -> (ids <> [] -> exists id v, at_row (input_batch s) i = Some (id, v) /\ v_num_tokens v + zlen ids <= Z.of_nat W) ->
  exists s', record_tokens (Z.of_nat W) s (i, ids) = Ok s' /\ runner_ok W f32 s' /\ live (input_batch s') = live (input_batch s) /\ (forall j, at_id (input_batch s') j = at_id (input_batch s) j) /\
  (forall j, i <> j -> at_row (input_batch s') j = at_row (input_batch s) j) /\
  forall id, requests s' !! id = if decide (at_id (input_batch s) i = Some id) then with_sampled ids <$> requests s !! id else requests s !! id.
Proof.
  intros Hs Hids. destruct ids as [|x l].
  { exists s. do 5 (split; [done|]). intros id. case_decide; [|done]. destruct (requests s !! id) as [r|]; [|done]. cbn. f_equal. destruct r. unfold with_sampled, crs_update. cbn. by rewrite app_nil_r. }
  set (ids := x :: l) in *. destruct Hids as (id & v & Hv & Hfit); [done|]. pose proof Hs as [Hw [Hd Hb] Hm Hg]. destruct (Hm i id v Hv) as (r & Hr & Hcore). destruct (Hg id r Hr) as [Hid Hgr].
  destruct (record_tokens_spec W s i ids id v r Hw Hv Hr ltac:(done) Hfit) as (s' & drafts & E & Ereq & Hw' & Hrest & Hrow). destruct (rest_fields _ _ Hrest) as (Hfr & Ei & Ex & Eb). destruct (frame_fields _ _ Hfr) as (_ & _ & Ev & Es).
  assert (Hat : forall j, at_id (input_batch s') j = at_id (input_batch s) j) by (intros j; unfold at_id; by rewrite Ei). pose proof (at_row_id _ _ _ _ Hv) as Hid'.
  exists s'. split; [done|]. split; [split|split; [unfold live; by rewrite Ex|split; [done|split]]].
  - done.
  - split; [intros j; rewrite Ei, Hat; apply Hd|congruence].
  - intros j id' w. rewrite Hrow, Ev, Es, Ereq. destruct (decide (i = j)) as [<-|Hne].
    + intros [= <- <-]. exists (with_sampled ids r). rewrite lookup_insert_eq. split; [done|]. by apply recorded_core; [apply (gr_prompt _ _ Hgr)|].
    + intros Hj. assert (id <> id') by (intros ->; apply Hne; exact (index_inj W _ i j _ Hw Hid' (at_row_id _ _ _ _ Hj))). rewrite lookup_insert_ne by done. by apply (Hm j).
  - intros id' r'. rewrite Ereq. intros [[<- <-]|[_ Hr']]%lookup_insert_Some.
    + split; [done|]. eapply frame_good; [exact Hfr|]. destruct Hgr. by split.
    + destruct (Hg id' r' Hr'). split; [done|by eapply frame_good].
  - intros j Hne. rewrite Hrow. by rewrite decide_False.
  - intros id'. rewrite Ereq, Hid'. destruct (decide (Some id = Some id')) as [[= <-]|Hne]; [by rewrite lookup_insert_eq, Hr|]. rewrite lookup_insert_ne; [done|congruence].
Qed.
(** Every row gets its tokens. *)
Definition samples_fit (s : Runner) (sampled : list (list Z)) : Prop := forall i ids, sampled !! i = Some ids -> ids <> [] -> exists id v, at_row (input_batch s) i = Some (id, v) /\ v_num_tokens v + zlen ids <= Z.of_nat W.
Definition tokens_recorded (s s' : Runner) (sampled : list (list Z)) : Prop :=
  (forall i id, at_id (input_batch s) i = Some id -> requests s' !! id = with_sampled (default [] (sampled !! i)) <$> requests s !! id) /\
  (forall id, id ∉ live (input_batch s) -> requests s' !! id = requests s !! id).
Lemma bookkeeping_spec s sampled : runner_ok W f32 s -> samples_fit s sampled -> exists s', bookkeeping (Z.of_nat W) sampled s = Ok s' /\ runner_ok W f32 s' /\
  (forall j, at_id (input_batch s') j = at_id (input_batch s) j) /\ tokens_recorded s s' sampled.
Proof.
  unfold bookkeeping. intros Hs Hfit.
  enough (Hgen : forall k s, runner_ok W f32 s -> (forall i ids, sampled !! i = Some ids -> ids <> [] -> exists id v, at_row (input_batch s) (k + i)%nat = Some (id, v) /\ v_num_tokens v + zlen ids <= Z.of_nat W) ->
    exists s', foldM (record_tokens (Z.of_nat W)) s (imap (fun i ids => ((k + i)%nat, ids)) sampled) = Ok s' /\ runner_ok W f32 s' /\ (forall j, at_id (input_batch s') j = at_id (input_batch s) j) /\
    forall id, requests s' !! id = match req_id_to_index (input_batch s) !! id with Some i => with_sampled (if decide (k <= i)%nat then default [] (sampled !! (i - k)%nat) else []) <$> requests s !! id | None => requests s !! id end).
  { destruct (Hgen 0%nat s Hs Hfit) as (s' & E & Hs' & Hat & Hreq). exists s'. split; [done|split; [done|split; [done|split]]].
    - intros i id Hid. apply (iw_index W _ (ru_wf _ _ _ Hs)) in Hid. rewrite Hreq, Hid, decide_True by lia. by rewrite Nat.sub_0_r.
    - intros id Hid. unfold live in Hid. apply not_elem_of_dom in Hid. by rewrite Hreq, Hid. }
  clear s Hs Hfit. assert (Hnil : forall m : option CachedRequestState, with_sampled [] <$> m = m) by (intros [[]|]; [|done]; unfold with_sampled, crs_update; cbn; by rewrite app_nil_r).
  induction sampled as [|ids sampled IH]; intros k s Hs Hfit.
  { exists s. do 3 (split; [done|]). intros id. destruct (req_id_to_index (input_batch s) !! id) as [i|]; [|done]. destruct (decide _); cbn; by rewrite Hnil. }
  destruct (record_step s k ids Hs) as (s1 & E1 & Hs1 & Hl1 & Hat1 & Hrow1 & Hreq1); [intros Hne; destruct (Hfit 0%nat ids eq_refl Hne) as (id & v & Hv & ?); rewrite Nat.add_0_r in Hv; eauto|].
  destruct (IH (S k) s1 Hs1) as (s' & E & Hs' & Hat & Hreq).
  { intros i ids' Hi Hne. destruct (Hfit (S i) ids' Hi Hne) as (id & v & Hv & ?). exists id, v. rewrite Hrow1 by lia. by replace (S k + i)%nat with (k + S i)%nat by lia. }
  exists s'. cbn [imap foldM]. rewrite Nat.add_0_r, E1. cbn [mbind result_bind].
  split; [rewrite <- E; f_equal; apply imap_ext; intros i x _; cbn; f_equal; lia|]. split; [done|]. split; [intros j; by rewrite Hat|]. intros id. rewrite Hreq, Hreq1.
  assert (Hix : req_id_to_index (input_batch s1) !! id = req_id_to_index (input_batch s) !! id).
  { apply option_eq. intros i. rewrite (iw_index W _ (ru_wf _ _ _ Hs1)), (iw_index W _ (ru_wf _ _ _ Hs)). by rewrite Hat1. }
  rewrite Hix. destruct (req_id_to_index (input_batch s) !! id) as [i|] eqn:Ei.
  - apply (iw_index W _ (ru_wf _ _ _ Hs)) in Ei. destruct (decide (at_id (input_batch s) k = Some id)) as [Hk|Hk].
    + assert (i = k) as -> by (exact (index_inj W _ i k id (ru_wf _ _ _ Hs) Ei Hk)). rewrite decide_False by lia. rewrite decide_True by lia. rewrite Nat.sub_diag. cbn. by rewrite Hnil.
    + assert (i <> k) by congruence. destruct (decide (S k <= i)%nat); [rewrite decide_True by lia; by replace (i - k)%nat with (S (i - S k)) by lia|]. rewrite decide_False by lia. done.
  - rewrite decide_False; [done|]. intros Hk%(iw_index W _ (ru_wf _ _ _ Hs)). congruence.
Qed.
End Worker.

(** ** The promises *)

Section Promises.
Context (W : nat) (f32 : Q -> Q) (set_order : gset string -> list string) (needs : bool) (groups : nat) (threshold : option Z).
(** A step whose batch the attention backends reorder by the numbers of scheduled tokens. *)
Definition run_step (counts : gmap string Z) (o : StepInput) (s : Runner) := update_states f32 set_order needs (fun _ => may_reorder_batch groups threshold counts) o s.
Definition orders : Prop := forall X, set_order X ≡ₚ elements X.

Lemma run_step_settles counts s o : orders -> scheduled_req_ids o = dom counts -> runner_ok W f32 s -> step_ok W s o ->
  exists upd md reqs b b', run_step counts o s = Ok (upd, md, mkRunner reqs b') /\ settled W f32 o s reqs b /\ requests_after o (requests s) reqs /\ refreshed b upd md b'.
Proof. intros Horder Hc Hs Ho. apply update_states_settles; [done|done|done|]. by apply may_reorder_reorders. Qed.

(** C4: whatever a well-formed step brings, [_update_states] succeeds, and the persistent batch
    is then the batch that would be built anew: its rows are just the scheduled requests, without
    holes, and each row has the [View] that [add_request] would give it from the request, whose
    state is the one the step gives to it, with the drafts of this step. The view is the tokens
    and which of them are ids, their numbers, the output, the blocks, LoRA, the embeddings,
    and the parameters and their sets, dicts and generator. Of what [add_request] stores it
    leaves out two arrays that the code does not keep with the rows: the mask of allowed
    tokens, which a later step may leave wrong, and [logits_processing_needs_token_ids] of
    pooling models. *)
Theorem update_states_rebuilds counts s o : orders -> scheduled_req_ids o = dom counts -> runner_ok W f32 s -> step_ok W s o -> exists upd md s',
  run_step counts o s = Ok (upd, md, s') /\ ready (input_batch s') /\ (forall id, id ∈ step_ids o <-> exists i, at_id (input_batch s') i = Some id) /\
  (forall i id v, at_row (input_batch s') i = Some (id, v) -> exists r, requests s' !! id = Some r /\
    v = with_drafts (drafts_for id (scheduled_spec_decode_tokens o)) (request_view f32 (vocab_size (input_batch s')) (shapes (input_batch s')) r)) /\
  requests_after o (requests s) (requests s').
Proof.
  intros Horder Hc Hs Ho. destruct (run_step_settles counts s o Horder Hc Hs Ho) as (upd & md & reqs & b & b' & E & Hset & Hreq & Href).
  destruct (settled_ok W f32 o s reqs b upd md b' Hset Href) as (Hok & Hl & Hf & _ & Hex). exists upd, md, (mkRunner reqs b'). cbn [input_batch requests].
  assert (Hids : forall id, id ∈ step_ids o <-> id ∈ live b') by (intros id; rewrite Hl, (so_scheduled _ _ _ Ho); by rewrite elem_of_list_to_set).
  assert (Hat : forall id, id ∈ live b' <-> exists i, at_id b' i = Some id) by (intros id; apply (live_iff W), Hok). split; [done|]. split; [apply Hok|]. split; [|split; [|done]].
  - intros id. by rewrite Hids, Hat.
  - intros i id v Hv. apply (Hex i id v Hv). rewrite <- Hl. apply Hat. exists i. by eapply at_row_id.
Qed.

(** C6: the logits processors that keep a dict by row follow the batch: when the dict of such a
    processor was that of the batch's rows before the step, [process_dict_updates] with the
    update of the step makes it that of the rows after the step, however requests left, arrived,
    and were moved and reordered; and the update names only rows that exist. *)
Theorem processors_follow_batch counts s o : orders -> scheduled_req_ids o = dom counts -> runner_ok W f32 s -> step_ok W s o -> is_pooling_model (input_batch s) = false -> exists upd md s',
  run_step counts o s = Ok (upd, md, s') /\ (forall u, upd = Some u -> rows_within (max_num_reqs (input_batch s')) u) /\
  forall T (new_state : Added -> option T) truthy m0, in_sync new_state (told_of (requests s)) m0 (input_batch s) ->
    in_sync new_state (told_of (requests s')) (process_dict_updates new_state truthy upd m0).1 (input_batch s').
Proof.
  intros Horder Hc Hs Ho Hp. destruct (run_step_settles counts s o Horder Hc Hs Ho) as (upd & md & reqs & b & b' & E & Hset & Hreq & Href). exists upd, md, (mkRunner reqs b'). split; [done|]. cbn [input_batch requests].
  assert (Hpb : is_pooling_model b = false) by (by rewrite (proj1 (frame_fields _ _ (se_frame _ _ _ _ _ _ Hset)))). assert (Eb : b' = set_batch_update_builder builder_init b) by apply Href. split.
  - intros u ->. destruct Href as (_ & _ & Hu). destruct (Hu Hpb) as [-> _]. replace (max_num_reqs b') with (max_num_reqs b) by (rewrite Eb; by destruct b). apply (se_range _ _ _ _ _ _ Hset).
  - intros T ns truthy m0 H. rewrite (pending_process ns truthy m0 b upd md b' Hpb Href). intros i. rewrite (se_follows _ _ _ _ _ _ Hset T ns m0 Hpb H).
    unfold entry_at. by rewrite Eb, set_builder_at_id.
Qed.

(** C13: the metadata the sampler is given describes every row of the batch after the step, with
    or without its being made anew: parameters, generator, bad words, greedy and random flags,
    and the prompt where penalties need it. *)
Theorem metadata_describes_batch counts s o md0 : orders -> scheduled_req_ids o = dom counts -> runner_ok W f32 s -> step_ok W s o -> is_pooling_model (input_batch s) = false ->
  metadata_ok md0 (input_batch s) -> exists upd md s', run_step counts o s = Ok (upd, md, s') /\ metadata_ok (default md0 md) (input_batch s').
Proof.
  intros Horder Hc Hs Ho Hp Hmd. destruct (run_step_settles counts s o Horder Hc Hs Ho) as (upd & md & reqs & b & b' & E & Hset & Hreq & Href). exists upd, md, (mkRunner reqs b'). split; [done|]. cbn [input_batch].
  destruct (frame_fields _ _ (se_frame _ _ _ _ _ _ Hset)) as (Epb & _ & Evoc & _). assert (Hpb : is_pooling_model b = false) by congruence. destruct Href as (-> & Hnew & Hu). specialize (Hu Hpb).
  destruct md as [m|]; [by apply Hnew|]. destruct upd as [u|]; [by destruct Hu as [_ [? ?]]|]. destruct Hu as (_ & H1 & H2 & H3). intros i id v. rewrite set_builder_at_row. intros Hv.
  pose proof (se_quiet _ _ _ _ _ _ Hset Hpb H2 H1 H3 i) as Hq. rewrite Hv in Hq. cbn in Hq. destruct (at_row (input_batch s) i) as [[id0 v0]|] eqn:E0; [|done]. cbn in Hq. injection Hq as _ Hq.
  replace (vocab_size (set_batch_update_builder builder_init b)) with (vocab_size b) by (by destruct b). rewrite Evoc. apply (row_metadata_static _ _ _ v0 v); [unfold static; congruence|]. by apply (Hmd i id0).
Qed.

(** The states the worker can get into from a first batch. *)
Inductive reachable : Runner -> Prop :=
| reach_init pooling reqs batched vocab bs kbs maxb inter pcp pr dcp dr g md b : Forall (fun x => 0 < x) bs -> Forall (fun x => 0 < x) kbs ->
    batch_init pooling needs reqs W batched vocab bs kbs maxb inter pcp pr dcp dr g = Ok (md, b) -> reachable (mkRunner ∅ b)
| reach_step counts s o upd md s' : reachable s -> scheduled_req_ids o = dom counts -> step_ok W s o -> run_step counts o s = Ok (upd, md, s') -> reachable s'
| reach_sampled sampled s s' : reachable s -> samples_fit W s sampled -> bookkeeping (Z.of_nat W) sampled s = Ok s' -> reachable s'.

(** C5: in every state that steps and recorded tokens can lead to, the worker's batch is well
    formed and ready, and mirrors the requests; and from there no well-formed step and no
    sampled tokens that fit make it fail. *)
Theorem reachable_runner_ok s : orders -> reachable s -> runner_ok W f32 s /\
  (forall counts o, scheduled_req_ids o = dom counts -> step_ok W s o -> exists r, run_step counts o s = Ok r) /\
  (forall sampled, samples_fit W s sampled -> exists s', bookkeeping (Z.of_nat W) sampled s = Ok s' /\ tokens_recorded s s' sampled).
Proof.
  intros Horder Hr. enough (Hs : runner_ok W f32 s).
  { split; [done|split].
    - intros counts o Hc Ho. destruct (run_step_settles counts s o Horder Hc Hs Ho) as (upd & md & reqs & b & b' & E & _). eauto.
    - intros sampled Hfit. destruct (bookkeeping_spec W f32 s sampled Hs Hfit) as (s' & E & _ & _ & H). eauto. }
  induction Hr as [pooling reqs batched vocab bs kbs maxb inter pcp pr dcp dr g md b H1 H2 E|counts s o upd md s' _ IH Hc Ho E|sampled s s' _ IH Hfit E].
  - by apply (batch_init_ok W f32 _ _ _ _ _ _ _ _ _ _ _ _ _ _ _ _ H1 H2 E).
  - destruct (run_step_settles counts s o Horder Hc IH Ho) as (upd' & md' & reqs & b & b' & E' & Hset & _ & Href). rewrite E in E'. injection E' as -> -> ->. by apply (settled_ok W f32 o s reqs b upd' md' b' Hset Href).
  - destruct (bookkeeping_spec W f32 s sampled IH Hfit) as (s1 & E1 & H & _). rewrite E in E1. by injection E1 as ->.
Qed.

(** C15: [condense] ends with the holes closed: the rows are just the first [num_reqs], every
    request is still there, with its [View], and none is new. Where the batch keeps masks of
    allowed tokens, the mask at a request's row has moved with the request too.
    ([logits_processing_needs_token_ids], which only the rows of pooling models set, is not
    part of a view: [condense] leaves it where it is.) *)
Theorem condense_closes_holes b : batch_wf W b -> editing b -> exists b', condense b = Ok b' /\ batch_wf W b' /\ length (req_ids b') = num_reqs b /\ (forall i, (i < num_reqs b)%nat <-> is_Some (at_row b' i)) /\
  (forall x, (exists i, at_row b' i = Some x) <-> exists i, at_row b i = Some x) /\
  (is_pooling_model b = false -> mask_allocated b = true -> forall i j id, at_id b i = Some id -> at_id b' j = Some id -> allowed_mask <$> rows b' !! j = allowed_mask <$> rows b !! i).
Proof.
  intros Hw Hed. destruct (condense_spec W b Hw Hed) as (b' & E & Hw' & Hc & Hd & _ & _ & Hmk). pose proof (num_same W b b' Hw Hw' (cn_same _ _ Hc)) as Hn. pose proof (dense_count W b' Hw' Hd) as Hd'.
  exists b'. split; [done|]. split; [done|]. split; [congruence|]. split; [|split; [apply Hc|]].
  - intros i. rewrite <- Hn, Hd'. split.
    + intros Hi. destruct (Hd i Hi) as [id Hid]. destruct (at_row_views b' i id (iw_lists W b' Hw') Hid) as [v Hv]. eauto.
    + intros [[id v] Hv]. eapply at_id_lt. by eapply at_row_id.
  - intros Hp Ha i j id Hi%(iw_index W b Hw) Hj%(iw_index W b' Hw'). pose proof (mk_masks _ _ Hmk Hp Ha id) as H. unfold request_mask in H. by rewrite Hi, Hj in H.
Qed.

End Promises.

(** ** A worker at work *)

Definition demo_greedy : WorkerSampling := mkWS 0 false 1 0 0 0 1 None None None 0 [] None.
Definition demo_random : WorkerSampling := mkWS 1 true (1 # 2) 0 (1 # 2) 0 1 (Some 2) (Some [3; 4]) None 2 [0] None.
Definition empty_batch : InputBatch := mkBatch false 0 0 [] ∅ [] ∅ [] ∅ ∅ ∅ ∅ ∅ ∅ ∅ ∅ ∅ ∅ ∅ ∅ builder_init ∅ false ∅ [] [] ∅ ∅ None.
Definition runner_or (x : result Runner) : Runner := match x with Ok s => s | Err _ => mkRunner ∅ empty_batch end.
Definition demo_step := run_step (fun q => q) (fun X : gset string => elements X) false 1 (Some 1).
Definition demo_init : result (SamplingMetadata * InputBatch) := batch_init false false 4 16 16 10 [4] [2] None 1 1 0 1 0 (fun _ => (0, 0, 0%Z, 0, 0, 0)%Q).
Definition demo_s0 : Runner := runner_or ('(_, b) ← demo_init; Ok (mkRunner ∅ b)).
(** Two requests arrive, and get a token each. *)
Definition demo_new (id : string) (prompt : list Z) (p : WorkerSampling) (block g : Z) : NewRequestData := mkNewRequest id (Some prompt) None (Some p) None [[block]] 0 None g 0 g.
Definition demo_o1 : StepInput := mkStep [] {["a"%string; "b"%string]} [demo_new "a" [1; 2; 3] demo_greedy 0 1; demo_new "b" [4; 5] demo_random 1 2] [] [].
Definition demo_counts1 : gmap string Z := {["a"%string := 3; "b"%string := 2]}.
Definition demo_s1 : Runner := runner_or ('(_, _, s) ← demo_step demo_counts1 demo_o1 demo_s0; Ok s).
Definition demo_sampled : list (list Z) := [[7]; [8]].
Definition demo_s2 : Runner := runner_or (bookkeeping 16 demo_sampled demo_s1).
(** Then the first one finishes, the second runs on with drafts, and a third takes the free row;
    the reordering puts it behind. *)
Definition demo_o2 : StepInput := mkStep ["a"%string] {["b"%string; "c"%string]} [demo_new "c" [6] demo_greedy 2 3] [mkCached "b" 2 None false 1] [("b"%string, [5; 6])].
Definition demo_counts2 : gmap string Z := {["b"%string := 3; "c"%string := 1]}.

Lemma demo_orders : orders (fun X : gset string => elements X).
Proof. by intros X. Qed.
Lemma demo_s0_runner : runner_ok 16 (fun q => q) demo_s0.
Proof.
  assert (E : exists md b, demo_init = Ok (md, b) /\ demo_s0 = mkRunner ∅ b) by (unfold demo_s0; destruct demo_init as [[md b]|] eqn:E; [by exists md, b|vm_compute in E; discriminate]).
  destruct E as (md & b & E & ->). refine (proj1 (batch_init_ok 16 (fun q => q) _ _ _ _ _ _ _ _ _ _ _ _ _ _ md b _ _ E)); by repeat constructor.
Qed.
Definition batch_facts (b : InputBatch) : Prop := is_pooling_model b = false /\ max_num_reqs b = 4%nat /\ vocab_size b = 10 /\ shapes b = [(2, 8)].
Lemma demo_s0_facts : batch_facts (input_batch demo_s0).
Proof. unfold batch_facts. split_and!; by vm_compute. Qed.
Lemma demo_fresh b id prompt p block g : batch_facts b -> Forall (fun t => - 10 <= t < 10) (default [] (allowed_token_ids p)) -> zlen prompt <= 12 -> forall spec, zlen (drafts_for id spec) <= 4 ->
  exists r, new_request_state (demo_new id prompt p block g) = Ok r /\ good_request b r /\ sized 16 (shapes b) (drafts_for id spec) r.
Proof.
  intros (Hp & _ & Hv & Hs) Hall Hlen spec Hspec. eexists. split; [reflexivity|]. split.
  - split; cbn.
    + split; [done|]. unfold prompt_len, zlen. cbn. lia.
    + rewrite Hp. by eexists.
    + intros p' t [= <-] Ht. rewrite Hv. by apply (proj1 (Forall_forall _ _) Hall).
    + done.
  - split; [unfold prompt_len; cbn in *; unfold zlen in *; cbn; lia|]. rewrite Hs. apply Forall2_cons. split; [unfold zlen; cbn; lia|constructor].
Qed.
Lemma demo_o1_ok : step_ok 16 demo_s0 demo_o1.
Proof.
  split.
  - apply (bool_decide_unpack _). by vm_compute.
  - apply (bool_decide_unpack _). by vm_compute.
  - apply (bool_decide_unpack _). by vm_compute.
  - intros d Hd. assert (He : requests demo_s0 = ∅) by (by vm_compute). unfold fresh_state. rewrite unfinished_lookup, He.
    repeat (apply elem_of_cons in Hd as [->|Hd]; [apply demo_fresh; [apply demo_s0_facts|repeat constructor; by vm_compute|by vm_compute|by vm_compute]|]). by apply elem_of_nil in Hd.
  - by intros d ?%elem_of_nil.
Qed.
Lemma demo_s1_runner : runner_ok 16 (fun q => q) demo_s1.
Proof.
  destruct (run_step_settles 16 (fun q => q) _ false 1 (Some 1) demo_counts1 demo_s0 demo_o1 demo_orders) as (upd & md & reqs & b & b' & E & Hset & _ & Href); [apply (bool_decide_unpack _); by vm_compute|apply demo_s0_runner|apply demo_o1_ok|].
  unfold demo_s1, demo_step. rewrite E. by apply (settled_ok 16 (fun q => q) demo_o1 demo_s0 reqs b upd md b').
Qed.
Lemma demo_samples_fit : samples_fit 16 demo_s1 demo_sampled.
Proof.
  assert (H : forall i, (i < 2)%nat -> match at_row (input_batch demo_s1) i with Some (_, v) => v_num_tokens v <=? 4 | None => false end = true) by (intros [|[|i]] Hi; [by vm_compute|by vm_compute|lia]).
  intros i ids Hi _. pose proof (lookup_lt_Some _ _ _ Hi) as Hlt. specialize (H i Hlt). destruct (at_row (input_batch demo_s1) i) as [[id v]|]; [|done]. apply Z.leb_le in H. exists id, v. split; [done|].
  destruct i as [|[|i]]; [injection Hi as <-|injection Hi as <-|done]; unfold zlen; cbn; lia.
Qed.
Lemma demo_s2_runner : runner_ok 16 (fun q => q) demo_s2.
Proof. destruct (bookkeeping_spec 16 (fun q => q) demo_s1 demo_sampled demo_s1_runner demo_samples_fit) as (s' & E & H & _). unfold demo_s2. change 16 with (Z.of_nat 16) at 1. by rewrite E. Qed.
Lemma demo_s2_facts : batch_facts (input_batch demo_s2).
Proof. unfold batch_facts. split_and!; by vm_compute. Qed.
Lemma demo_o2_ok : step_ok 16 demo_s2 demo_o2.
Proof.
  split.
  - apply (bool_decide_unpack _). by vm_compute.
  - apply (bool_decide_unpack _). by vm_compute.
  - apply (bool_decide_unpack _). by vm_compute.
  - intros d Hd. apply list_elem_of_singleton in Hd as ->. assert (He : requests demo_s2 !! "c"%string = None) by (by vm_compute). unfold fresh_state. rewrite unfinished_lookup. replace (requests demo_s2 !! nr_req_id _) with (@None CachedRequestState) by done.
    apply demo_fresh; [apply demo_s2_facts|repeat constructor; by vm_compute|by vm_compute|by vm_compute].
  - intros d Hd. apply list_elem_of_singleton in Hd as ->. split; [apply (bool_decide_unpack _); by vm_compute|]. eexists. split; [vm_compute; reflexivity|]. destruct demo_s2_facts as (_ & _ & _ & ->).
    split; [done|]. split; [done|]. split; [done|]. split; [done|]. split; [by vm_compute|]. apply Forall2_cons. split; [by vm_compute|constructor].
Qed.

Lemma update_states_rebuilds_witness : exists upd md s', demo_step demo_counts2 demo_o2 demo_s2 = Ok (upd, md, s') /\ ready (input_batch s') /\ req_ids (input_batch s') = [Some "b"%string; Some "c"%string].
Proof.
  destruct (update_states_rebuilds 16 (fun q => q) (fun X : gset string => elements X) false 1 (Some 1) demo_counts2 demo_s2 demo_o2 demo_orders) as (upd & md & s' & E & H & _);
    [apply (bool_decide_unpack _); by vm_compute|apply demo_s2_runner|apply demo_o2_ok|].
  exists upd, md, s'. split; [done|]. split; [done|]. assert (Hc : match demo_step demo_counts2 demo_o2 demo_s2 with Ok (_, _, s) => req_ids (input_batch s) | Err _ => [] end = [Some "b"%string; Some "c"%string]) by (by vm_compute).
  unfold demo_step in Hc. by rewrite E in Hc.
Defined.

(** The rows of the requests with a minimum of tokens. *)
Definition demo_state (x : Added) : option Z := let n := ws_min_tokens x.1.1 in if n =? 0 then None else Some n.
Lemma processors_follow_batch_witness : exists upd md s', demo_step demo_counts2 demo_o2 demo_s2 = Ok (upd, md, s') /\
  in_sync demo_state (told_of (requests s')) (process_dict_updates demo_state (fun _ => true) upd {[1%nat := 2]}).1 (input_batch s').
Proof.
  destruct (processors_follow_batch 16 (fun q => q) (fun X : gset string => elements X) false 1 (Some 1) demo_counts2 demo_s2 demo_o2 demo_orders) as (upd & md & s' & E & _ & H);
    [apply (bool_decide_unpack _); by vm_compute|apply demo_s2_runner|apply demo_o2_ok|apply demo_s2_facts|].
  exists upd, md, s'. split; [done|]. apply H. intros [|[|i]]; [by vm_compute|by vm_compute|]. rewrite lookup_singleton_ne by lia. assert (Hn : at_id (input_batch demo_s2) (S (S i)) = None) by (by vm_compute). unfold entry_at. by rewrite Hn.
Defined.
Lemma metadata_describes_batch_witness : exists md0 upd md s', metadata_ok md0 (input_batch demo_s2) /\ demo_step demo_counts2 demo_o2 demo_s2 = Ok (upd, md, s') /\ metadata_ok (default md0 md) (input_batch s').
Proof.
  destruct demo_s2_runner as [Hw [Hd _] _ _]. destruct (make_metadata_ok 16 false (input_batch demo_s2) Hw Hd) as (md0 & _ & H0).
  destruct (metadata_describes_batch 16 (fun q => q) (fun X : gset string => elements X) false 1 (Some 1) demo_counts2 demo_s2 demo_o2 md0 demo_orders) as (upd & md & s' & E & H);
    [apply (bool_decide_unpack _); by vm_compute|apply demo_s2_runner|apply demo_o2_ok|apply demo_s2_facts|done|]. exists md0, upd, md, s'. by split_and!.
Defined.

Lemma demo_reachable : reachable 16 (fun q => q) (fun X : gset string => elements X) false 1 (Some 1) demo_s2.
Proof.
  assert (Ei : exists md b, demo_init = Ok (md, b) /\ demo_s0 = mkRunner ∅ b) by (unfold demo_s0; destruct demo_init as [[md b]|] eqn:E; [by exists md, b|vm_compute in E; discriminate]).
  assert (E1 : exists upd md, demo_step demo_counts1 demo_o1 demo_s0 = Ok (upd, md, demo_s1)) by (unfold demo_s1; destruct (demo_step _ _ _) as [[[upd md] s]|] eqn:E; [by exists upd, md|vm_compute in E; discriminate]).
  assert (E2 : bookkeeping (Z.of_nat 16) demo_sampled demo_s1 = Ok demo_s2) by (unfold demo_s2; change (Z.of_nat 16) with 16; destruct (bookkeeping _ _ _) eqn:E; [done|vm_compute in E; discriminate]).
  destruct E1 as (upd & md & E1). refine (reach_sampled _ _ _ _ _ _ demo_sampled demo_s1 demo_s2 _ demo_samples_fit E2). refine (reach_step _ _ _ _ _ _ demo_counts1 demo_s0 demo_o1 upd md demo_s1 _ _ demo_o1_ok E1); [|apply (bool_decide_unpack _); by vm_compute].
  destruct Ei as (md0 & b & Ei & ->). refine (reach_init _ _ _ _ _ _ _ _ _ _ _ _ _ _ _ _ _ _ _ md0 b _ _ Ei); by repeat constructor.
Qed.
Lemma reachable_runner_ok_witness : runner_ok 16 (fun q => q) demo_s2 /\ exists r, demo_step demo_counts2 demo_o2 demo_s2 = Ok r.
Proof.
  destruct (reachable_runner_ok 16 (fun q => q) (fun X : gset string => elements X) false 1 (Some 1) demo_s2 demo_orders demo_reachable) as (H & Hstep & _). split; [done|]. apply Hstep; [apply (bool_decide_unpack _); by vm_compute|apply demo_o2_ok].
Defined.

Lemma condense_closes_holes_witness : exists b1 b', remove_request "a" (input_batch demo_s2) = Ok (Some 0%nat, b1) /\ condense b1 = Ok b' /\ length (req_ids b') = 1%nat.
Proof.
  destruct demo_s2_runner as [Hw Hr _ _]. assert (Hix : req_id_to_index (input_batch demo_s2) !! "a"%string = Some 0%nat) by (by vm_compute). assert (Hs : sorted_flag (input_batch demo_s2) = false) by (by vm_compute).
  destruct (remove_request_spec 16 (input_batch demo_s2) "a" Hw (ready_editing _ Hr) Hs) as (b1 & E1 & Hw1 & Hed1 & _). rewrite Hix in E1. destruct (condense_closes_holes 16 b1 Hw1 Hed1) as (b' & E & _ & Hl & _). exists b1, b'. split; [done|]. split; [done|].
  rewrite Hl. assert (Hc : match remove_request "a" (input_batch demo_s2) with Ok (_, b) => num_reqs b | Err _ => 0%nat end = 1%nat) by (by vm_compute). by rewrite E1 in Hc.
Defined.


(** ** Masks of the allowed tokens *)

(** A request that is restricted to token 1. *)
Definition demo_restricted : WorkerSampling := mkWS 0 false 1 0 0 0 1 None (Some [1]) None 0 [] None.
Definition demo_cached (id : string) : CachedData := mkCached id 2 None false 0.
(** Who stands at a row after the last of some steps, what its request allows, and whether the
    mask in the metadata of that step forbids a token at the row. *)
Definition seen_at (steps : list (gmap string Z * StepInput)) (row token : nat) : result (option string * option (list Z) * option bool) :=
  '(md, s) ← foldM (fun st x => '(_, md, s) ← demo_step x.1 x.2 st.2; Ok (md, s)) (None, demo_s0) steps;
  let b := input_batch s in
  let p := id ← at_id b row; r ← requests s !! id; cr_sampling_params r in
  Ok (at_id b row, p ≫= allowed_token_ids, m ← md; rows ← md_allowed_token_ids_mask m; l ← rows !! row; l !! token).
Definition demo_two : gmap string Z * StepInput := ({["a"%string := 3; "b"%string := 2]}, mkStep [] {["a"%string; "b"%string]} [demo_new "a" [1; 2; 3] demo_greedy 0 1; demo_new "b" [4; 5] demo_restricted 1 2] [] []).
(** The first request leaves and the second slides into its row; then a third one comes. *)
Definition demo_slide : gmap string Z * StepInput := ({["b"%string := 1]}, mkStep ["a"%string] {["b"%string]} [] [demo_cached "b"] []).
Definition demo_third : gmap string Z * StepInput := ({["b"%string := 1; "c"%string := 2]}, mkStep [] {["b"%string; "c"%string]} [demo_new "c" [6; 7] demo_greedy 2 3] [demo_cached "b"] []).
(** Or the third one takes the row at once, and is put behind the second. *)
Definition demo_swap : gmap string Z * StepInput := ({["b"%string := 1; "c"%string := 2]}, mkStep ["a"%string] {["b"%string; "c"%string]} [demo_new "c" [6; 7] demo_greedy 2 3] [demo_cached "b"] []).

(** C37: [condense] copies the mask of the allowed tokens but leaves it where it was, so a
    request without restriction that gets this row later is forbidden the tokens of another;
    and [swap_states] assigns the rows of a tensor through views, so that both rows end with
    one mask: here a request that may only use token 1 loses its restriction. *)
Theorem allowed_masks_go_astray : seen_at [demo_two; demo_slide; demo_third] 1 0 = Ok (Some "c"%string, None, Some true) /\ seen_at [demo_two; demo_swap] 0 0 = Ok (Some "b"%string, Some [1], Some false).
Proof. split; by vm_compute. Qed.
