(* ===== verification/Offload.v ===== *)
(** * Offloading KV blocks: interface and backend

    vllm/v1/kv_offload: abstract.py (the interface [OffloadingManager], here a class,
    with its promises as a second class), backend.py and backends/cpu.py (block status
    and the allocator of CPU blocks).  A block status object is
    referenced by one dictionary entry only, so the entry holds it; [ref_cnt] is a
    32-bit C integer.  An [OrderedDict] is a list of pairs in its order. *)
From S2P Require Import Prelude.

Abbreviation bytes := (list Z).

(** ** Block status and backend *)

(** A [ctypes.c_int32] field keeps the low 32 bits. *)
Definition wrap32 (z : Z) : Z := (z + 2 ^ 31) mod 2 ^ 32 - 2 ^ 31.

Record BlockStatus : Type := mkStatus { st_ref : Z; st_block : Z }.
#[global] Instance BlockStatus_eq_dec : EqDecision BlockStatus.
Proof. solve_decision. Defined.

Definition set_ref (r : Z) (b : BlockStatus) : BlockStatus := mkStatus (wrap32 r) (st_block b).
Definition new_status (id : Z) : BlockStatus := mkStatus (-1) id.
Definition is_ready (b : BlockStatus) : bool := 0 <=? st_ref b.

Record CPUBackend : Type := mkCPU {
  be_block_size : Z;
  be_num_blocks : Z;
  num_allocated_blocks : Z;
  allocated_blocks_free_list : list Z;
}.
Definition be_medium : string := "CPU".
Definition cpu_backend_init (block_size num_blocks : Z) : CPUBackend := mkCPU block_size num_blocks 0 [].

(** [get_num_free_blocks]. *)
Definition be_num_free (be : CPUBackend) : Z :=
  zlen (allocated_blocks_free_list be) + be_num_blocks be - num_allocated_blocks be.

(** [allocate_blocks]: fresh blocks first, then blocks popped from the free list. *)
Definition allocate_blocks (n : Z) (be : CPUBackend) : result (list BlockStatus * CPUBackend) :=
  let fresh := Z.min n (be_num_blocks be - num_allocated_blocks be) in
  let reused := n - fresh in
  let fl := allocated_blocks_free_list be in
  _ ← py_assert (reused <=? zlen fl);
  let k := (length fl - Z.to_nat reused)%nat in
  Ok ((new_status <$> ((fun i => num_allocated_blocks be + Z.of_nat i) <$> seq 0 (Z.to_nat fresh)))
        ++ (new_status <$> rev (drop k fl)),
      mkCPU (be_block_size be) (be_num_blocks be) (num_allocated_blocks be + Z.max 0 fresh) (take k fl)).

(** [free]. *)
Definition be_free (b : BlockStatus) (be : CPUBackend) : CPUBackend :=
  mkCPU (be_block_size be) (be_num_blocks be) (num_allocated_blocks be) (allocated_blocks_free_list be ++ [st_block b]).

(** [get_load_store_spec]: the ids of the blocks. *)
Definition get_load_store_spec (bs : list BlockStatus) : list Z := st_block <$> bs.

(** ** The interface *)

Record PrepareStoreOutput : Type := mkOutput {
  block_hashes_to_store : list bytes;
  store_spec : list Z;
  block_hashes_evicted : list bytes;
}.
Record OffloadingEvent : Type := mkOEvent {
  oe_hashes : list bytes;
  oe_block_size : Z;
  oe_medium : string;
  oe_removed : bool;
}.

(** [OffloadingManager].  A call that changes the manager returns it. *)
Class OffloadingManager (M : Type) : Type := {
  om_lookup : list bytes -> M -> option Z * M;
  om_prepare_load : list bytes -> M -> result (list Z * M);
  om_touch : list bytes -> M -> M;
  om_complete_load : list bytes -> M -> result M;
  om_prepare_store : list bytes -> M -> result (option PrepareStoreOutput * M);
  om_complete_store : list bytes -> bool -> M -> result M;
  om_take_events : M -> list OffloadingEvent * M;
}.

(** ** Steps the managers share *)

(** The loop of [lookup], over any way to read an entry. *)
Fixpoint count_hits (get : bytes -> option BlockStatus) (hs : list bytes) : Z :=
  match hs with
  | [] => 0
  | h :: hs' =>
      match get h with
      | Some b => if is_ready b then 1 + count_hits get hs' else 0
      | None => 0
      end
  end.
(** [move_to_end], for a key that is present. *)
Definition move_to_end {V} (h : bytes) (d : list (bytes * V)) : list (bytes * V) :=
  match dict_get h d with Some v => dict_del h d ++ [(h, v)] | None => d end.

(** The event of a call, when events are on and there is something to report. *)
Definition add_event (hs : list bytes) (removed : bool) (be : CPUBackend) (ev : option (list OffloadingEvent))
  : option (list OffloadingEvent) :=
  match hs with
  | [] => ev
  | _ => (fun l => l ++ [mkOEvent hs (be_block_size be) be_medium removed]) <$> ev
  end.

(** [self.blocks[h] = block] for the new blocks. *)
Definition insert_all (hbs : list (bytes * BlockStatus)) (d : list (bytes * BlockStatus)) : list (bytes * BlockStatus) :=
  foldl (fun d hb => dict_set hb.1 hb.2 d) d hbs.

(** ** What a manager promises *)

(** The status after [n] more references. *)
Definition bump (n : Z) (b : BlockStatus) : BlockStatus := mkStatus (st_ref b + n) (st_block b).
Definition occurrences (h : bytes) (hs : list bytes) : Z := zlen (filter (fun x => x = h) hs).
Definition evictable (entry : bytes -> option BlockStatus) (hs : list bytes) (h : bytes) : Prop :=
  exists b, entry h = Some b /\ st_ref b = 0 /\ h ∉ hs.

Definition accepted (acc : bytes -> bool) (hs : list bytes) : list bytes := filter (fun h => acc h = true) hs.

(** The contract of the abstract class, over the entry of each hash: its reference
    count ([-1] while it is written) and its address.  A manager may pass over some
    hashes when asked to store them; [om_accepts] says which it takes. *)
Class OffloadingLaws (M : Type) `{OffloadingManager M} : Type := {
  om_ok : M -> Prop;
  om_entry : M -> bytes -> option BlockStatus;
  om_accepts : M -> bytes -> bool;
  ol_ref m h b : om_ok m -> om_entry m h = Some b -> -1 <= st_ref b < 2 ^ 31;
  ol_distinct m h1 h2 b1 b2 : om_ok m -> om_entry m h1 = Some b1 -> om_entry m h2 = Some b2 ->
    st_block b1 = st_block b2 -> h1 = h2;
  ol_lookup m hs : om_ok m -> exists m', om_lookup hs m = (Some (count_hits (om_entry m) hs), m') /\ om_ok m' /\
    forall h, om_entry m' h = om_entry m h;
  ol_load m hs : om_ok m ->
    (forall h, h ∈ hs -> exists b, om_entry m h = Some b /\ 0 <= st_ref b /\ st_ref b + zlen hs < 2 ^ 31) ->
    exists ids m', om_prepare_load hs m = Ok (ids, m') /\ om_ok m' /\
      Forall2 (fun h id => st_block <$> om_entry m h = Some id) hs ids /\
      forall h, om_entry m' h = bump (occurrences h hs) <$> om_entry m h;
  ol_touch m hs : om_ok m -> om_ok (om_touch hs m) /\ forall h, om_entry (om_touch hs m) h = om_entry m h;
  ol_complete_load m hs : om_ok m ->
    (forall h, h ∈ hs -> exists b, om_entry m h = Some b /\ occurrences h hs <= st_ref b) ->
    exists m', om_complete_load hs m = Ok m' /\ om_ok m' /\
      forall h, om_entry m' h = bump (- occurrences h hs) <$> om_entry m h;
  ol_store m hs : om_ok m -> NoDup hs ->
    let acc := accepted (om_accepts m) hs in
    exists o m', om_prepare_store hs m = Ok (o, m') /\ om_ok m' /\
      match o with
      | None => forall h, om_entry m' h = om_entry m h \/ om_entry m' h = None /\ evictable (om_entry m) acc h
      | Some out =>
          block_hashes_to_store out = filter (fun h => om_entry m h = None) acc /\
          length (store_spec out) = length (block_hashes_to_store out) /\
          NoDup (block_hashes_evicted out) /\
          (forall h, h ∈ block_hashes_evicted out -> evictable (om_entry m) acc h /\ om_entry m' h = None) /\
          (forall h, h ∉ block_hashes_evicted out -> h ∉ block_hashes_to_store out -> om_entry m' h = om_entry m h) /\
          (forall i h id, block_hashes_to_store out !! i = Some h -> store_spec out !! i = Some id ->
             om_entry m' h = Some (new_status id))
      end;
  ol_stored m hs : om_ok m -> NoDup hs -> (forall h, h ∈ hs -> is_Some (om_entry m h)) ->
    exists m', om_complete_store hs true m = Ok m' /\ om_ok m' /\
      forall h, om_entry m' h = (fun b => if decide (h ∈ hs /\ is_ready b = false) then mkStatus 0 (st_block b) else b) <$> om_entry m h;
  ol_failed m hs : om_ok m -> NoDup hs -> (forall h, h ∈ hs -> exists b, om_entry m h = Some b /\ is_ready b = false) ->
    exists m', om_complete_store hs false m = Ok m' /\ om_ok m' /\
      forall h, om_entry m' h = if decide (h ∈ hs) then None else om_entry m h;
  ol_take m : om_ok m -> let m' := (om_take_events m).2 in om_ok m' /\ forall h, om_entry m' h = om_entry m h;
}.

Lemma occurrences_cons h x hs : occurrences h (x :: hs) = (if decide (x = h) then 1 else 0) + occurrences h hs.
Proof. unfold occurrences, zlen. rewrite filter_cons. destruct (decide (x = h)); cbn [length]; lia. Qed.
Lemma occurrences_range h hs : 0 <= occurrences h hs <= zlen hs.
Proof. unfold occurrences, zlen. pose proof (length_filter (fun x => x = h) hs). lia. Qed.

Lemma accepted_all hs : accepted (fun _ => true) hs = hs.
Proof. unfold accepted. induction hs as [|h hs IH]; [done|]. by rewrite filter_cons_True, IH. Qed.

(** ** Dictionaries of blocks over the backend *)

Section Store.
Implicit Types (d : list (bytes * BlockStatus)) (h : bytes) (b : BlockStatus) (be : CPUBackend).

Lemma dict_get_app h d1 d2 :
  dict_get h (d1 ++ d2) = match dict_get h d1 with Some b => Some b | None => dict_get h d2 end.
Proof. induction d1 as [|[k v] d1 IH]; cbn; [done|]. by destruct (decide (k = h)). Qed.

Lemma dict_del_perm h b d : dict_get h d = Some b -> d ≡ₚ (h, b) :: dict_del h d.
Proof.
  induction d as [|[k v] d IH]; cbn; [done|]. destruct (decide (k = h)) as [->|]; [by intros [= ->]|].
  intros Hg. rewrite (IH Hg) at 1. apply perm_swap.
Qed.

Lemma dict_get_perm h d1 d2 : NoDup d1.*1 -> d1 ≡ₚ d2 -> dict_get h d1 = dict_get h d2.
Proof.
  intros Hnd Hp. assert (Hnd2 : NoDup d2.*1) by (by rewrite <- Hp).
  destruct (dict_get h d1) as [b|] eqn:E1; symmetry.
  - apply dict_get_elem; [done|]. rewrite <- Hp. by apply dict_get_elem.
  - apply dict_get_None. rewrite <- Hp. by apply dict_get_None.
Qed.

Lemma move_to_end_perm {V} h (d : list (bytes * V)) : NoDup d.*1 -> move_to_end h d ≡ₚ d.
Proof.
  unfold move_to_end. intros _. destruct (dict_get h d) as [v|] eqn:E; [|done].
  assert (Hp : d ≡ₚ (h, v) :: dict_del h d).
  { clear -E. induction d as [|[k w] d IH]; cbn in *; [done|]. destruct (decide (k = h)) as [->|]; [by injection E as ->|].
    rewrite (IH E) at 1. apply perm_swap. }
  rewrite Hp at 2. by rewrite Permutation_app_comm.
Qed.

(** Every block id that was handed out is in one entry or in the free list. *)
Definition backend_ok be (ids : list Z) : Prop :=
  0 <= num_allocated_blocks be <= be_num_blocks be /\
  ids ++ allocated_blocks_free_list be ≡ₚ Z.of_nat <$> seq 0 (Z.to_nat (num_allocated_blocks be)).

Definition ids_in d : list Z := (fun hb : bytes * BlockStatus => st_block hb.2) <$> d.

Record store_ok be d : Prop := {
  so_keys : NoDup d.*1;
  so_backend : backend_ok be (ids_in d);
  so_refs : forall h b, (h, b) ∈ d -> -1 <= st_ref b < 2 ^ 31;
}.

Lemma store_ok_perm be d d' : d ≡ₚ d' -> store_ok be d -> store_ok be d'.
Proof.
  intros Hp [H1 [H2 H3] H4]. split.
  - by rewrite <- Hp.
  - split; [done|]. unfold ids_in in *. by rewrite <- Hp.
  - intros h b. rewrite <- Hp. apply H4.
Qed.

Lemma store_ids_nodup be d : store_ok be d -> NoDup (ids_in d).
Proof.
  intros [_ [_ Hp] _]. assert (Hnd : NoDup (ids_in d ++ allocated_blocks_free_list be)).
  { rewrite Hp. apply NoDup_fmap_2; [|apply NoDup_seq]. intros ? ? H. lia. }
  by apply NoDup_app in Hnd as [? _].
Qed.

Lemma store_distinct be d h1 h2 b1 b2 :
  store_ok be d -> dict_get h1 d = Some b1 -> dict_get h2 d = Some b2 -> st_block b1 = st_block b2 -> h1 = h2.
Proof.
  intros Hok H1 H2 Heq. pose proof (store_ids_nodup be d Hok) as Hnd.
  apply dict_get_elem in H1, H2; [|apply Hok..].
  apply list_elem_of_lookup in H1 as [i Hi]. apply list_elem_of_lookup in H2 as [j Hj].
  assert (i = j) as ->.
  { eapply (NoDup_lookup (ids_in d)); [done| |]; unfold ids_in; rewrite list_lookup_fmap, ?Hi, ?Hj; cbn; by rewrite ?Heq. }
  congruence.
Qed.

(** Changing the status of an entry, but not its block. *)
Lemma store_set be d h b b' :
  store_ok be d -> dict_get h d = Some b -> st_block b' = st_block b -> -1 <= st_ref b' < 2 ^ 31 ->
  store_ok be (dict_set h b' d).
Proof.
  intros [H1 [H2 H3] H4] Hg Heq Hr. split.
  - by apply dict_set_nodup.
  - split; [done|]. enough (ids_in (dict_set h b' d) = ids_in d) as -> by done. clear -Hg Heq.
    induction d as [|[k v] d IH]; cbn in *; [done|]. destruct (decide (k = h)); cbn; [injection Hg as ->; by rewrite Heq|].
    f_equal. by apply IH.
  - intros k v Hkv. apply dict_get_elem in Hkv; [|by apply dict_set_nodup]. rewrite dict_get_set in Hkv.
    destruct (decide (h = k)); [by injection Hkv as <-|]. apply (H4 k). by apply dict_get_elem.
Qed.

(** Giving up an entry. *)
Lemma store_evict be d d' h b : store_ok be d -> d ≡ₚ (h, b) :: d' -> store_ok (be_free b be) d'.
Proof.
  intros Hok Hp. apply (store_ok_perm _ _ _ Hp) in Hok as [H1 [H2 H3] H4]. cbn in H1. apply NoDup_cons in H1 as [_ H1]. split; [done| |].
  - split; [done|]. cbn. rewrite <- H3. cbn. rewrite app_assoc. rewrite Permutation_app_comm. done.
  - intros k v Hkv. apply (H4 k). by constructor.
Qed.

Lemma be_num_free_nonneg be d : store_ok be d -> 0 <= be_num_free be.
Proof. intros [_ [H _] _]. unfold be_num_free, zlen. lia. Qed.

Lemma zip_fst (hs : list bytes) (bs : list BlockStatus) : length bs = length hs -> (zip hs bs).*1 = hs.
Proof. intros H. apply fst_zip. lia. Qed.

(** Allocating blocks for new hashes. *)
Lemma store_alloc be d hs :
  store_ok be d -> NoDup hs -> (forall h, h ∈ hs -> dict_get h d = None) -> zlen hs <= be_num_free be ->
  exists bs be', allocate_blocks (zlen hs) be = Ok (bs, be') /\ length bs = length hs /\
    store_ok be' (d ++ zip hs bs) /\ (forall b, b ∈ bs -> b = new_status (st_block b)) /\
    be_num_free be' = be_num_free be - zlen hs.
Proof.
  intros [H1 [H2 H3] H4] Hnd Hnew Hroom. unfold allocate_blocks, be_num_free in *.
  set (na := num_allocated_blocks be) in *. set (fl := allocated_blocks_free_list be) in *.
  set (fresh := Z.min (zlen hs) (be_num_blocks be - na)). set (re := zlen hs - fresh).
  assert (Hf : 0 <= fresh <= zlen hs /\ 0 <= re <= zlen fl) by (unfold zlen in *; lia).
  rewrite (proj2 (Z.leb_le re (zlen fl))) by lia. cbn [py_assert mbind result_bind].
  set (k := (length fl - Z.to_nat re)%nat). set (new := (fun i => na + Z.of_nat i) <$> seq 0 (Z.to_nat fresh)).
  eexists _, _. split; [done|].
  set (bs := (new_status <$> new) ++ (new_status <$> rev (drop k fl))).
  assert (Hlb : length bs = length hs).
  { subst bs new. rewrite length_app, !length_fmap, length_seq, length_rev, length_drop. unfold zlen in *. lia. }
  assert (Hids : ids_in (zip hs bs) = new ++ rev (drop k fl)).
  { transitivity (st_block <$> bs).
    - unfold ids_in. rewrite <- (snd_zip hs bs) at 2 by lia. by rewrite <- list_fmap_compose.
    - subst bs. rewrite fmap_app, <- !list_fmap_compose. by rewrite !list_fmap_id. }
  split; [done|]. split_and!.
  - split.
    + rewrite fmap_app, zip_fst by done. apply NoDup_app. split_and!; [done| |done].
      intros h Hh Hin. apply Hnew in Hin. by apply dict_get_None in Hin.
    + split; cbn; [lia|]. unfold ids_in. rewrite fmap_app. fold (ids_in d) (ids_in (zip hs bs)). rewrite Hids.
      replace (Z.to_nat (na + Z.max 0 fresh)) with (Z.to_nat na + Z.to_nat fresh)%nat by lia.
      rewrite seq_app, fmap_app, <- H3, <- (Permutation_rev (drop k fl)).
      assert (Hnew' : Z.of_nat <$> seq (0 + Z.to_nat na) (Z.to_nat fresh) = new).
      { subst new. rewrite <- (Nat.add_0_r (0 + Z.to_nat na)), <- fmap_add_seq, <- list_fmap_compose.
        apply list_fmap_ext. intros _ i _. cbn. lia. }
      rewrite Hnew'. transitivity ((ids_in d ++ take k fl ++ drop k fl) ++ new); [|by rewrite take_drop].
      rewrite <- !app_assoc. apply Permutation_app_head. rewrite (Permutation_app_comm new), (app_assoc (take k fl)), <- app_assoc.
      rewrite (app_assoc (drop k fl)). apply Permutation_app_tail, Permutation_app_comm.
    + intros h b [Hb|Hb]%elem_of_app; [by apply (H4 h)|]. apply elem_of_zip_r in Hb.
      apply elem_of_app in Hb as [(? & -> & _)%list_elem_of_fmap|(? & -> & _)%list_elem_of_fmap]; cbn; lia.
  - intros b [(? & -> & _)%list_elem_of_fmap|(? & -> & _)%list_elem_of_fmap]%elem_of_app; done.
  - cbn. unfold zlen in *. rewrite length_take. lia.
Qed.
End Store.
