(* ===== verification/OffloadLRU.v ===== *)
(** * The LRU offloading manager

    vllm/v1/kv_offload/lru_manager.py: [LRUOffloadingManager] over the CPU backend, as an
    instance of the interface and of its laws, and what it evicts. *)
From S2P Require Import Prelude Offload.

(** ** The LRU manager *)

Record LRU : Type := mkLRU {
  lru_backend : CPUBackend;
  lru_blocks : list (bytes * BlockStatus);
  lru_events : option (list OffloadingEvent);
}.
Definition set_lru_blocks (d : list (bytes * BlockStatus)) (m : LRU) : LRU := mkLRU (lru_backend m) d (lru_events m).

Definition lru_init (be : CPUBackend) (enable_events : bool) : LRU := mkLRU be [] (if enable_events then Some [] else None).

Definition lru_lookup (hs : list bytes) (m : LRU) : option Z * LRU :=
  (Some (count_hits (fun h => dict_get h (lru_blocks m)) hs), m).

(** [prepare_load]. *)
Definition lru_load_one (s : list Z * LRU) (h : bytes) : result (list Z * LRU) :=
  let '(ids, m) := s in
  b ← of_option KeyError (dict_get h (lru_blocks m));
  _ ← py_assert (is_ready b);
  Ok (ids ++ [st_block b], set_lru_blocks (dict_set h (set_ref (st_ref b + 1) b) (lru_blocks m)) m).
Definition lru_prepare_load (hs : list bytes) (m : LRU) : result (list Z * LRU) := foldM lru_load_one ([], m) hs.

(** [touch]: absent blocks are passed over. *)
Definition lru_touch (hs : list bytes) (m : LRU) : LRU :=
  set_lru_blocks (foldl (fun d h => move_to_end h d) (lru_blocks m) (rev hs)) m.

(** [complete_load]. *)
Definition lru_complete_one (m : LRU) (h : bytes) : result LRU :=
  b ← of_option KeyError (dict_get h (lru_blocks m));
  _ ← py_assert (0 <? st_ref b);
  Ok (set_lru_blocks (dict_set h (set_ref (st_ref b - 1) b) (lru_blocks m)) m).
Definition lru_complete_load (hs : list bytes) (m : LRU) : result LRU := foldM lru_complete_one m hs.

(** The scan for [n > 0] blocks to evict, oldest first: [None] when the loop runs out. *)
Fixpoint lru_select (protected : list bytes) (n : Z) (items : list (bytes * BlockStatus)) : option (list bytes) :=
  match items with
  | [] => None
  | (h, b) :: items' =>
      if (st_ref b =? 0) && negb (bool_decide (h ∈ protected)) then
        if n - 1 =? 0 then Some [h] else cons h <$> lru_select protected (n - 1) items'
      else lru_select protected n items'
  end.

(** [self.backend.free(self.blocks.pop(h))]. *)
Definition lru_evict_one (m : LRU) (h : bytes) : result LRU :=
  b ← of_option KeyError (dict_get h (lru_blocks m));
  Ok (mkLRU (be_free b (lru_backend m)) (dict_del h (lru_blocks m)) (lru_events m)).

Definition lru_prepare_store (hs : list bytes) (m : LRU) : result (option PrepareStoreOutput * LRU) :=
  let to_store := filter (fun h => dict_get h (lru_blocks m) = None) hs in
  let num_evict := zlen to_store - be_num_free (lru_backend m) in
  match (if 0 <? num_evict then lru_select hs num_evict (lru_blocks m) else Some []) with
  | None => Ok (None, m)
  | Some to_evict =>
      m1 ← foldM lru_evict_one m to_evict;
      let ev := add_event to_evict true (lru_backend m1) (lru_events m1) in
      '(bs, be) ← allocate_blocks (zlen to_store) (lru_backend m1);
      _ ← py_assert (zlen bs =? zlen to_store);
      Ok (Some (mkOutput to_store (get_load_store_spec bs) to_evict),
          mkLRU be (insert_all (zip to_store bs) (lru_blocks m1)) ev)
  end.

(** [complete_store]. *)
Definition lru_stored_one (s : list bytes * LRU) (h : bytes) : result (list bytes * LRU) :=
  let '(stored, m) := s in
  b ← of_option KeyError (dict_get h (lru_blocks m));
  if negb (is_ready b) then Ok (stored ++ [h], set_lru_blocks (dict_set h (set_ref 0 b) (lru_blocks m)) m)
  else Ok (stored, m).
Definition lru_failed_one (m : LRU) (h : bytes) : result LRU :=
  b ← of_option KeyError (dict_get h (lru_blocks m));
  if negb (is_ready b) then Ok (mkLRU (be_free b (lru_backend m)) (dict_del h (lru_blocks m)) (lru_events m))
  else Ok m.
Definition lru_complete_store (hs : list bytes) (success : bool) (m : LRU) : result LRU :=
  if success then
    '(stored, m1) ← foldM lru_stored_one ([], m) hs;
    Ok (mkLRU (lru_backend m1) (lru_blocks m1) (add_event stored false (lru_backend m1) (lru_events m1)))
  else foldM lru_failed_one m hs.

(** [take_events]. *)
Definition lru_take_events (m : LRU) : list OffloadingEvent * LRU :=
  match lru_events m with Some l => (l, mkLRU (lru_backend m) (lru_blocks m) (Some [])) | None => ([], m) end.

#[global] Instance lru_manager : OffloadingManager LRU := {
  om_lookup := lru_lookup;
  om_prepare_load := lru_prepare_load;
  om_touch := lru_touch;
  om_complete_load := lru_complete_load;
  om_prepare_store := lru_prepare_store;
  om_complete_store := lru_complete_store;
  om_take_events := lru_take_events;
}.

(** ** The laws *)

Definition lru_ok (m : LRU) : Prop := store_ok (lru_backend m) (lru_blocks m).
Definition lru_entry (m : LRU) (h : bytes) : option BlockStatus := dict_get h (lru_blocks m).

Lemma wrap32_id z : - 2 ^ 31 <= z < 2 ^ 31 -> wrap32 z = z.
Proof. intros H. unfold wrap32. rewrite Z.mod_small by lia. lia. Qed.

Lemma entry_ref m h b : lru_ok m -> lru_entry m h = Some b -> -1 <= st_ref b < 2 ^ 31.
Proof. intros Hok Hg. apply (so_refs _ _ Hok h). apply dict_get_elem; [apply Hok|done]. Qed.

Lemma bump_zero b : bump 0 b = b.
Proof. destruct b. unfold bump. cbn. by rewrite Z.add_0_r. Qed.
Lemma bump_bump i j b : bump i (bump j b) = bump (j + i) b.
Proof. unfold bump. cbn. f_equal. lia. Qed.

(** One more or one less reference of a present entry. *)
Lemma lru_set_ref m h b d :
  lru_ok m -> lru_entry m h = Some b -> -1 <= st_ref b + d < 2 ^ 31 ->
  let m' := set_lru_blocks (dict_set h (set_ref (st_ref b + d) b) (lru_blocks m)) m in
  lru_ok m' /\ forall k, lru_entry m' k = bump (if decide (h = k) then d else 0) <$> lru_entry m k.
Proof.
  intros Hok Hg Hr m'. assert (Hs : set_ref (st_ref b + d) b = bump d b) by (unfold set_ref, bump; rewrite wrap32_id; [done|lia]).
  split.
  - unfold lru_ok. cbn. apply (store_set _ _ h b); [done|done|done|]. rewrite Hs. cbn. lia.
  - intros k. unfold lru_entry, m'. cbn. rewrite dict_get_set, Hs. destruct (decide (h = k)) as [<-|].
    + unfold lru_entry in Hg. by rewrite Hg.
    + destruct (dict_get k (lru_blocks m)); cbn; [by rewrite bump_zero|done].
Qed.

Lemma fmap_bump_bump i j (o : option BlockStatus) : bump i <$> (bump j <$> o) = bump (j + i) <$> o.
Proof. destruct o; cbn; [by rewrite bump_bump|done]. Qed.
Lemma fmap_bump_zero (o : option BlockStatus) : bump 0 <$> o = o.
Proof. destruct o; cbn; [by rewrite bump_zero|done]. Qed.

Lemma lru_load_loop hs ids m :
  lru_ok m -> (forall h, h ∈ hs -> exists b, lru_entry m h = Some b /\ 0 <= st_ref b /\ st_ref b + zlen hs < 2 ^ 31) ->
  exists ids' m', foldM lru_load_one (ids, m) hs = Ok (ids ++ ids', m') /\ lru_ok m' /\
    Forall2 (fun h id => st_block <$> lru_entry m h = Some id) hs ids' /\
    forall h, lru_entry m' h = bump (occurrences h hs) <$> lru_entry m h.
Proof.
  revert ids m. induction hs as [|h hs IH]; intros ids m Hok Hhs; cbn [foldM].
  { exists [], m. rewrite app_nil_r. split_and!; try done. intros h. change (occurrences h []) with 0. by rewrite fmap_bump_zero. }
  destruct (Hhs h ltac:(constructor)) as (b & Hb & Hr0 & Hr1). unfold zlen in Hr1. cbn [length] in Hr1.
  unfold lru_load_one at 2. unfold lru_entry in Hb. rewrite Hb. cbn [of_option mbind result_bind].
  unfold is_ready. rewrite (proj2 (Z.leb_le 0 (st_ref b))) by lia. cbn [py_assert mbind result_bind].
  destruct (lru_set_ref m h b 1 Hok Hb ltac:(lia)) as [Hok1 He1]. set (m1 := set_lru_blocks _ m) in *.
  destruct (IH (ids ++ [st_block b]) m1 Hok1) as (ids' & m' & -> & Hok' & HF & He').
  - intros k Hk. destruct (Hhs k ltac:(by constructor)) as (c & Hc & Hc0 & Hc1). unfold zlen in *. cbn [length] in Hc1.
    rewrite He1, Hc. cbn. eexists. split; [done|]. cbn. destruct (decide (h = k)); lia.
  - exists (st_block b :: ids'), m'. rewrite <- app_assoc. split_and!; try done.
    + constructor; [unfold lru_entry; by rewrite Hb|]. eapply Forall2_impl; [exact HF|]. intros k id Hk. cbn beta in Hk |- *. rewrite He1 in Hk.
      by destruct (lru_entry m k).
    + intros k. rewrite He', He1, fmap_bump_bump, occurrences_cons. done.
Qed.

Lemma lru_complete_loop hs m :
  lru_ok m -> (forall h, h ∈ hs -> exists b, lru_entry m h = Some b /\ occurrences h hs <= st_ref b) ->
  exists m', foldM lru_complete_one m hs = Ok m' /\ lru_ok m' /\
    forall h, lru_entry m' h = bump (- occurrences h hs) <$> lru_entry m h.
Proof.
  revert m. induction hs as [|h hs IH]; intros m Hok Hhs; cbn [foldM].
  { exists m. split_and!; try done. intros h. change (- occurrences h []) with 0. by rewrite fmap_bump_zero. }
  destruct (Hhs h ltac:(constructor)) as (b & Hb & Hr). rewrite occurrences_cons, decide_True in Hr by done.
  pose proof (occurrences_range h hs). pose proof (entry_ref m h b Hok Hb).
  unfold lru_complete_one at 2. unfold lru_entry in Hb. rewrite Hb. cbn [of_option mbind result_bind].
  rewrite (proj2 (Z.ltb_lt 0 (st_ref b))) by lia. cbn [py_assert mbind result_bind].
  destruct (lru_set_ref m h b (-1) Hok Hb ltac:(lia)) as [Hok1 He1]. rewrite <- Z.sub_opp_r in Hok1, He1. cbn [Z.opp] in Hok1, He1.
  set (m1 := set_lru_blocks _ m) in *.
  destruct (IH m1 Hok1) as (m' & -> & Hok' & He').
  - intros k Hk. destruct (Hhs k ltac:(by constructor)) as (c & Hc & Hcr). rewrite He1, Hc. cbn. eexists. split; [done|].
    rewrite occurrences_cons in Hcr. cbn. destruct (decide (h = k)); lia.
  - exists m'. split_and!; try done. intros k. rewrite He', He1, fmap_bump_bump, occurrences_cons.
    f_equal. destruct (decide (h = k)); f_equal; lia.
Qed.

Lemma moves_perm {V} (xs : list bytes) (d : list (bytes * V)) :
  NoDup d.*1 -> foldl (fun d h => move_to_end h d) d xs ≡ₚ d.
Proof.
  revert d. induction xs as [|x xs IH]; intros d Hnd; cbn; [done|]. pose proof (move_to_end_perm x d Hnd) as Hp.
  rewrite IH; [done|by rewrite Hp].
Qed.

Lemma lru_touch_spec hs m : lru_ok m -> lru_ok (lru_touch hs m) /\ forall h, lru_entry (lru_touch hs m) h = lru_entry m h.
Proof.
  intros Hok. pose proof (moves_perm (rev hs) (lru_blocks m) (so_keys _ _ Hok)) as Hp. split.
  - unfold lru_ok. cbn. by eapply store_ok_perm; [symmetry|].
  - intros h. unfold lru_entry. cbn. symmetry. apply dict_get_perm; [apply Hok|by symmetry].
Qed.

(** The candidates of an eviction, oldest first. *)
Definition candidates (protected : list bytes) (items : list (bytes * BlockStatus)) : list bytes :=
  (filter (fun hb : bytes * BlockStatus => st_ref hb.2 = 0 /\ hb.1 ∉ protected) items).*1.

Lemma lru_select_spec protected n items :
  0 < n ->
  lru_select protected n items =
    if n <=? zlen (candidates protected items) then Some (take (Z.to_nat n) (candidates protected items)) else None.
Proof.
  revert n. unfold candidates. induction items as [|[h b] items IH]; intros n Hn.
  { cbn [lru_select]. change (zlen _) with 0. by rewrite (proj2 (Z.leb_gt n 0)) by lia. }
  cbn [lru_select]. rewrite filter_cons. destruct (Z.eqb_spec (st_ref b) 0) as [Hr|Hr]; cbn [andb].
  2: { rewrite decide_False by (cbn; tauto). by apply IH. }
  case_bool_decide as Hp; cbn [negb]; [rewrite decide_False by (cbn; tauto); by apply IH|].
  rewrite decide_True by done. cbn [fmap list_fmap fst]. unfold zlen. cbn [length].
  set (c := (filter _ items).*1) in *. destruct (Z.eqb_spec (n - 1) 0) as [Hn1|Hn1].
  - rewrite (proj2 (Z.leb_le n (Z.of_nat (S (length c))))) by lia. by replace (Z.to_nat n) with 1%nat by lia.
  - rewrite (IH (n - 1)) by lia. unfold zlen.
    destruct (Z.leb_spec (n - 1) (Z.of_nat (length c))), (Z.leb_spec n (Z.of_nat (S (length c)))); try lia; [|done].
    cbn. do 2 f_equal. by replace (Z.to_nat n) with (S (Z.to_nat (n - 1))) by lia.
Qed.

Lemma candidates_evictable protected m h :
  lru_ok m -> h ∈ candidates protected (lru_blocks m) <-> evictable (lru_entry m) protected h.
Proof.
  intros Hok. unfold candidates, evictable. rewrite list_elem_of_fmap. setoid_rewrite list_elem_of_filter. split.
  - intros ([k b] & -> & [H1 H2] & Hin). exists b. split; [|done]. by apply dict_get_elem; [apply Hok|].
  - intros (b & Hg & H1 & H2). exists (h, b). split_and!; try done. by apply dict_get_elem in Hg; [|apply Hok].
Qed.

Lemma candidates_nodup protected d : NoDup d.*1 -> NoDup (candidates protected d).
Proof. intros Hnd. unfold candidates. eapply sublist_NoDup; [exact Hnd|]. apply fmap_sublist, sublist_filter. Qed.

(** The evictions of [prepare_store]. *)
Lemma lru_evict_loop hs m :
  lru_ok m -> NoDup hs -> (forall h, h ∈ hs -> is_Some (lru_entry m h)) ->
  exists m', foldM lru_evict_one m hs = Ok m' /\ lru_ok m' /\ lru_events m' = lru_events m /\
    be_num_free (lru_backend m') = be_num_free (lru_backend m) + zlen hs /\
    forall h, lru_entry m' h = if decide (h ∈ hs) then None else lru_entry m h.
Proof.
  revert m. induction hs as [|h hs IH]; intros m Hok Hnd Hhs; cbn [foldM].
  { exists m. split_and!; try done. unfold zlen. cbn. lia. }
  apply NoDup_cons in Hnd as [Hh Hnd]. destruct (Hhs h ltac:(constructor)) as [b Hb].
  unfold lru_evict_one at 2. unfold lru_entry in Hb. rewrite Hb. cbn [of_option mbind result_bind]. set (m1 := mkLRU _ _ _).
  assert (Hok1 : lru_ok m1) by (apply (store_evict _ (lru_blocks m) _ h b Hok), dict_del_perm, Hb).
  assert (He1 : forall k, lru_entry m1 k = if decide (h = k) then None else lru_entry m k)
    by (intros k; apply dict_get_del, Hok).
  destruct (IH m1 Hok1 Hnd) as (m' & -> & Hok' & Hev & Hfree & He').
  { intros k Hk. rewrite He1. rewrite decide_False by (by intros ->). apply Hhs. by constructor. }
  exists m'. split_and!; try done.
  - rewrite Hfree. unfold be_num_free, zlen. cbn. rewrite length_app. cbn. lia.
  - intros k. rewrite He', He1. destruct (decide (k ∈ hs)) as [Hk|Hk].
    + by rewrite decide_True by (by constructor).
    + destruct (decide (h = k)) as [->|Hne]; [by rewrite decide_True by constructor|].
      rewrite decide_False; [done|]. rewrite elem_of_cons. by intros [->|].
Qed.

(** Inserting new keys appends them. *)
Lemma insert_all_new (hbs d : list (bytes * BlockStatus)) : NoDup (d ++ hbs).*1 -> insert_all hbs d = d ++ hbs.
Proof.
  revert d. induction hbs as [|[h b] hbs IH]; intros d Hnd; cbn [insert_all foldl]; [by rewrite app_nil_r|].
  assert (Hs : dict_set h b d = d ++ [(h, b)]).
  { rewrite fmap_app in Hnd. apply NoDup_app in Hnd as (_ & Hd & _).
    assert (Hh : h ∉ d.*1) by (intros Hin; apply (Hd h Hin); cbn; constructor). clear -Hh.
    induction d as [|[k v] d IH]; cbn in *; [done|]. rewrite elem_of_cons in Hh. rewrite decide_False by (intros ->; tauto).
    f_equal. apply IH. tauto. }
  cbn [fst snd]. rewrite Hs. fold (insert_all hbs (d ++ [(h, b)])). rewrite IH; by rewrite <- app_assoc.
Qed.

Lemma dict_get_zip (hs : list bytes) (bs : list BlockStatus) i h b :
  NoDup hs -> hs !! i = Some h -> bs !! i = Some b -> length bs = length hs -> dict_get h (zip hs bs) = Some b.
Proof.
  intros Hnd Hh Hb Hl. apply dict_get_elem; [by rewrite zip_fst|]. apply list_elem_of_lookup. exists i.
  rewrite lookup_zip_with, Hh. cbn. by rewrite Hb.
Qed.

(** The second half of [prepare_store]: evict, then take blocks for the new hashes. *)
Lemma lru_store_commit hs ev m :
  lru_ok m -> NoDup hs -> NoDup ev -> (forall h, h ∈ hs -> lru_entry m h = None) ->
  (forall h, h ∈ ev -> is_Some (lru_entry m h)) -> zlen hs <= be_num_free (lru_backend m) + zlen ev ->
  exists m1 bs be, foldM lru_evict_one m ev = Ok m1 /\ allocate_blocks (zlen hs) (lru_backend m1) = Ok (bs, be) /\
    zlen bs = zlen hs /\
    forall evts, let m' := mkLRU be (insert_all (zip hs bs) (lru_blocks m1)) evts in
      lru_ok m' /\ (forall h, h ∈ ev -> lru_entry m' h = None) /\
      (forall h, h ∉ ev -> h ∉ hs -> lru_entry m' h = lru_entry m h) /\
      (forall i h id, hs !! i = Some h -> get_load_store_spec bs !! i = Some id -> lru_entry m' h = Some (new_status id)).
Proof.
  intros Hok Hnd Hnde Hnew Hev Hroom. destruct (lru_evict_loop ev m Hok Hnde Hev) as (m1 & Hm1 & Hok1 & _ & Hfree & He1).
  assert (Hnew1 : forall h, h ∈ hs -> dict_get h (lru_blocks m1) = None).
  { intros h Hh. fold (lru_entry m1 h). rewrite He1. case_decide; [done|]. by apply Hnew. }
  destruct (store_alloc _ _ hs Hok1 Hnd Hnew1 ltac:(lia)) as (bs & be & Hal & Hlen & Hok' & Hst & _).
  exists m1, bs, be. split_and!; [done|done|unfold zlen; lia|]. intros evts m'.
  assert (Hd : lru_blocks m' = lru_blocks m1 ++ zip hs bs) by (apply insert_all_new, Hok').
  assert (Hget : forall h, lru_entry m' h = match lru_entry m1 h with Some b => Some b | None => dict_get h (zip hs bs) end).
  { intros h. unfold lru_entry. rewrite Hd. apply dict_get_app. }
  assert (Hz : forall h, h ∉ hs -> dict_get h (zip hs bs) = None) by (intros h Hh; apply dict_get_None; by rewrite zip_fst).
  assert (Hdisj : forall h, h ∈ ev -> h ∉ hs).
  { intros h Hh Hin. destruct (Hev h Hh) as [b Hb]. rewrite (Hnew h Hin) in Hb. done. }
  split_and!.
  - unfold lru_ok. rewrite Hd. done.
  - intros h Hh. rewrite Hget, He1, decide_True by done. apply Hz, Hdisj, Hh.
  - intros h Hh Hh'. rewrite Hget, He1, decide_False by done. destruct (lru_entry m h); [done|]. by apply Hz.
  - intros i h id Hi Hid. apply list_lookup_fmap_Some in Hid as (b & -> & Hb).
    assert (Hin : h ∈ hs) by (by eapply list_elem_of_lookup_2).
    rewrite Hget. change (lru_entry m1 h) with (dict_get h (lru_blocks m1)). rewrite (Hnew1 h Hin). rewrite (dict_get_zip hs bs i h b Hnd Hi Hb Hlen).
    f_equal. apply Hst. by eapply list_elem_of_lookup_2.
Qed.

(** What [prepare_store] answers: nothing when the candidates do not suffice, or the
    oldest candidates evicted, as few as needed. *)
Lemma lru_prepare_store_spec m hs :
  lru_ok m -> NoDup hs ->
  let to_store := filter (fun h => lru_entry m h = None) hs in
  let need := Z.max 0 (zlen to_store - be_num_free (lru_backend m)) in
  let cands := candidates hs (lru_blocks m) in
  if zlen cands <? need then lru_prepare_store hs m = Ok (None, m)
  else exists spec m', lru_prepare_store hs m = Ok (Some (mkOutput to_store spec (take (Z.to_nat need) cands)), m') /\
    lru_ok m' /\ length spec = length to_store /\
    (forall h, h ∈ take (Z.to_nat need) cands -> lru_entry m' h = None) /\
    (forall h, h ∉ take (Z.to_nat need) cands -> h ∉ to_store -> lru_entry m' h = lru_entry m h) /\
    (forall i h id, to_store !! i = Some h -> spec !! i = Some id -> lru_entry m' h = Some (new_status id)).
Proof.
  intros Hok Hnd to_store need cands. unfold lru_prepare_store.
  change (filter (fun h => dict_get h (lru_blocks m) = None) hs) with to_store. set (n := zlen to_store - be_num_free (lru_backend m)).
  assert (Hsel : (if 0 <? n then lru_select hs n (lru_blocks m) else Some []) =
                 if zlen cands <? need then None else Some (take (Z.to_nat need) cands)).
  { subst need. fold n. assert (0 <= zlen cands) by (unfold zlen; lia). destruct (Z.ltb_spec 0 n).
    - rewrite lru_select_spec by done. fold cands. rewrite Z.max_r by lia.
      destruct (Z.leb_spec n (zlen cands)), (Z.ltb_spec (zlen cands) n); try lia; done.
    - rewrite Z.max_l by lia. rewrite (proj2 (Z.ltb_ge (zlen cands) 0)) by lia. done. }
  cbv zeta. fold n. rewrite Hsel. destruct (Z.ltb_spec (zlen cands) need) as [Hlt|Hge]; [done|].
  set (ev := take (Z.to_nat need) cands).
  assert (Hev : forall h, h ∈ ev -> evictable (lru_entry m) hs h).
  { intros h Hh%(subseteq_take _). by apply candidates_evictable. }
  destruct (lru_store_commit to_store ev m Hok) as (m1 & bs & be & Hm1 & Hal & Hlen & Hres).
  - by apply NoDup_filter.
  - subst ev. rewrite <- (take_drop (Z.to_nat need) cands) in *. pose proof (candidates_nodup hs _ (so_keys _ _ Hok)) as Hc.
    fold cands in Hc. rewrite <- (take_drop (Z.to_nat need) cands) in Hc. rewrite take_drop. by apply NoDup_app in Hc as [? _].
  - intros h Hh. by apply list_elem_of_filter in Hh as [? _].
  - intros h Hh. destruct (Hev h Hh) as (b & -> & _). done.
  - subst ev need n. unfold zlen in *. rewrite length_take. lia.
  - rewrite Hm1. cbn [mbind result_bind]. rewrite Hal. cbn [mbind result_bind]. rewrite (proj2 (Z.eqb_eq _ _) Hlen).
    cbn [py_assert mbind result_bind]. eexists _, _. split; [done|].
    destruct (Hres (add_event ev true (lru_backend m1) (lru_events m1))) as (H1 & H2 & H3 & H4). split_and!; try done.
    unfold get_load_store_spec. rewrite length_fmap. unfold zlen in Hlen. lia.
Qed.

(** An entry made ready; a failed entry dropped. *)
Definition stored_status (b : BlockStatus) : BlockStatus := if is_ready b then b else mkStatus 0 (st_block b).

Lemma lru_stored_loop hs stored m :
  lru_ok m -> NoDup hs -> (forall h, h ∈ hs -> is_Some (lru_entry m h)) ->
  exists stored' m', foldM lru_stored_one (stored, m) hs = Ok (stored', m') /\ lru_ok m' /\
    forall h, lru_entry m' h = if decide (h ∈ hs) then stored_status <$> lru_entry m h else lru_entry m h.
Proof.
  revert stored m. induction hs as [|h hs IH]; intros stored m Hok Hnd Hhs; cbn [foldM].
  { exists stored, m. by split_and!. }
  apply NoDup_cons in Hnd as [Hh Hnd]. destruct (Hhs h ltac:(constructor)) as [b Hb].
  assert (Hstep : exists st1 m1, lru_stored_one (stored, m) h = Ok (st1, m1) /\ lru_ok m1 /\
    forall k, lru_entry m1 k = if decide (h = k) then stored_status <$> lru_entry m k else lru_entry m k).
  { unfold lru_stored_one. unfold lru_entry in Hb. rewrite Hb. cbn [of_option mbind result_bind].
    destruct (is_ready b) eqn:Er; cbn [negb].
    - exists stored, m. split_and!; try done. intros k. case_decide as Hk; [|done]. subst k. unfold lru_entry. rewrite Hb. cbn.
      unfold stored_status. by rewrite Er.
    - eexists _, _. split; [done|]. split.
      + unfold lru_ok. cbn. apply (store_set _ _ h b); [done|done|done|]. cbn. change (wrap32 0) with 0. lia.
      + intros k. unfold lru_entry. cbn. rewrite dict_get_set. destruct (decide (h = k)) as [<-|]; [|done].
        rewrite Hb. cbn. unfold stored_status. by rewrite Er. }
  destruct Hstep as (st1 & m1 & -> & Hok1 & He1). cbn [mbind result_bind].
  destruct (IH st1 m1 Hok1 Hnd) as (st' & m' & -> & Hok' & He').
  { intros k Hk. rewrite He1. case_decide; [subst|]; [by rewrite fmap_is_Some; apply Hhs; constructor|apply Hhs; by constructor]. }
  exists st', m'. split_and!; try done. intros k. rewrite He', He1. destruct (decide (h = k)) as [<-|Hne].
  - rewrite decide_False, decide_True by (done || constructor). done.
  - destruct (decide (k ∈ hs)); [by rewrite decide_True by (by constructor)|]. rewrite decide_False; [done|].
    rewrite elem_of_cons. by intros [->|].
Qed.

Lemma lru_failed_loop hs m :
  lru_ok m -> NoDup hs -> (forall h, h ∈ hs -> exists b, lru_entry m h = Some b /\ is_ready b = false) ->
  exists m', foldM lru_failed_one m hs = Ok m' /\ lru_ok m' /\
    forall h, lru_entry m' h = if decide (h ∈ hs) then None else lru_entry m h.
Proof.
  revert m. induction hs as [|h hs IH]; intros m Hok Hnd Hhs; cbn [foldM].
  { exists m. by split_and!. }
  apply NoDup_cons in Hnd as [Hh Hnd]. destruct (Hhs h ltac:(constructor)) as (b & Hb & Hr).
  unfold lru_failed_one at 2. unfold lru_entry in Hb. rewrite Hb. cbn [of_option mbind result_bind]. rewrite Hr. cbn [negb].
  set (m1 := mkLRU _ _ _).
  assert (Hok1 : lru_ok m1) by (apply (store_evict _ (lru_blocks m) _ h b Hok), dict_del_perm, Hb).
  assert (He1 : forall k, lru_entry m1 k = if decide (h = k) then None else lru_entry m k) by (intros k; apply dict_get_del, Hok).
  cbn [mbind result_bind]. destruct (IH m1 Hok1 Hnd) as (m' & -> & Hok' & He').
  { intros k Hk. rewrite He1, decide_False by (by intros ->). apply Hhs. by constructor. }
  exists m'. split_and!; try done. intros k. rewrite He', He1. destruct (decide (k ∈ hs)) as [Hk|Hk].
  - by rewrite decide_True by (by constructor).
  - destruct (decide (h = k)) as [->|Hne]; [by rewrite decide_True by constructor|].
    rewrite decide_False; [done|]. rewrite elem_of_cons. by intros [->|].
Qed.

Lemma stored_status_decide (P : Prop) `{Decision P} b :
  (if decide (P /\ is_ready b = false) then mkStatus 0 (st_block b) else b) = if decide P then stored_status b else b.
Proof. unfold stored_status. destruct (is_ready b); repeat case_decide; naive_solver. Qed.

(** [LRUOffloadingManager] implements the contract. *)
#[global] Instance lru_laws : OffloadingLaws LRU.
Proof.
  refine {| om_ok := lru_ok; om_entry := lru_entry; om_accepts := fun _ _ => true |}.
  - exact entry_ref.
  - intros m h1 h2 b1 b2 Hok. by apply (store_distinct (lru_backend m)).
  - intros m hs Hok. by exists m.
  - intros m hs Hok Hhs. destruct (lru_load_loop hs [] m Hok Hhs) as (ids & m' & H & ?). by exists ids, m'.
  - intros m hs. apply lru_touch_spec.
  - intros m hs Hok Hhs. by apply lru_complete_loop.
  - intros m hs Hok Hnd acc. subst acc. rewrite accepted_all.
    pose proof (lru_prepare_store_spec m hs Hok Hnd) as H. cbv zeta in H. destruct (zlen (candidates hs (lru_blocks m)) <? _); [by exists None, m; auto|].
    destruct H as (spec & m' & H & Hok' & Hlen & Hev & Hkeep & Hnew). eexists (Some _), m'. split_and!; try done; cbn.
    + eapply sublist_NoDup; [apply candidates_nodup, (so_keys _ _ Hok)|apply sublist_take].
    + intros h Hh. split; [|by apply Hev]. apply (subseteq_take _) in Hh. by apply candidates_evictable in Hh.
  - intros m hs Hok Hnd Hhs. cbn. unfold lru_complete_store.
    destruct (lru_stored_loop hs [] m Hok Hnd Hhs) as (st & m' & -> & Hok' & He). cbn [mbind result_bind].
    eexists. split; [done|]. split; [exact Hok'|]. intros h. etransitivity; [exact (He h)|].
    destruct (lru_entry m h) as [b|]; cbn; [rewrite stored_status_decide|]; by case_decide.
  - intros m hs Hok Hnd Hhs. by apply lru_failed_loop.
  - intros m Hok. cbn. unfold lru_take_events. by destruct (lru_events m).
Defined.
