(* ===== verification/OffloadARC.v ===== *)
(** * The ARC offloading manager

    vllm/v1/kv_offload/arc_manager.py: [ARCOffloadingManager].  The target size of T1 is a
    Python float; the model takes the float operations as parameters, so that the
    theorems hold for any rounding, and instantiates them with IEEE binary64
    (Stdlib's [SpecFloat]).  [int()] of a NaN or an infinity, which would raise, is 0
    there: the target starts at 0 and is kept between 0 and the capacity. *)
From Stdlib Require Import SpecFloat.
From S2P Require Import Prelude Offload OffloadLRU.

(** ** Floats *)

Class PyFloat (F : Type) : Type := {
  f_of : Z -> F;
  f_add : F -> F -> F;
  f_sub : F -> F -> F;
  f_div : Z -> Z -> F;
  f_lt : F -> F -> bool;
  f_int : F -> Z;
}.

(** [min(a, b)] and [max(a, b)]: the first one unless the second is strictly beyond. *)
Definition f_min {F} `{PyFloat F} (a b : F) : F := if f_lt b a then b else a.
Definition f_max {F} `{PyFloat F} (a b : F) : F := if f_lt a b then b else a.

Definition b64_of (z : Z) : spec_float := binary_normalize 53 1024 z 0 false.
Definition b64_int (f : spec_float) : Z :=
  match f with
  | S754_finite s m e =>
      let v := if 0 <=? e then Zpos m * 2 ^ e else Zpos m / 2 ^ (- e) in
      if s then - v else v
  | _ => 0
  end.
#[global] Instance binary64 : PyFloat spec_float := {
  f_of := b64_of;
  f_add := SFadd 53 1024;
  f_sub := SFsub 53 1024;
  f_div a b := SFdiv 53 1024 (b64_of a) (b64_of b);
  f_lt := SFltb;
  f_int := b64_int;
}.

(** ** The manager *)

Section ARC.
Context {F : Type} `{PyFloat F}.

Record ARC : Type := mkARC {
  arc_backend : CPUBackend;
  target_t1_size : F;
  arc_t1 : list (bytes * BlockStatus);
  arc_t2 : list (bytes * BlockStatus);
  arc_b1 : list (bytes * unit);
  arc_b2 : list (bytes * unit);
  arc_events : option (list OffloadingEvent);
  cache_capacity : Z;
}.

Definition arc_init (be : CPUBackend) (enable_events : bool) : ARC :=
  mkARC be (f_of 0) [] [] [] [] (if enable_events then Some [] else None) (be_num_free be).

Definition set_t (t1 t2 : list (bytes * BlockStatus)) (m : ARC) : ARC :=
  mkARC (arc_backend m) (target_t1_size m) t1 t2 (arc_b1 m) (arc_b2 m) (arc_events m) (cache_capacity m).
Definition set_ghosts (target : F) (b1 b2 : list (bytes * unit)) (m : ARC) : ARC :=
  mkARC (arc_backend m) target (arc_t1 m) (arc_t2 m) b1 b2 (arc_events m) (cache_capacity m).

(** [self.t1.get(h) or self.t2.get(h)], and writing the block's count back. *)
Definition arc_get (m : ARC) (h : bytes) : option BlockStatus :=
  match dict_get h (arc_t1 m) with Some b => Some b | None => dict_get h (arc_t2 m) end.
Definition arc_put (h : bytes) (b : BlockStatus) (m : ARC) : ARC :=
  match dict_get h (arc_t1 m) with
  | Some _ => set_t (dict_set h b (arc_t1 m)) (arc_t2 m) m
  | None => set_t (arc_t1 m) (dict_set h b (arc_t2 m)) m
  end.

Definition arc_lookup (hs : list bytes) (m : ARC) : option Z * ARC := (Some (count_hits (arc_get m) hs), m).

Definition arc_load_one (s : list Z * ARC) (h : bytes) : result (list Z * ARC) :=
  let '(ids, m) := s in
  b ← of_option AssertionError (arc_get m h);
  _ ← py_assert (is_ready b);
  Ok (ids ++ [st_block b], arc_put h (set_ref (st_ref b + 1) b) m).
Definition arc_prepare_load (hs : list bytes) (m : ARC) : result (list Z * ARC) := foldM arc_load_one ([], m) hs.

(** One block of [touch]. *)
Definition arc_touch_one (m : ARC) (h : bytes) : ARC :=
  match dict_get h (arc_t1 m) with
  | Some b =>
      if negb (is_ready b) then set_t (dict_del h (arc_t1 m) ++ [(h, b)]) (arc_t2 m) m
      else set_t (dict_del h (arc_t1 m)) (dict_set h b (arc_t2 m)) m
  | None =>
      match dict_get h (arc_t2 m) with
      | Some _ => set_t (arc_t1 m) (move_to_end h (arc_t2 m)) m
      | None =>
          let n1 := zlen (arc_b1 m) in
          let n2 := zlen (arc_b2 m) in
          match dict_get h (arc_b1 m), dict_get h (arc_b2 m) with
          | Some _, _ =>
              let delta := f_max (f_of 1) (f_div n2 n1) in
              set_ghosts (f_min (f_add (target_t1_size m) delta) (f_of (cache_capacity m)))
                (move_to_end h (arc_b1 m)) (arc_b2 m) m
          | None, Some _ =>
              let delta := f_max (f_of 1) (f_div n1 n2) in
              set_ghosts (f_max (f_sub (target_t1_size m) delta) (f_of 0)) (arc_b1 m) (move_to_end h (arc_b2 m)) m
          | None, None => m
          end
      end
  end.
Definition arc_touch (hs : list bytes) (m : ARC) : ARC := foldl arc_touch_one m (rev hs).

Definition arc_complete_one (m : ARC) (h : bytes) : result ARC :=
  b ← of_option AssertionError (arc_get m h);
  _ ← py_assert (0 <? st_ref b);
  Ok (arc_put h (set_ref (st_ref b - 1) b) m).
Definition arc_complete_load (hs : list bytes) (m : ARC) : result ARC := foldM arc_complete_one m hs.

(** The oldest block of a list that can go. *)
Fixpoint first_evictable (protected : list bytes) (items : list (bytes * BlockStatus)) : option (bytes * BlockStatus) :=
  match items with
  | [] => None
  | (h, b) :: items' =>
      if (st_ref b =? 0) && negb (bool_decide (h ∈ protected)) then Some (h, b) else first_evictable protected items'
  end.

(** One turn of the eviction loop: from T1 when it has reached its target, else from T2. *)
Definition arc_evict_one (protected : list bytes) (m : ARC) : option (bytes * ARC) :=
  match (if f_int (target_t1_size m) <=? zlen (arc_t1 m) then first_evictable protected (arc_t1 m) else None) with
  | Some (h, b) =>
      Some (h, mkARC (be_free b (arc_backend m)) (target_t1_size m) (dict_del h (arc_t1 m)) (arc_t2 m)
                 (dict_set h tt (arc_b1 m)) (arc_b2 m) (arc_events m) (cache_capacity m))
  | None =>
      match first_evictable protected (arc_t2 m) with
      | Some (h, b) =>
          Some (h, mkARC (be_free b (arc_backend m)) (target_t1_size m) (arc_t1 m) (dict_del h (arc_t2 m))
                     (arc_b1 m) (dict_set h tt (arc_b2 m)) (arc_events m) (cache_capacity m))
      | None => None
      end
  end.

(** The loop, [n] turns; when a turn finds nothing the call returns [None], with the
    evictions so far done. *)
Fixpoint arc_evict (n : nat) (protected : list bytes) (m : ARC) : option (list bytes) * ARC :=
  match n with
  | O => (Some [], m)
  | S n' =>
      match arc_evict_one protected m with
      | None => (None, m)
      | Some (h, m1) =>
          let '(o, m2) := arc_evict n' protected m1 in
          (cons h <$> o, m2)
      end
  end.

(** [for i in range(len(b) - capacity): b.popitem(last=False)]. *)
Definition trim_ghost (capacity : Z) (b : list (bytes * unit)) : list (bytes * unit) :=
  drop (Z.to_nat (zlen b - capacity)) b.

(** Inserting the new blocks into T1, out of the ghost lists. *)
Definition arc_insert_one (m : ARC) (hb : bytes * BlockStatus) : ARC :=
  mkARC (arc_backend m) (target_t1_size m) (dict_set hb.1 hb.2 (arc_t1 m)) (arc_t2 m)
    (dict_del hb.1 (arc_b1 m)) (dict_del hb.1 (arc_b2 m)) (arc_events m) (cache_capacity m).

Definition arc_prepare_store (hs : list bytes) (m : ARC) : result (option PrepareStoreOutput * ARC) :=
  let to_store := filter (fun h => dict_get h (arc_t1 m) = None /\ dict_get h (arc_t2 m) = None) hs in
  match to_store with
  | [] => Ok (Some (mkOutput [] (get_load_store_spec []) []), m)
  | _ =>
      let num_evict := zlen to_store - be_num_free (arc_backend m) in
      let '(o, m1) := arc_evict (Z.to_nat num_evict) hs m in
      match o with
      | None => Ok (None, m1)
      | Some to_evict =>
          let cap := cache_capacity m1 in
          '(bs, be) ← allocate_blocks (zlen to_store) (arc_backend m1);
          _ ← py_assert (zlen bs =? zlen to_store);
          let m2 := mkARC be (target_t1_size m1) (arc_t1 m1) (arc_t2 m1) (trim_ghost cap (arc_b1 m1))
                      (trim_ghost cap (arc_b2 m1)) (add_event to_evict true (arc_backend m1) (arc_events m1)) cap in
          Ok (Some (mkOutput to_store (get_load_store_spec bs) to_evict), foldl arc_insert_one m2 (zip to_store bs))
      end
  end.

(** [complete_store]. *)
Definition arc_stored_one (s : list bytes * ARC) (h : bytes) : list bytes * ARC :=
  let '(stored, m) := s in
  match arc_get m h with
  | Some b => if negb (is_ready b) then (stored ++ [h], arc_put h (set_ref 0 b) m) else (stored, m)
  | None => (stored, m)
  end.
Definition arc_failed_one (m : ARC) (h : bytes) : ARC :=
  match arc_get m h with
  | Some b =>
      let m1 := match dict_get h (arc_t1 m) with
                | Some _ => set_t (dict_del h (arc_t1 m)) (arc_t2 m) m
                | None => set_t (arc_t1 m) (dict_del h (arc_t2 m)) m
                end in
      if negb (is_ready b)
      then mkARC (be_free b (arc_backend m1)) (target_t1_size m1) (arc_t1 m1) (arc_t2 m1) (arc_b1 m1) (arc_b2 m1)
             (arc_events m1) (cache_capacity m1)
      else m1
  | None => m
  end.
Definition arc_complete_store (hs : list bytes) (success : bool) (m : ARC) : result ARC :=
  if success then
    let '(stored, m1) := foldl arc_stored_one ([], m) hs in
    Ok (mkARC (arc_backend m1) (target_t1_size m1) (arc_t1 m1) (arc_t2 m1) (arc_b1 m1) (arc_b2 m1)
          (add_event stored false (arc_backend m1) (arc_events m1)) (cache_capacity m1))
  else Ok (foldl arc_failed_one m hs).

Definition arc_take_events (m : ARC) : list OffloadingEvent * ARC :=
  match arc_events m with
  | Some l => (l, mkARC (arc_backend m) (target_t1_size m) (arc_t1 m) (arc_t2 m) (arc_b1 m) (arc_b2 m) (Some []) (cache_capacity m))
  | None => ([], m)
  end.

#[global] Instance arc_manager : OffloadingManager ARC := {
  om_lookup := arc_lookup;
  om_prepare_load := arc_prepare_load;
  om_touch := arc_touch;
  om_complete_load := arc_complete_load;
  om_prepare_store := arc_prepare_store;
  om_complete_store := arc_complete_store;
  om_take_events := arc_take_events;
}.
End ARC.
Arguments ARC : clear implicits.

(** ** The laws *)

Section Laws.
Context {F : Type} `{PyFloat F}.
Implicit Types (m : ARC F).

(** T1 and T2 together are one dictionary of blocks, as the LRU manager has it. *)
Definition flat m : LRU := mkLRU (arc_backend m) (arc_t1 m ++ arc_t2 m) (arc_events m).
Definition ghosts m : list (bytes * unit) * list (bytes * unit) * Z := (arc_b1 m, arc_b2 m, cache_capacity m).

Record ghost_ok m : Prop := {
  gh_b1 : NoDup (arc_b1 m).*1;
  gh_b2 : NoDup (arc_b2 m).*1;
  gh_apart : forall h, h ∈ (arc_b1 m).*1 -> h ∉ (arc_b2 m).*1;
  gh_gone1 : forall h, h ∈ (arc_b1 m).*1 -> arc_get m h = None;
  gh_gone2 : forall h, h ∈ (arc_b2 m).*1 -> arc_get m h = None;
}.
Definition arc_ok m : Prop := lru_ok (flat m) /\ ghost_ok m.

Lemma arc_entry m h : lru_entry (flat m) h = arc_get m h.
Proof. unfold lru_entry, arc_get. cbn. apply dict_get_app. Qed.

Lemma dict_set_app (h : bytes) (b : BlockStatus) d1 d2 :
  is_Some (dict_get h (d1 ++ d2)) ->
  dict_set h b (d1 ++ d2) = match dict_get h d1 with Some _ => dict_set h b d1 ++ d2 | None => d1 ++ dict_set h b d2 end.
Proof.
  induction d1 as [|[k v] d1 IH]; cbn; [done|]. destruct (decide (k = h)); [done|]. intros Hs. rewrite IH by done.
  by destruct (dict_get h d1).
Qed.

Lemma flat_put m h b b0 :
  arc_get m h = Some b0 ->
  flat (arc_put h b m) = set_lru_blocks (dict_set h b (lru_blocks (flat m))) (flat m) /\ ghosts (arc_put h b m) = ghosts m.
Proof.
  intros Hg. unfold arc_put, flat, set_lru_blocks, ghosts. cbn. rewrite dict_set_app by (rewrite dict_get_app; unfold arc_get in Hg; by rewrite Hg).
  by destruct (dict_get h (arc_t1 m)).
Qed.

(** Ghosts stay apart when the set of cached hashes does not grow. *)
Lemma ghost_keep m m' :
  ghost_ok m -> ghosts m' = ghosts m -> (forall h, arc_get m h = None -> arc_get m' h = None) -> ghost_ok m'.
Proof.
  intros [G1 G2 G3 G4 G5] Hg Hn. unfold ghosts in Hg. injection Hg as E1 E2 _. split; rewrite ?E1, ?E2; eauto.
Qed.

(** The loads simulate those of the LRU manager. *)
Lemma arc_load_sim hs ids m ids' x :
  foldM lru_load_one (ids, flat m) hs = Ok (ids', x) ->
  exists m', foldM arc_load_one (ids, m) hs = Ok (ids', m') /\ flat m' = x /\ ghosts m' = ghosts m.
Proof.
  revert ids m. induction hs as [|h hs IH]; intros ids m Hl; cbn [foldM] in *.
  { injection Hl as <- <-. by exists m. }
  unfold lru_load_one at 2 in Hl. fold (lru_entry (flat m) h) in Hl. rewrite arc_entry in Hl. unfold arc_load_one at 2.
  destruct (arc_get m h) as [b|] eqn:Eg; [|done]. cbn [of_option mbind result_bind] in *.
  destruct (py_assert (is_ready b)); [|done]. cbn [mbind result_bind] in *.
  destruct (flat_put m h (set_ref (st_ref b + 1) b) b Eg) as [Hf Hg]. rewrite <- Hf in Hl.
  destruct (IH _ _ Hl) as (m' & Hm' & Hx & Hgh). exists m'. split_and!; [done|done|congruence].
Qed.

Lemma arc_complete_sim hs m x :
  foldM lru_complete_one (flat m) hs = Ok x ->
  exists m', foldM arc_complete_one m hs = Ok m' /\ flat m' = x /\ ghosts m' = ghosts m.
Proof.
  revert m. induction hs as [|h hs IH]; intros m Hl; cbn [foldM] in *.
  { injection Hl as <-. by exists m. }
  unfold lru_complete_one at 2 in Hl. fold (lru_entry (flat m) h) in Hl. rewrite arc_entry in Hl. unfold arc_complete_one at 2.
  destruct (arc_get m h) as [b|] eqn:Eg; [|done]. cbn [of_option mbind result_bind] in *.
  destruct (py_assert (0 <? st_ref b)); [|done]. cbn [mbind result_bind] in *.
  destruct (flat_put m h (set_ref (st_ref b - 1) b) b Eg) as [Hf Hg]. rewrite <- Hf in Hl.
  destruct (IH _ Hl) as (m' & Hm' & Hx & Hgh). exists m'. split_and!; [done|done|congruence].
Qed.

Lemma arc_stored_sim hs stored m stored' x :
  foldM lru_stored_one (stored, flat m) hs = Ok (stored', x) ->
  exists m', foldl arc_stored_one (stored, m) hs = (stored', m') /\ flat m' = x /\ ghosts m' = ghosts m.
Proof.
  revert stored m. induction hs as [|h hs IH]; intros stored m Hl; cbn [foldM foldl] in *.
  { injection Hl as <- <-. by exists m. }
  unfold lru_stored_one at 2 in Hl. fold (lru_entry (flat m) h) in Hl. rewrite arc_entry in Hl. unfold arc_stored_one at 2.
  destruct (arc_get m h) as [b|] eqn:Eg; [|done]. cbn [of_option mbind result_bind] in *.
  destruct (negb (is_ready b)); cbn [mbind result_bind] in Hl.
  - destruct (flat_put m h (set_ref 0 b) b Eg) as [Hf Hg]. rewrite <- Hf in Hl.
    destruct (IH _ _ Hl) as (m' & Hm' & Hx & Hgh). exists m'. split_and!; [done|done|congruence].
  - by apply IH.
Qed.

Lemma dict_del_app (h : bytes) (d1 d2 : list (bytes * BlockStatus)) :
  dict_del h (d1 ++ d2) = match dict_get h d1 with Some _ => dict_del h d1 ++ d2 | None => d1 ++ dict_del h d2 end.
Proof.
  induction d1 as [|[k v] d1 IH]; cbn; [done|]. destruct (decide (k = h)); [done|]. rewrite IH. by destruct (dict_get h d1).
Qed.

Lemma arc_failed_sim hs m x :
  (forall h, h ∈ hs -> exists b, arc_get m h = Some b /\ is_ready b = false) -> NoDup hs ->
  NoDup (lru_blocks (flat m)).*1 -> foldM lru_failed_one (flat m) hs = Ok x ->
  flat (foldl arc_failed_one m hs) = x /\ ghosts (foldl arc_failed_one m hs) = ghosts m.
Proof.
  revert m. induction hs as [|h hs IH]; intros m Hhs Hnd Hkeys Hl; cbn [foldM foldl] in *; [by injection Hl as <-|].
  apply NoDup_cons in Hnd as [Hh Hnd]. destruct (Hhs h ltac:(constructor)) as (b & Hb & Hr).
  unfold lru_failed_one at 2 in Hl. fold (lru_entry (flat m) h) in Hl. rewrite arc_entry, Hb in Hl.
  cbn [of_option mbind result_bind] in Hl. rewrite Hr in Hl. cbn [negb mbind result_bind] in Hl.
  assert (Hm1 : flat (arc_failed_one m h) = mkLRU (be_free b (lru_backend (flat m))) (dict_del h (lru_blocks (flat m))) (lru_events (flat m))
     /\ ghosts (arc_failed_one m h) = ghosts m).
  { unfold arc_failed_one. rewrite Hb, Hr. cbn [negb]. unfold flat, ghosts. cbn. rewrite dict_del_app.
    by destruct (dict_get h (arc_t1 m)). }
  destruct Hm1 as [Hm1 Hg1]. rewrite <- Hm1 in Hl. rewrite <- Hg1. apply IH; try done.
  - intros k Hk. rewrite <- arc_entry, Hm1. unfold lru_entry. cbn. rewrite dict_get_del by done.
    rewrite decide_False by (by intros ->). rewrite dict_get_app. apply Hhs. by constructor.
  - rewrite Hm1. by apply dict_del_nodup.
Qed.

(** [touch] only reorders. *)
Lemma arc_touch_one_ok m h :
  arc_ok m -> arc_ok (arc_touch_one m h) /\ (forall k, arc_get (arc_touch_one m h) k = arc_get m k).
Proof.
  intros [Hok Hgh]. pose proof (so_keys _ _ Hok) as Hnd. cbn in Hnd.
  assert (Hperm : forall t1 t2, t1 ++ t2 ≡ₚ arc_t1 m ++ arc_t2 m ->
     arc_ok (set_t t1 t2 m) /\ forall k, arc_get (set_t t1 t2 m) k = arc_get m k).
  { intros t1 t2 Hp. assert (Hsame : forall k, arc_get (set_t t1 t2 m) k = arc_get m k).
    { intros k. rewrite <- !arc_entry. symmetry. apply dict_get_perm; [done|by symmetry]. }
    split; [split|done]; [by eapply store_ok_perm; [symmetry|]|]. eapply ghost_keep; [exact Hgh|done|]. intros k. by rewrite Hsame. }
  assert (Hghost : forall tg b1 b2, b1 ≡ₚ arc_b1 m -> b2 ≡ₚ arc_b2 m ->
     arc_ok (set_ghosts tg b1 b2 m) /\ forall k, arc_get (set_ghosts tg b1 b2 m) k = arc_get m k).
  { intros tg b1 b2 P1 P2. split; [split; [done|]|done]. destruct Hgh as [G1 G2 G3 G4 G5]. split; cbn.
    - by rewrite P1.
    - by rewrite P2.
    - intros k. rewrite P1, P2. apply G3.
    - intros k Hk. rewrite P1 in Hk. exact (G4 k Hk).
    - intros k Hk. rewrite P2 in Hk. exact (G5 k Hk). }
  unfold arc_touch_one. destruct (dict_get h (arc_t1 m)) as [b|] eqn:E1.
  { destruct (negb (is_ready b)); apply Hperm.
    - rewrite (dict_del_perm h b _ E1) at 2. rewrite (Permutation_app_comm _ [(h, b)]). done.
    - assert (E2 : dict_get h (arc_t2 m) = None).
      { apply dict_get_None. intros Hin. rewrite fmap_app in Hnd. apply NoDup_app in Hnd as (_ & Hd & _). apply (Hd h); [|done].
        destruct (decide (h ∈ (arc_t1 m).*1)); [done|]. by rewrite (proj2 (dict_get_None _ _)) in E1. }
      assert (Hs : dict_set h b (arc_t2 m) = arc_t2 m ++ [(h, b)]).
      { change (dict_set h b (arc_t2 m)) with (insert_all [(h, b)] (arc_t2 m)). apply insert_all_new. rewrite fmap_app.
        apply NoDup_app. split_and!; [by rewrite fmap_app in Hnd; apply NoDup_app in Hnd as (_ & _ & ?)| |apply NoDup_singleton].
        intros k Hk ->%list_elem_of_singleton. by apply dict_get_None in E2. }
      rewrite Hs, app_assoc, Permutation_app_comm. rewrite (dict_del_perm h b _ E1) at 2. done. }
  assert (N2 : NoDup (arc_t2 m).*1) by (rewrite fmap_app in Hnd; by apply NoDup_app in Hnd as (_ & _ & ?)).
  destruct (dict_get h (arc_t2 m)); [apply Hperm; by rewrite move_to_end_perm|].
  destruct (dict_get h (arc_b1 m)), (dict_get h (arc_b2 m)); try (apply Hghost; try done; apply move_to_end_perm, Hgh); by split.
Qed.

Lemma arc_touch_ok hs m : arc_ok m -> arc_ok (arc_touch hs m) /\ forall k, arc_get (arc_touch hs m) k = arc_get m k.
Proof.
  unfold arc_touch. generalize (rev hs) as xs. clear hs. intros xs. revert m. induction xs as [|x xs IH]; intros m Hok; cbn; [done|].
  destruct (arc_touch_one_ok m x Hok) as [Hok1 He1]. destruct (IH _ Hok1) as [Hok2 He2]. split; [done|]. intros k. by rewrite He2, He1.
Qed.

(** ** Eviction and storing *)

Lemma first_evictable_spec protected d h b :
  first_evictable protected d = Some (h, b) -> (h, b) ∈ d /\ st_ref b = 0 /\ h ∉ protected.
Proof.
  induction d as [|[k v] d IH]; cbn [first_evictable]; [done|]. destruct (Z.eqb_spec (st_ref v) 0) as [Hr|]; cbn [andb].
  - case_bool_decide as Hp; cbn [negb]; [intros Hf; destruct (IH Hf) as (? & ?); split; [by constructor|done]|].
    intros [= -> ->]. split; [constructor|done].
  - intros Hf. destruct (IH Hf) as (? & ?). split; [by constructor|done].
Qed.

Lemma ghost_evict m m1 h b1' b2' :
  ghost_ok m -> arc_b1 m1 = b1' -> arc_b2 m1 = b2' ->
  (b1' = dict_set h tt (arc_b1 m) /\ b2' = arc_b2 m \/ b1' = arc_b1 m /\ b2' = dict_set h tt (arc_b2 m)) ->
  is_Some (arc_get m h) -> (forall k, arc_get m1 k = if decide (h = k) then None else arc_get m k) -> ghost_ok m1.
Proof.
  intros [G1 G2 G3 G4 G5] E1 E2 Hb [b Hh] Hget.
  assert (H1 : h ∉ (arc_b1 m).*1) by (intros Hin; rewrite (G4 h Hin) in Hh; done).
  assert (H2 : h ∉ (arc_b2 m).*1) by (intros Hin; rewrite (G5 h Hin) in Hh; done).
  assert (Hk : forall (g : list (bytes * unit)) k, h ∉ g.*1 -> k ∈ (dict_set h tt g).*1 -> k = h \/ k ∈ g.*1).
  { intros g k Hg. rewrite dict_set_keys, decide_False by done. rewrite elem_of_app, list_elem_of_singleton. tauto. }
  split; rewrite ?E1, ?E2; destruct Hb as [[-> ->]|[-> ->]]; try done; try (by apply dict_set_nodup).
  - intros k [->|Hin]%Hk; [done|by apply G3|done].
  - intros k Hin [->|Hin']%Hk; [done|by apply (G3 k)|done].
  - intros k Hin. rewrite Hget. case_decide as Hne; [done|]. apply Hk in Hin as [->|Hin]; [done|by apply G4|done].
  - intros k Hin. rewrite Hget. case_decide; [done|by apply G4].
  - intros k Hin. rewrite Hget. case_decide; [done|by apply G5].
  - intros k Hin. rewrite Hget. case_decide as Hne; [done|]. apply Hk in Hin as [->|Hin]; [done|by apply G5|done].
Qed.

(** One eviction takes an evictable block and remembers its hash. *)
Lemma arc_evict_one_spec protected m h m1 :
  arc_ok m -> arc_evict_one protected m = Some (h, m1) ->
  arc_ok m1 /\ evictable (arc_get m) protected h /\ cache_capacity m1 = cache_capacity m /\
  be_num_free (arc_backend m1) = be_num_free (arc_backend m) + 1 /\
  forall k, arc_get m1 k = if decide (h = k) then None else arc_get m k.
Proof.
  intros [Hok Hgh] Hev. pose proof (so_keys _ _ Hok) as Hnd. cbn in Hnd.
  assert (Hcommon : forall b d1 d2 bs1 bs2, arc_get m h = Some b -> st_ref b = 0 -> h ∉ protected ->
     d1 ++ d2 = dict_del h (arc_t1 m ++ arc_t2 m) ->
     (bs1 = dict_set h tt (arc_b1 m) /\ bs2 = arc_b2 m \/ bs1 = arc_b1 m /\ bs2 = dict_set h tt (arc_b2 m)) ->
     m1 = mkARC (be_free b (arc_backend m)) (target_t1_size m) d1 d2 bs1 bs2 (arc_events m) (cache_capacity m) ->
     arc_ok m1 /\ evictable (arc_get m) protected h /\ cache_capacity m1 = cache_capacity m /\
     be_num_free (arc_backend m1) = be_num_free (arc_backend m) + 1 /\
     forall k, arc_get m1 k = if decide (h = k) then None else arc_get m k).
  { intros b d1 d2 bs1 bs2 Hg Hr Hp Hd Hbs ->. rewrite <- arc_entry in Hg.
    assert (Hget : forall k, arc_get (mkARC (be_free b (arc_backend m)) (target_t1_size m) d1 d2 bs1 bs2 (arc_events m) (cache_capacity m)) k =
       if decide (h = k) then None else arc_get m k).
    { intros k. rewrite <- !arc_entry. unfold lru_entry. cbn. rewrite Hd. by apply dict_get_del. }
    split_and!; [split| |done| |done].
    - unfold lru_ok. cbn. rewrite Hd. by apply (store_evict _ _ _ h b Hok), dict_del_perm.
    - eapply (ghost_evict m _ h); [done..|by rewrite <- arc_entry, Hg|exact Hget].
    - exists b. by rewrite <- arc_entry.
    - unfold be_num_free, zlen. cbn. rewrite length_app. cbn. lia. }
  unfold arc_evict_one in Hev.
  destruct (if f_int (target_t1_size m) <=? zlen (arc_t1 m) then first_evictable protected (arc_t1 m) else None) as [[k b]|] eqn:E1.
  - destruct (f_int (target_t1_size m) <=? zlen (arc_t1 m)); [|done]. injection Hev as -> Hm1.
    destruct (first_evictable_spec _ _ _ _ E1) as (Hin & Hr & Hp).
    assert (Hg1 : dict_get h (arc_t1 m) = Some b).
    { apply dict_get_elem; [by rewrite fmap_app in Hnd; apply NoDup_app in Hnd as (? & _)|done]. }
    eapply (Hcommon b); [unfold arc_get; by rewrite Hg1|done|done| |by left|by rewrite <- Hm1]. by rewrite dict_del_app, Hg1.
  - clear E1. destruct (first_evictable protected (arc_t2 m)) as [[k b]|] eqn:E2; [|done]. injection Hev as -> Hm1.
    destruct (first_evictable_spec _ _ _ _ E2) as (Hin & Hr & Hp).
    assert (Hk2 : h ∈ (arc_t2 m).*1) by (by apply (list_elem_of_fmap_2 fst) in Hin).
    rewrite fmap_app in Hnd. pose proof Hnd as (_ & Hd & N2)%NoDup_app.
    assert (Hg1 : dict_get h (arc_t1 m) = None) by (apply dict_get_None; intros Hin1; by apply (Hd h)).
    assert (Hg2 : dict_get h (arc_t2 m) = Some b) by (by apply dict_get_elem).
    eapply (Hcommon b); [unfold arc_get; by rewrite Hg1|done|done| |by right|by rewrite <- Hm1]. by rewrite dict_del_app, Hg1.
Qed.

Lemma arc_evict_spec n protected m :
  arc_ok m ->
  exists evs o m', arc_evict n protected m = (o, m') /\ arc_ok m' /\ NoDup evs /\ cache_capacity m' = cache_capacity m /\
    (forall h, h ∈ evs -> evictable (arc_get m) protected h) /\
    be_num_free (arc_backend m') = be_num_free (arc_backend m) + zlen evs /\
    (forall h, arc_get m' h = if decide (h ∈ evs) then None else arc_get m h) /\
    match o with None => True | Some l => l = evs /\ length evs = n end.
Proof.
  revert m. induction n as [|n IH]; intros m Hok; cbn [arc_evict].
  { exists [], (Some []), m. split_and!; try done; [constructor|by intros h ?%elem_of_nil|unfold zlen; cbn; lia]. }
  destruct (arc_evict_one protected m) as [[h m1]|] eqn:E1.
  2: { exists [], None, m. split_and!; try done; [constructor|by intros h ?%elem_of_nil|unfold zlen; cbn; lia]. }
  destruct (arc_evict_one_spec _ _ _ _ Hok E1) as (Hok1 & Hev1 & Hcap1 & Hfree1 & Hget1).
  destruct (IH m1 Hok1) as (evs & o & m' & -> & Hok' & Hnd & Hcap & Hev & Hfree & Hget & Ho).
  assert (Hh : h ∉ evs).
  { intros Hin. destruct (Hev h Hin) as (b & Hb & _). rewrite Hget1, decide_True in Hb by done. done. }
  exists (h :: evs), (cons h <$> o), m'. split_and!; try done.
  - by constructor.
  - congruence.
  - intros k [->|Hk]%elem_of_cons; [done|]. destruct (Hev k Hk) as (b & Hb & Hr & Hp). rewrite Hget1 in Hb.
    case_decide; [done|]. by exists b.
  - rewrite Hfree, Hfree1. unfold zlen. cbn [length]. lia.
  - intros k. rewrite Hget, Hget1. destruct (decide (k ∈ evs)) as [Hk|Hk]; [by rewrite decide_True by (by constructor)|].
    destruct (decide (h = k)) as [->|Hne]; [by rewrite decide_True by constructor|].
    rewrite decide_False; [done|]. rewrite elem_of_cons. by intros [->|].
  - destruct o as [l|]; cbn; [|done]. destruct Ho as [-> <-]. done.
Qed.

(** Inserting the new blocks. *)
Lemma arc_insert_spec hbs m :
  NoDup (arc_t1 m ++ hbs).*1 ->
  let m' := foldl arc_insert_one m hbs in
  arc_t1 m' = arc_t1 m ++ hbs /\ arc_t2 m' = arc_t2 m /\ arc_backend m' = arc_backend m /\ cache_capacity m' = cache_capacity m /\
  (NoDup (arc_b1 m).*1 -> NoDup (arc_b1 m').*1 /\ forall k, k ∈ (arc_b1 m').*1 -> k ∈ (arc_b1 m).*1 /\ k ∉ hbs.*1) /\
  (NoDup (arc_b2 m).*1 -> NoDup (arc_b2 m').*1 /\ forall k, k ∈ (arc_b2 m').*1 -> k ∈ (arc_b2 m).*1 /\ k ∉ hbs.*1).
Proof.
  assert (Hdel : forall (g : list (bytes * unit)) h k, NoDup g.*1 -> k ∈ (dict_del h g).*1 -> k ∈ g.*1 /\ k <> h).
  { intros g h k Hg Hk. assert (Hn : dict_get k (dict_del h g) <> None) by (rewrite dict_get_None; tauto).
    rewrite dict_get_del in Hn by done. case_decide as Hne; [done|]. rewrite dict_get_None in Hn. split; [|congruence].
    by destruct (decide (k ∈ g.*1)). }
  revert m. induction hbs as [|[h b] hbs IH]; intros m Hnd; cbn [foldl].
  { rewrite app_nil_r. split_and!; try done; intros Hg; (split; [done|]); intros k Hk; (split; [done|]); apply not_elem_of_nil. }
  assert (Hs : dict_set h b (arc_t1 m) = arc_t1 m ++ [(h, b)]).
  { change (dict_set h b (arc_t1 m)) with (insert_all [(h, b)] (arc_t1 m)). apply insert_all_new.
    rewrite cons_middle, app_assoc, fmap_app in Hnd. by apply NoDup_app in Hnd as [? _]. }
  destruct (IH (arc_insert_one m (h, b))) as (E1 & E2 & E3 & E4 & G1 & G2).
  { cbn. by rewrite Hs, <- app_assoc. }
  cbn in E1, E2, E3, E4, G1, G2. rewrite Hs, <- app_assoc in E1. split_and!; try done.
  - intros Hg. destruct (G1 (dict_del_nodup h _ Hg)) as [N1 K1]. split; [done|]. intros k [Hk Hn]%K1.
    destruct (Hdel _ _ _ Hg Hk). split; [done|]. cbn. rewrite elem_of_cons. tauto.
  - intros Hg. destruct (G2 (dict_del_nodup h _ Hg)) as [N2 K2]. split; [done|]. intros k [Hk Hn]%K2.
    destruct (Hdel _ _ _ Hg Hk). split; [done|]. cbn. rewrite elem_of_cons. tauto.
Qed.

Lemma trim_ghost_sub cap g : trim_ghost cap g `sublist_of` g.
Proof. apply sublist_drop. Qed.
Lemma trim_ghost_length cap g : 0 <= cap -> zlen (trim_ghost cap g) <= cap.
Proof. intros Hc. unfold trim_ghost, zlen. rewrite length_drop. lia. Qed.

(** The insertion into T1, after the evictions. *)
Lemma arc_store_commit m hs evts :
  arc_ok m -> NoDup hs -> (forall h, h ∈ hs -> arc_get m h = None) -> zlen hs <= be_num_free (arc_backend m) -> 0 <= cache_capacity m ->
  exists bs be, allocate_blocks (zlen hs) (arc_backend m) = Ok (bs, be) /\ zlen bs = zlen hs /\
    let cap := cache_capacity m in
    let m2 := mkARC be (target_t1_size m) (arc_t1 m) (arc_t2 m) (trim_ghost cap (arc_b1 m)) (trim_ghost cap (arc_b2 m)) evts cap in
    let m' := foldl arc_insert_one m2 (zip hs bs) in
    arc_ok m' /\ (forall h, h ∉ hs -> arc_get m' h = arc_get m h) /\
    (forall i h id, hs !! i = Some h -> get_load_store_spec bs !! i = Some id -> arc_get m' h = Some (new_status id)).
Proof.
  intros [Hok Hgh] Hnd Hnew Hroom Hcap.
  assert (Hnew' : forall h, h ∈ hs -> dict_get h (lru_blocks (flat m)) = None).
  { intros h Hh. fold (lru_entry (flat m) h). rewrite arc_entry. by apply Hnew. }
  destruct (store_alloc _ _ hs Hok Hnd Hnew' Hroom) as (bs & be & Hal & Hlen & Hok' & Hst & _).
  exists bs, be. split; [done|]. split; [unfold zlen; lia|]. intros cap m2 m'.
  assert (Hkeys : NoDup (arc_t1 m2 ++ zip hs bs).*1).
  { pose proof (so_keys _ _ Hok') as Hk. cbn in Hk. rewrite !fmap_app in Hk. rewrite fmap_app. cbn.
    apply NoDup_app in Hk as (N12 & Hd & N3). apply NoDup_app in N12 as (N1 & _ & _). apply NoDup_app. split_and!; [done| |done].
    intros k Hk. apply Hd. rewrite elem_of_app. by left. }
  destruct (arc_insert_spec (zip hs bs) m2 Hkeys) as (E1 & E2 & E3 & _ & G1 & G2). fold m' in E1, E2, E3, G1, G2. cbn in E1, E2, E3, G1, G2.
  assert (Hperm : arc_t1 m' ++ arc_t2 m' ≡ₚ (arc_t1 m ++ arc_t2 m) ++ zip hs bs).
  { rewrite E1, E2, <- !app_assoc. apply Permutation_app_head, Permutation_app_comm. }
  assert (Hokf : lru_ok (flat m')) by (unfold lru_ok; cbn; rewrite E3; by eapply store_ok_perm; [symmetry|]).
  assert (Hget : forall h, arc_get m' h = match arc_get m h with Some b => Some b | None => dict_get h (zip hs bs) end).
  { intros h. pose proof (dict_get_perm h _ _ (so_keys _ _ Hokf) Hperm) as Hp. rewrite dict_get_app in Hp.
    rewrite <- !arc_entry. exact Hp. }
  assert (Hz : forall h, h ∉ hs -> dict_get h (zip hs bs) = None) by (intros h Hh; apply dict_get_None; by rewrite zip_fst).
  assert (Hsub : forall g k, k ∈ (trim_ghost cap g).*1 -> k ∈ g.*1).
  { intros g k Hk. eapply sublist_subseteq; [|exact Hk]. apply fmap_sublist, trim_ghost_sub. }
  split_and!.
  - split; [done|]. destruct Hgh as [B1 B2 B3 B4 B5].
    assert (T1 : NoDup (trim_ghost cap (arc_b1 m)).*1) by (eapply sublist_NoDup; [exact B1|apply fmap_sublist, trim_ghost_sub]).
    assert (T2 : NoDup (trim_ghost cap (arc_b2 m)).*1) by (eapply sublist_NoDup; [exact B2|apply fmap_sublist, trim_ghost_sub]).
    destruct (G1 T1) as [N1 K1]. destruct (G2 T2) as [N2 K2]. rewrite zip_fst in K1, K2 by done. split; try done.
    + intros k [Hk1 _]%K1 [Hk2 _]%K2. apply Hsub in Hk1, Hk2. by apply (B3 k).
    + intros k [Hk1 Hn]%K1. apply Hsub in Hk1. rewrite Hget, (B4 k Hk1). by apply Hz.
    + intros k [Hk2 Hn]%K2. apply Hsub in Hk2. rewrite Hget, (B5 k Hk2). by apply Hz.
  - intros h Hh. rewrite Hget, Hz by done. by destruct (arc_get m h).
  - intros i h id Hi Hid. apply list_lookup_fmap_Some in Hid as (b & -> & Hb).
    rewrite Hget, Hnew by (by eapply list_elem_of_lookup_2). rewrite (dict_get_zip hs bs i h b Hnd Hi Hb Hlen).
    f_equal. apply Hst. by eapply list_elem_of_lookup_2.
Qed.

(** Well-formed managers: the invariant and the capacity, which is fixed. *)
Definition arc_wf m : Prop := arc_ok m /\ 0 <= cache_capacity m.

Lemma arc_missing m h : (dict_get h (arc_t1 m) = None /\ dict_get h (arc_t2 m) = None) <-> arc_get m h = None.
Proof. unfold arc_get. destruct (dict_get h (arc_t1 m)); [split; [by intros [? ?]|done]|tauto]. Qed.

Lemma arc_prepare_store_spec m hs :
  arc_wf m -> NoDup hs ->
  exists o m', arc_prepare_store hs m = Ok (o, m') /\ arc_wf m' /\
    match o with
    | None => forall h, arc_get m' h = arc_get m h \/ arc_get m' h = None /\ evictable (arc_get m) hs h
    | Some out =>
        block_hashes_to_store out = filter (fun h => arc_get m h = None) hs /\
        length (store_spec out) = length (block_hashes_to_store out) /\ NoDup (block_hashes_evicted out) /\
        (forall h, h ∈ block_hashes_evicted out -> evictable (arc_get m) hs h /\ arc_get m' h = None) /\
        (forall h, h ∉ block_hashes_evicted out -> h ∉ block_hashes_to_store out -> arc_get m' h = arc_get m h) /\
        (forall i h id, block_hashes_to_store out !! i = Some h -> store_spec out !! i = Some id -> arc_get m' h = Some (new_status id))
    end.
Proof.
  intros [Hok Hcap] Hnd. unfold arc_prepare_store.
  assert (Hts : filter (fun h => dict_get h (arc_t1 m) = None /\ dict_get h (arc_t2 m) = None) hs = filter (fun h => arc_get m h = None) hs)
    by (apply list_filter_iff; intros h; apply arc_missing).
  rewrite Hts. set (ts := filter (fun h => arc_get m h = None) hs).
  assert (Hempty : ts = [] \/ exists x xs, ts = x :: xs) by (destruct ts; eauto). destruct Hempty as [E|(x & xs & E)].
  { rewrite E. eexists (Some _), m. split_and!; try done; [constructor|by intros h ?%elem_of_nil]. }
  rewrite E. rewrite <- E. clear E x xs.
  destruct (arc_evict_spec (Z.to_nat (zlen ts - be_num_free (arc_backend m))) hs m Hok)
    as (evs & o & m1 & -> & Hok1 & Hnde & Hcap1 & Hev & Hfree & Hget1 & Ho). cbv zeta.
  destruct o as [l|].
  2: { exists None, m1. split_and!; try done; [split; [done|]; by rewrite Hcap1|]. intros h. rewrite Hget1. case_decide; [right|by left].
       split; [done|by apply Hev]. }
  destruct Ho as [-> Hlen]. destruct (arc_store_commit m1 ts (add_event evs true (arc_backend m1) (arc_events m1)) Hok1)
    as (bs & be & Hal & Hbl & Hok2 & Hkeep & Hnew).
  - by apply NoDup_filter.
  - intros h [Hh _]%list_elem_of_filter. rewrite Hget1. by case_decide.
  - unfold zlen in *. lia.
  - by rewrite Hcap1.
  - rewrite Hal. cbn [mbind result_bind]. rewrite (proj2 (Z.eqb_eq _ _) Hbl). cbn [py_assert mbind result_bind].
    eexists (Some _), _. split; [done|]. cbn [block_hashes_to_store store_spec block_hashes_evicted]. split_and!; try done.
    + assert (Hc : forall hbs (mm : ARC F), cache_capacity (foldl arc_insert_one mm hbs) = cache_capacity mm)
        by (intros hbs; induction hbs as [|hb hbs IH]; intros mm; cbn; [done|by rewrite IH]).
      split; [exact Hok2|]. rewrite Hc. cbn. by rewrite Hcap1.
    + unfold get_load_store_spec. rewrite length_fmap. unfold zlen in Hbl. lia.
    + intros h Hh. split; [by apply Hev|]. rewrite Hkeep; [by rewrite Hget1, decide_True|].
      intros [Hn _]%list_elem_of_filter. destruct (Hev h Hh) as (b & Hb & _). congruence.
    + intros h Hh Hh'. rewrite Hkeep by done. by rewrite Hget1, decide_False.
Qed.

(** [ARCOffloadingManager] implements the contract. *)
#[global] Instance arc_laws : OffloadingLaws (ARC F).
Proof.
  refine {| om_ok := arc_wf; om_entry := arc_get; om_accepts := fun _ _ => true |}.
  - intros m h b [[Hok _] _] Hg. rewrite <- arc_entry in Hg. by eapply entry_ref.
  - intros m h1 h2 b1 b2 [[Hok _] _] H1 H2. rewrite <- arc_entry in H1, H2. by apply (store_distinct (arc_backend m) (lru_blocks (flat m))).
  - intros m hs Hok. by exists m.
  - intros m hs [[Hok Hgh] Hcap] Hhs. destruct (lru_load_loop hs [] (flat m) Hok) as (ids & x & Hl & Hokx & HF & He).
    { intros h Hh. rewrite arc_entry. by apply Hhs. }
    destruct (arc_load_sim hs [] m _ _ Hl) as (m' & Hm' & <- & Hgs). exists ids, m'.
    assert (He' : forall h, arc_get m' h = bump (occurrences h hs) <$> arc_get m h) by (intros h; rewrite <- !arc_entry; apply He).
    split_and!; try done.
    + split; [split; [done|]|].
      * eapply ghost_keep; [exact Hgh|done|]. intros h Hh. by rewrite He', Hh.
      * unfold ghosts in Hgs. by injection Hgs as _ _ ->.
    + eapply Forall2_impl; [exact HF|]. intros h id Hh. by rewrite <- arc_entry.
  - intros m hs [Hok Hcap]. destruct (arc_touch_ok hs m Hok) as [Hok' He]. split; [|done]. split; [done|].
    assert (Hc : forall xs (mm : ARC F), cache_capacity (foldl arc_touch_one mm xs) = cache_capacity mm).
    { intros xs. induction xs as [|x xs IH]; intros mm; cbn; [done|]. rewrite IH. unfold arc_touch_one. repeat case_match; done. }
    cbn. unfold arc_touch. by rewrite Hc.
  - intros m hs [[Hok Hgh] Hcap] Hhs. destruct (lru_complete_loop hs (flat m) Hok) as (x & Hl & Hokx & He).
    { intros h Hh. rewrite arc_entry. by apply Hhs. }
    destruct (arc_complete_sim hs m _ Hl) as (m' & Hm' & <- & Hgs). exists m'.
    assert (He' : forall h, arc_get m' h = bump (- occurrences h hs) <$> arc_get m h) by (intros h; rewrite <- !arc_entry; apply He).
    split_and!; try done. split; [split; [done|]|].
    + eapply ghost_keep; [exact Hgh|done|]. intros h Hh. by rewrite He', Hh.
    + unfold ghosts in Hgs. by injection Hgs as _ _ ->.
  - intros m hs Hok Hnd acc. subst acc. rewrite accepted_all. by apply arc_prepare_store_spec.
  - intros m hs [[Hok Hgh] Hcap] Hnd Hhs. destruct (lru_stored_loop hs [] (flat m) Hok Hnd) as (st & x & Hl & Hokx & He).
    { intros h Hh. rewrite arc_entry. by apply Hhs. }
    destruct (arc_stored_sim hs [] m _ _ Hl) as (m' & Hm' & <- & Hgs). cbn. unfold arc_complete_store. rewrite Hm'.
    eexists. split; [done|].
    assert (He' : forall h, arc_get m' h = if decide (h ∈ hs) then stored_status <$> arc_get m h else arc_get m h)
      by (intros h; rewrite <- !arc_entry; apply He).
    split; [split; [split; [done|]|]|].
    + eapply ghost_keep; [exact Hgh|exact Hgs|]. intros h Hh. transitivity (arc_get m' h); [done|]. rewrite He', Hh. by case_decide.
    + unfold ghosts in Hgs. injection Hgs as _ _ Hc. cbn. by rewrite Hc.
    + intros h. etransitivity; [exact (He' h)|]. destruct (arc_get m h) as [b|]; cbn; [rewrite stored_status_decide|]; by case_decide.
  - intros m hs [[Hok Hgh] Hcap] Hnd Hhs. destruct (lru_failed_loop hs (flat m) Hok Hnd) as (x & Hl & Hokx & He).
    { intros h Hh. rewrite arc_entry. by apply Hhs. }
    destruct (arc_failed_sim hs m x Hhs Hnd (so_keys _ _ Hok) Hl) as [<- Hgs]. set (m' := foldl arc_failed_one m hs) in *.
    exists m'. split; [done|].
    assert (He' : forall h, arc_get m' h = if decide (h ∈ hs) then None else arc_get m h) by (intros h; rewrite <- !arc_entry; apply He).
    split; [split; [split; [done|]|]|done].
    + eapply ghost_keep; [exact Hgh|exact Hgs|]. intros h Hh. rewrite He', Hh. by case_decide.
    + unfold ghosts in Hgs. by injection Hgs as _ _ ->.
  - intros m [[Hok Hgh] Hcap]. cbn. unfold arc_take_events. destruct (arc_events m); [|done].
    split; [|done]. split; [split; [done|]|done]. by eapply ghost_keep.
Defined.
End Laws.
