(* ===== verification/OffloadReuse.v ===== *)
(** * Offloading only the blocks seen often enough

    vllm/v1/kv_offload/reuse_manager.py: [FilterReusedOffloadingManager], a decorator
    over any offloading manager.  It implements the contract whenever the manager it
    wraps does; its tracker holds the hashes looked up last. *)
From S2P Require Import Prelude Offload.

Section Reuse.
Context {M : Type} `{OffloadingManager M}.

Record Reuse : Type := mkReuse {
  backing : M;
  store_threshold : Z;
  max_tracker_size : Z;
  counts : list (bytes * Z);
}.

(** [__init__]. *)
Definition reuse_init (b : M) (threshold max_size : Z) : result Reuse :=
  if threshold <? 2 then Err ValueError
  else if max_size <? 1 then Err ValueError
  else Ok (mkReuse b threshold max_size []).

(** One hash of [lookup].  The table is not empty when it is full. *)
Definition count_one (max_size : Z) (d : list (bytes * Z)) (h : bytes) : list (bytes * Z) :=
  match dict_get h d with
  | Some c => dict_set h (c + 1) (move_to_end h d)
  | None => dict_set h 1 (if max_size <=? zlen d then drop 1 d else d)
  end.

Definition set_backing (b : M) (m : Reuse) : Reuse := mkReuse b (store_threshold m) (max_tracker_size m) (counts m).

Definition reuse_lookup (hs : list bytes) (m : Reuse) : option Z * Reuse :=
  let d := foldl (count_one (max_tracker_size m)) (counts m) hs in
  let '(n, b) := om_lookup hs (backing m) in
  (n, mkReuse b (store_threshold m) (max_tracker_size m) d).

Definition eligible (m : Reuse) (h : bytes) : bool := store_threshold m <=? default 0 (dict_get h (counts m)).
Definition reuse_prepare_store (hs : list bytes) (m : Reuse) : result (option PrepareStoreOutput * Reuse) :=
  '(o, b) ← om_prepare_store (filter (fun h => eligible m h = true) hs) (backing m);
  Ok (o, set_backing b m).

#[global] Instance reuse_manager : OffloadingManager Reuse := {
  om_lookup := reuse_lookup;
  om_prepare_load hs m := '(ids, b) ← om_prepare_load hs (backing m); Ok (ids, set_backing b m);
  om_touch hs m := set_backing (om_touch hs (backing m)) m;
  om_complete_load hs m := b ← om_complete_load hs (backing m); Ok (set_backing b m);
  om_prepare_store := reuse_prepare_store;
  om_complete_store hs success m := b ← om_complete_store hs success (backing m); Ok (set_backing b m);
  om_take_events m := let '(evs, b) := om_take_events (backing m) in (evs, set_backing b m);
}.
End Reuse.
Arguments Reuse : clear implicits.

(** ** The tracker *)

(** The distinct hashes of a sequence of visits, the one visited last at the end. *)
Definition by_last_visit (visits : list bytes) : list bytes :=
  foldl (fun acc h => filter (fun k => k <> h) acc ++ [h]) [] visits.

Record tracker_ok (max_size : Z) (visits : list bytes) (d : list (bytes * Z)) : Prop := {
  tr_keys : d.*1 = drop (Z.to_nat (zlen (by_last_visit visits) - max_size)) (by_last_visit visits);
  tr_low : forall h c, dict_get h d = Some c -> 1 <= c <= occurrences h visits;
  tr_exact : zlen (by_last_visit visits) <= max_size ->
    forall h, default 0 (dict_get h d) = occurrences h visits;
}.

Lemma by_last_visit_snoc visits h :
  by_last_visit (visits ++ [h]) = filter (fun k => k <> h) (by_last_visit visits) ++ [h].
Proof. unfold by_last_visit. by rewrite foldl_app. Qed.

Lemma by_last_visit_elem visits h : h ∈ by_last_visit visits <-> h ∈ visits.
Proof.
  induction visits as [|x visits IH] using rev_ind; [done|].
  rewrite by_last_visit_snoc, !elem_of_app, list_elem_of_filter, IH, list_elem_of_singleton. destruct (decide (h = x)); tauto.
Qed.

Lemma by_last_visit_nodup visits : NoDup (by_last_visit visits).
Proof.
  induction visits as [|x visits IH] using rev_ind; [constructor|]. rewrite by_last_visit_snoc. apply NoDup_app.
  split_and!; [by apply NoDup_filter| |apply NoDup_singleton]. intros h [Hh _]%list_elem_of_filter ->%list_elem_of_singleton. done.
Qed.

Lemma occurrences_snoc h visits x : occurrences h (visits ++ [x]) = occurrences h visits + (if decide (x = h) then 1 else 0).
Proof. unfold occurrences, zlen. rewrite filter_app, length_app, filter_cons. destruct (decide (x = h)); cbn; lia. Qed.

Lemma occurrences_zero h visits : h ∉ visits -> occurrences h visits = 0.
Proof.
  intros Hh. unfold occurrences. induction visits as [|x visits IH]; [done|]. rewrite elem_of_cons in Hh.
  rewrite filter_cons_False by (intros ->; tauto). apply IH. tauto.
Qed.

Lemma filter_ne_absent (h : bytes) (l : list bytes) : h ∉ l -> filter (fun k => k <> h) l = l.
Proof.
  induction l as [|x l IH]; [done|]. rewrite elem_of_cons. intros Hh.
  rewrite filter_cons_True by (intros ->; tauto). by rewrite IH by tauto.
Qed.

Lemma length_filter_ne (h : bytes) (l : list bytes) : NoDup l -> h ∈ l -> S (length (filter (fun k => k <> h) l)) = length l.
Proof.
  intros Hnd Hh. induction l as [|x l IH]; [by apply elem_of_nil in Hh|]. apply NoDup_cons in Hnd as [Hx Hnd].
  destruct (decide (x = h)) as [->|Hne].
  - rewrite filter_cons_False by tauto. by rewrite filter_ne_absent.
  - rewrite filter_cons_True by done. cbn. f_equal. apply IH; [done|]. by apply elem_of_cons in Hh as [->|].
Qed.

Lemma dict_del_keys {V} (h : bytes) (d : list (bytes * V)) : NoDup d.*1 -> (dict_del h d).*1 = filter (fun k => k <> h) d.*1.
Proof.
  induction d as [|[k v] d IH]; [done|]. cbn [dict_del fmap list_fmap fst]. intros [Hk Hnd]%NoDup_cons. rewrite filter_cons.
  destruct (decide (k = h)) as [->|Hne].
  - rewrite decide_False by tauto. by rewrite filter_ne_absent.
  - rewrite decide_True by done. cbn. by rewrite IH.
Qed.

(** The last [max_size] of a list after a visit. *)
Lemma drop_visit (max_size : Z) (l : list bytes) (h : bytes) :
  NoDup l -> 1 <= max_size ->
  let recent := drop (Z.to_nat (zlen l - max_size)) l in
  let l' := filter (fun k => k <> h) l ++ [h] in
  drop (Z.to_nat (zlen l' - max_size)) l' =
    if decide (h ∈ recent) then filter (fun k => k <> h) recent ++ [h]
    else (if max_size <=? zlen recent then drop 1 recent else recent) ++ [h].
Proof.
  intros Hnd Hmax recent l'. set (k := Z.to_nat (zlen l - max_size)) in *. set (old := take k l).
  assert (Hl : l = old ++ recent) by (symmetry; apply take_drop).
  assert (Hkd : k = Z.to_nat (zlen l - max_size)) by done.
  assert (Hk : length old = k) by (subst old; rewrite length_take; unfold zlen in *; lia).
  assert (Hr : length recent = (length l - k)%nat) by (apply length_drop).
  rewrite Hl in Hnd. apply NoDup_app in Hnd as (Ho & Hd & Hn).
  assert (Hl' : l' = filter (fun k => k <> h) old ++ filter (fun k => k <> h) recent ++ [h])
    by (subst l'; rewrite Hl at 1; by rewrite filter_app, app_assoc).
  case_decide as Hin.
  - assert (Ho' : h ∉ old) by (intros Hh; by apply (Hd h)). rewrite (filter_ne_absent h old Ho') in Hl'.
    pose proof (length_filter_ne h recent Hn Hin) as Hlr. rewrite Hl'. replace (Z.to_nat _) with (length old); [apply drop_app_length|].
    unfold zlen in *. rewrite !length_app. cbn. lia.
  - rewrite (filter_ne_absent h recent Hin) in Hl'. rewrite Hl'. unfold zlen at 1. rewrite !length_app. cbn [length].
    unfold zlen in *. destruct (Z.leb_spec max_size (Z.of_nat (length recent))) as [Hle|Hgt].
    + assert (Hcut : Z.to_nat (Z.of_nat (length (filter (fun k => k <> h) old) + (length recent + 1)) - max_size) =
        (length (filter (fun k => k <> h) old) + 1)%nat) by lia.
      rewrite Hcut, drop_app_add. by rewrite drop_app_le by lia.
    + assert (old = []) as -> by (apply length_zero_iff_nil; lia). cbn. replace (Z.to_nat _) with 0%nat by lia. done.
Qed.

Lemma nodup_drop {A} n (l : list A) : NoDup l -> NoDup (drop n l).
Proof. intros Hnd. eapply sublist_NoDup; [exact Hnd|apply sublist_drop]. Qed.

Lemma move_to_end_keys (h : bytes) (d : list (bytes * Z)) :
  NoDup d.*1 -> h ∈ d.*1 -> (move_to_end h d).*1 = filter (fun k => k <> h) d.*1 ++ [h].
Proof.
  intros Hnd Hh. unfold move_to_end. destruct (dict_get h d) as [v|] eqn:E; [|by apply dict_get_None in E].
  rewrite fmap_app, dict_del_keys by done. done.
Qed.

Lemma move_to_end_get (h k : bytes) (d : list (bytes * Z)) : NoDup d.*1 -> dict_get k (move_to_end h d) = dict_get k d.
Proof.
  intros Hnd. destruct (dict_get k d) as [v|] eqn:E.
  - apply dict_get_elem; [by rewrite move_to_end_perm|]. rewrite move_to_end_perm by done. by apply dict_get_elem.
  - apply dict_get_None. rewrite move_to_end_perm by done. by apply dict_get_None.
Qed.

Lemma dict_get_drop (d : list (bytes * Z)) h c : NoDup d.*1 -> dict_get h (drop 1 d) = Some c -> dict_get h d = Some c.
Proof.
  intros Hnd. rewrite !dict_get_elem; [|done|].
  - intros Hin. eapply subseteq_drop, Hin.
  - rewrite fmap_drop. by apply nodup_drop.
Qed.

(** One visit. *)
Lemma count_one_ok max_size visits d h :
  1 <= max_size -> tracker_ok max_size visits d -> tracker_ok max_size (visits ++ [h]) (count_one max_size d h).
Proof.
  intros Hmax [Hk Hl He]. pose proof (by_last_visit_nodup visits) as Hnv.
  assert (Hnd : NoDup d.*1) by (rewrite Hk; by apply nodup_drop).
  pose proof (drop_visit max_size (by_last_visit visits) h Hnv Hmax) as Hdv. cbv zeta in Hdv. rewrite <- Hk in Hdv.
  assert (Hlen : zlen d = zlen d.*1) by (unfold zlen; by rewrite length_fmap).
  assert (Hmono : zlen (by_last_visit visits) <= zlen (by_last_visit (visits ++ [h]))).
  { rewrite by_last_visit_snoc. unfold zlen. rewrite length_app. cbn. destruct (decide (h ∈ by_last_visit visits)) as [Hh|Hh].
    - rewrite <- (length_filter_ne h _ Hnv Hh). lia.
    - rewrite filter_ne_absent by done. lia. }
  unfold count_one. destruct (dict_get h d) as [c|] eqn:Eg.
  - assert (Hin : h ∈ d.*1) by (apply dict_get_Some_in in Eg; by apply (list_elem_of_fmap_2 fst) in Eg).
    rewrite decide_True in Hdv by done. split.
    + rewrite dict_set_keys, move_to_end_keys, decide_True by (done || set_solver). by rewrite by_last_visit_snoc.
    + intros k v. rewrite dict_get_set, move_to_end_get, occurrences_snoc by done. destruct (decide (h = k)) as [<-|].
      * intros [= <-]. specialize (Hl h c Eg). lia.
      * intros Hg. specialize (Hl k v Hg). lia.
    + intros Hmx k. rewrite dict_get_set, move_to_end_get, occurrences_snoc, <- He by (done || lia).
      destruct (decide (h = k)) as [<-|]; [by rewrite Eg|lia].
  - assert (Hin : h ∉ d.*1) by (by apply dict_get_None). rewrite decide_False in Hdv by done. rewrite Hlen.
    set (d1 := if max_size <=? zlen d.*1 then drop 1 d else d).
    assert (Hd1 : d1.*1 = if max_size <=? zlen d.*1 then drop 1 d.*1 else d.*1)
      by (subst d1; destruct (max_size <=? _); [apply fmap_drop|done]).
    assert (Hin1 : h ∉ d1.*1) by (rewrite Hd1; destruct (max_size <=? _); [intros Hx%(subseteq_drop _)|]; done).
    assert (Hsub : forall k v, dict_get k d1 = Some v -> dict_get k d = Some v)
      by (subst d1; destruct (max_size <=? _); intros k v; [by apply dict_get_drop|done]).
    split.
    + rewrite dict_set_keys, decide_False, Hd1, by_last_visit_snoc by done. by rewrite Hdv.
    + intros k v. rewrite dict_get_set, occurrences_snoc. destruct (decide (h = k)) as [<-|].
      * intros [= <-]. pose proof (occurrences_range h visits). lia.
      * intros Hg%Hsub. specialize (Hl k v Hg). lia.
    + intros Hmx k. rewrite dict_get_set, occurrences_snoc. destruct (decide (h = k)) as [<-|].
      * rewrite <- He, Eg by lia. done.
      * rewrite Z.add_0_r, <- He by lia. subst d1.
        assert (Hall : d.*1 = by_last_visit visits) by (rewrite Hk; by replace (Z.to_nat _) with 0%nat by lia).
        rewrite by_last_visit_snoc, filter_ne_absent in Hmx by (by rewrite <- Hall). rewrite <- Hall in Hmx. unfold zlen in *.
        rewrite length_app in Hmx. cbn in Hmx. by rewrite (proj2 (Z.leb_gt _ _)) by lia.
Qed.

Lemma count_all_ok max_size visits hs d :
  1 <= max_size -> tracker_ok max_size visits d -> tracker_ok max_size (visits ++ hs) (foldl (count_one max_size) d hs).
Proof.
  intros Hmax. revert visits d. induction hs as [|h hs IH]; intros visits d Hok; cbn; [by rewrite app_nil_r|].
  rewrite cons_middle, app_assoc. by apply IH, count_one_ok.
Qed.

Lemma tracker_empty max_size : tracker_ok max_size [] [].
Proof. split; [cbn; by destruct (Z.to_nat _)|done|done]. Qed.

(** ** The laws *)

Section Laws.
Context {M : Type} `{OffloadingLaws M}.
Implicit Types (m : Reuse M).

Definition reuse_ok m : Prop :=
  om_ok (backing m) /\ 1 <= max_tracker_size m /\ exists visits, tracker_ok (max_tracker_size m) visits (counts m).

Lemma reuse_init_ok b threshold max_size m : om_ok b -> reuse_init b threshold max_size = Ok m -> reuse_ok m.
Proof.
  unfold reuse_init. intros Hb. destruct (Z.ltb_spec threshold 2); [done|]. destruct (Z.ltb_spec max_size 1); [done|].
  intros [= <-]. split_and!; [done..|]. exists []. apply tracker_empty.
Qed.

Lemma set_backing_ok b m : reuse_ok m -> om_ok b -> reuse_ok (set_backing b m).
Proof. intros (_ & Hrest) Hb. by split. Qed.

(** The decorator implements the contract of the manager it wraps, taking only the
    hashes that are eligible. *)
#[global] Instance reuse_laws : OffloadingLaws (Reuse M).
Proof.
  refine {| om_ok := reuse_ok; om_entry m := om_entry (backing m);
            om_accepts m h := eligible m h && om_accepts (backing m) h |}.
  - intros m h b [Hok _]. by apply ol_ref.
  - intros m h1 h2 b1 b2 [Hok _]. by apply ol_distinct.
  - intros m hs (Hok & Hmax & visits & Htr). destruct (ol_lookup (backing m) hs Hok) as (b & Hb & Hokb & He).
    cbn. unfold reuse_lookup. rewrite Hb. eexists. split; [done|]. split; [|exact He].
    split_and!; [done..|]. exists (visits ++ hs). by apply count_all_ok.
  - intros m hs Hok Hhs. destruct (ol_load (backing m) hs (proj1 Hok) Hhs) as (ids & b & Hb & Hokb & HF & He).
    cbn. rewrite Hb. exists ids, (set_backing b m). split_and!; try done. by apply set_backing_ok.
  - intros m hs Hok. destruct (ol_touch (backing m) hs (proj1 Hok)) as [Hokb He]. split; [|exact He]. by apply set_backing_ok.
  - intros m hs Hok Hhs. destruct (ol_complete_load (backing m) hs (proj1 Hok) Hhs) as (b & Hb & Hokb & He).
    cbn. rewrite Hb. exists (set_backing b m). split_and!; try done. by apply set_backing_ok.
  - intros m hs Hok Hnd acc.
    assert (Hacc : acc = accepted (om_accepts (backing m)) (filter (fun h => eligible m h = true) hs)).
    { subst acc. unfold accepted. rewrite list_filter_filter. apply list_filter_iff. intros h. rewrite andb_true_iff. tauto. }
    destruct (ol_store (backing m) _ (proj1 Hok) (NoDup_filter (fun h => eligible m h = true) hs Hnd)) as (o & b & Hb & Hokb & Ho).
    cbv zeta in Ho. rewrite <- Hacc in Ho. cbn. unfold reuse_prepare_store. rewrite Hb. exists o, (set_backing b m).
    split; [done|]. split; [by apply set_backing_ok|exact Ho].
  - intros m hs Hok Hnd Hhs. destruct (ol_stored (backing m) hs (proj1 Hok) Hnd Hhs) as (b & Hb & Hokb & He).
    cbn. rewrite Hb. exists (set_backing b m). split_and!; try done. by apply set_backing_ok.
  - intros m hs Hok Hnd Hhs. destruct (ol_failed (backing m) hs (proj1 Hok) Hnd Hhs) as (b & Hb & Hokb & He).
    cbn. rewrite Hb. exists (set_backing b m). split_and!; try done. by apply set_backing_ok.
  - intros m Hok. destruct (ol_take (backing m) (proj1 Hok)) as [Hokb He]. cbn. destruct (om_take_events (backing m)) as [evs b].
    split; [by apply set_backing_ok|exact He].
Defined.
End Laws.
