(* ===== verification/OffloadProps.v ===== *)
(** * What the offloading managers promise their client

    The properties of vllm/v1/kv_offload: the runs of the managers, from the
    contract that each implements, the LRU eviction at a concrete state, the tracker of the reuse filter, and
    runs of the ARC manager that depart from what the abstract class documents. *)
From Stdlib Require Import SpecFloat.
From S2P Require Import Prelude Offload OffloadLRU OffloadARC OffloadReuse.

(** ** Runs of a manager *)

Inductive offload_op : Type :=
  | OpLookup (hs : list bytes)
  | OpPrepareLoad (hs : list bytes)
  | OpTouch (hs : list bytes)
  | OpCompleteLoad (hs : list bytes)
  | OpPrepareStore (hs : list bytes)
  | OpCompleteStore (hs : list bytes) (success : bool)
  | OpTakeEvents.

Section Runs.
Context {M : Type} `{OffloadingLaws M}.
Implicit Types (m : M) (h : bytes).

Definition om_step m (op : offload_op) : result M :=
  match op with
  | OpLookup hs => Ok (om_lookup hs m).2
  | OpPrepareLoad hs => snd <$> om_prepare_load hs m
  | OpTouch hs => Ok (om_touch hs m)
  | OpCompleteLoad hs => om_complete_load hs m
  | OpPrepareStore hs => snd <$> om_prepare_store hs m
  | OpCompleteStore hs success => om_complete_store hs success m
  | OpTakeEvents => Ok (om_take_events m).2
  end.

(** What the abstract class asks of its caller: load blocks that are ready, complete
    loads that were prepared, complete stores that were prepared, fail only blocks that
    are not stored. *)
Definition op_pre m (op : offload_op) : Prop :=
  match op with
  | OpPrepareLoad hs => forall h, h ∈ hs -> exists b, om_entry m h = Some b /\ 0 <= st_ref b /\ st_ref b + zlen hs < 2 ^ 31
  | OpCompleteLoad hs => forall h, h ∈ hs -> exists b, om_entry m h = Some b /\ occurrences h hs <= st_ref b
  | OpPrepareStore hs => NoDup hs
  | OpCompleteStore hs true => NoDup hs /\ forall h, h ∈ hs -> is_Some (om_entry m h)
  | OpCompleteStore hs false => NoDup hs /\ forall h, h ∈ hs -> exists b, om_entry m h = Some b /\ is_ready b = false
  | _ => True
  end.

Fixpoint run_pre (ops : list offload_op) m : Prop :=
  match ops with
  | [] => True
  | op :: ops' => op_pre m op /\ forall m', om_step m op = Ok m' -> run_pre ops' m'
  end.

(** How many reads of [h] the operations complete. *)
Definition completed (h : bytes) (op : offload_op) : Z :=
  match op with OpCompleteLoad hs => occurrences h hs | _ => 0 end.
Definition completed_all (h : bytes) (ops : list offload_op) : Z := foldr Z.add 0 (completed h <$> ops).

Lemma completed_nonneg h op : 0 <= completed h op.
Proof. destruct op; cbn; try lia. apply occurrences_range. Qed.
Lemma completed_all_nonneg h ops : 0 <= completed_all h ops.
Proof.
  unfold completed_all. induction ops as [|op ops IH]; [done|]. cbn [fmap list_fmap foldr].
  pose proof (completed_nonneg h op). lia.
Qed.

Lemma om_step_ok m op : om_ok m -> op_pre m op -> exists m', om_step m op = Ok m' /\ om_ok m' /\
  forall h b, om_entry m h = Some b -> 0 < st_ref b ->
    exists b', om_entry m' h = Some b' /\ st_block b' = st_block b /\ st_ref b - completed h op <= st_ref b'.
Proof.
  assert (Hsame : forall m m', (forall h, om_entry m' h = om_entry m h) -> forall h b, om_entry m h = Some b -> 0 < st_ref b ->
    exists b', om_entry m' h = Some b' /\ st_block b' = st_block b /\ st_ref b - 0 <= st_ref b').
  { intros m1 m2 He h b Hb _. exists b. rewrite He. split_and!; [done..|lia]. }
  intros Hok Hpre. destruct op as [hs|hs|hs|hs|hs|hs [|]|]; cbn [om_step op_pre completed] in *.
  - destruct (ol_lookup m hs Hok) as (m' & -> & Hok' & He). exists m'. split_and!; [done..|by apply Hsame].
  - destruct (ol_load m hs Hok Hpre) as (ids & m' & -> & Hok' & _ & He). exists m'. split_and!; [done..|].
    intros h b Hb _. rewrite He, Hb. eexists. split; [done|]. cbn. pose proof (occurrences_range h hs). split; [done|lia].
  - destruct (ol_touch m hs Hok) as [Hok' He]. eexists. split_and!; [done..|by apply Hsame].
  - destruct (ol_complete_load m hs Hok Hpre) as (m' & -> & Hok' & He). exists m'. split_and!; [done..|].
    intros h b Hb _. rewrite He, Hb. eexists. split; [done|]. cbn. split; [done|lia].
  - destruct (ol_store m hs Hok Hpre) as (o & m' & -> & Hok' & Ho). exists m'. split_and!; [done..|].
    intros h b Hb Hr. exists b. rewrite <- Hb. split; [|split; [done|lia]]. destruct o as [out|].
    + destruct Ho as (Hts & _ & _ & Hev & Hkeep & _). apply Hkeep.
      * intros Hin. destruct (Hev h Hin) as [(b' & Hb' & Hr' & _) _]. assert (b' = b) as -> by congruence. lia.
      * rewrite Hts. intros [Hn _]%list_elem_of_filter. congruence.
    + destruct (Ho h) as [?|[_ (b' & Hb' & Hr' & _)]]; [done|]. assert (b' = b) as -> by congruence. lia.
  - destruct Hpre as [Hnd Hhs]. destruct (ol_stored m hs Hok Hnd Hhs) as (m' & -> & Hok' & He). exists m'. split_and!; [done..|].
    intros h b Hb Hr. exists b. rewrite He, Hb. cbn. rewrite decide_False; [split_and!; [done..|lia]|].
    unfold is_ready. intros [_ Hx%Z.leb_gt]. lia.
  - destruct Hpre as [Hnd Hhs]. destruct (ol_failed m hs Hok Hnd Hhs) as (m' & -> & Hok' & He). exists m'. split_and!; [done..|].
    intros h b Hb Hr. exists b. rewrite He, decide_False; [split_and!; [done..|lia]|].
    intros Hin. destruct (Hhs h Hin) as (b' & Hb' & Hx%Z.leb_gt). assert (b' = b) as -> by congruence. lia.
  - destruct (ol_take m Hok) as [Hok' He]. eexists. split_and!; [done..|by apply Hsame].
Qed.

Lemma offload_run_ok m ops : om_ok m -> run_pre ops m -> exists m', foldM om_step m ops = Ok m' /\ om_ok m'.
Proof.
  revert m. induction ops as [|op ops IH]; intros m Hok Hpre; cbn [foldM]; [by exists m|].
  destruct Hpre as [Hpre Hrest]. destruct (om_step_ok m op Hok Hpre) as (m1 & Hs & Hok1 & _). rewrite Hs. cbn [mbind result_bind].
  by apply IH, Hrest.
Qed.

(** A client that keeps its side makes no call fail, and a block that is being read by more
    loads than the run completes is still there at the end, at the same address, which no
    other hash has been given. *)
Lemma offload_run_keeps m ops :
  om_ok m -> run_pre ops m ->
  exists m', foldM om_step m ops = Ok m' /\ om_ok m' /\
    forall h b, om_entry m h = Some b -> completed_all h ops < st_ref b ->
      exists b', om_entry m' h = Some b' /\ st_block b' = st_block b /\
        forall h2 b2, om_entry m' h2 = Some b2 -> st_block b2 = st_block b -> h2 = h.
Proof.
  revert m. induction ops as [|op ops IH]; intros m Hok Hpre; cbn [foldM].
  { exists m. split_and!; [done..|]. intros h b Hb _. exists b. split_and!; [done..|]. intros h2 b2 Hb2 Hid. by eapply ol_distinct. }
  destruct Hpre as [Hpre Hrest]. destruct (om_step_ok m op Hok Hpre) as (m1 & Hs & Hok1 & Hkeep). rewrite Hs. cbn [mbind result_bind].
  destruct (IH m1 Hok1 (Hrest m1 Hs)) as (m' & -> & Hok' & Hfin). exists m'. split_and!; [done..|].
  intros h b Hb Hr. pose proof (completed_nonneg h op). pose proof (completed_all_nonneg h ops).
  cbn in Hr. fold (completed_all h ops) in Hr.
  destruct (Hkeep h b Hb ltac:(lia)) as (b1 & Hb1 & Hid1 & Hr1). destruct (Hfin h b1 Hb1 ltac:(lia)) as (b' & Hb' & Hid' & Hu).
  exists b'. rewrite <- Hid1. split_and!; [done..|exact Hu].
Qed.

(** The same in the middle of a run from the start of a manager. *)
Definition safe_from m0 : Prop := forall before ops, run_pre (before ++ ops) m0 ->
  exists m m', foldM om_step m0 before = Ok m /\ foldM om_step m ops = Ok m' /\
    forall h b, om_entry m h = Some b -> completed_all h ops < st_ref b ->
      exists b', om_entry m' h = Some b' /\ st_block b' = st_block b /\
        forall h2 b2, om_entry m' h2 = Some b2 -> st_block b2 = st_block b -> h2 = h.
Lemma run_pre_app ops1 ops2 m m' : run_pre (ops1 ++ ops2) m -> foldM om_step m ops1 = Ok m' -> run_pre ops2 m'.
Proof.
  revert m. induction ops1 as [|op ops1 IH]; intros m; cbn [app run_pre foldM]; [by intros ? [= <-]|]. intros [_ Hrest].
  destruct (om_step m op) as [m1|] eqn:E; cbn [mbind result_bind]; [|done]. by apply IH, Hrest.
Qed.
Lemma run_pre_take ops1 ops2 m : run_pre (ops1 ++ ops2) m -> run_pre ops1 m.
Proof. revert m. induction ops1 as [|op ops1 IH]; intros m; cbn [app run_pre]; [done|]. intros [Hop Hrest]. split; [done|]. intros m' E. by apply IH, Hrest. Qed.
Lemma safe_from_ok m0 : om_ok m0 -> safe_from m0.
Proof.
  intros Hok before ops Hpre. destruct (offload_run_ok m0 before Hok (run_pre_take _ _ _ Hpre)) as (m & E & Hm).
  destruct (offload_run_keeps m ops Hm (run_pre_app _ _ _ _ Hpre E)) as (m' & E' & _ & Hk). by exists m, m'.
Qed.
End Runs.

(** ** Concrete runs *)

Definition demo_arc : ARC spec_float := arc_init (cpu_backend_init 16 2) true.
Definition demo_lru : LRU := lru_init (cpu_backend_init 16 2) true.
Definition demo_reuse : result (Reuse LRU) := reuse_init (lru_init (cpu_backend_init 16 1) false) 2 1.

Lemma arc_init_ok {F} `{PyFloat F} block_size n ev : 0 <= n -> arc_wf (arc_init (F := F) (cpu_backend_init block_size n) ev).
Proof.
  intros Hn. split; [split|].
  - split; cbn; [constructor|split; [cbn; lia|done]|by intros h b ?%elem_of_nil].
  - split; cbn; try constructor; by intros h ?%elem_of_nil.
  - cbn. unfold be_num_free, zlen. cbn. lia.
Qed.

Lemma lru_init_ok block_size n ev : 0 <= n -> lru_ok (lru_init (cpu_backend_init block_size n) ev).
Proof. intros Hn. split; cbn; [constructor|split; [cbn; lia|done]|by intros h b ?%elem_of_nil]. Qed.

Ltac keys_in := repeat match goal with
  | H : _ ∈ [] |- _ => by apply elem_of_nil in H
  | H : _ ∈ _ :: _ |- _ => apply elem_of_cons in H as [->|H]
  end.
(** The side conditions of a concrete run. *)
Ltac op_pre_tac :=
  cbn [op_pre]; try exact I;
  first [ apply (bool_decide_unpack _); vm_compute; exact I
        | split; [apply (bool_decide_unpack _); vm_compute; exact I|]; intros ? ?; keys_in; vm_compute; eauto
        | intros ? ?; keys_in; eexists; split_and!; [reflexivity|vm_compute; congruence..] ].
Ltac run_pre_tac :=
  cbn [run_pre];
  repeat (split; [op_pre_tac|let m := fresh "m" in let Hm := fresh "Hm" in
    intros m Hm; vm_compute in Hm; injection Hm as <-]);
  try exact I.

Definition fill : list offload_op :=
  [OpTouch [[1]; [2]]; OpPrepareStore [[1]; [2]]; OpCompleteStore [[1]; [2]] true; OpTakeEvents; OpPrepareLoad [[2]]].
Definition compete : list offload_op := [OpLookup [[2]; [3]]; OpPrepareStore [[2]; [3]]; OpCompleteStore [[3]] true; OpPrepareStore [[4]]].

Definition ok_or {A} (d : A) (r : result A) : A := match r with Ok a => a | Err _ => d end.
Definition demo_filled : ARC spec_float := Eval vm_compute in ok_or demo_arc (foldM om_step demo_arc fill).

(** C23: The managers of the repository are safe under a client that keeps its side of the
    contract: [LRUOffloadingManager], [ARCOffloadingManager], and the reuse filter over either,
    built over a CPU backend of any size. In a run of calls from the start no call raises; and
    a block that is being read at some point of the run by more loads than the rest of the run
    completes is still there at the end, at the same address, which no other hash has been
    given: no eviction, failed store or new block takes it away. *)
Theorem offload_run_safe {F} `{PyFloat F} block_size n ev : 0 <= n ->
  let backend := cpu_backend_init block_size n in
  safe_from (lru_init backend ev) /\ safe_from (arc_init (F := F) backend ev) /\
  (forall threshold size m, reuse_init (lru_init backend ev) threshold size = Ok m -> safe_from m) /\
  (forall threshold size m, reuse_init (arc_init (F := F) backend ev) threshold size = Ok m -> safe_from m).
Proof.
  intros Hn backend. pose proof (lru_init_ok block_size n ev Hn : om_ok (lru_init backend ev)) as Hl. pose proof (arc_init_ok (F := F) block_size n ev Hn : om_ok (arc_init backend ev)) as Ha.
  split_and!; [by apply safe_from_ok..| |]; intros threshold size m Hm; apply safe_from_ok; by eapply reuse_init_ok.
Qed.

(** Through the filter a hash has to be looked up twice before it is stored. *)
Definition reuse_filled {M} `{OffloadingManager M} (b : M) : Reuse M := mkReuse b 2 8 [].
Definition seen_twice : list offload_op := [OpLookup [[1]; [2]]; OpLookup [[1]; [2]]; OpLookup [[3]; [4]]; OpLookup [[3]; [4]]].
(** The block of [2] in the middle of the run and at its end. *)
Definition kept_two {M} `{OffloadingLaws M} (m0 : M) (before ops : list offload_op) : Prop :=
  exists m m' b, foldM om_step m0 before = Ok m /\ foldM om_step m ops = Ok m' /\ om_entry m [2] = Some (mkStatus 1 1) /\ om_entry m' [2] = Some b /\ st_block b = 1.
Lemma kept_two_run {M} `{OffloadingLaws M} (m0 : M) before ops : safe_from m0 -> run_pre (before ++ ops) m0 ->
  (m ← foldM om_step m0 before; Ok (om_entry m [2])) = Ok (Some (mkStatus 1 1)) -> completed_all [2] ops = 0 -> kept_two m0 before ops.
Proof.
  intros Hs Hpre Hb Hc. destruct (Hs before ops Hpre) as (m & m' & E & E' & Hk). rewrite E in Hb. cbn in Hb. injection Hb as Hb.
  destruct (Hk [2] _ Hb) as (b & Hb' & Hid & _); [rewrite Hc; cbn; lia|]. by exists m, m', b.
Qed.
Lemma offload_run_safe_witness :
  kept_two demo_lru fill compete /\ kept_two demo_arc fill compete /\
  kept_two (reuse_filled demo_lru) (seen_twice ++ fill) compete /\ kept_two (reuse_filled demo_arc) (seen_twice ++ fill) compete.
Proof.
  destruct (offload_run_safe (F := spec_float) 16 2 true ltac:(lia)) as (Hl & Ha & Hrl & Hra).
  split_and!; apply kept_two_run.
  - exact Hl.
  - unfold fill, compete. cbn [app]. run_pre_tac.
  - by vm_compute.
  - by vm_compute.
  - exact Ha.
  - unfold fill, compete. cbn [app]. run_pre_tac.
  - by vm_compute.
  - by vm_compute.
  - exact (Hrl 2 8 _ eq_refl).
  - unfold seen_twice, fill, compete. cbn [app]. run_pre_tac.
  - by vm_compute.
  - by vm_compute.
  - exact (Hra 2 8 _ eq_refl).
  - unfold seen_twice, fill, compete. cbn [app]. run_pre_tac.
  - by vm_compute.
  - by vm_compute.
Defined.

(** ** The LRU manager at a concrete state *)

Definition demo_lru_filled : LRU := Eval vm_compute in ok_or demo_lru (foldM om_step demo_lru fill).

Lemma demo_lru_filled_ok : lru_ok demo_lru_filled.
Proof.
  destruct (offload_run_ok demo_lru fill) as (m & Hm & Hok); [apply lru_init_ok; lia|unfold fill; run_pre_tac|].
  assert (Hfill : foldM om_step demo_lru fill = Ok demo_lru_filled) by (vm_compute; reflexivity).
  rewrite Hfill in Hm. injection Hm as <-. exact Hok.
Defined.

(** The LRU manager evicts as little as possible and only what it may: [prepare_store]
    refuses, changing nothing, exactly when the evictable blocks (stored, not in use, not
    among the given hashes) are fewer than the blocks missing; otherwise it evicts
    exactly the missing number, the least recently used of them in order, gives each
    new hash a block of its own in the not-ready state, and leaves every other entry as
    it was. *)
Theorem lru_prepare_store_correct m hs :
  lru_ok m -> NoDup hs ->
  let to_store := filter (fun h => lru_entry m h = None) hs in
  let need := Z.max 0 (zlen to_store - be_num_free (lru_backend m)) in
  let cands := candidates hs (lru_blocks m) in
  (forall h, h ∈ cands <-> evictable (lru_entry m) hs h) /\
  (zlen cands < need -> lru_prepare_store hs m = Ok (None, m)) /\
  (need <= zlen cands -> exists spec m',
    lru_prepare_store hs m = Ok (Some (mkOutput to_store spec (take (Z.to_nat need) cands)), m') /\ lru_ok m' /\
    (forall h, h ∉ take (Z.to_nat need) cands -> h ∉ to_store -> lru_entry m' h = lru_entry m h) /\
    (forall h, h ∈ to_store -> exists id, lru_entry m' h = Some (new_status id) /\ id ∈ spec)).
Proof.
  intros Hok Hnd to_store need cands. split; [intros h; by apply candidates_evictable|].
  pose proof (lru_prepare_store_spec m hs Hok Hnd) as H. cbv zeta in H. fold to_store need cands in H. split; intros Hn.
  - by rewrite (proj2 (Z.ltb_lt _ _)) in H.
  - rewrite (proj2 (Z.ltb_ge _ _)) in H by lia. destruct H as (spec & m' & H & Hok' & Hlen & _ & Hkeep & Hnew).
    exists spec, m'. split_and!; try done. intros h [i Hi]%list_elem_of_lookup.
    destruct (lookup_lt_is_Some_2 spec i) as [id Hid]; [rewrite Hlen; by eapply lookup_lt_Some|].
    exists id. split; [by eapply Hnew|by eapply list_elem_of_lookup_2].
Qed.

Lemma lru_prepare_store_correct_witness :
  lru_prepare_store [[3]; [4]] demo_lru_filled = Ok (None, demo_lru_filled) /\
  exists spec m', lru_prepare_store [[2]; [3]] demo_lru_filled = Ok (Some (mkOutput [[3]] spec [[1]]), m') /\ lru_ok m'.
Proof.
  destruct (lru_prepare_store_correct demo_lru_filled [[3]; [4]] demo_lru_filled_ok) as (_ & Hno & _).
  { apply (bool_decide_unpack _). vm_compute. exact I. }
  split; [apply Hno; vm_compute; done|].
  destruct (lru_prepare_store_correct demo_lru_filled [[2]; [3]] demo_lru_filled_ok) as (_ & _ & Hyes).
  { apply (bool_decide_unpack _). vm_compute. exact I. }
  destruct Hyes as (spec & m' & Hs & Hok & _); [vm_compute; done|]. exists spec, m'. split; [exact Hs|exact Hok].
Defined.

(** ** The reuse filter *)

Section Tracker.
Context {M : Type} `{OffloadingLaws M}.

Definition lookups (m : Reuse M) (calls : list (list bytes)) : Reuse M := foldl (fun m hs => (om_lookup hs m).2) m calls.

Lemma lookups_state m calls :
  max_tracker_size (lookups m calls) = max_tracker_size m /\ store_threshold (lookups m calls) = store_threshold m /\
  counts (lookups m calls) = foldl (count_one (max_tracker_size m)) (counts m) (concat calls).
Proof.
  revert m. induction calls as [|hs calls IH]; intros m; cbn [lookups foldl]; [done|].
  fold (lookups (om_lookup hs m).2 calls). destruct (IH (om_lookup hs m).2) as (-> & -> & ->).
  cbn. unfold reuse_lookup. destruct (om_lookup hs (backing m)) as [o b]. cbn. split_and!; [done..|].
  change (concat (hs :: calls)) with (hs ++ concat calls). by rewrite foldl_app.
Qed.

(** The reuse filter stores what was looked up often enough: after any calls to [lookup] its tracker holds the
    [max_tracker_size] distinct hashes visited last, oldest first; a hash it lets through
    was visited at least [store_threshold] times; and as long as no more distinct
    hashes were visited than the tracker holds, exactly those hashes are let through. *)
Theorem reuse_tracker_correct b threshold max_size (m : Reuse M) calls :
  reuse_init b threshold max_size = Ok m ->
  let visits := concat calls in
  let m' := lookups m calls in
  (counts m').*1 = drop (Z.to_nat (zlen (by_last_visit visits) - max_size)) (by_last_visit visits) /\
  zlen (counts m') <= max_size /\
  (forall h, eligible m' h = true -> threshold <= occurrences h visits) /\
  (zlen (by_last_visit visits) <= max_size -> forall h, eligible m' h = true <-> threshold <= occurrences h visits).
Proof.
  intros Hm visits m'. unfold reuse_init in Hm.
  destruct (Z.ltb_spec threshold 2) as [|Ht]; [done|]. destruct (Z.ltb_spec max_size 1) as [|Hmax]; [done|].
  injection Hm as <-. destruct (lookups_state (mkReuse b threshold max_size []) calls) as (_ & Hth & Hc). fold m' in Hth, Hc.
  cbn in Hth, Hc. destruct (count_all_ok max_size [] visits [] ltac:(lia) (tracker_empty max_size)) as [Hk Hl He].
  cbn [app] in Hk, Hl, He. unfold visits in Hk, Hl, He. rewrite <- Hc in Hk, Hl, He. fold visits in Hk, Hl, He. split_and!; [exact Hk| | |].
  - unfold zlen. rewrite <- (length_fmap fst), Hk, length_drop. unfold zlen. lia.
  - intros h. unfold eligible. rewrite Hth, Z.leb_le. destruct (dict_get h (counts m')) as [c|] eqn:E; cbn; [|lia].
    specialize (Hl h c E). lia.
  - intros Hfit h. unfold eligible. rewrite Hth, Z.leb_le, He by done. done.
Qed.
End Tracker.

Definition demo_calls : list (list bytes) := [[[1]; [2]]; [[1]; [3]]].
Lemma reuse_tracker_correct_witness :
  exists m, reuse_init demo_lru 2 64000 = Ok m /\ eligible (lookups m demo_calls) [1] = true /\ ~ 2 <= occurrences [2] (concat demo_calls) /\
    eligible (lookups m demo_calls) [2] = false.
Proof.
  eexists. split; [reflexivity|].
  destruct (reuse_tracker_correct demo_lru 2 64000 (mkReuse demo_lru 2 64000 []) demo_calls eq_refl) as (_ & _ & _ & Hex).
  specialize (Hex ltac:(vm_compute; done)). split; [apply (Hex [1]); vm_compute; done|].
  assert (Hn : ~ 2 <= occurrences [2] (concat demo_calls)) by (vm_compute; congruence). split; [exact Hn|].
  apply not_true_iff_false. intros Hy. apply Hn. by apply (Hex [2]).
Defined.

(** ** Departures from the documented contract *)

Definition arc_idle_ops : list offload_op :=
  [OpPrepareStore [[1]; [2]]; OpCompleteStore [[1]; [2]] true; OpPrepareStore [[3]; [4]]; OpCompleteStore [[3]; [4]] true;
   OpTouch [[1]]; OpTouch [[2]]; OpTouch [[3]]; OpPrepareLoad [[3]]].

(** C31: The ARC manager departs from the documented contract in three ways.  With room
    for two blocks, both stored and the second being read, storing two more evicts the
    first, then finds nothing to evict and answers [None]: the first block is gone and no
    event reports it (the LRU manager leaves its cache as it was).  Below its target T1
    is not searched even when T2 has nothing to give, so the manager refuses while an
    idle block is evictable.  A failed store that names a stored block drops the block
    without freeing it, so its address is lost (the LRU manager keeps it). *)
Theorem arc_departs_from_contract :
  (exists m', arc_prepare_store [[3]; [4]] demo_filled = Ok (None, m') /\
    arc_lookup [[1]] demo_filled = (Some 1, demo_filled) /\ arc_lookup [[1]] m' = (Some 0, m') /\
    (arc_take_events m').1 = [] /\
    lru_prepare_store [[3]; [4]] demo_lru_filled = Ok (None, demo_lru_filled)) /\
  (exists m m', foldM om_step demo_arc arc_idle_ops = Ok m /\ evictable (arc_get m) [[5]] [4] /\
    arc_prepare_store [[5]] m = Ok (None, m')) /\
  (exists m', arc_complete_store [[1]] false demo_filled = Ok m' /\ arc_get m' [1] = None /\
    be_num_free (arc_backend m') = be_num_free (arc_backend demo_filled) /\ zlen (arc_t1 m' ++ arc_t2 m') = 1 /\
    exists l, lru_complete_store [[1]] false demo_lru_filled = Ok l /\ is_Some (lru_entry l [1])).
Proof.
  split_and!.
  - eexists. split; [vm_compute; reflexivity|]. split_and!; vm_compute; reflexivity.
  - eexists _, _. split; [vm_compute; reflexivity|]. split; [|vm_compute; reflexivity].
    eexists. split; [vm_compute; reflexivity|]. split; [reflexivity|]. apply (bool_decide_unpack _). vm_compute. exact I.
  - eexists. split; [vm_compute; reflexivity|]. split_and!; [vm_compute; reflexivity..|].
    eexists. split; [vm_compute; reflexivity|]. vm_compute. eauto.
Qed.

Definition forget_ops : list offload_op :=
  [OpLookup [[1]]; OpLookup [[1]]; OpPrepareStore [[1]]; OpCompleteStore [[1]] true; OpLookup [[2]]; OpLookup [[2]]].

(** Through the reuse filter a stored block of the call is no longer protected once the
    tracker forgot it: with one block of room, a call that names the stored block and a
    new one evicts the stored one, where the manager it wraps refuses and keeps it. *)
Theorem reuse_filter_unprotects :
  exists m0 m spec m', demo_reuse = Ok m0 /\ foldM om_step m0 forget_ops = Ok m /\ is_Some (om_entry m [1]) /\
    reuse_prepare_store [[1]; [2]] m = Ok (Some (mkOutput [[2]] spec [[1]]), m') /\
    lru_prepare_store [[1]; [2]] (backing m) = Ok (None, backing m).
Proof.
  eexists _, _, _, _. split; [reflexivity|]. split; [vm_compute; reflexivity|]. split; [vm_compute; eauto|]. split; vm_compute; reflexivity.
Qed.
