(* ===== verification/SchedulerState.v ===== *)
(** * The scheduler's state

    vllm/v1/core/sched/scheduler.py: the attributes of [Scheduler]; output.py: the
    objects a step sends to the workers; request.py's [StreamingUpdate]; interface.py's
    [PauseState].

    A request object is named by its request id: [objects] holds the objects, [requests]
    the keys of [self.requests] in insertion order, and the queues and lists hold names, so
    that a change of an object shows wherever it is referenced and a queue compares the
    objects as they are when it compares.  [req.streaming_queue] is the entry of
    [streaming_queues].  The code over which the scheduler runs is given by interfaces: the
    KV cache manager ([KVOps]) and the queues of a policy ([QueueImpl]).  There is no KV
    or encoder connector ([connector] and [ec_connector] are [None]), no statistics
    ([log_stats] is false) and no expert routing. *)
From S2P Require Import Prelude FreeQueue Request RequestQueue EncoderCache BlockHash BlockPool KVCacheManager.

(** ** Configuration *)

Inductive PauseState : Type := UNPAUSED | PAUSED_NEW | PAUSED_ALL.
#[global] Instance PauseState_eq_dec : EqDecision PauseState.
Proof. solve_decision. Defined.

(** What [__init__] reads from the configuration; [async] says whether the object is an
    [AsyncScheduler], [max_loras] is [None] without a LoRA configuration. *)
Record SchedConfig : Type := mkSC {
  max_num_running_reqs : Z;
  max_num_scheduled_tokens : Z;
  max_model_len : Z;
  long_prefill_token_threshold : Z;
  enable_chunked_prefill : bool;
  disable_chunked_mm_input : bool;
  num_lookahead_tokens : Z;
  num_spec_tokens : Z;
  use_eagle : bool;
  max_num_encoder_input_tokens : Z;
  max_loras : option Z;
  need_mamba_block_aligned_split : bool;
  cache_block_size : Z;
  needs_kv_cache_zeroing : bool;
  use_pp : bool;
  async_scheduling : bool;
  use_v2_model_runner : bool;
  num_groups : nat;
  async : bool;
}.

(** [max_num_scheduled_tokens or max_num_batched_tokens]. *)
Definition scheduled_tokens_limit (scheduled : option Z) (batched : Z) : Z :=
  match scheduled with Some n => if n =? 0 then batched else n | None => batched end.

(** [num_spec_tokens], [num_lookahead_tokens] and [use_eagle] from the speculative
    configuration (number of tokens, eagle, draft model). *)
Definition spec_settings (spec : option (Z * bool * bool)) : Z * Z * bool :=
  match spec with
  | None => (0, 0, false)
  | Some (n, eagle, draft) => (n, if eagle || draft then n else 0, eagle)
  end.

(** ** Request updates *)

Record StreamingUpdate : Type := mkUpdate {
  su_mm_features : list MultiModalFeatureSpec;
  su_prompt_token_ids : option (list Z);
  su_max_tokens : Z;
  su_arrival_time : Z;
  su_sampling_params : option SamplingParams;
}.

(** [StreamingUpdate.from_request]. *)
Definition update_from_request (r : Request) : option StreamingUpdate :=
  if resumable r
  then Some (mkUpdate (mm_features r) (prompt_token_ids r) (max_tokens r) (arrival_time r) (sampling_params r))
  else None.

(** ** The encoder cache manager of the model *)

Inductive EncManager : Type :=
  | EncMM (m : EncoderCacheManager)
  | EncDec (m : EncoderDecoderCacheManager).

Definition is_encoder_decoder (e : EncManager) : bool := match e with EncDec _ => true | EncMM _ => false end.
Definition enc_check_and_update (r : Request) (i : Z) (e : EncManager) : result (bool * EncManager) :=
  match e with
  | EncMM m => '(b, m') ← check_and_update_cache r i m; Ok (b, EncMM m')
  | EncDec m => Ok (false, EncDec m)
  end.
Definition enc_can_allocate (r : Request) (i budget to_schedule : Z) (e : EncManager) : result (bool * EncManager) :=
  match e with
  | EncMM m => '(b, m') ← can_allocate r i budget to_schedule m; Ok (b, EncMM m')
  | EncDec m => b ← ed_can_allocate r i budget to_schedule m; Ok (b, EncDec m)
  end.
Definition enc_allocate (r : Request) (e : EncManager) (i : Z) : result EncManager :=
  match e with
  | EncMM m => m' ← allocate r i m; Ok (EncMM m')
  | EncDec m => m' ← ed_allocate r i m; Ok (EncDec m')
  end.
Definition enc_cached_ids (r : Request) (e : EncManager) : list Z :=
  match e with EncMM m => get_cached_input_ids r m | EncDec m => ed_get_cached_input_ids r end.
Definition enc_free_input (r : Request) (e : EncManager) (i : Z) : result EncManager :=
  match e with
  | EncMM m => m' ← free_encoder_input r m i; Ok (EncMM m')
  | EncDec m => m' ← ed_free_encoder_input r m i; Ok (EncDec m')
  end.
Definition enc_free (r : Request) (e : EncManager) : result EncManager :=
  match e with
  | EncMM m => m' ← ecm_free r m; Ok (EncMM m')
  | EncDec m => m' ← ed_free r m; Ok (EncDec m')
  end.
Definition enc_freed_hashes (e : EncManager) : list string * EncManager :=
  match e with
  | EncMM m => let '(l, m') := get_freed_mm_hashes m in (l, EncMM m')
  | EncDec m => let '(l, m') := ed_get_freed_mm_hashes m in (l, EncDec m')
  end.
Definition enc_reset (e : EncManager) : EncManager :=
  match e with EncMM m => EncMM (ecm_reset m) | EncDec m => EncDec (ed_reset m) end.

(** ** Interfaces *)

(** The calls the scheduler makes on the KV cache manager. *)
Class KVOps (KV : Type) : Type := {
  kv_get_computed : Request -> KV -> result (KVCacheBlocks * Z * KV);
  kv_allocate : Request -> Z -> Z -> option KVCacheBlocks -> Z -> Z -> bool -> Z -> KV ->
    result (option KVCacheBlocks * Request * KV);
  kv_free : Request -> KV -> result KV;
  kv_cache : Request -> Z -> KV -> result (Request * KV);
  kv_get_blocks : string -> KV -> KVCacheBlocks;
  kv_block_ids : bool -> KVCacheBlocks -> KV -> option (list (list Z));
  kv_common_prefix : string -> KV -> list Z * KV;
  kv_new_step : KV -> KV;
  kv_take_ids : KV -> list Z * KV;
  kv_take_events : KV -> list KVCacheEvent * KV;
  kv_reset : KV -> bool * KV;
}.

#[global] Instance kvm_ops (use_int : bool) : KVOps KVCacheManager := {
  kv_get_computed := get_computed_blocks;
  kv_allocate := allocate_slots use_int;
  kv_free := kvm_free;
  kv_cache := kvm_cache_blocks use_int;
  kv_get_blocks := kvm_get_blocks;
  kv_block_ids allow_none b k := get_block_ids (num_kv_cache_groups k) (km_pool k) allow_none b;
  kv_common_prefix := kvm_num_common_prefix_blocks;
  kv_new_step := kvm_new_step_starts;
  kv_take_ids := kvm_take_new_block_ids;
  kv_take_events := kvm_take_events;
  kv_reset := kvm_reset_prefix_cache;
}.

(** The queues of a policy, over any way to compare two elements. *)
Class QueueImpl (Q : Type) : Type := {
  queue_policy : SchedulingPolicy;
  queue_ops : Item string -> RequestQueue string Q;
}.
#[global] Instance fcfs_impl : QueueImpl (FCFSQueue string) :=
  {| queue_policy := FCFS_policy; queue_ops it := @fcfs_queue string it |}.
#[global] Instance priority_impl : QueueImpl (PriorityQueue string) :=
  {| queue_policy := PRIORITY_policy; queue_ops it := @priority_queue string it |}.

(** Requests compared by reference: [__lt__] and identity of the objects.  Every name in
    use has an object; [no_request] only makes the function total. *)
Definition no_request : Request :=
  mkRequest "" (-1) 0 0 0 None None None false FINISHED_ABORTED None 0 None None ∅ 0 [] [] 0 false [] 0 None [] 0 false 0 0 []
    false false.
Definition by_ref (objs : gmap string Request) : Item string := {|
  item_lt a b := request_lt (default no_request (objs !! a)) (default no_request (objs !! b));
  item_id a := obj_id (default no_request (objs !! a));
|}.

(** ** The scheduler *)

Section State.
Context {KV Q : Type} `{KVOps KV} `{QueueImpl Q}.

Record Scheduler : Type := mkSched {
  objects : gmap string Request;
  streaming_queues : gmap string (list (option StreamingUpdate));
  requests : list string;
  waiting : Q;
  skipped_waiting : Q;
  running : list string;
  finished_req_ids : gset string;
  finished_req_ids_dict : option (gmap Z (gset string));
  prev_step_scheduled_req_ids : gset string;
  num_waiting_for_streaming_input : Z;
  kv_cache_manager : KV;
  encoder_cache_manager : EncManager;
  pause_state : PauseState;
}.
Definition set_objects (v : gmap string Request) (s : Scheduler) : Scheduler :=
  mkSched v (streaming_queues s) (requests s) (waiting s) (skipped_waiting s) (running s)
    (finished_req_ids s) (finished_req_ids_dict s) (prev_step_scheduled_req_ids s)
    (num_waiting_for_streaming_input s) (kv_cache_manager s) (encoder_cache_manager s) (pause_state
    s).
Definition set_streaming_queues (v : gmap string (list (option StreamingUpdate))) (s : Scheduler) : Scheduler :=
  mkSched (objects s) v (requests s) (waiting s) (skipped_waiting s) (running s) (finished_req_ids
    s) (finished_req_ids_dict s) (prev_step_scheduled_req_ids s) (num_waiting_for_streaming_input s)
    (kv_cache_manager s) (encoder_cache_manager s) (pause_state s).
Definition set_requests (v : list string) (s : Scheduler) : Scheduler :=
  mkSched (objects s) (streaming_queues s) v (waiting s) (skipped_waiting s) (running s)
    (finished_req_ids s) (finished_req_ids_dict s) (prev_step_scheduled_req_ids s)
    (num_waiting_for_streaming_input s) (kv_cache_manager s) (encoder_cache_manager s) (pause_state
    s).
Definition set_waiting (v : Q) (s : Scheduler) : Scheduler :=
  mkSched (objects s) (streaming_queues s) (requests s) v (skipped_waiting s) (running s)
    (finished_req_ids s) (finished_req_ids_dict s) (prev_step_scheduled_req_ids s)
    (num_waiting_for_streaming_input s) (kv_cache_manager s) (encoder_cache_manager s) (pause_state
    s).
Definition set_skipped_waiting (v : Q) (s : Scheduler) : Scheduler :=
  mkSched (objects s) (streaming_queues s) (requests s) (waiting s) v (running s) (finished_req_ids
    s) (finished_req_ids_dict s) (prev_step_scheduled_req_ids s) (num_waiting_for_streaming_input s)
    (kv_cache_manager s) (encoder_cache_manager s) (pause_state s).
Definition set_running (v : list string) (s : Scheduler) : Scheduler :=
  mkSched (objects s) (streaming_queues s) (requests s) (waiting s) (skipped_waiting s) v
    (finished_req_ids s) (finished_req_ids_dict s) (prev_step_scheduled_req_ids s)
    (num_waiting_for_streaming_input s) (kv_cache_manager s) (encoder_cache_manager s) (pause_state
    s).
Definition set_finished_req_ids (v : gset string) (s : Scheduler) : Scheduler :=
  mkSched (objects s) (streaming_queues s) (requests s) (waiting s) (skipped_waiting s) (running s)
    v (finished_req_ids_dict s) (prev_step_scheduled_req_ids s) (num_waiting_for_streaming_input s)
    (kv_cache_manager s) (encoder_cache_manager s) (pause_state s).
Definition set_finished_req_ids_dict (v : option (gmap Z (gset string))) (s : Scheduler) : Scheduler :=
  mkSched (objects s) (streaming_queues s) (requests s) (waiting s) (skipped_waiting s) (running s)
    (finished_req_ids s) v (prev_step_scheduled_req_ids s) (num_waiting_for_streaming_input s)
    (kv_cache_manager s) (encoder_cache_manager s) (pause_state s).
Definition set_prev_step_scheduled_req_ids (v : gset string) (s : Scheduler) : Scheduler :=
  mkSched (objects s) (streaming_queues s) (requests s) (waiting s) (skipped_waiting s) (running s)
    (finished_req_ids s) (finished_req_ids_dict s) v (num_waiting_for_streaming_input s)
    (kv_cache_manager s) (encoder_cache_manager s) (pause_state s).
Definition set_num_waiting_for_streaming_input (v : Z) (s : Scheduler) : Scheduler :=
  mkSched (objects s) (streaming_queues s) (requests s) (waiting s) (skipped_waiting s) (running s)
    (finished_req_ids s) (finished_req_ids_dict s) (prev_step_scheduled_req_ids s) v
    (kv_cache_manager s) (encoder_cache_manager s) (pause_state s).
Definition set_kv_cache_manager (v : KV) (s : Scheduler) : Scheduler :=
  mkSched (objects s) (streaming_queues s) (requests s) (waiting s) (skipped_waiting s) (running s)
    (finished_req_ids s) (finished_req_ids_dict s) (prev_step_scheduled_req_ids s)
    (num_waiting_for_streaming_input s) v (encoder_cache_manager s) (pause_state s).
Definition set_encoder_cache_manager (v : EncManager) (s : Scheduler) : Scheduler :=
  mkSched (objects s) (streaming_queues s) (requests s) (waiting s) (skipped_waiting s) (running s)
    (finished_req_ids s) (finished_req_ids_dict s) (prev_step_scheduled_req_ids s)
    (num_waiting_for_streaming_input s) (kv_cache_manager s) v (pause_state s).
Definition set_pause_state (v : PauseState) (s : Scheduler) : Scheduler :=
  mkSched (objects s) (streaming_queues s) (requests s) (waiting s) (skipped_waiting s) (running s)
    (finished_req_ids s) (finished_req_ids_dict s) (prev_step_scheduled_req_ids s)
    (num_waiting_for_streaming_input s) (kv_cache_manager s) (encoder_cache_manager s) v.

(** [self.requests.get(id)], [self.requests[id]] and a use of a reference. *)
Definition get_request (id : string) (s : Scheduler) : option Request :=
  if decide (id ∈ requests s) then objects s !! id else None.
Definition deref (id : string) (s : Scheduler) : result Request := of_option KeyError (objects s !! id).
Definition put (r : Request) (s : Scheduler) : Scheduler := set_objects (<[request_id r := r]> (objects s)) s.

(** The queue operations on the objects as they are. *)
Definition ops (s : Scheduler) : RequestQueue string Q := queue_ops (by_ref (objects s)).
Definition waiting_bool (s : Scheduler) : bool := @q_bool _ _ (ops s) (waiting s).
Definition skipped_bool (s : Scheduler) : bool := @q_bool _ _ (ops s) (skipped_waiting s).
Definition new_queue (s : Scheduler) : Q := @q_new _ _ (ops s).

(** The attributes [__init__] creates. *)
Definition sched_init (include_finished_set : bool) (kv : KV) (enc : EncManager) : Scheduler :=
  let q := @q_new _ _ (queue_ops (by_ref ∅)) in
  mkSched ∅ ∅ [] q q [] ∅ (if include_finished_set then Some ∅ else None) ∅ 0 kv enc UNPAUSED.

(** ** One step's bookkeeping *)

Record Step : Type := mkStep {
  scheduled_new_reqs : list string;
  scheduled_resumed_reqs : list string;
  scheduled_running_reqs : list string;
  preempted_reqs : list string;
  req_to_new_blocks : gmap string KVCacheBlocks;
  num_scheduled_tokens : list (string * Z);
  token_budget : Z;
  scheduled_encoder_inputs : gmap string (list Z);
  encoder_compute_budget : Z;
  scheduled_spec_decode_tokens : gmap string (list Z);
}.
Definition put_scheduled_new_reqs (v : list string) (t : Step) : Step :=
  mkStep v (scheduled_resumed_reqs t) (scheduled_running_reqs t) (preempted_reqs t)
    (req_to_new_blocks t) (num_scheduled_tokens t) (token_budget t) (scheduled_encoder_inputs t)
    (encoder_compute_budget t) (scheduled_spec_decode_tokens t).
Definition put_scheduled_resumed_reqs (v : list string) (t : Step) : Step :=
  mkStep (scheduled_new_reqs t) v (scheduled_running_reqs t) (preempted_reqs t) (req_to_new_blocks
    t) (num_scheduled_tokens t) (token_budget t) (scheduled_encoder_inputs t)
    (encoder_compute_budget t) (scheduled_spec_decode_tokens t).
Definition put_scheduled_running_reqs (v : list string) (t : Step) : Step :=
  mkStep (scheduled_new_reqs t) (scheduled_resumed_reqs t) v (preempted_reqs t) (req_to_new_blocks
    t) (num_scheduled_tokens t) (token_budget t) (scheduled_encoder_inputs t)
    (encoder_compute_budget t) (scheduled_spec_decode_tokens t).
Definition put_preempted_reqs (v : list string) (t : Step) : Step :=
  mkStep (scheduled_new_reqs t) (scheduled_resumed_reqs t) (scheduled_running_reqs t) v
    (req_to_new_blocks t) (num_scheduled_tokens t) (token_budget t) (scheduled_encoder_inputs t)
    (encoder_compute_budget t) (scheduled_spec_decode_tokens t).
Definition put_req_to_new_blocks (v : gmap string KVCacheBlocks) (t : Step) : Step :=
  mkStep (scheduled_new_reqs t) (scheduled_resumed_reqs t) (scheduled_running_reqs t)
    (preempted_reqs t) v (num_scheduled_tokens t) (token_budget t) (scheduled_encoder_inputs t)
    (encoder_compute_budget t) (scheduled_spec_decode_tokens t).
Definition put_num_scheduled_tokens (v : list (string * Z)) (t : Step) : Step :=
  mkStep (scheduled_new_reqs t) (scheduled_resumed_reqs t) (scheduled_running_reqs t)
    (preempted_reqs t) (req_to_new_blocks t) v (token_budget t) (scheduled_encoder_inputs t)
    (encoder_compute_budget t) (scheduled_spec_decode_tokens t).
Definition put_token_budget (v : Z) (t : Step) : Step :=
  mkStep (scheduled_new_reqs t) (scheduled_resumed_reqs t) (scheduled_running_reqs t)
    (preempted_reqs t) (req_to_new_blocks t) (num_scheduled_tokens t) v (scheduled_encoder_inputs t)
    (encoder_compute_budget t) (scheduled_spec_decode_tokens t).
Definition put_scheduled_encoder_inputs (v : gmap string (list Z)) (t : Step) : Step :=
  mkStep (scheduled_new_reqs t) (scheduled_resumed_reqs t) (scheduled_running_reqs t)
    (preempted_reqs t) (req_to_new_blocks t) (num_scheduled_tokens t) (token_budget t) v
    (encoder_compute_budget t) (scheduled_spec_decode_tokens t).
Definition put_encoder_compute_budget (v : Z) (t : Step) : Step :=
  mkStep (scheduled_new_reqs t) (scheduled_resumed_reqs t) (scheduled_running_reqs t)
    (preempted_reqs t) (req_to_new_blocks t) (num_scheduled_tokens t) (token_budget t)
    (scheduled_encoder_inputs t) v (scheduled_spec_decode_tokens t).
Definition put_scheduled_spec_decode_tokens (v : gmap string (list Z)) (t : Step) : Step :=
  mkStep (scheduled_new_reqs t) (scheduled_resumed_reqs t) (scheduled_running_reqs t)
    (preempted_reqs t) (req_to_new_blocks t) (num_scheduled_tokens t) (token_budget t)
    (scheduled_encoder_inputs t) (encoder_compute_budget t) v.

(** ** What a step sends to the workers *)

Record NewRequestData : Type := mkNew {
  nr_req_id : string;
  nr_prompt_token_ids : option (list Z);
  nr_mm_features : list MultiModalFeatureSpec;
  nr_sampling_params : option SamplingParams;
  nr_pooling_params : option PoolingParams;
  nr_block_ids : list (list Z);
  nr_num_computed_tokens : Z;
  nr_lora_request : option LoRARequest;
  nr_prefill_token_ids : option (list Z);
}.

(** [NewRequestData.from_request]. *)
Definition new_data_from_request (r : Request) (block_ids : list (list Z)) (prefill : option (list Z)) : NewRequestData :=
  mkNew (request_id r) (prompt_token_ids r) (mm_features r) (sampling_params r) (pooling_params r) block_ids
    (num_computed_tokens r) (lora_request r) prefill.

Record CachedRequestData : Type := mkCached {
  cr_req_ids : list string;
  cr_resumed_req_ids : gset string;
  cr_new_token_ids : list (list Z);
  cr_all_token_ids : gmap string (list Z);
  cr_new_block_ids : list (option (list (list Z)));
  cr_num_computed_tokens : list Z;
  cr_num_output_tokens : list Z;
}.

Record SchedulerOutput : Type := mkOut {
  out_new_reqs : list NewRequestData;
  out_cached_reqs : CachedRequestData;
  out_num_scheduled_tokens : list (string * Z);
  out_total_num_scheduled_tokens : Z;
  out_spec_decode_tokens : gmap string (list Z);
  out_encoder_inputs : gmap string (list Z);
  out_num_common_prefix_blocks : list Z;
  out_preempted_req_ids : gset string;
  out_finished_req_ids : gset string;
  out_free_encoder_mm_hashes : list string;
  out_new_block_ids_to_zero : option (list Z);
  out_has_structured_output : bool;
  out_pending_structured_output : bool;
  out_num_invalid_spec_tokens : option (gmap string Z);
}.
End State.
Arguments Scheduler : clear implicits.
