(* ===== verification/ScheduleStep.v ===== *)
(** * One scheduling step

    vllm/v1/core/sched/scheduler.py: [Scheduler.schedule] and what it calls
    ([_mamba_block_aligned_split], [_try_schedule_encoder_inputs], [_preempt_request],
    [_try_promote_blocked_waiting_request], [_make_cached_request_data],
    [_update_after_schedule]), and async_scheduler.py's [_update_after_schedule].

    The two loops of [schedule] take fuel: a turn of the first moves the index towards the
    end of [running] or preempts, a turn of the second takes a request off a queue. *)
From S2P Require Import Prelude FreeQueue Request RequestQueue EncoderCache StopConditions BlockHash BlockPool KVCacheManager SchedulerState.

Section Schedule.
Context {KV Q : Type} `{KVOps KV} `{QueueImpl Q}.
Context (cfg : SchedConfig).
Implicit Types (s : Scheduler KV Q) (t : Step) (r : Request) (id : string).

(** ** Token counts *)

(** [_mamba_block_aligned_split]. *)
Definition mamba_block_aligned_split r (num_new comp ext : Z) : result Z :=
  _ ← py_assert (ext =? 0);
  let computed := num_computed_tokens r + comp + ext in
  if computed <? Z.max (num_prompt_tokens r) (num_tokens r - 1) then
    let bs := cache_block_size cfg in
    let last0 := num_tokens r - num_tokens r mod bs in
    let last_pos := if use_eagle cfg then Z.max (last0 - bs) 0 else last0 in
    let after := computed + num_new in
    if after <? last_pos then Ok (num_new / bs * bs)
    else if (computed <? last_pos) && (last_pos <? after) then Ok (last_pos - computed)
    else Ok num_new
  else Ok num_new.

(** The async scheduler is sure that the last step reached [max_tokens]. *)
Definition surely_done r : bool :=
  (0 <? num_output_placeholders r) &&
  (num_prompt_tokens r + max_tokens r <=? num_computed_tokens r + 2 - num_output_placeholders r).

Definition cap_long_prefill (n : Z) : Z :=
  let threshold := long_prefill_token_threshold cfg in
  if (0 <? threshold) && (threshold <? n) then threshold else n.

(** The tokens a running request asks for. *)
Definition running_new_tokens r (budget : Z) : Z :=
  let n := num_tokens_with_spec r + num_output_placeholders r - num_computed_tokens r in
  Z.min (Z.min (cap_long_prefill n) budget) (max_model_len cfg - 1 - num_computed_tokens r).

(** ** Encoder inputs *)

Record EncSched : Type := mkES {
  es_inputs : list Z;
  es_hashes : gset string;
  es_embeds : Z;
  es_new : Z;
  es_budget : Z;
}.
Definition es_stop (n : Z) (es : EncSched) : EncSched := mkES (es_inputs es) (es_hashes es) (es_embeds es) n (es_budget es).

(** The loop of [_try_schedule_encoder_inputs] from feature [i] on. *)
Fixpoint encoder_loop r (computed shift i : Z) (fs : list MultiModalFeatureSpec) (es : EncSched) (enc : EncManager)
  : result (EncSched * EncManager) :=
  match fs with
  | [] => Ok (es, enc)
  | f :: fs' =>
      let pos := mm_position f in
      let start := offset pos in
      let new := es_new es in
      embeds ← get_num_embeds pos;
      if computed + new + shift <=? start then Ok (es, enc)
      else if is_encoder_decoder enc && (0 <? computed) then
        _ ← py_assert (start =? 0);
        encoder_loop r computed shift (i + 1) fs' es enc
      else if start + length_ pos <=? computed then encoder_loop r computed shift (i + 1) fs' es enc
      else
        '(cached, enc1) ← (if is_encoder_decoder enc then Ok (false, enc)
                           else if decide (identifier f ∈ es_hashes es) then Ok (true, enc)
                           else enc_check_and_update r i enc);
        if (cached : bool) then encoder_loop r computed shift (i + 1) fs' es enc1
        else if disable_chunked_mm_input cfg && (computed <? start) && (computed + new <? start + length_ pos) then
          Ok (es_stop (Z.max 0 (start - (computed + shift))) es, enc1)
        else
          '(ok, enc2) ← enc_can_allocate r i (es_budget es) (es_embeds es) enc1;
          if negb (ok : bool) then
            Ok (es_stop (if computed + shift <? start then start - (computed + shift) else 0) es, enc2)
          else
            '(cs, ce) ← get_embeds_indices_in_range pos (Z.max 0 (computed - start)) (Z.min (length_ pos) (computed + new - start));
            if ce - cs =? 0 then encoder_loop r computed shift (i + 1) fs' es enc2
            else encoder_loop r computed shift (i + 1) fs'
                   (mkES (es_inputs es ++ [i]) ({[identifier f]} ∪ es_hashes es) (es_embeds es + embeds) new (es_budget es - embeds)) enc2
  end.

(** [_try_schedule_encoder_inputs]: the inputs, the tokens, the budget. *)
Definition try_schedule_encoder_inputs r (computed new budget shift : Z) (enc : EncManager)
  : result (list Z * Z * Z * EncManager) :=
  if (new =? 0) || negb (has_encoder_inputs r) then Ok ([], new, budget, enc) else
  '(es, enc1) ← encoder_loop r computed shift 0 (mm_features r) (mkES [] ∅ 0 new budget) enc;
  Ok (es_inputs es, es_new es, es_budget es, enc1).

Definition eagle_shift : Z := if use_eagle cfg then 1 else 0.
Definition encoder_inputs_for r (computed new budget : Z) (enc : EncManager) : result (list Z * Z * Z * EncManager) :=
  if has_encoder_inputs r then try_schedule_encoder_inputs r computed new budget eagle_shift enc
  else Ok ([], new, budget, enc).

(** The encoder outputs of a scheduled request, and the budget that is left. *)
Definition commit_encoder r (inputs : list Z) (new_budget : Z) (st : Scheduler KV Q * Step) : result (Scheduler KV Q * Step) :=
  let '(s, t) := st in
  match inputs with
  | [] => Ok (s, t)
  | _ =>
      enc ← foldM (enc_allocate r) (encoder_cache_manager s) inputs;
      Ok (set_encoder_cache_manager enc s,
          put_encoder_compute_budget new_budget
            (put_scheduled_encoder_inputs (<[request_id r := inputs]> (scheduled_encoder_inputs t)) t))
  end.

(** ** Preemption *)

(** [_preempt_request]. *)
Definition preempt_request id s : result (Scheduler KV Q) :=
  r ← deref id s;
  _ ← py_assert (bool_decide (status r = RUNNING));
  kv ← kv_free r (kv_cache_manager s);
  enc ← enc_free r (encoder_cache_manager s);
  let r' := set_num_preemptions (num_preemptions r + 1) (set_spec_token_ids [] (set_num_computed_tokens 0 (set_status PREEMPTED r))) in
  let s' := put r' (set_encoder_cache_manager enc (set_kv_cache_manager kv s)) in
  Ok (set_waiting (@prepend_request _ _ (ops s') id (waiting s')) s').

(** [max(running, key=lambda r: (r.priority, r.arrival_time))]: the first greatest. *)
Definition key_lt (a b : Request) : bool :=
  (priority a <? priority b) || ((priority a =? priority b) && (arrival_time a <? arrival_time b)).
Fixpoint max_by (objs : gmap string Request) (best : string) (l : list string) : string :=
  match l with
  | [] => best
  | x :: l' =>
      let bigger := match objs !! best, objs !! x with Some a, Some b => key_lt a b | _, _ => false end in
      max_by objs (if bigger then x else best) l'
  end.

(** Undoing the schedule of a request that is preempted in the same step. *)
Definition unschedule id s t : result Step :=
  n ← of_option KeyError (dict_get id (num_scheduled_tokens t));
  _ ← of_option KeyError (req_to_new_blocks t !! id);
  r ← deref id s;
  restored ← foldM (fun acc i => k ← get_num_encoder_embeds r i; Ok (acc + k)) 0 (default [] (scheduled_encoder_inputs t !! id));
  Ok (mkStep (scheduled_new_reqs t) (scheduled_resumed_reqs t) (list_remove id (scheduled_running_reqs t)) (preempted_reqs t)
        (delete id (req_to_new_blocks t)) (dict_del id (num_scheduled_tokens t)) (token_budget t + n)
        (delete id (scheduled_encoder_inputs t)) (encoder_compute_budget t + restored) (delete id (scheduled_spec_decode_tokens t))).

(** The request to preempt, taken off [running], with the index adjusted. *)
Definition take_victim s t (idx : Z) : result (string * Scheduler KV Q * Step * Z) :=
  match queue_policy with
  | PRIORITY_policy =>
      match running s with
      | [] => Err ValueError
      | x :: l =>
          let v := max_by (objects s) x l in
          let s' := set_running (list_remove v (running s)) s in
          if decide (v ∈ scheduled_running_reqs t) then t' ← unschedule v s' t; Ok (v, s', t', idx - 1)
          else Ok (v, s', t, idx)
      end
  | FCFS_policy =>
      match last (running s) with
      | None => Err IndexError
      | Some v => Ok (v, set_running (removelast (running s)) s, t, idx)
      end
  end.

(** The [while True] around [allocate_slots]. *)
Fixpoint allocate_or_preempt (fuel : nat) id (num_new : Z) s t (idx : Z)
  : result (option KVCacheBlocks * Scheduler KV Q * Step * Z) :=
  match fuel with
  | O => Err OutOfFuel
  | S fuel' =>
      r ← deref id s;
      '(blocks, r1, kv) ← kv_allocate r num_new 0 None (num_lookahead_tokens cfg) 0 false 0 (kv_cache_manager s);
      let s1 := put r1 (set_kv_cache_manager kv s) in
      match blocks with
      | Some b => Ok (Some b, s1, t, idx)
      | None =>
          '(v, s2, t2, idx2) ← take_victim s1 t idx;
          s3 ← preempt_request v s2;
          let t3 := put_preempted_reqs (preempted_reqs t2 ++ [v]) t2 in
          if decide (v = id) then Ok (None, s3, t3, idx2)
          else allocate_or_preempt fuel' id num_new s3 t3 idx2
      end
  end.

(** ** The running requests *)

(** The speculative tokens of a scheduled running request. *)
Definition schedule_spec_tokens r (num_new : Z) t : Step :=
  let n := num_new + num_computed_tokens r - num_tokens r - num_output_placeholders r in
  if 0 <? n then
    put_scheduled_spec_decode_tokens
      (<[request_id r := take (Z.to_nat n) (spec_token_ids r)]> (scheduled_spec_decode_tokens t)) t
  else t.

(** Entering a running request in the step. *)
Definition record_running id (blocks : KVCacheBlocks) (num_new : Z) t : Step :=
  mkStep (scheduled_new_reqs t) (scheduled_resumed_reqs t) (scheduled_running_reqs t ++ [id]) (preempted_reqs t)
    (<[id := blocks]> (req_to_new_blocks t)) (dict_set id num_new (num_scheduled_tokens t)) (token_budget t - num_new)
    (scheduled_encoder_inputs t) (encoder_compute_budget t) (scheduled_spec_decode_tokens t).

(** One turn of the loop; [None] as the new index is [break]. *)
Definition running_turn (idx : Z) s t : result (option Z * Scheduler KV Q * Step) :=
  id ← py_index (running s) idx;
  r ← deref id s;
  if surely_done r then Ok (Some (idx + 1), s, t) else
  '(inputs, new1, new_budget, enc) ←
     encoder_inputs_for r (num_computed_tokens r) (running_new_tokens r (token_budget t)) (encoder_compute_budget t) (encoder_cache_manager s);
  let s1 := set_encoder_cache_manager enc s in
  num_new ← (if need_mamba_block_aligned_split cfg then mamba_block_aligned_split r new1 0 0 else Ok new1);
  if num_new =? 0 then Ok (Some (idx + 1), s1, t) else
  '(blocks, s2, t2, idx2) ← allocate_or_preempt (S (length (running s1))) id num_new s1 t idx;
  match blocks with
  | None => Ok (None, s2, t2)
  | Some b =>
      r2 ← deref id s2;
      let t3 := record_running id b num_new t2 in
      let '(s4, t4) := match spec_token_ids r2 with
                       | [] => (s2, t3)
                       | _ => (put (set_spec_token_ids [] r2) s2, schedule_spec_tokens r2 num_new t3)
                       end in
      '(s5, t5) ← commit_encoder r2 inputs new_budget (s4, t4);
      Ok (Some (idx2 + 1), s5, t5)
  end.

Fixpoint running_loop (fuel : nat) (idx : Z) s t : result (Scheduler KV Q * Step) :=
  if (idx <? zlen (running s)) && (0 <? token_budget t) then
    match fuel with
    | O => Err OutOfFuel
    | S fuel' =>
        '(next, s', t') ← running_turn idx s t;
        match next with None => Ok (s', t') | Some idx' => running_loop fuel' idx' s' t' end
    end
  else Ok (s, t).

(** ** The waiting requests *)

(** [_is_blocked_waiting_status]. *)
Definition is_blocked_waiting_status (st : RequestStatus) : bool :=
  match st with WAITING_FOR_FSM | WAITING_FOR_REMOTE_KVS | WAITING_FOR_STREAMING_REQ => true | _ => false end.

(** Whether the grammar of a structured request is compiled, which happens elsewhere. *)
Context (grammar_ready : Request -> bool).

(** [_try_promote_blocked_waiting_request]; without a connector no transfer finishes. *)
Definition try_promote id s : result (bool * Scheduler KV Q) :=
  r ← deref id s;
  match status r with
  | WAITING_FOR_REMOTE_KVS => Ok (false, s)
  | WAITING_FOR_FSM =>
      if structured_output r && grammar_ready r then Ok (true, put (set_status WAITING r) s) else Ok (false, s)
  | WAITING_FOR_STREAMING_REQ =>
      _ ← py_assert (match streaming_queues s !! id with Some (_ :: _) => false | _ => true end);
      Ok (false, s)
  | _ => Err AssertionError
  end.

(** [_select_waiting_queue_for_scheduling]. *)
Definition select_queue s : result (option which_queue) :=
  @select_waiting_queue _ _ (by_ref (objects s)) (ops s) queue_policy (waiting s) (skipped_waiting s).
Definition queue_of (w : which_queue) s : Q := match w with Waiting => waiting s | Skipped => skipped_waiting s end.
Definition pop_from (w : which_queue) s : result (string * Scheduler KV Q) :=
  '(id, q) ← @pop_request _ _ (ops s) (queue_of w s);
  Ok (id, match w with Waiting => set_waiting q s | Skipped => set_skipped_waiting q s end).

(** The LoRA constraint stands in the way of a request. *)
Definition lora_blocked (loras : gset Z) r : bool :=
  match max_loras cfg, lora_request r with
  | Some m, Some l => (Z.of_nat (size loras) =? m) && negb (bool_decide (lora_int_id l ∈ loras))
  | _, _ => false
  end.

(** The computed tokens of a waiting request: blocks, new local ones, all. *)
Definition waiting_computed r s : result (KVCacheBlocks * Z * Z * Scheduler KV Q) :=
  if num_computed_tokens r =? 0 then
    '(blocks, n, kv) ← kv_get_computed r (kv_cache_manager s);
    _ ← py_assert (n <=? num_tokens r);
    Ok (blocks, n, n, set_kv_cache_manager kv s)
  else Ok (EmptyBlocks, 0, num_computed_tokens r, s).

(** The outcome of a turn: [break], the request is skipped, or it was scheduled. *)
Inductive turn : Type :=
  | Break (s : Scheduler KV Q) (t : Step)
  | Skip (s : Scheduler KV Q) (step_skipped : Q)
  | Admit (s : Scheduler KV Q) (t : Step) (loras : gset Z).

(** From the admission of a request to the end of the turn. *)
Definition admit_waiting (w : which_queue) (num_new num_computed : Z) (inputs : list Z) (new_budget : Z) (loras : gset Z) s t
  : result turn :=
  '(id, s1) ← pop_from w s;
  r ← deref id s1;
  let s2 := set_running (running s1 ++ [id]) s1 in
  t2 ← (match status r with
        | WAITING => Ok (put_scheduled_new_reqs (scheduled_new_reqs t ++ [id]) t)
        | PREEMPTED => Ok (put_scheduled_resumed_reqs (scheduled_resumed_reqs t ++ [id]) t)
        | _ => Err RuntimeError
        end);
  let loras' := match max_loras cfg, lora_request r with Some _, Some l => {[lora_int_id l]} ∪ loras | _, _ => loras end in
  let t3 := mkStep (scheduled_new_reqs t2) (scheduled_resumed_reqs t2) (scheduled_running_reqs t2) (preempted_reqs t2)
              (<[id := kv_get_blocks id (kv_cache_manager s2)]> (req_to_new_blocks t2))
              (dict_set id num_new (num_scheduled_tokens t2)) (token_budget t2 - num_new)
              (scheduled_encoder_inputs t2) (encoder_compute_budget t2) (scheduled_spec_decode_tokens t2) in
  let r1 := set_num_computed_tokens num_computed (set_status RUNNING r) in
  let r2 := if num_cached_tokens r1 <? 0 then set_num_cached_tokens num_computed r1 else r1 in
  '(s4, t4) ← commit_encoder r2 inputs new_budget (put r2 s2, t3);
  Ok (Admit s4 t4 loras').

(** One turn of the loop over the waiting requests. *)
Definition waiting_turn (loras : gset Z) (step_skipped : Q) s t : result turn :=
  sel ← select_queue s;
  w ← of_option AssertionError sel;
  id ← @peek_request _ _ (ops s) (queue_of w s);
  r0 ← deref id s;
  '(blocked, s1) ← (if is_blocked_waiting_status (status r0)
                    then '(promoted, s1) ← try_promote id s; Ok (negb promoted, s1)
                    else Ok (false, s));
  r ← deref id s1;
  if blocked || lora_blocked loras r then
    '(x, s2) ← pop_from w s1;
    Ok (Skip s2 (@prepend_request _ _ (ops s2) id step_skipped))
  else
  '(blocks, num_local, num_computed, s2) ← waiting_computed r s1;
  let n := cap_long_prefill (num_tokens r - num_computed) in
  if negb (enable_chunked_prefill cfg) && (token_budget t <? n) then Ok (Break s2 t) else
  let n1 := Z.min n (token_budget t) in
  _ ← py_assert (0 <? n1);
  '(inputs, n2, new_budget, enc) ← encoder_inputs_for r num_computed n1 (encoder_compute_budget t) (encoder_cache_manager s2);
  let s3 := set_encoder_cache_manager enc s2 in
  if has_encoder_inputs r && (n2 =? 0) then Ok (Break s3 t) else
  num_new ← (if need_mamba_block_aligned_split cfg then mamba_block_aligned_split r n2 num_local 0 else Ok n2);
  if need_mamba_block_aligned_split cfg && (num_new =? 0) then Ok (Break s3 t) else
  let lookahead := if num_computed_tokens r =? 0 then 0 else num_lookahead_tokens cfg in
  enc_tokens ← (if is_encoder_decoder enc && has_encoder_inputs r
                then foldM (fun acc i => k ← get_num_encoder_embeds r i; Ok (acc + k)) 0 inputs
                else Ok 0);
  '(res, r1, kv) ← kv_allocate r num_new num_local (Some blocks) lookahead 0 false enc_tokens (kv_cache_manager s3);
  let s4 := put r1 (set_kv_cache_manager kv s3) in
  match res with
  | None =>
      enc' ← (if has_encoder_inputs r then enc_free r1 (encoder_cache_manager s4) else Ok (encoder_cache_manager s4));
      Ok (Break (set_encoder_cache_manager enc' s4) t)
  | Some _ => admit_waiting w num_new num_computed inputs new_budget loras s4 t
  end.

(** The loop; the request ids skipped on the way are in a queue of their own. *)
Fixpoint waiting_loop (fuel : nat) (loras : gset Z) (step_skipped : Q) s t : result (Scheduler KV Q * Step * Q) :=
  if (waiting_bool s || skipped_bool s) && (0 <? token_budget t) && negb (zlen (running s) =? max_num_running_reqs cfg) then
    match fuel with
    | O => Err OutOfFuel
    | S fuel' =>
        o ← waiting_turn loras step_skipped s t;
        match o with
        | Break s' t' => Ok (s', t', step_skipped)
        | Skip s' skipped' => waiting_loop fuel' loras skipped' s' t
        | Admit s' t' loras' => waiting_loop fuel' loras' step_skipped s' t'
        end
    end
  else Ok (s, t, step_skipped).

(** The LoRAs of the scheduled running requests. *)
Definition running_loras s t : result (gset Z) :=
  match max_loras cfg with
  | None => Ok ∅
  | Some m =>
      loras ← foldM (fun acc id => r ← deref id s;
                       Ok (match lora_request r with
                           | Some l => if 0 <? lora_int_id l then {[lora_int_id l]} ∪ acc else acc
                           | None => acc
                           end)) (∅ : gset Z) (scheduled_running_reqs t);
      _ ← py_assert (Z.of_nat (size loras) <=? m);
      Ok loras
  end.

(** The part of [schedule] on the waiting requests. *)
Definition schedule_waiting s t : result (Scheduler KV Q * Step) :=
  loras ← running_loras s t;
  if (match preempted_reqs t with [] => true | _ => false end) && bool_decide (pause_state s = UNPAUSED) then
    let fuel := Z.to_nat (@q_len _ _ (ops s) (waiting s) + @q_len _ _ (ops s) (skipped_waiting s)) in
    '(s1, t1, step_skipped) ← waiting_loop fuel loras (new_queue s) s t;
    if @q_bool _ _ (ops s1) step_skipped
    then Ok (set_skipped_waiting (@prepend_requests _ _ (ops s1) (@q_iter _ _ (ops s1) step_skipped) (skipped_waiting s1)) s1, t1)
    else Ok (s1, t1)
  else Ok (s, t).

(** ** The output of the step *)

(** [_make_cached_request_data], one request. *)
Definition cached_request_one (resumed : bool) s t (c : CachedRequestData) id : result CachedRequestData :=
  r ← deref id s;
  n ← of_option KeyError (dict_get id (num_scheduled_tokens t));
  let spec := default [] (scheduled_spec_decode_tokens t !! id) in
  let c0 := num_computed_tokens r in
  let toks := if use_pp cfg && negb (async_scheduling cfg)
              then cr_new_token_ids c ++ [py_slice (all_token_ids r) c0 (c0 + (n - zlen spec))]
              else cr_new_token_ids c in
  let in_prev := bool_decide (id ∈ prev_step_scheduled_req_ids s) in
  _ ← py_assert (negb (resumed && in_prev));
  blocks ← of_option KeyError (req_to_new_blocks t !! id);
  Ok (mkCached (cr_req_ids c ++ [id]) (if resumed then {[id]} ∪ cr_resumed_req_ids c else cr_resumed_req_ids c) toks
        (if in_prev then cr_all_token_ids c else <[id := all_token_ids r]> (cr_all_token_ids c))
        (cr_new_block_ids c ++ [kv_block_ids true blocks (kv_cache_manager s)])
        (cr_num_computed_tokens c ++ [c0])
        (cr_num_output_tokens c ++ [num_output_tokens r + num_output_placeholders r])).

Definition make_cached_request_data (resumed_reqs : list string) s t : result CachedRequestData :=
  c ← foldM (cached_request_one false s t) (mkCached [] ∅ [] ∅ [] [] []) (scheduled_running_reqs t);
  foldM (cached_request_one true s t) c resumed_reqs.

(** [NewRequestData.from_request] for each new request. *)
Definition make_new_request_data (with_tokens : bool) (reqs : list string) s t : result (list NewRequestData) :=
  foldM (fun acc id =>
           r ← deref id s;
           b ← of_option KeyError (req_to_new_blocks t !! id);
           ids ← of_option TypeError (kv_block_ids false b (kv_cache_manager s));
           Ok (acc ++ [new_data_from_request r ids (if with_tokens then Some (all_token_ids r) else None)])) [] reqs.

(** [_free_encoder_inputs]. *)
Definition free_encoder_inputs id s : result (Scheduler KV Q) :=
  r ← deref id s;
  enc ← foldM (fun enc i =>
                 f ← py_index (mm_features r) i;
                 let pos := mm_position f in
                 if (is_encoder_decoder enc && (0 <? num_computed_tokens r)) || (offset pos + length_ pos <=? num_computed_tokens r)
                 then enc_free_input r enc i else Ok enc)
              (encoder_cache_manager s) (enc_cached_ids r (encoder_cache_manager s));
  Ok (set_encoder_cache_manager enc s).

(** [Scheduler._update_after_schedule]; the flag is [has_structured_output_requests]. *)
Definition after_schedule_one (st : bool * Scheduler KV Q) (p : string * Z) : result (bool * Scheduler KV Q) :=
  let '(flag, s) := st in
  r ← of_option KeyError (get_request p.1 s);
  let c := num_computed_tokens r + p.2 in
  let chunk := c <? num_tokens r + num_output_placeholders r in
  let r' := set_is_prefill_chunk chunk (set_num_computed_tokens c r) in
  let s1 := put r' s in
  s2 ← (if has_encoder_inputs r then free_encoder_inputs p.1 s1 else Ok s1);
  Ok (flag || (structured_output r && negb chunk), s2).
Definition update_after_schedule (scheduled : list (string * Z)) s : result (bool * Scheduler KV Q) :=
  '(flag, s1) ← foldM after_schedule_one (false, s) scheduled;
  Ok (flag, set_finished_req_ids ∅ s1).

(** [AsyncScheduler._update_after_schedule] after the inherited one; the flag is
    [pending_structured_output_tokens]. *)
Definition async_after_one (spec : gmap string (list Z)) (st : bool * Scheduler KV Q) (p : string * Z)
  : result (bool * Scheduler KV Q) :=
  let '(flag, s) := st in
  r ← of_option KeyError (get_request p.1 s);
  if is_prefill_chunk r then Ok (flag, s) else
  let cur := zlen (default [] (spec !! p.1)) in
  let r' := set_spec_token_ids (replicate (Z.to_nat (num_spec_tokens cfg)) (-1))
              (set_num_output_placeholders (num_output_placeholders r + (1 + cur)) r) in
  Ok (flag || (structured_output r && (0 <? num_output_placeholders r)), put r' s).

Definition after_schedule (o : SchedulerOutput) s : result (SchedulerOutput * Scheduler KV Q) :=
  '(flag, s1) ← update_after_schedule (out_num_scheduled_tokens o) s;
  '(pending, s2) ← (if async cfg then foldM (async_after_one (out_spec_decode_tokens o)) (false, s1) (out_num_scheduled_tokens o)
                    else Ok (false, s1));
  Ok (mkOut (out_new_reqs o) (out_cached_reqs o) (out_num_scheduled_tokens o) (out_total_num_scheduled_tokens o)
        (out_spec_decode_tokens o) (out_encoder_inputs o) (out_num_common_prefix_blocks o) (out_preempted_req_ids o)
        (out_finished_req_ids o) (out_free_encoder_mm_hashes o) (out_new_block_ids_to_zero o) flag pending
        (out_num_invalid_spec_tokens o), s2).

(** From the assertions of [schedule] to its end. *)
Definition finish_schedule s t : result (SchedulerOutput * Scheduler KV Q) :=
  let total := foldr Z.add 0 (num_scheduled_tokens t).*2 in
  _ ← py_assert (total <=? max_num_scheduled_tokens cfg);
  _ ← py_assert (0 <=? token_budget t);
  _ ← py_assert (zlen (running s) <=? max_num_running_reqs cfg);
  _ ← py_assert (zlen (scheduled_new_reqs t) + zlen (scheduled_resumed_reqs t) + zlen (scheduled_running_reqs t) <=? zlen (running s));
  let '(prefix, kv1) := match running s with
                        | [] => (replicate (num_groups cfg) 0, kv_cache_manager s)
                        | id :: _ => kv_common_prefix id (kv_cache_manager s)
                        end in
  let s1 := set_kv_cache_manager kv1 s in
  let v2 := use_v2_model_runner cfg in
  let new_reqs := if v2 then scheduled_new_reqs t ++ scheduled_resumed_reqs t else scheduled_new_reqs t in
  let resumed_reqs := if v2 then [] else scheduled_resumed_reqs t in
  new_data ← make_new_request_data v2 new_reqs s1 t;
  cached ← make_cached_request_data resumed_reqs s1 t;
  let s2 := set_prev_step_scheduled_req_ids (list_to_set (num_scheduled_tokens t).*1) s1 in
  let '(ids, kv2) := if needs_kv_cache_zeroing cfg then kv_take_ids (kv_cache_manager s2) else ([], kv_cache_manager s2) in
  let '(freed, enc) := enc_freed_hashes (encoder_cache_manager s2) in
  let s3 := set_encoder_cache_manager enc (set_kv_cache_manager kv2 s2) in
  after_schedule
    (mkOut new_data cached (num_scheduled_tokens t) total (scheduled_spec_decode_tokens t) (scheduled_encoder_inputs t) prefix
       (list_to_set (preempted_reqs t)) (finished_req_ids s3) freed (match ids with [] => None | _ => Some ids end) false false None) s3.

(** [schedule]. *)
Definition first_step s : Step :=
  mkStep [] [] [] [] ∅ [] (if bool_decide (pause_state s = PAUSED_ALL) then 0 else max_num_scheduled_tokens cfg)
    ∅ (max_num_encoder_input_tokens cfg) ∅.
Definition schedule s : result (SchedulerOutput * Scheduler KV Q) :=
  let s0 := set_kv_cache_manager (kv_new_step (kv_cache_manager s)) s in
  '(s1, t1) ← running_loop (length (running s0)) 0 s0 (first_step s0);
  '(s2, t2) ← schedule_waiting s1 t1;
  finish_schedule s2 t2.
End Schedule.
