(* ===== verification/SchedulerUpdate.v ===== *)
(** * After a step, and from outside

    vllm/v1/core/sched/scheduler.py: [update_from_output] and what it calls, the draft
    tokens, adding and finishing requests, streaming sessions, resets and counters;
    async_scheduler.py's [_update_request_with_output]. *)
From S2P Require Import Prelude FreeQueue Request RequestQueue EncoderCache StopConditions BlockHash BlockPool KVCacheManager SchedulerState ScheduleStep.

(** What the model runner returns: the sampled tokens and the pooler's outputs by index,
    the index of each request. *)
Record ModelRunnerOutput : Type := mkMRO {
  req_id_to_index : gmap string Z;
  sampled_token_ids : list (list Z);
  pooler_output : list (option Z);
}.

Record EngineCoreOutput : Type := mkECO {
  eo_request_id : string;
  eo_new_token_ids : list Z;
  eo_finish_reason : option FinishReason;
  eo_pooling_output : option Z;
  eo_stop_reason : option StopReason;
  eo_num_cached_tokens : Z;
}.

(** [EngineCoreOutputs] of a client. *)
Record EngineCoreOutputs : Type := mkECOs {
  eos_outputs : list EngineCoreOutput;
  eos_finished_requests : option (gset string);
}.

(** The session object with the fields of the update. *)
Definition session_update (toks : list Z) (prompt : list Z) (mms : list MultiModalFeatureSpec) (u : StreamingUpdate) (r : Request) : Request :=
  mkRequest (request_id r) (obj_id r) (client_index r) (priority r) (su_arrival_time u) (su_sampling_params u)
    (pooling_params r) (lora_request r) (structured_output r) (status r) (stop_reason r) (max_tokens r) (Some prompt)
    (prompt_embeds r) (embeds_hashes r) (num_prompt_tokens r) [] toks (num_output_placeholders r)
    (discard_latest_async_tokens r) (spec_token_ids r) (num_computed_tokens r) (cache_salt r) mms (num_cached_tokens r)
    (is_prefill_chunk r) (num_preemptions r) (num_external_computed_tokens r) (block_hashes r) (skip_reading_prefix_cache r)
    (resumable r).
Definition set_num_prompt_tokens (v : Z) (r : Request) : Request :=
  mkRequest (request_id r) (obj_id r) (client_index r) (priority r) (arrival_time r) (sampling_params r)
    (pooling_params r) (lora_request r) (structured_output r) (status r) (stop_reason r) (max_tokens r) (prompt_token_ids r)
    (prompt_embeds r) (embeds_hashes r) v (output_token_ids r) (all_token_ids r) (num_output_placeholders r)
    (discard_latest_async_tokens r) (spec_token_ids r) (num_computed_tokens r) (cache_salt r) (mm_features r) (num_cached_tokens r)
    (is_prefill_chunk r) (num_preemptions r) (num_external_computed_tokens r) (block_hashes r) (skip_reading_prefix_cache r)
    (resumable r).

Definition shift_feature (base : Z) (f : MultiModalFeatureSpec) : MultiModalFeatureSpec :=
  mkMM (identifier f) (mkPlaceholder (offset (mm_position f) + base) (length_ (mm_position f)) (is_embed (mm_position f))).

Section Update.
Context {KV Q : Type} `{KVOps KV} `{QueueImpl Q}.
Context (cfg : SchedConfig) (hasher : option block_hasher).
Implicit Types (s : Scheduler KV Q) (r : Request) (id : string).

(** ** Requests come, wait and end *)

(** [_enqueue_waiting_request]. *)
Definition enqueue_waiting id s : result (Scheduler KV Q) :=
  r ← deref id s;
  Ok (if is_blocked_waiting_status (status r)
      then set_skipped_waiting (@add_request _ _ (ops s) id (skipped_waiting s)) s
      else set_waiting (@add_request _ _ (ops s) id (waiting s)) s).

(** [_update_request_as_session]. *)
Definition update_request_as_session id (u : StreamingUpdate) s : result (Scheduler KV Q) :=
  r ← deref id s;
  let kept := py_slice (all_token_ids r) (num_prompt_tokens r) (num_computed_tokens r) in
  let all0 := py_slice (all_token_ids r) 0 (num_computed_tokens r) in
  prompt0 ← of_option AssertionError (prompt_token_ids r);
  let mms := mm_features r ++ (shift_feature (zlen all0) <$> su_mm_features u) in
  let new := default [] (su_prompt_token_ids u) in
  let prompt := prompt0 ++ kept ++ new in
  r1 ← update_block_hashes hasher (session_update (all0 ++ new) prompt mms u r);
  let r2 := set_num_prompt_tokens (zlen prompt) r1 in
  let n := num_waiting_for_streaming_input s in
  let s1 := if decide (status r = WAITING_FOR_STREAMING_REQ) then set_num_waiting_for_streaming_input (n - 1) s else s in
  Ok (put (set_status WAITING r2) s1).

(** [_free_blocks]. *)
Definition sched_free_blocks id s : result (Scheduler KV Q) :=
  r ← deref id s;
  _ ← py_assert (is_finished r);
  kv ← kv_free r (kv_cache_manager s);
  _ ← (if decide (id ∈ requests s) then Ok tt else Err KeyError);
  Ok (set_requests (list_remove id (requests s)) (set_kv_cache_manager kv s)).

(** [_free_request]. *)
Definition free_request id s : result (Scheduler KV Q) :=
  r ← deref id s;
  _ ← py_assert (is_finished r);
  enc ← enc_free r (encoder_cache_manager s);
  let s1 := set_finished_req_ids ({[id]} ∪ finished_req_ids s) (set_encoder_cache_manager enc s) in
  let s2 := match finished_req_ids_dict s1 with
            | Some d => set_finished_req_ids_dict (Some (<[client_index r := {[id]} ∪ default ∅ (d !! client_index r)]> d)) s1
            | None => s1
            end in
  sched_free_blocks id s2.

(** [finish_requests]; the ids in the order of iteration, the result in that of the requests. *)
Definition finish_targets (ids : list string) s : list string :=
  filter (fun id => match get_request id s with Some r => negb (is_finished r) | None => false end = true) ids.
Definition finish_one (st : RequestStatus) (s : Scheduler KV Q) id : result (Scheduler KV Q) :=
  r ← deref id s; free_request id (put (set_status st r) s).
Definition finish_requests (ids : list string) (finished_status : RequestStatus) s : result (list (string * Z) * Scheduler KV Q) :=
  _ ← py_assert (is_finished_status finished_status);
  let valid := finish_targets ids s in
  let has st id := match objects s !! id with Some r => bool_decide (status r = st) | None => false end in
  let run := filter (fun id => has RUNNING id = true) valid in
  let wait := filter (fun id => has RUNNING id = false) valid in
  let streaming := zlen (filter (fun id => has WAITING_FOR_STREAMING_REQ id = true) wait) in
  let s1 := set_num_waiting_for_streaming_input (num_waiting_for_streaming_input s - streaming)
              (set_running (remove_all (running s) run) s) in
  let s2 := match wait with
            | [] => s1
            | _ => set_waiting (@remove_requests _ _ (ops s1) wait (waiting s1))
                     (set_skipped_waiting (@remove_requests _ _ (ops s1) wait (skipped_waiting s1)) s1)
            end in
  s3 ← foldM (finish_one finished_status) s2 valid;
  Ok ((fun id => (id, match objects s !! id with Some r => client_index r | None => 0 end)) <$> valid, s3).

(** [add_request]: the object comes with the call. *)
Definition sched_add_request (r : Request) s : result (Scheduler KV Q) :=
  let id := request_id r in
  match get_request id s with
  | Some existing =>
      let update := update_from_request r in
      if negb (bool_decide (status existing = WAITING_FOR_STREAMING_REQ)) then
        q ← of_option AssertionError (streaming_queues s !! id);
        Ok (set_streaming_queues (<[id := q ++ [update]]> (streaming_queues s)) s)
      else
        match update with
        | Some u => update_request_as_session id u s
        | None => '(_, s') ← finish_requests [id] FINISHED_ABORTED s; Ok s'
        end
  | None =>
      let s1 := put r (set_streaming_queues (if resumable r then <[id := []]> (streaming_queues s) else delete id (streaming_queues s)) s) in
      s2 ← enqueue_waiting id s1;
      Ok (set_requests (requests s2 ++ [id]) s2)
  end.

(** [_handle_stopped_request]. *)
Definition handle_stopped_request id s : result (bool * Scheduler KV Q) :=
  r ← deref id s;
  if negb (resumable r) then Ok (true, s) else
  match default [] (streaming_queues s !! id) with
  | None :: q => Ok (true, set_streaming_queues (<[id := q]> (streaming_queues s)) s)
  | Some u :: q =>
      s1 ← update_request_as_session id u (set_streaming_queues (<[id := q]> (streaming_queues s)) s);
      s2 ← enqueue_waiting id s1; Ok (false, s2)
  | [] =>
      let s1 := set_num_waiting_for_streaming_input (num_waiting_for_streaming_input s + 1) (put (set_status WAITING_FOR_STREAMING_REQ r) s) in
      s2 ← enqueue_waiting id s1; Ok (false, s2)
  end.

(** ** The output of the model *)

(** The loop of [_update_request_with_output]. *)
Fixpoint append_until_stop (kept toks : list Z) r : result (list Z * bool * Request) :=
  match toks with
  | [] => Ok (kept, false, r)
  | x :: toks' =>
      r1 ← append_output_token_ids hasher [x] r;
      '(stopped, r2) ← check_stop r1 (max_model_len cfg);
      if (stopped : bool) then Ok (kept ++ [x], true, r2) else append_until_stop (kept ++ [x]) toks' r2
  end.

(** [_update_request_with_output] of [Scheduler] and of [AsyncScheduler]. *)
Definition update_request_with_output id (toks : list Z) s : result (list Z * bool * Scheduler KV Q) :=
  r ← deref id s;
  if async cfg && discard_latest_async_tokens r then Ok ([], false, put (set_discard_latest_async_tokens false r) s) else
  '(new, stopped, r1) ← append_until_stop [] toks r;
  if negb (async cfg) then Ok (new, stopped, put r1 s) else
  let n := num_output_placeholders r1 - zlen new in
  _ ← py_assert (0 <=? n);
  let r2 := set_num_output_placeholders n r1 in
  if decide (status r = RUNNING) then
    '(r3, kv) ← kv_cache r2 (num_computed_tokens r2 - n) (kv_cache_manager s);
    Ok (new, stopped, put r3 (set_kv_cache_manager kv s))
  else Ok (new, stopped, put r2 s).

(** The rejected speculative tokens are taken back. *)
Definition take_back_rejected (spec generated : list Z) r : Request :=
  match spec, generated with
  | [], _ | _, [] => r
  | _, _ =>
      let rejected := zlen spec - (zlen generated - 1) in
      let r1 := if 0 <? num_computed_tokens r then set_num_computed_tokens (num_computed_tokens r - rejected) r else r in
      if 0 <? num_output_placeholders r1 then set_num_output_placeholders (num_output_placeholders r1 - rejected) r1 else r1
  end.

(** What the loop of [update_from_output] gathers: outputs by client, requests that stopped
    running, requests that stopped after they were preempted. *)
Record Gathered : Type := mkG {
  g_outputs : gmap Z (list EngineCoreOutput);
  g_stopped_running : list string;
  g_stopped_preempted : list string;
}.

Definition update_one (o : SchedulerOutput) (mro : ModelRunnerOutput) (st : Gathered * Scheduler KV Q) (p : string * Z)
  : result (Gathered * Scheduler KV Q) :=
  let '(g, s) := st in
  let id := p.1 in
  _ ← py_assert (0 <? p.2);
  match get_request id s with
  | None => Ok (g, s)
  | Some r0 =>
      if is_finished r0 then Ok (g, s) else
      idx ← of_option KeyError (req_id_to_index mro !! id);
      generated ← (match sampled_token_ids mro with [] => Ok [] | _ => py_index (sampled_token_ids mro) idx end);
      pooled ← (match pooler_output mro with [] => Ok None | _ => py_index (pooler_output mro) idx end);
      let r := take_back_rejected (default [] (out_spec_decode_tokens o !! id)) generated r0 in
      let s1 := put r s in
      '(new, stopped, s2) ← (match generated with
                             | _ :: _ => update_request_with_output id generated s1
                             | [] =>
                                 if bool_decide (is_Some (pooling_params r)) && bool_decide (is_Some pooled)
                                 then Ok ([], true, put (set_status FINISHED_STOPPED r) s1)
                                 else Ok ([], false, s1)
                             end);
      r2 ← deref id s2;
      '(reason, g1, s3) ← (if (stopped : bool) then
          '(finished, s3) ← handle_stopped_request id s2;
          s4 ← (if (finished : bool) then free_request id s3 else Ok s3);
          Ok (get_finished_reason (status r2),
              (if decide (status r = RUNNING)
               then mkG (g_outputs g) (g_stopped_running g ++ [id]) (g_stopped_preempted g)
               else mkG (g_outputs g) (g_stopped_running g) (g_stopped_preempted g ++ [id])), s4)
        else Ok (None, g, s2));
      r3 ← deref id s3;
      let out := mkECO id new reason pooled (stop_reason r3) (num_cached_tokens r3) in
      Ok (if (match new with [] => false | _ => true end) || bool_decide (is_Some pooled) || stopped
          then mkG (<[client_index r3 := default [] (g_outputs g1 !! client_index r3) ++ [out]]> (g_outputs g1))
                 (g_stopped_running g1) (g_stopped_preempted g1)
          else g1, s3)
  end.

(** [update_from_output], with the events of the KV cache it publishes. *)
Definition update_from_output (o : SchedulerOutput) (mro : ModelRunnerOutput) s
  : result (gmap Z EngineCoreOutputs * list KVCacheEvent * Scheduler KV Q) :=
  '(g, s1) ← foldM (update_one o mro) (mkG ∅ [] [], s) (out_num_scheduled_tokens o);
  let s2 := set_running (remove_all (running s1) (g_stopped_running g)) s1 in
  let s3 := match g_stopped_preempted g with
            | [] => s2
            | l => set_waiting (@remove_requests _ _ (ops s2) l (waiting s2)) s2
            end in
  let '(events, kv) := kv_take_events (kv_cache_manager s3) in
  let s4 := set_kv_cache_manager kv s3 in
  let outs := (fun l => mkECOs l None) <$> g_outputs g in
  match finished_req_ids_dict s4 with
  | Some d =>
      let merged := union_with (fun a b => Some (mkECOs (eos_outputs a) (eos_finished_requests b))) outs
                      ((fun ids => mkECOs [] (Some ids)) <$> d) in
      Ok (merged, events, set_finished_req_ids_dict (Some ∅) s4)
  | None => Ok (outs, events, s4)
  end.

(** ** Draft tokens *)

(** The structured output manager: whether the grammar of a request advances with its
    tokens, and the drafts it lets pass. *)
Context (should_advance : Request -> bool) (validate_tokens : Request -> list Z -> list Z).

(** [update_draft_token_ids]. *)
Definition update_draft_one (s : Scheduler KV Q) (p : string * list Z) : Scheduler KV Q :=
  match get_request p.1 s with
  | None => s
  | Some r =>
      if is_finished r then s
      else if is_prefill_chunk r then put (set_spec_token_ids [] r) s
      else put (set_spec_token_ids (if should_advance r then validate_tokens r p.2 else p.2) r) s
  end.
Definition update_draft_token_ids (drafts : list (string * list Z)) s : Scheduler KV Q := foldl update_draft_one s drafts.

(** [update_draft_token_ids_in_output]. *)
Definition draft_in_output_one s (st : gmap string (list Z) * gmap string Z) (p : string * list Z)
  : gmap string (list Z) * gmap string Z :=
  let '(spec, invalid) := st in
  match get_request p.1 s with
  | None => st
  | Some r =>
      if is_finished r then st else
      match default [] (spec !! p.1) with
      | [] => st
      | placeholders =>
          let n := length placeholders in
          let trimmed := take n p.2 in
          let valid := if should_advance r then validate_tokens r trimmed else trimmed in
          let missing := Z.of_nat n - zlen valid in
          (<[p.1 := valid ++ replicate (Z.to_nat missing) (-1)]> spec,
           if missing =? 0 then invalid else <[p.1 := missing]> invalid)
      end
  end.
Definition update_draft_token_ids_in_output (drafts : list (string * list Z)) (o : SchedulerOutput) s : SchedulerOutput :=
  let '(spec, invalid) := foldl (draft_in_output_one s) (out_spec_decode_tokens o, ∅) drafts in
  mkOut (out_new_reqs o) (out_cached_reqs o) (out_num_scheduled_tokens o) (out_total_num_scheduled_tokens o) spec
    (out_encoder_inputs o) (out_num_common_prefix_blocks o) (out_preempted_req_ids o) (out_finished_req_ids o)
    (out_free_encoder_mm_hashes o) (out_new_block_ids_to_zero o) (out_has_structured_output o) (out_pending_structured_output o)
    (Some invalid).

(** [get_grammar_bitmask]: the requests it passes to the manager. *)
Definition grammar_requests (o : SchedulerOutput) s : option (list string) :=
  if negb (out_has_structured_output o) then None else
  match filter (fun id => match get_request id s with
                          | Some r => structured_output r && negb (is_prefill_chunk r)
                          | None => false
                          end = true) (out_num_scheduled_tokens o).*1 with
  | [] => None
  | l => Some l
  end.

(** ** Counters and resets *)

(** [get_request_counts], [get_num_unfinished_requests], [has_finished_requests]. *)
Definition num_waiting s : Z := @q_len _ _ (ops s) (waiting s) + @q_len _ _ (ops s) (skipped_waiting s).
Definition get_request_counts s : Z * Z := (zlen (running s), num_waiting s).
Definition get_num_unfinished_requests s : Z :=
  match pause_state s with
  | PAUSED_ALL => 0
  | PAUSED_NEW => zlen (running s)
  | UNPAUSED => num_waiting s - num_waiting_for_streaming_input s + zlen (running s)
  end.
Definition has_finished_requests s : bool := 0 <? Z.of_nat (size (finished_req_ids s)).

(** The loop of [reset_prefix_cache] that preempts every running request. *)
Fixpoint preempt_all (fuel : nat) s : result (Scheduler KV Q) :=
  match last (running s) with
  | None => Ok s
  | Some id =>
      match fuel with
      | O => Err OutOfFuel
      | S fuel' =>
          s1 ← preempt_request id (set_running (removelast (running s)) s);
          r ← deref id s1;
          preempt_all fuel' (put (set_discard_latest_async_tokens true (set_num_output_placeholders 0 r)) s1)
      end
  end.

(** [reset_prefix_cache]; there is no connector to reset. *)
Definition sched_reset_prefix_cache (reset_running reset_connector : bool) s : result (bool * Scheduler KV Q) :=
  s1 ← (if reset_running
        then s1 ← preempt_all (length (running s)) s; Ok (set_prev_step_scheduled_req_ids ∅ s1)
        else Ok s);
  let '(ok, kv) := kv_reset (kv_cache_manager s1) in
  let s2 := set_kv_cache_manager kv s1 in
  if reset_running && negb ok then Err RuntimeError
  else Ok (if reset_connector then false else ok, s2).

(** [reset_encoder_cache], [set_pause_state] (the attribute's setter). *)
Definition reset_encoder_cache s : Scheduler KV Q := set_encoder_cache_manager (enc_reset (encoder_cache_manager s)) s.
End Update.
