(* ===== verification/EngineCore.v ===== *)
(** * The engine core

    vllm/v1/engine/core.py: the class [EngineCore], which joins the scheduler and the model
    executor: [step], [step_with_batch_queue], the queue of aborts, draft tokens, pausing
    and resetting; [has_requests] of vllm/v1/core/sched/interface.py.

    The executor is the environment: [Model] says what a batch returns, and what the other
    threads and the devices do while a step blocks comes with the call. *)
From S2P Require Import Prelude FreeQueue Request RequestQueue EncoderCache StopConditions BlockHash BlockPool KVCacheManager SchedulerState ScheduleStep SchedulerUpdate.

(** The configuration [EngineCore.__init__] reads, beyond that of the scheduler. *)
Record EngineConfig : Type := mkEC {
  batch_queue_size : Z;
  is_ec_consumer : bool;
  is_pooling_model : bool;
  use_spec_decode : bool;
}.

(** The future of a batch: that of [execute_model] or that of [sample_tokens] with the
    requests of the grammar bitmask. *)
Inductive BatchFuture : Type := ExecFuture | SampleFuture (grammar : option (list string)).
Record Batch : Type := mkBatch { future : BatchFuture; scheduler_output : SchedulerOutput }.
Definition Model : Type := BatchFuture -> SchedulerOutput -> ModelRunnerOutput.

Inductive PauseMode : Type := pause_abort | pause_wait | pause_keep.
#[global] Instance PauseMode_eq_dec : EqDecision PauseMode.
Proof. solve_decision. Defined.

Section Engine.
Context {KV Q : Type} `{KVOps KV} `{QueueImpl Q}.
Context (cfg : SchedConfig) (ecfg : EngineConfig) (hasher : option block_hasher) (grammar_ready : Request -> bool).
Context (should_advance : Request -> bool) (validate_tokens : Request -> list Z -> list Z).
Context (supported_task : PoolingParams -> bool).
Implicit Types (s : Scheduler KV Q) (id : string).

(** The head of [batch_queue] is its left end; [None] without a queue. *)
Record EngineCore : Type := mkEngine {
  scheduler : Scheduler KV Q;
  batch_queue : option (list Batch);
  aborts_queue : list (list string);
}.
Implicit Types e : EngineCore.
Definition set_scheduler s e : EngineCore := mkEngine s (batch_queue e) (aborts_queue e).
Definition set_batch_queue q e : EngineCore := mkEngine (scheduler e) (Some q) (aborts_queue e).

(** [__init__] around a new scheduler. *)
Definition engine_init s : EngineCore := mkEngine s (if 1 <? batch_queue_size ecfg then Some [] else None) [].

(** [has_unfinished_requests], [has_requests]. *)
Definition has_unfinished_requests s : bool := 0 <? get_num_unfinished_requests s.
Definition has_requests s : bool := has_unfinished_requests s || has_finished_requests s.

(** ** Requests *)

(** [add_request]. *)
Definition engine_add_request (r : Request) e : result EngineCore :=
  _ ← (match pooling_params r with
       | Some p => if supported_task p then Ok tt else Err ValueError
       | None => Ok tt
       end);
  s ← sched_add_request hasher r (scheduler e); Ok (set_scheduler s e).

(** [abort_requests]; [finish_requests] takes the ids as a set. *)
Definition abort_requests (ids : list string) e : result EngineCore :=
  '(_, s) ← finish_requests (remove_dups ids) FINISHED_ABORTED (scheduler e); Ok (set_scheduler s e).

(** [_process_aborts_queue], with what arrived in the queue while the model ran. *)
Definition process_aborts_queue (arrived : list (list string)) e : result EngineCore :=
  match aborts_queue e ++ arrived with
  | [] => Ok e
  | lists => abort_requests (concat lists) (mkEngine (scheduler e) (batch_queue e) [])
  end.

(** ** Steps *)

(** [step]. *)
Definition step (model : Model) (arrived : list (list string)) e : result (gmap Z EngineCoreOutputs * bool * EngineCore) :=
  if negb (has_requests (scheduler e)) then Ok (∅, false, e) else
  '(o, s1) ← schedule cfg grammar_ready (scheduler e);
  let model_output := model (SampleFuture (grammar_requests o s1)) o in
  e1 ← process_aborts_queue arrived (set_scheduler s1 e);
  '(outs, _, s2) ← update_from_output cfg hasher o model_output (scheduler e1);
  Ok (outs, 0 <? out_total_num_scheduled_tokens o, set_scheduler s2 e1).

(** [post_step]; [drafts] are what the executor hands out. *)
Definition post_step (drafts : option (list (string * list Z))) (model_executed : bool) e : EngineCore :=
  if negb (async cfg) && use_spec_decode ecfg && model_executed then
    match drafts with
    | Some d => set_scheduler (update_draft_token_ids should_advance validate_tokens d (scheduler e)) e
    | None => e
    end
  else e.

(** The first part of [step_with_batch_queue]: a new batch, when there are requests. It
    returns the queue, whether the batch has tokens, and a batch whose sampling waits. *)
Definition new_batch (queue : list Batch) s : result (list Batch * bool * option SchedulerOutput * Scheduler KV Q) :=
  '(o, s1) ← schedule cfg grammar_ready s;
  let executed := is_ec_consumer ecfg && (0 <? out_total_num_scheduled_tokens o) in
  if is_pooling_model ecfg || negb executed then Ok (mkBatch ExecFuture o :: queue, executed, None, s1)
  else if negb (out_pending_structured_output o) then Ok (mkBatch (SampleFuture (grammar_requests o s1)) o :: queue, executed, None, s1)
  else Ok (queue, executed, Some o, s1).

(** The last part: the oldest batch is waited for and its output processed, and then a
    batch whose sampling waits goes on. *)
Definition process_batch (model : Model) (arrived : list (list string)) (drafts : option (list (string * list Z)))
    (deferred : option SchedulerOutput) (queue : list Batch) (model_executed : bool) e
  : result (option (gmap Z EngineCoreOutputs) * bool * EngineCore) :=
  b ← of_option IndexError (last queue);
  e1 ← process_aborts_queue arrived (set_batch_queue (removelast queue) e);
  '(outs, _, s2) ← update_from_output cfg hasher (scheduler_output b) (model (future b) (scheduler_output b)) (scheduler e1);
  q ← (match deferred with
       | None => Ok (removelast queue)
       | Some o =>
           o' ← (if use_spec_decode ecfg
                 then d ← of_option AssertionError drafts;
                      Ok (update_draft_token_ids_in_output should_advance validate_tokens d o s2)
                 else Ok o);
           Ok (mkBatch (SampleFuture (grammar_requests o' s2)) o' :: removelast queue)
       end);
  Ok (Some outs, model_executed, set_batch_queue q (set_scheduler s2 e1)).

(** [step_with_batch_queue]; [done] says whether the oldest batch has its result already. *)
Definition step_with_batch_queue (model : Model) (done : bool) (arrived : list (list string)) (drafts : option (list (string * list Z))) e
  : result (option (gmap Z EngineCoreOutputs) * bool * EngineCore) :=
  queue ← of_option AssertionError (batch_queue e);
  _ ← py_assert (zlen queue <? batch_queue_size ecfg);
  if has_requests (scheduler e) then
    '(queue1, executed, deferred, s1) ← new_batch queue (scheduler e);
    let e1 := set_batch_queue queue1 (set_scheduler s1 e) in
    if bool_decide (deferred = None) && executed && (zlen queue1 <? batch_queue_size ecfg) && negb done
    then Ok (None, true, e1)
    else process_batch model arrived drafts deferred queue1 executed e1
  else
    match queue with
    | [] => Ok (None, false, e)
    | _ => process_batch model arrived drafts None queue false e
    end.

(** [step_fn] and [post_step], as [_process_engine_step] calls them. *)
Definition engine_step (model : Model) (done : bool) (arrived : list (list string)) (drafts : option (list (string * list Z))) e
  : result (option (gmap Z EngineCoreOutputs) * bool * EngineCore) :=
  '(outs, executed, e1) ← (match batch_queue e with
                           | None => '(outs, executed, e1) ← step model arrived e; Ok (Some outs, executed, e1)
                           | Some _ => step_with_batch_queue model done arrived drafts e
                           end);
  Ok (outs, executed, post_step drafts executed e1).

(** ** Pausing and resetting *)

(** [reset_prefix_cache], [_reset_caches] (the multi-modal receiver cache is not the
    scheduler's). *)
Definition engine_reset_prefix_cache (reset_running_requests reset_connector : bool) e : result (bool * EngineCore) :=
  '(ok, s) ← sched_reset_prefix_cache reset_running_requests reset_connector (scheduler e); Ok (ok, set_scheduler s e).
Definition reset_caches (reset_running_requests : bool) e : result EngineCore :=
  '(_, e1) ← engine_reset_prefix_cache reset_running_requests false e;
  Ok (set_scheduler (SchedulerUpdate.reset_encoder_cache (scheduler e1)) e1).

(** [pause_scheduler] of [EngineCore], [resume_scheduler], [is_scheduler_paused]. *)
Definition pause_scheduler (mode : PauseMode) (clear_cache : bool) e : result EngineCore :=
  if bool_decide (mode = pause_wait) then Err ValueError else
  s1 ← (if bool_decide (mode = pause_abort)
        then '(_, s1) ← finish_requests (requests (scheduler e)) FINISHED_ABORTED (scheduler e); Ok s1
        else Ok (scheduler e));
  let e1 := set_scheduler (set_pause_state (if bool_decide (mode = pause_keep) then PAUSED_ALL else PAUSED_NEW) s1) e in
  if clear_cache then reset_caches true e1 else Ok e1.
Definition resume_scheduler e : EngineCore := set_scheduler (set_pause_state UNPAUSED (scheduler e)) e.
Definition is_scheduler_paused e : bool := negb (bool_decide (pause_state (scheduler e) = UNPAUSED)).
End Engine.
Arguments EngineCore : clear implicits.
