(* ===== verification/SchedulerLaws.v ===== *)
(** * What the scheduler relies on

    The contracts of the components the scheduler runs over, as classes: the KV cache
    manager ([KVLaws]) and the request queues, compared by reference ([QueueLaws], met by
    both policies). *)
From Stdlib Require Import FunctionalExtensionality.
From S2P Require Import Prelude FreeQueue Heapq Request RequestQueue BlockHash BlockPool KVCacheManager SchedulerState.

(** ** The KV cache manager *)

(** Other requests keep what they hold, and every request stays hashed. *)
Record kv_frame {KV : Type} (fresh : KV -> string -> Prop) (covers : KV -> string -> Z -> Prop) (hashed : KV -> Request -> Prop)
    (mx : KV -> Z) (P : string -> Prop) (k k' : KV) : Prop := {
  fr_fresh : forall id, P id -> fresh k id -> fresh k' id;
  fr_covers : forall id n, P id -> covers k id n -> covers k' id n;
  fr_hashed : forall r, hashed k r -> hashed k' r;
  fr_max : mx k' = mx k;
}.

(** [kv_fresh k id]: the request holds nothing.  [kv_covers k id n]: it holds slots for
    its first [n] tokens.  [kv_hashed k r]: its block hashes are those of its full blocks.
    [kv_hit k r b n]: [b] are the blocks of a prefix hit of [n] tokens. *)
Class KVLaws (KV : Type) `{KVOps KV} : Type := {
  kv_ok : KV -> Prop;
  kv_fresh : KV -> string -> Prop;
  kv_covers : KV -> string -> Z -> Prop;
  kv_hashed : KV -> Request -> Prop;
  kv_hit : KV -> Request -> KVCacheBlocks -> Z -> Prop;
  kv_max : KV -> Z;
  kv_keeps := kv_frame kv_fresh kv_covers kv_hashed kv_max;
  kl_covers_le k id m n : kv_covers k id n -> m <= n -> kv_covers k id m;
  kl_hashed_update k r r' : kv_hashed k r -> request_id r' = request_id r -> all_token_ids r' = all_token_ids r ->
    block_hashes r' = block_hashes r -> mm_features r' = mm_features r -> lora_request r' = lora_request r -> cache_salt r' = cache_salt r ->
    memo_update r r' \/ (embeds_hashes r' = embeds_hashes r /\ prompt_embeds r' = prompt_embeds r) -> kv_hashed k r';
  kl_new_step k : kv_ok k -> kv_ok (kv_new_step k) /\ kv_keeps (fun _ => True) k (kv_new_step k);
  kl_computed k r : kv_ok k -> kv_hashed k r -> kv_fresh k (request_id r) -> 0 < num_tokens r ->
    exists b n k', kv_get_computed r k = Ok (b, n, k') /\ kv_ok k' /\ kv_keeps (fun _ => True) k k' /\
      0 <= n < num_tokens r /\ kv_hit k' r b n;
  kl_alloc_new k r b n new : kv_ok k -> kv_hashed k r -> kv_fresh k (request_id r) -> kv_hit k r b n ->
    num_computed_tokens r = 0 -> 0 <= n -> 0 < new -> n + new <= num_tokens r -> n + new <= kv_max k ->
    exists res r' k', kv_allocate r new n (Some b) 0 0 false 0 k = Ok (res, r', k') /\ kv_ok k' /\
      kv_keeps (fun id => id <> request_id r) k k' /\ memo_update r r' /\
      match res with Some _ => kv_covers k' (request_id r) (n + new) | None => kv_fresh k' (request_id r) end;
  kl_alloc_running k r new look : kv_ok k -> kv_hashed k r -> 0 <= num_computed_tokens r ->
    kv_covers k (request_id r) (num_computed_tokens r) -> 0 < new -> 0 <= look -> num_computed_tokens r + new <= kv_max k ->
    exists res r' k', kv_allocate r new 0 None look 0 false 0 k = Ok (res, r', k') /\ kv_ok k' /\
      kv_keeps (fun id => id <> request_id r) k k' /\ memo_update r r' /\
      match res with
      | Some _ => kv_covers k' (request_id r) (num_computed_tokens r + new)
      | None => kv_covers k' (request_id r) (num_computed_tokens r)
      end;
  kl_free k r : kv_ok k -> exists k', kv_free r k = Ok k' /\ kv_ok k' /\ kv_keeps (fun id => id <> request_id r) k k' /\
    kv_fresh k' (request_id r);
  kl_cache k r m n : kv_ok k -> kv_hashed k r -> kv_covers k (request_id r) n -> 0 <= m -> m <= n -> m <= num_tokens r ->
    exists r' k', kv_cache r m k = Ok (r', k') /\ kv_ok k' /\ kv_keeps (fun id => id <> request_id r) k k' /\ memo_update r r' /\
      (forall i, kv_covers k (request_id r) i -> kv_covers k' (request_id r) i);
  kl_common k id : kv_ok k -> kv_ok (kv_common_prefix id k).2 /\ kv_keeps (fun _ => True) k (kv_common_prefix id k).2;
  kl_take_ids k : kv_ok k -> kv_ok (kv_take_ids k).2 /\ kv_keeps (fun _ => True) k (kv_take_ids k).2;
  kl_take_events k : kv_ok k -> kv_ok (kv_take_events k).2 /\ kv_keeps (fun _ => True) k (kv_take_events k).2;
  kl_reset k : kv_ok k -> kv_ok (kv_reset k).2 /\ kv_keeps (fun _ => True) k (kv_reset k).2;
  kl_ids k b : is_Some (kv_block_ids false b k);
}.

(** [append_output_token_ids] with the hasher [h], whatever it puts in the table of digests. *)
Definition appended (toks : list Z) (r r' : Request) : Prop := exists hs memo,
  r' = set_embeds_hashes memo (set_block_hashes hs
         (set_all_token_ids (all_token_ids r ++ toks) (set_output_token_ids (output_token_ids r ++ toks) r))).

(** Tokens that are appended with the hasher [h] are hashed as the KV cache manager wants it. *)
Class HashLaws (KV : Type) `{KVLaws KV} (h : option block_hasher) : Prop :=
  hl_append k r toks : kv_ok k -> kv_hashed k r ->
    exists r', append_output_token_ids h toks r = Ok r' /\ kv_hashed k r' /\ appended toks r r'.

(** ** The queues *)

(** [queue_wf it q]: the invariant of a queue under a comparison. *)
Class QueueLaws (Q : Type) `{QueueImpl Q} : Type := {
  queue_wf : Item string -> Q -> Prop;
  queue_laws objs : @RequestQueueLaws string Q (by_ref objs) (queue_ops (by_ref objs));
  queue_laws_wf objs q : @q_wf _ _ (by_ref objs) (queue_ops (by_ref objs)) (queue_laws objs) q <-> queue_wf (by_ref objs) q;
  queue_other objs id r q : queue_wf (by_ref objs) q -> id ∉ @q_iter _ _ (queue_ops (by_ref objs)) q ->
    queue_wf (by_ref (<[id := r]> objs)) q /\
    @q_iter _ _ (queue_ops (by_ref (<[id := r]> objs))) q ≡ₚ @q_iter _ _ (queue_ops (by_ref objs)) q;
}.

#[global] Instance fcfs_queue_laws : QueueLaws (FCFSQueue string).
Proof.
  refine (@Build_QueueLaws _ fcfs_impl (fun _ _ => True) (fun objs => @fcfs_laws string (by_ref objs)) (fun objs q => iff_refl True) _).
  done.
Defined.

Lemma by_ref_lt_le objs (a b : string) : @item_lt _ (by_ref objs) a b = true -> le (@item_lt _ (by_ref objs)) a b.
Proof. apply request_lt_le. Qed.
Lemma by_ref_le_trans objs (a b c : string) :
  le (@item_lt _ (by_ref objs)) a b -> le (@item_lt _ (by_ref objs)) b c -> le (@item_lt _ (by_ref objs)) a c.
Proof. apply request_le_trans. Qed.

(** An object that is not queued does not matter to a queue. *)
Lemma is_heap_ext (lt lt' : string -> string -> bool) h :
  (forall a b, a ∈ h -> b ∈ h -> lt' a b = lt a b) -> is_heap lt h -> is_heap lt' h.
Proof.
  intros Hlt Hh i x y Hi Hp Hx Hy. unfold le. rewrite Hlt; [by apply (Hh i)|by eapply list_elem_of_lookup_2..].
Qed.

Lemma by_ref_other objs id r a b : a <> id -> b <> id ->
  @item_lt _ (by_ref (<[id := r]> objs)) a b = @item_lt _ (by_ref objs) a b.
Proof. intros Ha Hb. cbn. by rewrite !lookup_insert_ne by done. Qed.

Lemma priority_other objs id r (q : PriorityQueue string) :
  is_heap (@item_lt _ (by_ref objs)) (heap_of q) -> id ∉ @q_iter _ _ (@priority_queue _ (by_ref objs)) q ->
  is_heap (@item_lt _ (by_ref (<[id := r]> objs))) (heap_of q) /\
  @q_iter _ _ (@priority_queue _ (by_ref (<[id := r]> objs))) q ≡ₚ @q_iter _ _ (@priority_queue _ (by_ref objs)) q.
Proof.
  intros Hh. pose proof (@pq_iter_perm _ (by_ref objs) (by_ref_lt_le objs) (by_ref_le_trans objs) q Hh) as Hp. cbn. intros Hid.
  assert (Hh' : is_heap (@item_lt _ (by_ref (<[id := r]> objs))) (heap_of q)).
  { eapply is_heap_ext; [|exact Hh]. intros a b Ha Hb. apply by_ref_other; intros ->; apply Hid; by rewrite Hp. }
  split; [done|]. rewrite Hp.
  by apply (@pq_iter_perm _ (by_ref (<[id := r]> objs)) (by_ref_lt_le _) (by_ref_le_trans _)).
Qed.

#[global] Instance priority_queue_laws : QueueLaws (PriorityQueue string).
Proof.
  refine (@Build_QueueLaws _ priority_impl (fun it q => is_heap (@item_lt _ it) (heap_of q))
    (fun objs => @priority_laws string (by_ref objs) (by_ref_lt_le objs) (by_ref_le_trans objs)) (fun objs q => iff_refl _) priority_other).
Defined.

(** The comparison reads only the keys of the order. *)
Lemma by_ref_put objs id r r' : objs !! id = Some r -> same_key r r' -> by_ref (<[id := r']> objs) = by_ref objs.
Proof.
  intros Hr Hk. assert (Hlt : forall x, request_lt r x = request_lt r' x /\ request_lt x r = request_lt x r').
  { intros x. destruct (request_lt_same r r' x Hk) as [-> ->]. done. }
  pose proof Hk as (_ & _ & _ & Hid).
  unfold by_ref. f_equal; repeat (apply functional_extensionality; intros ?); rewrite ?lookup_insert;
    repeat case_decide; subst; cbn; rewrite ?Hr; cbn; rewrite <- ?(proj1 (Hlt _)), <- ?(proj2 (Hlt _)); done.
Qed.
