(* ===== verification/ScheduleSafety.v ===== *)
(** * The invariant of the scheduler

    The state invariant of [Scheduler] and the bookkeeping of one step, for text requests
    that are not streaming sessions; the running part of [schedule] keeps both. *)
From S2P Require Import Prelude FreeQueue Heapq Request RequestQueue EncoderCache StopConditions BlockHash BlockPool KVCacheManager SchedulerState ScheduleStep SchedulerUpdate SchedulerLaws.

Section Safety.
Context {KV Q : Type} `{KVLaws KV} `{QueueLaws Q}.
Context (cfg : SchedConfig).
Implicit Types (s : Scheduler KV Q) (t : Step) (r : Request) (id : string) (k : KV).

(** ** The invariant *)

(** A request that generates: its sampling parameters, the tokens it is made of, and a
    minimum length that fits the model. *)
Definition generates r : Prop := exists sp, sampling_params r = Some sp /\ num_tokens r = num_prompt_tokens r + num_output_tokens r /\
  num_prompt_tokens r + min_tokens sp <= max_model_len cfg.

Record live k id r : Prop := {
  lv_id : request_id r = id;
  lv_text : mm_features r = [];
  lv_single : resumable r = false;
  lv_hashed : kv_hashed k r;
  lv_len : 1 <= num_tokens r < max_model_len cfg;
  lv_placeholders : 0 <= num_output_placeholders r;
  lv_keep : discard_latest_async_tokens r = false;
  lv_generates : pooling_params r = None -> generates r;
}.
Record as_running k id r : Prop := {
  ar_live : live k id r;
  ar_status : status r = RUNNING;
  ar_computed : 0 <= num_computed_tokens r < max_model_len cfg;
  ar_covers : kv_covers k id (num_computed_tokens r);
}.
Record as_waiting k id r : Prop := {
  aw_live : live k id r;
  aw_status : status r ∈ [WAITING; PREEMPTED; WAITING_FOR_FSM];
  aw_computed : num_computed_tokens r = 0;
  aw_fresh : kv_fresh k id;
}.
(** A request whose last output arrived: it is not computed beyond its tokens. *)
Definition settled r : Prop := num_computed_tokens r <= num_tokens_with_spec r + num_output_placeholders r.

Definition iter s (q : Q) : list string := @q_iter _ _ (ops s) q.
Definition wf s (q : Q) : Prop := queue_wf (by_ref (objects s)) q.

(** The requests in the running state [R] and those in a waiting state [W]. *)
Record core (R W : list string) s : Prop := {
  co_keys : NoDup (requests s);
  co_part : R ++ W ≡ₚ requests s;
  co_run : forall id, id ∈ R -> exists r, objects s !! id = Some r /\ as_running (kv_cache_manager s) id r;
  co_wait : forall id, id ∈ W -> exists r, objects s !! id = Some r /\ as_waiting (kv_cache_manager s) id r;
  co_kv : kv_ok (kv_cache_manager s);
  co_max : kv_max (kv_cache_manager s) = max_model_len cfg;
  co_wq : wf s (waiting s);
  co_sq : wf s (skipped_waiting s);
  co_free : forall id, id ∉ requests s -> kv_fresh (kv_cache_manager s) id;
  co_ids : forall x y rx ry, x ∈ requests s -> y ∈ requests s -> objects s !! x = Some rx -> objects s !! y = Some ry ->
    obj_id rx = obj_id ry -> x = y;
}.

Lemma core_perm R W R' W' s : R ≡ₚ R' -> W ≡ₚ W' -> core R W s -> core R' W' s.
Proof.
  intros HR HW []. split; try done.
  - by rewrite <- HR, <- HW.
  - intros id. rewrite <- HR. auto.
  - intros id. rewrite <- HW. auto.
Qed.

Lemma core_nodup R W s : core R W s -> NoDup R /\ NoDup W /\ forall id, id ∈ R -> id ∉ W.
Proof.
  intros []. assert (Hnd : NoDup (R ++ W)) by (by rewrite co_part0). apply NoDup_app in Hnd as (? & Hd & ?).
  split_and!; [done|done|]. intros id Hi Hw. by apply (Hd id).
Qed.

(** A request is unfinished, and its status says where it is. *)
Lemma core_live R W s id : core R W s -> id ∈ R ++ W ->
  exists r, objects s !! id = Some r /\ live (kv_cache_manager s) id r /\ is_finished r = false /\
    (status r = RUNNING <-> id ∈ R) /\ (id ∈ R -> as_running (kv_cache_manager s) id r) /\ (id ∈ W -> as_waiting (kv_cache_manager s) id r).
Proof.
  intros Hc Hin. pose proof (core_nodup _ _ _ Hc) as (_ & _ & Hdis). apply elem_of_app in Hin as [Hi|Hi].
  - destruct (co_run _ _ _ Hc id Hi) as (r & Hr & Har). exists r. pose proof (ar_status _ _ _ Har) as Hst.
    split; [done|]. split; [apply Har|]. split; [unfold is_finished; by rewrite Hst|]. split; [done|]. split; [done|]. intros Hw. by destruct (Hdis id).
  - destruct (co_wait _ _ _ Hc id Hi) as (r & Hr & Haw). exists r. pose proof (aw_status _ _ _ Haw) as Hst.
    split; [done|]. split; [apply Haw|]. split; [unfold is_finished; by repeat (apply elem_of_cons in Hst as [->|Hst]; [done|]); apply elem_of_nil in Hst|].
    split; [|split; [|done]]; [|intros Hr'; by destruct (Hdis id Hr')]. split; [intros E; rewrite E in Hst; set_solver|intros Hr'; by destruct (Hdis id Hr')].
Qed.

(** Requests keep their place when the KV cache keeps them. *)
Lemma live_keep P k k' id r : kv_keeps P k k' -> live k id r -> live k' id r.
Proof. intros Hk []. split; try done. by eapply fr_hashed. Qed.
Lemma running_keep (P : string -> Prop) k k' id r : kv_keeps P k k' -> P id -> as_running k id r -> as_running k' id r.
Proof. intros Hk HP []. split; try done; [by eapply live_keep|by eapply fr_covers]. Qed.
Lemma waiting_keep (P : string -> Prop) k k' id r : kv_keeps P k k' -> P id -> as_waiting k id r -> as_waiting k' id r.
Proof. intros Hk HP []. split; try done; [by eapply live_keep|by eapply fr_fresh]. Qed.

Lemma keeps_trans P k1 k2 k3 : kv_keeps P k1 k2 -> kv_keeps P k2 k3 -> kv_keeps P k1 k3.
Proof. intros [] []. split; auto. congruence. Qed.
Lemma keeps_refl P k : kv_keeps P k k.
Proof. by split. Qed.
Lemma keeps_weaken (P P' : string -> Prop) k k' : (forall id, P' id -> P id) -> kv_keeps P k k' -> kv_keeps P' k k'.
Proof. intros Hp []. split; auto. Qed.

(** A new KV cache state that keeps every request. *)
Lemma core_kv R W s k' : core R W s -> kv_ok k' -> kv_keeps (fun _ => True) (kv_cache_manager s) k' ->
  core R W (set_kv_cache_manager k' s).
Proof.
  intros [] Hok Hk. split; cbn; try done.
  - intros id Hi. destruct (co_run0 id Hi) as (r & ? & ?). exists r. split; [done|]. by eapply running_keep.
  - intros id Hi. destruct (co_wait0 id Hi) as (r & ? & ?). exists r. split; [done|]. by eapply waiting_keep.
  - rewrite <- co_max0. apply Hk.
  - intros id Hx. eapply fr_fresh; [exact Hk|done|by apply co_free0].
Qed.

(** A changed object, with the same place in the order. *)
Definition same_place r r' : Prop := request_id r' = request_id r /\ same_key r r'.

(** What does not depend on the objects beyond their place in the order. *)
Definition same_order s s' : Prop := by_ref (objects s') = by_ref (objects s).
Lemma same_order_ops s s' : same_order s s' -> ops s' = ops s.
Proof. unfold same_order, ops. by intros ->. Qed.

(** The queues do not change when the order of the objects does not. *)
Lemma same_order_iter s s' q : same_order s s' -> iter s' q = iter s q /\ (wf s q -> wf s' q).
Proof. intros Ho. unfold iter, wf. rewrite (same_order_ops s s' Ho). rewrite Ho. done. Qed.

(** One object and what the KV cache holds for it change, and the request may move. *)
Record changes (id : string) (r r' : Request) s s' : Prop := {
  ch_object : objects s !! id = Some r;
  ch_id : request_id r = id;
  ch_place : same_place r r';
  ch_objects : objects s' = <[id := r']> (objects s);
  ch_requests : requests s' = requests s;
  ch_ok : kv_ok (kv_cache_manager s');
  ch_kv : kv_keeps (fun x => x <> id) (kv_cache_manager s) (kv_cache_manager s');
}.

Lemma changes_order id r r' s s' : changes id r r' s s' -> same_order s s'.
Proof.
  intros [Hr Hid Hp Ho _ _ _]. unfold same_order. rewrite Ho. eapply by_ref_put; [exact Hr|apply Hp].
Qed.

Lemma core_change R W R' W' s s' id r r' :
  core R W s -> changes id r r' s s' -> id ∈ R ++ W -> wf s' (waiting s') -> wf s' (skipped_waiting s') ->
  R' ++ W' ≡ₚ R ++ W -> (forall x, x <> id -> x ∈ R' -> x ∈ R) -> (forall x, x <> id -> x ∈ W' -> x ∈ W) ->
  (id ∈ R' -> as_running (kv_cache_manager s') id r') -> (id ∈ W' -> as_waiting (kv_cache_manager s') id r') ->
  core R' W' s'.
Proof.
  intros [] [Hr Hid Hp Ho Hreq Hok Hk] Hin Hw Hs Hper HR HW Hrun Hwait. split; try done.
  - by rewrite Hreq.
  - by rewrite Hper, Hreq.
  - intros x Hx. rewrite Ho, lookup_insert. case_decide as Hxi; [subst x; exists r'; auto|].
    destruct (co_run0 x) as (rx & ? & ?); [by apply HR|]. exists rx. split; [done|]. by eapply running_keep; [exact Hk|..].
  - intros x Hx. rewrite Ho, lookup_insert. case_decide as Hxi; [subst x; exists r'; auto|].
    destruct (co_wait0 x) as (rx & ? & ?); [by apply HW|]. exists rx. split; [done|]. by eapply waiting_keep; [exact Hk|..].
  - rewrite <- co_max0. apply Hk.
  - intros x. rewrite Hreq. intros Hx. eapply fr_fresh; [exact Hk| |by apply co_free0]. intros ->. apply Hx. by rewrite <- co_part0.
  - assert (Hobj : forall x rx, objects s' !! x = Some rx -> exists rx0, objects s !! x = Some rx0 /\ obj_id rx = obj_id rx0).
    { intros x rx. rewrite Ho, lookup_insert. case_decide as Hxi; [subst x; intros [= <-]; exists r; split; [done|symmetry; apply Hp]|by exists rx]. }
    intros x y rx ry. rewrite Hreq. intros Hx Hy (rx0 & Hrx & ->)%Hobj (ry0 & Hry & ->)%Hobj. eauto.
Qed.

Lemma put_changes R W s id r r' : core R W s -> objects s !! id = Some r -> request_id r = id -> same_place r r' -> changes id r r' s (put r' s).
Proof.
  intros [] Hr Hid Hp. split; try done. cbn. destruct Hp as [-> _]. by rewrite Hid.
Qed.

(** Changing an object: its state as before, or given anew. *)
Lemma core_put R W s id r r' :
  core R W s -> id ∈ R ++ W -> objects s !! id = Some r -> request_id r = id -> same_place r r' ->
  (id ∈ R -> as_running (kv_cache_manager s) id r') -> (id ∈ W -> as_waiting (kv_cache_manager s) id r') ->
  core R W (put r' s) /\ same_order s (put r' s).
Proof.
  intros Hc Hin Hr Hid Hp HR HW. pose proof (put_changes _ _ _ _ _ _ Hc Hr Hid Hp) as Hch. pose proof (changes_order _ _ _ _ _ Hch) as Ho.
  split; [|done]. eapply core_change; [exact Hc|exact Hch|exact Hin|..]; try done; by apply (same_order_iter s _ _ Ho), Hc.
Qed.

(** ** The queues of a scheduler *)

Lemma prepend_spec s id q : wf s q -> wf s (@prepend_request _ _ (ops s) id q) /\ iter s (@prepend_request _ _ (ops s) id q) ≡ₚ id :: iter s q.
Proof. intros Hq. unfold wf in *. rewrite <- !queue_laws_wf in *. by apply (@law_prepend _ _ _ _ (queue_laws (objects s))). Qed.
Lemma add_spec s id q : wf s q -> wf s (@add_request _ _ (ops s) id q) /\ iter s (@add_request _ _ (ops s) id q) ≡ₚ id :: iter s q.
Proof. intros Hq. unfold wf in *. rewrite <- !queue_laws_wf in *. by apply (@law_add _ _ _ _ (queue_laws (objects s))). Qed.
Lemma prepend_all_spec s ids q : wf s q ->
  wf s (@prepend_requests _ _ (ops s) ids q) /\ iter s (@prepend_requests _ _ (ops s) ids q) ≡ₚ ids ++ iter s q.
Proof. intros Hq. unfold wf in *. rewrite <- !queue_laws_wf in *. by apply (@law_prepend_all _ _ _ _ (queue_laws (objects s))). Qed.
Lemma pop_spec s id l q : wf s q -> iter s q = id :: l -> exists q', @pop_request _ _ (ops s) q = Ok (id, q') /\ wf s q' /\ iter s q' = l.
Proof.
  intros Hq Hi. unfold wf in *. rewrite <- queue_laws_wf in Hq. pose proof (@law_pop _ _ _ _ (queue_laws (objects s)) q Hq) as Hp.
  unfold iter, ops in *. destruct (pop_request q) as [[x q']|e]; [|destruct Hp as [_ Hp]; by rewrite Hi in Hp].
  destruct Hp as [Hw Hq']. rewrite Hi in Hq'. injection Hq' as <- ->. exists q'. by rewrite <- queue_laws_wf.
Qed.
Lemma peek_spec s id l q : wf s q -> iter s q = id :: l -> @peek_request _ _ (ops s) q = Ok id.
Proof.
  intros Hq Hi. unfold wf in *. rewrite <- queue_laws_wf in Hq. unfold iter, ops in *.
  rewrite (@law_peek _ _ _ _ (queue_laws (objects s)) q Hq). by rewrite Hi.
Qed.
Lemma bool_spec s q : wf s q -> @q_bool _ _ (ops s) q = bool_decide (iter s q <> []).
Proof. intros Hq. unfold wf in *. rewrite <- queue_laws_wf in Hq. apply (@law_bool _ _ _ _ (queue_laws (objects s)) q Hq). Qed.
Lemma len_spec s q : wf s q -> @q_len _ _ (ops s) q = zlen (iter s q).
Proof. intros Hq. unfold wf in *. rewrite <- queue_laws_wf in Hq. apply (@law_len _ _ _ _ (queue_laws (objects s)) q Hq). Qed.
Lemma new_spec s : wf s (new_queue s) /\ iter s (new_queue s) = [].
Proof.
  unfold wf, iter, new_queue. rewrite <- queue_laws_wf. apply (@law_new _ _ _ _ (queue_laws (objects s))).
Qed.

Lemma deref_Ok s id r : objects s !! id = Some r -> deref id s = Ok r.
Proof. unfold deref. by intros ->. Qed.

(** ** Frames *)

(** What no part of [schedule] before [_update_after_schedule] changes of an object. *)
Definition stable r r' : Prop := all_token_ids r' = all_token_ids r /\ num_output_placeholders r' = num_output_placeholders r.

(** What a part of a step leaves alone; [P] says which requests are not touched. *)
Record frame (P : string -> Prop) s s' : Prop := {
  sf_order : same_order s s';
  sf_requests : requests s' = requests s;
  sf_kv : kv_keeps P (kv_cache_manager s) (kv_cache_manager s');
  sf_objects : forall id, P id -> objects s' !! id = objects s !! id;
  sf_enc : encoder_cache_manager s' = encoder_cache_manager s;
  sf_pause : pause_state s' = pause_state s;
  sf_prev : prev_step_scheduled_req_ids s' = prev_step_scheduled_req_ids s;
  sf_finished : finished_req_ids s' = finished_req_ids s;
  sf_stable : forall id r, objects s !! id = Some r -> exists r', objects s' !! id = Some r' /\ stable r r';
}.

Lemma stable_same s s' : objects s' = objects s ->
  forall id r, objects s !! id = Some r -> exists r', objects s' !! id = Some r' /\ stable r r'.
Proof. intros E id r Hr. exists r. by rewrite E. Qed.
Lemma stable_insert s s' id r r' : objects s !! id = Some r -> objects s' = <[id := r']> (objects s) -> stable r r' ->
  forall x rx, objects s !! x = Some rx -> exists rx', objects s' !! x = Some rx' /\ stable rx rx'.
Proof.
  intros Hr E Hst x rx Hx. rewrite E, lookup_insert. case_decide as Hxi; [|by exists rx].
  subst x. rewrite Hr in Hx. injection Hx as <-. by exists r'.
Qed.


Lemma sframe_refl P s : frame P s s.
Proof. split; try done. by apply stable_same. Qed.
Lemma sframe_trans P s1 s2 s3 : frame P s1 s2 -> frame P s2 s3 -> frame P s1 s3.
Proof.
  intros [A1 A2 A3 A4 A5 A6 A7 A8 A9] [B1 B2 B3 B4 B5 B6 B7 B8 B9]. split.
  - exact (eq_trans B1 A1).
  - congruence.
  - by eapply keeps_trans.
  - intros id Hp. rewrite B4 by done. auto.
  - exact (eq_trans B5 A5).
  - congruence.
  - congruence.
  - congruence.
  - intros id r Hr. destruct (A9 id r Hr) as (r1 & Hr1 & T1 & P1). destruct (B9 id r1 Hr1) as (r2 & Hr2 & T2 & P2).
    exists r2. split; [done|]. split; congruence.
Qed.
Lemma frame_weaken (P P' : string -> Prop) s s' : (forall id, P' id -> P id) -> frame P s s' -> frame P' s s'.
Proof. intros Hp []. split; auto. by eapply keeps_weaken. Qed.

(** The state between the turns of a step: [E] are waiting requests in no queue of [s]. *)
Definition queued s : list string := iter s (waiting s) ++ iter s (skipped_waiting s).
Definition inv (E : list string) s : Prop := core (running s) (queued s ++ E) s.

(** ** Text requests do not use the encoder cache *)

Lemma enc_free_text r e : mm_features r = [] -> enc_free r e = Ok e.
Proof.
  intros Hm. destruct e as [m|m]; cbn; unfold ecm_free, get_cached_input_ids, ed_free; rewrite Hm; done.
Qed.

Lemma no_encoder_inputs r c new budget (e : EncManager) : mm_features r = [] ->
  encoder_inputs_for cfg r c new budget e = Ok ([], new, budget, e).
Proof. intros Hm. unfold encoder_inputs_for, has_encoder_inputs. by rewrite Hm. Qed.

Lemma enc_same s : set_encoder_cache_manager (encoder_cache_manager s) s = s.
Proof. by destruct s. Qed.

(** ** Preemption *)

Lemma preempt_spec R W s id :
  core (id :: R) W s ->
  exists s', preempt_request id s = Ok s' /\ core R (id :: W) s' /\ running s' = running s /\
    iter s' (waiting s') ≡ₚ id :: iter s (waiting s) /\ skipped_waiting s' = skipped_waiting s /\ frame (fun x => x <> id) s s'.
Proof.
  intros Hc. pose proof (core_nodup _ _ _ Hc) as (HndR & HndW & Hdis). apply NoDup_cons in HndR as [HidR HndR].
  pose proof (Hdis id ltac:(constructor)) as HidW.
  destruct (co_run _ _ _ Hc id ltac:(constructor)) as (r & Hr & [[Hid Htext Hsingle Hhash Hlen Hph Hkeepd Hgen] Hst Hcomp Hcov]).
  destruct (kl_free _ r (co_kv _ _ _ Hc)) as (k' & Hk & Hok & Hkeep & Hfresh). rewrite Hid in Hkeep, Hfresh.
  unfold preempt_request, deref. rewrite Hr. cbn [of_option mbind result_bind]. rewrite bool_decide_true by done.
  cbn [py_assert mbind result_bind]. rewrite Hk. cbn [mbind result_bind]. rewrite enc_free_text by done. cbn [mbind result_bind].
  set (r' := set_num_preemptions _ _). set (s2 := put r' _).
  assert (Hch : changes id r r' s s2) by (split; try done; cbn; by rewrite Hid). pose proof (changes_order _ _ _ _ _ Hch) as Ho.
  destruct (same_order_iter s s2 (waiting s) Ho) as [Hit Hwf]. destruct (prepend_spec s2 id (waiting s)) as [Hw2 Hi2]; [by apply Hwf, Hc|].
  eexists. split; [done|]. set (s3 := set_waiting _ s2). assert (Hch3 : changes id r r' s s3) by (by destruct Hch).
  split; [|split; [done|split; [|split; [done|]]]].
  - eapply (core_change (id :: R) W R (id :: W) s s3 id r r' Hc Hch3); try done.
    + by constructor.
    + by apply (same_order_iter s s2), Hc.
    + by rewrite <- Permutation_middle.
    + intros x _ Hx. by constructor.
    + by intros x Hx [?|?]%elem_of_cons.
    + intros _. split; [|by repeat constructor|done|done]. split; try done.
      eapply kl_hashed_update; [eapply fr_hashed; [exact Hkeep|exact Hhash]|done..|by right].
  - rewrite <- Hit. exact Hi2.
  - split; try done; [intros x Hx; rewrite (ch_objects _ _ _ _ _ Hch3); by apply lookup_insert_ne|].
    eapply stable_insert; [exact Hr|apply Hch3|done].
Qed.

Lemma preempt_inv E s v l : inv E s -> running s ≡ₚ v :: l ->
  exists s', preempt_request v (set_running l s) = Ok s' /\ inv E s' /\ running s' = l /\ frame (fun x => x <> v) s s' /\
    iter s' (waiting s') ≡ₚ v :: iter s (waiting s).
Proof.
  intros Hi Hp. assert (Hc : core (v :: l) (queued s ++ E) (set_running l s)).
  { apply (core_perm _ _ _ _ _ Hp (reflexivity _)) in Hi. by destruct Hi. }
  destruct (preempt_spec _ _ _ _ Hc) as (s' & Hs & Hc' & Hr & Hw & Hsk & Hf). cbn in Hr. exists s'. split; [done|]. split; [|split; [done|split; [|exact Hw]]].
  - unfold inv. rewrite Hr. refine (core_perm _ _ _ _ _ (reflexivity _) _ Hc'). unfold queued. rewrite Hw, Hsk. cbn.
    by rewrite (proj1 (same_order_iter _ s' (skipped_waiting s) (sf_order _ _ _ Hf))).
  - eapply sframe_trans; [|exact Hf]. split; try done. by apply stable_same.
Qed.

(** ** Slots for a running request *)

Lemma same_place_memo r memo : same_place r (set_embeds_hashes memo r).
Proof. by split. Qed.

Lemma running_memo k id r r1 : memo_update r r1 -> as_running k id r -> as_running k id r1.
Proof.
  intros Hm [[A1 A2 A3 A4 A5 A6 A7 A8] B1 B2 B3]. pose proof Hm as [[memo ->] _]. split; try done. split; try done.
  eapply kl_hashed_update; [exact A4|done..|by left].
Qed.

Lemma waiting_memo P k k' id r r1 : memo_update r r1 -> kv_keeps P k k' -> kv_fresh k' id -> as_waiting k id r -> as_waiting k' id r1.
Proof.
  intros Hm Hk Hf [[A1 A2 A3 A4 A5 A6 A7 A8] B1 B2 B3]. pose proof Hm as [[memo ->] _]. split; try done. split; try done.
  eapply kl_hashed_update; [eapply fr_hashed; [exact Hk|exact A4]|done..|by left].
Qed.

Lemma alloc_running_spec R W s id r num_new :
  core R W s -> id ∈ R -> objects s !! id = Some r -> 0 < num_new -> 0 <= num_lookahead_tokens cfg ->
  num_computed_tokens r + num_new < max_model_len cfg ->
  exists res r1 k', kv_allocate r num_new 0 None (num_lookahead_tokens cfg) 0 false 0 (kv_cache_manager s) = Ok (res, r1, k') /\
    let s1 := put r1 (set_kv_cache_manager k' s) in
    core R W s1 /\ frame (fun x => x <> id) s s1 /\ objects s1 !! id = Some r1 /\ memo_update r r1 /\
    (is_Some res -> kv_covers k' id (num_computed_tokens r + num_new)).
Proof.
  intros Hc HidR Hr Hnew Hlook Hmax. destruct (co_run _ _ _ Hc id HidR) as (r' & Hr' & Har). rewrite Hr in Hr'. injection Hr' as <-.
  pose proof Har as [[Hid Htext Hsingle Hhash Hlen Hph Hkeepd Hgen] Hst Hcomp Hcov].
  destruct (core_nodup _ _ _ Hc) as (_ & _ & Hdis). pose proof (Hdis id HidR) as HidW.
  destruct (kl_alloc_running (kv_cache_manager s) r num_new (num_lookahead_tokens cfg)) as (res & r1 & k' & Hal & Hok & Hkeep & Hmu & Hres);
    [apply Hc|done|lia|by rewrite Hid|done|done|rewrite (co_max _ _ _ Hc); lia|].
  rewrite Hid in Hkeep, Hres. exists res, r1, k'. split; [exact Hal|]. pose proof Hmu as [[memo Hm] _]. intros s1.
  assert (Hrid : request_id r1 = id) by (by rewrite Hm).
  assert (Hch : changes id r r1 s s1) by (split; try done; [rewrite Hm; apply same_place_memo|cbn; by rewrite Hrid]).
  pose proof (changes_order _ _ _ _ _ Hch) as Ho.
  split; [|split; [|split; [cbn; rewrite Hrid; apply lookup_insert_eq|split; [done|]]]].
  - eapply (core_change R W R W s s1 id r r1 Hc Hch); try done; [apply elem_of_app; by left|by apply (same_order_iter s s1 _ Ho), Hc..|].
    intros _. apply (running_memo _ _ r); [done|]. split; try done; [by eapply live_keep; [exact Hkeep|]|].
    destruct res; [eapply kl_covers_le; [exact Hres|lia]|exact Hres].
  - split; try done; [intros x Hx; rewrite (ch_objects _ _ _ _ _ Hch); by apply lookup_insert_ne|].
    eapply stable_insert; [exact Hr|apply Hch|by rewrite Hm].
  - intros [b ->]. exact Hres.
Qed.

(** ** The bookkeeping of a step *)

Definition keys t : list string := (num_scheduled_tokens t).*1.
Definition spent t : Z := foldr Z.add 0 (num_scheduled_tokens t).*2.

(** Where [n] more tokens, the last of them the speculative ones [sp], take a request. *)
Definition caught r (n : Z) (sp : list Z) : Prop :=
  num_computed_tokens r + n <= num_tokens r + num_output_placeholders r + zlen sp /\
  (sp <> [] -> num_computed_tokens r + n = num_tokens r + num_output_placeholders r + zlen sp).
Definition spec_of id t : list Z := default [] (scheduled_spec_decode_tokens t !! id).

(** [B] is the budget the step started with. *)
Record step_ok (B : Z) s t : Prop := {
  sk_keys : keys t ≡ₚ scheduled_running_reqs t ++ scheduled_new_reqs t ++ scheduled_resumed_reqs t;
  sk_nodup : NoDup (keys t);
  sk_tokens : forall id n, dict_get id (num_scheduled_tokens t) = Some n -> 0 < n /\
    exists r, objects s !! id = Some r /\ num_computed_tokens r + n < max_model_len cfg /\
      kv_covers (kv_cache_manager s) id (num_computed_tokens r + n) /\ caught r n (spec_of id t);
  sk_spec : forall id, id ∉ keys t -> scheduled_spec_decode_tokens t !! id = None;
  sk_blocks : forall id, id ∈ keys t -> is_Some (req_to_new_blocks t !! id);
  sk_budget : token_budget t + spent t = B;
  sk_left : 0 <= token_budget t;
  sk_encoder : scheduled_encoder_inputs t = ∅;
}.

Lemma step_frame (P : string -> Prop) B s s' t : step_ok B s t -> frame P s s' -> (forall id, id ∈ keys t -> P id) -> step_ok B s' t.
Proof.
  intros [] Hf HP. split; try done. intros id n Hn. destruct (sk_tokens0 id n Hn) as (? & r & Hr & ? & Hcov & ?). split; [done|].
  assert (Hp : P id) by (apply HP; apply dict_get_Some_in in Hn; by apply (list_elem_of_fmap_2 fst) in Hn).
  exists r. rewrite (sf_objects _ _ _ Hf) by done. split_and!; [done|done| |done]. by eapply fr_covers; [apply Hf|..].
Qed.

Lemma dict_del_split {V} (id : string) (n : V) (d : list (string * V)) :
  dict_get id d = Some n -> d ≡ₚ (id, n) :: dict_del id d.
Proof.
  induction d as [|[x v] d IH]; cbn; [done|]. destruct (decide (x = id)) as [->|]; [by intros [= ->]|].
  intros Hg. rewrite (IH Hg) at 1. apply perm_swap.
Qed.

Lemma foldr_add_perm (l l' : list Z) : l ≡ₚ l' -> foldr Z.add 0 l = foldr Z.add 0 l'.
Proof. induction 1; cbn; lia. Qed.

Lemma list_remove_perm (x : string) (l : list string) : x ∈ l -> l ≡ₚ x :: list_remove x l.
Proof.
  induction l as [|y l IH]; [by intros ?%elem_of_nil|]. cbn. destruct (decide (y = x)) as [->|]; [done|].
  intros [->|Hx]%elem_of_cons; [done|]. rewrite (IH Hx) at 1. apply perm_swap.
Qed.

Lemma list_remove_elem (x y : string) (l : list string) : NoDup l -> x ∈ list_remove y l <-> x ∈ l /\ x <> y.
Proof.
  intros Hnd. destruct (decide (y ∈ l)) as [Hy|Hy].
  - pose proof (list_remove_perm y l Hy) as Hp. assert (Hn2 : NoDup (y :: list_remove y l)) by (by rewrite <- Hp).
    assert (Hl : x ∈ l <-> x ∈ y :: list_remove y l) by (by rewrite <- Hp). apply NoDup_cons in Hn2 as [Hn _].
    rewrite Hl, elem_of_cons. split; [|intuition congruence]. intros Hx. split; [by right|]. by intros ->.
  - assert (E : list_remove y l = l); [|rewrite E; split; [intros Hx; split; [done|by intros ->]|by intros [? _]]].
    clear Hnd. induction l as [|z l IH]; [done|]. cbn. apply not_elem_of_cons in Hy as [Hyz Hy].
    rewrite decide_False by congruence. f_equal. by apply IH.
Qed.

(** Entering a request. *)
Lemma step_ok_add B s t t' id r n b :
  step_ok B s t -> id ∉ keys t -> objects s !! id = Some r -> 0 < n <= token_budget t ->
  num_computed_tokens r + n < max_model_len cfg -> kv_covers (kv_cache_manager s) id (num_computed_tokens r + n) ->
  num_scheduled_tokens t' = dict_set id n (num_scheduled_tokens t) -> req_to_new_blocks t' = <[id := b]> (req_to_new_blocks t) ->
  token_budget t' = token_budget t - n -> scheduled_encoder_inputs t' = scheduled_encoder_inputs t ->
  scheduled_running_reqs t' ++ scheduled_new_reqs t' ++ scheduled_resumed_reqs t' ≡ₚ
    id :: scheduled_running_reqs t ++ scheduled_new_reqs t ++ scheduled_resumed_reqs t ->
  (forall x, x <> id -> scheduled_spec_decode_tokens t' !! x = scheduled_spec_decode_tokens t !! x) -> caught r n (spec_of id t') ->
  step_ok B s t' /\ keys t' = keys t ++ [id].
Proof.
  intros [Hk Hnd Htok Hsp Hbl Hbud Hleft Henc] Hid Hr Hn Hmax Hcov En Eb Et Ee Ep Esp Hca.
  assert (Hkeys : keys t' = keys t ++ [id]) by (unfold keys in *; by rewrite En, dict_set_keys, decide_False).
  split; [|done]. split.
  - rewrite Hkeys, Ep, Hk. symmetry. apply Permutation_cons_append.
  - unfold keys in *. rewrite En. by apply dict_set_nodup.
  - intros x m. rewrite En, dict_get_set. case_decide as Hx; [subst x; intros [= <-]; split; [lia|]; by exists r|].
    unfold spec_of. rewrite Esp by done. apply Htok.
  - intros x. rewrite Hkeys, not_elem_of_app, list_elem_of_singleton. intros [Hx Hxi]. rewrite Esp by done. by apply Hsp.
  - intros x. rewrite Hkeys, elem_of_app, list_elem_of_singleton, Eb. intros Hx. rewrite lookup_insert. case_decide; [done|].
    destruct Hx as [Hx| ->]; [by apply Hbl|done].
  - unfold spent. rewrite En, Et. assert (Hs : foldr Z.add 0 (dict_set id n (num_scheduled_tokens t)).*2 = spent t + n); [|lia].
    unfold spent, keys in *. clear -Hid. revert Hid. induction (num_scheduled_tokens t) as [|[x m] d IH]; cbn; [lia|].
    intros Hid. rewrite decide_False by (intros ->; apply Hid; constructor). cbn. rewrite IH; [lia|].
    intros Hx. apply Hid. by constructor.
  - lia.
  - by rewrite Ee.
Qed.

(** Undoing the schedule of a request. *)
Lemma unschedule_spec B s t v :
  step_ok B s t -> v ∈ scheduled_running_reqs t ->
  exists t', unschedule v s t = Ok t' /\ step_ok B s t' /\ keys t ≡ₚ v :: keys t' /\ token_budget t < token_budget t' /\
    preempted_reqs t' = preempted_reqs t /\ scheduled_new_reqs t' = scheduled_new_reqs t /\
    scheduled_resumed_reqs t' = scheduled_resumed_reqs t.
Proof.
  intros [Hk Hnd Htok Hsp Hbl Hbud Hleft Henc] Hv.
  assert (Hin : v ∈ keys t) by (rewrite Hk, elem_of_app; by left).
  assert (Hg : exists n, dict_get v (num_scheduled_tokens t) = Some n).
  { destruct (dict_get v (num_scheduled_tokens t)) as [n|] eqn:E; [by exists n|]. by apply dict_get_None in E. }
  destruct Hg as [n Hg]. destruct (Htok v n Hg) as (Hn & r & Hr & _). destruct (Hbl v Hin) as [b Hb].
  unfold unschedule, deref. rewrite Hg, Hb, Hr, Henc, lookup_empty. cbn [of_option default mbind result_bind foldM].
  eexists. split; [done|]. pose proof (dict_del_split _ _ _ Hg) as Hp.
  assert (Hkp : keys t ≡ₚ v :: (dict_del v (num_scheduled_tokens t)).*1) by (unfold keys; by rewrite Hp at 1).
  split; [|split_and!; [exact Hkp|cbn; lia|done..]]. split; unfold keys; cbn.
  - apply (Permutation_cons_inv (a := v)). rewrite <- Hkp, Hk. rewrite (list_remove_perm v (scheduled_running_reqs t)) at 1 by done. done.
  - by apply dict_del_nodup.
  - intros id m. rewrite dict_get_del by done. case_decide; [done|]. unfold spec_of. cbn. rewrite lookup_delete_ne by congruence. apply Htok.
  - intros id Hid. cbn. rewrite lookup_delete. case_decide as Hd; [done|]. apply Hsp. rewrite Hkp. intros [?|?]%elem_of_cons; by subst.
  - intros id Hid. assert (Hne : v <> id). { intros ->. rewrite Hkp in Hnd. by apply NoDup_cons in Hnd as [? _]. }
    rewrite lookup_delete_ne by done. apply Hbl. rewrite Hkp. by constructor.
  - unfold spent in *. rewrite (foldr_add_perm _ ((v, n) :: dict_del v (num_scheduled_tokens t)).*2) in Hbud by (by rewrite <- Hp).
    cbn in *. lia.
  - lia.
  - by rewrite delete_empty.
Qed.
End Safety.
