(* ===== verification/ScheduleRunning.v ===== *)
(** * The running requests of a step

    [Scheduler.schedule] (vllm/v1/core/sched/scheduler.py), the loop over [running]: the
    victim of a preemption, the loop around [allocate_slots], one turn, all turns.  The
    loop ends within the fuel it gets and keeps the invariant of ScheduleSafety. *)
From S2P Require Import Prelude FreeQueue Heapq Request RequestQueue EncoderCache StopConditions BlockHash BlockPool KVCacheManager SchedulerState ScheduleStep SchedulerUpdate SchedulerLaws ScheduleSafety.

(** ** Positions in a list *)

Lemma take_sub {A} (l : list A) i j x : (i <= j)%nat -> x ∈ take i l -> x ∈ take j l.
Proof. rewrite !elem_of_take. intros Hij (k & Hk & Hlt). exists k. split; [done|lia]. Qed.
Lemma take_elem {A} (l : list A) i x : x ∈ take i l -> x ∈ l.
Proof. rewrite elem_of_take. intros (k & Hk & _). by eapply list_elem_of_lookup_2. Qed.

Lemma list_remove_take (x v : string) (l : list string) i : x ∈ take i l -> x <> v -> x ∈ take i (list_remove v l).
Proof.
  revert i. induction l as [|y l IH]; intros [|i]; cbn; [by intros ?%elem_of_nil..|].
  intros [->|Hx]%elem_of_cons Hne; [rewrite decide_False by done; constructor|].
  destruct (decide (y = v)) as [->|]; [eapply (take_sub _ i); [lia|done]|cbn; apply elem_of_cons; right; auto].
Qed.

Lemma list_remove_take_before (x v : string) (l : list string) i :
  v ∈ take (S i) l -> x ∈ take (S i) l -> x <> v -> x ∈ take i (list_remove v l).
Proof.
  revert i. induction l as [|y l IH]; intros i; [by intros ?%elem_of_nil|].
  rewrite !firstn_cons, !elem_of_cons. cbn [list_remove]. intros Hv Hx Hne. destruct (decide (y = v)) as [->|Hy].
  - destruct Hx as [?|Hx]; done.
  - destruct Hv as [?|Hv]; [by subst|]. destruct i as [|i]; [by apply elem_of_nil in Hv|]. rewrite firstn_cons, elem_of_cons.
    destruct Hx as [->|Hx]; [by left|right]. by apply IH.
Qed.

Lemma removelast_snoc {A} (l : list A) v : last l = Some v -> l = removelast l ++ [v].
Proof. intros Hl. apply last_Some in Hl as [l' ->]. by rewrite removelast_last. Qed.

Lemma length_list_remove (x : string) (l : list string) : x ∈ l -> length l = S (length (list_remove x l)).
Proof. intros Hx. by rewrite (list_remove_perm x l Hx) at 1. Qed.

Section Running.
Context {KV Q : Type} `{KVLaws KV} `{QueueLaws Q}.
Context (cfg : SchedConfig).
Implicit Types (s : Scheduler KV Q) (t : Step) (r : Request) (id : string).

(** ** The victim *)

Lemma max_by_elem (objs : gmap string Request) x l : max_by objs x l ∈ x :: l.
Proof.
  revert x. induction l as [|y l IH]; intros x; cbn; [constructor|].
  specialize (IH (if match objs !! x, objs !! y with Some a, Some b => key_lt a b | _, _ => false end then y else x)).
  destruct (match objs !! x, objs !! y with Some a, Some b => key_lt a b | _, _ => false end); set_solver.
Qed.

(** Where the loop stands: what is scheduled lies before the index, the current request
    does not, and is at the index or has moved before it. *)
Record at_index (id : string) (i : nat) s t : Prop := {
  ai_keys : forall x, x ∈ keys t -> x ∈ take i (running s);
  ai_id : id ∈ take (S i) (running s);
  ai_new : id ∉ keys t;
  ai_fcfs : queue_policy = FCFS_policy -> running s !! i = Some id;
}.

(** Two moments of a step in which requests were only unscheduled. *)
Record shrinks t t' : Prop := {
  sh_new : scheduled_new_reqs t' = scheduled_new_reqs t;
  sh_resumed : scheduled_resumed_reqs t' = scheduled_resumed_reqs t;
  sh_keys : forall x, x ∈ keys t' -> x ∈ keys t;
  sh_budget : token_budget t <= token_budget t';
}.
Lemma shrinks_refl t : shrinks t t.
Proof. by split. Qed.
Lemma shrinks_trans t1 t2 t3 : shrinks t1 t2 -> shrinks t2 t3 -> shrinks t1 t3.
Proof. intros [] []. split; [congruence..|auto|lia]. Qed.

Lemma step_ok_same B s s' t : objects s' = objects s -> kv_cache_manager s' = kv_cache_manager s ->
  step_ok cfg B s t -> step_ok cfg B s' t.
Proof. intros Ho Hk []. split; try done. by rewrite Ho, Hk. Qed.

Definition only_running t : Prop := scheduled_new_reqs t = [] /\ scheduled_resumed_reqs t = [].

Lemma keys_running B s t : step_ok cfg B s t -> only_running t -> keys t ≡ₚ scheduled_running_reqs t.
Proof. intros Hs [Hn Hr]. rewrite (sk_keys _ _ _ _ Hs), Hn, Hr. by rewrite app_nil_r. Qed.

Lemma take_victim_spec B s t id i :
  NoDup (running s) -> step_ok cfg B s t -> only_running t -> at_index id i s t ->
  exists v l t' i', take_victim s t (Z.of_nat i) = Ok (v, set_running l s, t', Z.of_nat i') /\
    running s ≡ₚ v :: l /\ step_ok cfg B s t' /\ shrinks t t' /\ preempted_reqs t' = preempted_reqs t /\ v ∉ keys t' /\
    (length l + i <= length (running s) + i')%nat /\
    (forall x, x ∈ keys t -> x <> v -> x ∈ keys t') /\
    (v <> id -> at_index id i' (set_running l s) t').
Proof.
  intros Hnd Hs Hor [Hkeys Hid Hnew Hf]. unfold take_victim. destruct queue_policy eqn:Hp.
  - destruct (last (running s)) as [v|] eqn:Hl; [|apply last_None in Hl; rewrite Hl in Hid; by rewrite take_nil, elem_of_nil in Hid].
    pose proof (removelast_snoc _ _ Hl) as Hsn. set (l := removelast (running s)) in *.
    assert (Hper : running s ≡ₚ v :: l) by (rewrite Hsn at 1; symmetry; apply Permutation_cons_append).
    specialize (Hf eq_refl). pose proof (lookup_lt_Some _ _ _ Hf) as Hi. assert (Hlen : length (running s) = S (length l)) by (by rewrite Hper).
    assert (Hle : take i (running s) = take i l) by (rewrite Hsn; apply take_app_le; lia).
    assert (Hv : v ∉ keys t).
    { intros Hin. apply Hkeys in Hin. rewrite Hle in Hin. apply take_elem in Hin. rewrite Hper in Hnd. by apply NoDup_cons in Hnd as [? _]. }
    exists v, l, t, i. split; [done|]. split; [done|]. split; [done|]. split; [apply shrinks_refl|]. split; [done|].
    split; [done|]. split; [lia|]. split; [done|]. intros Hne.
    assert (Hil : l !! i = Some id).
    { rewrite Hsn in Hf. rewrite lookup_app in Hf. destruct (l !! i) eqn:E; [done|]. apply lookup_ge_None in E.
      destruct (i - length l)%nat as [|k] eqn:Ek; cbn in Hf; [congruence|done]. }
    split; cbn; [|apply elem_of_take; exists i; split; [done|lia]|done|done]. intros x Hx. rewrite <- Hle. auto.
  - destruct (running s) as [|x0 l0] eqn:Hrun; [by rewrite take_nil, elem_of_nil in Hid|]. rewrite <- Hrun in *.
    set (v := max_by (objects s) x0 l0). set (l := list_remove v (running s)).
    assert (Hv : v ∈ running s) by (rewrite Hrun; apply max_by_elem).
    pose proof (list_remove_perm v _ Hv) as Hper. fold l in Hper. pose proof (length_list_remove v _ Hv) as Hlen. fold l in Hlen.
    assert (Hs' : step_ok cfg B (set_running l s) t) by (by eapply step_ok_same; [..|exact Hs]).
    destruct (decide (v ∈ scheduled_running_reqs t)) as [Hsch|Hsch].
    + destruct (unschedule_spec cfg B (set_running l s) t v Hs' Hsch) as (t' & Hu & Hs2 & Hkp & Hb & Hpre & Hn2 & Hr2).
      rewrite Hu. cbn [mbind result_bind].
      assert (Hvk : v ∈ keys t) by (by rewrite (keys_running B s t)). pose proof (Hkeys v Hvk) as Hvi.
      assert (Hvn : v ∉ keys t') by (pose proof (sk_nodup _ _ _ _ Hs) as Hk; rewrite Hkp in Hk; by apply NoDup_cons in Hk as [? _]).
      assert (Hsub : forall x, x ∈ keys t' -> x ∈ keys t) by (intros x Hx; rewrite Hkp; by constructor).
      destruct i as [|i]; [by rewrite elem_of_nil in Hvi|]. exists v, l, t', i. replace (Z.of_nat (S i) - 1) with (Z.of_nat i) by lia.
      split; [done|]. split; [done|]. split; [by eapply step_ok_same; [..|exact Hs2]|]. split; [split; [done..|lia]|]. split; [done|]. split; [done|].
      split; [lia|]. split; [intros x Hx Hne; rewrite Hkp in Hx; by apply elem_of_cons in Hx as [?|?]|]. intros Hne. split; cbn.
      * intros x Hx. apply list_remove_take_before; [done|auto|]. by intros ->.
      * apply list_remove_take_before; [by eapply take_sub; [|exact Hvi]; lia|done|done].
      * auto.
      * congruence.
    + assert (Hvn : v ∉ keys t) by (by rewrite (keys_running B s t)).
      exists v, l, t, i. split; [done|]. split; [done|]. split; [done|]. split; [apply shrinks_refl|]. split; [done|]. split; [done|].
      split; [lia|]. split; [done|]. intros Hne. split; cbn.
      * intros x Hx. apply list_remove_take; [auto|]. by intros ->.
      * by apply list_remove_take.
      * done.
      * congruence.
Qed.

(** ** Slots, with preemption *)

(** Running requests not yet in the step have no more tokens computed than they have. *)
Definition unscheduled_settled s t : Prop :=
  forall x, x ∈ running s -> x ∉ keys t -> exists r, objects s !! x = Some r /\ settled r.

(** The tokens of a request and how many of them are computed. *)
Definition same_tokens r r' : Prop :=
  num_computed_tokens r' = num_computed_tokens r /\ all_token_ids r' = all_token_ids r /\
  num_output_placeholders r' = num_output_placeholders r.

(** The moves of the running part. *)
Record moves s t s' t' : Prop := {
  mv_frame : frame (fun x => x ∉ running s) s s';
  mv_running : forall x, x ∈ running s' -> x ∈ running s;
  mv_quiet : preempted_reqs t' = [] -> preempted_reqs t = [] /\ waiting s' = waiting s /\ skipped_waiting s' = skipped_waiting s /\
    running s' = running s;
  mv_tokens : forall x r, x ∈ running s' -> objects s !! x = Some r -> exists r', objects s' !! x = Some r' /\ same_tokens r r';
  mv_lost : forall x, x ∈ running s -> x ∈ running s' \/ x ∈ iter s' (waiting s');
  mv_waiting : forall x, x ∈ iter s (waiting s) -> x ∈ iter s' (waiting s');
}.
Lemma moves_refl s t : moves s t s t.
Proof. split; [apply sframe_refl|done|done| |by left|done]. intros x r _ Hr. by exists r. Qed.
Lemma moves_trans s1 t1 s2 t2 s3 t3 : moves s1 t1 s2 t2 -> moves s2 t2 s3 t3 -> moves s1 t1 s3 t3.
Proof.
  intros [F1 R1 Q1 T1 L1 W1] [F2 R2 Q2 T2 L2 W2]. split; [|auto| | | |auto].
  - eapply sframe_trans; [exact F1|]. eapply frame_weaken; [|exact F2]. intros id Hn Hi. by apply Hn, R1.
  - intros Hp. destruct (Q2 Hp) as (Hp2 & -> & -> & ->). auto.
  - intros x r Hx Hr. destruct (T1 x r (R2 x Hx) Hr) as (r1 & Hr1 & E1 & E2 & E3). destruct (T2 x r1 Hx Hr1) as (r2 & Hr2 & F3 & F4 & F5).
    exists r2. split; [done|]. split_and!; congruence.
  - intros x Hx. destruct (L1 x Hx) as [?|?]; auto.
Qed.

(** One running request changes. *)
Lemma moves_change s t s' t' id r r' :
  running s' = running s -> frame (fun x => x <> id) s s' -> id ∈ running s -> objects s !! id = Some r -> objects s' !! id = Some r' ->
  same_tokens r r' -> preempted_reqs t' = preempted_reqs t -> waiting s' = waiting s -> skipped_waiting s' = skipped_waiting s ->
  moves s t s' t'.
Proof.
  intros Er Hf Hin Hr Hr' Hst Ep Ew Es. split.
  - eapply frame_weaken; [|exact Hf]. by intros x Hx ->.
  - by rewrite Er.
  - by rewrite Ep.
  - intros x rx Hx Hrx. destruct (decide (x = id)) as [->|Hne].
    + exists r'. rewrite Hr in Hrx. by injection Hrx as <-.
    + exists rx. rewrite (sf_objects _ _ _ Hf) by done. by split.
  - intros x Hx. left. by rewrite Er.
  - intros x Hx. rewrite Ew. by rewrite (proj1 (same_order_iter s s' _ (sf_order _ _ _ Hf))).
Qed.

Lemma inv_nodup E s : inv cfg E s -> NoDup (running s).
Proof. intros Hi. by apply (core_nodup _ _ _ _ Hi). Qed.

(** One preemption. *)
Lemma preempt_one B E s t id i :
  inv cfg E s -> step_ok cfg B s t -> only_running t -> at_index id i s t -> unscheduled_settled s t ->
  exists v s1 s' t1 i', take_victim s t (Z.of_nat i) = Ok (v, s1, t1, Z.of_nat i') /\ preempt_request v s1 = Ok s' /\
    let t' := put_preempted_reqs (preempted_reqs t1 ++ [v]) t1 in
    inv cfg E s' /\ step_ok cfg B s' t' /\ shrinks t t' /\ unscheduled_settled s' t' /\ moves s t s' t' /\
    length (running s) = S (length (running s')) /\ (length (running s') + i <= length (running s) + i')%nat /\
    (forall x, x ∈ keys t' -> x ∈ running s') /\ v ∈ running s /\ (v <> id -> at_index id i' s' t' /\ objects s' !! id = objects s !! id).
Proof.
  intros Hi Hs Hor Hat Hun. pose proof (inv_nodup _ _ Hi) as Hnd.
  destruct (take_victim_spec B s t id i Hnd Hs Hor Hat) as (v & l & t1 & i' & Htv & Hp & Hs1 & Hsh & Hpre & Hv & Hlen & Hk & Hne).
  destruct (preempt_inv cfg E s v l Hi Hp) as (s' & Hpr & Hi' & Hr & Hf & Hw). exists v, (set_running l s), s', t1, i'.
  split; [done|]. split; [done|]. rewrite Hp in Hnd. apply NoDup_cons in Hnd as [Hvl Hndl]. cbn zeta.
  assert (Hvk : forall x, x ∈ keys t1 -> x <> v) by (by intros x Hx ->). rewrite Hr. split_and!.
  - done.
  - assert (Hs2 : step_ok cfg B s t1) by (by eapply step_ok_same; [..|exact Hs1]). apply (step_frame cfg _ _ _ _ _ Hs2) in Hf; [|done]. by destruct Hf.
  - by destruct Hsh.
  - intros x Hx Hxk. rewrite Hr in Hx. assert (Hxv : x <> v) by (by intros ->). rewrite (sf_objects _ _ _ Hf) by done. apply Hun.
    + rewrite Hp. by constructor.
    + intros Hx'. apply Hxk. by apply Hk.
  - split.
    + eapply frame_weaken; [|exact Hf]. intros x Hx ->. apply Hx. rewrite Hp. constructor.
    + intros x Hx. rewrite Hr in Hx. rewrite Hp. by constructor.
    + cbn. intros Hn. by apply app_nil in Hn as [_ ?].
    + intros x r Hx Hrx. rewrite Hr in Hx. exists r. rewrite (sf_objects _ _ _ Hf) by (by intros ->). by split.
    + intros x Hx. rewrite Hr, Hw. rewrite Hp in Hx. apply elem_of_cons in Hx as [->|?]; [right; constructor|by left].
    + intros x Hx. rewrite Hw. by constructor.
  - by rewrite Hp.
  - done.
  - intros x Hx. assert (Hxr : x ∈ running s) by (eapply take_elem, Hat; by apply Hsh). rewrite Hp in Hxr.
    apply elem_of_cons in Hxr as [->|?]; [by apply Hv in Hx|done].
  - rewrite Hp. constructor.
  - intros Hvi. split; [|by apply (sf_objects _ _ _ Hf)]. destruct (Hne Hvi) as [A1 A2 A3 A4]. cbn in *. split; rewrite ?Hr; done.
Qed.

Lemma allocate_or_preempt_spec B E id r n fuel : forall s t i,
  (length (running s) <= fuel)%nat -> inv cfg E s -> step_ok cfg B s t -> only_running t -> at_index id i s t -> unscheduled_settled s t ->
  objects s !! id = Some r -> 0 < n -> 0 <= num_lookahead_tokens cfg -> num_computed_tokens r + n < max_model_len cfg ->
  exists res s' t' i', allocate_or_preempt cfg fuel id n s t (Z.of_nat i) = Ok (res, s', t', Z.of_nat i') /\
    inv cfg E s' /\ step_ok cfg B s' t' /\ shrinks t t' /\ unscheduled_settled s' t' /\ moves s t s' t' /\
    (length (running s') + i <= length (running s) + i')%nat /\ 
    match res with
    | Some _ => exists r', objects s' !! id = Some r' /\ memo_update r r' /\ at_index id i' s' t' /\
                  kv_covers (kv_cache_manager s') id (num_computed_tokens r + n)
    | None => forall x, x ∈ keys t' -> x ∈ running s'
    end.
Proof.
  revert r. induction fuel as [|fuel IH]; intros r s t i Hfuel Hi Hs Hor Hat Hun Hr Hn Hlook Hmax.
  { pose proof (ai_id _ _ _ _ Hat) as Hin. apply take_elem in Hin. destruct (running s); [by apply elem_of_nil in Hin|cbn in Hfuel; lia]. }
  cbn [allocate_or_preempt]. unfold deref. rewrite Hr. cbn [of_option mbind result_bind].
  assert (HidR : id ∈ running s) by (eapply take_elem, (ai_id _ _ _ _ Hat)).
  destruct (alloc_running_spec cfg _ _ s id r n Hi HidR Hr Hn Hlook Hmax) as (res & r1 & k' & Hal & Hc1 & Hf1 & Hr1 & Hmu & Hcov).
  rewrite Hal. cbn [mbind result_bind]. set (s1 := put r1 (set_kv_cache_manager k' s)) in *.
  assert (Hs1 : step_ok cfg B s1 t) by (eapply (step_frame cfg); [exact Hs|exact Hf1|]; intros x Hx ->; by apply (ai_new _ _ _ _ Hat)).
  assert (Hi1 : inv cfg E s1).
  { unfold inv, queued. rewrite !(proj1 (same_order_iter s s1 _ (sf_order _ _ _ Hf1))). exact Hc1. }
  assert (Hat1 : at_index id i s1 t) by (by destruct Hat).
  assert (Hun1 : unscheduled_settled s1 t).
  { intros x Hx Hxk. destruct (Hun x Hx Hxk) as (rx & Hrx & Hset). destruct (decide (x = id)) as [->|Hne].
    - exists r1. split; [done|]. rewrite Hr in Hrx. injection Hrx as <-. by destruct Hmu as [[memo ->] _].
    - exists rx. split; [|done]. by rewrite (sf_objects _ _ _ Hf1). }
  assert (Hmv1 : moves s t s1 t) by (eapply moves_change; [done|exact Hf1|exact HidR|exact Hr|exact Hr1|by destruct Hmu as [[memo ->] _]|done..]).
  destruct res as [b|].
  { exists (Some b), s1, t, i. split; [done|]. split_and!; [done..|apply shrinks_refl|done|done|done|]. exists r1. split_and!; try done. by apply Hcov. }
  destruct (preempt_one B E s1 t id i Hi1 Hs1 Hor Hat1 Hun1)
    as (v & s2 & s3 & t2 & i2 & Htv & Hpr & Hi3 & Hs3 & Hsh3 & Hun3 & Hmv3 & Hlen & Hmeas & Hk3 & Hv & Hne).
  rewrite Htv. cbn [mbind result_bind]. rewrite Hpr. cbn [mbind result_bind]. set (t3 := put_preempted_reqs _ t2) in *.
  assert (Hmv : moves s t s3 t3) by (by eapply moves_trans). change (running s1) with (running s) in *.
  destruct (decide (v = id)) as [->|Hvi].
  { exists None, s3, t3, i2. split_and!; done. }
  destruct (Hne Hvi) as [Hat3 Ho3]. rewrite Hr1 in Ho3. pose proof Hmu as [[memo Hmemo] _].
  assert (Hor3 : only_running t3) by (destruct Hor; split; [by rewrite (sh_new _ _ Hsh3)|by rewrite (sh_resumed _ _ Hsh3)]).
  destruct (IH r1 s3 t3 i2) as (res & s' & t' & i' & Hal' & Hi' & Hs' & Hsh' & Hun' & Hmv' & Hlen' & Hres); try done;
    [lia|by rewrite Hmemo|].
  exists res, s', t', i'. split; [done|]. split_and!; try done; [by eapply shrinks_trans|by eapply moves_trans|lia|].
  destruct res as [b|]; [|done]. destruct Hres as (r' & Hr' & Hmu' & Hat' & Hcov'). exists r'. split_and!; try done.
  - by eapply memo_update_trans.
  - by rewrite Hmemo in Hcov'.
Qed.

(** ** One turn *)

(** The tokens a running request gets. *)
Lemma running_new_bounds r budget :
  settled r -> 0 <= num_computed_tokens r < max_model_len cfg -> 0 <= budget ->
  let n := running_new_tokens cfg r budget in
  0 <= n <= budget /\ num_computed_tokens r + n < max_model_len cfg /\
  n <= num_tokens_with_spec r + num_output_placeholders r - num_computed_tokens r.
Proof.
  unfold settled, running_new_tokens, cap_long_prefill. intros Hs Hc Hb.
  destruct ((0 <? long_prefill_token_threshold cfg) && _) eqn:E; [apply andb_true_iff in E|]; lia.
Qed.

(** The speculative tokens of a request that is scheduled are gone. *)
Lemma running_no_spec k id r : as_running cfg k id r -> as_running cfg k id (set_spec_token_ids [] r).
Proof. intros [[]]. split; try done. split; try done. eapply kl_hashed_update; [done..|by right]. Qed.

Lemma inv_put E s id r r' : inv cfg E s -> id ∈ running s -> objects s !! id = Some r -> request_id r = id -> same_place r r' ->
  as_running cfg (kv_cache_manager s) id r' ->
  inv cfg E (put r' s) /\ objects (put r' s) = <[id := r']> (objects s) /\ same_order s (put r' s) /\
  (stable r r' -> frame (fun x => x <> id) s (put r' s)).
Proof.
  intros Hi Hin Hr Hid Hp Ha. destruct (core_nodup _ _ _ _ Hi) as (_ & _ & Hdis).
  destruct (core_put cfg _ _ s id r r' Hi ltac:(apply elem_of_app; by left) Hr Hid Hp) as [Hc Ho]; [done|by intros ?%(Hdis id)|].
  assert (Hobj : objects (put r' s) = <[id := r']> (objects s)) by (cbn; destruct Hp as [-> _]; by rewrite Hid).
  split; [unfold inv, queued; by rewrite !(proj1 (same_order_iter s _ _ Ho))|]. split; [done|]. split; [done|]. intros Hst. split; try done.
  - intros x Hx. rewrite Hobj. by apply lookup_insert_ne.
  - by eapply stable_insert.
Qed.

(** How far the scheduled tokens of a running request take it. *)
Lemma caught_no_spec B s t t' id r n : step_ok cfg B s t -> id ∉ keys t -> spec_token_ids r = [] ->
  scheduled_spec_decode_tokens t' = scheduled_spec_decode_tokens t ->
  n <= num_tokens_with_spec r + num_output_placeholders r - num_computed_tokens r -> caught r n (spec_of id t').
Proof.
  intros Hs Hid Hsp E. unfold num_tokens_with_spec, num_tokens, caught, spec_of, num_tokens. rewrite Hsp, E, (sk_spec _ _ _ _ Hs id Hid).
  cbn. unfold zlen. cbn. split; [lia|done].
Qed.
Lemma schedule_spec_caught B s t t1 id r n : step_ok cfg B s t -> id ∉ keys t ->
  scheduled_spec_decode_tokens t1 = scheduled_spec_decode_tokens t -> request_id r = id ->
  n <= num_tokens_with_spec r + num_output_placeholders r - num_computed_tokens r ->
  (forall x, x <> id -> scheduled_spec_decode_tokens (schedule_spec_tokens r n t1) !! x = scheduled_spec_decode_tokens t !! x) /\
  caught r n (spec_of id (schedule_spec_tokens r n t1)).
Proof.
  intros Hs Hid E Hrid. unfold num_tokens_with_spec, schedule_spec_tokens, caught, spec_of, num_tokens. cbn zeta.
  set (m := n + num_computed_tokens r - zlen (all_token_ids r) - num_output_placeholders r). intros Hn. destruct (Z.ltb_spec 0 m); cbn.
  - rewrite Hrid, lookup_insert_eq, E. cbn. split; [by intros x Hx; apply lookup_insert_ne|].
    unfold zlen in *. rewrite length_take. split; [lia|]. intros _. lia.
  - rewrite E, (sk_spec _ _ _ _ Hs id Hid). split; [done|]. cbn. unfold m, zlen in *. cbn. split; [lia|done].
Qed.

(** A request enters the step. *)
Lemma record_spec B E s t id i r n b :
  inv cfg E s -> step_ok cfg B s t -> only_running t -> at_index id i s t -> unscheduled_settled s t ->
  objects s !! id = Some r -> 0 < n <= token_budget t -> num_computed_tokens r + n < max_model_len cfg ->
  kv_covers (kv_cache_manager s) id (num_computed_tokens r + n) ->
  n <= num_tokens_with_spec r + num_output_placeholders r - num_computed_tokens r ->
  exists s' t', 
    (match spec_token_ids r with
     | [] => (s, record_running id b n t)
     | _ => (put (set_spec_token_ids [] r) s, schedule_spec_tokens r n (record_running id b n t))
     end) = (s', t') /\
    inv cfg E s' /\ step_ok cfg B s' t' /\ only_running t' /\ unscheduled_settled s' t' /\ moves s t s' t' /\ running s' = running s /\
    (forall x, x ∈ keys t' -> x ∈ take (S i) (running s')).
Proof.
  intros Hi Hs Hor Hat Hun Hr Hn Hmax Hcov Hle. pose proof (ai_new _ _ _ _ Hat) as Hid.
  assert (HidR : id ∈ running s) by (eapply take_elem, (ai_id _ _ _ _ Hat)).
  destruct (co_run _ _ _ _ Hi id HidR) as (r0 & Hr0 & Har). rewrite Hr in Hr0. injection Hr0 as <-.
  set (t1 := record_running id b n t).
  assert (Hadd : forall t', num_scheduled_tokens t' = num_scheduled_tokens t1 -> req_to_new_blocks t' = req_to_new_blocks t1 ->
    token_budget t' = token_budget t1 -> scheduled_encoder_inputs t' = scheduled_encoder_inputs t ->
    scheduled_running_reqs t' = scheduled_running_reqs t1 -> scheduled_new_reqs t' = scheduled_new_reqs t ->
    scheduled_resumed_reqs t' = scheduled_resumed_reqs t ->
    (forall x, x <> id -> scheduled_spec_decode_tokens t' !! x = scheduled_spec_decode_tokens t !! x) -> caught r n (spec_of id t') ->
    step_ok cfg B s t' /\ keys t' = keys t ++ [id] /\ only_running t').
  { intros t' E1 E2 E3 E4 E5 E6 E7 E8 E9.
    destruct (step_ok_add cfg B s t t' id r n b Hs Hid Hr Hn Hmax Hcov E1 E2 E3 E4) as [? ?]; [|done|done|].
    - rewrite E5, E6, E7. cbn. by rewrite <- Permutation_cons_append.
    - split_and!; [done..|]. destruct Hor. by split; rewrite ?E6, ?E7. }
  assert (Hlater : forall s' t', running s' = running s -> keys t' = keys t ++ [id] -> (forall x, x <> id -> objects s' !! x = objects s !! x) ->
    unscheduled_settled s' t' /\ (forall x, x ∈ keys t' -> x ∈ take (S i) (running s'))).
  { intros s' t' Er Ek Eo. split.
    - intros x Hx Hxk. rewrite Ek, not_elem_of_app, list_elem_of_singleton in Hxk. destruct Hxk as [Hxk Hxi].
      rewrite Eo by done. apply Hun; [by rewrite <- Er|done].
    - intros x. rewrite Ek, elem_of_app, list_elem_of_singleton, Er. intros [Hx| ->]; [|apply Hat].
      eapply take_sub; [|by apply (ai_keys _ _ _ _ Hat)]. lia. }
  destruct (spec_token_ids r) as [|d ds] eqn:Hsp.
  - destruct (Hadd t1) as (Hs1 & Hk1 & Hor1); [done..|by eapply caught_no_spec|]. destruct (Hlater s t1) as [? ?]; [done..|].
    exists s, t1. split_and!; try done. by eapply moves_change; [done|apply sframe_refl|exact HidR|exact Hr|exact Hr|split|..].
  - set (t2 := schedule_spec_tokens r n t1).
    destruct (schedule_spec_caught B s t t1 id r n Hs Hid) as [Hsp1 Hsp2]; [done|apply Har|done|].
    destruct (Hadd t2) as (Hs1 & Hk1 & Hor1); [unfold t2, schedule_spec_tokens; cbn zeta; by destruct (0 <? _)..|done|done|].
    destruct (inv_put E s id r (set_spec_token_ids [] r)) as (Hi' & Hobj & _ & Hf); [done..|apply Har|by split|by apply running_no_spec|].
    specialize (Hf ltac:(done)).
    destruct (Hlater (put (set_spec_token_ids [] r) s) t2) as [? ?]; [done|done|apply Hf|].
    exists (put (set_spec_token_ids [] r) s), t2. split_and!; try done.
    + destruct Hs1. split; try done. intros x m Hm. destruct (sk_tokens x m Hm) as (? & rx & Hrx & ? & ? & ?). split; [done|].
      destruct (decide (x = id)) as [->|Hx]; [|exists rx; by rewrite (sf_objects _ _ _ Hf)].
      exists (set_spec_token_ids [] r). rewrite Hr in Hrx. injection Hrx as <-. split; [|done]. cbn.
      rewrite (lv_id _ _ _ _ (ar_live _ _ _ _ Har)). apply lookup_insert_eq.
    + apply (moves_change s t _ t2 id r (set_spec_token_ids [] r)); [done|exact Hf|done|exact Hr| |by split| |done|done].
      * cbn. rewrite (lv_id _ _ _ _ (ar_live _ _ _ _ Har)). apply lookup_insert_eq.
      * unfold t2, schedule_spec_tokens. cbn zeta. by destruct (0 <? _).
Qed.
(** One turn of the loop. *)
Definition before (i : nat) s t : Prop := forall x, x ∈ keys t -> x ∈ take i (running s).

Lemma running_turn_spec B E s t i :
  need_mamba_block_aligned_split cfg = false -> 0 <= num_lookahead_tokens cfg ->
  inv cfg E s -> step_ok cfg B s t -> only_running t -> unscheduled_settled s t -> before i s t ->
  (i < length (running s))%nat -> 0 < token_budget t ->
  exists next s' t', running_turn cfg (Z.of_nat i) s t = Ok (Z.of_nat <$> next, s', t') /\
    inv cfg E s' /\ step_ok cfg B s' t' /\ only_running t' /\ unscheduled_settled s' t' /\ moves s t s' t' /\
    (forall x, x ∈ keys t' -> x ∈ running s') /\
    match next with
    | Some i' => before i' s' t' /\ (length (running s') + S i <= length (running s) + i')%nat
    | None => True
    end.
Proof.
  intros Hmamba Hlook Hi Hs Hor Hun Hb Hlt Hbud. destruct (lookup_lt_is_Some_2 _ _ Hlt) as [id Hid].
  assert (HidR : id ∈ running s) by (by eapply list_elem_of_lookup_2). pose proof (inv_nodup _ _ Hi) as Hnd.
  assert (Hnew : id ∉ keys t).
  { intros Hk. apply Hb, elem_of_take in Hk as (j & Hj & Hji). pose proof (NoDup_lookup _ _ _ _ Hnd Hid Hj). lia. }
  destruct (co_run _ _ _ _ Hi id HidR) as (r & Hr & Har). destruct (Hun id HidR Hnew) as (r0 & Hr0 & Hset).
  rewrite Hr in Hr0. injection Hr0 as <-.
  assert (Hskip : exists next s' t', Ok (Some (Z.of_nat i + 1), s, t) = Ok (Z.of_nat <$> next, s', t') /\
    inv cfg E s' /\ step_ok cfg B s' t' /\ only_running t' /\ unscheduled_settled s' t' /\ moves s t s' t' /\
    (forall x, x ∈ keys t' -> x ∈ running s') /\
    match next with
    | Some i' => before i' s' t' /\ (length (running s') + S i <= length (running s) + i')%nat
    | None => True
    end).
  { exists (Some (S i)), s, t. cbn. replace (Z.of_nat i + 1) with (Z.of_nat (S i)) by lia. split; [done|]. split_and!; try done.
    - apply moves_refl.
    - intros x Hx. by eapply take_elem, Hb.
    - intros x Hx. eapply take_sub; [|by apply Hb]. lia. }
  unfold running_turn. rewrite py_index_nonneg, Nat2Z.id, Hid by lia. cbn [of_option mbind result_bind]. rewrite (deref_Ok s id r Hr).
  cbn [mbind result_bind]. destruct (surely_done r); [exact Hskip|].
  rewrite (no_encoder_inputs cfg r) by apply Har. cbn [mbind result_bind]. rewrite Hmamba, enc_same. cbn [mbind result_bind].
  pose proof (running_new_bounds r (token_budget t) Hset (ar_computed _ _ _ _ Har) ltac:(lia)) as (Hn & Hmax & Hnle).
  set (n := running_new_tokens cfg r (token_budget t)) in *. destruct (Z.eqb_spec n 0) as [|Hn0]; [exact Hskip|].
  assert (Hat : at_index id i s t) by (split; [done|apply elem_of_take; exists i; split; [done|lia]|done|done]).
  destruct (allocate_or_preempt_spec B E id r n (S (length (running s))) s t i)
    as (res & s2 & t2 & i2 & Hal & Hi2 & Hs2 & Hsh & Hun2 & Hmv & Hlen & Hres); try done; try lia.
  rewrite Hal. cbn [mbind result_bind]. pose proof (sh_budget _ _ Hsh) as Hbud2.
  assert (Hor2 : only_running t2) by (destruct Hor; split; [by rewrite (sh_new _ _ Hsh)|by rewrite (sh_resumed _ _ Hsh)]).
  destruct res as [b|].
  - destruct Hres as (r2 & Hr2 & Hmu & Hat2 & Hcov). rewrite (deref_Ok s2 id r2 Hr2). cbn [mbind result_bind].
    pose proof Hmu as [[memo Hmemo] _].
    destruct (record_spec B E s2 t2 id i2 r2 n b) as (s4 & t4 & Heq & Hi4 & Hs4 & Hor4 & Hun4 & Hmv4 & Hrun4 & Hk4); try done;
      [lia|by rewrite Hmemo|by rewrite Hmemo|by rewrite Hmemo|].
    rewrite Heq. cbn. exists (Some (S i2)), s4, t4. cbn. replace (Z.of_nat i2 + 1) with (Z.of_nat (S i2)) by lia.
    split; [done|]. split_and!; try done; [by eapply moves_trans| |rewrite Hrun4; lia].
    intros x Hx. by eapply take_elem, Hk4.
  - exists None, s2, t2. by split_and!.
Qed.

(** The loop. *)
Lemma running_loop_spec B E fuel : forall s t i,
  need_mamba_block_aligned_split cfg = false -> 0 <= num_lookahead_tokens cfg ->
  inv cfg E s -> step_ok cfg B s t -> only_running t -> unscheduled_settled s t -> before i s t ->
  (length (running s) <= fuel + i)%nat ->
  exists s' t', running_loop cfg fuel (Z.of_nat i) s t = Ok (s', t') /\
    inv cfg E s' /\ step_ok cfg B s' t' /\ only_running t' /\ unscheduled_settled s' t' /\ moves s t s' t' /\
    (forall x, x ∈ keys t' -> x ∈ running s').
Proof.
  induction fuel as [|fuel IH]; intros s t i Hm Hl Hi Hs Hor Hun Hb Hfuel; cbn [running_loop];
    destruct ((Z.of_nat i <? zlen (running s)) && (0 <? token_budget t)) eqn:Hc;
    try (exists s, t; split_and!; try done; [apply moves_refl|intros x Hx; by eapply take_elem, Hb]).
  all: apply andb_true_iff in Hc as [Hc1%Z.ltb_lt Hc2%Z.ltb_lt]; unfold zlen in Hc1.
  { lia. }
  destruct (running_turn_spec B E s t i) as (next & s1 & t1 & Ht & Hi1 & Hs1 & Hor1 & Hun1 & Hmv1 & Hk1 & Hnext); try done; [lia|].
  rewrite Ht. cbn [mbind result_bind]. destruct next as [i'|]; cbn; [|by exists s1, t1].
  destruct Hnext as [Hb1 Hlen]. destruct (IH s1 t1 i') as (s' & t' & Hl' & ? & ? & ? & ? & Hmv & ?); try done; [lia|].
  exists s', t'. split_and!; try done. by eapply moves_trans.
Qed.
End Running.
