(* ===== verification/ScheduleWaiting.v ===== *)
(** * The waiting requests of a step

    [Scheduler.schedule] (vllm/v1/core/sched/scheduler.py), the loop over the two waiting
    queues: every turn takes a request off a queue (to skip it or to admit it) or ends the
    loop, and keeps the invariant of ScheduleSafety; then the queue of skipped requests. *)
From S2P Require Import Prelude FreeQueue Heapq Request RequestQueue EncoderCache StopConditions BlockHash BlockPool KVCacheManager SchedulerState ScheduleStep SchedulerUpdate SchedulerLaws ScheduleSafety.

Section Waiting.
Context {KV Q : Type} `{KVLaws KV} `{QueueLaws Q}.
Context (cfg : SchedConfig) (grammar_ready : Request -> bool).
Implicit Types (s : Scheduler KV Q) (t : Step) (r : Request) (id : string).

(** ** The queues *)

Lemma select_spec s : wf s (waiting s) -> wf s (skipped_waiting s) -> waiting_bool s || skipped_bool s = true ->
  exists w, select_queue s = Ok (Some w) /\ iter s (queue_of w s) <> [].
Proof.
  intros Hw Hs. unfold waiting_bool, skipped_bool, select_queue, select_waiting_queue.
  pose proof (bool_spec s _ Hw) as Ew. pose proof (bool_spec s _ Hs) as Es.
  assert (Hne : forall q, bool_decide (iter s q <> []) = true -> iter s q <> []) by (intros q; apply bool_decide_eq_true).
  rewrite Ew, Es. intros Hor. destruct queue_policy.
  - destruct (bool_decide (iter s (skipped_waiting s) <> [])) eqn:E2; [by exists Skipped; auto|].
    rewrite orb_false_r in Hor. rewrite Hor. exists Waiting. auto.
  - destruct (bool_decide (iter s (waiting s) <> [])) eqn:E1, (bool_decide (iter s (skipped_waiting s) <> [])) eqn:E2; cbn; try done;
      [|by exists Waiting; auto|by exists Skipped; auto].
    destruct (iter s (waiting s)) as [|a la] eqn:Ia; [done|]. destruct (iter s (skipped_waiting s)) as [|b lb] eqn:Ib; [done|].
    rewrite (peek_spec s a la _ Hw Ia), (peek_spec s b lb _ Hs Ib). cbn.
    destruct (request_lt _ _); [exists Waiting|exists Skipped]; (split; [done|]); cbn [queue_of]; by rewrite ?Ia, ?Ib.
Qed.

(** Nothing but the queues differs. *)
Record requeued s s' : Prop := {
  rq_objects : objects s' = objects s;
  rq_requests : requests s' = requests s;
  rq_kv : kv_cache_manager s' = kv_cache_manager s;
  rq_running : running s' = running s;
  rq_enc : encoder_cache_manager s' = encoder_cache_manager s;
  rq_pause : pause_state s' = pause_state s;
  rq_prev : prev_step_scheduled_req_ids s' = prev_step_scheduled_req_ids s;
  rq_finished : finished_req_ids s' = finished_req_ids s;
}.
Lemma requeued_order s s' : requeued s s' -> same_order s s'.
Proof. intros []. unfold same_order. by rewrite rq_objects0. Qed.
Lemma requeued_frame P s s' : requeued s s' -> frame P s s'.
Proof.
  intros Hq. pose proof (requeued_order _ _ Hq). destruct Hq. split; try done; rewrite ?rq_kv0, ?rq_objects0; try done.
  by apply stable_same.
Qed.
Lemma core_requeued R W s s' : requeued s s' -> wf s (waiting s') -> wf s (skipped_waiting s') -> core cfg R W s -> core cfg R W s'.
Proof.
  intros Hq Hw Hs []. pose proof (requeued_order _ _ Hq) as Ho. destruct Hq.
  split; rewrite ?rq_requests0, ?rq_kv0, ?rq_objects0; try done; by apply (same_order_iter s s').
Qed.

Lemma pop_from_spec s w id l : wf s (waiting s) -> wf s (skipped_waiting s) -> iter s (queue_of w s) = id :: l ->
  exists s', pop_from w s = Ok (id, s') /\ requeued s s' /\ wf s (waiting s') /\ wf s (skipped_waiting s') /\
    queued s ≡ₚ id :: queued s'.
Proof.
  intros Hw Hs Hi. assert (Hq : wf s (queue_of w s)) by (by destruct w). destruct (pop_spec s id l _ Hq Hi) as (q' & Hp & Hq' & Hi').
  unfold pop_from. rewrite Hp. cbn [mbind result_bind]. eexists. split; [done|]. destruct w; cbn in *; (split; [done|]); split_and!; try done.
  - change (queued (set_waiting q' s)) with (iter s q' ++ iter s (skipped_waiting s)). unfold queued. by rewrite Hi, Hi'.
  - change (queued (set_skipped_waiting q' s)) with (iter s (waiting s) ++ iter s q'). unfold queued.
    by rewrite Hi, Hi', Permutation_middle.
Qed.

(** ** The state of the loop *)

Definition resumable_now (l : list string) s : Prop :=
  forall x r, x ∈ l -> objects s !! x = Some r -> status r = PREEMPTED -> x ∉ prev_step_scheduled_req_ids s.

(** [sk] is the queue of the requests skipped in this step. *)
Record wloop (B : Z) s t (sk : Q) : Prop := {
  wl_inv : inv cfg (iter s sk) s;
  wl_skipped : wf s sk;
  wl_step : step_ok cfg B s t;
  wl_keys : forall x, x ∈ keys t -> x ∈ running s;
  wl_prev : resumable_now (queued s ++ iter s sk) s;
  wl_resumed : forall x, x ∈ scheduled_resumed_reqs t -> x ∉ prev_step_scheduled_req_ids s;
  wl_len : zlen (running s) <= max_num_running_reqs cfg;
}.

Lemma requeued_iter s s' q : requeued s s' -> iter s' q = iter s q.
Proof. intros Hq. by apply same_order_iter, requeued_order. Qed.

(** A request is skipped. *)
Lemma skip_spec B s t sk w id l :
  wloop B s t sk -> iter s (queue_of w s) = id :: l ->
  exists s', pop_from w s = Ok (id, s') /\ wloop B s' t (@prepend_request _ _ (ops s') id sk) /\ requeued s s' /\
    length (queued s) = S (length (queued s')).
Proof.
  intros [Hi Hsk Hs Hk Hp Hr Hl] Hit.
  destruct (pop_from_spec s w id l (co_wq _ _ _ _ Hi) (co_sq _ _ _ _ Hi) Hit) as (s' & Hpop & Hq & Hw' & Hs' & Hper).
  pose proof (requeued_order _ _ Hq) as Ho. exists s'. split; [done|].
  destruct (prepend_spec s' id sk) as [Hsk' Hit']; [by apply (same_order_iter s s')|]. rewrite (requeued_iter s s' sk Hq) in Hit'.
  assert (Hperm : queued s' ++ iter s' (@prepend_request _ _ (ops s') id sk) ≡ₚ queued s ++ iter s sk).
  { rewrite Hit', Hper. cbn. by rewrite Permutation_middle. }
  split; [|split; [done|by rewrite Hper]]. split; try done.
  - unfold inv. rewrite (rq_running _ _ Hq). refine (core_perm cfg _ _ _ _ _ (reflexivity _) (symmetry Hperm) _). by eapply core_requeued.
  - eapply (step_frame cfg (fun _ => True)); [done|by apply requeued_frame|done].
  - intros x Hx. rewrite (rq_running _ _ Hq). auto.
  - intros x r Hx. rewrite Hperm in Hx. rewrite (rq_objects _ _ Hq), (rq_prev _ _ Hq). by apply Hp.
  - intros x Hx. rewrite (rq_prev _ _ Hq). auto.
  - by rewrite (rq_running _ _ Hq).
Qed.

(** A request stays where it is. *)
Lemma wloop_change B s t sk id r r' k' :
  wloop B s t sk -> id ∈ queued s ++ iter s sk -> objects s !! id = Some r -> same_place r r' -> stable r r' ->
  kv_ok k' -> kv_keeps (fun x => x <> id) (kv_cache_manager s) k' -> as_waiting cfg k' id r' ->
  (status r' = PREEMPTED -> status r = PREEMPTED) ->
  let s' := put r' (set_kv_cache_manager k' s) in wloop B s' t sk /\ frame (fun x => x <> id) s s' /\ objects s' !! id = Some r'.
Proof.
  intros [Hi Hsk Hs Hk Hp Hr Hl] Hin Hid Hpl Hsta Hok Hkeep Haw Hst s'. destruct (core_nodup _ _ _ _ Hi) as (_ & _ & Hdis).
  destruct (co_wait _ _ _ _ Hi id Hin) as (r0 & Hr0 & Haw0). rewrite Hid in Hr0. injection Hr0 as <-.
  assert (Hrid : request_id r' = id) by apply Haw.
  assert (Hch : changes id r r' s s') by (split; try done; [apply Haw0|cbn; by rewrite Hrid]).
  pose proof (changes_order _ _ _ _ _ Hch) as Ho.
  assert (Hf : frame (fun x => x <> id) s s').
  { split; try done; [intros x Hx; rewrite (ch_objects _ _ _ _ _ Hch); by apply lookup_insert_ne|].
    eapply stable_insert; [exact Hid|apply Hch|done]. }
  assert (Hiter : forall q, iter s' q = iter s q) by (intros q; by apply same_order_iter).
  split; [|split; [done|rewrite (ch_objects _ _ _ _ _ Hch); apply lookup_insert_eq]]. split; try done.
  - unfold inv, queued. rewrite !Hiter. eapply (core_change cfg (running s) _ (running s) _ s s' id r r' Hi Hch); try done;
      [apply elem_of_app; by right|by apply (same_order_iter s s' _ Ho), Hi..|]. by intros ?%(Hdis id).
  - by apply (same_order_iter s s').
  - eapply (step_frame cfg); [exact Hs|exact Hf|]. intros x Hx ->. by apply (Hdis id); [apply Hk|].
  - intros x rx. unfold queued. rewrite !Hiter. intros Hx. rewrite (ch_objects _ _ _ _ _ Hch), lookup_insert. case_decide as Hxi; [|by apply Hp].
    subst x. intros [= <-] Hpre. eapply Hp; [exact Hx|exact Hid|auto].
Qed.

Lemma wloop_kv B s t sk k' : wloop B s t sk -> kv_ok k' -> kv_keeps (fun _ => True) (kv_cache_manager s) k' ->
  wloop B (set_kv_cache_manager k' s) t sk /\ frame (fun _ => True) s (set_kv_cache_manager k' s).
Proof.
  intros [Hi Hsk Hs Hk Hp Hr Hl] Hok Hkeep. assert (Hf : frame (fun _ => True) s (set_kv_cache_manager k' s)) by (split; try done; by apply stable_same).
  split; [|done]. split; try done; [by apply core_kv|by eapply (step_frame cfg)].
Qed.

(** A blocked request is promoted or skipped. *)
Lemma waiting_grammar k id r : as_waiting cfg k id r -> as_waiting cfg k id (set_status WAITING r).
Proof.
  intros [[]]. split; try done; [|by constructor]. split; try done. eapply kl_hashed_update; [done..|by right].
Qed.

Lemma promote_spec B s t sk id r :
  wloop B s t sk -> id ∈ queued s -> objects s !! id = Some r ->
  exists b s', (if is_blocked_waiting_status (status r)
                then '(promoted, s1) ← try_promote grammar_ready id s; Ok (negb promoted, s1) else Ok (false, s)) = Ok (b, s') /\
    wloop B s' t sk /\ frame (fun x => x <> id) s s' /\ running s' = running s /\ waiting s' = waiting s /\
    skipped_waiting s' = skipped_waiting s /\
    exists r', objects s' !! id = Some r' /\ (b = false -> status r' ∈ [WAITING; PREEMPTED]).
Proof.
  intros Hw Hin Hr. assert (Hin' : id ∈ queued s ++ iter s sk) by (apply elem_of_app; by left).
  destruct (co_wait _ _ _ _ (wl_inv _ _ _ _ Hw) id Hin') as (r0 & Hr0 & Haw). rewrite Hr in Hr0. injection Hr0 as <-.
  unfold try_promote. rewrite (deref_Ok s id r Hr). cbn [mbind result_bind].
  assert (Hsame : forall b, (b = false -> status r ∈ [WAITING; PREEMPTED]) -> exists b' s', Ok (b, s) = Ok (b', s') /\
    wloop B s' t sk /\ frame (fun x => x <> id) s s' /\ running s' = running s /\ waiting s' = waiting s /\
    skipped_waiting s' = skipped_waiting s /\ exists r', objects s' !! id = Some r' /\ (b' = false -> status r' ∈ [WAITING; PREEMPTED])).
  { intros b Hb. exists b, s. split_and!; try done; [apply sframe_refl|by exists r]. }
  pose proof (aw_status _ _ _ _ Haw) as Hst. rewrite !elem_of_cons, elem_of_nil in Hst.
  destruct Hst as [Est|[Est|[Est|[]]]]; rewrite Est; cbn [is_blocked_waiting_status].
  1-2: apply Hsame; intros _; rewrite Est; set_solver.
  destruct (structured_output r && grammar_ready r); cbn [mbind result_bind negb]; [|by apply Hsame].
  destruct (wloop_change B s t sk id r (set_status WAITING r) (kv_cache_manager s)) as (Hw' & Hf & Ho); try done;
    [apply Hw|by apply waiting_grammar|].
  assert (Es : put (set_status WAITING r) (set_kv_cache_manager (kv_cache_manager s) s) = put (set_status WAITING r) s) by (by destruct s).
  rewrite Es in *. eexists _, _. split; [done|]. split_and!; try done. eexists. split; [exact Ho|]. intros _. constructor.
Qed.

(** ** Admission *)

Lemma admitted_eq c r : exists h,
  (let r1 := set_num_computed_tokens c (set_status RUNNING r) in if num_cached_tokens r1 <? 0 then set_num_cached_tokens c r1 else r1) =
  set_num_cached_tokens h (set_num_computed_tokens c (set_status RUNNING r)).
Proof. cbn zeta. destruct (num_cached_tokens _ <? 0); [by exists c|]. exists (num_cached_tokens r). by destruct r. Qed.

(** The state after an admission: [s5] is the state after the pop, [t'] the step with the request. *)
Lemma admit_state B s t sk id r r1 r2 k' n t' s5 :
  let s4 := put r1 (set_kv_cache_manager k' s) in let s' := put r2 (set_running (running s5 ++ [id]) s5) in
  wloop B s t sk -> changes id r r1 s s4 -> request_id r1 = id -> requeued s4 s5 -> wf s4 (waiting s5) -> wf s4 (skipped_waiting s5) ->
  queued s4 ≡ₚ id :: queued s5 -> zlen (running s) < max_num_running_reqs cfg -> same_place r r2 -> stable r r2 -> as_running cfg k' id r2 ->
  0 < n <= token_budget t -> num_computed_tokens r2 + n < max_model_len cfg -> kv_covers k' id (num_computed_tokens r2 + n) ->
  num_computed_tokens r2 + n <= num_tokens r2 -> scheduled_spec_decode_tokens t' = scheduled_spec_decode_tokens t ->
  num_scheduled_tokens t' = dict_set id n (num_scheduled_tokens t) ->
  req_to_new_blocks t' = <[id := kv_get_blocks id (kv_cache_manager s5)]> (req_to_new_blocks t) -> token_budget t' = token_budget t - n ->
  scheduled_encoder_inputs t' = scheduled_encoder_inputs t ->
  scheduled_running_reqs t' ++ scheduled_new_reqs t' ++ scheduled_resumed_reqs t' ≡ₚ
    id :: scheduled_running_reqs t ++ scheduled_new_reqs t ++ scheduled_resumed_reqs t ->
  (forall x, x ∈ scheduled_resumed_reqs t' -> x ∈ scheduled_resumed_reqs t \/ (x = id /\ status r = PREEMPTED)) ->
  wloop B s' t' sk /\ frame (fun x => x ∈ running s) s s' /\ length (queued s) = S (length (queued s')) /\ running s' = running s ++ [id] /\
  keys t' = keys t ++ [id].
Proof.
  intros s4 s' [Hi Hsk Hs Hk Hp Hres Hl] Hch4 Hrid Hq Hwf1 Hwf2 Hper Hlt Hpl2 Hsta Har Hn Hcn Hcov Hle Esp E1 E2 E3 E4 E5 E6.
  pose proof (changes_order _ _ _ _ _ Hch4) as Ho4. pose proof (ch_object _ _ _ _ _ Hch4) as Hr.
  assert (Hrid2 : request_id r2 = id) by apply Har.
  assert (HinW : id ∈ queued s ++ iter s sk).
  { apply elem_of_app. left. unfold queued. rewrite <- !(proj1 (same_order_iter s s4 _ Ho4)). change (id ∈ queued s4). rewrite Hper. constructor. }
  destruct (core_nodup _ _ _ _ Hi) as (_ & HndW & Hdis). assert (HidR : id ∉ running s) by (by intros ?%(Hdis id)).
  assert (Hch : changes id r r2 s s').
  { split; try done; [apply Hch4| |exact (rq_requests _ _ Hq)|change (kv_ok (kv_cache_manager s5)); rewrite (rq_kv _ _ Hq); apply Hch4|
      change (kv_keeps (fun x => x <> id) (kv_cache_manager s) (kv_cache_manager s5)); rewrite (rq_kv _ _ Hq); apply Hch4].
    cbn. rewrite (rq_objects _ _ Hq). cbn. by rewrite Hrid, Hrid2, insert_insert_eq. }
  pose proof (changes_order _ _ _ _ _ Hch) as Ho.
  assert (Ho5 : same_order s5 s') by (unfold same_order in *; rewrite Ho, <- Ho4; by rewrite (rq_objects _ _ Hq)).
  assert (Hkv5 : kv_cache_manager s' = k') by exact (rq_kv _ _ Hq).
  assert (Hiter : forall q, iter s' q = iter s q) by (intros q; by apply same_order_iter).
  assert (Hquot : queued s ≡ₚ id :: queued s').
  { transitivity (queued s4); [unfold queued; by rewrite !(proj1 (same_order_iter s s4 _ Ho4))|].
    rewrite Hper. unfold queued. by rewrite !(proj1 (same_order_iter s5 s' _ Ho5)). }
  assert (Hf : frame (fun x => x <> id) s s').
  { split; try done; [apply Hch|apply Hch|intros x Hx; rewrite (ch_objects _ _ _ _ _ Hch); by apply lookup_insert_ne|apply Hq..|].
    eapply stable_insert; [exact Hr|apply Hch|done]. }
  assert (Hrun : running s' = running s ++ [id]) by (change (running s5 ++ [id] = running s ++ [id]); by rewrite (rq_running _ _ Hq)).
  assert (Hidk : id ∉ keys t) by (by intros ?%Hk).
  assert (Hnq : NoDup (id :: queued s' ++ iter s sk)) by (rewrite app_comm_cons, <- Hquot; done). apply NoDup_cons in Hnq as [HidW' _].
  destruct (step_ok_add cfg B s' t t' id r2 n (kv_get_blocks id (kv_cache_manager s5))) as [Hs' Hk']; try done.
  - eapply (step_frame cfg); [exact Hs|exact Hf|]. by intros x Hx ->.
  - rewrite (ch_objects _ _ _ _ _ Hch). apply lookup_insert_eq.
  - by rewrite Hkv5.
  - by rewrite Esp.
  - unfold caught, spec_of. rewrite Esp, (sk_spec _ _ _ _ Hs id Hidk). pose proof (lv_placeholders _ _ _ _ (ar_live _ _ _ _ Har)).
    split; [unfold zlen; cbn; lia|done].
  - split; [|split; [eapply frame_weaken; [|exact Hf]; by intros x Hx ->|split; [by rewrite Hquot|by split]]]. split; try done.
    + unfold inv. rewrite Hrun, Hiter. eapply (core_change cfg (running s) _ _ _ s s' id r r2 Hi Hch).
      * apply elem_of_app. by right.
      * by apply (same_order_iter s5 s' _ Ho5), (same_order_iter s4 s5 _ (requeued_order _ _ Hq)).
      * by apply (same_order_iter s5 s' _ Ho5), (same_order_iter s4 s5 _ (requeued_order _ _ Hq)).
      * rewrite Hquot. cbn. by rewrite <- app_assoc.
      * intros x Hx Hx'. by apply elem_of_app in Hx' as [?|?%list_elem_of_singleton].
      * intros x _ Hx. apply elem_of_app in Hx as [Hx|Hx]; apply elem_of_app; [left; rewrite Hquot; by constructor|by right].
      * intros _. by rewrite Hkv5.
      * done.
    + by apply (same_order_iter s s').
    + intros x. rewrite Hk', Hrun, !elem_of_app. intros [Hx|Hx]; [left; auto|by right].
    + intros x rx. rewrite Hiter. intros Hx. assert (Hxi : x <> id) by (by intros ->). rewrite (sf_objects _ _ _ Hf) by done.
      rewrite (sf_prev _ _ _ Hf). apply Hp. apply elem_of_app in Hx as [Hx|Hx]; apply elem_of_app; [left; rewrite Hquot; by constructor|by right].
    + intros x Hx. rewrite (sf_prev _ _ _ Hf). destruct (E6 x Hx) as [?|[-> Hpre]]; [by apply Hres|by eapply Hp].
    + rewrite Hrun. unfold zlen in *. rewrite length_app. cbn. lia.
Qed.

Lemma admitted_running k k' id r r1 h c n :
  as_waiting cfg k id r -> memo_update r r1 -> kv_keeps (fun x => x <> id) k k' -> 0 <= c -> 0 < n -> c + n <= num_tokens r ->
  kv_covers k' id (c + n) -> as_running cfg k' id (set_num_cached_tokens h (set_num_computed_tokens c (set_status RUNNING r1))).
Proof.
  intros [[Hid Htext Hsingle Hhash Hlen Hph Hkp Hgen] _ _ _] Hmu Hkeep Hc Hn Hcn Hcov. pose proof Hmu as [[memo Hm] _].
  assert (Hh1 : kv_hashed k' r1) by (rewrite Hm; eapply kl_hashed_update; [eapply fr_hashed; [exact Hkeep|exact Hhash]|done..|left; by rewrite <- Hm]).
  rewrite Hm in *. split; [split|..]; try done; [eapply kl_hashed_update; [exact Hh1|done..|by right]|cbn; lia|eapply kl_covers_le; [exact Hcov|cbn; lia]].
Qed.

Lemma admit_spec B s t sk w id l r r1 k' n c nb loras :
  max_loras cfg = None -> wloop B s t sk -> iter s (queue_of w s) = id :: l -> objects s !! id = Some r ->
  status r ∈ [WAITING; PREEMPTED] -> zlen (running s) < max_num_running_reqs cfg ->
  0 < n <= token_budget t -> 0 <= c -> c + n <= num_tokens r -> memo_update r r1 -> kv_ok k' ->
  kv_keeps (fun x => x <> id) (kv_cache_manager s) k' -> kv_covers k' id (c + n) ->
  exists s' t', admit_waiting cfg w n c [] nb loras (put r1 (set_kv_cache_manager k' s)) t = Ok (Admit s' t' loras) /\
    wloop B s' t' sk /\ frame (fun x => x ∈ running s) s s' /\ length (queued s) = S (length (queued s')) /\ running s' = running s ++ [id] /\
    keys t' = keys t ++ [id].
Proof.
  intros Hlora Hw0 Hit Hr Hst Hlt Hn Hc Hcn Hmu Hok Hkeep Hcov.
  assert (HinW : id ∈ queued s ++ iter s sk).
  { apply elem_of_app. left. apply elem_of_app. destruct w; [left|right]; cbn in Hit; rewrite Hit; constructor. }
  pose proof (wl_inv _ _ _ _ Hw0) as Hi.
  destruct (co_wait _ _ _ _ Hi id HinW) as (r0 & Hr0 & Haw). rewrite Hr in Hr0. injection Hr0 as <-.
  pose proof Hmu as [[memo Hm] _]. assert (Hid : request_id r = id) by apply Haw.
  set (s4 := put r1 (set_kv_cache_manager k' s)). assert (Hrid : request_id r1 = id) by (by rewrite Hm).
  assert (Hch4 : changes id r r1 s s4) by (split; try done; [rewrite Hm; apply same_place_memo|cbn; by rewrite Hrid]).
  pose proof (changes_order _ _ _ _ _ Hch4) as Ho4.
  destruct (pop_from_spec s4 w id l) as (s5 & Hpop & Hq & Hwf1 & Hwf2 & Hper); [by apply (same_order_iter s s4 _ Ho4), Hi..|by destruct w; rewrite <- Hit; apply same_order_iter|].
  unfold admit_waiting. rewrite Hpop. cbn [mbind result_bind].
  assert (Hr5 : objects s5 !! id = Some r1) by (rewrite (rq_objects _ _ Hq); cbn; rewrite Hrid; apply lookup_insert_eq).
  rewrite (deref_Ok s5 id r1 Hr5). cbn [mbind result_bind].
  destruct (admitted_eq c r1) as [h Hr2]. cbn zeta in Hr2. rewrite Hr2. clear Hr2. set (r2 := set_num_cached_tokens _ _).
  assert (Hc2 : num_computed_tokens r2 = c) by done. assert (Hpl2 : same_place r r2) by (unfold r2; by rewrite Hm).
  assert (Hsta2 : stable r r2) by (unfold r2; by rewrite Hm). assert (Hle2 : c + n <= num_tokens r2) by (unfold r2; by rewrite Hm).
  assert (Har : as_running cfg k' id r2) by by exact (admitted_running _ k' id r r1 h c n Haw Hmu Hkeep Hc (proj1 Hn) Hcn Hcov).
  assert (Hlen : num_tokens r < max_model_len cfg) by apply (aw_live _ _ _ _ Haw).
  assert (Est : status r1 = status r) by (by rewrite Hm). rewrite Est. rewrite !elem_of_cons, elem_of_nil in Hst.
  destruct Hst as [E|[E|[]]]; rewrite E; cbn [mbind result_bind]; rewrite Hlora; cbn; eexists _, _; (split; [done|]);
    (eapply (admit_state B s t sk id r r1 r2 k' n _ s5 Hw0); try done; [cbn; lia|cbn..]).
  - rewrite <- app_assoc. cbn. by rewrite !Permutation_middle.
  - by left.
  - by rewrite !app_assoc, <- Permutation_cons_append.
  - intros x Hx. apply elem_of_app in Hx as [?|?%list_elem_of_singleton]; [by left|by right].
Qed.

(** ** The loop *)

Lemma cap_bounds n : 0 < n -> 0 < cap_long_prefill cfg n <= n.
Proof. unfold cap_long_prefill. intros Hn. destruct ((0 <? long_prefill_token_threshold cfg) && _) eqn:E; [apply andb_true_iff in E|]; lia. Qed.

(** What a turn does with a state of the loop. *)
Definition turn_ok (B : Z) s t sk (o : turn) : Prop :=
  match o with
  | Break s' t' => t' = t /\ wloop B s' t sk /\ frame (fun x => x ∈ running s) s s' /\ running s' = running s
  | Skip s' sk' => wloop B s' t sk' /\ frame (fun x => x ∈ running s) s s' /\ length (queued s) = S (length (queued s')) /\
      running s' = running s
  | Admit s' t' _ => wloop B s' t' sk /\ frame (fun x => x ∈ running s) s s' /\ length (queued s) = S (length (queued s')) /\
      exists id, running s' = running s ++ [id] /\ keys t' = keys t ++ [id]
  end.

(** From the computed blocks of a request that is not skipped. *)
Lemma waiting_allocate_spec B s t sk w id l r loras :
  max_loras cfg = None -> need_mamba_block_aligned_split cfg = false -> wloop B s t sk ->
  iter s (queue_of w s) = id :: l -> objects s !! id = Some r -> status r ∈ [WAITING; PREEMPTED] ->
  0 < token_budget t -> zlen (running s) < max_num_running_reqs cfg ->
  exists b n k', kv_get_computed r (kv_cache_manager s) = Ok (b, n, k') /\ n <= num_tokens r /\
    let s2 := set_kv_cache_manager k' s in wloop B s2 t sk /\ frame (fun x => x ∈ running s) s s2 /\
    let new := Z.min (cap_long_prefill cfg (num_tokens r - n)) (token_budget t) in 0 < new /\
    exists res r1 k'', kv_allocate r new n (Some b) 0 0 false 0 k' = Ok (res, r1, k'') /\
      let s4 := put r1 (set_kv_cache_manager k'' s2) in
      match res with
      | None => wloop B s4 t sk /\ frame (fun x => x ∈ running s) s s4 /\ running s4 = running s
      | Some _ => forall nb, exists s' t', admit_waiting cfg w new n [] nb loras s4 t = Ok (Admit s' t' loras) /\ turn_ok B s t sk (Admit s' t' loras)
      end.
Proof.
  intros Hlora Hmamba Hw Hit Hr Hst Hbud Hlt. pose proof (wl_inv _ _ _ _ Hw) as Hi.
  assert (Hin : id ∈ queued s ++ iter s sk).
  { apply elem_of_app. left. apply elem_of_app. destruct w; [left|right]; cbn in Hit; rewrite Hit; constructor. }
  destruct (co_wait _ _ _ _ Hi id Hin) as (r0 & Hr0 & Haw). rewrite Hr in Hr0. injection Hr0 as <-.
  pose proof Haw as [[Hid Htext Hsingle Hhash Hlen Hph Hkp Hgen] _ Hcomp Hfresh].
  destruct (core_nodup _ _ _ _ Hi) as (_ & _ & Hdis). assert (HidR : id ∉ running s) by (by intros ?%(Hdis id)).
  assert (Hweak : forall (P : string -> Prop) (a b : Scheduler KV Q), (forall x, x ∈ running s -> P x) -> frame P a b -> frame (fun x => x ∈ running s) a b)
    by (intros P a b; apply frame_weaken).
  destruct (kl_computed (kv_cache_manager s) r) as (b & n & k' & Hc & Hok & Hkeep & Hn & Hhit); [apply Hi|done|by rewrite Hid|lia|].
  destruct (wloop_kv B s t sk k' Hw Hok Hkeep) as [Hw2 Hf2]. set (s2 := set_kv_cache_manager k' s) in *.
  assert (Hf2' : frame (fun x => x ∈ running s) s s2) by (by eapply Hweak; [|exact Hf2]).
  exists b, n, k'. split; [done|]. split; [lia|]. cbn zeta. split; [done|]. split; [done|].
  pose proof (cap_bounds (num_tokens r - n) ltac:(lia)) as Hcap. set (new := Z.min _ _). assert (Hnew : 0 < new <= token_budget t) by lia.
  split; [lia|].
  pose proof (co_max _ _ _ _ (wl_inv _ _ _ _ Hw2)) as Hmx. cbn in Hmx.
  destruct (kl_alloc_new k' r b n new) as (res & r1 & k'' & Hal & Hok2 & Hkeep2 & Hmu & Hres); try done;
    [by eapply fr_hashed|rewrite Hid; by eapply fr_fresh|lia|lia|lia|rewrite Hmx; lia|].
  rewrite Hid in Hkeep2, Hres. pose proof Hmu as [[memo Hm] _]. exists res, r1, k''. split; [done|]. destruct res as [b'|].
  - intros nb. destruct (admit_spec B s2 t sk w id l r r1 k'' new n nb loras) as (s' & t' & Ha & Hw' & Hf' & Hlen' & Hrun'); try done; try lia.
    exists s', t'. split; [done|]. split; [done|]. split; [eapply sframe_trans; [exact Hf2'|exact Hf']|]. split; [done|]. exists id. exact Hrun'.
  - destruct (wloop_change B s2 t sk id r r1 k'') as (Hw4 & Hf4 & _); try done; try (by rewrite Hm).
    + eapply waiting_memo; [exact Hmu|exact Hkeep2|exact Hres|]. by eapply waiting_keep; [exact Hkeep|..].
    + split; [done|]. split; [|done]. eapply sframe_trans; [exact Hf2'|]. eapply Hweak; [|exact Hf4]. by intros x Hx ->.
Qed.

(** One turn. *)
Lemma waiting_turn_spec B s t sk loras :
  max_loras cfg = None -> need_mamba_block_aligned_split cfg = false -> wloop B s t sk ->
  waiting_bool s || skipped_bool s = true -> 0 < token_budget t -> zlen (running s) < max_num_running_reqs cfg ->
  exists o, waiting_turn cfg grammar_ready loras sk s t = Ok o /\ turn_ok B s t sk o.
Proof.
  intros Hlora Hmamba Hw Hne Hbud Hlt. pose proof (wl_inv _ _ _ _ Hw) as Hi.
  pose proof (co_wq _ _ _ _ Hi) as Hwq. pose proof (co_sq _ _ _ _ Hi) as Hsq.
  destruct (select_spec s Hwq Hsq Hne) as (w & Hsel & Hnil). destruct (iter s (queue_of w s)) as [|id l] eqn:Hit; [done|].
  assert (Hin : id ∈ queued s) by (apply elem_of_app; destruct w; [left|right]; cbn in Hit; rewrite Hit; constructor).
  destruct (co_wait _ _ _ _ Hi id) as (r0 & Hr0 & Haw0); [apply elem_of_app; by left|].
  unfold waiting_turn. rewrite Hsel. cbn [mbind result_bind of_option]. rewrite (peek_spec s id l); [|by destruct w|done].
  cbn [mbind result_bind]. rewrite (deref_Ok s id r0 Hr0). cbn [mbind result_bind].
  destruct (promote_spec B s t sk id r0 Hw Hin Hr0) as (b & s1 & Hpro & Hw1 & Hf1 & Hrun1 & Ew & Es & r & Hr & Hst).
  rewrite Hpro. cbn [mbind result_bind]. rewrite (deref_Ok s1 id r Hr). cbn [mbind result_bind].
  assert (Hiter : forall q, iter s1 q = iter s q) by (intros q; apply same_order_iter, Hf1).
  assert (Hit1 : iter s1 (queue_of w s1) = id :: l) by (rewrite Hiter, <- Hit; by destruct w; cbn; rewrite ?Ew, ?Es).
  assert (Hq1 : queued s1 = queued s) by (unfold queued; by rewrite !Hiter, Ew, Es).
  assert (Hidr : id ∉ running s) by (intros Hx; destruct (core_nodup _ _ _ _ Hi) as (_ & _ & Hd); apply (Hd id Hx), elem_of_app; by left).
  assert (Hf1' : frame (fun x => x ∈ running s) s s1) by (eapply frame_weaken; [|exact Hf1]; by intros x Hx ->).
  unfold lora_blocked. rewrite Hlora, orb_false_r. destruct b.
  { destruct (skip_spec B s1 t sk w id l Hw1 Hit1) as (s2 & Hpop & Hw2 & Hq2 & Hlen). rewrite Hpop. cbn [mbind result_bind].
    eexists. split; [done|]. cbn. split; [done|]. split; [|by rewrite <- Hq1, (rq_running _ _ Hq2)].
    eapply sframe_trans; [exact Hf1'|]. by apply requeued_frame. }
  assert (Hin1 : id ∈ queued s1 ++ iter s1 sk) by (apply elem_of_app; left; by rewrite Hq1).
  destruct (co_wait _ _ _ _ (wl_inv _ _ _ _ Hw1) id Hin1) as (r' & Hr' & Haw). rewrite Hr in Hr'. injection Hr' as <-.
  destruct (waiting_allocate_spec B s1 t sk w id l r loras Hlora Hmamba Hw1 Hit1 Hr (Hst eq_refl) Hbud)
    as (bl & n & k' & Hcomp & Hn & Hw2 & Hf2 & Hnew & res & r1 & k'' & Hal & Hres); [by rewrite Hrun1|].
  unfold waiting_computed. rewrite (aw_computed _ _ _ _ Haw). cbn [Z.eqb]. rewrite Hcomp. cbn [mbind result_bind].
  rewrite (proj2 (Z.leb_le n (num_tokens r)) Hn). cbn [py_assert mbind result_bind].
  set (s2 := set_kv_cache_manager k' s1) in *.
  assert (Hbreak : forall s4, wloop B s4 t sk -> frame (fun x => x ∈ running s1) s1 s4 -> running s4 = running s1 -> turn_ok B s t sk (Break s4 t)).
  { intros s4 Hw4 Hf4 Hr4. split; [done|]. split; [done|]. split; [|by rewrite Hr4]. eapply sframe_trans; [exact Hf1'|]. by rewrite Hrun1 in Hf4. }
  destruct (negb (enable_chunked_prefill cfg) && _); [eexists; split; [done|]; by apply Hbreak|].
  rewrite (proj2 (Z.ltb_lt 0 _) Hnew). cbn [py_assert mbind result_bind].
  assert (Htext : mm_features r = []) by apply Haw. rewrite (no_encoder_inputs cfg r) by done. cbn [mbind result_bind].
  assert (Hhe : has_encoder_inputs r = false) by (unfold has_encoder_inputs; by rewrite Htext). rewrite Hhe, Hmamba. cbn [andb mbind result_bind].
  rewrite enc_same, andb_false_r. cbn [mbind result_bind]. change (kv_cache_manager s2) with k'. rewrite Hal. cbn [mbind result_bind].
  destruct res as [b'|].
  - destruct (Hres (encoder_compute_budget t)) as (s' & t' & Ha & Hw' & Hf' & Hlen). rewrite Ha. eexists. split; [done|]. split; [done|].
    rewrite <- Hq1, <- Hrun1. split; [|done]. rewrite Hrun1. eapply sframe_trans; [exact Hf1'|]. by rewrite Hrun1 in Hf'.
  - cbn [mbind result_bind]. rewrite enc_same. eexists. split; [done|]. destruct Hres as (? & ? & ?). by apply Hbreak.
Qed.

(** The loop: the fuel is what is queued. *)
Lemma waiting_loop_spec B fuel : forall loras sk s t,
  max_loras cfg = None -> need_mamba_block_aligned_split cfg = false -> wloop B s t sk -> (length (queued s) <= fuel)%nat ->
  exists s' t' sk', waiting_loop cfg grammar_ready fuel loras sk s t = Ok (s', t', sk') /\ wloop B s' t' sk' /\
    frame (fun x => x ∈ running s) s s' /\ exists new, running s' = running s ++ new /\ keys t' = keys t ++ new.
Proof.
  induction fuel as [|fuel IH]; intros loras sk s t Hlora Hmamba Hw Hfuel; cbn [waiting_loop];
    destruct ((waiting_bool s || skipped_bool s) && (0 <? token_budget t) && negb (zlen (running s) =? max_num_running_reqs cfg)) eqn:Hc;
    try (exists s, t, sk; split_and!; [done|done|apply sframe_refl|exists []; by rewrite !app_nil_r]).
  all: apply andb_true_iff in Hc as [[Hne Hb%Z.ltb_lt]%andb_true_iff Hl%negb_true_iff%Z.eqb_neq].
  { exfalso. pose proof (wl_inv _ _ _ _ Hw) as Hi. unfold waiting_bool, skipped_bool in Hne.
    rewrite (bool_spec s _ (co_wq _ _ _ _ Hi)), (bool_spec s _ (co_sq _ _ _ _ Hi)) in Hne. unfold queued in Hfuel. rewrite length_app in Hfuel.
    destruct (iter s (waiting s)), (iter s (skipped_waiting s)); cbn in *; try lia; done. }
  pose proof (wl_len _ _ _ _ Hw) as Hlen. destruct (waiting_turn_spec B s t sk loras) as (o & Ho & Hok); try done; [lia|].
  rewrite Ho. cbn [mbind result_bind]. destruct o as [s1 t1|s1 sk1|s1 t1 l1]; cbn in Hok.
  - destruct Hok as (-> & ? & ? & Hr1). exists s1, t, sk. split_and!; try done. exists []. by rewrite !app_nil_r.
  - destruct Hok as (Hw1 & Hf1 & Hl1 & Hr1). destruct (IH loras sk1 s1 t) as (s' & t' & sk' & Hloop & Hw' & Hf' & Hnew); try done; [lia|].
    exists s', t', sk'. split_and!; try done; [|by rewrite Hr1 in Hnew]. eapply sframe_trans; [exact Hf1|]. by rewrite Hr1 in Hf'.
  - destruct Hok as (Hw1 & Hf1 & Hl1 & id & Hr1 & Hk1). destruct (IH l1 sk s1 t1) as (s' & t' & sk' & Hloop & Hw' & Hf' & new & Hn1 & Hn2); try done; [lia|].
    exists s', t', sk'. split_and!; try done; [|exists (id :: new); by rewrite Hn1, Hn2, Hr1, Hk1, <- !app_assoc]. eapply sframe_trans; [exact Hf1|].
    eapply frame_weaken; [|exact Hf']. intros x Hx. rewrite Hr1. apply elem_of_app. by left.
Qed.
End Waiting.
