(* ===== verification/ScheduleFinish.v ===== *)
(** * The end of a step

    [Scheduler.schedule] (vllm/v1/core/sched/scheduler.py) from the waiting requests on:
    the requests skipped in the step are queued again, the assertions of [schedule] hold,
    the output can be built, and [_update_after_schedule] of both schedulers advances the
    scheduled requests and nothing else. *)
From S2P Require Import Prelude FreeQueue Heapq Request RequestQueue EncoderCache StopConditions BlockHash BlockPool KVCacheManager SchedulerState ScheduleStep SchedulerUpdate SchedulerLaws ScheduleSafety ScheduleRunning ScheduleWaiting.

Section Finish.
Context {KV Q : Type} `{KVLaws KV} `{QueueLaws Q}.
Context (cfg : SchedConfig) (grammar_ready : Request -> bool).
Implicit Types (s : Scheduler KV Q) (t : Step) (r : Request) (id : string).

(** ** The waiting part *)

(** Where the step stands before its output is built. *)
Record step_done (B : Z) s t : Prop := {
  sd_inv : inv cfg [] s;
  sd_step : step_ok cfg B s t;
  sd_keys : forall x, x ∈ keys t -> x ∈ running s;
  sd_resumed : forall x, x ∈ scheduled_resumed_reqs t -> x ∉ prev_step_scheduled_req_ids s;
  sd_len : zlen (running s) <= max_num_running_reqs cfg;
}.

Lemma schedule_waiting_spec B s t :
  max_loras cfg = None -> need_mamba_block_aligned_split cfg = false ->
  inv cfg [] s -> step_ok cfg B s t -> only_running t -> (forall x, x ∈ keys t -> x ∈ running s) ->
  (preempted_reqs t = [] -> resumable_now (queued s) s) -> zlen (running s) <= max_num_running_reqs cfg ->
  exists s' t', schedule_waiting cfg grammar_ready s t = Ok (s', t') /\ step_done B s' t' /\ frame (fun x => x ∈ running s) s s' /\
    (preempted_reqs t <> [] -> s' = s) /\ exists new, running s' = running s ++ new /\ keys t' = keys t ++ new.
Proof.
  intros Hlora Hmamba Hi Hs [Hn Hr] Hk Hp Hl. unfold schedule_waiting, running_loras. rewrite Hlora. cbn [mbind result_bind].
  assert (Hquiet : step_done B s t) by (split; try done; rewrite Hr; by intros x ?%elem_of_nil).
  destruct (preempted_reqs t); cbn [andb]; [|exists s, t; split_and!; [done|done|apply sframe_refl|done|exists []; by rewrite !app_nil_r]].
  destruct (bool_decide (pause_state s = UNPAUSED)); [|exists s, t; split_and!; [done|done|apply sframe_refl|done|exists []; by rewrite !app_nil_r]].
  specialize (Hp eq_refl). destruct (new_spec s) as [Hwn Hin].
  pose proof (co_wq _ _ _ _ Hi) as Hwq. pose proof (co_sq _ _ _ _ Hi) as Hsq.
  assert (Hw : wloop cfg B s t (new_queue s)).
  { split; try done; rewrite ?Hin, ?app_nil_r; try done. rewrite Hr. by intros x ?%elem_of_nil. }
  destruct (waiting_loop_spec cfg grammar_ready B (Z.to_nat (@q_len _ _ (ops s) (waiting s) + @q_len _ _ (ops s) (skipped_waiting s)))
    ∅ (new_queue s) s t Hlora Hmamba Hw) as (s1 & t1 & sk & Hloop & Hw1 & Hf1 & Hnew1).
  { rewrite (len_spec s _ Hwq), (len_spec s _ Hsq). unfold queued, zlen. rewrite length_app. lia. }
  rewrite Hloop. cbn [mbind result_bind]. destruct Hw1 as [Hi1 Hsk1 Hs1 Hk1 Hp1 Hr1 Hl1]. rewrite (bool_spec s1 sk Hsk1). case_bool_decide as Hne.
  - destruct (prepend_all_spec s1 (@q_iter _ _ (ops s1) sk) (skipped_waiting s1) (co_sq _ _ _ _ Hi1)) as [Hwf Hit].
    set (q := prepend_requests _ _) in *. eexists _, t1. split; [done|].
    assert (Hrq : requeued s1 (set_skipped_waiting q s1)) by done.
    split; [|split; [eapply sframe_trans; [exact Hf1|by apply requeued_frame]|by split]]. split; try done.
    + unfold inv. change (running (set_skipped_waiting q s1)) with (running s1).
      eapply (core_requeued cfg _ _ s1 _ Hrq); [apply Hi1|done|].
      refine (core_perm cfg _ _ _ _ _ (reflexivity _) _ Hi1). unfold queued. change (skipped_waiting (set_skipped_waiting q s1)) with q.
      rewrite !(requeued_iter _ _ _ Hrq), Hit, app_nil_r. change (waiting (set_skipped_waiting q s1)) with (waiting s1).
      rewrite <- app_assoc. f_equiv. apply Permutation_app_comm.
    + eapply (step_frame cfg (fun _ => True)); [exact Hs1|by apply requeued_frame|done].
  - exists s1, t1. split; [done|]. split; [|by split]. split; try done. unfold inv in *. by rewrite Hne in Hi1.
Qed.

(** ** The output *)

Lemma new_data_total v reqs s t : (forall id, id ∈ reqs -> is_Some (objects s !! id) /\ is_Some (req_to_new_blocks t !! id)) ->
  exists l, make_new_request_data v reqs s t = Ok l.
Proof.
  intros Hall. unfold make_new_request_data.
  match goal with |- context [foldM ?f ?a ?l] =>
    destruct (foldM_total f (fun rest _ => forall id, id ∈ rest -> is_Some (objects s !! id) /\ is_Some (req_to_new_blocks t !! id)) l a) as (x & Hx & _);
      [|done|by exists x] end.
  intros id rest acc Hi. destruct (Hi id ltac:(constructor)) as [[r Hr] [b Hb]]. rewrite (deref_Ok s id r Hr), Hb. cbn [mbind result_bind of_option].
  destruct (kl_ids (kv_cache_manager s) b) as [ids ->]. cbn. eexists. split; [done|]. intros x Hx. apply Hi. by constructor.
Qed.

Lemma cached_data_total resumed reqs s t c :
  (forall id, id ∈ reqs -> is_Some (objects s !! id) /\ is_Some (req_to_new_blocks t !! id) /\ id ∈ keys t /\
    (resumed = true -> id ∉ prev_step_scheduled_req_ids s)) ->
  exists c', foldM (cached_request_one cfg resumed s t) c reqs = Ok c'.
Proof.
  intros Hall.
  match goal with |- context [foldM ?f ?a ?l] => 
    destruct (foldM_total f (fun rest _ => forall id, id ∈ rest -> is_Some (objects s !! id) /\ is_Some (req_to_new_blocks t !! id) /\
      id ∈ keys t /\ (resumed = true -> id ∉ prev_step_scheduled_req_ids s)) l a) as (x & Hx & _); [|done|by exists x] end.
  intros id rest acc Hi. destruct (Hi id ltac:(constructor)) as ([r Hr] & [b Hb] & Hk & Hres). unfold cached_request_one.
  rewrite (deref_Ok s id r Hr), Hb. cbn [mbind result_bind of_option].
  destruct (dict_get id (num_scheduled_tokens t)) as [n|] eqn:En; [|by apply dict_get_None in En].
  cbn [mbind result_bind of_option]. assert (Ha : negb (resumed && bool_decide (id ∈ prev_step_scheduled_req_ids s)) = true).
  { destruct resumed; [|done]. cbn. rewrite bool_decide_false by auto. done. }
  rewrite Ha. cbn [py_assert mbind result_bind]. eexists. split; [done|]. intros x Hx. apply Hi. by constructor.
Qed.

(** ** Advancing the requests *)

(** Only objects differ, with their place in the order. *)
Record touched s s' : Prop := {
  tc_order : same_order s s';
  tc_rest : s' = set_objects (objects s') s;
}.
Lemma touched_refl s : touched s s.
Proof. split; [done|by destruct s]. Qed.
Lemma touched_trans s1 s2 s3 : touched s1 s2 -> touched s2 s3 -> touched s1 s3.
Proof. intros [O1 E1] [O2 E2]. split; [exact (eq_trans O2 O1)|]. rewrite E2, E1. by destruct s1. Qed.

Lemma put_same s id r : objects s !! id = Some r -> request_id r = id -> put r s = s.
Proof. intros Hr Hid. unfold put. rewrite Hid, insert_id by done. by destruct s. Qed.

Lemma put_touched E s id r r' : inv cfg E s -> id ∈ running s -> objects s !! id = Some r -> same_place r r' ->
  as_running cfg (kv_cache_manager s) id r' ->
  inv cfg E (put r' s) /\ touched s (put r' s) /\ objects (put r' s) !! id = Some r' /\
  forall x, x <> id -> objects (put r' s) !! x = objects s !! x.
Proof.
  intros Hi Hin Hr Hp Ha. assert (Hid : request_id r = id) by (destruct Hp as [<- _]; apply Ha).
  destruct (inv_put cfg E s id r r' Hi Hin Hr Hid Hp Ha) as (Hi' & Hobj & Ho & _). split; [done|]. split; [by split|].
  split; [rewrite Hobj; apply lookup_insert_eq|]. intros x Hx. rewrite Hobj. by apply lookup_insert_ne.
Qed.

(** A loop over scheduled requests that changes the object of each: [C] is what it needs
    of an object, [P] what it does, [M] holds of an object that raises the flag. *)
Lemma objects_loop E (f : bool * Scheduler KV Q -> string * Z -> result (bool * Scheduler KV Q))
    (C : string -> Z -> Request -> Prop) (P : string -> Z -> Request -> Request -> Prop) (M : Request -> Prop) k :
  (forall id n r fl s, kv_cache_manager s = k -> inv cfg E s -> id ∈ running s -> objects s !! id = Some r -> C id n r -> as_running cfg k id r ->
    exists fl' r', f (fl, s) (id, n) = Ok (fl', put r' s) /\ P id n r r' /\ same_place r r' /\ as_running cfg k id r' /\
      (fl' = true -> fl = true \/ M r)) ->
  forall l s fl, kv_cache_manager s = k -> inv cfg E s -> NoDup l.*1 ->
    (forall id n, (id, n) ∈ l -> id ∈ running s /\ exists r, objects s !! id = Some r /\ C id n r) ->
    exists fl' s', foldM f (fl, s) l = Ok (fl', s') /\ inv cfg E s' /\ touched s s' /\
      (forall id n, (id, n) ∈ l -> exists r r', objects s !! id = Some r /\ objects s' !! id = Some r' /\ P id n r r') /\
      (forall x, x ∉ l.*1 -> objects s' !! x = objects s !! x) /\
      (fl' = true -> fl = true \/ exists id r, id ∈ l.*1 /\ objects s !! id = Some r /\ M r).
Proof.
  intros Hf. induction l as [|[id n] l IH]; intros s fl Hk Hi Hnd Hl.
  { exists fl, s. split_and!; try done; [apply touched_refl|by intros id n ?%elem_of_nil|by left]. }
  rewrite fmap_cons in Hnd. apply NoDup_cons in Hnd as [Hid Hnd]. cbn in Hid.
  destruct (Hl id n ltac:(constructor)) as (Hin & r & Hr & HC).
  destruct (co_run _ _ _ _ Hi id Hin) as (r0 & Hr0 & Har). rewrite Hr in Hr0. injection Hr0 as <-. rewrite Hk in Har.
  destruct (Hf id n r fl s Hk Hi Hin Hr HC Har) as (fl1 & r' & Hf1 & HP & Hpl & Har' & HM). rewrite <- Hk in Har'.
  destruct (put_touched E s id r r' Hi Hin Hr Hpl Har') as (Hi1 & Ht1 & Hr1 & Hne1). cbn [foldM]. rewrite Hf1. cbn [mbind result_bind].
  assert (Hno : forall x m, (x, m) ∈ l -> x <> id) by (intros x m Hx ->; apply Hid; by apply (list_elem_of_fmap_2 fst) in Hx).
  destruct (IH (put r' s) fl1) as (fl' & s' & Hfold & Hi' & Ht' & HP' & Hout' & HM'); try done.
  { intros x m Hx. destruct (Hl x m ltac:(by constructor)) as (? & rx & ? & ?). split; [done|]. exists rx. by rewrite (Hne1 x) by eauto. }
  exists fl', s'. split; [done|]. split; [done|]. split; [by eapply touched_trans|]. split_and!.
  - intros x m [[= -> ->]|Hx]%elem_of_cons.
    + exists r, r'. split_and!; try done. by rewrite Hout'.
    + destruct (HP' x m Hx) as (rx & rx' & Hrx & ? & ?). exists rx, rx'. split_and!; try done. by rewrite <- (Hne1 x) by eauto.
  - intros x Hx. rewrite fmap_cons, not_elem_of_cons in Hx. destruct Hx as [Hx1 Hx2]. by rewrite Hout', Hne1.
  - intros Hfl. rewrite fmap_cons. cbn [fst]. destruct (HM' Hfl) as [Hfl1|(x & rx & Hx & Hrx & Hm)].
    + destruct (HM Hfl1) as [?|Hm]; [by left|]. right. exists id, r. split; [constructor|done].
    + right. exists x, rx. split; [by constructor|]. split; [|done]. rewrite <- Hrx. symmetry. apply Hne1. by intros ->.
Qed.

Lemma get_request_running E s id r : inv cfg E s -> id ∈ running s -> objects s !! id = Some r -> get_request id s = Some r.
Proof.
  intros Hi Hin Hr. unfold get_request. rewrite decide_True; [done|]. rewrite <- (co_part _ _ _ _ Hi). apply elem_of_app. by left.
Qed.

(** Both schedulers: what one request goes through. *)
Definition fits k id (n : Z) r : Prop :=
  0 < n /\ num_computed_tokens r + n < max_model_len cfg /\ kv_covers k id (num_computed_tokens r + n).
Definition advances (n : Z) r r' : Prop :=
  num_computed_tokens r' = num_computed_tokens r + n /\ all_token_ids r' = all_token_ids r.

(** The tokens the model is expected to return for a scheduled request: none for a chunk of
    the prefill, else one and at most the speculative tokens [sp] on top. *)
Definition expected (sp : list Z) r : Z := if is_prefill_chunk r then 0 else 1 + zlen sp.
(** [_update_after_schedule] of [Scheduler], what the one of [AsyncScheduler] adds, both. *)
Definition stepped_base (n : Z) r r' : Prop :=
  advances n r r' /\ is_prefill_chunk r' = (num_computed_tokens r + n <? num_tokens r + num_output_placeholders r) /\
  num_output_placeholders r' = num_output_placeholders r.
Definition stepped_async (sp : list Z) r r' : Prop :=
  advances 0 r r' /\ is_prefill_chunk r' = is_prefill_chunk r /\
  num_output_placeholders r' = num_output_placeholders r + expected sp r.
Definition stepped (sp : list Z) (n : Z) r r' : Prop :=
  advances n r r' /\ is_prefill_chunk r' = (num_computed_tokens r + n <? num_tokens r + num_output_placeholders r) /\
  num_output_placeholders r' = num_output_placeholders r + (if async cfg then expected sp r' else 0).

Lemma advance_running k id r c b : as_running cfg k id r -> 0 <= c < max_model_len cfg -> kv_covers k id c ->
  as_running cfg k id (set_is_prefill_chunk b (set_num_computed_tokens c r)).
Proof. intros [[]]. split; try done. split; try done. eapply kl_hashed_update; [done..|by right]. Qed.
Lemma placeholders_running k id r n l : as_running cfg k id r -> 0 <= n ->
  as_running cfg k id (set_spec_token_ids l (set_num_output_placeholders n r)).
Proof. intros [[]]. split; try done. split; try done. eapply kl_hashed_update; [done..|by right]. Qed.

Lemma after_schedule_spec E s o :
  let l := out_num_scheduled_tokens o in
  inv cfg E s -> NoDup l.*1 ->
  (forall id n, (id, n) ∈ l -> id ∈ running s /\ exists r, objects s !! id = Some r /\ fits (kv_cache_manager s) id n r) ->
  exists o' s', after_schedule cfg o s = Ok (o', s') /\ inv cfg E s' /\ touched (set_finished_req_ids ∅ s) s' /\
    out_num_scheduled_tokens o' = l /\ out_total_num_scheduled_tokens o' = out_total_num_scheduled_tokens o /\
    out_finished_req_ids o' = out_finished_req_ids o /\ out_spec_decode_tokens o' = out_spec_decode_tokens o /\
    (forall id n, (id, n) ∈ l -> exists r r', objects s !! id = Some r /\ objects s' !! id = Some r' /\
      stepped (default [] (out_spec_decode_tokens o !! id)) n r r') /\
    (forall x, x ∉ l.*1 -> objects s' !! x = objects s !! x) /\
    (out_pending_structured_output o' = true -> exists id r, id ∈ l.*1 /\ objects s !! id = Some r /\ 0 < num_output_placeholders r).
Proof.
  intros l Hi Hnd Hl. unfold after_schedule, update_after_schedule. fold l.
  destruct (objects_loop E after_schedule_one (fits (kv_cache_manager s)) (fun _ n r r' => stepped_base n r r') (fun _ => True) (kv_cache_manager s))
    with (l := l) (s := s) (fl := false) as (fl & s1 & Hf1 & Hi1 & Ht1 & HP1 & Hout1 & _); try done.
  { intros id n r fl s1 Hk Hi1 Hin Hr (Hn & Hmax & Hcov) Har. unfold after_schedule_one. cbn [fst snd].
    rewrite (get_request_running E s1 id r) by done. cbn [mbind result_bind of_option].
    assert (Htext : mm_features r = []) by apply Har. unfold has_encoder_inputs. rewrite Htext. cbn [mbind result_bind].
    eexists _, _. split; [done|]. split; [done|]. split; [by split|]. split; [|auto]. apply advance_running; [done|pose proof (ar_computed _ _ _ _ Har); lia|done]. }
  rewrite Hf1. cbn [mbind result_bind]. set (s2 := set_finished_req_ids ∅ s1).
  assert (Hi2 : inv cfg E s2) by (by destruct Hi1).
  assert (Ht2 : touched (set_finished_req_ids ∅ s) s2) by (destruct Ht1 as [? Er]; split; [done|]; unfold s2; rewrite Er; by destruct s).
  destruct (async cfg) eqn:Easync; cbn [mbind result_bind].
  - destruct (objects_loop E (async_after_one cfg (out_spec_decode_tokens o)) (fun _ _ _ => True) (fun id _ r r' => stepped_async (default [] (out_spec_decode_tokens o !! id)) r r')
        (fun r => 0 < num_output_placeholders r) (kv_cache_manager s2))
      with (l := l) (s := s2) (fl := false) as (fl3 & s3 & Hf3 & Hi3 & Ht3 & HP3 & Hout3 & HM3); try done.
    { intros id n r fl3 s3 Hk Hi3 Hin Hr _ Har. unfold async_after_one. cbn [fst].
      rewrite (get_request_running E s3 id r) by done. cbn [mbind result_bind of_option].
      destruct (is_prefill_chunk r) eqn:Ech.
      - exists fl3, r. rewrite (put_same s3 id r) by (done || apply Har). split_and!; try done; [|by left]. unfold stepped_async, advances, expected. rewrite Ech. split_and!; done || lia.
      - eexists _, _. split; [done|]. split; [|split; [by split|split; [apply placeholders_running; [done|]|]]].
        { unfold stepped_async, advances, expected. rewrite Ech. split_and!; try done. cbn. lia. }
        { pose proof (lv_placeholders _ _ _ _ (ar_live _ _ _ _ Har)). unfold zlen. lia. }
        { intros [?|[_ Hph%Z.ltb_lt]%andb_true_iff]%orb_true_iff; [by left|by right]. } }
    { intros id n Hx. destruct (HP1 id n Hx) as (_ & r' & _ & ? & _). destruct (Hl id n Hx) as [Hin _]. split; [|by exists r'].
      change (id ∈ running s1). rewrite (tc_rest _ _ Ht1). done. }
    rewrite Hf3. cbn [mbind result_bind]. eexists _, s3. split; [done|]. split; [done|]. split; [by eapply touched_trans|]. split_and!; try done.
    + intros id n Hx. destruct (HP1 id n Hx) as (r & r1 & Hr & Hr1 & [A1 A2] & A3 & A4). destruct (HP3 id n Hx) as (r1' & r3 & Hr1' & Hr3 & [B1 B2] & B3 & B4).
      change (objects s1 !! id = Some r1') in Hr1'. rewrite Hr1 in Hr1'. injection Hr1' as <-. exists r, r3. unfold stepped, expected in *. rewrite <- A3. split_and!; try done; [split; [lia|congruence]|]. by rewrite B4, A4, B3, Easync.
    + intros x Hx. rewrite Hout3 by done. by apply Hout1.
    + cbn [out_pending_structured_output]. intros Hfl. destruct (HM3 Hfl) as [|(x & r1 & Hx & Hr1 & Hph)]; [done|].
      pose proof Hx as ([y n] & -> & Hin)%list_elem_of_fmap. cbn in *. destruct (HP1 y n Hin) as (r & r1' & Hr & Hr1' & _ & _ & A4).
      rewrite Hr1 in Hr1'. injection Hr1' as <-. exists y, r. rewrite <- A4. done.
  - eexists _, s2. split_and!; try done. intros id n Hx. destruct (HP1 id n Hx) as (r & r1 & Hr & Hr1 & A1 & A3 & A4).
    exists r, r1. unfold stepped. rewrite Easync. split_and!; try done. lia.
Qed.

(** ** The assertions of [schedule] *)

Lemma step_counts B s t : step_done B s t ->
  zlen (scheduled_new_reqs t) + zlen (scheduled_resumed_reqs t) + zlen (scheduled_running_reqs t) <= zlen (running s).
Proof.
  intros [_ Hs Hk _ _]. pose proof (sk_keys _ _ _ _ Hs) as Hp. apply Permutation_length in Hp. rewrite !length_app in Hp.
  assert (Hle : (length (keys t) <= length (running s))%nat) by (apply submseteq_length, NoDup_submseteq; [apply Hs|done]).
  unfold zlen. lia.
Qed.

Lemma step_entry B s t id : step_done B s t ->
  id ∈ scheduled_running_reqs t ++ scheduled_new_reqs t ++ scheduled_resumed_reqs t ->
  is_Some (objects s !! id) /\ is_Some (req_to_new_blocks t !! id) /\ id ∈ keys t.
Proof.
  intros [Hi Hs Hk _ _] Hin. rewrite <- (sk_keys _ _ _ _ Hs) in Hin. split; [|split; [by apply Hs|done]].
  destruct (co_run _ _ _ _ Hi id (Hk id Hin)) as (r & ? & _). by exists r.
Qed.

(** The state in which the output is built, whatever the KV cache and the encoder cache
    manager hand out. *)
Lemma inv_rest E s k e p : inv cfg E s -> kv_ok k -> kv_keeps (fun _ => True) (kv_cache_manager s) k ->
  inv cfg E (set_encoder_cache_manager e (set_kv_cache_manager k (set_prev_step_scheduled_req_ids p s))).
Proof. intros Hi Hok Hk. pose proof (core_kv cfg _ _ s k Hi Hok Hk) as Hc. by destruct Hc. Qed.

(** What the end of a step leaves of its state, and the output. *)
Record finished s t (o : SchedulerOutput) s' : Prop := {
  fi_inv : inv cfg [] s';
  fi_resumable : resumable_now (queued s') s';
  fi_running : running s' = running s;
  fi_requests : requests s' = requests s;
  fi_pause : pause_state s' = pause_state s;
  fi_flushed : finished_req_ids s' = ∅;
  fi_scheduled : out_num_scheduled_tokens o = num_scheduled_tokens t;
  fi_total : out_total_num_scheduled_tokens o = spent t;
  fi_finished : out_finished_req_ids o = finished_req_ids s;
  fi_spec : out_spec_decode_tokens o = scheduled_spec_decode_tokens t;
  fi_stepped : forall id n, (id, n) ∈ num_scheduled_tokens t -> exists r r', objects s !! id = Some r /\ objects s' !! id = Some r' /\
    stepped (spec_of id t) n r r';
  fi_others : forall x, x ∉ keys t -> objects s' !! x = objects s !! x;
  fi_order : same_order s s';
  fi_waiting : waiting s' = waiting s;
  fi_pending : out_pending_structured_output o = true ->
    exists id r, id ∈ keys t /\ objects s !! id = Some r /\ 0 < num_output_placeholders r;
}.

Lemma finish_schedule_spec B s t :
  B <= max_num_scheduled_tokens cfg -> step_done B s t ->
  exists o s', finish_schedule cfg s t = Ok (o, s') /\ finished s t o s'.
Proof.
  intros HB Hd. pose proof Hd as [Hi Hs Hk Hres Hlen]. unfold finish_schedule. fold (spent t).
  pose proof (sk_budget _ _ _ _ Hs) as Hbud. pose proof (sk_left _ _ _ _ Hs) as Hleft.
  rewrite (proj2 (Z.leb_le (spent t) _)) by lia. rewrite (proj2 (Z.leb_le 0 (token_budget t))) by lia.
  rewrite (proj2 (Z.leb_le _ _) Hlen), (proj2 (Z.leb_le _ _) (step_counts B s t Hd)). cbn [py_assert mbind result_bind].
  assert (Hprefix : exists p k1, (match running s with
    | [] => (replicate (num_groups cfg) 0, kv_cache_manager s) | id :: _ => kv_common_prefix id (kv_cache_manager s) end) = (p, k1) /\
    kv_ok k1 /\ kv_keeps (fun _ => True) (kv_cache_manager s) k1).
  { destruct (running s) as [|id l]; [eexists _, _; split; [done|]; split; [apply Hi|apply keeps_refl]|].
    destruct (kl_common (kv_cache_manager s) id (co_kv _ _ _ _ Hi)) as [? ?]. destruct (kv_common_prefix id _) as [p k1]. by exists p, k1. }
  destruct Hprefix as (p & k1 & -> & Hok1 & Hkeep1). set (s1 := set_kv_cache_manager k1 s).
  set (new_reqs := if use_v2_model_runner cfg then _ ++ _ else _). set (resumed := if use_v2_model_runner cfg then [] else _).
  destruct (new_data_total (use_v2_model_runner cfg) new_reqs s1 t) as [nd ->].
  { intros id Hin. destruct (step_entry B s t id Hd) as (? & ? & _); [|done]. unfold new_reqs in Hin.
    destruct (use_v2_model_runner cfg); set_solver. }
  cbn [mbind result_bind]. unfold make_cached_request_data.
  destruct (cached_data_total false (scheduled_running_reqs t) s1 t (mkCached [] ∅ [] ∅ [] [] [])) as [c1 ->].
  { intros id Hin. destruct (step_entry B s t id Hd) as (? & ? & ?); [set_solver|done]. }
  cbn [mbind result_bind].
  destruct (cached_data_total true resumed s1 t c1) as [c2 ->].
  { intros id Hin. assert (Hin' : id ∈ scheduled_resumed_reqs t) by (unfold resumed in Hin; destruct (use_v2_model_runner cfg); [by apply elem_of_nil in Hin|done]).
    destruct (step_entry B s t id Hd) as (? & ? & ?); [set_solver|]. split_and!; try done. intros _. by apply Hres. }
  cbn [mbind result_bind]. set (s2 := set_prev_step_scheduled_req_ids _ s1).
  assert (Htake : exists ids k2, (if needs_kv_cache_zeroing cfg then kv_take_ids (kv_cache_manager s2) else ([], kv_cache_manager s2)) = (ids, k2) /\
    kv_ok k2 /\ kv_keeps (fun _ => True) k1 k2).
  { change (kv_cache_manager s2) with k1. destruct (needs_kv_cache_zeroing cfg); [|eexists _, _; split; [done|]; split; [done|apply keeps_refl]].
    destruct (kl_take_ids k1 Hok1) as [? ?]. destruct (kv_take_ids k1) as [ids k2]. by exists ids, k2. }
  destruct Htake as (ids & k2 & -> & Hok2 & Hkeep2). change (encoder_cache_manager s2) with (encoder_cache_manager s).
  destruct (enc_freed_hashes (encoder_cache_manager s)) as [freed enc]. pose proof (keeps_trans _ _ _ _ Hkeep1 Hkeep2) as Hkeep.
  set (s3 := set_encoder_cache_manager enc (set_kv_cache_manager k2 s2)).
  assert (Hi3 : inv cfg [] s3) by exact (inv_rest [] s k2 enc _ Hi Hok2 Hkeep).
  match goal with |- context [after_schedule cfg ?o s3] => destruct (after_schedule_spec [] s3 o Hi3) as
    (o' & s' & Ha & Hi' & Ht' & E1 & E2 & E3 & E4 & Hadv & Hout & Hpend) end.
  - apply Hs.
  - intros id n Hin. assert (Hik : id ∈ keys t) by (by apply (list_elem_of_fmap_2 fst) in Hin). split; [by apply Hk|].
    cbn in Hin. apply (dict_get_elem _ _ _ (sk_nodup _ _ _ _ Hs)) in Hin. destruct (sk_tokens _ _ _ _ Hs id n Hin) as (Hn & r & Hr & Hmax & Hcov & _).
    exists r. split; [done|]. split_and!; try done. by eapply fr_covers.
  - rewrite Ha. exists o', s'. destruct Ht' as [Ho Er].
    split; [reflexivity|]. split; try done; try (by rewrite Er).
    intros x r Hx _ _. rewrite Er. change (x ∉ (list_to_set (keys t) : gset string)). rewrite elem_of_list_to_set. intros Hxk.
    destruct (core_nodup _ _ _ _ Hi') as (_ & _ & Hdis). apply (Hdis x); [rewrite Er; by apply Hk|]. rewrite app_nil_r. exact Hx.
Qed.

(** ** The whole step *)

(** The state between two calls of the scheduler: every request is in exactly one place
    ([inv]), a preempted one was not in the last step, the running ones are not too many. *)
Record sched_ok s : Prop := {
  so_inv : inv cfg [] s;
  so_resumable : resumable_now (queued s) s;
  so_running : zlen (running s) <= max_num_running_reqs cfg;
}.
(** The last outputs of the running requests have arrived. *)
Definition all_settled s : Prop := forall id, id ∈ running s -> exists r, objects s !! id = Some r /\ settled r.

(** No LoRA limit and no Mamba alignment. *)
Record plain_config : Prop := {
  pc_loras : max_loras cfg = None;
  pc_mamba : need_mamba_block_aligned_split cfg = false;
  pc_lookahead : 0 <= num_lookahead_tokens cfg;
  pc_budget : 0 <= max_num_scheduled_tokens cfg;
}.

(** What a scheduled request is after the step. *)
Definition scheduled_ok s s' id (n : Z) : Prop :=
  id ∈ running s' /\ 0 < n /\ exists r', objects s' !! id = Some r' /\ n <= num_computed_tokens r' < max_model_len cfg /\
    kv_covers (kv_cache_manager s') id (num_computed_tokens r') /\
    (id ∈ running s -> forall r, objects s !! id = Some r -> advances n r r').

Lemma first_step_ok s : step_ok cfg (token_budget (first_step cfg s)) s (first_step cfg s) \/ max_num_scheduled_tokens cfg < 0.
Proof.
  destruct (Z.ltb_spec (max_num_scheduled_tokens cfg) 0); [by right|left]. split; cbn; try done.
  - constructor.
  - intros id Hid. by apply elem_of_nil in Hid.
  - unfold spent. cbn. lia.
  - destruct (bool_decide _); lia.
Qed.

(** The state after each part of a step. *)
Record staged s s1 t1 s2 t2 (o : SchedulerOutput) s' : Prop := {
  sg_moves : moves (set_kv_cache_manager (kv_new_step (kv_cache_manager s)) s) (first_step cfg s) s1 t1;
  sg_frame : frame (fun x => x ∈ running s1) s1 s2;
  sg_quiet : preempted_reqs t1 <> [] -> s2 = s1;
  sg_new : exists new, running s2 = running s1 ++ new /\ keys t2 = keys t1 ++ new;
  sg_done : step_done (token_budget (first_step cfg s)) s2 t2;
  sg_finished : finished s2 t2 o s';
}.

Lemma schedule_stages s : plain_config -> sched_ok s -> all_settled s ->
  exists s1 t1 s2 t2 o s', schedule cfg grammar_ready s = Ok (o, s') /\ staged s s1 t1 s2 t2 o s'.
Proof.
  intros [Hlora Hmamba Hlook Hpos] [Hi Hres Hlen] Hset. unfold schedule.
  destruct (kl_new_step (kv_cache_manager s)) as [Hok0 Hkeep0]; [apply Hi|]. set (s0 := set_kv_cache_manager _ s).
  assert (Hi0 : inv cfg [] s0) by exact (core_kv cfg _ _ s _ Hi Hok0 Hkeep0).
  change (first_step cfg s0) with (first_step cfg s). set (t0 := first_step cfg s). set (B := token_budget t0).
  destruct (first_step_ok s0) as [Hs0|]; [|lia]. change (first_step cfg s0) with t0 in Hs0. fold B in Hs0.
  destruct (running_loop_spec cfg B [] (length (running s0)) s0 t0 0) as (s1 & t1 & Hloop & Hi1 & Hs1 & Hor1 & _ & Hmv1 & Hk1); try done.
  { intros x Hx _. destruct (Hset x Hx) as (r & ? & ?). by exists r. }
  { intros x Hx. by apply elem_of_nil in Hx. }
  { lia. }
  change (Z.of_nat 0) with 0 in Hloop. rewrite Hloop. cbn [mbind result_bind]. pose proof Hmv1 as [Hf1 Hr1 Hq1 _ _ _].
  assert (Hiter1 : forall q, iter s1 q = iter s q) by (intros q; apply (same_order_iter s0 s1 q), Hf1).
  assert (Hlen1 : zlen (running s1) <= zlen (running s)).
  { unfold zlen. apply inj_le, submseteq_length, NoDup_submseteq; [by eapply inv_nodup|exact Hr1]. }
  destruct (schedule_waiting_spec B s1 t1) as (s2 & t2 & Hwait & Hd2 & Hf2 & Hpre & Hnew); try done; [|lia|].
  { intros Hp. destruct (Hq1 Hp) as (_ & Ew & Es & _). intros x r. unfold queued. rewrite Ew, Es, !Hiter1.
    intros Hx. rewrite (sf_prev _ _ _ Hf1). rewrite (sf_objects _ _ _ Hf1).
    - by apply Hres.
    - intros Hxr. destruct (core_nodup _ _ _ _ Hi) as (_ & _ & Hdis). apply (Hdis x Hxr). by rewrite app_nil_r. }
  rewrite Hwait. cbn [mbind result_bind].
  destruct (finish_schedule_spec B s2 t2) as (o & s' & Hfin & Hend);
    [unfold B, t0; cbn; destruct (bool_decide _); lia|done|].
  rewrite Hfin. by exists s1, t1, s2, t2, o, s'.
Qed.

(** The tokens of a step. *)
Lemma spent_nonneg B s t : step_ok cfg B s t -> 0 <= spent t.
Proof.
  intros Hs. unfold spent. assert (Hall : Forall (fun n => 0 <= n) (num_scheduled_tokens t).*2).
  { apply Forall_forall. intros n Hn. apply list_elem_of_fmap in Hn as ([id m] & -> & Hin). cbn.
    apply (dict_get_elem _ _ _ (sk_nodup _ _ _ _ Hs)) in Hin. destruct (sk_tokens _ _ _ _ Hs id m Hin). lia. }
  clear -Hall. induction Hall; cbn; lia.
Qed.

(** A running request that stays is not changed before the end of the step. *)
Lemma staged_running s s1 t1 s2 t2 o s' id r : staged s s1 t1 s2 t2 o s' -> id ∈ running s1 -> objects s !! id = Some r ->
  exists r2, objects s2 !! id = Some r2 /\ same_tokens r r2.
Proof.
  intros Hg Hx Hr. destruct (mv_tokens _ _ _ _ (sg_moves _ _ _ _ _ _ _ Hg) id r Hx Hr) as (r1 & Hr1 & Hst).
  exists r1. by rewrite (sf_objects _ _ _ (sg_frame _ _ _ _ _ _ _ Hg) id Hx).
Qed.

(** Who was running and still is was running between the two loops. *)
Lemma staged_stays s s1 t1 s2 t2 o s' id : staged s s1 t1 s2 t2 o s' -> id ∈ running s -> id ∈ running s' -> id ∈ running s1.
Proof.
  intros Hg Hin Hin'. rewrite (fi_running _ _ _ _ (sg_finished _ _ _ _ _ _ _ Hg)) in Hin'.
  destruct (preempted_reqs t1) as [|v vs] eqn:Ep1.
  - destruct (mv_quiet _ _ _ _ (sg_moves _ _ _ _ _ _ _ Hg) Ep1) as (_ & _ & _ & ->). done.
  - rewrite <- (sg_quiet _ _ _ _ _ _ _ Hg); [done|]. by rewrite Ep1.
Qed.

Lemma schedule_spec s : plain_config -> sched_ok s -> all_settled s ->
  exists s1 t1 s2 t2 o s', schedule cfg grammar_ready s = Ok (o, s') /\ staged s s1 t1 s2 t2 o s' /\
    sched_ok s' /\ requests s' = requests s /\ pause_state s' = pause_state s /\
    finished_req_ids s' = ∅ /\ out_finished_req_ids o = finished_req_ids s /\
    out_total_num_scheduled_tokens o = foldr Z.add 0 (out_num_scheduled_tokens o).*2 /\
    0 <= out_total_num_scheduled_tokens o <= (if bool_decide (pause_state s = PAUSED_ALL) then 0 else max_num_scheduled_tokens cfg) /\
    NoDup (out_num_scheduled_tokens o).*1 /\
    (forall id n, (id, n) ∈ out_num_scheduled_tokens o -> scheduled_ok s s' id n).
Proof.
  intros Hc Hs Hset. destruct (schedule_stages s Hc Hs Hset) as (s1 & t1 & s2 & t2 & o & s' & Hsch & Hg).
  exists s1, t1, s2, t2, o, s'. split; [done|]. split; [done|]. pose proof Hg as [Hmv Hf2 _ _ Hd2 [Hi' Hres' Er Eq Ep Ef En Et Efo _ Hadv _ _ _]].
  pose proof (mv_frame _ _ _ _ Hmv) as Hf1. pose proof (sd_step _ _ _ Hd2) as Hs2.
  pose proof (sk_budget _ _ _ _ Hs2) as Hb2. pose proof (sk_left _ _ _ _ Hs2) as Hl2. pose proof (spent_nonneg _ _ _ Hs2).
  split; [split; [done|done|rewrite Er; apply Hd2]|].
  split; [by rewrite Eq, (sf_requests _ _ _ Hf2), (sf_requests _ _ _ Hf1)|].
  split; [by rewrite Ep, (sf_pause _ _ _ Hf2), (sf_pause _ _ _ Hf1)|]. split; [done|].
  split; [by rewrite Efo, (sf_finished _ _ _ Hf2), (sf_finished _ _ _ Hf1)|]. split; [by rewrite Et, En|].
  split; [rewrite Et; cbn in Hb2; lia|]. split; [rewrite En; apply Hs2|].
  intros id n. rewrite En. intros Hin. destruct (Hadv id n Hin) as (r2 & r' & Hr2 & Hr' & [E1 E2] & _).
  assert (Hids : id ∈ running s2) by (apply Hd2; by apply (list_elem_of_fmap_2 fst) in Hin).
  assert (Hn : 0 < n) by (apply (dict_get_elem _ _ _ (sk_nodup _ _ _ _ Hs2)) in Hin; by destruct (sk_tokens _ _ _ _ Hs2 id n Hin)).
  destruct (co_run _ _ _ _ (sd_inv _ _ _ Hd2) id Hids) as (r2' & Hr2' & Har2). rewrite Hr2 in Hr2'. injection Hr2' as <-.
  rewrite <- Er in Hids. destruct (co_run _ _ _ _ Hi' id Hids) as (r0 & Hr0 & Har). rewrite Hr' in Hr0. injection Hr0 as <-.
  split; [done|]. split; [done|]. exists r'. split; [done|]. pose proof (ar_computed _ _ _ _ Har). pose proof (ar_computed _ _ _ _ Har2).
  split; [lia|]. split; [apply Har|]. intros Hrun r Hr.
  destruct (staged_running _ _ _ _ _ _ _ id r Hg (staged_stays _ _ _ _ _ _ _ id Hg Hrun Hids) Hr) as (r2' & Hr2' & C1 & C2 & _).
  rewrite Hr2 in Hr2'. injection Hr2' as <-. split; congruence.
Qed.

(** What a step does with each request: [so_idle] and [so_scheduled] say how far it is. *)
Definition expects (o : SchedulerOutput) s id : Z :=
  match dict_get id (out_num_scheduled_tokens o), objects s !! id with
  | Some _, Some r => expected (default [] (out_spec_decode_tokens o !! id)) r
  | _, _ => 0
  end.
Record stepped_request (o : SchedulerOutput) s s' id r r' : Prop := {
  so_tokens : all_token_ids r' = all_token_ids r;
  so_placeholders : num_output_placeholders r' = num_output_placeholders r + (if async cfg then expects o s' id else 0);
  so_place : id ∈ running s -> id ∈ running s' \/ id ∈ iter s' (waiting s');
  so_idle : id ∈ running s' -> dict_get id (out_num_scheduled_tokens o) = None ->
    id ∈ running s /\ num_computed_tokens r' = num_computed_tokens r;
  so_scheduled : forall n, dict_get id (out_num_scheduled_tokens o) = Some n -> id ∈ running s' /\
    (id ∈ running s -> num_computed_tokens r' = num_computed_tokens r + n) /\ 0 < n /\
    (is_prefill_chunk r' = true -> num_computed_tokens r' < num_tokens r' + num_output_placeholders r) /\
    (is_prefill_chunk r' = false -> num_computed_tokens r' = num_tokens r' + num_output_placeholders r +
       zlen (default [] (out_spec_decode_tokens o !! id)));
}.

Lemma staged_request s s1 t1 s2 t2 o s' id r : staged s s1 t1 s2 t2 o s' -> objects s !! id = Some r ->
  exists r', objects s' !! id = Some r' /\ stepped_request o s s' id r r'.
Proof.
  intros Hg Hr. pose proof Hg as [Hmv Hf2 Hq (new & Hn1 & Hn2) Hd [_ _ Er _ _ _ En _ _ Esp Hadv Hout Ho Ew]].
  destruct (sf_stable _ _ _ (mv_frame _ _ _ _ Hmv) id r Hr) as (r1 & Hr1 & T1 & P1).
  destruct (sf_stable _ _ _ Hf2 id r1 Hr1) as (r2 & Hr2 & T2 & P2).
  assert (Hplace : id ∈ running s -> id ∈ running s' \/ id ∈ iter s' (waiting s')).
  { intros Hin. rewrite Er, Ew, (proj1 (same_order_iter s2 s' _ Ho)), Hn1, elem_of_app.
    destruct (mv_lost _ _ _ _ Hmv id Hin) as [?|Hw]; [by left; left|].
    destruct (preempted_reqs t1) as [|v vs] eqn:Ep1; [|right; by rewrite Hq].
    destruct (mv_quiet _ _ _ _ Hmv Ep1) as (_ & _ & _ & ->). by left; left. }
  assert (Hsame : id ∈ running s -> id ∈ running s' -> num_computed_tokens r2 = num_computed_tokens r).
  { intros Hin Hin'. destruct (staged_running _ _ _ _ _ _ _ id r Hg (staged_stays _ _ _ _ _ _ _ id Hg Hin Hin') Hr) as (x & Hx & Hc & _).
    rewrite Hr2 in Hx. by injection Hx as <-. }
  destruct (dict_get id (num_scheduled_tokens t2)) as [n|] eqn:Eg.
  - pose proof (dict_get_Some_in _ _ _ Eg) as Hin. destruct (Hadv id n Hin) as (r2' & r' & Hr2' & Hr' & [A1 A2] & A3 & A4).
    rewrite Hr2 in Hr2'. injection Hr2' as <-. exists r'. split; [done|].
    destruct (sk_tokens _ _ _ _ (sd_step _ _ _ Hd) id n Eg) as (Hn & r2' & Hr2' & _ & _ & Hca). rewrite Hr2 in Hr2'. injection Hr2' as <-.
    assert (Hrun : id ∈ running s') by (rewrite Er; apply Hd; by apply (list_elem_of_fmap_2 fst) in Hin).
    assert (Hex : expects o s' id = expected (spec_of id t2) r') by (unfold expects, spec_of; by rewrite En, Eg, Hr', Esp).
    split; [congruence|rewrite Hex; lia|done|by rewrite En, Eg|]. intros m. rewrite En, Eg, Esp. intros [= <-].
    split; [done|]. split; [intros Hx; rewrite A1; by rewrite Hsame|]. split; [done|]. fold (spec_of id t2). unfold caught, num_tokens in *. rewrite A3, A1, A2.
    split; [intros ?%Z.ltb_lt; lia|]. intros Hge%Z.ltb_ge. destruct Hca as [Hle Heq].
    destruct (spec_of id t2) as [|x l]; [unfold zlen in *; cbn in *; lia|]. rewrite Heq by done. lia.
  - assert (Hk : id ∉ keys t2) by (by apply dict_get_None in Eg). exists r2. split; [by rewrite (Hout id Hk)|].
    assert (Hex : expects o s' id = 0) by (unfold expects; by rewrite En, Eg).
    split; [congruence|rewrite Hex; destruct (async cfg); lia|done| |by rewrite En, Eg]. intros Hin' _.
    assert (Hin : id ∈ running s).
    { apply (mv_running _ _ _ _ Hmv). rewrite Er, Hn1, elem_of_app in Hin'. destruct Hin' as [?|Hx]; [done|].
      exfalso. apply Hk. rewrite Hn2, elem_of_app. by right. }
    split; [done|]. by apply Hsame.
Qed.
End Finish.
