(* ===== verification/SchedulerKV.v ===== *)
(** * The KV cache manager under the scheduler

    [KVCacheManager] (vllm/v1/core/kv_cache_manager.py) meets the contract [KVLaws] that
    the scheduler's theorems use, without prefix caching for any groups of decoder
    attention, and with prefix caching for one full attention group (the coordinator
    [UnitaryKVCacheCoordinator]). *)
From S2P Require Import Prelude FreeQueue Request BlockHash KVCacheSpec BlockPool PoolSafety SingleTypeManager CacheHit Coordinator KVCacheManager KVCacheSafety KVCacheRun KVCacheTheorems RequestQueue SchedulerState SchedulerLaws.

Section Laws.
Context (hash_fn : bytes * list Z * option (list hkey) -> bytes) (NONE_HASH : bytes) (hasher : option block_hasher) (use_int : bool).
(** Documented behaviour of the hash function: it does not collide, and its digests are
    neither empty nor the seed of the first block. *)
Hypothesis hash_fn_inj : forall x y, hash_fn x = hash_fn y -> x = y.
Hypothesis hash_fn_digest : forall x, hash_fn x <> NONE_HASH /\ hash_fn x <> [].

(** ** What the scheduler sees *)

Definition fresh_in (id : string) (m : STManager) : Prop := rb_get id m = [] /\ num_cached_block m !! id = None.
Definition covers_in (id : string) (n : Z) (m : STManager) : Prop := 0 < st_block_size m /\ cdiv n (st_block_size m) <= zlen (rb_get id m).
Definition fresh k id : Prop := Forall (fresh_in id) (managers k).
Definition covered k id n : Prop := Forall (covers_in id n) (managers k).
(** The hashes of a request: the chain of those of its full blocks. *)
Definition hashed k r : Prop :=
  km_enable_caching k = true -> mm_features r = [] /\ hashes_ok hash_fn NONE_HASH r (hash_block_size (km_pool k)).
(** Requests are hashed for this manager, or not at all. *)
Definition hasher_of k : Prop :=
  hasher = if km_enable_caching k then Some (request_block_hasher hash_fn NONE_HASH (hash_block_size (km_pool k))) else None.
Definition hit_in k (n : Z) (m : STManager) (c : list blkref) : Prop :=
  computed_ok (km_pool k) c /\ (st_enable_caching m = false -> c = []) /\ zlen c * st_block_size m <= n.
Definition hit k (r : Request) (b : KVCacheBlocks) (n : Z) : Prop :=
  match b with EmptyBlocks => n = 0 | Blocks bs => Forall2 (hit_in k n) (managers k) bs end.

(** The coordinators covered. *)
Definition plain_kind k : Prop :=
  match co_kind (coordinator k) with
  | NoPrefixCache => km_enable_caching k = false
  | Unitary s bs dcp pcp => exists m, managers k = [m] /\ st_class m = FullAttentionManager /\ is_Some (as_full s) /\
      bs = cp_block_size s dcp pcp /\ st_block_size m = bs
  | Hybrid _ _ _ => False
  end.
Definition good k : Prop := (plain_kind k /\ hasher_of k) /\ exists l, kvm_inv k l.

(** The hashes of a chain differ, and there is one for each full block. *)
Lemma chain_hashes r bs : 0 < bs -> hashes_ok hash_fn NONE_HASH r bs ->
  NoDup (Request.block_hashes r) /\ num_tokens r / bs <= zlen (Request.block_hashes r).
Proof.
  intros Hbs [-> _]. split.
  - apply NoDup_fmap_2_strong; [|apply NoDup_seq]. intros i j _ _ Hij.
    by destruct (chain_hash_inj hash_fn NONE_HASH hash_fn_inj hash_fn_digest bs r r i j Hij).
  - unfold zlen, num_full_blocks. rewrite length_fmap, length_seq. pose proof (Z.div_pos (num_tokens r) bs). unfold num_tokens, zlen in *. lia.
Qed.

(** ** Frames *)

(** What an operation on the requests outside [P] leaves alone. *)
Record same_for (P : string -> Prop) (m m' : STManager) : Prop := {
  sr_class : st_class m' = st_class m;
  sr_block : st_block_size m' = st_block_size m;
  sr_lists : forall id, P id -> rb_get id m' = rb_get id m /\ num_cached_block m' !! id = num_cached_block m !! id;
}.
Record kept (P : string -> Prop) k k' : Prop := {
  kp_managers : Forall2 (same_for P) (managers k) (managers k');
  kp_config : same_config (km_pool k) (km_pool k');
  kp_caching : km_enable_caching k' = km_enable_caching k;
  kp_max : km_max_model_len k' = km_max_model_len k;
  kp_kind : co_kind (coordinator k') = co_kind (coordinator k);
}.

Lemma same_manager_for rid m m' : same_manager rid m m' -> same_for (fun id => id <> rid) m m'.
Proof. intros (E1 & _ & E3 & _ & _ & E6). by split. Qed.

Lemma Forall2_forall (R : STManager -> STManager -> Prop) (P P' : STManager -> Prop) ms ms' :
  Forall2 R ms ms' -> (forall m m', R m m' -> P m -> P' m') -> Forall P ms -> Forall P' ms'.
Proof. intros HF HR. induction HF; intros Hall; [constructor|]. apply Forall_cons in Hall as [? ?]. constructor; eauto. Qed.

Lemma Forall2_both (R1 R2 : STManager -> STManager -> Prop) ms ms' :
  Forall2 R1 ms ms' -> Forall2 R2 ms ms' -> Forall2 (fun m m' => R1 m m' /\ R2 m m') ms ms'.
Proof. induction 1; intros H2; [constructor|]. apply Forall2_cons in H2 as [? ?]. constructor; auto. Qed.

Lemma kept_frame P k k' : kept P k k' -> kv_frame fresh covered hashed km_max_model_len P k k'.
Proof.
  intros [HF Hc Hca Hmx _]. split; [| | |done].
  - intros id Hp. unfold fresh. eapply Forall2_forall; [exact HF|]. intros m m' [_ _ Hl] [H1 H2]. destruct (Hl id Hp) as [E1 E2].
    split; congruence.
  - intros id n Hp. unfold covered. eapply Forall2_forall; [exact HF|]. unfold covers_in. intros m m' [_ -> Hl]. by destruct (Hl id Hp) as [-> _].
  - intros r Hh E. rewrite Hca in E. destruct Hc as (_ & _ & -> & _ & _ & _). by apply Hh.
Qed.

Lemma kept_kind P k k' : kept P k k' -> plain_kind k /\ hasher_of k -> plain_kind k' /\ hasher_of k'.
Proof.
  intros [HF Hc Hca _ Hk] [Hp Hh]. split; [|unfold hasher_of; rewrite Hca; by destruct Hc as (_ & _ & -> & _)].
  revert Hp. unfold plain_kind. rewrite Hk, Hca. destruct (co_kind (coordinator k)); try done.
  intros (m & Em & Ec & Hs & Hb & Hbm). rewrite Em in HF. apply Forall2_cons_inv_l in HF as (m' & ms' & [E1 E2 _] & Hnil & Em').
  apply Forall2_nil_inv_l in Hnil as ->. exists m'. rewrite E1, E2. done.
Qed.

Lemma kept_good P k k' l : kept P k k' -> plain_kind k /\ hasher_of k -> kvm_inv k' l -> good k' /\ kv_frame fresh covered hashed km_max_model_len P k k'.
Proof. intros Hk Hp Hi. split; [split; [by eapply kept_kind|by exists l]|by apply kept_frame]. Qed.

(** Operations that work on each manager without touching a list. *)
Definition quiet (m m' : STManager) : Prop := same_for (fun _ => True) m m'.
Lemma quiet_map f (ms : list STManager) : (forall m, quiet m (f m)) -> Forall2 quiet ms (f <$> ms).
Proof. intros Hf. induction ms; constructor; auto. Qed.
Lemma quiet_refl ms : Forall2 quiet ms ms.
Proof. induction ms; constructor; [by split|done]. Qed.

Lemma quiet_op o k k' : good k -> kvm_op_ok o k -> kvm_exec use_int o k = Ok k' -> Forall2 quiet (managers k) (managers k') ->
  km_enable_caching k' = km_enable_caching k -> km_max_model_len k' = km_max_model_len k ->
  co_kind (coordinator k') = co_kind (coordinator k) ->
  good k' /\ kv_frame fresh covered hashed km_max_model_len (fun _ => True) k k'.
Proof.
  intros [Hp [l Hi]] Hok He HF Hca Hmx Hkd. destruct (kvm_exec_inv use_int o k l Hi Hok) as (k2 & l2 & He2 & Hi2 & Hc).
  rewrite He in He2. injection He2 as <-. eapply kept_good; [|done|done]. by split.
Qed.

Lemma new_step_law k : good k -> good (kvm_new_step_starts k) /\ kv_frame fresh covered hashed km_max_model_len (fun _ => True) k (kvm_new_step_starts k).
Proof.
  intros Hg. apply (quiet_op KNewStep); try done. apply quiet_map. intros m. unfold st_new_step_starts. by destruct (st_class m).
Qed.

Lemma take_ids_law k : good k ->
  good (kvm_take_new_block_ids k).2 /\ kv_frame fresh covered hashed km_max_model_len (fun _ => True) k (kvm_take_new_block_ids k).2.
Proof.
  intros Hg. apply (quiet_op KTakeIds); try done. unfold kvm_take_new_block_ids. cbn [snd]. unfold managers at 2. cbn.
  rewrite <- list_fmap_compose. by apply quiet_map.
Qed.

Lemma take_events_law k : good k ->
  good (kvm_take_events k).2 /\ kv_frame fresh covered hashed km_max_model_len (fun _ => True) k (kvm_take_events k).2.
Proof.
  intros Hg. apply (quiet_op KTakeEvents); try done; unfold kvm_take_events; destruct (take_events (km_pool k)); try done. apply quiet_refl.
Qed.

Lemma reset_law k : good k ->
  good (kvm_reset_prefix_cache k).2 /\ kv_frame fresh covered hashed km_max_model_len (fun _ => True) k (kvm_reset_prefix_cache k).2.
Proof.
  intros Hg. apply (quiet_op KReset); try done; unfold kvm_reset_prefix_cache; destruct (reset_prefix_cache (km_pool k)) as [[] p]; cbn;
    try (by destruct (prefix_cache_stats k)); try apply quiet_refl.
  unfold managers. destruct (prefix_cache_stats k); apply quiet_refl.
Qed.

Lemma common_law k id : good k ->
  good (kvm_num_common_prefix_blocks id k).2 /\
  kv_frame fresh covered hashed km_max_model_len (fun _ => True) k (kvm_num_common_prefix_blocks id k).2.
Proof.
  intros Hg. apply (quiet_op (KCommonPrefix id)); try done; unfold kvm_num_common_prefix_blocks, co_num_common_prefix_blocks;
    destruct (co_kind (coordinator k)) eqn:Ek; cbn; try done; try apply quiet_refl; unfold managers; cbn; rewrite <- list_fmap_compose;
    apply quiet_map; intros m; cbn; destruct (common_snd id (co_pool (coordinator k)) m) as [-> | ->]; try done;
    (split; [unfold rb_touch; by destruct (req_to_blocks m !! id)..|]);
    (intros x _; split; [apply rb_get_touch|unfold rb_touch; by destruct (req_to_blocks m !! id)]).
Qed.

(** ** Freeing *)

(** What the operations that touch one request leave. *)
Lemma step_kept rid k k' l' : step_ok rid k k' l' -> km_enable_caching k' = km_enable_caching k -> km_max_model_len k' = km_max_model_len k ->
  kept (fun id => id <> rid) k k'.
Proof.
  intros [_ Hc HF Hk] Hca Hmx. split; try done. eapply Forall2_impl; [exact HF|]. intros m m'. apply same_manager_for.
Qed.

Lemma free_law k r : good k -> exists k', kvm_free r k = Ok k' /\ good k' /\
  kv_frame fresh covered hashed km_max_model_len (fun id => id <> request_id r) k k' /\ fresh k' (request_id r).
Proof.
  intros [Hp [l Hi]]. destruct (kvm_free_spec r k l Hi) as (k' & l' & Hf & Hs & Hfr). exists k'. split; [done|].
  assert (Hkm : km_enable_caching k' = km_enable_caching k /\ km_max_model_len k' = km_max_model_len k).
  { unfold kvm_free in Hf. destruct (co_free _ _); [by injection Hf as <-|done]. }
  destruct Hkm as [Hca Hmx]. destruct (kept_good _ _ _ l' (step_kept _ _ _ _ Hs Hca Hmx) Hp (ok_inv _ _ _ _ Hs)) as [? ?].
  split_and!; done.
Qed.

(** ** Slots *)

Lemma allocate_same r new comp ncb look ext delay enc k res r' k' : 
  allocate_slots use_int r new comp ncb look ext delay enc k = Ok (res, r', k') ->
  km_enable_caching k' = km_enable_caching k /\ km_max_model_len k' = km_max_model_len k.
Proof.
  unfold allocate_slots. intros H. destruct (_ && _); [done|]. apply bind_Ok in H as (c1 & _ & H). apply bind_Ok in H as ([need c2] & _ & H).
  destruct (_ <? need); [by injection H as <- <- <-|]. apply bind_Ok in H as (c3 & _ & H). apply bind_Ok in H as ([nb c4] & _ & H).
  destruct (_ || _); [by injection H as <- <- <-|]. apply bind_Ok in H as ([r1 c5] & _ & H). by injection H as <- <- <-.
Qed.

Lemma good_block_size k : good k -> km_enable_caching k = true -> 0 < hash_block_size (km_pool k).
Proof.
  intros [[Hp _] [l Hi]] Eca. unfold plain_kind in Hp. destruct (co_kind (coordinator k)); [congruence| |done].
  destruct Hp as (m & Em & _). assert (Hm : m ∈ managers k) by (rewrite Em; constructor).
  destruct (ki_local _ _ _ (vi_inv _ _ Hi) m Hm) as [_ Hb Hh _ Hca _ _ _ _]. rewrite <- Hh; [done|]. by rewrite <- Hca, <- (vi_caching _ _ Hi).
Qed.

(** The contract of [allocate_slots] in the scheduler's terms: [c] tokens are computed,
    counting those of the prefix hit. *)
Lemma allocate_law k r new comp ncb look :
  good k -> hashed k r -> 0 < new -> 0 <= comp -> 0 <= look -> 0 <= num_computed_tokens r ->
  num_computed_tokens r + comp + new <= km_max_model_len k ->
  (uses_prefix ncb 0 = true -> Forall2 (new_ok (request_id r) (num_computed_tokens r + comp) (km_pool k)) (managers k)
      (blocks_of (length (managers k)) (default EmptyBlocks ncb))) ->
  (uses_prefix ncb 0 = false -> forall m, m ∈ managers k -> running_ok (request_id r) (num_computed_tokens r + comp) m) ->
  exists res r' k', allocate_slots use_int r new comp ncb look 0 false 0 k = Ok (res, r', k') /\ good k' /\
    kv_frame fresh covered hashed km_max_model_len (fun id => id <> request_id r) k k' /\ memo_update r r' /\
    match res with
    | Some _ => covered k' (request_id r) (num_computed_tokens r + comp + new)
    | None => (fresh k (request_id r) -> fresh k' (request_id r)) /\
        forall n, covered k (request_id r) n -> covered k' (request_id r) n
    end.
Proof.
  intros [Hp [l Hi]] Hh Hnew Hcomp Hlook Hc Hmax Hn Hr.
  assert (Hok : slots_ok r new comp ncb look 0 k).
  { split; try done; try lia. intros Eca. destruct (Hh Eca) as [Htext Hch].
    pose proof (good_block_size k (conj Hp (ex_intro _ l Hi)) Eca) as Hbs. destruct (chain_hashes r _ Hbs Hch) as [_ Hlen].
    split; [unfold num_tokens, zlen; lia| |by destruct Hch]. etrans; [|exact Hlen]. apply Z.div_le_mono; lia. }
  destruct (allocate_slots_spec use_int r new comp ncb look 0 false 0 k l Hi Hok) as (res & r' & k' & l' & Ha & Hs & Hmu & Hres).
  destruct (allocate_same _ _ _ _ _ _ _ _ _ _ _ _ Ha) as [Hca Hmx].
  destruct (kept_good _ _ _ l' (step_kept _ _ _ _ Hs Hca Hmx) Hp (ok_inv _ _ _ _ Hs)) as [Hg Hf].
  exists res, r', k'. split_and!; try done. destruct res as [b|].
  - unfold covered. rewrite Forall_forall in Hres |- *. intros m Hm. specialize (Hres m Hm). pose proof (sl_bs _ _ (ki_local _ _ _ (vi_inv _ _ (ok_inv _ _ _ _ Hs)) m Hm)) as Hbs.
    split; [done|]. etrans; [|exact Hres]. apply cdiv_mono; lia.
  - destruct Hres as [HF _]. pose proof (Forall2_both _ _ _ _ HF (ok_others _ _ _ _ Hs)) as HF2. split.
    + apply (Forall2_forall _ _ _ _ _ HF). intros m m' [E1 E2] [H1 H2]. split; [|congruence]. rewrite H1 in E1. by apply nil_length_inv in E1.
    + intros n. apply (Forall2_forall _ _ _ _ _ HF2). unfold covers_in, zlen. intros m m' [[E1 _] (_ & _ & -> & _)]. by rewrite E1.
Qed.

(** ** Prefix hits *)

Lemma make_key_same h h' g k : make_block_hash_with_group_id h g = Ok k -> make_block_hash_with_group_id h' g = Ok k -> h = h'.
Proof.
  intros H1 H2. apply make_key_components in H1 as [<- _]. by apply make_key_components in H2 as [<- _].
Qed.

(** The columns of a hit of one group. *)
Lemma hit_blocks_ok p (hs : list bytes) css n c :
  NoDup hs -> hits_from p (Plain hs) [0] 0 css -> cols 1 (take n css) = [c] -> (n <= length css)%nat ->
  computed_ok p c /\ length c = n.
Proof.
  intros Hnd Hh Hc Hn. pose proof (hits_forall p (Plain hs) [0] 0 css Hh) as Hall.
  assert (Hallt : Forall (fun cs => length cs = 1%nat) (take n css)) by (by apply Forall_take).
  destruct (cols_col 1 _ 0 Hallt ltac:(lia)) as [Hc' Hj]. rewrite Hc in Hc'. injection Hc' as Hc'. rewrite <- Hc' in Hj.
  assert (Hlk : forall j b, c !! j = Some b -> exists h k, hs !! j = Some h /\ make_block_hash_with_group_id h 0 = Ok k /\
    valid_block p b /\ block_hash (pheap p b) = Some k).
  { intros j b Hb. rewrite Hj in Hb. apply bind_Some in Hb as (cs & Hcs & Hb). apply lookup_take_Some in Hcs as [Hcs _].
    destruct (Hh j cs Hcs) as [(h & Hha & HF) _]. destruct (Forall2_lookup_r _ _ _ _ _ HF Hb) as (g & Hg & Hv & k & Hk & Hbh).
    apply list_lookup_singleton_Some in Hg as [_ <-]. exists h, k. split_and!; try done.
    unfold hash_at in Hha. cbn in Hha. rewrite py_index_nonneg, Nat2Z.id in Hha by lia. destruct (hs !! j); [by injection Hha as ->|done]. }
  split.
  - split.
    + intros b [j Hb]%list_elem_of_lookup. destruct (Hlk j b Hb) as (h & k & _ & _ & Hv & Hbh). split; [by apply valid_in_pool|]. intros _. by exists k.
    + apply NoDup_filter, NoDup_alt. intros i j b Hi Hb. destruct (Hlk i b Hi) as (h & k & Hh1 & Hk1 & _ & Hb1).
      destruct (Hlk j b Hb) as (h' & k' & Hh2 & Hk2 & _ & Hb2). rewrite Hb1 in Hb2. injection Hb2 as <-.
      rewrite (make_key_same _ _ _ _ Hk2 Hk1) in Hh2. by eapply NoDup_lookup.
  - rewrite (cols_len 1 (take n css) 0 c Hallt) by (by rewrite Hc). rewrite length_take. lia.
Qed.

Lemma stats_law k s : good k -> good (set_stats s k) /\ kv_frame fresh covered hashed km_max_model_len (fun _ => True) k (set_stats s k).
Proof.
  intros [Hp [l [H1 H2 H3]]]. apply (kept_good _ k _ l); [|done|by split]. split; try done. apply quiet_refl.
Qed.

Lemma unitary_hit k r s bs dcp pcp :
  good k -> hashed k r -> 0 < num_tokens r -> km_enable_caching k = true -> co_kind (coordinator k) = Unitary s bs dcp pcp ->
  exists c n, unitary_find s bs dcp pcp (Request.block_hashes r) (num_tokens r - 1) (coordinator k) = Ok ([c], n) /\
    0 <= n < num_tokens r /\ zlen c * bs = n /\ 0 < bs /\ Forall2 (hit_in k n) (managers k) [c].
Proof.
  intros Hg Hh Hlen Eca Ek. destruct (chain_hashes r _ (good_block_size k Hg Eca) (proj2 (Hh Eca))) as [Hnd Hbl].
  destruct Hg as [[Hp _] [l Hi]]. unfold plain_kind in Hp. rewrite Ek in Hp.
  destruct Hp as (m & Em & Ecl & Hs & Hb & Hbm). assert (Hm : m ∈ managers k) by (rewrite Em; constructor).
  destruct (ki_local _ _ _ (vi_inv _ _ Hi) m Hm) as [_ Hpos Hhb _ Hca _ _ _ _].
  assert (Hmc : st_enable_caching m = true) by (by rewrite <- Hca, <- (vi_caching _ _ Hi)). specialize (Hhb Hmc).
  assert (Hq : (num_tokens r - 1) / bs <= zlen (Request.block_hashes r)).
  { etrans; [|exact Hbl]. rewrite <- Hhb, Hbm. apply Z.div_le_mono; lia. }
  destruct (full_find_spec (co_pool (coordinator k)) l (Plain (Request.block_hashes r)) [0] s (co_use_eagle (coordinator k)) bs dcp pcp (num_tokens r - 1))
    as (css & n & Hhit & Hle & _ & Hn & _ & _ & Hf); try done; try lia; [apply (ki_pool _ _ _ (vi_inv _ _ Hi))|by repeat constructor|by rewrite <- Hb|].
  assert (Hc : exists c, cols 1 (take n css) = [c]) by (unfold cols; cbn; by eexists). destruct Hc as [c Hc].
  destruct (hit_blocks_ok (co_pool (coordinator k)) (Request.block_hashes r) css n c Hnd Hhit Hc ltac:(lia)) as [Hok Hlc].
  exists c, (zlen c * bs). unfold unitary_find. unfold managers in Em. rewrite Em. cbn [head of_option mbind result_bind]. rewrite Ecl.
  cbn [find_longest_cache_hit]. rewrite Hf. cbn [length]. rewrite Hc. cbn [mbind result_bind]. split; [done|].
  rewrite <- Hb in Hle. assert (Hcb : zlen c <= (num_tokens r - 1) / bs) by (unfold zlen; lia).
  pose proof (Z.mul_div_le (num_tokens r - 1) bs ltac:(lia)). split; [unfold zlen in *; nia|]. split; [done|]. split; [lia|].
  change (single_type_managers (coordinator k)) with (managers k) in Em. rewrite Em. constructor; [|constructor].
  split; [done|]. split; [congruence|]. rewrite Hbm. lia.
Qed.

Lemma computed_law k r : good k -> hashed k r -> 0 < num_tokens r ->
  exists b n k', get_computed_blocks r k = Ok (b, n, k') /\ good k' /\ kv_frame fresh covered hashed km_max_model_len (fun _ => True) k k' /\
    0 <= n < num_tokens r /\ hit k' r b n.
Proof.
  intros Hg Hh Hlen. unfold get_computed_blocks. destruct (negb (km_enable_caching k) || skip_reading_prefix_cache r) eqn:E.
  { exists EmptyBlocks, 0, k. split_and!; try done. }
  apply orb_false_iff in E as [Eca%negb_false_iff _]. unfold co_find_longest_cache_hit.
  pose proof (proj1 (proj1 Hg)) as Hp. unfold plain_kind in Hp. destruct (co_kind (coordinator k)) as [|s bs dcp pcp|] eqn:Ek; [congruence| |done].
  destruct (unitary_hit k r s bs dcp pcp Hg Hh Hlen Eca Ek) as (c & n & -> & Hn & Hc & Hbs & HF). cbn [mbind result_bind].
  set (k' := match prefix_cache_stats k with Some _ => _ | None => k end).
  assert (Hk' : k' = set_stats (prefix_cache_stats k') k) by (unfold k'; destruct (prefix_cache_stats k) eqn:Es; [done|by destruct k; cbn in Es; subst]).
  destruct (stats_law k (prefix_cache_stats k') Hg) as [Hg' Hf']. rewrite <- Hk' in Hg', Hf'.
  eexists _, n, k'. split; [done|]. split_and!; try done; try lia.
  assert (Hm : managers k' = managers k /\ km_pool k' = km_pool k) by (by rewrite Hk').
  unfold create_kv_cache_blocks. cbn [existsb]. rewrite orb_false_r. destruct (Z.ltb_spec 0 (zlen c)) as [|Hz]; cbn.
  - destruct Hm as [-> Hpl]. eapply Forall2_impl; [exact HF|]. unfold hit_in. by rewrite Hpl.
  - unfold zlen in *. nia.
Qed.

(** ** Caching computed blocks *)

Lemma cache_law k r m n : good k -> hashed k r -> covered k (request_id r) n -> 0 <= m -> m <= n -> m <= num_tokens r ->
  exists r' k', kvm_cache_blocks use_int r m k = Ok (r', k') /\ good k' /\
    kv_frame fresh covered hashed km_max_model_len (fun id => id <> request_id r) k k' /\ memo_update r r' /\
    (forall i, covered k (request_id r) i -> covered k' (request_id r) i).
Proof.
  intros Hg Hh Hcov Hm Hmn Hle. pose proof Hg as [Hp [l Hi]].
  assert (Hok : kvm_op_ok (KCache r m) k).
  { intros Eca. destruct (Hh Eca) as [Htext Hch]. pose proof (good_block_size k Hg Eca) as Hbs. destruct (chain_hashes r _ Hbs Hch) as [_ Hlen].
    split; [split; [done| |by destruct Hch]|].
    - etrans; [|exact Hlen]. by apply Z.div_le_mono.
    - intros x Hx. unfold covered in Hcov. rewrite Forall_forall in Hcov. destruct (Hcov x Hx) as [Hb Hc]. etrans; [|exact Hc].
      etrans; [by apply div_le_cdiv|]. by apply cdiv_mono. }
  destruct (kvm_cache_spec use_int r m k l Hi Hok) as (r' & k' & Hf & Hs & Hmu & HF). exists r', k'. split; [done|].
  assert (Hkm : km_enable_caching k' = km_enable_caching k /\ km_max_model_len k' = km_max_model_len k).
  { unfold kvm_cache_blocks in Hf. destruct (km_enable_caching k) eqn:E; [|by injection Hf as <- <-].
    destruct (co_cache_blocks _ _ _ _) as [[r1 c]|]; [|done]. by injection Hf as <- <-. }
  destruct Hkm as [Hca Hmx]. destruct (kept_good _ _ _ l (step_kept _ _ _ _ Hs Hca Hmx) Hp (ok_inv _ _ _ _ Hs)) as [? ?].
  split_and!; try done. intros i. apply (Forall2_forall _ _ _ _ _ (Forall2_both _ _ _ _ HF (ok_others _ _ _ _ Hs))).
  unfold covers_in. intros x x' [-> (_ & _ & -> & _)]. done.
Qed.

(** ** The contract *)

Lemma skipped_le m n : attn_manager m -> 0 < st_block_size m -> 0 <= n -> skipped_blocks m n <= cdiv n (st_block_size m).
Proof.
  intros Ha Hb Hn. destruct (skipped_range n 0 Hn ltac:(lia) m Ha Hb) as [_ Hs]. rewrite Z.add_0_r in Hs. etrans; [apply Hs|]. by apply div_le_cdiv.
Qed.

Lemma good_local k m : good k -> m ∈ managers k -> attn_manager m /\ 0 < st_block_size m.
Proof. intros [_ [l Hi]] Hm. by destruct (ki_local _ _ _ (vi_inv _ _ Hi) m Hm). Qed.

Lemma covered_running k id n m : good k -> 0 <= n -> covered k id n -> m ∈ managers k -> running_ok id n m.
Proof.
  intros Hg Hn Hc Hm _. destruct (good_local k m Hg Hm) as [Ha Hb]. unfold covered in Hc. rewrite Forall_forall in Hc.
  etrans; [by apply skipped_le|]. by apply Hc.
Qed.

Lemma hit_new k id n bs : fresh k id -> Forall2 (hit_in k n) (managers k) bs -> Forall2 (new_ok id n (km_pool k)) (managers k) bs.
Proof.
  unfold fresh. generalize (managers k). intros ms Hf HF. induction HF as [|m c ms bs (? & ? & ?)]; [constructor|].
  apply Forall_cons in Hf as [[? ?] ?]. constructor; [by split|auto].
Qed.

#[global] Instance kvm_laws : @KVLaws KVCacheManager (kvm_ops use_int).
Proof.
  refine (@Build_KVLaws KVCacheManager (kvm_ops use_int) good fresh covered hashed hit km_max_model_len _ _ _ _ _ _ _ _ _ _ _ _ _).
  - intros k id m n Hc Hmn. unfold covered in *. eapply Forall_impl; [exact Hc|]. intros x [Hb Hx]. split; [done|]. etrans; [by apply cdiv_mono|done].
  - intros k r r' Hh _ Ht Hb Hm Hl Hs Hmu E. destruct (Hh E) as [H1 [H2 H3]]. rewrite Hm. split; [done|].
    assert (He : prompt_embeds r' = prompt_embeds r) by (destruct Hmu as [[[memo ->] _]|[_ ?]]; done). split.
    + rewrite Hb, H2. unfold num_full_blocks, num_tokens. rewrite Ht. apply list_fmap_ext. intros _ i _. apply chain_hash_ext; try done.
      intros j _. unfold block_tokens. by rewrite Ht.
    + destruct Hmu as [Hmu|[E1 E2]]; [by apply Hmu|]. intros a b d. rewrite E1, E2. apply H3.
  - apply new_step_law.
  - intros k r Hg Hh _ Hlen. by apply computed_law.
  - intros k r b n new Hg Hh Hfr Hhit Hc Hn Hnew Hle Hmax.
    destruct (allocate_law k r new n (Some b) 0) as (res & r' & k' & Ha & Hg' & Hf & Hmu & Hres); try done; try lia.
    + intros Hu. rewrite Hc, Z.add_0_l. destruct b as [|bs]; [done|]. by apply hit_new.
    + intros Hu m Hm _. destruct b; [|done]. cbn in Hhit. subst n. rewrite Hc. destruct (good_local k m Hg Hm) as [Ha Hb].
      etrans; [by apply skipped_le|]. rewrite cdiv_le by done. unfold zlen. nia.
    + exists res, r', k'. split_and!; try done. destruct res; [by rewrite Hc in Hres|]. by apply Hres.
  - intros k r new look Hg Hh Hc Hcov Hnew Hlook Hmax.
    destruct (allocate_law k r new 0 None look) as (res & r' & k' & Ha & Hg' & Hf & Hmu & Hres); try done; try lia.
    + intros _ m Hm. rewrite Z.add_0_r. by eapply covered_running.
    + exists res, r', k'. split_and!; try done. rewrite Z.add_0_r in Hres. destruct res; [done|]. by apply Hres.
  - apply free_law.
  - apply cache_law.
  - apply common_law.
  - apply take_ids_law.
  - apply take_events_law.
  - apply reset_law.
  - intros k b. by eexists.
Defined.

(** Requests are hashed on as the manager wants it. *)
#[global] Instance kvm_hash_laws : @HashLaws KVCacheManager (kvm_ops use_int) kvm_laws hasher.
Proof.
  intros k r toks Hg Hh. pose proof (proj2 (proj1 Hg)) as Hho. unfold hasher_of in Hho. cbn in Hh. unfold hashed in Hh.
  destruct (km_enable_caching k) eqn:Eca; rewrite Hho.
  - destruct (Hh eq_refl) as [Hm Hch].
    set (r0 := set_all_token_ids (all_token_ids r ++ toks) (set_output_token_ids (output_token_ids r ++ toks) r)).
    destruct (update_hashes_ok hash_fn NONE_HASH r0 r _ toks (good_block_size k Hg Eca) Hm Hch) as (r' & Ha & Hch' & _); try done. exists r'. split; [done|].
    unfold update_block_hashes in Ha. apply bind_Ok in Ha as ([hs memo] & _ & Ha). injection Ha as <-.
    split; [intros _; by split|]. by eexists _, _.
  - eexists. split; [done|]. split; [by intros ?; congruence|]. exists (Request.block_hashes r), (embeds_hashes r). by destruct r.
Qed.
End Laws.
