(* ===== verification/SchedulerRequests.v ===== *)
(** * Requests come and go

    [Scheduler.add_request], [finish_requests] and what they call
    (vllm/v1/core/sched/scheduler.py) keep the invariant of ScheduleSafety; the scheduler
    that was just built satisfies it. *)
From S2P Require Import Prelude FreeQueue Heapq Request RequestQueue EncoderCache StopConditions BlockHash BlockPool KVCacheManager SchedulerState ScheduleStep SchedulerUpdate SchedulerLaws ScheduleSafety ScheduleRunning ScheduleWaiting ScheduleFinish.

Section Requests.
Context {KV Q : Type} `{KVLaws KV} `{QueueLaws Q}.
Context (cfg : SchedConfig) (hasher : option block_hasher).
Implicit Types (s : Scheduler KV Q) (r : Request) (id : string).

(** The new scheduler. *)
Lemma sched_init_ok include_finished (kv : KV) enc :
  kv_ok kv -> kv_max kv = max_model_len cfg -> (forall id, kv_fresh kv id) -> 0 <= max_num_running_reqs cfg ->
  sched_ok cfg (sched_init (Q := Q) include_finished kv enc).
Proof.
  intros Hok Hmx Hfr Hrun. set (s := sched_init include_finished kv enc). destruct (new_spec s) as [Hwf Hit].
  change (new_queue s) with (waiting s) in Hwf, Hit.
  assert (Hq : queued s = []) by (unfold queued; change (skipped_waiting s) with (waiting s); by rewrite Hit).
  split; [|intros x r Hx; rewrite Hq in Hx; by apply elem_of_nil in Hx|done].
  unfold inv. rewrite Hq. split; try done.
  - apply NoDup_nil_2.
  - by intros id ?%elem_of_nil.
  - by intros id ?%elem_of_nil.
Qed.

(** A request that [add_request] may be given: text, not a session, with an id not in use. *)
Record new_request_ok s r : Prop := {
  nr_id : request_id r ∉ requests s;
  nr_object : forall x rx, x ∈ requests s -> objects s !! x = Some rx -> obj_id rx <> obj_id r;
  nr_status : status r ∈ [WAITING; WAITING_FOR_FSM];
  nr_computed : num_computed_tokens r = 0;
  nr_live : live cfg (kv_cache_manager s) (request_id r) r;
}.

Lemma inv_new_object s r : inv cfg [] s -> new_request_ok s r -> forall sq,
  let s1 := put r (set_streaming_queues sq s) in
  wf s1 (waiting s1) /\ wf s1 (skipped_waiting s1) /\ queued s1 ≡ₚ queued s /\ iter s1 (waiting s1) ≡ₚ iter s (waiting s).
Proof.
  intros Hi Hn sq s1. pose proof (core_nodup _ _ _ _ Hi) as (_ & _ & Hdis).
  assert (Hno : request_id r ∉ queued s).
  { intros Hx. apply (nr_id _ _ Hn). rewrite <- (co_part _ _ _ _ Hi), app_nil_r. apply elem_of_app. by right. }
  unfold queued in Hno. apply not_elem_of_app in Hno as [Hw Hs].
  destruct (queue_other (objects s) (request_id r) r (waiting s) (co_wq _ _ _ _ Hi) Hw) as [Hw1 Iw].
  destruct (queue_other (objects s) (request_id r) r (skipped_waiting s) (co_sq _ _ _ _ Hi) Hs) as [Hs1 Is].
  split; [done|]. split; [done|]. split; [unfold queued; f_equiv; [exact Iw|exact Is]|exact Iw].
Qed.

Lemma enqueue_spec s id r : objects s !! id = Some r -> wf s (waiting s) -> wf s (skipped_waiting s) ->
  exists s', enqueue_waiting id s = Ok s' /\ requeued s s' /\ wf s (waiting s') /\ wf s (skipped_waiting s') /\ queued s' ≡ₚ id :: queued s /\
    forall x, x ∈ iter s (waiting s) -> x ∈ iter s (waiting s').
Proof.
  intros Hr Hw Hs. unfold enqueue_waiting. rewrite (deref_Ok s id r Hr). cbn [mbind result_bind]. eexists. split; [done|].
  destruct (add_spec s id (waiting s) Hw) as [Hw' Iw]. destruct (add_spec s id (skipped_waiting s) Hs) as [Hs' Is].
  destruct (is_blocked_waiting_status (status r)); (split; [done|]); split_and!; try done; [unfold queued; cbn..|].
  - change (iter s (waiting s) ++ iter s (@add_request _ _ (ops s) id (skipped_waiting s)) ≡ₚ id :: iter s (waiting s) ++ iter s (skipped_waiting s)).
    by rewrite Is, Permutation_middle.
  - change (iter s (@add_request _ _ (ops s) id (waiting s)) ++ iter s (skipped_waiting s) ≡ₚ id :: iter s (waiting s) ++ iter s (skipped_waiting s)).
    by rewrite Iw.
  - intros x Hx. cbn. rewrite Iw. by constructor.
Qed.

(** [add_request]. *)
Lemma add_request_spec s r : sched_ok cfg s -> new_request_ok s r ->
  exists s', sched_add_request hasher r s = Ok s' /\ sched_ok cfg s' /\ requests s' = requests s ++ [request_id r] /\
    running s' = running s /\ (forall x, x ∈ requests s -> objects s' !! x = objects s !! x) /\
    kv_cache_manager s' = kv_cache_manager s /\ objects s' !! request_id r = Some r /\ queued s' ≡ₚ request_id r :: queued s /\
    forall x, x ∈ iter s (waiting s) -> x ∈ iter s' (waiting s').
Proof.
  intros [Hi Hp Hl] Hn. unfold sched_add_request. set (id := request_id r). pose proof (nr_id _ _ Hn) as Hid. fold id in Hid.
  assert (Hg : get_request id s = None) by (unfold get_request; by rewrite decide_False). rewrite Hg.
  set (s1 := put r _). destruct (inv_new_object s r Hi Hn (if resumable r then <[id := []]> (streaming_queues s) else delete id (streaming_queues s)))
    as (Hw & Hs & Hq & Hiw). fold s1 in Hw, Hs, Hq, Hiw.
  assert (Hr1 : objects s1 !! id = Some r) by apply lookup_insert_eq.
  destruct (enqueue_spec s1 id r Hr1 Hw Hs) as (s2 & He & Hrq & Hw2 & Hs2 & Hq2 & Hiw2). rewrite He. cbn [mbind result_bind].
  set (s' := set_requests _ s2). assert (Hobj : objects s' = <[id := r]> (objects s)) by exact (rq_objects _ _ Hrq).
  assert (Hkv : kv_cache_manager s' = kv_cache_manager s) by exact (rq_kv _ _ Hrq).
  assert (Hreq : requests s' = requests s ++ [id]) by (exact (f_equal (fun l => l ++ [id]) (rq_requests _ _ Hrq))).
  assert (Hrun : running s' = running s) by exact (rq_running _ _ Hrq).
  assert (Hprev : prev_step_scheduled_req_ids s' = prev_step_scheduled_req_ids s) by exact (rq_prev _ _ Hrq).
  assert (Hqs : queued s' ≡ₚ id :: queued s) by (change (queued s') with (queued s2); by rewrite Hq2, Hq).
  assert (Hin : forall x, x ∈ requests s -> x <> id) by (by intros x Hx ->).
  assert (Hrq' : forall x, x ∈ running s \/ x ∈ queued s -> x ∈ requests s).
  { intros x Hx. rewrite <- (co_part _ _ _ _ Hi), app_nil_r, elem_of_app. done. }
  assert (Hold : forall x, x ∈ requests s -> objects s' !! x = objects s !! x).
  { intros x Hx. rewrite Hobj. apply lookup_insert_ne. intros <-. by apply Hid. }
  exists s'. split; [done|]. split; [|split_and!; try done; [rewrite Hobj; apply lookup_insert_eq|]].
  2:{ intros x Hx. rewrite (proj1 (same_order_iter s1 s' _ (requeued_order _ _ Hrq))). apply Hiw2. by rewrite Hiw. }
  assert (Hsame2 : same_order s2 s') by done.
  split; [|intros x rx Hx Hrx Hpre; rewrite Hprev|by rewrite Hrun].
  - unfold inv. rewrite Hrun, app_nil_r. split.
    + rewrite Hreq. apply NoDup_app. split; [apply Hi|]. split; [|apply NoDup_singleton]. by intros x Hx ->%list_elem_of_singleton.
    + rewrite Hqs, Hreq, <- (co_part _ _ _ _ Hi), app_nil_r. rewrite <- Permutation_middle, <- Permutation_cons_append. done.
    + intros x Hx. rewrite Hold by auto. rewrite Hkv. by apply Hi.
    + intros x. rewrite Hqs, elem_of_cons, Hkv. intros [->|Hx].
      * exists r. split; [rewrite Hobj; apply lookup_insert_eq|]. destruct Hn as [_ _ Hst Hc Hlv]. split; try done; [set_solver|].
        apply Hi, Hid.
      * rewrite Hold by auto. apply Hi. by rewrite app_nil_r.
    + rewrite Hkv. apply Hi.
    + rewrite Hkv. apply Hi.
    + apply (same_order_iter s1 s2 _ (requeued_order _ _ Hrq)), Hw2.
    + apply (same_order_iter s1 s2 _ (requeued_order _ _ Hrq)), Hs2.
    + intros x. rewrite Hreq, not_elem_of_app, Hkv. intros [Hx _]. by apply Hi.
    + intros x y rx ry. rewrite Hreq, !elem_of_app, !list_elem_of_singleton. intros [Hx| ->] [Hy| ->]; rewrite ?(Hold x), ?(Hold y) by done; try done.
      * by apply Hi.
      * intros Hrx. rewrite Hobj, lookup_insert_eq. intros [= <-] E. by destruct (nr_object _ _ Hn x rx Hx Hrx).
      * rewrite Hobj, lookup_insert_eq. intros [= <-] Hry E. by destruct (nr_object _ _ Hn y ry Hy Hry).
  - rewrite Hqs, elem_of_cons in Hx. destruct Hx as [->|Hx].
    + rewrite Hobj, lookup_insert_eq in Hrx. injection Hrx as <-. pose proof (nr_status _ _ Hn) as Hst. rewrite Hpre in Hst. set_solver.
    + eapply Hp; [exact Hx| |done]. by rewrite <- Hold by auto.
Qed.
End Requests.
