(* ===== verification/SchedulerOutputs.v ===== *)
(** * What the model returns

    [Scheduler.update_from_output] and [_update_request_with_output] of both schedulers
    (vllm/v1/core/sched/scheduler.py, async_scheduler.py) keep the invariant of
    ScheduleSafety: tokens are appended and hashed until a stop condition holds, rejected
    speculative tokens are taken back, and a request that stops leaves the scheduler. *)
From S2P Require Import Prelude FreeQueue Heapq Request RequestQueue EncoderCache StopConditions BlockHash BlockPool KVCacheManager SchedulerState ScheduleStep SchedulerUpdate SchedulerLaws ScheduleSafety ScheduleRunning ScheduleWaiting ScheduleFinish SchedulerRequests.

Section Outputs.
Context {KV Q : Type} `{KVLaws KV} `{QueueLaws Q}.
Context (cfg : SchedConfig) (hasher : option block_hasher) `{!HashLaws KV hasher}.
Implicit Types (s : Scheduler KV Q) (r : Request) (id : string) (k : KV).

(** ** Appending tokens *)

(** What appending tokens and stopping leave alone, but for the placeholders. *)
Record fixed r r' : Prop := {
  fx_place : same_place r r';
  fx_text : mm_features r' = mm_features r;
  fx_single : resumable r' = resumable r;
  fx_computed : num_computed_tokens r' = num_computed_tokens r;
  fx_keep : discard_latest_async_tokens r' = discard_latest_async_tokens r;
  fx_sampling : sampling_params r' = sampling_params r;
  fx_pooling : pooling_params r' = pooling_params r;
  fx_prompt : num_prompt_tokens r' = num_prompt_tokens r;
}.
Lemma same_place_trans r1 r2 r3 : same_place r1 r2 -> same_place r2 r3 -> same_place r1 r3.
Proof. intros [E1 (? & ? & ? & ?)] [E2 (? & ? & ? & ?)]. split; [congruence|]. split_and!; congruence. Qed.
Lemma fixed_trans r1 r2 r3 : fixed r1 r2 -> fixed r2 r3 -> fixed r1 r3.
Proof. intros [] []. split; try congruence. by eapply same_place_trans. Qed.

Record grown (new : list Z) k r r' : Prop := {
  gw_tokens : all_token_ids r' = all_token_ids r ++ new;
  gw_output : output_token_ids r' = output_token_ids r ++ new;
  gw_hashed : kv_hashed k r';
  gw_fixed : fixed r r';
  gw_placeholders : num_output_placeholders r' = num_output_placeholders r;
}.
Lemma grown_trans a b k r1 r2 r3 : grown a k r1 r2 -> grown b k r2 r3 -> grown (a ++ b) k r1 r3.
Proof. intros [] []. split; [rewrite gw_tokens1, gw_tokens0; by rewrite app_assoc|rewrite gw_output1, gw_output0; by rewrite app_assoc|done|by eapply fixed_trans|congruence]. Qed.
Lemma grown_length new k r r' : grown new k r r' -> num_tokens r' = num_tokens r + zlen new /\ num_output_tokens r' = num_output_tokens r + zlen new.
Proof. intros [Ht Ho _ _ _]. unfold num_tokens, num_output_tokens, zlen. rewrite Ht, Ho, !length_app. lia. Qed.

Lemma append_token_spec k r x : kv_ok k -> kv_hashed k r ->
  exists r', append_output_token_ids hasher [x] r = Ok r' /\ grown [x] k r r' /\ status r' = status r.
Proof.
  intros Hok Hh. destruct (hl_append k r [x] Hok Hh) as (r' & Ha & Hh' & hs & memo & ->). eexists. split; [exact Ha|]. split; [|done]. by split.
Qed.

(** [check_stop] does not raise; a request that goes on is short of its minimum or of the
    model length. *)
Lemma check_stop_total r sp len : pooling_params r = None -> sampling_params r = Some sp -> output_token_ids r <> [] ->
  exists b r', check_stop r len = Ok (b, r') /\
    if b then is_finished r' = true /\ exists st sr, r' = set_stop_reason sr (set_status st r)
    else r' = r /\ (num_output_tokens r < min_tokens sp \/ num_tokens r < len).
Proof.
  intros Hp Hs Ho. unfold check_stop. rewrite Hp, Hs. cbn [py_assert of_option mbind result_bind].
  assert (Hst : forall st, set_status st r = set_stop_reason (stop_reason r) (set_status st r)) by (intros st; by destruct r).
  destruct (Z.ltb_spec (num_output_tokens r) (min_tokens sp)); [exists false, r; auto|].
  destruct (py_index_neg (output_token_ids r) 1) as (last & Hl & _).
  { unfold zlen. destruct (output_token_ids r); [done|]. cbn. lia. }
  change (- (1)) with (-1) in Hl. rewrite Hl. cbn [mbind result_bind]. case_bool_decide.
  { exists true. eexists. split; [done|]. split; [done|]. by eexists _, _. }
  case_bool_decide.
  { exists true. eexists. split; [done|]. split; [done|]. by eexists _, _. }
  destruct ((len <=? num_tokens r) || (max_tokens r <=? num_output_tokens r)) eqn:Elen.
  { exists true. eexists. split; [done|]. split; [done|]. by eexists _, _. }
  apply orb_false_iff in Elen as [Hlen%Z.leb_gt _]. destruct (repetition_detection sp) as [params|]; [|exists false, r; auto].
  destruct (check_sequence_repetition_total (output_token_ids r) params) as [b ->]. cbn [mbind result_bind]. destruct b.
  - exists true. eexists. split; [done|]. split; [done|]. by eexists _, _.
  - exists false, r. auto.
Qed.

Lemma generates_grown new k r r' : grown new k r r' -> generates cfg r -> generates cfg r'.
Proof.
  intros Hg (sp & Hs & Hn & Hm). pose proof (grown_length _ _ _ _ Hg) as [E1 E2]. pose proof (gw_fixed _ _ _ _ Hg) as Hr.
  exists sp. rewrite (fx_sampling _ _ Hr), (fx_prompt _ _ Hr), E1, E2. split; [done|lia].
Qed.

(** The loop of [_update_request_with_output]. *)
Lemma append_until_stop_spec k toks : forall kept r,
  kv_ok k -> kv_hashed k r -> pooling_params r = None -> generates cfg r -> num_tokens r < max_model_len cfg ->
  exists new stopped r', append_until_stop cfg hasher kept toks r = Ok (kept ++ new, stopped, r') /\ new `prefix_of` toks /\ grown new k r r' /\
    if stopped then is_finished r' = true /\ new <> []
    else new = toks /\ status r' = status r /\ generates cfg r' /\ num_tokens r' < max_model_len cfg.
Proof.
  induction toks as [|x toks IH]; intros kept r Hok Hh Hp Hg Hlen; cbn [append_until_stop].
  { exists [], false, r. rewrite app_nil_r. split_and!; try done. split; try done; by rewrite app_nil_r. }
  destruct (append_token_spec k r x Hok Hh) as (r1 & Ha & Hg1 & Hst1). rewrite Ha. cbn [mbind result_bind].
  pose proof (generates_grown _ _ _ _ Hg1 Hg) as Hgen1. destruct Hgen1 as (sp & Hsp & Hn & Hmin).
  assert (Hp1 : pooling_params r1 = None) by (by rewrite (fx_pooling _ _ (gw_fixed _ _ _ _ Hg1))).
  destruct (check_stop_total r1 sp (max_model_len cfg) Hp1 Hsp) as (b & r2 & Hc & Hb).
  { rewrite (gw_output _ _ _ _ Hg1). by destruct (output_token_ids r). }
  rewrite Hc. cbn [mbind result_bind]. destruct b.
  - destruct Hb as (Hf & st & sr & E). exists [x], true, r2. split; [done|]. split; [by exists toks|]. split; [|done].
    rewrite E. destruct Hg1 as [? ? ? [] ?]. split; try done. eapply kl_hashed_update; [done..|by right].
  - destruct Hb as (-> & Hb). assert (Hl1 : num_tokens r1 < max_model_len cfg) by (destruct Hb; lia).
    destruct (IH (kept ++ [x]) r1 Hok (gw_hashed _ _ _ _ Hg1) Hp1 ltac:(by exists sp) Hl1) as (new & st & r' & Hl & Hpre & Hg' & Hend).
    exists (x :: new), st, r'. rewrite Hl, <- app_assoc. split; [done|]. split; [by apply prefix_cons|].
    split; [by eapply (grown_trans [x])|]. destruct st; [by destruct Hend|]. destruct Hend as (-> & -> & ? & ?). done.
Qed.

(** ** The output of one request *)

(** What an output does to the object of a request. *)
Record delivered (new : list Z) r r' : Prop := {
  dl_tokens : num_tokens r' = num_tokens r + zlen new;
  dl_placeholders : num_output_placeholders r' = if async cfg then num_output_placeholders r - zlen new else num_output_placeholders r;
  dl_fixed : fixed r r';
}.

(** What an output may do to the KV cache. *)
Record kv_delivered id k k' : Prop := {
  kd_ok : kv_ok k';
  kd_keeps : kv_keeps (fun x => x <> id) k k';
  kd_covers : forall n, kv_covers k id n -> kv_covers k' id n;
}.

(** A running request of the async scheduler is computed up to its last token. *)
Definition async_computed k id r : Prop :=
  num_computed_tokens r = num_tokens r + num_output_placeholders r - 1 /\ kv_covers k id (num_computed_tokens r).

Lemma deliver_spec s id r toks :
  kv_ok (kv_cache_manager s) -> objects s !! id = Some r -> request_id r = id -> kv_hashed (kv_cache_manager s) r ->
  pooling_params r = None -> generates cfg r -> num_tokens r < max_model_len cfg -> discard_latest_async_tokens r = false -> toks <> [] ->
  (async cfg = true -> zlen toks <= num_output_placeholders r) ->
  (async cfg = true -> status r = RUNNING -> async_computed (kv_cache_manager s) id r) ->
  exists new stopped r' k', update_request_with_output cfg hasher id toks s = Ok (new, stopped, put r' (set_kv_cache_manager k' s)) /\
    new `prefix_of` toks /\ new <> [] /\ delivered new r r' /\ kv_hashed k' r' /\ kv_delivered id (kv_cache_manager s) k' /\
    (status r <> RUNNING -> k' = kv_cache_manager s) /\
    if stopped then is_finished r' = true
    else new = toks /\ status r' = status r /\ generates cfg r' /\ num_tokens r' < max_model_len cfg.
Proof.
  intros Hok Hr Hid Hh Hp Hg Hlen Hkeep Hne Hph Hrun. unfold update_request_with_output. rewrite (deref_Ok s id r Hr). cbn [mbind result_bind].
  rewrite Hkeep, andb_false_r.
  destruct (append_until_stop_spec (kv_cache_manager s) toks [] r Hok Hh Hp Hg Hlen) as (new & stopped & r1 & Ha & Hpre & Hgr & Hend).
  rewrite Ha. cbn [mbind result_bind app]. assert (Hnew : new <> []) by (destruct stopped; [apply Hend|by destruct Hend as [-> _]]).
  destruct (grown_length _ _ _ _ Hgr) as [Hl _]. assert (Hkv : set_kv_cache_manager (kv_cache_manager s) s = s) by (by destruct s).
  pose proof (gw_fixed _ _ _ _ Hgr) as Hfx. pose proof (gw_placeholders _ _ _ _ Hgr) as Hpl.
  assert (Hsame : kv_delivered id (kv_cache_manager s) (kv_cache_manager s)) by (split; [done|apply keeps_refl|done]).
  destruct (async cfg) eqn:Eas; cbn [negb].
  - specialize (Hph eq_refl). specialize (Hrun eq_refl).
    assert (Hnl : 1 <= zlen new <= zlen toks) by (apply prefix_length in Hpre; unfold zlen; destruct new; [done|]; cbn in *; lia).
    rewrite (proj2 (Z.leb_le 0 _)) by lia. cbn [py_assert mbind result_bind].
    set (r2 := set_num_output_placeholders _ r1).
    assert (Hh2 : kv_hashed (kv_cache_manager s) r2) by (eapply kl_hashed_update; [apply Hgr|done..|by right]).
    assert (Hd2 : delivered new r r2) by (split; [done|by rewrite Eas; cbn; rewrite Hpl|by destruct Hfx]).
    assert (Hend2 : if stopped then is_finished r2 = true
      else new = toks /\ status r2 = status r /\ generates cfg r2 /\ num_tokens r2 < max_model_len cfg) by (destruct stopped; [apply Hend|done]).
    destruct (decide (status r = RUNNING)) as [Est|Est].
    + destruct (Hrun Est) as [Hc Hcov]. assert (Hid2 : request_id r2 = id) by (change (request_id r1 = id); by rewrite (proj1 (fx_place _ _ Hfx))).
      assert (Hc2 : num_computed_tokens r2 = num_computed_tokens r) by apply Hfx. assert (Hn2 : num_tokens r2 = num_tokens r + zlen new) by done.
      assert (0 <= num_tokens r) by (unfold num_tokens, zlen; lia). rewrite Hc2, Hpl.
      destruct (kl_cache (kv_cache_manager s) r2 (num_computed_tokens r - (num_output_placeholders r - zlen new)) (num_computed_tokens r))
        as (r3 & k' & Hca & Hok' & Hke & Hmu & Hco); [done|done|by rewrite Hid2|lia..|].
      rewrite Hca. cbn [mbind result_bind]. rewrite Hid2 in Hke, Hco. exists new, stopped, r3, k'. pose proof Hmu as [[memo ->] _].
      split; [done|]. split_and!; try done; [by destruct Hd2 as [? ? []]|].
      eapply kl_hashed_update; [eapply fr_hashed; [exact Hke|exact Hh2]|done..|by left].
    + exists new, stopped, r2, (kv_cache_manager s). rewrite Hkv. split_and!; done.
  - exists new, stopped, r1, (kv_cache_manager s). rewrite Hkv. split; [done|]. split_and!; try done; [|apply Hgr|].
    + split; try done. by rewrite Eas.
    + destruct stopped; [apply Hend|done].
Qed.

(** ** A request leaves *)

(** The request that [s] removed from the scheduler, with the KV cache it leaves. *)
Record left_with (k' : KV) id s s' : Prop := {
  lw_objects : objects s' = objects s;
  lw_requests : requests s' = list_remove id (requests s);
  lw_kv : kv_cache_manager s' = k';
  lw_running : running s' = running s;
  lw_waiting : waiting s' = waiting s;
  lw_skipped : skipped_waiting s' = skipped_waiting s;
  lw_pause : pause_state s' = pause_state s;
  lw_prev : prev_step_scheduled_req_ids s' = prev_step_scheduled_req_ids s;
}.

Lemma free_request_spec s id r :
  kv_ok (kv_cache_manager s) -> objects s !! id = Some r -> request_id r = id -> is_finished r = true -> mm_features r = [] -> id ∈ requests s ->
  exists k' s', free_request id s = Ok s' /\ left_with k' id s s' /\ kv_ok k' /\
    kv_keeps (fun x => x <> id) (kv_cache_manager s) k' /\ kv_fresh k' id.
Proof.
  intros Hok Hr Hid Hf Hm Hin. destruct (kl_free (kv_cache_manager s) r Hok) as (k' & Hk & Hok' & Hke & Hfr). rewrite Hid in Hke, Hfr.
  unfold free_request. rewrite (deref_Ok s id r Hr). cbn [mbind result_bind]. rewrite Hf. cbn [py_assert mbind result_bind].
  rewrite enc_free_text by done. cbn [mbind result_bind]. set (s1 := set_finished_req_ids _ _).
  set (s2 := match finished_req_ids_dict s1 with Some d => _ | None => s1 end).
  assert (Hs2 : objects s2 = objects s /\ requests s2 = requests s /\ kv_cache_manager s2 = kv_cache_manager s /\ running s2 = running s /\
    waiting s2 = waiting s /\ skipped_waiting s2 = skipped_waiting s /\ pause_state s2 = pause_state s /\
    prev_step_scheduled_req_ids s2 = prev_step_scheduled_req_ids s) by (unfold s2; by destruct (finished_req_ids_dict s1)).
  clearbody s2. destruct Hs2 as (Eo & Er & Ek & E1 & E2 & E3 & E4 & E5). unfold sched_free_blocks.
  rewrite (deref_Ok s2 id r) by (by rewrite Eo). cbn [mbind result_bind]. rewrite Hf. cbn [py_assert mbind result_bind]. rewrite Ek, Hk.
  cbn [mbind result_bind]. rewrite Er, decide_True by done. cbn [mbind result_bind]. exists k'. eexists. split; [done|]. by split.
Qed.

Lemma core_drop R W R' W' s s' id r r' :
  core cfg R W s -> objects s !! id = Some r -> request_id r = id -> same_place r r' -> objects s' = <[id := r']> (objects s) ->
  requests s' = list_remove id (requests s) -> kv_ok (kv_cache_manager s') ->
  kv_keeps (fun x => x <> id) (kv_cache_manager s) (kv_cache_manager s') -> kv_fresh (kv_cache_manager s') id ->
  id ∈ requests s -> id :: R' ++ W' ≡ₚ R ++ W -> (forall x, x ∈ R' -> x ∈ R) -> (forall x, x ∈ W' -> x ∈ W) ->
  wf s' (waiting s') -> wf s' (skipped_waiting s') -> core cfg R' W' s'.
Proof.
  intros [] Hr Hid Hp Ho Hreq Hok Hk Hfr Hin Hper HR HW Hw Hs.
  assert (Hnd : NoDup (id :: R' ++ W')) by (by rewrite Hper, co_part). apply NoDup_cons in Hnd as [Hno _].
  pose proof (list_remove_perm id _ Hin) as Hrm.
  assert (Hobj : forall x rx, objects s' !! x = Some rx -> exists rx0, objects s !! x = Some rx0 /\ obj_id rx = obj_id rx0).
  { intros x rx. rewrite Ho, lookup_insert. case_decide as Hxi; [subst x; intros [= <-]; exists r; split; [done|symmetry; apply Hp]|by exists rx]. }
  assert (Hsub : forall x, x ∈ requests s' -> x ∈ requests s) by (intros x; rewrite Hreq; by intros [? _]%list_remove_elem).
  split; try done.
  - rewrite Hreq. assert (Hn2 : NoDup (id :: list_remove id (requests s))) by (by rewrite <- Hrm). by apply NoDup_cons in Hn2 as [_ ?].
  - rewrite Hreq. apply (Permutation_cons_inv (a := id)). by rewrite Hper, <- Hrm.
  - intros x Hx. assert (Hxi : x <> id) by (intros ->; apply Hno, elem_of_app; by left). rewrite Ho, lookup_insert_ne by done.
    destruct (co_run x (HR x Hx)) as (rx & ? & ?). exists rx. split; [done|]. by eapply running_keep; [exact Hk|..].
  - intros x Hx. assert (Hxi : x <> id) by (intros ->; apply Hno, elem_of_app; by right). rewrite Ho, lookup_insert_ne by done.
    destruct (co_wait x (HW x Hx)) as (rx & ? & ?). exists rx. split; [done|]. by eapply waiting_keep; [exact Hk|..].
  - rewrite <- co_max. apply Hk.
  - intros x Hx. destruct (decide (x = id)) as [->|Hxi]; [done|]. eapply fr_fresh; [exact Hk|done|]. apply co_free.
    intros Hx'. apply Hx. rewrite Hreq. by apply list_remove_elem.
  - intros x y rx ry Hx Hy (rx0 & Hrx & ->)%Hobj (ry0 & Hry & ->)%Hobj. eauto.
Qed.

(** ** One request of the step *)

(** What the model answers for a request from which [e] tokens are expected: nothing or at
    most those tokens, and for a pooling request its output. *)
Definition answer (mro : ModelRunnerOutput) id (e : Z) r (gen : list Z) (pooled : option Z) : Prop :=
  (exists idx, req_id_to_index mro !! id = Some idx /\
    (match sampled_token_ids mro with [] => Ok [] | _ => py_index (sampled_token_ids mro) idx end) = Ok gen /\
    (match pooler_output mro with [] => Ok None | _ => py_index (pooler_output mro) idx end) = Ok pooled) /\
  match pooling_params r with
  | None => if e =? 0 then gen = [] else 1 <= zlen gen <= e
  | Some _ => gen = [] /\ (0 < e -> is_Some pooled)
  end.

(** A request with [e] tokens on their way to it. *)
Definition due (e : Z) r : Prop :=
  (if async cfg then e <= num_output_placeholders r else num_output_placeholders r = 0) /\
  (0 < e -> status r = RUNNING ->
    num_computed_tokens r = num_tokens r + (if async cfg then num_output_placeholders r else e) - 1).

(** Where the output leaves a request that goes on. *)
Definition answered (e : Z) r r' : Prop := exists m, 0 <= m <= e /\
  num_tokens r' = num_tokens r + m /\ status r' = status r /\
  num_output_placeholders r' = (if async cfg then num_output_placeholders r - e else num_output_placeholders r) /\
  num_computed_tokens r' = (if bool_decide (status r = RUNNING) then num_computed_tokens r - (e - m) else num_computed_tokens r).

Lemma answered_refl r : answered 0 r r.
Proof. exists 0. split_and!; try done; try lia; [destruct (async cfg)|case_bool_decide]; lia. Qed.

(** The rejected speculative tokens. *)
Lemma take_back_eq sp gen r : gen <> [] -> zlen gen <= 1 + zlen sp ->
  let q := 1 + zlen sp - zlen gen in
  take_back_rejected sp gen r = set_num_output_placeholders
    (if 0 <? num_output_placeholders r then num_output_placeholders r - q else num_output_placeholders r)
    (set_num_computed_tokens (if 0 <? num_computed_tokens r then num_computed_tokens r - q else num_computed_tokens r) r).
Proof.
  intros Hne Hle q. assert (Hg : 1 <= zlen gen) by (unfold zlen; destruct gen; [done|]; cbn; lia).
  assert (Hq : zlen sp - (zlen gen - 1) = q) by (unfold q; lia). unfold take_back_rejected. destruct gen as [|g gen]; [done|].
  destruct sp as [|x sp].
  - assert (q = 0) as -> by (unfold q, zlen in *; cbn in *; lia). rewrite !Z.sub_0_r.
    destruct (0 <? num_output_placeholders r), (0 <? num_computed_tokens r); by destruct r.
  - rewrite Hq. destruct (0 <? num_computed_tokens r) eqn:E1; cbn; destruct (0 <? num_output_placeholders r) eqn:E2; try done; by destruct r.
Qed.

(** A running or waiting request with its rejected tokens taken back. *)
Lemma taken_back_core R W s id r e sp gen :
  core cfg R W s -> id ∈ R ++ W -> objects s !! id = Some r -> due e r -> e = 1 + zlen sp -> 1 <= zlen gen <= e ->
  let r1 := take_back_rejected sp gen r in
  core cfg R W (put r1 s) /\ same_order s (put r1 s) /\ objects (put r1 s) = <[id := r1]> (objects s) /\
  status r1 = status r /\ num_tokens r1 = num_tokens r /\
  num_output_placeholders r1 = (if async cfg then num_output_placeholders r - (e - zlen gen) else num_output_placeholders r) /\
  num_computed_tokens r1 = (if bool_decide (status r = RUNNING) then num_computed_tokens r - (e - zlen gen) else num_computed_tokens r).
Proof.
  intros Hc Hin Hr [Hph Hrun] He Hg r1. pose proof (core_nodup _ _ _ _ Hc) as (_ & _ & Hdis).
  assert (Hgne : gen <> []) by (intros ->; unfold zlen in Hg; cbn in Hg; lia).
  pose proof (take_back_eq sp gen r Hgne ltac:(lia)) as E. cbn zeta in E. rewrite <- He in E. fold r1 in E.
  assert (Hnt : 0 <= num_tokens r) by (unfold num_tokens, zlen; lia).
  assert (Hpr : num_output_placeholders r1 = (if async cfg then num_output_placeholders r - (e - zlen gen) else num_output_placeholders r)).
  { rewrite E. cbn. destruct (async cfg); [rewrite (proj2 (Z.ltb_lt 0 _)) by lia; lia|by rewrite Hph]. }
  assert (Hcr : num_computed_tokens r1 = (if bool_decide (status r = RUNNING) then num_computed_tokens r - (e - zlen gen) else num_computed_tokens r) /\
    exists rx, objects s !! id = Some rx /\ request_id rx = id /\ 0 <= num_output_placeholders rx).
  { rewrite E. cbn. apply elem_of_app in Hin as [Hi|Hi].
    - destruct (co_run _ _ _ _ Hc id Hi) as (rx & Hrx & Har). rewrite Hr in Hrx. injection Hrx as <-. split; [|exists r; split_and!; [done|apply Har..]].
      rewrite bool_decide_true by apply Har. specialize (Hrun ltac:(lia) (ar_status _ _ _ _ Har)).
      rewrite (proj2 (Z.ltb_lt 0 _)); [done|]. pose proof (lv_len _ _ _ _ (ar_live _ _ _ _ Har)). destruct (async cfg); lia.
    - destruct (co_wait _ _ _ _ Hc id Hi) as (rx & Hrx & Haw). rewrite Hr in Hrx. injection Hrx as <-. split; [|exists r; split_and!; [done|apply Haw..]].
      rewrite (aw_computed _ _ _ _ Haw). cbn. rewrite bool_decide_false; [done|].
      pose proof (aw_status _ _ _ _ Haw) as Hst. intros E2. rewrite E2 in Hst. set_solver. }
  destruct Hcr as (Hcr & rx & Hrx & Hid & Hph0). rewrite Hr in Hrx. injection Hrx as <-.
  assert (Hst : status r1 = status r) by (by rewrite E). assert (Ht : num_tokens r1 = num_tokens r) by (by rewrite E).
  assert (Hobj : objects (put r1 s) = <[id := r1]> (objects s)) by (cbn; rewrite E; cbn; by rewrite Hid).
  assert (Hp1 : 0 <= num_output_placeholders r1) by (rewrite Hpr; destruct (async cfg); lia).
  destruct (core_put cfg R W s id r r1 Hc Hin Hr Hid) as [Hc1 Ho1]; [rewrite E; by split| | |by split_and!].
  - intros Hi. destruct (co_run _ _ _ _ Hc id Hi) as (rx & Hrx & Har). rewrite Hr in Hrx. injection Hrx as <-.
    rewrite (bool_decide_true _ (ar_status _ _ _ _ Har)) in Hcr. specialize (Hrun ltac:(lia) (ar_status _ _ _ _ Har)).
    clear Hpr. destruct Har as [[] ? ? Hcov]. rewrite E in *. cbn in Hp1, Hcr. split; [split|..]; try done; cbn; rewrite ?Hcr.
    + eapply kl_hashed_update; [done..|by right].
    + destruct (async cfg); lia.
    + eapply kl_covers_le; [exact Hcov|lia].
  - intros Hi. destruct (co_wait _ _ _ _ Hc id Hi) as (rx & Hrx & Haw). rewrite Hr in Hrx. injection Hrx as <-.
    clear Hpr. destruct Haw as [[] Hst' Hcomp ?]. rewrite bool_decide_false in Hcr by (intros E2; rewrite E2 in Hst'; set_solver).
    rewrite E in *. cbn in Hp1, Hcr. split; [split|..]; try done; cbn.
    + eapply kl_hashed_update; [done..|by right].
    + by rewrite Hcr.
Qed.

(** The fields that the loop of [update_from_output] leaves alone. *)
Record in_place s s' : Prop := {
  ip_running : running s' = running s;
  ip_waiting : waiting s' = waiting s;
  ip_skipped : skipped_waiting s' = skipped_waiting s;
  ip_pause : pause_state s' = pause_state s;
  ip_prev : prev_step_scheduled_req_ids s' = prev_step_scheduled_req_ids s;
}.
Lemma in_place_refl s : in_place s s.
Proof. done. Qed.
Lemma in_place_trans s1 s2 s3 : in_place s1 s2 -> in_place s2 s3 -> in_place s1 s3.
Proof. intros [] []. split; congruence. Qed.

(** A request that stopped leaves. *)
Lemma stopped_leaves R W s id r r2 k :
  core cfg R W s -> id ∈ R ++ W -> objects s !! id = Some r -> request_id r = id -> mm_features r = [] -> resumable r = false ->
  same_place r r2 -> mm_features r2 = mm_features r -> resumable r2 = resumable r -> is_finished r2 = true ->
  kv_ok k -> kv_keeps (fun x => x <> id) (kv_cache_manager s) k ->
  forall s2, objects s2 = <[id := r2]> (objects s) -> requests s2 = requests s -> kv_cache_manager s2 = k -> in_place s s2 ->
  exists s4, handle_stopped_request hasher id s2 = Ok (true, s2) /\ free_request id s2 = Ok s4 /\ in_place s s4 /\
    objects s4 = <[id := r2]> (objects s) /\ requests s4 = list_remove id (requests s) /\
    forall R' W', id :: R' ++ W' ≡ₚ R ++ W -> (forall x, x ∈ R' -> x ∈ R) -> (forall x, x ∈ W' -> x ∈ W) -> core cfg R' W' s4.
Proof.
  intros Hc Hin Hr Hid Hm Hres Hp Hm2 Hres2 Hf Hok Hke s2 Ho Hreq Hk Hpl.
  assert (Hr2 : objects s2 !! id = Some r2) by (rewrite Ho; apply lookup_insert_eq).
  assert (Hid2 : request_id r2 = id) by (by rewrite (proj1 Hp)). assert (Hinr : id ∈ requests s) by (by rewrite <- (co_part _ _ _ _ Hc)).
  destruct (free_request_spec s2 id r2) as (k4 & s4 & Hfr & Hl & Hok4 & Hke4 & Hfresh);
    [by rewrite Hk|done|done|done|congruence|by rewrite Hreq|].
  exists s4. unfold handle_stopped_request. rewrite (deref_Ok s2 id r2 Hr2). cbn [mbind result_bind]. rewrite Hres2, Hres. cbn [negb].
  assert (Ho4 : objects s4 = <[id := r2]> (objects s)) by (by rewrite (lw_objects _ _ _ _ Hl)).
  assert (Hord : same_order s s4) by (unfold same_order; rewrite Ho4; eapply by_ref_put; [exact Hr|apply Hp]).
  assert (Hip : in_place s s4) by (eapply in_place_trans; [exact Hpl|]; by destruct Hl).
  split; [done|]. split; [done|]. split; [done|]. split; [done|]. split; [by rewrite (lw_requests _ _ _ _ Hl), Hreq|].
  intros R' W' Hper HR HW. eapply (core_drop R W R' W' s s4 id r r2); try done; rewrite ?(lw_kv _ _ _ _ Hl); try done.
  - by rewrite (lw_requests _ _ _ _ Hl), Hreq.
  - rewrite <- Hk in Hke. by eapply keeps_trans.
  - rewrite (ip_waiting _ _ Hip). by apply (same_order_iter s s4 _ Hord), Hc.
  - rewrite (ip_skipped _ _ Hip). by apply (same_order_iter s s4 _ Hord), Hc.
Qed.

(** The requests that stopped, by the place they stopped in. *)
Definition stopped_in (g : Gathered) : list string * list string := (g_stopped_running g, g_stopped_preempted g).
Definition stopped_with (st : RequestStatus) id (l : list string * list string) : list string * list string :=
  if decide (st = RUNNING) then (l.1 ++ [id], l.2) else (l.1, l.2 ++ [id]).

(** What the loop does with a request. *)
Record turned R W e id r g s g' s' : Prop := {
  tu_in_place : in_place s s';
  tu_object : exists r', objects s' = <[id := r']> (objects s) /\ same_place r r';
  tu_end : (stopped_in g' = stopped_in g /\ core cfg R W s' /\ requests s' = requests s /\
              exists r', objects s' !! id = Some r' /\ answered e r r') \/
           (stopped_in g' = stopped_with (status r) id (stopped_in g) /\ requests s' = list_remove id (requests s) /\
            forall R' W', id :: R' ++ W' ≡ₚ R ++ W -> (forall x, x ∈ R' -> x ∈ R) -> (forall x, x ∈ W' -> x ∈ W) -> core cfg R' W' s');
}.

Lemma update_one_spec R W o mro g s id n r e gen pooled :
  core cfg R W s -> 0 < n -> id ∈ R ++ W -> objects s !! id = Some r -> due e r ->
  e = 0 \/ e = 1 + zlen (default [] (out_spec_decode_tokens o !! id)) -> answer mro id e r gen pooled ->
  exists g' s', update_one cfg hasher o mro (g, s) (id, n) = Ok (g', s') /\ turned R W e id r g s g' s'.
Proof.
  intros Hc Hn Hin Hr Hdue He [(idx & Hidx & Hgen & Hpool) Hans].
  destruct (core_live cfg R W s id Hc Hin) as (r0 & Hr0 & Hlive & Hnf & Hrun & HaR & HaW). rewrite Hr in Hr0. injection Hr0 as <-.
  pose proof (lv_id _ _ _ _ Hlive) as Hid. assert (Hinr : id ∈ requests s) by (by rewrite <- (co_part _ _ _ _ Hc)).
  unfold update_one. cbn [fst snd]. rewrite (proj2 (Z.ltb_lt 0 n)) by done. cbn [py_assert mbind result_bind].
  unfold get_request. rewrite decide_True by done. rewrite Hr, Hnf, Hidx. cbn [of_option mbind result_bind]. rewrite Hgen. cbn [mbind result_bind].
  rewrite Hpool. cbn [mbind result_bind]. set (sp := default [] _) in *. destruct gen as [|x gen].
  - assert (E1 : take_back_rejected sp [] r = r) by (by destruct sp). rewrite E1, (put_same s id r Hr Hid).
    destruct (bool_decide (is_Some (pooling_params r)) && bool_decide (is_Some pooled)) eqn:Ep; cbn [mbind result_bind].
    + set (r2 := set_status FINISHED_STOPPED r). assert (Ho2 : objects (put r2 s) = <[id := r2]> (objects s)) by (cbn; by rewrite Hid).
      destruct (stopped_leaves R W s id r r2 (kv_cache_manager s) Hc Hin Hr Hid (lv_text _ _ _ _ Hlive) (lv_single _ _ _ _ Hlive))
        with (s2 := put r2 s) as (s4 & Hh & Hfr & Hip & Ho & Hreq & Hcore); try done; [apply Hc|].
      rewrite (deref_Ok _ id r2) by (rewrite Ho2; apply lookup_insert_eq). cbn [mbind result_bind]. rewrite Hh. cbn [mbind result_bind]. rewrite Hfr.
      cbn [mbind result_bind]. rewrite (deref_Ok _ id r2) by (rewrite Ho; apply lookup_insert_eq). cbn [mbind result_bind].
      eexists _, s4. split; [done|]. split; [done|by exists r2|]. right. split; [|done]. rewrite orb_true_r. unfold stopped_in, stopped_with.
      by destruct (decide (status r = RUNNING)).
    + rewrite (deref_Ok _ id r Hr). cbn [mbind result_bind]. eexists _, s. split; [done|]. split; [done|exists r; by rewrite insert_id|].
      left. split; [by destruct (_ || _)|]. split; [done|]. split; [done|]. exists r. split; [done|].
      destruct He as [->|He]; [apply answered_refl|]. exfalso. assert (0 < e) by (unfold zlen in He; lia).
      destruct (pooling_params r); [destruct Hans as [_ Hs]; by rewrite !bool_decide_true in Ep by auto|].
      rewrite (proj2 (Z.eqb_neq e 0)) in Hans by lia. unfold zlen in Hans. cbn in Hans. lia.
  - set (gen' := x :: gen) in *. destruct (pooling_params r) eqn:Epp; [by destruct Hans|].
    destruct (Z.eqb_spec e 0) as [|Hne]; [done|]. destruct He as [|He]; [done|].
    destruct (taken_back_core R W s id r e sp gen' Hc Hin Hr Hdue He Hans) as (Hc1 & Ho1 & Hobj1 & Hst1 & Ht1 & Hph1 & Hcp1).
    set (r1 := take_back_rejected sp gen' r) in *.
    assert (Hr1 : objects (put r1 s) !! id = Some r1) by (rewrite Hobj1; apply lookup_insert_eq).
    destruct (core_live cfg R W _ id Hc1 Hin) as (r1' & Hr1' & Hlive1 & Hnf1 & Hrun1 & HaR1 & HaW1). rewrite Hr1 in Hr1'. injection Hr1' as <-.
    pose proof (lv_id _ _ _ _ Hlive1) as Hid1. pose proof (take_back_eq sp gen' r ltac:(done) ltac:(lia)) as E1. fold r1 in E1. cbn zeta in E1.
    assert (Hpl1 : same_place r r1) by (rewrite E1; by split). assert (Hpp1 : pooling_params r1 = None) by (by rewrite E1).
    assert (Hm1 : mm_features r1 = mm_features r /\ resumable r1 = resumable r) by (by rewrite E1). clear E1.
    destruct Hdue as [Hph Hcomp].
    destruct (deliver_spec (put r1 s) id r1 gen') as (new & stopped & r2 & k2 & Hdel & Hpre & Hnew & Hd & Hh2 & Hkd & Hkw & Hend);
      [apply Hc1|done|done|apply Hlive1|done|by apply Hlive1|apply Hlive1|apply Hlive1|done| | |].
    { intros Eas. rewrite Hph1, Eas. rewrite Eas in Hph. lia. }
    { intros Eas Est. rewrite Hst1 in Est. specialize (Hcomp ltac:(lia) Est). rewrite Eas in Hcomp. split.
      - rewrite Hcp1, Ht1, Hph1, Eas, bool_decide_true by done. lia.
      - apply HaR1, Hrun1. by rewrite Hst1. }
    rewrite Hdel. cbn [mbind result_bind]. set (s2 := put r2 _).
    pose proof (dl_fixed _ _ _ Hd) as Hfx. assert (Hid2 : request_id r2 = id) by (by rewrite (proj1 (fx_place _ _ Hfx))).
    assert (Ho2 : objects s2 = <[id := r2]> (objects (put r1 s))) by (cbn; by rewrite Hid2).
    assert (Ho2' : objects s2 = <[id := r2]> (objects s)) by (by rewrite Ho2, Hobj1, insert_insert_eq).
    assert (Hpl2 : same_place r r2) by (eapply same_place_trans; [exact Hpl1|apply Hfx]).
    assert (Hr2 : objects s2 !! id = Some r2) by (rewrite Ho2; apply lookup_insert_eq).
    rewrite (deref_Ok _ id r2 Hr2). cbn [mbind result_bind]. destruct stopped.
    + destruct (stopped_leaves R W s id r r2 k2 Hc Hin Hr Hid (lv_text _ _ _ _ Hlive) (lv_single _ _ _ _ Hlive))
        with (s2 := s2) as (s4 & Hh & Hfr & Hip & Ho & Hreq & Hcore); try done;
        [rewrite (fx_text _ _ Hfx); apply Hm1|rewrite (fx_single _ _ Hfx); apply Hm1|apply Hkd|apply Hkd|].
      rewrite Hh. cbn [mbind result_bind]. rewrite Hfr.
      cbn [mbind result_bind]. rewrite (deref_Ok _ id r2) by (rewrite Ho; apply lookup_insert_eq). cbn [mbind result_bind].
      eexists _, s4. split; [done|]. split; [done|by exists r2|]. right. split; [|done]. rewrite orb_true_r. unfold stopped_in, stopped_with. rewrite Hst1.
      by destruct (decide (status r = RUNNING)).
    + cbn [mbind result_bind]. rewrite (deref_Ok _ id r2 Hr2). cbn [mbind result_bind]. eexists _, s2. split; [done|].
      destruct Hend as (-> & Hst2 & Hg2 & Hl2).
      assert (Hch : changes id r1 r2 (put r1 s) s2) by (split; try done; [apply Hfx|apply Hkd..]).
      pose proof (changes_order _ _ _ _ _ Hch) as Ho12.
      assert (Hph2 : 0 <= num_output_placeholders r2).
      { rewrite (dl_placeholders _ _ _ Hd), Hph1. destruct (async cfg); [lia|]. rewrite Hph. done. }
      assert (Hlive2 : live cfg k2 id r2).
      { pose proof Hlive1 as []. split; try done.
        - by rewrite (fx_text _ _ Hfx).
        - by rewrite (fx_single _ _ Hfx).
        - split; [|done]. rewrite (dl_tokens _ _ _ Hd). unfold zlen. lia.
        - by rewrite (fx_keep _ _ Hfx). }
      split; [done|by exists r2|]. left. split; [by destruct (_ || _)|]. split; [|split; [done|]].
      * eapply (core_change cfg R W R W (put r1 s) s2 id r1 r2 Hc1 Hch); try done; [by apply (same_order_iter _ s2 _ Ho12), Hc1..| |].
        -- intros Hi. pose proof (HaR1 Hi) as []. split; [done|by rewrite Hst2|by rewrite (fx_computed _ _ Hfx)|].
           rewrite (fx_computed _ _ Hfx). by apply (kd_covers _ _ _ Hkd).
        -- intros Hi. pose proof (HaW1 Hi) as [? Hst ? ?]. split; [done|by rewrite Hst2|by rewrite (fx_computed _ _ Hfx)|].
           change (kv_fresh k2 id). rewrite Hkw; [done|]. intros E. rewrite E in Hst. set_solver.
      * exists r2. split; [done|]. exists (zlen gen'). split; [lia|]. rewrite (dl_tokens _ _ _ Hd), Ht1, Hst2, Hst1.
        rewrite (dl_placeholders _ _ _ Hd), Hph1, (fx_computed _ _ Hfx), Hcp1. split_and!; try done; destruct (async cfg); lia.
Qed.

(** ** All the requests of the step *)

(** The requests that are not in [gone]. *)
Definition minus (l gone : list string) : list string := filter (fun x => x ∉ gone) l.
Lemma elem_minus x l gone : x ∈ minus l gone <-> x ∈ l /\ x ∉ gone.
Proof. unfold minus. rewrite list_elem_of_filter. tauto. Qed.
Lemma minus_nil l : minus l [] = l.
Proof. unfold minus. induction l as [|x l IH]; [done|]. rewrite filter_cons_True by apply not_elem_of_nil. by rewrite IH. Qed.
Lemma minus_minus l a b : minus (minus l a) b = minus l (a ++ b).
Proof. unfold minus. rewrite list_filter_filter. apply list_filter_iff. intros x. rewrite elem_of_app. tauto. Qed.
Lemma minus_other l a id : id ∉ l -> minus l (a ++ [id]) = minus l a.
Proof.
  intros Hl. unfold minus. apply list_filter_iff'. intros x Hx. rewrite elem_of_app, list_elem_of_singleton.
  split; [tauto|]. intros Ha [?| ->]; [by apply Ha|by apply Hl].
Qed.
Lemma minus_snoc l a id : NoDup l -> id ∈ l -> id ∉ a -> id :: minus l (a ++ [id]) ≡ₚ minus l a.
Proof.
  intros Hnd Hl Ha. apply NoDup_Permutation.
  - apply NoDup_cons. split; [rewrite elem_minus, elem_of_app, list_elem_of_singleton; tauto|by apply NoDup_filter].
  - by apply NoDup_filter.
  - intros x. rewrite elem_of_cons, !elem_minus, elem_of_app, list_elem_of_singleton. destruct (decide (x = id)) as [->|]; intuition.
Qed.
Lemma minus_list_remove l id : NoDup l -> list_remove id l = minus l [id].
Proof. intros Hnd. rewrite list_remove_nodup by done. apply list_filter_iff. intros x. by rewrite list_elem_of_singleton. Qed.

(** What the model answers for the tokens that request [id] expects. *)
Definition turn_ok (E : string -> Z) o mro s (p : string * Z) : Prop := 0 < p.2 /\ (p.1 ∈ requests s ->
  exists r gen pooled, objects s !! p.1 = Some r /\ due (E p.1) r /\
    (E p.1 = 0 \/ E p.1 = 1 + zlen (default [] (out_spec_decode_tokens o !! p.1))) /\ answer mro p.1 (E p.1) r gen pooled /\
    (p.1 ∈ running s \/ p.1 ∈ iter s (waiting s))).

(** The state of the loop after the requests [done]. *)
Record looped (E : string -> Z) (done : list string) s0 g s : Prop := {
  lo_in_place : in_place s0 s;
  lo_order : same_order s0 s;
  lo_core : core cfg (minus (running s0) (g_stopped_running g)) (minus (queued s0) (g_stopped_preempted g)) s;
  lo_requests : requests s = minus (requests s0) (g_stopped_running g ++ g_stopped_preempted g);
  lo_running : forall x, x ∈ g_stopped_running g -> x ∈ done /\ x ∈ running s0;
  lo_waiting : forall x, x ∈ g_stopped_preempted g -> x ∈ done /\ x ∈ iter s0 (waiting s0);
  lo_rest : forall x, x ∉ done -> objects s !! x = objects s0 !! x;
  lo_answered : forall x, x ∈ done -> x ∈ requests s ->
    exists r0 r, objects s0 !! x = Some r0 /\ objects s !! x = Some r /\ answered (E x) r0 r;
}.

Lemma looped_step E o mro s0 done g s id n :
  looped E done s0 g s -> inv cfg [] s0 -> id ∉ done -> turn_ok E o mro s0 (id, n) ->
  exists g' s', update_one cfg hasher o mro (g, s) (id, n) = Ok (g', s') /\ looped E (done ++ [id]) s0 g' s'.
Proof.
  intros [Hip Hord Hc Hreq Hsr Hsp Hrest Hans] Hi Hid [Hn Hturn]. cbn [fst snd] in *.
  pose proof (core_nodup _ _ _ _ Hi) as (HndR & HndW & Hdis). rewrite app_nil_r in *.
  assert (Hin : id ∈ requests s <-> id ∈ requests s0).
  { rewrite Hreq, elem_minus, elem_of_app. split; [tauto|]. intros Hx. split; [done|]. intros [Hs|Hs]; [by apply Hid, Hsr|by apply Hid, Hsp]. }
  destruct (decide (id ∈ requests s)) as [Hr|Hr].
  - destruct (Hturn (proj1 Hin Hr)) as (r & gen & pooled & Hro & Hdue & He & Han & Hpl). rewrite <- (Hrest id Hid) in Hro.
    destruct (update_one_spec _ _ o mro g s id n r (E id) gen pooled Hc Hn) as (g' & s' & Hu & [Hip' (r' & Ho' & Hp') Hend]); try done.
    { by rewrite (co_part _ _ _ _ Hc). }
    exists g', s'. split; [done|]. assert (Hord' : same_order s s') by (unfold same_order; rewrite Ho'; by eapply by_ref_put; [|apply Hp']).
    assert (Hrest' : forall x, x ∉ done ++ [id] -> objects s' !! x = objects s0 !! x).
    { intros x. rewrite elem_of_app, list_elem_of_singleton. intros Hx. rewrite Ho', lookup_insert_ne by (intros <-; tauto). apply Hrest. tauto. }
    assert (Hans' : forall x, x ∈ done -> x ∈ requests s -> exists r0 r, objects s0 !! x = Some r0 /\ objects s' !! x = Some r /\ answered (E x) r0 r).
    { intros x Hx Hxr. rewrite Ho', lookup_insert_ne by (intros <-; tauto). by apply Hans. }
    assert (Hdone : forall (P : Prop) x, x ∈ done /\ P -> x ∈ done ++ [id] /\ P) by (intros P x [? ?]; split; [apply elem_of_app; by left|done]).
    assert (Hide : id ∈ done ++ [id]) by (apply elem_of_app; right; by apply list_elem_of_singleton).
    destruct Hend as [(Hg & Hc' & Hreq' & r2 & Hr2 & Ha)|(Hg & Hreq' & Hc')].
    + injection Hg as Eg1 Eg2. split; rewrite ?Eg1, ?Eg2; try done.
      * by eapply in_place_trans.
      * by eapply eq_trans.
      * by rewrite Hreq'.
      * auto.
      * auto.
      * intros x. rewrite Hreq', elem_of_app, list_elem_of_singleton. intros [Hx| ->] Hxr; [by apply Hans'|]. rewrite (Hrest id Hid) in Hro. by exists r, r2.
    + assert (Hreq2 : requests s' = minus (requests s0) ((g_stopped_running g ++ g_stopped_preempted g) ++ [id])).
      { rewrite Hreq', minus_list_remove, Hreq, minus_minus; [done|]. apply Hc. }
      destruct (core_live cfg _ _ s id Hc) as (r0 & Hr0 & _ & _ & Hst & _); [by rewrite (co_part _ _ _ _ Hc)|]. rewrite Hro in Hr0. injection Hr0 as <-.
      unfold stopped_with in Hg. rewrite elem_minus in Hst.
      assert (Hans2 : forall x, x ∈ done ++ [id] -> x ∈ requests s' -> exists r0 r, objects s0 !! x = Some r0 /\ objects s' !! x = Some r /\ answered (E x) r0 r).
      { intros x Hx. rewrite Hreq', (list_remove_elem x id) by apply Hc. rewrite elem_of_app, list_elem_of_singleton in Hx.
        intros [Hxr Hne]. destruct Hx as [Hx|Hx]; [by apply Hans'|done]. }
      destruct (decide (status r = RUNNING)) as [Es|Es].
      * apply Hst in Es as [HidR Hids]. injection Hg as Eg1 Eg2. split; rewrite ?Eg1, ?Eg2; try done.
        -- by eapply in_place_trans.
        -- by eapply eq_trans.
        -- apply Hc'; [|intros x; rewrite !elem_minus, elem_of_app; tauto|done].
           by rewrite app_comm_cons, minus_snoc.
        -- rewrite Hreq2. apply list_filter_iff. intros x. rewrite !elem_of_app. tauto.
        -- intros x [Hx| ->%list_elem_of_singleton]%elem_of_app; auto.
        -- auto.
      * assert (HidR : id ∉ running s0) by (intros HidR; apply Es, Hst; split; [done|]; intros Hx; by apply Hid, Hsr).
        destruct Hpl as [Hpl|Hpl]; [done|]. assert (HidW : id ∈ queued s0) by (apply elem_of_app; by left).
        injection Hg as Eg1 Eg2. split; rewrite ?Eg1, ?Eg2; try done.
        -- by eapply in_place_trans.
        -- by eapply eq_trans.
        -- apply Hc'; [|done|intros x; rewrite !elem_minus, elem_of_app; tauto].
           rewrite Permutation_middle. rewrite minus_snoc; [done|done|done|]. intros Hx. by apply Hid, Hsp.
        -- by rewrite Hreq2, app_assoc.
        -- auto.
        -- intros x [Hx| ->%list_elem_of_singleton]%elem_of_app; auto.
  - exists g, s. unfold update_one. cbn [fst snd]. rewrite (proj2 (Z.ltb_lt 0 n)) by done. cbn [py_assert mbind result_bind].
    unfold get_request. rewrite decide_False by done. split; [done|]. split; try done.
    + intros x Hx. destruct (Hsr x Hx). split; [apply elem_of_app; by left|done].
    + intros x Hx. destruct (Hsp x Hx). split; [apply elem_of_app; by left|done].
    + intros x. rewrite elem_of_app. intros Hx. apply Hrest. tauto.
    + intros x [Hx| ->%list_elem_of_singleton]%elem_of_app; auto. done.
Qed.

Lemma update_loop E o mro s0 l : inv cfg [] s0 -> (forall p, p ∈ l -> turn_ok E o mro s0 p) ->
  forall done g s, looped E done s0 g s -> NoDup (done ++ l.*1) ->
  exists g' s', foldM (update_one cfg hasher o mro) (g, s) l = Ok (g', s') /\ looped E (done ++ l.*1) s0 g' s'.
Proof.
  intros Hi. induction l as [|[id n] l IH]; intros Hl done g s Hlo Hnd.
  { exists g, s. by rewrite app_nil_r. }
  rewrite fmap_cons in *. cbn [fst] in *. destruct (looped_step E o mro s0 done g s id n Hlo Hi) as (g1 & s1 & Hu & Hlo1).
  { apply NoDup_app in Hnd as (_ & Hd & _). intros Hx. apply (Hd id Hx). constructor. }
  { apply Hl. constructor. }
  cbn [foldM]. rewrite Hu. cbn [mbind result_bind]. rewrite (cons_middle id) in Hnd. rewrite (cons_middle id). rewrite app_assoc in *.
  apply IH; [|done|done]. intros p Hp. apply Hl. by constructor.
Qed.

Lemma looped_start E s : inv cfg [] s -> looped E [] s (mkG ∅ [] []) s.
Proof.
  intros Hi. unfold inv in Hi. rewrite app_nil_r in Hi. split; cbn; rewrite ?minus_nil; try done; by intros x ?%elem_of_nil.
Qed.

(** Taking requests from a queue. *)
Lemma removed_spec s q l : wf s q ->
  (forall x y, x ∈ l -> y ∈ iter s q -> @item_id _ (by_ref (objects s)) x = @item_id _ (by_ref (objects s)) y -> x = y) ->
  wf s (@remove_requests _ _ (ops s) l q) /\ iter s (@remove_requests _ _ (ops s) l q) ≡ₚ minus (iter s q) l.
Proof.
  intros Hq Hid. unfold wf in *. rewrite <- queue_laws_wf in *.
  destruct (@law_remove_all _ _ _ _ (queue_laws (objects s)) l q Hq) as [Hw Hit].
  split; [exact Hw|]. unfold iter, ops in *. rewrite Hit. apply reflexive_eq. apply list_filter_iff'. intros y Hy. unfold not_listed.
  split; intros Hn Hx; apply Hn; [by apply (list_elem_of_fmap_2 item_id)|].
  apply list_elem_of_fmap in Hx as (x & Ex & Hx). assert (x = y) as <- by (by apply Hid). done.
Qed.

(** The requests that stopped in a waiting state are taken from the queue. *)
Lemma unqueue_spec R W s l : core cfg R W s ->
  (forall x y, x ∈ l -> y ∈ iter s (waiting s) -> @item_id _ (by_ref (objects s)) x = @item_id _ (by_ref (objects s)) y -> x = y) ->
  exists q, match l with [] => s | v :: vs => set_waiting (@remove_requests _ _ (ops s) (v :: vs) (waiting s)) s end = set_waiting q s /\
    wf s q /\ iter s q ≡ₚ minus (iter s (waiting s)) l.
Proof.
  intros Hc Hid. destruct l as [|v vs]; [exists (waiting s); rewrite minus_nil; split_and!; [by destruct s|apply Hc|done]|].
  eexists. split; [done|]. apply removed_spec; [apply Hc|done].
Qed.

(** What an output leaves of the requests. *)
Record updated (E : string -> Z) s s' : Prop := {
  ud_requests : forall x, x ∈ requests s' -> x ∈ requests s;
  ud_running : forall x, x ∈ requests s' -> x ∈ running s' <-> x ∈ running s;
  ud_waiting : forall x, x ∈ requests s' -> x ∈ iter s' (waiting s') <-> x ∈ iter s (waiting s);
  ud_pause : pause_state s' = pause_state s;
  ud_answered : forall x, x ∈ requests s' -> exists r r', objects s !! x = Some r /\ objects s' !! x = Some r' /\ answered (E x) r r';
}.

Lemma looped_end E done s0 g s : inv cfg [] s0 -> looped E done s0 g s -> (forall x, x ∉ done -> E x = 0) ->
  forall q k s', running s' = remove_all (running s) (g_stopped_running g) -> waiting s' = q -> skipped_waiting s' = skipped_waiting s ->
    objects s' = objects s -> requests s' = requests s -> kv_cache_manager s' = k -> pause_state s' = pause_state s ->
    prev_step_scheduled_req_ids s' = prev_step_scheduled_req_ids s ->
    wf s q -> iter s q ≡ₚ minus (iter s (waiting s)) (g_stopped_preempted g) ->
    kv_ok k -> kv_keeps (fun _ => True) (kv_cache_manager s) k ->
    resumable_now (queued s0) s0 -> zlen (running s0) <= max_num_running_reqs cfg ->
    sched_ok cfg s' /\ updated E s0 s'.
Proof.
  intros Hi [Hip Hord Hc Hreq Hsr Hsp Hrest Hans] HE q k s' Er Ew Es Eo Eq Ek Ep Epr Hwf Hit Hok Hke Hres Hlen.
  pose proof (core_nodup _ _ _ _ Hi) as (HndR & HndW & Hdis). rewrite app_nil_r in *.
  assert (Hrun : running s' = minus (running s0) (g_stopped_running g)).
  { rewrite Er, (ip_running _ _ Hip). by apply remove_all_filter. }
  assert (Hord1 : same_order s s') by (unfold same_order; by rewrite Eo).
  assert (Hord' : same_order s0 s') by (by eapply eq_trans).
  assert (Hiw : iter s' (waiting s') ≡ₚ minus (iter s0 (waiting s0)) (g_stopped_preempted g)).
  { rewrite Ew, (proj1 (same_order_iter s s' q Hord1)), Hit, (ip_waiting _ _ Hip). by rewrite (proj1 (same_order_iter s0 s _ Hord)). }
  assert (Hsk : iter s' (skipped_waiting s') = iter s0 (skipped_waiting s0)).
  { rewrite Es, (ip_skipped _ _ Hip). by apply same_order_iter. }
  assert (Hqs : queued s' ≡ₚ minus (queued s0) (g_stopped_preempted g)).
  { unfold queued at 1. rewrite Hiw, Hsk. unfold minus, queued. rewrite filter_app. f_equiv. apply reflexive_eq.
    symmetry. rewrite <- (minus_nil (iter s0 (skipped_waiting s0))) at 2. unfold minus. apply list_filter_iff'. intros x Hx.
    split; [intros _; apply not_elem_of_nil|]. intros _ Hg. destruct (Hsp x Hg) as [_ Hw].
    apply NoDup_app in HndW as (_ & Hd & _). by apply (Hd x). }
  assert (Hcore : core cfg (running s') (queued s' ++ []) s').
  { apply (core_perm cfg (minus (running s0) (g_stopped_running g)) (minus (queued s0) (g_stopped_preempted g)));
      [by rewrite Hrun|by rewrite app_nil_r, Hqs|].
    pose proof (core_kv cfg _ _ s k Hc Hok Hke) as []. cbn in *. split; rewrite ?Eo, ?Eq, ?Ek; try done.
    - rewrite Ew. unfold wf. by rewrite Eo.
    - rewrite Es. unfold wf. by rewrite Eo. }
  assert (Hreqs : requests s' = minus (requests s0) (g_stopped_running g ++ g_stopped_preempted g)) by (by rewrite Eq).
  split; [split; [exact Hcore| |]|split].
  - intros x r. rewrite Hqs, elem_minus, Eo, Epr, (ip_prev _ _ Hip). intros [Hx Hg] Hr Hst.
    assert (Hxr : x ∈ requests s).
    { rewrite Hreq, elem_minus, elem_of_app. split; [rewrite <- (co_part _ _ _ _ Hi); apply elem_of_app; right; by rewrite app_nil_r|].
      intros [Hs|?]; [|done]. destruct (Hsr x Hs) as [_ Hx']. by apply (Hdis x). }
    destruct (decide (x ∈ done)) as [Hd|Hd]; [|eapply Hres; [done|by rewrite <- (Hrest x Hd)|done]].
    destruct (Hans x Hd Hxr) as (r0 & r1 & Hr0 & Hr1 & (m & _ & _ & Hs & _)). rewrite Hr in Hr1. injection Hr1 as <-.
    eapply Hres; [done|exact Hr0|congruence].
  - rewrite Hrun. unfold zlen, minus in *. pose proof (length_filter (fun x => x ∉ g_stopped_running g) (running s0)). lia.
  - intros x. rewrite Hreqs, elem_minus. tauto.
  - intros x. rewrite Hreqs, Hrun, !elem_minus, elem_of_app. tauto.
  - intros x. rewrite Hreqs, Hiw, !elem_minus, elem_of_app. tauto.
  - by rewrite Ep, (ip_pause _ _ Hip).
  - intros x Hx. rewrite Eo. destruct (decide (x ∈ done)) as [Hd|Hd]; [apply Hans; [done|by rewrite <- Eq]|].
    rewrite (Hrest x Hd), HE by done. assert (Hx0 : x ∈ requests s0) by (rewrite Hreqs, elem_minus in Hx; tauto).
    destruct (core_live cfg _ _ s0 x Hi) as (r & Hr & _); [by rewrite (co_part _ _ _ _ Hi)|]. exists r, r. split_and!; [done|done|apply answered_refl].
Qed.

(** Waiting requests are told apart by their objects. *)
Lemma queued_apart s x y : inv cfg [] s -> x ∈ queued s -> y ∈ queued s ->
  @item_id _ (by_ref (objects s)) x = @item_id _ (by_ref (objects s)) y -> x = y.
Proof.
  intros Hi Hx Hy. assert (Hin : forall z, z ∈ queued s -> z ∈ requests s).
  { intros z Hz. rewrite <- (co_part _ _ _ _ Hi), app_nil_r. apply elem_of_app. by right. }
  assert (Hobj : forall z, z ∈ queued s -> exists r, objects s !! z = Some r).
  { intros z Hz. destruct (co_wait _ _ _ _ Hi z) as (r & Hr & _); [by rewrite app_nil_r|]. by exists r. }
  destruct (Hobj x Hx) as [rx Hrx], (Hobj y Hy) as [ry Hry]. cbn. rewrite Hrx, Hry. apply (co_ids _ _ _ _ Hi); auto.
Qed.

(** [update_from_output] when the model answers for the tokens the requests expect. *)
Lemma update_from_output_spec E o mro s : sched_ok cfg s -> NoDup (out_num_scheduled_tokens o).*1 ->
  (forall p, p ∈ out_num_scheduled_tokens o -> turn_ok E o mro s p) -> (forall x, x ∉ (out_num_scheduled_tokens o).*1 -> E x = 0) ->
  exists outs events s', update_from_output cfg hasher o mro s = Ok (outs, events, s') /\ sched_ok cfg s' /\ updated E s s'.
Proof.
  intros [Hi Hres Hlen] Hnd Hturn HE. destruct (update_loop E o mro s _ Hi Hturn [] _ s (looped_start E s Hi) Hnd) as (g & s1 & Hloop & Hlo).
  unfold update_from_output. rewrite Hloop. cbn [mbind result_bind]. set (s2 := set_running _ s1). cbn [app] in Hlo.
  pose proof Hlo as [Hip Hord Hc _ _ Hsp _ _].
  destruct (unqueue_spec (minus (running s) (g_stopped_running g)) (minus (queued s) (g_stopped_preempted g)) s2 (g_stopped_preempted g))
    as (q & Hq & Hwf & Hit); [by destruct Hc| |].
  { intros x y Hx Hy. change (objects s2) with (objects s1). rewrite Hord. apply (queued_apart s x y Hi); apply elem_of_app; left; [by apply Hsp|].
    change (waiting s2) with (waiting s1) in Hy. rewrite (ip_waiting _ _ Hip) in Hy. by rewrite <- (proj1 (same_order_iter s s2 (waiting s) Hord)). }
  rewrite Hq. change (kv_cache_manager (set_waiting q s2)) with (kv_cache_manager s1).
  destruct (kl_take_events (kv_cache_manager s1) (co_kv _ _ _ _ Hc)) as [Hok Hke]. destruct (kv_take_events (kv_cache_manager s1)) as [events k].
  assert (Hend : forall s', s' = set_kv_cache_manager k (set_waiting q s2) \/
    s' = set_finished_req_ids_dict (Some ∅) (set_kv_cache_manager k (set_waiting q s2)) -> sched_ok cfg s' /\ updated E s s').
  { intros s' [-> | ->]; (eapply (looped_end E _ s g s1 Hi Hlo HE q k); try done). }
  destruct (finished_req_ids_dict _); eexists _, events, _; (split; [done|]); apply Hend; auto.
Qed.

(** ** Requests are aborted *)

Lemma finish_one_spec R W s st id : is_finished_status st = true -> core cfg R W s -> id ∈ R ++ W ->
  exists s', finish_one st s id = Ok s' /\ in_place s s' /\ same_order s s' /\ (forall x, x <> id -> objects s' !! x = objects s !! x) /\
    requests s' = list_remove id (requests s) /\
    forall R' W', id :: R' ++ W' ≡ₚ R ++ W -> (forall x, x ∈ R' -> x ∈ R) -> (forall x, x ∈ W' -> x ∈ W) -> core cfg R' W' s'.
Proof.
  intros Hst Hc Hin. destruct (core_live cfg R W s id Hc Hin) as (r & Hr & Hlive & _). pose proof (lv_id _ _ _ _ Hlive) as Hid.
  unfold finish_one. rewrite (deref_Ok s id r Hr). cbn [mbind result_bind]. set (r2 := set_status st r).
  destruct (stopped_leaves R W s id r r2 (kv_cache_manager s) Hc Hin Hr Hid (lv_text _ _ _ _ Hlive) (lv_single _ _ _ _ Hlive))
    with (s2 := put r2 s) as (s4 & _ & Hfr & Hip & Ho & Hreq & Hcore); try done; [apply Hc|cbn; by rewrite Hid|].
  exists s4. split; [done|]. split; [done|]. split; [unfold same_order; rewrite Ho; by eapply by_ref_put|].
  split; [intros x Hx; rewrite Ho; by apply lookup_insert_ne|done].
Qed.

(** One request fewer, wherever it was. *)
Lemma minus_one R W done id : NoDup R -> NoDup W -> (forall x, x ∈ R -> x ∉ W) -> id ∈ R ++ W -> id ∉ done ->
  id :: minus R (done ++ [id]) ++ minus W (done ++ [id]) ≡ₚ minus R done ++ minus W done.
Proof.
  intros HR HW Hd Hin Hid. apply elem_of_app in Hin as [Hi|Hi].
  - rewrite (minus_other W) by auto. by rewrite app_comm_cons, minus_snoc.
  - rewrite (minus_other R) by (intros Hx; by apply (Hd id)). by rewrite Permutation_middle, minus_snoc.
Qed.

Lemma finish_loop R W st l : is_finished_status st = true -> NoDup R -> NoDup W -> (forall x, x ∈ R -> x ∉ W) ->
  (forall x, x ∈ l -> x ∈ R ++ W) ->
  forall done s, core cfg (minus R done) (minus W done) s -> NoDup (done ++ l) ->
    exists s', foldM (finish_one st) s l = Ok s' /\ core cfg (minus R (done ++ l)) (minus W (done ++ l)) s' /\ in_place s s' /\
      same_order s s' /\ (forall x, x ∉ l -> objects s' !! x = objects s !! x).
Proof.
  intros Hst HR HW Hd. induction l as [|id l IH]; intros Hl done s Hc Hnd; [exists s; by rewrite app_nil_r|].
  assert (Hid : id ∉ done) by (apply NoDup_app in Hnd as (_ & Hx & _); intros Hi; apply (Hx id Hi); constructor).
  pose proof (minus_one R W done id HR HW Hd (Hl id ltac:(constructor)) Hid) as Hone.
  destruct (finish_one_spec _ _ s st id Hst Hc) as (s1 & Hf & Hip & Ho & Hobj & _ & Hc1).
  { rewrite <- Hone. constructor. }
  cbn [foldM]. rewrite Hf. cbn [mbind result_bind]. rewrite (cons_middle id), app_assoc in Hnd |- *.
  destruct (IH ltac:(intros x Hx; apply Hl; by constructor) (done ++ [id]) s1) as (s' & Hfold & Hc' & Hip' & Ho' & Hobj'); [|done|].
  { apply Hc1; [done|intros x; rewrite !elem_minus, elem_of_app; tauto..]. }
  exists s'. split; [done|]. split; [done|]. split; [by eapply in_place_trans|]. split; [by eapply eq_trans|].
  intros x. rewrite not_elem_of_cons. intros [? ?]. rewrite Hobj' by done. by apply Hobj.
Qed.

Lemma finish_targets_spec ids s : inv cfg [] s -> forall x, x ∈ finish_targets ids s <-> x ∈ ids /\ x ∈ requests s.
Proof.
  intros Hi x. unfold finish_targets. rewrite list_elem_of_filter. unfold get_request. destruct (decide (x ∈ requests s)) as [Hx|Hx].
  - destruct (core_live cfg _ _ s x Hi) as (r & -> & _ & -> & _); [by rewrite (co_part _ _ _ _ Hi)|]. cbn. tauto.
  - split; [by intros [? _]|by intros [_ ?]].
Qed.

(** [finish_requests]: the requests leave, whatever state they are in. *)
Lemma finish_requests_spec ids st s : is_finished_status st = true -> sched_ok cfg s -> NoDup ids ->
  exists out s', finish_requests ids st s = Ok (out, s') /\ sched_ok cfg s' /\ updated (fun _ => 0) s s' /\
    forall x, x ∈ requests s' <-> x ∈ requests s /\ x ∉ ids.
Proof.
  intros Hst [Hi Hres Hlen] Hnd. unfold finish_requests. rewrite Hst. cbn [py_assert mbind result_bind].
  set (valid := finish_targets ids s). pose proof (finish_targets_spec ids s Hi) as Hv. fold valid in Hv.
  set (wait := filter _ valid). set (run := filter _ valid). set (s1 := set_num_waiting_for_streaming_input _ _).
  pose proof (core_nodup _ _ _ _ Hi) as (HndR & HndW & Hdis). pose proof Hi as Hc. unfold inv in Hc. rewrite app_nil_r in *.
  assert (Hrun : forall x, x ∈ running s -> x ∈ run <-> x ∈ valid).
  { intros x Hx. unfold run. rewrite list_elem_of_filter. destruct (co_run _ _ _ _ Hc x Hx) as (r & -> & Har).
    rewrite bool_decide_true by apply Har. split; [by intros [_ ?]|done]. }
  assert (Hwait : forall x, x ∈ queued s -> x ∈ wait <-> x ∈ valid).
  { intros x Hx. unfold wait. rewrite list_elem_of_filter. destruct (co_wait _ _ _ _ Hc x Hx) as (r & -> & Haw).
    pose proof (aw_status _ _ _ _ Haw) as Hs. rewrite bool_decide_false by (intros E; rewrite E in Hs; set_solver). split; [by intros [_ ?]|done]. }
  assert (Hwq : forall x, x ∈ wait -> x ∈ queued s).
  { intros x. unfold wait. rewrite list_elem_of_filter. intros [Hf Hx]. apply Hv in Hx as [_ Hx]. rewrite <- (co_part _ _ _ _ Hc) in Hx.
    apply elem_of_app in Hx as [Hx|Hx]; [|done]. destruct (co_run _ _ _ _ Hc x Hx) as (r & Hr & Har). rewrite Hr, bool_decide_true in Hf by apply Har. done. }
  assert (Hq : exists q1 q2, match wait with
      | [] => s1
      | _ => set_waiting (@remove_requests _ _ (ops s1) wait (waiting s1))
               (set_skipped_waiting (@remove_requests _ _ (ops s1) wait (skipped_waiting s1)) s1)
      end = set_waiting q1 (set_skipped_waiting q2 s1) /\ wf s q1 /\ wf s q2 /\ iter s q1 ≡ₚ minus (iter s (waiting s)) wait /\
      iter s q2 ≡ₚ minus (iter s (skipped_waiting s)) wait).
  { destruct wait as [|v vs] eqn:Ew.
    - exists (waiting s1), (skipped_waiting s1). rewrite !minus_nil. split_and!; try done; apply Hc.
    - eexists _, _. split; [done|]. rewrite <- Ew in *.
      destruct (removed_spec s (waiting s) wait (co_wq _ _ _ _ Hc)) as [W1 I1].
      { intros x y Hx Hy. apply (queued_apart s x y Hi); [auto|]. apply elem_of_app. by left. }
      destruct (removed_spec s (skipped_waiting s) wait (co_sq _ _ _ _ Hc)) as [W2 I2].
      { intros x y Hx Hy. apply (queued_apart s x y Hi); [auto|]. apply elem_of_app. by right. }
      rewrite Ew in *. done. }
  destruct Hq as (q1 & q2 & Eq & Hw1 & Hw2 & I1 & I2). 
  assert (Hc2 : core cfg (minus (running s) []) (minus (queued s) []) (set_waiting q1 (set_skipped_waiting q2 s1))).
  { rewrite !minus_nil. by destruct Hc. }
  destruct (finish_loop (running s) (queued s) st valid Hst HndR HndW Hdis) with (done := @nil string) (s := set_waiting q1 (set_skipped_waiting q2 s1))
    as (s' & Hf & Hc' & Hip & Ho & Hobj); [|exact Hc2|by apply NoDup_filter|].
  { intros x Hx. rewrite (co_part _ _ _ _ Hc). by apply Hv. }
  rewrite Eq, Hf. cbn [mbind result_bind]. eexists _, s'. split; [done|]. cbn [app] in *.
  assert (Er : running s' = minus (running s) valid).
  { rewrite (ip_running _ _ Hip). etrans; [by apply remove_all_filter|]. apply list_filter_iff'. intros x Hx. by rewrite Hrun. }
  assert (Hm : forall l, (forall x, x ∈ l -> x ∈ queued s) -> minus l wait = minus l valid).
  { intros l Hl. apply list_filter_iff'. intros x Hx. by rewrite Hwait by auto. }
  assert (Ew : iter s' (waiting s') ≡ₚ minus (iter s (waiting s)) valid).
  { rewrite (ip_waiting _ _ Hip), (proj1 (same_order_iter s s' _ Ho)), <- Hm; [done|]. intros x Hx. apply elem_of_app. by left. }
  assert (Es : iter s' (skipped_waiting s') ≡ₚ minus (iter s (skipped_waiting s)) valid).
  { rewrite (ip_skipped _ _ Hip), (proj1 (same_order_iter s s' _ Ho)), <- Hm; [done|]. intros x Hx. apply elem_of_app. by right. }
  assert (Eqs : queued s' ≡ₚ minus (queued s) valid) by (unfold queued at 1; rewrite Ew, Es; unfold minus, queued; by rewrite filter_app).
  assert (Hreq : forall x, x ∈ requests s' <-> x ∈ requests s /\ x ∉ valid).
  { intros x. rewrite <- (co_part _ _ _ _ Hc'), <- (co_part _ _ _ _ Hc), !elem_of_app, !elem_minus. tauto. }
  split; [split|split; [split|]].
  - unfold inv. rewrite Er, app_nil_r. by apply (core_perm cfg _ _ _ _ _ (reflexivity _) (symmetry Eqs)).
  - intros x r. rewrite Eqs, elem_minus, (ip_prev _ _ Hip). intros [Hx Hxv]. rewrite Hobj by done. by apply Hres.
  - rewrite Er. unfold zlen, minus. pose proof (length_filter (fun x => x ∉ valid) (running s)). unfold zlen in Hlen. lia.
  - intros x Hx. by apply Hreq.
  - intros x [Hx Hxv]%Hreq. rewrite Er, elem_minus. tauto.
  - intros x [Hx Hxv]%Hreq. rewrite Ew, elem_minus. tauto.
  - apply Hip.
  - intros x [Hx Hxv]%Hreq. destruct (core_live cfg _ _ s x Hc) as (r & Hr & _); [by rewrite (co_part _ _ _ _ Hc)|].
    exists r, r. rewrite Hobj by done. split_and!; [done|done|apply answered_refl].
  - intros x. rewrite Hreq, Hv. tauto.
Qed.
End Outputs.
