(* ===== verification/EngineRun.v ===== *)
(** * Runs of the engine core

    The batches that the engine core (EngineCore) has in flight and the requests of its
    scheduler fit together: every request has as many output placeholders as tokens are on
    their way to it and is computed up to the last of them.  Scheduling, aborting and
    processing an output keep this, so no call of a run fails. *)
From S2P Require Import Prelude FreeQueue Heapq Request RequestQueue EncoderCache StopConditions BlockHash BlockPool KVCacheManager SchedulerState ScheduleStep SchedulerUpdate EngineCore SchedulerLaws ScheduleSafety ScheduleRunning ScheduleWaiting ScheduleFinish SchedulerRequests SchedulerOutputs.

Section Flight.
Context {KV Q : Type} `{KVLaws KV} `{QueueLaws Q}.
Context (cfg : SchedConfig) (hasher : option block_hasher) `{!HashLaws KV hasher} (grammar_ready : Request -> bool).
Implicit Types (s : Scheduler KV Q) (r : Request) (id : string) (o : SchedulerOutput).

(** ** Batches in flight *)

(** A batch with the tokens that each request expects of it; the oldest batch comes first. *)
Definition Flight : Type := list (SchedulerOutput * (string -> Z)).
Implicit Types (F : Flight) (E : string -> Z).
Definition out_keys o : list string := (out_num_scheduled_tokens o).*1.
Definition pend F id : Z := foldr (fun p n => p.2 id + n) 0 F.

Record item_ok (p : SchedulerOutput * (string -> Z)) : Prop := {
  it_nodup : NoDup (out_keys p.1);
  it_positive : forall x, x ∈ out_num_scheduled_tokens p.1 -> 0 < x.2;
  it_other : forall x, x ∉ out_keys p.1 -> p.2 x = 0;
  it_tokens : forall x, p.2 x = 0 \/ p.2 x = 1 + zlen (default [] (out_spec_decode_tokens p.1 !! x));
}.

(** How far a request is. *)
Definition counted F s id r : Prop :=
  num_output_placeholders r = (if async cfg then pend F id else 0) /\
  (id ∈ running s -> if pend F id =? 0 then num_computed_tokens r < num_tokens r
                     else num_computed_tokens r = num_tokens r + pend F id - 1).

Record flying F s : Prop := {
  fl_items : forall p, p ∈ F -> item_ok p;
  fl_counted : forall id, id ∈ requests s -> exists r, objects s !! id = Some r /\ counted F s id r;
  fl_place : forall p id, p ∈ F -> id ∈ out_keys p.1 -> id ∈ requests s -> id ∈ running s \/ id ∈ iter s (waiting s);
  fl_last : forall p id, last F = Some p -> id ∈ out_keys p.1 -> id ∈ requests s -> id ∈ running s;
}.

Lemma item_nonneg p x : item_ok p -> 0 <= p.2 x.
Proof. intros Hp. destruct (it_tokens p Hp x) as [->| ->]; unfold zlen; lia. Qed.
Lemma pend_nonneg F id : (forall p, p ∈ F -> item_ok p) -> 0 <= pend F id.
Proof.
  induction F as [|p F IH]; intros HF; cbn; [lia|]. pose proof (item_nonneg p id (HF p ltac:(constructor))).
  specialize (IH ltac:(intros q Hq; apply HF; by constructor)). unfold pend in IH. lia.
Qed.
Lemma pend_snoc F p id : pend (F ++ [p]) id = pend F id + p.2 id.
Proof. unfold pend. induction F as [|q F IH]; cbn in *; [lia|]. rewrite IH. lia. Qed.
Lemma pend_out F id : (forall p, p ∈ F -> item_ok p) -> (forall p, p ∈ F -> id ∉ out_keys p.1) -> pend F id = 0.
Proof.
  induction F as [|p F IH]; intros HF Hid; [done|]. cbn. rewrite (it_other p) by (apply HF || apply Hid; constructor).
  apply IH; intros q Hq; [apply HF|apply Hid]; by constructor.
Qed.

(** With one batch in flight, every request that expects tokens is running. *)
Lemma short_running F s id : flying F s -> (length F <= 1)%nat -> id ∈ requests s -> id ∉ running s -> pend F id = 0.
Proof.
  intros [Hi _ _ Hl] HF Hr Hn. apply pend_out; [done|]. intros p Hp Hk. apply Hn.
  destruct F as [|q [|]]; [by apply elem_of_nil in Hp| |cbn in HF; lia]. apply list_elem_of_singleton in Hp as ->. by apply (Hl q).
Qed.

Lemma requests_in s id : sched_ok cfg s -> id ∈ running s -> id ∈ requests s.
Proof. intros Hs Hin. rewrite <- (co_part _ _ _ _ (so_inv _ _ Hs)). apply elem_of_app. by left. Qed.

Lemma flying_settled F s : (async cfg = false -> F = []) -> sched_ok cfg s -> flying F s -> all_settled s.
Proof.
  intros Hsync Hs Hf id Hin. destruct (fl_counted _ _ Hf id (requests_in s id Hs Hin)) as (r & Hr & Hp & Hc). exists r. split; [done|].
  specialize (Hc Hin). unfold settled, num_tokens_with_spec, num_tokens, zlen in *. rewrite Hp.
  destruct (Z.eqb_spec (pend F id) 0); [destruct (async cfg); lia|]. destruct (async cfg); [lia|]. by rewrite Hsync in *.
Qed.

(** ** Scheduling *)

Lemma expects_item s o s' : NoDup (out_keys o) -> (forall id n, (id, n) ∈ out_num_scheduled_tokens o -> scheduled_ok cfg s s' id n) ->
  item_ok (o, expects o s').
Proof.
  intros Hnd Hn. split; cbn [fst snd]; [done|..].
  - intros [id n] Hin. by destruct (Hn id n Hin) as (_ & ? & _).
  - intros x Hx. apply dict_get_None in Hx. unfold expects. by rewrite Hx.
  - intros x. unfold expects, expected. destruct (dict_get x _), (objects s' !! x) as [r|]; auto. destruct (is_prefill_chunk r); auto.
Qed.

Lemma staged_pending s s1 t1 s2 t2 o s' : sched_ok cfg s -> staged cfg s s1 t1 s2 t2 o s' -> sched_ok cfg s' -> requests s' = requests s ->
  out_pending_structured_output o = true -> exists id r, id ∈ requests s /\ objects s !! id = Some r /\ 0 < num_output_placeholders r.
Proof.
  intros Hs Hg Hs' Hreq Hp. pose proof Hg as [Hmv Hf2 _ _ Hd Hfi]. destruct (fi_pending _ _ _ _ _ Hfi Hp) as (id & r2 & Hin & Hr2 & Hph).
  assert (Hidr : id ∈ requests s).
  { rewrite <- Hreq. apply requests_in; [done|]. rewrite (fi_running _ _ _ _ _ Hfi). by apply Hd. }
  destruct (core_live cfg _ _ s id (so_inv _ _ Hs)) as (r & Hr & _); [by rewrite (co_part _ _ _ _ (so_inv _ _ Hs))|].
  destruct (sf_stable _ _ _ (mv_frame _ _ _ _ Hmv) id r Hr) as (r1 & Hr1 & _ & P1).
  destruct (sf_stable _ _ _ Hf2 id r1 Hr1) as (r2' & Hr2' & _ & P2). rewrite Hr2 in Hr2'. injection Hr2' as <-.
  exists id, r. split; [done|]. split; [done|]. congruence.
Qed.

Lemma schedule_flight F s : plain_config cfg -> sched_ok cfg s -> flying F s -> (length F <= 1)%nat -> (async cfg = false -> F = []) ->
  exists o s', schedule cfg grammar_ready s = Ok (o, s') /\ sched_ok cfg s' /\ requests s' = requests s /\
    flying (F ++ [(o, expects o s')]) s' /\ (out_pending_structured_output o = true -> F <> []).
Proof.
  intros Hc Hs Hf HF Hsync. pose proof (flying_settled F s Hsync Hs Hf) as Hset.
  destruct (schedule_spec cfg grammar_ready s Hc Hs Hset) as (s1 & t1 & s2 & t2 & o & s' & Hsch & Hg & Hs' & Hreq & _ & _ & _ & _ & _ & Hnd & Hsok).
  exists o, s'. split; [done|]. split; [done|]. split; [done|]. pose proof (expects_item s o s' Hnd Hsok) as Hit.
  assert (Hrun' : forall id, id ∈ out_keys o -> id ∈ running s').
  { intros id Hid. apply list_elem_of_fmap in Hid as ([x n] & -> & Hin). by apply (Hsok x n). }
  assert (Hplace : forall id r, objects s !! id = Some r -> id ∈ running s -> id ∈ running s' \/ id ∈ iter s' (waiting s')).
  { intros id r Hr. destruct (staged_request cfg s s1 t1 s2 t2 o s' id r Hg Hr) as (r' & _ & Hst). apply Hst. }
  pose proof Hf as [Hi Hcnt Hpl Hl]. split; [split|].
  - intros p [Hp| ->%list_elem_of_singleton]%elem_of_app; auto.
  - intros id Hid. rewrite Hreq in Hid. destruct (Hcnt id Hid) as (r & Hr & Hph & Hcomp).
    destruct (staged_request cfg s s1 t1 s2 t2 o s' id r Hg Hr) as (r' & Hr' & [Ht Hph' _ Hidle Hsched]). exists r'. split; [done|].
    assert (Hnt : num_tokens r' = num_tokens r) by (unfold num_tokens; by rewrite Ht). pose proof (pend_nonneg F id Hi) as Hp0.
    pose proof (item_nonneg _ id Hit) as He0. cbn [snd] in He0.
    split; rewrite pend_snoc; cbn [snd]; [rewrite Hph', Hph; destruct (async cfg); lia|]. intros Hin'.
    destruct (dict_get id (out_num_scheduled_tokens o)) as [n|] eqn:Eg.
    + destruct (Hsched n eq_refl) as (_ & Hadv & Hn & Hch & Hnch).
      assert (Hex : expects o s' id = if is_prefill_chunk r' then 0 else 1 + zlen (default [] (out_spec_decode_tokens o !! id)))
        by (unfold expects; by rewrite Eg, Hr').
      assert (Hcase : pend F id = 0 \/ (id ∈ running s /\ 0 < pend F id /\ async cfg = true)).
      { destruct (decide (id ∈ running s)) as [Hin|Hin]; [|left; by apply (short_running F s)].
        destruct (async cfg) eqn:Eas; [|left; by rewrite Hsync]. destruct (Z.eqb_spec (pend F id) 0); [by left|right; split_and!; [done|lia|done]]. }
      rewrite Hex. destruct (is_prefill_chunk r').
      * specialize (Hch eq_refl). destruct Hcase as [E0|(Hin & Hp & Eas)].
        -- destruct (Z.eqb_spec (pend F id + 0) 0), (async cfg); lia.
        -- specialize (Hcomp Hin). specialize (Hadv Hin). rewrite (proj2 (Z.eqb_neq (pend F id) 0)) in Hcomp by lia. rewrite Eas in Hph. lia.
      * specialize (Hnch eq_refl). assert (0 <= zlen (default [] (out_spec_decode_tokens o !! id))) by (unfold zlen; lia).
        rewrite (proj2 (Z.eqb_neq _ 0)) by lia. destruct Hcase as [E0|(Hin & Hp & Eas)]; [destruct (async cfg)|rewrite Eas in Hph]; lia.
    + destruct (Hidle Hin' eq_refl) as [Hin Hce]. specialize (Hcomp Hin). assert (Hex : expects o s' id = 0) by (unfold expects; by rewrite Eg).
      rewrite Hex, Z.add_0_r, Hce, Hnt. done.
  - intros p id Hp Hk Hid. rewrite Hreq in Hid. destruct (Hcnt id Hid) as (r & Hr & _).
    apply elem_of_app in Hp as [Hp| ->%list_elem_of_singleton]; [|left; by apply Hrun'].
    apply (Hplace id r Hr). destruct F as [|q [|]]; [by apply elem_of_nil in Hp| |cbn in HF; lia]. apply list_elem_of_singleton in Hp as ->. by apply (Hl q).
  - intros p id. rewrite last_snoc. intros [= <-] Hk _. by apply Hrun'.
  - intros Hp ->. destruct (staged_pending s s1 t1 s2 t2 o s' Hs Hg Hs' Hreq Hp) as (id & r & Hid & Hr & Hph).
    destruct (Hcnt id Hid) as (r0 & Hr0 & Hph0 & _). rewrite Hr in Hr0. injection Hr0 as <-. rewrite Hph0 in Hph. destruct (async cfg); cbn in Hph; lia.
Qed.

(** ** Outputs, aborts, new requests *)

Lemma updated_flight E F F' s s' : sched_ok cfg s -> flying F s -> updated cfg E s s' ->
  (forall id, 0 <= E id /\ pend F id = E id + pend F' id) -> (forall p, p ∈ F' -> p ∈ F) -> (forall p, last F' = Some p -> last F = Some p) ->
  flying F' s'.
Proof.
  intros Hs [Hi Hcnt Hpl Hl] [Hreq Hrun Hwait _ Hans] HE Hsub Hlast. split.
  - auto.
  - intros id Hid. destruct (Hans id Hid) as (r & r' & Hr & Hr' & m & Hm & Ht & _ & Hph' & Hc'). exists r'. split; [done|].
    destruct (Hcnt id (Hreq id Hid)) as (r0 & Hr0 & Hph & Hcomp). rewrite Hr in Hr0. injection Hr0 as <-. destruct (HE id) as [He Hp].
    split; [rewrite Hph', Hph; destruct (async cfg); lia|]. intros Hin. apply (Hrun id Hid) in Hin. specialize (Hcomp Hin).
    destruct (core_live cfg _ _ s id (so_inv _ _ Hs)) as (r0 & Hr0 & _ & _ & Hst & _); [apply elem_of_app; by left|].
    rewrite Hr in Hr0. injection Hr0 as <-. rewrite bool_decide_true in Hc' by (by apply Hst).
    assert (Hi' : forall p, p ∈ F' -> item_ok p) by auto. pose proof (pend_nonneg F' id Hi').
    destruct (Z.eqb_spec (pend F id) 0), (Z.eqb_spec (pend F' id) 0); lia.
  - intros p id Hp Hk Hid. rewrite (Hrun id Hid), (Hwait id Hid). eauto.
  - intros p id Hp Hk Hid. rewrite (Hrun id Hid). eauto.
Qed.

Lemma abort_flight F ids s : sched_ok cfg s -> flying F s -> NoDup ids ->
  exists out s', finish_requests ids FINISHED_ABORTED s = Ok (out, s') /\ sched_ok cfg s' /\ flying F s' /\
    (forall x, x ∈ requests s' <-> x ∈ requests s /\ x ∉ ids).
Proof.
  intros Hs Hf Hnd. destruct (finish_requests_spec cfg hasher ids FINISHED_ABORTED s) as (out & s' & Hfin & Hs' & Hu & Hreq); [done..|].
  exists out, s'. split; [done|]. split; [done|]. split; [|done]. eapply (updated_flight (fun _ => 0) F F s s' Hs Hf Hu); try done. 
Qed.

(** What the model returns for a batch, as the requests are when it is processed. *)
Definition answers E o mro s : Prop := forall id, id ∈ out_keys o -> id ∈ requests s ->
  forall r, objects s !! id = Some r -> exists gen pooled, answer mro id (E id) r gen pooled.

Lemma output_flight E o F mro s : sched_ok cfg s -> flying ((o, E) :: F) s -> (async cfg = false -> F = []) -> answers E o mro s ->
  exists outs events s', update_from_output cfg hasher o mro s = Ok (outs, events, s') /\ sched_ok cfg s' /\ flying F s'.
Proof.
  intros Hs Hf Hsync Hans. pose proof Hf as [Hi Hcnt Hpl Hl]. pose proof (Hi (o, E) ltac:(constructor)) as Hit.
  assert (HF : forall p, p ∈ F -> item_ok p) by (intros p Hp; apply Hi; by constructor).
  destruct (update_from_output_spec cfg hasher E o mro s Hs) as (outs & events & s' & Hu & Hs' & Hud); [apply Hit| |apply Hit|].
  - intros [id n] Hin. pose proof (list_elem_of_fmap_2 fst _ _ Hin) as Hk. split; [by apply (it_positive _ Hit)|]. cbn in *. intros Hid.
    destruct (Hcnt id Hid) as (r & Hr & Hph & Hcomp). destruct (Hans id Hk Hid r Hr) as (gen & pooled & Ha). exists r, gen, pooled.
    pose proof (item_nonneg _ id Hit) as He. pose proof (pend_nonneg F id HF) as Hp. cbn in *. fold (pend F id) in *.
    split; [done|]. split; [|split; [apply (it_tokens _ Hit id)|split; [done|by apply (Hpl (o, E) id ltac:(constructor))]]]. split.
    + destruct (async cfg); lia.
    + intros He0 Hst. destruct (core_live cfg _ _ s id (so_inv _ _ Hs)) as (r0 & Hr0 & _ & _ & Hst' & _); [by rewrite (co_part _ _ _ _ (so_inv _ _ Hs))|].
      rewrite Hr in Hr0. injection Hr0 as <-. specialize (Hcomp (proj1 Hst' Hst)). rewrite (proj2 (Z.eqb_neq _ 0)) in Hcomp by lia.
      destruct (async cfg) eqn:Eas; [lia|]. rewrite Hsync in * by done. cbn in *. lia.
  - exists outs, events, s'. split; [done|]. split; [done|].
    eapply (updated_flight E ((o, E) :: F) F s s' Hs Hf Hud).
    + intros id. split; [apply (item_nonneg _ id Hit)|done].
    + intros p Hp. by constructor.
    + intros p Hp. destruct F; [done|exact Hp].
Qed.

Lemma add_flight F s r : sched_ok cfg s -> flying F s -> new_request_ok cfg s r -> num_output_placeholders r = 0 ->
  (forall p, p ∈ F -> request_id r ∉ out_keys p.1) ->
  exists s', sched_add_request hasher r s = Ok s' /\ sched_ok cfg s' /\ flying F s' /\ requests s' = requests s ++ [request_id r].
Proof.
  intros Hs [Hi Hcnt Hpl Hl] Hn Hph Hout. destruct (add_request_spec cfg hasher s r Hs Hn) as (s' & Ha & Hs' & Hreq & Hrun & Hold & _ & Hr & _ & Hw).
  exists s'. split; [done|]. split; [done|]. split; [|done]. split; [done|..].
  - intros id. unfold counted. rewrite Hreq, elem_of_app, list_elem_of_singleton, Hrun. intros [Hid| ->].
    + destruct (Hcnt id Hid) as (r0 & ? & ?). exists r0. split; [by rewrite Hold|]. done.
    + exists r. split; [done|]. rewrite (pend_out F) by done. split; [rewrite Hph; by destruct (async cfg)|].
      intros Hin. exfalso. by apply (nr_id _ _ _ Hn), requests_in.
  - intros p id Hp Hk. rewrite Hreq, elem_of_app, list_elem_of_singleton, Hrun. intros [Hid| ->]; [|by destruct (Hout p Hp)].
    destruct (Hpl p id Hp Hk Hid); [by left|right; by apply Hw].
  - intros p id Hp Hk. rewrite Hreq, elem_of_app, list_elem_of_singleton, Hrun. intros [Hid| ->]; [eauto|].
    apply last_Some_elem_of in Hp. by destruct (Hout p Hp).
Qed.

(** ** Draft tokens, pauses and resets *)

(** Nothing changes that the flight depends on. *)
Lemma same_flight F s s' : flying F s -> requests s' = requests s -> running s' = running s -> waiting s' = waiting s -> same_order s s' ->
  (forall id r, id ∈ requests s -> objects s !! id = Some r -> exists r', objects s' !! id = Some r' /\
     num_output_placeholders r' = num_output_placeholders r /\ num_computed_tokens r' = num_computed_tokens r /\ num_tokens r' = num_tokens r) ->
  flying F s'.
Proof.
  intros [Hi Hcnt Hpl Hl] Ereq Erun Ew Ho Hobj. split; [done|..].
  - intros id. rewrite Ereq. intros Hid. destruct (Hcnt id Hid) as (r & Hr & Hph & Hc). destruct (Hobj id r Hid Hr) as (r' & Hr' & E1 & E2 & E3).
    exists r'. split; [done|]. unfold counted. by rewrite E1, E2, E3, Erun.
  - intros p id. rewrite Ereq, Erun, Ew, (proj1 (same_order_iter s s' _ Ho)). apply Hpl.
  - intros p id. rewrite Ereq, Erun. apply Hl.
Qed.

Lemma pause_flight F s p : sched_ok cfg s -> flying F s -> sched_ok cfg (set_pause_state p s) /\ flying F (set_pause_state p s).
Proof.
  intros [Hi Hres Hlen] Hf. split; [split; [by destruct Hi|done|done]|]. apply (same_flight F s); try done. eauto.
Qed.

(** [update_draft_token_ids] leaves the flight alone. *)
Lemma draft_flight F s id r l : sched_ok cfg s -> flying F s -> id ∈ requests s -> objects s !! id = Some r ->
  sched_ok cfg (put (set_spec_token_ids l r) s) /\ flying F (put (set_spec_token_ids l r) s).
Proof.
  intros [Hi Hres Hlen] Hf Hid Hr. unfold inv in Hi. rewrite app_nil_r in Hi. set (r' := set_spec_token_ids l r).
  assert (Hin : id ∈ running s ++ queued s) by (by rewrite (co_part _ _ _ _ Hi)).
  destruct (core_live cfg _ _ s id Hi Hin) as (r0 & Hr0 & Hlive & _ & _ & HaR & HaW). rewrite Hr in Hr0. injection Hr0 as <-.
  pose proof (lv_id _ _ _ _ Hlive) as Hrid.
  assert (Hlive' : live cfg (kv_cache_manager s) id r').
  { destruct Hlive. split; try done. eapply kl_hashed_update; [done..|by right]. }
  destruct (core_put cfg _ _ s id r r' Hi Hin Hr Hrid) as [Hc Ho]; [by split|intros Hx; by destruct (HaR Hx)|intros Hx; by destruct (HaW Hx)|].
  assert (Hq : queued (put r' s) = queued s) by (unfold queued; by rewrite !(proj1 (same_order_iter s (put r' s) _ Ho))).
  assert (Hobj : objects (put r' s) = <[id := r']> (objects s)) by (cbn; by rewrite Hrid).
  split; [split|].
  - unfold inv. by rewrite app_nil_r, Hq.
  - intros x rx. rewrite Hq, Hobj, lookup_insert. intros Hx. case_decide as Hxi; [subst x|by apply Hres]. intros [= <-]. by apply (Hres id r).
  - done.
  - apply (same_flight F s); try done. intros x rx _ Hrx. rewrite Hobj, lookup_insert. case_decide as Hxi; [subst x|by exists rx].
    rewrite Hr in Hrx. injection Hrx as <-. by exists r'.
Qed.

Lemma drafts_flight F (advance : Request -> bool) (validate : Request -> list Z -> list Z) drafts s : sched_ok cfg s -> flying F s ->
  sched_ok cfg (update_draft_token_ids advance validate drafts s) /\ flying F (update_draft_token_ids advance validate drafts s).
Proof.
  unfold update_draft_token_ids. revert s. induction drafts as [|p drafts IH]; intros s Hs Hf; [done|]. cbn [foldl].
  assert (Hp : sched_ok cfg (update_draft_one advance validate s p) /\ flying F (update_draft_one advance validate s p)); [|destruct Hp; by apply IH].
  unfold update_draft_one, get_request. destruct (decide (p.1 ∈ requests s)) as [Hid|]; [|done].
  destruct (objects s !! p.1) as [r|] eqn:Hr; [|done]. destruct (is_finished r); [done|]. destruct (is_prefill_chunk r); by apply (draft_flight F s p.1 r).
Qed.

(** Drafts that replace the placeholders of a batch are as many. *)
Lemma draft_in_output_one_length (advance : Request -> bool) (validate : Request -> list Z -> list Z) s st p x :
  (forall r l, (length (validate r l) <= length l)%nat) ->
  zlen (default [] ((draft_in_output_one advance validate s st p).1 !! x)) = zlen (default [] (st.1 !! x)).
Proof.
  intros Hv. unfold draft_in_output_one. destruct st as [spec invalid], (get_request p.1 s) as [r|]; [|done]. destruct (is_finished r); [done|].
  destruct (default [] (spec !! p.1)) as [|t ts] eqn:Ed; [done|]. cbn [fst]. rewrite lookup_insert. case_decide as Hx; [|done]. subst x. rewrite Ed.
  set (n := length (t :: ts)). set (v := if advance r then _ else _). cbn [default from_option]. unfold id, zlen. rewrite length_app, length_replicate.
  assert (Hle : (length v <= n)%nat).
  { assert (length (take n p.2) <= n)%nat by (rewrite length_take; lia). unfold v. destruct (advance r); [|done]. specialize (Hv r (take n p.2)). lia. }
  fold n. unfold zlen. lia.
Qed.

Lemma drafts_item (advance : Request -> bool) (validate : Request -> list Z -> list Z) drafts s o E :
  (forall r l, (length (validate r l) <= length l)%nat) -> item_ok (o, E) ->
  item_ok (update_draft_token_ids_in_output advance validate drafts o s, E) /\
  out_num_scheduled_tokens (update_draft_token_ids_in_output advance validate drafts o s) = out_num_scheduled_tokens o.
Proof.
  intros Hv [A1 A2 A3 A4]. unfold update_draft_token_ids_in_output.
  assert (Hl : forall st x, zlen (default [] ((foldl (draft_in_output_one advance validate s) st drafts).1 !! x)) = zlen (default [] (st.1 !! x))).
  { induction drafts as [|p drafts IH]; intros st x; [done|]. cbn [foldl]. rewrite IH. by apply draft_in_output_one_length. }
  specialize (Hl (out_spec_decode_tokens o, ∅)). destruct (foldl _ _ drafts) as [spec invalid]. split; [|done]. split; try done.
  intros x. cbn. rewrite Hl. apply A4.
Qed.

Lemma reset_flight F s conn : sched_ok cfg s -> flying F s ->
  exists ok s', sched_reset_prefix_cache false conn s = Ok (ok, s') /\ sched_ok cfg s' /\ flying F s'.
Proof.
  intros [Hi Hres Hlen] Hf. unfold sched_reset_prefix_cache. cbn [mbind result_bind].
  destruct (kl_reset (kv_cache_manager s)) as [Hok Hk]; [apply Hi|]. destruct (kv_reset (kv_cache_manager s)) as [ok kv].
  eexists _, _. split; [done|]. split; [split; [exact (core_kv cfg _ _ s kv Hi Hok Hk)|done|done]|]. apply (same_flight F s); try done. eauto.
Qed.
End Flight.

(** ** The engine *)

Section Engine.
Context {KV Q : Type} `{KVLaws KV} `{QueueLaws Q}.
Context (cfg : SchedConfig) (ecfg : EngineConfig) (hasher : option block_hasher) `{!HashLaws KV hasher} (grammar_ready : Request -> bool).
Context (should_advance : Request -> bool) (validate_tokens : Request -> list Z -> list Z) (supported_task : PoolingParams -> bool).
Implicit Types (s : Scheduler KV Q) (e : EngineCore KV Q) (r : Request) (id : string) (o : SchedulerOutput).

(** The executor's [max_concurrent_batches] without pipeline parallelism, and grammars that
    let a prefix of the drafts pass. *)
Record engine_config : Prop := {
  ec_plain : plain_config cfg;
  ec_queue : batch_queue_size ecfg = if async cfg then 2 else 1;
  ec_validate : forall r l, (length (validate_tokens r l) <= length l)%nat;
}.

(** The batches of the queue are the flight. *)
Definition queued_flight (F : Flight) (q : list Batch) : Prop := reverse (scheduler_output <$> q) = F.*1.
Record engine_in (F : Flight) e : Prop := {
  ei_sched : sched_ok cfg (scheduler e);
  ei_flying : flying cfg F (scheduler e);
  ei_length : (length F <= 1)%nat;
  ei_queue : match batch_queue e with
             | None => async cfg = false /\ F = []
             | Some q => async cfg = true /\ queued_flight F q
             end;
}.
Definition engine_ok e : Prop := exists F, engine_in F e.

(** The tokens a request waits for. *)
Definition awaited s id : Z := match get_request id s with Some r => num_output_placeholders r | None => 0 end.

(** What the aborts do before an output is processed. *)
Definition aborted (lists : list (list string)) s : result (Scheduler KV Q) :=
  match lists with
  | [] => Ok s
  | _ => '(_, s') ← finish_requests (remove_dups (concat lists)) FINISHED_ABORTED s; Ok s'
  end.

(** The model answers the batch that the step processes: the oldest one of the queue, or
    the new one when the queue is empty. *)
Definition model_ok (model : Model) arrived e : Prop := forall E o fut s1 s2,
  match last (default [] (batch_queue e)) with
  | Some b => E = awaited (scheduler e) /\ o = scheduler_output b /\
              (s1 = scheduler e \/ exists o1, schedule cfg grammar_ready (scheduler e) = Ok (o1, s1))
  | None => schedule cfg grammar_ready (scheduler e) = Ok (o, s1) /\ E = expects o s1
  end -> aborted (aborts_queue e ++ arrived) s1 = Ok s2 -> answers E o (model fut o) s2.

Lemma process_aborts_eq arrived e : exists rest, process_aborts_queue arrived e =
  (s ← aborted (aborts_queue e ++ arrived) (scheduler e); Ok (mkEngine s (batch_queue e) (rest : list (list string)))).
Proof.
  unfold process_aborts_queue, aborted, abort_requests. destruct (aborts_queue e ++ arrived) as [|l ls].
  - exists (aborts_queue e). by destruct e.
  - exists []. cbn [scheduler batch_queue set_scheduler aborts_queue]. by destruct (finish_requests (remove_dups (concat (l :: ls))) FINISHED_ABORTED (scheduler e)) as [[? ?]|].
Qed.

Lemma aborted_flight F lists s : sched_ok cfg s -> flying cfg F s ->
  exists s', aborted lists s = Ok s' /\ sched_ok cfg s' /\ flying cfg F s' /\ forall x, x ∈ requests s' -> x ∈ requests s.
Proof.
  intros Hs Hf. unfold aborted. destruct lists as [|l ls]; [by exists s|].
  destruct (abort_flight cfg hasher F (remove_dups (concat (l :: ls))) s Hs Hf) as (out & s' & Ha & Hs' & Hf' & Hr); [apply NoDup_remove_dups|].
  rewrite Ha. cbn [mbind result_bind]. exists s'. split_and!; try done. intros x Hx. by apply Hr.
Qed.

(** [step] of the synchronous engine. *)
Lemma sync_step_run model arrived e : plain_config cfg -> engine_in [] e -> batch_queue e = None -> model_ok model arrived e ->
  exists outs executed e', step cfg hasher grammar_ready model arrived e = Ok (outs, executed, e') /\ engine_in [] e' /\ batch_queue e' = None.
Proof.
  intros Hc [Hs Hf _ Hq] Eq Hm. rewrite Eq in Hq. destruct Hq as [Has _]. unfold step.
  destruct (has_requests (scheduler e)); cbn [negb]; [|exists ∅, false, e; split; [done|]; split; [|done]; split; [done|done|cbn; lia|by rewrite Eq]].
  destruct (schedule_flight cfg grammar_ready [] (scheduler e) Hc Hs Hf) as (o & s1 & Hsch & Hs1 & Hreq & Hf1 & _); [cbn; lia|done|].
  rewrite Hsch. cbn [mbind result_bind]. destruct (process_aborts_eq arrived (set_scheduler s1 e)) as [rest ->]. cbn [scheduler aborts_queue set_scheduler batch_queue].
  destruct (aborted_flight _ (aborts_queue e ++ arrived) s1 Hs1 Hf1) as (s2 & Ha & Hs2 & Hf2 & Hsub). rewrite Ha. cbn [mbind result_bind scheduler].
  destruct (output_flight cfg hasher (expects o s1) o [] (model (SampleFuture (grammar_requests o s1)) o) s2 Hs2 Hf2) as (outs & events & s3 & Hu & Hs3 & Hf3); [done| |].
  { eapply Hm; [|exact Ha]. by rewrite Eq. }
  rewrite Hu. cbn [mbind result_bind]. eexists _, _, _. split; [done|]. rewrite Eq. split; [|done]. split; [done|done|cbn; lia|done].
Qed.

(** [step_with_batch_queue] of the asynchronous engine. *)
Lemma answers_weaken (E E' : string -> Z) o mro s : (forall id, id ∈ requests s -> E id = E' id) -> answers E o mro s -> answers E' o mro s.
Proof. intros HE Ha id Hk Hid r Hr. rewrite <- HE by done. by apply Ha. Qed.

Lemma process_batch_run model arrived drafts deferred q b Fd e1 (E : string -> Z) executed : async cfg = true -> engine_config ->
  (use_spec_decode ecfg = true -> is_Some drafts) -> sched_ok cfg (scheduler e1) ->
  flying cfg ((scheduler_output b, E) :: Fd) (scheduler e1) -> (length Fd <= 1)%nat ->
  match deferred with None => queued_flight Fd q | Some o => q = [] /\ exists Ed, Fd = [(o, Ed)] end ->
  (forall fut s2, aborted (aborts_queue e1 ++ arrived) (scheduler e1) = Ok s2 -> answers E (scheduler_output b) (model fut (scheduler_output b)) s2) ->
  exists outs F e', process_batch cfg ecfg hasher should_advance validate_tokens model arrived drafts deferred (q ++ [b]) executed e1 = Ok (outs, executed, e') /\
    engine_in F e' /\ is_Some (batch_queue e').
Proof.
  intros Has Hc Hdr Hs Hf Hlen Hd Hm. unfold process_batch. rewrite last_snoc, removelast_last. cbn [of_option mbind result_bind].
  destruct (process_aborts_eq arrived (set_batch_queue q e1)) as [rest ->]. cbn [scheduler aborts_queue set_scheduler set_batch_queue batch_queue].
  destruct (aborted_flight _ (aborts_queue e1 ++ arrived) _ Hs Hf) as (s2 & Ha & Hs2 & Hf2 & _). rewrite Ha. cbn [mbind result_bind scheduler].
  destruct (output_flight cfg hasher E (scheduler_output b) Fd (model (future b) (scheduler_output b)) s2 Hs2 Hf2) as (outs & events & s3 & Hu & Hs3 & Hf3);
    [by rewrite Has|by apply Hm|].
  rewrite Hu. cbn [mbind result_bind]. destruct deferred as [o|].
  - destruct Hd as (-> & Ed & ->). assert (Hit : item_ok (o, Ed)) by (apply Hf3; constructor).
    assert (Ho : exists o', (if use_spec_decode ecfg then d ← of_option AssertionError drafts;
        Ok (update_draft_token_ids_in_output should_advance validate_tokens d o s3) else Ok o) = Ok o' /\
        item_ok (o', Ed) /\ out_num_scheduled_tokens o' = out_num_scheduled_tokens o).
    { destruct (use_spec_decode ecfg); [|by exists o]. destruct (Hdr eq_refl) as [d ->]. cbn [of_option mbind result_bind]. eexists. split; [done|].
      apply drafts_item; [apply Hc|done]. }
    destruct Ho as (o' & -> & Hit' & Ho'). cbn [mbind result_bind]. eexists _, [(o', Ed)], _. split; [done|]. split; [|done]. split; [done| |done|done].
    destruct Hf3 as [_ Hcnt Hpl Hl]. split; cbn [scheduler set_batch_queue set_scheduler].
    + by intros p ->%list_elem_of_singleton.
    + intros id Hid. destruct (Hcnt id Hid) as (r & ? & ?). by exists r.
    + intros p id ->%list_elem_of_singleton. unfold out_keys. cbn [fst]. rewrite Ho'. apply (Hpl (o, Ed)). constructor.
    + intros p id [= <-]. unfold out_keys. cbn [fst]. rewrite Ho'. by apply (Hl (o, Ed)).
  - cbn [mbind result_bind]. eexists _, Fd, _. split; [done|]. split; [|done]. by split.
Qed.

(** With one batch in flight the requests await its tokens. *)
Lemma awaited_last s p (E : string -> Z) : async cfg = true -> flying cfg [(p, E)] s -> forall id, id ∈ requests s -> awaited s id = E id.
Proof.
  intros Has Hf id Hid. destruct (fl_counted _ _ _ Hf id Hid) as (r & Hr & Hph & _). unfold awaited, get_request. rewrite decide_True, Hr by done.
  rewrite Hph, Has. cbn. lia.
Qed.

Lemma queue_one F q : queued_flight F q -> (length F <= 1)%nat ->
  (F = [] /\ q = []) \/ exists p b, F = [p] /\ q = [b] /\ scheduler_output b = p.1.
Proof.
  unfold queued_flight. intros Hq HF. destruct F as [|p [|]]; [| |cbn in HF; lia].
  - left. split; [done|]. destruct q as [|b q]; [done|]. apply (f_equal length) in Hq. rewrite length_reverse in Hq. done.
  - right. destruct q as [|b [|]]; [done| |apply (f_equal length) in Hq; rewrite length_reverse in Hq; cbn in Hq; lia].
    exists p, b. split_and!; try done. cbn in Hq. congruence.
Qed.

Lemma async_step_run model done_now arrived drafts e q F : engine_config -> engine_in F e -> batch_queue e = Some q ->
  model_ok model arrived e -> (use_spec_decode ecfg = true -> is_Some drafts) ->
  exists outs executed F' e', step_with_batch_queue cfg ecfg hasher grammar_ready should_advance validate_tokens model done_now arrived drafts e
      = Ok (outs, executed, e') /\ engine_in F' e' /\ is_Some (batch_queue e').
Proof.
  intros Hc [Hs Hf HF Hq] Eq Hm Hdr. rewrite Eq in Hq. destruct Hq as [Has Hq]. unfold step_with_batch_queue. rewrite Eq. cbn [of_option mbind result_bind].
  pose proof (ec_queue Hc) as Hsize. rewrite Has in Hsize. rewrite Hsize.
  assert (Hlen : zlen q < 2) by (destruct (queue_one F q Hq HF) as [[_ ->]|(? & ? & _ & -> & _)]; unfold zlen; cbn; lia).
  rewrite (proj2 (Z.ltb_lt _ _) Hlen). cbn [py_assert mbind result_bind]. unfold model_ok in Hm. rewrite Eq in Hm. cbn [default] in Hm.
  destruct (has_requests (scheduler e)).
  - destruct (schedule_flight cfg grammar_ready F (scheduler e) (ec_plain Hc) Hs Hf HF) as (o & s1 & Hsch & Hs1 & Hreq & Hf1 & Hpend); [by rewrite Has|].
    unfold new_batch. rewrite Hsch. cbn [mbind result_bind]. set (executed := is_ec_consumer ecfg && _). set (Ed := expects o s1) in *.
    (* the oldest batch of the queue and of the new batch *)
    assert (Hold : forall p b, F = [p] -> q = [b] -> scheduler_output b = p.1 -> forall deferred q1 Fd,
      Fd = [(o, Ed)] -> match deferred with None => queued_flight Fd q1 | Some o1 => q1 = [] /\ exists E1, Fd = [(o1, E1)] end ->
      exists outs F' e', process_batch cfg ecfg hasher should_advance validate_tokens model arrived drafts deferred (q1 ++ [b]) executed
        (set_batch_queue (q1 ++ [b]) (set_scheduler s1 e)) = Ok (outs, executed, e') /\ engine_in F' e' /\ is_Some (batch_queue e')).
    { intros [ob Eb] b -> -> Eb' deferred q1 Fd -> Hd. cbn in Eb'. subst ob.
      apply (process_batch_run model arrived drafts deferred q1 b [(o, Ed)] _ Eb executed); try done. intros fut s2 Ha.
      cbn [scheduler aborts_queue set_scheduler set_batch_queue] in Ha.
      apply (answers_weaken (awaited (scheduler e))); [|eapply Hm; [|exact Ha]; cbn; split_and!; [done|done|right; by exists o]].
      destruct (aborted_flight _ (aborts_queue e ++ arrived) s1 Hs1 Hf1) as (s2' & Ha' & _ & _ & Hsub). rewrite Ha in Ha'. injection Ha' as <-.
      intros id Hid. apply (awaited_last _ (scheduler_output b)); [done|done|]. rewrite <- Hreq. by apply Hsub. }
    assert (Hnew : forall fut, let queue1 := mkBatch fut o :: q in
      exists outs executed' F' e', (if bool_decide (@None SchedulerOutput = None) && executed && (zlen queue1 <? 2) && negb done_now
         then Ok (None, true, set_batch_queue queue1 (set_scheduler s1 e))
         else process_batch cfg ecfg hasher should_advance validate_tokens model arrived drafts None queue1 executed
                (set_batch_queue queue1 (set_scheduler s1 e))) = Ok (outs, executed', e') /\ engine_in F' e' /\ is_Some (batch_queue e')).
    { intros fut queue1. destruct (queue_one F q Hq HF) as [[-> Eq0]|(p & b & HFp & Eq0 & Hb)].
      - destruct (_ && negb done_now).
        + eexists _, _, [(o, Ed)], _. split; [done|]. split; [|done]. split; [done|done|done|]. split; [done|]. unfold queue1. by rewrite Eq0.
        + subst q. destruct (process_batch_run model arrived drafts None [] (mkBatch fut o) [] (set_batch_queue queue1 (set_scheduler s1 e)) Ed executed)
            as (outs & F' & e' & Hp & ?); try done; try (cbn; lia).
          { intros fut' s2 Ha. eapply Hm; [|exact Ha]. done. }
          exists outs, executed, F', e'. by rewrite <- Hp.
      - assert (Hz : (zlen queue1 <? 2) = false) by (unfold queue1; by rewrite Eq0). rewrite Hz, andb_false_r. cbn [andb].
        destruct (Hold p b HFp Eq0 Hb None [mkBatch fut o] [(o, Ed)]) as (outs & F' & e' & Hp & Hend); [done..|].
        exists outs, executed, F', e'. unfold queue1. rewrite Eq0. by split. }
    destruct (is_pooling_model ecfg || negb executed); cbn [mbind result_bind]; [by apply Hnew|].
    destruct (out_pending_structured_output o) eqn:Ep; cbn [negb mbind result_bind]; [|by apply Hnew].
    destruct (queue_one F q Hq HF) as [[-> _]|(p & b & HFp & Eq0 & Hb)]; [by destruct Hpend|].
    destruct (Hold p b HFp Eq0 Hb (Some o) [] [(o, Ed)]) as (outs & F' & e' & Hp & Hend); [done|split; [done|by exists Ed]|].
    rewrite bool_decide_false by done. cbn [andb]. exists outs, executed, F', e'. rewrite Eq0. by split.
  - destruct (queue_one F q Hq HF) as [[-> ->]|([ob Eb] & b & -> & -> & Hb)]; [exists None, false, [], e; split; [done|]; split; [|by exists []]; split; try done; by rewrite Eq|].
    cbn in Hb. subst ob. destruct (process_batch_run model arrived drafts None [] b [] e Eb false) as (outs & F' & e' & Hp & ?); try done; try (cbn; lia).
    + intros fut s2 Ha. apply (answers_weaken (awaited (scheduler e))); [|eapply Hm; [|exact Ha]; cbn; split_and!; [done|done|by left]].
      destruct (aborted_flight _ (aborts_queue e ++ arrived) (scheduler e) Hs Hf) as (s2' & Ha' & _ & _ & Hsub). rewrite Ha in Ha'. injection Ha' as <-.
      intros id Hid. apply (awaited_last _ (scheduler_output b)); [done|done|]. by apply Hsub.
    + by exists outs, false, F', e'.
Qed.

(** ** Runs *)

(** What happens to the engine between two moments when it is idle: calls of
    [_handle_client_request], an abort that the input thread queues, a turn of the loop. *)
Inductive EngineEvent : Type :=
  | EvAdd (r : Request)
  | EvAbort (ids : list string)
  | EvQueueAbort (ids : list string)
  | EvStep (model : Model) (done_now : bool) (arrived : list (list string)) (drafts : option (list (string * list Z)))
  | EvReset (reset_connector : bool)
  | EvPause (mode : PauseMode)
  | EvResume.

Definition apply_event e (ev : EngineEvent) : result (EngineCore KV Q) :=
  match ev with
  | EvAdd r => engine_add_request hasher supported_task r e
  | EvAbort ids => abort_requests ids e
  | EvQueueAbort ids => Ok (mkEngine (scheduler e) (batch_queue e) (aborts_queue e ++ [ids]))
  | EvStep model done_now arrived drafts =>
      '(_, _, e') ← engine_step cfg ecfg hasher grammar_ready should_advance validate_tokens model done_now arrived drafts e; Ok e'
  | EvReset conn => '(_, e') ← engine_reset_prefix_cache false conn e; Ok e'
  | EvPause mode => pause_scheduler mode false e
  | EvResume => Ok (resume_scheduler e)
  end.
Definition engine_run (evs : list EngineEvent) e : result (EngineCore KV Q) := foldM apply_event e evs.

(** What the surroundings of the engine keep to. *)
Definition event_ok e (ev : EngineEvent) : Prop :=
  match ev with
  | EvAdd r => new_request_ok cfg (scheduler e) r /\ num_output_placeholders r = 0 /\
      (forall b, b ∈ default [] (batch_queue e) -> request_id r ∉ out_keys (scheduler_output b)) /\
      (forall p, pooling_params r = Some p -> supported_task p = true)
  | EvStep model _ arrived drafts => model_ok model arrived e /\ (use_spec_decode ecfg = true -> is_Some drafts)
  | EvPause mode => mode <> pause_wait
  | _ => True
  end.
Fixpoint behaves e (evs : list EngineEvent) : Prop :=
  match evs with
  | [] => True
  | ev :: evs' => event_ok e ev /\ forall e', apply_event e ev = Ok e' -> behaves e' evs'
  end.

Lemma engine_in_scheduler F e s : engine_in F e -> sched_ok cfg s -> flying cfg F s -> engine_in F (set_scheduler s e).
Proof. intros [_ _ HF Hq] Hs Hf. by split. Qed.

Lemma engine_init_ok s : engine_config -> sched_ok cfg s -> requests s = [] -> engine_ok (engine_init ecfg s).
Proof.
  intros Hc Hs Hr. exists []. unfold engine_init. rewrite (ec_queue Hc). split; [done| |cbn; lia|cbn; by destruct (async cfg)].
  split; cbn; [by intros p ?%elem_of_nil|intros id; rewrite Hr; by intros ?%elem_of_nil|by intros p id ?%elem_of_nil|done].
Qed.

Lemma engine_step_run model done_now arrived drafts e : engine_config -> engine_ok e -> model_ok model arrived e ->
  (use_spec_decode ecfg = true -> is_Some drafts) ->
  exists outs executed e', engine_step cfg ecfg hasher grammar_ready should_advance validate_tokens model done_now arrived drafts e = Ok (outs, executed, e') /\
    engine_ok e'.
Proof.
  intros Hc [F He] Hm Hdr. unfold engine_step. destruct (batch_queue e) as [q|] eqn:Eq.
  - destruct (async_step_run model done_now arrived drafts e q F Hc He Eq Hm Hdr) as (outs & executed & F' & e' & -> & He' & [q' Eq']).
    cbn [mbind result_bind]. eexists _, _, _. split; [done|]. exists F'. pose proof (ei_queue _ _ He') as Hq. rewrite Eq' in Hq. destruct Hq as [Has _].
    unfold post_step. by rewrite Has.
  - pose proof (ei_queue _ _ He) as Hq. rewrite Eq in Hq. destruct Hq as [Has ->].
    destruct (sync_step_run model arrived e (ec_plain Hc) He Eq Hm) as (outs & executed & e' & -> & He' & Eq').
    cbn [mbind result_bind]. eexists _, _, _. split; [done|]. exists []. unfold post_step. destruct (_ && executed); [|done].
    destruct drafts as [d|]; [|done]. destruct (drafts_flight cfg [] should_advance validate_tokens d (scheduler e')) as [Hs Hf]; [apply He'..|].
    by apply engine_in_scheduler.
Qed.

Lemma apply_event_spec e ev : engine_config -> engine_ok e -> event_ok e ev -> exists e', apply_event e ev = Ok e' /\ engine_ok e'.
Proof.
  intros Hc He Hev. pose proof He as [F HeF]. pose proof HeF as [Hs Hf HF Hq]. destruct ev as [r|ids|ids|model done_now arrived drafts|conn|mode|]; cbn [apply_event event_ok] in *.
  - destruct Hev as (Hn & Hph & Hout & Hp). unfold engine_add_request.
    assert (Ht : (match pooling_params r with Some p => if supported_task p then Ok tt else Err ValueError | None => Ok tt end) = Ok tt).
    { destruct (pooling_params r) as [p|]; [|done]. by rewrite Hp. }
    rewrite Ht. cbn [mbind result_bind].
    destruct (add_flight cfg hasher F (scheduler e) r Hs Hf Hn Hph) as (s' & -> & Hs' & Hf' & _).
    { intros p Hp' Hk. destruct (batch_queue e) as [q|]; [|destruct Hq as [_ ->]; by apply elem_of_nil in Hp'].
      destruct (queue_one F q (proj2 Hq) HF) as [[-> _]|(p' & b & -> & -> & Eb)]; [by apply elem_of_nil in Hp'|]. apply list_elem_of_singleton in Hp' as ->.
      apply (Hout b); [by apply list_elem_of_singleton|]. by rewrite Eb. }
    cbn [mbind result_bind]. eexists. split; [done|]. exists F. by apply engine_in_scheduler.
  - unfold abort_requests. destruct (abort_flight cfg hasher F (remove_dups ids) (scheduler e) Hs Hf) as (out & s' & -> & Hs' & Hf' & _); [apply NoDup_remove_dups|].
    cbn [mbind result_bind]. eexists. split; [done|]. exists F. by apply engine_in_scheduler.
  - eexists. split; [done|]. exists F. by split.
  - destruct Hev as [Hm Hdr]. destruct (engine_step_run model done_now arrived drafts e Hc He Hm Hdr) as (outs & executed & e' & -> & He').
    cbn [mbind result_bind]. by exists e'.
  - unfold engine_reset_prefix_cache. destruct (reset_flight cfg F (scheduler e) conn Hs Hf) as (ok & s' & -> & Hs' & Hf').
    cbn [mbind result_bind]. eexists. split; [done|]. exists F. by apply engine_in_scheduler.
  - unfold pause_scheduler. rewrite bool_decide_false by done.
    assert (Hpause : forall s, sched_ok cfg s -> flying cfg F s -> exists e', Ok (set_scheduler
        (set_pause_state (if bool_decide (mode = pause_keep) then PAUSED_ALL else PAUSED_NEW) s) e) = Ok e' /\ engine_ok e').
    { intros s1 Hs1 Hf1. eexists. split; [done|]. exists F. apply engine_in_scheduler; [done|..]; by apply (pause_flight cfg F). }
    destruct (bool_decide (mode = pause_abort)); cbn [mbind result_bind]; [|by apply Hpause].
    destruct (abort_flight cfg hasher F (requests (scheduler e)) (scheduler e) Hs Hf) as (out & s' & -> & Hs' & Hf' & _); [apply (so_inv _ _ Hs)|].
    cbn [mbind result_bind]. by apply Hpause.
  - eexists. split; [done|]. exists F. apply engine_in_scheduler; [done|..]; by apply (pause_flight cfg F).
Qed.

Lemma engine_run_spec evs : engine_config -> forall e, engine_ok e -> behaves e evs -> exists e', engine_run evs e = Ok e' /\ engine_ok e'.
Proof.
  intros Hc. unfold engine_run. induction evs as [|ev evs IH]; intros e He Hb; [by exists e|]. destruct Hb as [Hev Hb].
  destruct (apply_event_spec e ev Hc He Hev) as (e1 & Ha & He1). cbn [foldM]. rewrite Ha. cbn [mbind result_bind]. apply IH; [done|]. by apply Hb.
Qed.
End Engine.
