(* ===== verification/SchedulerProps.v ===== *)
(** * Properties of the scheduler

    The theorems on [Scheduler.schedule] and the operations around it
    (vllm/v1/core/sched/scheduler.py), over any KV cache manager and any queues that meet
    their contracts, with runs over [KVCacheManager] and both queues as witnesses; and
    places where the code does not do what it means to. *)
From S2P Require Import Prelude FreeQueue Heapq Request RequestQueue EncoderCache StopConditions BlockHash KVCacheSpec BlockPool PoolSafety SingleTypeManager CacheHit Coordinator KVCacheManager KVCacheSafety KVCacheRun KVCacheTheorems KVCacheProps SchedulerState ScheduleStep SchedulerUpdate SchedulerLaws ScheduleSafety ScheduleRunning ScheduleWaiting ScheduleFinish SchedulerKV SchedulerRequests.

(** ** One step *)

(** C1: For text requests, without a LoRA limit and over any KV cache manager and queues
    that meet their contracts, [schedule] always returns: no assertion of it or of the code
    it calls fails, no lookup misses, both of its loops end.  Afterwards every request is
    again in exactly one place (running, waiting or skipped), in a status that fits, with a
    KV cache entry that fits, and no request is lost.  The tokens of the step sum up to the
    reported total and stay in the budget (nothing when paused); every scheduled request is
    running, gets at least one token, stays below the model length, and has slots for all
    its computed tokens; one that was running before advances by just its tokens. *)
Theorem schedule_safe {KV Q : Type} `{KVLaws KV} `{QueueLaws Q} (cfg : SchedConfig) (grammar_ready : Request -> bool)
    (s : Scheduler KV Q) :
  plain_config cfg -> sched_ok cfg s -> all_settled s ->
  exists o s', schedule cfg grammar_ready s = Ok (o, s') /\ sched_ok cfg s' /\ requests s' = requests s /\
    out_finished_req_ids o = finished_req_ids s /\ finished_req_ids s' = ∅ /\
    out_total_num_scheduled_tokens o = foldr Z.add 0 (out_num_scheduled_tokens o).*2 /\
    0 <= out_total_num_scheduled_tokens o <= (if bool_decide (pause_state s = PAUSED_ALL) then 0 else max_num_scheduled_tokens cfg) /\
    NoDup (out_num_scheduled_tokens o).*1 /\
    forall id n, (id, n) ∈ out_num_scheduled_tokens o -> scheduled_ok cfg s s' id n.
Proof.
  intros Hc Hs Hset. destruct (schedule_spec cfg grammar_ready s Hc Hs Hset) as (s1 & t1 & s2 & t2 & o & s' & ? & _ & ? & ? & _ & ? & ? & ? & ? & ? & ?).
  by exists o, s'.
Qed.

(** A full attention group with prefix caching over 14 usable blocks of two tokens. *)
Definition one_group : KVCacheConfig := mkKVConfig 15 [] [mkGroup ["a"] (LayerSpec demo_full)].
Definition unit_kvm : KVCacheManager := kvm_or (kvm_init one_group 100 2 true false true false 1 1).
Definition demo_sched_cfg (batched len : Z) (is_async : bool) : SchedConfig :=
  mkSC 4 batched len 0 true false 0 0 false 0 None false 2 false false false false 1 is_async.

Lemma unit_kvm_init : kvm_init one_group 100 2 true false true false 1 1 = Ok unit_kvm.
Proof. apply kvm_or_ok. by vm_compute. Qed.
Lemma one_group_ok : config_ok one_group true 2 1 1.
Proof.
  split; [|by vm_compute]. intros g Hg. apply list_elem_of_singleton in Hg as ->. eexists. split; [done|]. by vm_compute.
Qed.
Definition demo_hasher : option block_hasher := Some (request_block_hasher enc_hash enc_none 2).
Lemma unit_kvm_good : good enc_hash enc_none demo_hasher unit_kvm.
Proof.
  split; [split; [|by vm_compute]|].
  - unfold plain_kind. assert (E : co_kind (coordinator unit_kvm) = Unitary demo_full 2 1 1) by (by vm_compute). rewrite E.
    assert (Hm : exists m, managers unit_kvm = [m] /\ st_class m = FullAttentionManager /\ st_block_size m = 2) by (eexists; by vm_compute).
    destruct Hm as (m & ? & ? & ?). exists m. split_and!; done.
  - destruct (kvm_init_inv _ _ _ _ _ _ _ _ _ _ one_group_ok unit_kvm_init) as (l & Hl & _). by exists l.
Qed.
Lemma unit_kvm_fresh id : fresh unit_kvm id.
Proof.
  assert (Hm : exists m, managers unit_kvm = [m] /\ req_to_blocks m = ∅ /\ num_cached_block m = ∅) by (eexists; by vm_compute).
  destruct Hm as (m & Hm & Hr & Hc). unfold fresh. rewrite Hm. constructor; [|constructor]. unfold fresh_in, rb_get. by rewrite Hr, Hc.
Qed.

#[local] Instance unit_ops : KVOps KVCacheManager := kvm_ops false.
#[local] Instance unit_laws : KVLaws KVCacheManager := kvm_laws enc_hash enc_none demo_hasher false enc_hash_inj enc_hash_digest.
Definition any_grammar : Request -> bool := fun _ => true.

(** The request that [Request.__init__] builds. *)
Definition request_or (x : result Request) : Request := match x with Ok r => r | Err _ => no_request end.
Definition gen_params (n : Z) : option SamplingParams := Some (mkSampling (Some n) 0 None None None None false).
Definition gen_request (id : string) (oid prio : Z) (toks : list Z) (n : Z) : Request :=
  request_or (new_request demo_hasher id oid 0 prio 5 None (Some toks) (gen_params n) None None [] None None false).

Section Demo.
Context {Q : Type} `{QueueLaws Q}.
Definition sched_or (d : Scheduler KVCacheManager Q) (x : result (Scheduler KVCacheManager Q)) : Scheduler KVCacheManager Q :=
  match x with Ok s => s | Err _ => d end.
Definition demo_s0 : Scheduler KVCacheManager Q := sched_init false unit_kvm (EncMM (ecm_init 0)).
Definition demo_s1 (p : Request) : Scheduler KVCacheManager Q := sched_or demo_s0 (sched_add_request demo_hasher p demo_s0).
Definition demo_s2 (p q : Request) : Scheduler KVCacheManager Q := sched_or (demo_s1 p) (sched_add_request demo_hasher q (demo_s1 p)).

Lemma demo_s0_ok cfg : max_model_len cfg = 100 -> 0 <= max_num_running_reqs cfg -> sched_ok cfg demo_s0.
Proof.
  intros Hl Hr. apply (sched_init_ok cfg); [apply unit_kvm_good|rewrite Hl; by vm_compute|apply unit_kvm_fresh|done].
Qed.

(** A request that may come first, and another. *)
Record demo_request_ok cfg (r : Request) : Prop := {
  dr_status : status r = WAITING;
  dr_computed : num_computed_tokens r = 0;
  dr_text : mm_features r = [];
  dr_single : resumable r = false;
  dr_len : 1 <= num_tokens r < max_model_len cfg;
  dr_placeholders : num_output_placeholders r = 0;
  dr_keep : discard_latest_async_tokens r = false;
  dr_generates : generates cfg r;
  dr_hashes : hashes_ok enc_hash enc_none r 2;
}.

Lemma demo_live cfg r : demo_request_ok cfg r -> live cfg unit_kvm (request_id r) r.
Proof.
  intros [? ? ? ? ? Hp ? ? ?]. split; [done|done|done| |done|by rewrite Hp|done|done]. intros _.
  assert (E : hash_block_size (km_pool unit_kvm) = 2) by (by vm_compute). rewrite E. by split.
Qed.

Lemma demo_s2_ok cfg p q : max_model_len cfg = 100 -> 0 <= max_num_running_reqs cfg ->
  demo_request_ok cfg p -> demo_request_ok cfg q -> request_id p <> request_id q -> obj_id p <> obj_id q ->
  sched_ok cfg (demo_s2 p q) /\ all_settled (demo_s2 p q).
Proof.
  intros Hl Hr Hp Hq Hid Hoid. pose proof (demo_s0_ok cfg Hl Hr) as Hs0.
  assert (N0 : new_request_ok cfg demo_s0 p).
  { split; [by intros ?%elem_of_nil|by intros x rx ?%elem_of_nil|rewrite (dr_status _ _ Hp); constructor|apply Hp|by apply demo_live]. }
  destruct (add_request_spec cfg demo_hasher demo_s0 p Hs0 N0) as (s1 & E1 & Hs1 & R1 & U1 & _ & K1 & O1 & _).
  assert (N1 : new_request_ok cfg s1 q).
  { split.
    - rewrite R1. intros ?%list_elem_of_singleton. congruence.
    - intros x rx. rewrite R1. intros ->%list_elem_of_singleton. rewrite O1. by intros [= <-].
    - rewrite (dr_status _ _ Hq). constructor.
    - apply Hq.
    - rewrite K1. by apply demo_live. }
  destruct (add_request_spec cfg demo_hasher s1 q Hs1 N1) as (s2 & E2 & Hs2 & R2 & U2 & _).
  assert (Es : demo_s2 p q = s2) by (unfold demo_s2, demo_s1; rewrite E1; cbn [sched_or]; by rewrite E2).
  rewrite Es. split; [done|]. intros id. rewrite U2, U1. by intros ?%elem_of_nil.
Qed.
End Demo.

Definition demo_p : Request := gen_request "p" 1 1 [1; 2; 3; 4; 5] 3.
Definition demo_q : Request := gen_request "q" 2 0 [1; 2; 3; 4; 6; 7; 8] 3.
Definition demo_cfg8 : SchedConfig := demo_sched_cfg 8 100 false.

Lemma demo_ok r : r = demo_p \/ r = demo_q -> demo_request_ok demo_cfg8 r.
Proof.
  intros [-> | ->]; (split; try (by vm_compute); try (by eexists; vm_compute)); (split; [by vm_compute|intros ? ? ? Hd; by vm_compute in Hd]).
Qed.

(** Both policies: FCFS serves [p] first, the priority queue [q]. *)
Lemma schedule_safe_witness :
  (exists o s', schedule demo_cfg8 any_grammar (demo_s2 (Q := FCFSQueue string) demo_p demo_q) = Ok (o, s') /\
     out_num_scheduled_tokens o = [("p", 5); ("q", 3)] /\ sched_ok demo_cfg8 s') /\
  (exists o s', schedule demo_cfg8 any_grammar (demo_s2 (Q := PriorityQueue string) demo_p demo_q) = Ok (o, s') /\
     out_num_scheduled_tokens o = [("q", 7); ("p", 1)] /\ sched_ok demo_cfg8 s').
Proof.
  assert (Hc : plain_config demo_cfg8) by (split; by vm_compute).
  split.
  - destruct (demo_s2_ok (Q := FCFSQueue string) demo_cfg8 demo_p demo_q eq_refl ltac:(by vm_compute) (demo_ok _ (or_introl eq_refl))
      (demo_ok _ (or_intror eq_refl)) ltac:(by vm_compute) ltac:(by vm_compute)) as [Hs Hset].
    destruct (schedule_safe demo_cfg8 any_grammar _ Hc Hs Hset) as (o & s' & E & Hok & _). exists o, s'. split; [exact E|]. split; [|exact Hok].
    assert (Eo : match schedule demo_cfg8 any_grammar (demo_s2 (Q := FCFSQueue string) demo_p demo_q) with
      Ok (o, _) => out_num_scheduled_tokens o | Err _ => [] end = [("p", 5); ("q", 3)]) by (vm_compute; reflexivity).
    by rewrite E in Eo.
  - destruct (demo_s2_ok (Q := PriorityQueue string) demo_cfg8 demo_p demo_q eq_refl ltac:(by vm_compute) (demo_ok _ (or_introl eq_refl))
      (demo_ok _ (or_intror eq_refl)) ltac:(by vm_compute) ltac:(by vm_compute)) as [Hs Hset].
    destruct (schedule_safe demo_cfg8 any_grammar _ Hc Hs Hset) as (o & s' & E & Hok & _). exists o, s'. split; [exact E|]. split; [|exact Hok].
    assert (Eo : match schedule demo_cfg8 any_grammar (demo_s2 (Q := PriorityQueue string) demo_p demo_q) with
      Ok (o, _) => out_num_scheduled_tokens o | Err _ => [] end = [("q", 7); ("p", 1)]) by (vm_compute; reflexivity).
    by rewrite E in Eo.
Defined.
