(* ===== verification/EngineProps.v ===== *)
(** * Properties of the engine core

    The theorem on runs of [EngineCore] (vllm/v1/engine/core.py), with a synchronous and an
    asynchronous run over [KVCacheManager] as witnesses. *)
From S2P Require Import Prelude FreeQueue Heapq Request RequestQueue EncoderCache StopConditions BlockHash KVCacheSpec BlockPool PoolSafety SingleTypeManager CacheHit Coordinator KVCacheManager KVCacheSafety KVCacheRun KVCacheTheorems KVCacheProps SchedulerState ScheduleStep SchedulerUpdate EngineCore SchedulerLaws ScheduleSafety ScheduleRunning ScheduleWaiting ScheduleFinish SchedulerKV SchedulerRequests SchedulerOutputs EngineRun SchedulerProps.

(** C2: For text requests, over any KV cache manager and queues that meet their contracts,
    every run of a new engine returns: requests come and are aborted, the model is stepped
    (one batch at a time, or with a second one in flight under asynchronous scheduling),
    drafts are taken, the cache is reset and the engine is paused, in any order.  No
    assertion fails and no lookup misses, as long as ids in use or in flight are not used
    again and the model returns for each batch the tokens its requests wait for.  At the
    end every request is in exactly one place, has as many output placeholders as tokens
    are on their way to it, and a running one is computed up to the last of them. *)
Theorem engine_run_safe {KV Q : Type} `{KVLaws KV} `{QueueLaws Q} (cfg : SchedConfig) (ecfg : EngineConfig)
    (hasher : option block_hasher) `{!HashLaws KV hasher} (grammar_ready should_advance : Request -> bool)
    (validate_tokens : Request -> list Z -> list Z) (supported_task : PoolingParams -> bool) include_finished (kv : KV) enc evs :
  engine_config cfg ecfg validate_tokens ->
  kv_ok kv -> kv_max kv = max_model_len cfg -> (forall id, kv_fresh kv id) -> 0 <= max_num_running_reqs cfg ->
  let e := engine_init ecfg (sched_init (Q := Q) include_finished kv enc) in
  behaves cfg ecfg hasher grammar_ready should_advance validate_tokens supported_task e evs ->
  exists e', engine_run cfg ecfg hasher grammar_ready should_advance validate_tokens supported_task evs e = Ok e' /\ engine_ok cfg e'.
Proof.
  intros Hc Hok Hmax Hfresh Hrun e Hb. apply engine_run_spec; try done. apply (engine_init_ok cfg ecfg validate_tokens); try done.
  by apply sched_init_ok.
Qed.

(** ** Runs that can be checked *)

Definition answer_b (mro : ModelRunnerOutput) (id : string) (e : Z) (r : Request) : bool :=
  match req_id_to_index mro !! id with
  | Some idx =>
      match (match sampled_token_ids mro with [] => Ok [] | _ => py_index (sampled_token_ids mro) idx end),
            (match pooler_output mro with [] => Ok None | _ => py_index (pooler_output mro) idx end) with
      | Ok gen, Ok pooled =>
          match pooling_params r with
          | None => if e =? 0 then bool_decide (gen = []) else (1 <=? zlen gen) && (zlen gen <=? e)
          | Some _ => bool_decide (gen = []) && bool_decide (is_Some pooled)
          end
      | _, _ => false
      end
  | None => false
  end.
Lemma answer_b_ok mro id e r : answer_b mro id e r = true -> exists gen pooled, answer mro id e r gen pooled.
Proof.
  unfold answer_b, answer. destruct (req_id_to_index mro !! id) as [idx|]; [|done].
  destruct (match sampled_token_ids mro with [] => _ | _ => _ end) as [gen|] eqn:Eg; [|done].
  destruct (match pooler_output mro with [] => _ | _ => _ end) as [pooled|] eqn:Ep; [|done]. intros Hb. exists gen, pooled.
  split; [by exists idx|]. destruct (pooling_params r).
  - apply andb_true_iff in Hb as [Hg Hp]. apply bool_decide_eq_true in Hg, Hp. auto.
  - destruct (e =? 0); [by apply bool_decide_eq_true in Hb|]. apply andb_true_iff in Hb as [?%Z.leb_le ?%Z.leb_le]. done.
Qed.

#[local] Existing Instance unit_ops.
#[local] Existing Instance unit_laws.
#[local] Instance unit_hash_laws : HashLaws KVCacheManager demo_hasher :=
  kvm_hash_laws enc_hash enc_none demo_hasher false enc_hash_inj enc_hash_digest.

Section Check.
Context {Q : Type} `{QueueLaws Q}.
Context (cfg : SchedConfig) (ecfg : EngineConfig).
Implicit Types (e : EngineCore KVCacheManager Q) (s : Scheduler KVCacheManager Q) (r : Request).
Definition no_validation : Request -> list Z -> list Z := fun _ l => l.
Definition no_advance : Request -> bool := fun _ => false.
Definition any_task : PoolingParams -> bool := fun _ => true.

Definition answers_b (E : string -> Z) (o : SchedulerOutput) (mro : ModelRunnerOutput) s : bool :=
  forallb (fun id => match get_request id s with Some r => answer_b mro id (E id) r | None => true end) (out_keys o).
Lemma answers_b_ok E o mro s : answers_b E o mro s = true -> answers E o mro s.
Proof.
  intros Hb id Hk Hid r Hr. unfold answers_b in Hb. rewrite forallb_forall in Hb. specialize (Hb id ltac:(by apply list_elem_of_In)).
  unfold get_request in Hb. rewrite decide_True, Hr in Hb by done. by apply answer_b_ok.
Qed.

(** A model that does not look at the future, checked at the states it may be asked in. *)
Definition after_abort lists (g : SchedulerOutput -> ModelRunnerOutput) E o s : bool :=
  match aborted lists s with Ok s2 => answers_b E o (g o) s2 | Err _ => true end.
Definition model_b (g : SchedulerOutput -> ModelRunnerOutput) arrived e : bool :=
  let lists := aborts_queue e ++ arrived in
  match last (default [] (batch_queue e)), schedule cfg any_grammar (scheduler e) with
  | Some b, sch =>
      let check := after_abort lists g (awaited (scheduler e)) (scheduler_output b) in
      check (scheduler e) && match sch with Ok (_, s1) => check s1 | Err _ => true end
  | None, Ok (o, s1) => after_abort lists g (expects o s1) o s1
  | None, Err _ => true
  end.
Lemma model_b_ok g arrived e : model_b g arrived e = true -> model_ok cfg any_grammar (fun _ => g) arrived e.
Proof.
  unfold model_b, after_abort. intros Hb E o fut s1 s2 Hs Ha. destruct (last _) as [b|].
  - apply andb_true_iff in Hb as [B1 B2]. destruct Hs as (-> & -> & [-> |[o1 Hsch]]).
    + rewrite Ha in B1. by apply answers_b_ok.
    + rewrite Hsch, Ha in B2. by apply answers_b_ok.
  - destruct Hs as [Hsch ->]. rewrite Hsch, Ha in Hb. by apply answers_b_ok.
Qed.

(** A new request: all but its hashes can be checked. *)
Definition new_request_b e r : bool :=
  let s := scheduler e in
  negb (bool_decide (request_id r ∈ requests s)) &&
  forallb (fun x => match objects s !! x with Some rx => negb (obj_id rx =? obj_id r) | None => true end) (requests s) &&
  (hash_block_size (km_pool (kv_cache_manager s)) =? 2) &&
  forallb (fun b => negb (bool_decide (request_id r ∈ out_keys (scheduler_output b)))) (default [] (batch_queue e)).
Lemma new_request_b_ok e r : demo_request_ok cfg r -> new_request_b e r = true ->
  new_request_ok cfg (scheduler e) r /\ forall b, b ∈ default [] (batch_queue e) -> request_id r ∉ out_keys (scheduler_output b).
Proof.
  intros [? ? ? ? ? Hph ? ? ?] ((( B1 & B2)%andb_true_iff & B3%Z.eqb_eq)%andb_true_iff & B4)%andb_true_iff. rewrite forallb_forall in B2, B4. split; [split|].
  - apply negb_true_iff, bool_decide_eq_false in B1. done.
  - intros x rx Hx Hr. specialize (B2 x ltac:(by apply list_elem_of_In)). rewrite Hr in B2. by apply negb_true_iff, Z.eqb_neq in B2.
  - rewrite dr_status. constructor.
  - done.
  - split; try done; [|by rewrite Hph]. intros _. by rewrite B3.
  - intros b Hb. specialize (B4 b ltac:(by apply list_elem_of_In)). by apply negb_true_iff, bool_decide_eq_false in B4.
Qed.
End Check.

Section Runs.
Context {Q : Type} `{QueueLaws Q}.
Context (cfg : SchedConfig) (ecfg : EngineConfig).
Implicit Types (e : EngineCore KVCacheManager Q).

(** The events that are checked, and what is left to prove of them. *)
Definition event_b e (ev : EngineEvent) : bool :=
  match ev with
  | EvAdd r => new_request_b e r
  | EvStep model _ arrived _ => model_b cfg (model ExecFuture) arrived e && negb (use_spec_decode ecfg)
  | EvPause mode => negb (bool_decide (mode = pause_wait))
  | _ => true
  end.
Definition demo_event (ev : EngineEvent) : Prop :=
  match ev with
  | EvAdd r => demo_request_ok cfg r
  | EvStep model _ _ _ => model = fun _ => model ExecFuture
  | _ => True
  end.
Definition demo_run : list EngineEvent -> EngineCore KVCacheManager Q -> result (EngineCore KVCacheManager Q) :=
  engine_run cfg ecfg demo_hasher any_grammar no_advance no_validation any_task.
Fixpoint behaves_b e (evs : list EngineEvent) : bool :=
  match evs with
  | [] => true
  | ev :: evs' => event_b e ev &&
      match apply_event cfg ecfg demo_hasher any_grammar no_advance no_validation any_task e ev with Ok e' => behaves_b e' evs' | Err _ => true end
  end.

Lemma event_b_ok e ev : demo_event ev -> event_b e ev = true -> event_ok cfg ecfg any_grammar any_task e ev.
Proof.
  destruct ev as [r|ids|ids|model done_now arrived drafts|conn|mode|]; cbn; try done.
  - intros Hr Hb. destruct (new_request_b_ok cfg e r Hr Hb) as [Hn Hout]. split_and!; try done. apply Hr.
  - intros -> [Hb Hs]%andb_true_iff. split; [by apply model_b_ok|]. by destruct (use_spec_decode ecfg).
  - intros _ Hb%negb_true_iff%bool_decide_eq_false. done.
Qed.
Lemma behaves_b_ok evs : Forall demo_event evs -> forall e, behaves_b e evs = true ->
  behaves cfg ecfg demo_hasher any_grammar no_advance no_validation any_task e evs.
Proof.
  induction 1 as [|ev evs Hev _ IH]; intros e; [done|]. intros [He Hr]%andb_true_iff. split; [by apply event_b_ok|].
  intros e' Ha. rewrite Ha in Hr. by apply IH.
Qed.
End Runs.

(** ** Two runs *)

(** The sampled tokens of a batch, request by request. *)
Definition sampled (l : list (string * list Z)) : Model := fun _ _ =>
  mkMRO (list_to_map (zip l.*1 (Z.of_nat <$> seq 0 (length l)))) l.*2 [].
Definition run_step (l : list (string * list Z)) : EngineEvent := EvStep (sampled l) false [] None.
Definition sync_ecfg : EngineConfig := mkEC 1 true false false.
Definition async_ecfg : EngineConfig := mkEC 2 true false false.
Definition async_cfg8 : SchedConfig := demo_sched_cfg 8 100 true.
Definition new_engine (Q : Type) `{QueueImpl Q} (ecfg : EngineConfig) : EngineCore KVCacheManager Q :=
  engine_init ecfg (sched_init false unit_kvm (EncMM (ecm_init 0))).

Definition sync_events : list EngineEvent :=
  [EvAdd demo_p; EvAdd demo_q; run_step [("p", [21]); ("q", [31])]; EvReset false; run_step [("p", [22]); ("q", [32])];
   EvQueueAbort ["q"]; EvPause pause_keep; EvResume; run_step [("p", [23])]; run_step []].
Definition async_events : list EngineEvent :=
  [EvAdd demo_p; EvAdd demo_q; run_step [("p", [21]); ("q", [31])]; run_step [("p", [21]); ("q", [31])];
   EvQueueAbort ["q"]; run_step [("p", [22])]; run_step [("p", [23])]].

Lemma demo_async_ok r : r = demo_p \/ r = demo_q -> demo_request_ok async_cfg8 r.
Proof. intros Hr. by destruct (demo_ok r Hr). Qed.

Lemma sync_config : engine_config demo_cfg8 sync_ecfg no_validation.
Proof. split; [split; by vm_compute|by vm_compute|done]. Qed.
Lemma async_config : engine_config async_cfg8 async_ecfg no_validation.
Proof. split; [split; by vm_compute|by vm_compute|done]. Qed.

Lemma demo_events cfg evs : (forall r, r = demo_p \/ r = demo_q -> demo_request_ok cfg r) -> evs = sync_events \/ evs = async_events ->
  Forall (demo_event cfg) evs.
Proof.
  intros Hr [-> | ->]; unfold sync_events, async_events; repeat apply Forall_cons_2; try apply Forall_nil_2;
    lazymatch goal with
    | |- demo_event _ (EvAdd _) => apply Hr; auto
    | |- demo_event _ (run_step _) => reflexivity
    | |- _ => exact I
    end.
Qed.

Definition finished_tokens (e : EngineCore KVCacheManager (FCFSQueue string)) (id : string) : option (RequestStatus * list Z) :=
  r ← objects (scheduler e) !! id; Some (status r, output_token_ids r).

Definition run_view (id : string) (x : result (EngineCore KVCacheManager (FCFSQueue string))) : list string * option (RequestStatus * list Z) :=
  match x with Ok e => (requests (scheduler e), finished_tokens e id) | Err _ => ([], None) end.
Lemma sync_view : run_view "p" (demo_run demo_cfg8 sync_ecfg sync_events (new_engine _ sync_ecfg)) = ([], Some (FINISHED_LENGTH_CAPPED, [21; 22; 23])).
Proof. by vm_compute. Qed.
Lemma async_view : run_view "p" (demo_run async_cfg8 async_ecfg async_events (new_engine _ async_ecfg)) = ([], Some (FINISHED_LENGTH_CAPPED, [21; 22; 23])).
Proof. by vm_compute. Qed.

(** A synchronous run and an asynchronous one: [p] gets its three tokens, [q] is aborted. *)
Lemma engine_run_safe_witness :
  (exists e', demo_run demo_cfg8 sync_ecfg sync_events (new_engine (FCFSQueue string) sync_ecfg) = Ok e' /\ engine_ok demo_cfg8 e' /\
     requests (scheduler e') = [] /\ finished_tokens e' "p" = Some (FINISHED_LENGTH_CAPPED, [21; 22; 23])) /\
  (exists e', demo_run async_cfg8 async_ecfg async_events (new_engine (FCFSQueue string) async_ecfg) = Ok e' /\ engine_ok async_cfg8 e' /\
     requests (scheduler e') = [] /\ finished_tokens e' "p" = Some (FINISHED_LENGTH_CAPPED, [21; 22; 23])).
Proof.
  split.
  - destruct (engine_run_safe (Q := FCFSQueue string) demo_cfg8 sync_ecfg demo_hasher any_grammar no_advance no_validation any_task
      false unit_kvm (EncMM (ecm_init 0)) sync_events sync_config) as (e' & E & Hok);
      [apply unit_kvm_good|by vm_compute|apply unit_kvm_fresh|by vm_compute| |].
    { apply behaves_b_ok; [|by vm_compute]. apply demo_events; [apply demo_ok|by left]. }
    exists e'. split; [exact E|]. split; [exact Hok|].
    pose proof (eq_trans (eq_sym (f_equal (run_view "p") E)) sync_view) as Hv.
    injection Hv as Hr Ht. exact (conj Hr Ht).
  - destruct (engine_run_safe (Q := FCFSQueue string) async_cfg8 async_ecfg demo_hasher any_grammar no_advance no_validation any_task
      false unit_kvm (EncMM (ecm_init 0)) async_events async_config) as (e' & E & Hok);
      [apply unit_kvm_good|by vm_compute|apply unit_kvm_fresh|by vm_compute| |].
    { apply behaves_b_ok; [|by vm_compute]. apply demo_events; [apply demo_async_ok|by right]. }
    exists e'. split; [exact E|]. split; [exact Hok|].
    pose proof (eq_trans (eq_sym (f_equal (run_view "p") E)) async_view) as Hv.
    injection Hv as Hr Ht. exact (conj Hr Ht).
Defined.

(** ** Pipeline parallelism *)

(** Three batches in flight, as with a pipeline of three stages; no prefix caching. *)
Definition pp_ecfg : EngineConfig := mkEC 3 true false false.
Definition pp_cfg : SchedConfig := mkSC 4 24 100 12 true false 0 0 false 0 None false 2 false true false false 1 false.
Definition pp_kvm : KVCacheManager := kvm_or (kvm_init one_group 100 2 false false true false 1 1).
Definition pp_request (id : string) (oid : Z) (toks : list Z) : Request :=
  request_or (new_request None id oid 0 0 5 None (Some toks) (gen_params 3) None None [] None None false).
Definition pp_engine : EngineCore KVCacheManager (FCFSQueue string) := engine_init pp_ecfg (sched_init false pp_kvm (EncMM (ecm_init 0))).
Definition pp_run (evs : list EngineEvent) : result (EngineCore KVCacheManager (FCFSQueue string)) :=
  engine_run pp_cfg pp_ecfg None any_grammar no_advance no_validation any_task evs pp_engine.

(** [b] takes the blocks of [a] while the first batch of [a] is in flight, and is aborted.
    The model returns 51 after the prompt of [a] and 52 after 51. *)
Definition pp_events : list EngineEvent :=
  [EvAdd (pp_request "b" 2 (Z.of_nat <$> seq 11 26)); EvAdd (pp_request "a" 1 (Z.of_nat <$> seq 1 10));
   run_step []; run_step []; EvAbort ["b"]; run_step [("b", []); ("a", [51])]; run_step []; run_step [("a", [51])]; run_step [("a", [52])]].

(** C36: With three batches in flight (pipeline parallelism over three stages, the synchronous
    scheduler), a request that is preempted while a batch of it is in flight and resumed
    before that batch returns gets the token of the old batch and then the same token again
    from the recomputed prefill: its output is 51, 51, 52, although the model returns 51
    after the prompt and 52 after 51. *)
Theorem preempted_token_sampled_twice :
  exists e', pp_run pp_events = Ok e' /\ finished_tokens e' "a" = Some (FINISHED_LENGTH_CAPPED, [51; 51; 52]).
Proof.
  assert (Hv : run_view "a" (pp_run pp_events) = ([], Some (FINISHED_LENGTH_CAPPED, [51; 51; 52]))) by (vm_compute; reflexivity).
  destruct (pp_run pp_events) as [e'|]; [|done]. exists e'. split; [done|]. by injection Hv.
Qed.
