(* ===== verification/SchedulerFindings.v ===== *)
(** * Where the scheduler departs from its intent

    Runs of vllm/v1/core/sched/scheduler.py over [KVCacheManager] that end badly: a prompt
    that is never finished, an assertion that fails, a stale block hash that gives another
    request the wrong KV cache, a token that is lost. *)
From S2P Require Import Prelude FreeQueue Request RequestQueue EncoderCache StopConditions BlockHash KVCacheSpec BlockPool SingleTypeManager CacheHit Coordinator KVCacheManager SchedulerState ScheduleStep SchedulerUpdate KVCacheProps SchedulerProps.

#[local] Instance run_ops : KVOps KVCacheManager := kvm_ops false.
Definition FScheduler : Type := Scheduler KVCacheManager (FCFSQueue string).

(** ** Runs

    What the engine core does with its scheduler: steps are scheduled, their outputs come
    back in the order of the steps, requests arrive, the prefix cache is reset. *)

Inductive Event : Type :=
  | Step_scheduled
  | Output_arrives (mro : ModelRunnerOutput)
  | Request_arrives (r : Request)
  | Cache_reset (reset_running : bool).

(** The scheduler, the steps in flight, and the tokens each step scheduled. *)
Record Run : Type := mkRun {
  rn_sched : FScheduler;
  rn_flight : list SchedulerOutput;
  rn_scheduled : list (list (string * Z));
}.

Definition run_event (cfg : SchedConfig) (h : option block_hasher) (e : Event) (x : Run) : result Run :=
  match e with
  | Step_scheduled =>
      '(o, s) ← schedule cfg any_grammar (rn_sched x);
      Ok (mkRun s (rn_flight x ++ [o]) (rn_scheduled x ++ [out_num_scheduled_tokens o]))
  | Output_arrives mro =>
      match rn_flight x with
      | [] => Err IndexError
      | o :: l => '(_, _, s) ← update_from_output cfg h o mro (rn_sched x); Ok (mkRun s l (rn_scheduled x))
      end
  | Request_arrives r => s ← sched_add_request h r (rn_sched x); Ok (mkRun s (rn_flight x) (rn_scheduled x))
  | Cache_reset reset_running =>
      '(_, s) ← sched_reset_prefix_cache reset_running false (rn_sched x); Ok (mkRun s (rn_flight x) (rn_scheduled x))
  end.
Definition run_events (cfg : SchedConfig) (h : option block_hasher) (es : list Event) (x : Run) : result Run :=
  foldM (fun x e => run_event cfg h e x) x es.

Definition run_start (kvm : KVCacheManager) : Run := mkRun (sched_init false kvm (EncMM (ecm_init 0))) [] [].
Definition run_or (kvm : KVCacheManager) (x : result Run) : Run := match x with Ok y => y | Err _ => run_start kvm end.
Definition object_of {A} (f : Request -> A) (id : string) (x : Run) : option A := f <$> objects (rn_sched x) !! id.
Definition sampled (l : list (string * list Z)) : ModelRunnerOutput :=
  mkMRO (list_to_map (imap (fun i p => (p.1, Z.of_nat i)) l)) l.*2 [].

Lemma run_ok kvm (x : result Run) : is_ok x = true -> x = Ok (run_or kvm x).
Proof. by destruct x. Qed.

(** ** A pooling prompt that is never finished *)

Definition pool_kvm : KVCacheManager := kvm_or (kvm_init one_group 8 2 false false true false 1 1).
Definition pool_request : Request :=
  request_or (new_request None "p" 1 0 0 5 None (Some [1; 2; 3; 4; 5; 6; 7; 8]) None (Some (mkPooling None)) None [] None None false).
Definition pool_cfg : SchedConfig := demo_sched_cfg 5 8 false.
Definition pool_three : Run :=
  run_or pool_kvm (run_events pool_cfg None [Request_arrives pool_request; Step_scheduled; Step_scheduled; Step_scheduled] (run_start pool_kvm)).

(** The state in which it is stuck, with any KV cache manager. *)
Section Idle.
Context {KV : Type} `{KVOps KV}.
Definition pool_object : Request := default no_request (objects (rn_sched pool_three) !! "p").
Definition pool_state (kv : KV) : Scheduler KV (FCFSQueue string) :=
  mkSched (<["p" := pool_object]> ∅) ∅ ["p"] (FCFS []) (FCFS []) ["p"] ∅ None ∅ 0 kv (EncMM (ecm_init 0)) UNPAUSED.

Lemma pool_running kv :
  running_loop pool_cfg 1 0 (pool_state kv) (first_step pool_cfg (pool_state kv)) = Ok (pool_state kv, first_step pool_cfg (pool_state kv)).
Proof. by vm_compute. Qed.
Lemma pool_waiting kv t : preempted_reqs t = [] -> schedule_waiting pool_cfg any_grammar (pool_state kv) t = Ok (pool_state kv, t).
Proof. intros E. unfold schedule_waiting, running_loras. cbn -[pool_object]. by rewrite E. Qed.
Lemma pool_finish kv : exists o kv',
  finish_schedule pool_cfg (pool_state kv) (first_step pool_cfg (pool_state kv)) = Ok (o, pool_state kv') /\ out_num_scheduled_tokens o = [].
Proof.
  unfold finish_schedule. cbn -[pool_object kv_common_prefix]. destruct (kv_common_prefix "p" kv) as [prefix kv1]. by eexists _, _.
Qed.
Lemma pool_idle kv : exists o kv', schedule pool_cfg any_grammar (pool_state kv) = Ok (o, pool_state kv') /\ out_num_scheduled_tokens o = [].
Proof.
  destruct (pool_finish (kv_new_step kv)) as (o & kv' & E & Eo). exists o, kv'. split; [|done]. unfold schedule.
  change (set_kv_cache_manager _ (pool_state kv)) with (pool_state (kv_new_step kv)).
  change (length (running (pool_state (kv_new_step kv)))) with 1%nat. rewrite pool_running. cbn [mbind result_bind].
  by rewrite pool_waiting.
Qed.
End Idle.

Lemma pool_three_state : rn_sched pool_three = pool_state (kv_cache_manager (rn_sched pool_three)).
Proof.
  assert (E : forall s : FScheduler, objects s = <["p" := pool_object]> ∅ -> streaming_queues s = ∅ -> requests s = ["p"] ->
    waiting s = FCFS [] -> skipped_waiting s = FCFS [] -> running s = ["p"] -> finished_req_ids s = ∅ -> finished_req_ids_dict s = None ->
    prev_step_scheduled_req_ids s = ∅ -> num_waiting_for_streaming_input s = 0 -> encoder_cache_manager s = EncMM (ecm_init 0) ->
    pause_state s = UNPAUSED -> s = pool_state (kv_cache_manager s)).
  { intros []; cbn. by intros -> -> -> -> -> -> -> -> -> -> -> ->. }
  apply E; by vm_compute.
Qed.

Lemma pool_idle_run n x : (exists kv, rn_sched x = pool_state kv) ->
  exists y, run_events pool_cfg None (replicate n Step_scheduled) x = Ok y /\ rn_scheduled y = rn_scheduled x ++ replicate n [] /\
    (exists kv, rn_sched y = pool_state kv).
Proof.
  revert x. induction n as [|n IH]; intros x [kv Ex]; [exists x; rewrite app_nil_r; split_and!; [done..|by exists kv]|].
  destruct (pool_idle kv) as (o & kv' & E & Eo). cbn [replicate]. unfold run_events in *. cbn [foldM run_event]. rewrite Ex, E.
  cbn [mbind result_bind].
  destruct (IH (mkRun (pool_state kv') (rn_flight x ++ [o]) (rn_scheduled x ++ [out_num_scheduled_tokens o])) ltac:(by exists kv'))
    as (y & Ey & El & Hy).
  exists y. split_and!; [exact Ey| |done]. rewrite El. cbn. rewrite Eo. by rewrite <-app_assoc.
Qed.

(** C40: With chunked prefill a pooling request whose prompt is as long as the model length
    never finishes: [schedule] caps the tokens of a running request so that the position
    of the model length minus one is not computed, which the comment motivates by
    speculative decoding.  After two steps seven of eight tokens are computed, and no later
    step, however many, schedules the last one. *)
Theorem pooling_prompt_never_finishes n :
  exists x, run_events pool_cfg None (Request_arrives pool_request :: replicate (3 + n) Step_scheduled) (run_start pool_kvm) = Ok x /\
    rn_scheduled x = [[("p", 5)]; [("p", 2)]; []] ++ replicate n [] /\ running (rn_sched x) = ["p"] /\
    object_of num_tokens "p" x = Some 8 /\ object_of num_computed_tokens "p" x = Some 7.
Proof.
  pose proof (run_ok pool_kvm (run_events pool_cfg None [Request_arrives pool_request; Step_scheduled; Step_scheduled; Step_scheduled]
    (run_start pool_kvm)) ltac:(by vm_compute)) as E3. fold pool_three in E3.
  destruct (pool_idle_run n pool_three ltac:(eexists; apply pool_three_state)) as (x & Ex & El & kv & Es).
  exists x. split_and!.
  - change (_ :: replicate (3 + n) Step_scheduled) with ([Request_arrives pool_request; Step_scheduled; Step_scheduled; Step_scheduled] ++
      replicate n Step_scheduled). unfold run_events in *. rewrite foldM_app, E3. exact Ex.
  - by rewrite El.
  - by rewrite Es.
  - unfold object_of. rewrite Es. by vm_compute.
  - unfold object_of. rewrite Es. by vm_compute.
Qed.

(** ** A stale block hash *)

Definition session_start (toks : list Z) (arrived : Z) : Request :=
  request_or (new_request demo_hasher "s" arrived 0 0 arrived None (Some toks) (gen_params 1) None None [] None None true).
Definition session_next : Request := gen_request "t" 3 0 [1; 2; 3; 4; 5] 3.
Definition session_events : list Event :=
  [Request_arrives (session_start [1; 2; 3] 1); Step_scheduled; Output_arrives (sampled [("s", [4])]);
   Request_arrives (session_start [9] 2); Step_scheduled; Request_arrives session_next; Step_scheduled].
Definition session_run : result Run := run_events demo_cfg8 demo_hasher session_events (run_start unit_kvm).

(** C33: A streaming session whose last sampled token is discarded for the next input keeps
    the hash of the block that token completed: [_update_request_as_session] truncates the
    tokens and calls [update_block_hashes], which only appends.  The session's tokens are
    [1; 2; 3; 9] with the block hashes of [1; 2; 3; 4], the computed block goes into the
    prefix cache under the wrong hash, and a later request with the prompt [1; 2; 3; 4; 5]
    takes it: only its last token is scheduled, on the KV cache of token 9. *)
Theorem session_keeps_stale_hash :
  exists x, session_run = Ok x /\ object_of all_token_ids "s" x = Some [1; 2; 3; 9] /\
    object_of block_hashes "s" x = Some (block_hashes (gen_request "u" 4 0 [1; 2; 3; 4] 3)) /\
    block_hashes (gen_request "u" 4 0 [1; 2; 3; 9] 3) <> block_hashes (gen_request "u" 4 0 [1; 2; 3; 4] 3) /\
    rn_scheduled x = [[("s", 3)]; [("s", 1)]; [("t", 1)]] /\ object_of num_cached_tokens "t" x = Some 4.
Proof.
  exists (run_or unit_kvm session_run). split_and!; [apply run_ok|..]; by vm_compute.
Qed.

(** ** A token that is lost *)

Definition lost_cfg : SchedConfig := demo_sched_cfg 8 100 true.
Definition lost_events : list Event :=
  [Request_arrives demo_p; Step_scheduled; Output_arrives (sampled [("p", [11])]); Cache_reset true;
   Step_scheduled; Output_arrives (sampled [("p", [12])]); Step_scheduled; Output_arrives (sampled [("p", [13])])].

(** With asynchronous scheduling, a reset of the prefix cache that preempts the running
    requests marks the next output of each as one to discard, whether or not a step is in
    flight.  When none is, the first token after the reset is lost: the request ends up
    with the tokens 11 and 13, and one placeholder too many. *)
Theorem reset_loses_token :
  exists x, run_events lost_cfg demo_hasher lost_events (run_start unit_kvm) = Ok x /\
    object_of output_token_ids "p" x = Some [11; 13] /\ object_of num_output_placeholders "p" x = Some 1 /\ rn_flight x = [].
Proof.
  exists (run_or unit_kvm (run_events lost_cfg demo_hasher lost_events (run_start unit_kvm))).
  split_and!; [apply run_ok|..]; by vm_compute.
Qed.

(** ** The LoRA limit *)

Definition lora_cfg : SchedConfig := mkSC 4 4 100 0 true false 0 0 false 0 (Some 1) false 2 false true false false 1 false.
Definition lora_req (id : string) (oid lora : Z) (toks : list Z) : Request :=
  request_or (new_request demo_hasher id oid 0 0 5 None (Some toks) (gen_params 3) None None [] (Some (mkLoRA id lora)) None false).
Definition lora_events : list Event :=
  [Request_arrives (lora_req "a" 1 1 [1; 2; 3]); Request_arrives (lora_req "b" 2 2 [1; 2; 3; 4; 5; 6; 7; 8; 9; 10]);
   Step_scheduled; Step_scheduled; Output_arrives (sampled [("a", [11])])].

(** With pipeline parallelism and chunked prefill the assertion of [schedule] on the
    number of scheduled LoRAs fails: while the output of request a (LoRA 1) is in flight
    nothing of a is scheduled, so the set of scheduled LoRAs is empty although a runs, and
    request b (LoRA 2) is admitted under the limit of one LoRA; when the token of a
    arrives, the next step schedules both. *)
Theorem lora_limit_assertion_fails :
  exists x, run_events lora_cfg demo_hasher lora_events (run_start unit_kvm) = Ok x /\
    rn_scheduled x = [[("a", 3)]; [("b", 4)]] /\ running (rn_sched x) = ["a"; "b"] /\
    run_event lora_cfg demo_hasher Step_scheduled x = Err AssertionError.
Proof.
  exists (run_or unit_kvm (run_events lora_cfg demo_hasher lora_events (run_start unit_kvm))).
  split_and!; [apply run_ok|..]; by vm_compute.
Qed.

(** ** A session that is lost *)

(** Four usable blocks of two tokens. *)
Definition four_blocks : KVCacheConfig := mkKVConfig 5 [] [mkGroup ["a"] (LayerSpec demo_full)].
Definition four_kvm : KVCacheManager := kvm_or (kvm_init four_blocks 100 2 true false true false 1 1).
Definition preempted_events : list Event :=
  [Request_arrives (gen_request "a" 7 0 [5; 6; 7; 8] 9); Request_arrives (session_start [1; 2; 3] 1); Step_scheduled;
   Request_arrives (session_start [9] 2); Step_scheduled; Output_arrives (sampled [("a", [11]); ("s", [4])])].
Definition waiting_of (x : Run) : list string * list string :=
  let s := rn_sched x in
  (match waiting s with FCFS l => l end, match skipped_waiting s with FCFS l => l end).

(** C35: A streaming session that is preempted while its last output is in flight, and whose
    next input has arrived, is lost: [_preempt_request] sets the computed tokens to 0, so
    [_update_request_as_session] drops every earlier token (only the new input is left of
    the tokens, while the prompt keeps both), and after [_handle_stopped_request] queued it
    again [update_from_output] removes it from the waiting queue as a request that stopped
    after its preemption.  It keeps the status WAITING and is in no queue. *)
Theorem preempted_session_is_lost :
  exists x, run_events lost_cfg demo_hasher preempted_events (run_start four_kvm) = Ok x /\
    rn_scheduled x = [[("a", 4); ("s", 3)]; [("a", 1)]] /\
    object_of status "s" x = Some WAITING /\ object_of all_token_ids "s" x = Some [9] /\
    object_of prompt_token_ids "s" x = Some (Some [1; 2; 3; 9]) /\
    requests (rn_sched x) = ["a"; "s"] /\ running (rn_sched x) = ["a"] /\ waiting_of x = ([], []).
Proof.
  exists (run_or four_kvm (run_events lost_cfg demo_hasher preempted_events (run_start four_kvm))).
  split_and!; [apply run_ok|..]; by vm_compute.
Qed.

(** ** A finished request in the queue *)

(** Seven usable blocks; pipeline parallelism, two LoRAs at a time, prefill chunks of 5. *)
Definition seven_blocks : KVCacheConfig := mkKVConfig 8 [] [mkGroup ["a"] (LayerSpec demo_full)].
Definition seven_kvm : KVCacheManager := kvm_or (kvm_init seven_blocks 100 2 true false true false 1 1).
Definition skip_cfg : SchedConfig := mkSC 4 12 100 5 true false 0 0 false 0 (Some 2) false 2 false true false false 1 false.
Definition short_req (id : string) (oid lora : Z) (toks : list Z) : Request :=
  request_or (new_request demo_hasher id oid 0 0 5 None (Some toks) (gen_params 1) None None [] (Some (mkLoRA id lora)) None false).
Definition skip_events : list Event :=
  [Request_arrives (short_req "a" 1 2 [1; 2; 3; 4; 5; 6; 7; 8; 9; 10]); Request_arrives (short_req "s" 2 1 [11; 12; 13; 14; 15]);
   Request_arrives (short_req "c" 3 3 [21; 22]); Request_arrives (short_req "d" 4 4 [31; 32]);
   Step_scheduled; Step_scheduled; Step_scheduled;
   Output_arrives (sampled [("a", []); ("s", [16])]); Output_arrives (sampled [("a", [17])])].

(** C34: A request that was preempted and then skipped, here for the LoRA limit, and whose
    output in flight finishes it, stays in the queue of skipped requests: [update_from_output]
    removes requests that stop after a preemption from [waiting] only.  It is no longer
    among the requests, and when the queue is served [schedule] raises on its status. *)
Theorem finished_request_stays_skipped :
  exists x, run_events skip_cfg demo_hasher skip_events (run_start seven_kvm) = Ok x /\
    rn_scheduled x = [[("a", 5); ("s", 5)]; [("a", 5)]; [("c", 2); ("d", 2)]] /\
    waiting_of x = ([], ["s"]) /\ requests (rn_sched x) = ["c"; "d"] /\
    object_of status "s" x = Some FINISHED_LENGTH_CAPPED /\
    run_event skip_cfg demo_hasher Step_scheduled x = Err RuntimeError.
Proof.
  exists (run_or seven_kvm (run_events skip_cfg demo_hasher skip_events (run_start seven_kvm))).
  split_and!; [apply run_ok|..]; by vm_compute.
Qed.
