(* ===== verification/SizingFindings.v ===== *)
(** * Where the memory check of the KV cache is too weak

    Configurations that the check of kv_cache_utils.py accepts, as enough for one request of
    the maximum model length, and on which the scheduler never schedules such a request. *)
From S2P Require Import Prelude FreeQueue Request RequestQueue EncoderCache StopConditions BlockHash KVCacheSpec KVCacheSizing BlockPool SingleTypeManager CacheHit Coordinator KVCacheManager SchedulerState ScheduleStep SchedulerUpdate KVCacheProps SchedulerProps SchedulerFindings.

#[local] Existing Instance run_ops.

(** Eight tokens per request, blocks of two tokens, no prefix caching. *)
Definition eight_tokens : SizingConfig := mkSizing (mkConfig 8 1 1 8 0 MambaNone) None false 8.
Definition sized_start (cfgs : result (list KVCacheConfig * SizingConfig)) : KVCacheManager :=
  match cfgs with Ok ([cfg], _) => kvm_or (kvm_init cfg 8 2 false false false false 1 1) | _ => pool_kvm end.
Definition long_request : Request :=
  request_or (new_request None "r" 1 0 0 5 None (Some [1; 2; 3; 4; 5; 6; 7]) (gen_params 1) None None [] None None false).
Definition sized_cfg : SchedConfig := demo_sched_cfg 8 8 false.
(** The request arrives, and steps are scheduled: what each of them schedules, who waits and
    runs then, and the free blocks. *)
Definition starved (kvm : KVCacheManager) (free : Z) : Prop :=
  forall steps, exists x, run_events sized_cfg None (Request_arrives long_request :: replicate steps Step_scheduled) (run_start kvm) = Ok x /\
    rn_scheduled x = replicate steps [] /\ waiting_of x = (["r"], []) /\ running (rn_sched x) = [] /\
    get_num_free_blocks (km_pool (kv_cache_manager (rn_sched x))) = free.

Definition full_only : specs_dict := [("a", demo_full)].
Definition full_kvm : KVCacheManager := sized_start (get_kv_cache_configs eight_tokens [full_only] [32]).

Definition two_kinds : specs_dict := [("a", demo_full); ("b", SlidingWindowSpec 2 demo_attn 4)].
Definition two_kvm : KVCacheManager := sized_start (get_kv_cache_configs eight_tokens [two_kinds] [40]).

(** ** A step that changes nothing *)

(** The scheduler before the first step, and the same with another heap of blocks and another
    table of cached blocks. *)
Definition arrived (kvm : KVCacheManager) : Run := run_or kvm (run_events sized_cfg None [Request_arrives long_request] (run_start kvm)).
Definition with_heap (h : heap) (m : hash_map) (s : FScheduler) : FScheduler :=
  let k := kv_cache_manager s in let c := coordinator k in let p := co_pool c in
  set_kv_cache_manager (mkKVM (km_max_model_len k) (km_enable_caching k) (prefix_cache_stats k)
    (with_state (mkPool (num_gpu_blocks p) (enable_caching p) (hash_block_size p) (blocks p) (mkQ h (num_free_blocks (free_block_queue p))) m
       (null_block p) (enable_kv_cache_events p) (kv_event_queue p)) (single_type_managers c) c) (num_kv_cache_groups k)) s.
Lemma with_heap_id s : with_heap (pheap (km_pool (kv_cache_manager s))) (cached_block_hash_to_block (km_pool (kv_cache_manager s))) s = s.
Proof. destruct s as [? ? ? ? ? ? ? ? ? ? [? ? ? [? ? ? [? ? ? ? [? ?] ? ? ? ?] ?] ?] ? ?]. reflexivity. Qed.
Definition idle_step (s : FScheduler) : Prop := exists o, schedule sized_cfg any_grammar s = Ok (o, s) /\ out_num_scheduled_tokens o = [].
(** It is enough to see this of a state whose heap is not looked at. *)
Lemma idle_by_heap s : (forall h m, idle_step (with_heap h m s)) -> idle_step s.
Proof. intros H. rewrite <- (with_heap_id s). apply H. Qed.
Lemma idle_run n x : idle_step (rn_sched x) -> exists y, run_events sized_cfg None (replicate n Step_scheduled) x = Ok y /\
  rn_sched y = rn_sched x /\ rn_scheduled y = rn_scheduled x ++ replicate n [].
Proof.
  intros (o & E & Eo). revert x E. induction n as [|n IH]; intros x E; [exists x; by rewrite app_nil_r|]. cbn [replicate]. unfold run_events in *. cbn [foldM run_event]. rewrite E. cbn [mbind result_bind].
  destruct (IH (mkRun (rn_sched x) (rn_flight x ++ [o]) (rn_scheduled x ++ [out_num_scheduled_tokens o])) E) as (y & Ey & Es & El). exists y. split_and!; [exact Ey|done|]. rewrite El. cbn. rewrite Eo. by rewrite <- app_assoc.
Qed.
Lemma starved_by_idle kvm free : run_events sized_cfg None [Request_arrives long_request] (run_start kvm) = Ok (arrived kvm) -> idle_step (rn_sched (arrived kvm)) -> rn_scheduled (arrived kvm) = [] ->
  waiting_of (arrived kvm) = (["r"], []) -> running (rn_sched (arrived kvm)) = [] -> get_num_free_blocks (km_pool (kv_cache_manager (rn_sched (arrived kvm)))) = free -> starved kvm free.
Proof.
  intros E Hi Hs Hw Hr Hf n. destruct (idle_run n (arrived kvm) Hi) as (y & Ey & Es & El). exists y. split_and!.
  - change (_ :: replicate n Step_scheduled) with ([Request_arrives long_request] ++ replicate n Step_scheduled). unfold run_events in *. by rewrite foldM_app, E.
  - by rewrite El, Hs.
  - unfold waiting_of in *. by rewrite Es.
  - by rewrite Es.
  - by rewrite Es.
Qed.

(** ** Two configurations *)

(** C38: The check that the cache can hold one request of the maximum model length ignores the
    null block: with memory for just the blocks of one request, as many as the check asks
    for, one of them is the null block, and a request whose prompt has all but one of the
    tokens of the model length is never scheduled, however many steps are, although every
    block stays free: each step leaves the scheduler as it was. *)
Theorem exact_memory_never_scheduled :
  get_kv_cache_configs eight_tokens [full_only] [31] = Err ValueError /\
  exists cfg c, get_kv_cache_configs eight_tokens [full_only] [32] = Ok ([cfg], c) /\ vllm c = vllm eight_tokens /\ num_blocks cfg = 4 /\
    kvm_init cfg 8 2 false false false false 1 1 = Ok full_kvm /\ starved full_kvm 3.
Proof.
  split; [by vm_compute|]. eexists _, _. split_and!; [by vm_compute|done|done|apply kvm_or_ok; by vm_compute|].
  apply starved_by_idle; [apply run_ok; by vm_compute|apply idle_by_heap; intros h m; eexists; split; by vm_compute|by vm_compute..].
Qed.

(** C39: For several groups the check counts only the blocks of the first: with one full and
    one sliding window layer it accepts five blocks for requests of eight tokens, although
    the same configuration is reported to hold 5/9 of such a request, and the request is never
    scheduled, however many steps are, although every block stays free. *)
Theorem hybrid_memory_never_scheduled :
  exists cfg c, get_kv_cache_configs eight_tokens [two_kinds] [40] = Ok ([cfg], c) /\ vllm c = vllm eight_tokens /\ num_blocks cfg = 5 /\
    get_max_concurrency (vllm c) cfg = Ok (5, 9) /\ kvm_init cfg 8 2 false false false false 1 1 = Ok two_kvm /\ starved two_kvm 4.
Proof.
  eexists _, _. split_and!; [by vm_compute|done|done|by vm_compute|apply kvm_or_ok; by vm_compute|].
  apply starved_by_idle; [apply run_ok; by vm_compute|apply idle_by_heap; intros h m; eexists; split; by vm_compute|by vm_compute..].
Qed.
